(* ===== verification/_CoqProject ===== *)
-Q . S2P
Prelude.v
GoStrings.v
GoTime.v
Identity.v
Service.v
PolicyApi.v
Net.v
Cidr.v
TrafficPolicy.v
K8s.v
K8sClient.v
KubeProvider.v
Smi.v
PolicyClient.v
Catalog.v
CatalogEgress.v
CatalogInbound.v
CatalogOutbound.v
CatalogIngress.v
Multicluster.v
FsmProvider.v
MeshConfig.v
Broker.v
Certificate.v
CertIssuers.v
Gateway.v
Pipy.v
PipyPlugin.v
Webhook.v
PipyServer.v
PipyInbound.v
PipyOutbound.v
PipySidecar.v
PipyJob.v
PipyMesh.v
PipyCert.v
Scheduling.v
Iptables.v
Probes.v
EnvoyRbac.v
EnvoyProxy.v
EnvoyAds.v
EnvoyServer.v
Injector.v
EnvoyRoute.v
EnvoyXds.v
EnvoyCds.v
EnvoyLds.v
EnvoyMesh.v
Demo.v
DemoPipy.v
DemoEnvoy.v
DemoListeners.v
DemoMulticluster.v
