(* ===== verification/Prelude.v ===== *)
(** * The osm-edge control plane

    osm-edge is a service mesh: a control plane reads the resources of a Kubernetes
    cluster and configures the sidecar proxy of every workload, so that traffic between
    workloads is encrypted and goes where the resources allow it.  This library models
    the control plane (Go, src/pkg), the scripts that the pipy sidecars run (JavaScript,
    src/pkg/sidecar/providers/pipy/repo/codebase), and proves what makes them correct.

    ** The parts and how they interact

    Resources are read through clients: the Kubernetes controller, the SMI client and the
    policy client answer from informer stores, and the provider turns Kubernetes services
    and pods into mesh services and endpoints.  The catalog combines them into traffic
    policies: who may call a workload and how (inbound), whom a workload may call
    (outbound, egress), and what enters the mesh (ingress, access control, exports).  The
    message broker turns the events of the cluster into update messages for the proxies,
    in batches.  With pipy, a session per proxy waits for them and has a job generate the
    configuration from the policies of the catalog, with the certificate that the
    certificate manager issues; the job publishes it, and the scripts of the sidecar
    enforce it on every request.  With Envoy, a stream per proxy sends the configuration as
    resources of the discovery protocol, which Envoy enforces.

    ** Files

    - [Prelude], [GoStrings], [Net]: panics, errors and loops, the iteration order of maps
      and the result of sorting as classes, and the parts of Go's packages strings,
      strconv and net that the code uses.
    - [Identity], [Service], [PolicyApi], [TrafficPolicy]: pkg/identity, pkg/service,
      pkg/apis/policy, pkg/trafficpolicy.
    - [K8s], [K8sClient], [KubeProvider], [Smi], [PolicyClient]: pkg/k8s,
      pkg/providers/kube and pkg/endpoint, pkg/smi, pkg/policy.  The interfaces between
      them and the catalog are records of operations ([K8s.Controller],
      [KubeProvider.Provider], [Smi.MeshSpec], ...); the catalog is proved against them.
    - [Catalog], [CatalogInbound], [CatalogOutbound], [CatalogEgress], [CatalogIngress]:
      pkg/catalog.
    - [MeshConfig], [Cidr]: pkg/configurator and the MeshConfig resource; pkg/utils/cidr.
    - [Broker]: pkg/messaging, with the dispatcher and its timers as steps in time.
    - [Certificate], [CertIssuers]: pkg/certificate, with its providers Tresor and Vault
      and the secret that holds the root.
    - [GoTime], [Scheduling]: time.ParseDuration; pkg/workerpool and pkg/ticker, with their
      goroutines as steps.
    - [Webhook]: pkg/validator, the webhook that admits policy resources.
    - [Pipy], [PipyPlugin], [PipyInbound], [PipyOutbound], [PipyJob], [PipyCert]:
      pkg/sidecar/providers/pipy/repo, the configuration of a sidecar and the job that
      makes it.
    - [PipyServer]: the registry and the goroutines of the sessions (pipy/registry,
      repo/inform.go, repo/broadcast.go) as a step relation.
    - [PipySidecar], [PipyMesh]: the scripts of the sidecar; the sidecars of a client and of
      a server together.
    - [EnvoyProxy], [EnvoyAds], [EnvoyServer]: pkg/sidecar/providers/envoy, proxies with the
      versions and nonces of the discovery protocol, the dialog on one stream, and the
      registry with the streams of all proxies.
    - [EnvoyRbac], [EnvoyRoute], [EnvoyXds]: what the dialog sends: access control filters,
      route configurations, endpoints and secrets.
    - [EnvoyCds], [EnvoyLds], [EnvoyMesh]: TLS contexts and clusters, filter chains and
      listeners; and all kinds of resources together.
    - [Multicluster], [FsmProvider]: pkg/multicluster and pkg/providers/fsm, services of other
      clusters, which the catalog reads through the interfaces of [Catalog] and
      [KubeProvider].
    - [Gateway]: pkg/ingress, certificates of ingress gateways and AccessCerts in secrets.
    - [Iptables], [Probes], [Injector]: pkg/injector with the pipy driver: the interception of
      the traffic of a pod, its health probes, and the webhook that patches it.
    - [Demo], [DemoPipy], [DemoEnvoy], [DemoListeners], [DemoMulticluster]: a small mesh on
      which the theorems are applied.

    A Go struct is a record with the source's field names behind a prefix, a function
    that can panic returns an [outcome], one that returns an error a [result].  Maps are
    finite maps; a [range] over one visits it in the order of the class [RangeOrder], and
    theorems hold for every order.  Code that mutates through shared pointers is modelled
    on an explicit store where the sharing matters (merging of rules, plugin
    configurations, the proxies of the registry), and by reading and writing back where
    there is one path to the object.  Integers are [Z] with Go's wrap-around written out.

    ** What the theorems show

    - Authorisation, end to end: a request that the sidecar of a client sends and that of a
      workload routes is authorised by a TrafficTarget for the client, and a request that
      one authorises is served ([PipyMesh.client_request_authorised],
      [PipyJob.request_served]).  The identity is that of a header of the request, which the
      sidecar of the client writes; that a peer writes the header of another is not
      excluded by the code ([PipyMesh.peer_names_unused]), and is by a hypothesis.
      They go by way of the catalog
      ([CatalogInbound.GetInboundMeshTrafficPolicy_authorised], [Catalog.inbound_outbound_agree]),
      the configuration ([PipyInbound.generatePipyInbound_exact]) and the scripts
      ([PipySidecar.serviceHandler_reference]).
    - Destinations: endpoints and clusters of a sidecar are allowed ones
      ([PipyOutbound.jobOutbound_served], [Catalog.ListAllowedUpstreamEndpoints_spec]),
      weights are fair ([CatalogOutbound.activeUpstreamClusters_fair],
      [PipyJob.balance_serves]), the longest prefix wins
      ([PipyJob.destination_longest_prefix]).
    - Policies: what each policy of the catalog contains, and that its parts refer to
      parts that exist (the [_spec], [_clusters] and [_integrity] theorems).
    - Updates: the dispatcher never blocks, sends within ten seconds and not more often
      than every two ([Broker]).
    - Sessions: the registry stays within its limit ([PipyServer.registry_invariant]), and
      which sessions hang ([PipyServer.refused_proxy_blocks], [PipyServer.session_never_returns]).
    - Certificates: none expires between checks, a check replaces exactly what it should
      and its announcements arrive, replicas agree on the root, stages of a root rotation
      trust each other, and when a job gets its certificate and when never.
    - Envoy: the same end to end, from the resources to the routes that Envoy is sent
      ([EnvoyXds.envoy_request_authorised], [EnvoyXds.envoy_request_served]), connections
      ([EnvoyRbac.network_rbac_exact]) and peers ([EnvoyXds.outbound_peers_exact]); the
      protocol ([EnvoyAds.versions_consecutive]) and when its dialogs end
      ([EnvoyXds.rds_dialog_ends], [EnvoyXds.eds_dialog_ends_iff]); the registry
      ([EnvoyServer]).
      The resources fit together: names resolve ([EnvoyMesh.listeners_resolve]), the
      secrets of a TLS context are sent ([EnvoyMesh.tls_secrets_roundtrip]), and the
      connection of one sidecar is taken by the other ([EnvoyMesh.mesh_connection_served]);
      what makes Envoy refuse a listener ([EnvoyMesh.same_target_port_refused],
      [EnvoyMesh.two_splits_refused]).
    - Other clusters: imported services have endpoints that follow the traffic policy
      ([FsmProvider.imported_services_served]), what an import says reaches them
      ([FsmProvider.imported_endpoints_roundtrip]), and where splits do not follow the
      policy ([FsmProvider.split_ignores_targets]).
    - The secret of a gateway follows the manager, from the subscription of the goroutine
      on ([Gateway.gateway_secret_follows], [Gateway.gap_rotation_lost]); when
      AccessCerts are stuck or not renewed ([Gateway.failed_access_cert_stuck],
      [Gateway.shared_name_never_renewed]).
    - Goroutines that serve others: the pool finishes its jobs, or starves, the ticker
      follows the MeshConfig, or blocks ([Scheduling]).
    - Injection: which packets of a pod are redirected ([Iptables.interception_exact]), that
      TCP probes and the first HTTP probe of a kind keep their results
      ([Probes.probes_preserved], [Probes.ProbesWitness.second_probe_misdirected]), which pods get a sidecar and
      that the controller recognises them ([Injector]).
    - Admission: what the webhook admits, keeps unique, and panics on ([Webhook]).
    - Representation: names and addresses determine what they stand for (the [_roundtrip]
      theorems, [Cidr.IncrIP_DecrIP]), merging on shared pointers refines merging of
      values ([TrafficPolicy.MergeRules_st_refines]), loops end ([Cidr.ForEachIP_visits]).
    - Deviations: where the code does not do what it means to, a theorem says what it does
      instead.

    ** Bounds and fuel

    Recursion is structural except for some loops.  [Cidr.eachIP] takes its fuel as an
    argument, and any fuel above the number of addresses is enough for a network of any mask
    but /0, for which the loop of the code does not end either.  [PipyCert.certLoop] runs a
    given number of turns of a loop that has no bound: two are enough for a validity
    period over 34 seconds, and no number is for one of 30 seconds or less.
    [Net.parseIPv6_loop] and [GoTime.parseComponents] have the length of the string as fuel,
    and consume a character in every turn.  [EnvoyAds.dialog] runs a given number of rounds
    of a dialog, and the theorems speak of all numbers.
    Runs of the broker, the sessions, the replicas and the certificate manager are finite
    sequences of steps of any length.

    ** Parameters

    What is not under src/ is a parameter with its documented laws: informer stores, label
    selectors, hashes of structures, the UUID parser, regular expressions and balancers of
    pipy, cryptography, the Vault client and the API server, JSON, the order of maps and
    the choice of the sort among equal elements.

    ** Not modelled

    - pkg/sidecar/providers/envoy/bootstrap and driver, which fill in the static configuration
      with which Envoy starts and its container, without decisions on policies; the mode of
      the discovery service with a snapshot cache, which is that of go-control-plane.
    - pkg/reconciler, which calls the API server; the registration of event handlers with
      the informers.
    - Code that calls the API server, serves HTTP or gRPC, writes to a shell or measures:
      cmd, pkg/cli, pkg/debugger, pkg/metricsstore, pkg/httpserver, pkg/health, pkg/cni.
    - Generated code: clients, listers, informers and deep copies (pkg/gen, pkg/apis).
*)

From stdpp Require Export base gmap sets list strings pretty sorting.
From Stdlib Require Export ZArith Lia.

(** * Notations and automation *)

Declare Scope osm_scope.
Delimit Scope osm_scope with osm.
Open Scope osm_scope.
#[export] Set Default Proof Using "Type".

(** The lemmas of the library that close routine side conditions. *)
Create HintDb osm.

(** * Panics

    A Go function that indexes a slice out of range or dereferences a nil
    pointer panics: it returns no value.  [outcome A] is the result of such a
    function, with stdpp's monadic notation ([x ← m; k]). *)

Inductive outcome (A : Type) : Type :=
| Ret (a : A)
| Panic.
Arguments Ret {A} a.
Arguments Panic {A}.

#[global] Instance outcome_ret : MRet outcome := @Ret.
#[global] Instance outcome_bind : MBind outcome :=
  λ A B f m, match m with Ret a => f a | Panic => Panic end.
#[global] Instance outcome_fmap : FMap outcome :=
  λ A B f m, match m with Ret a => Ret (f a) | Panic => Panic end.

(** A computation that returns. *)
Definition returns {A} (m : outcome A) : Prop := ∃ a, m = Ret a.

(** [(v, err)] results: a value, or an error, in which case the caller does
    not look at the value. *)
Inductive result (E A : Type) : Type :=
| Ok (a : A)
| Err (e : E).
Arguments Ok {E A} a.
Arguments Err {E A} e.

#[global] Instance result_eq_dec {E A} `{EqDecision E, EqDecision A} :
  EqDecision (result E A).
Proof. solve_decision. Defined.
#[global] Instance outcome_eq_dec {A} `{EqDecision A} : EqDecision (outcome A).
Proof. solve_decision. Defined.

Definition result_value {E A} (r : result E A) : option A :=
  match r with Ok a => Some a | Err _ => None end.

Lemma bind_Ret {A B} (m : outcome A) (f : A → outcome B) b :
  m ≫= f = Ret b ↔ ∃ a, m = Ret a ∧ f a = Ret b.
Proof. destruct m; naive_solver. Qed.

Lemma fmap_Ret {A B} (m : outcome A) (f : A → B) b :
  f <$> m = Ret b ↔ ∃ a, m = Ret a ∧ b = f a.
Proof. destruct m; naive_solver. Qed.

(** A [for] loop whose body may panic. *)
Fixpoint mapO {A B} (f : A → outcome B) (l : list A) : outcome (list B) :=
  match l with
  | [] => Ret []
  | x :: l => y ← f x; ys ← mapO f l; Ret (y :: ys)
  end.

Lemma mapO_Forall2 {A B} (f : A → outcome B) l k :
  mapO f l = Ret k ↔ Forall2 (λ x y, f x = Ret y) l k.
Proof.
  revert k. induction l as [|x l IH]; intros k; simpl.
  - split; [intros [= <-]; constructor|by inversion 1].
  - rewrite bind_Ret. setoid_rewrite bind_Ret. split.
    + intros (y & Hy & ys & Hys%IH & [= <-]). by constructor.
    + inversion 1 as [|? y ? ys Hy Hys]; subst. apply IH in Hys.
      exists y. split; [done|]. by exists ys.
Qed.

Lemma mapO_elem {A B} (f : A → outcome B) l k x :
  mapO f l = Ret k → x ∈ l → ∃ y, f x = Ret y ∧ y ∈ k.
Proof.
  intros Hl%mapO_Forall2 [i Hi]%list_elem_of_lookup. destruct (Forall2_lookup_l _ _ _ _ _ Hl Hi) as (y & Hy & Hf).
  exists y. split; [done|]. by eapply list_elem_of_lookup_2.
Qed.

Lemma mapO_app {A B} (f : A → outcome B) l k :
  mapO f (l ++ k) = (xs ← mapO f l; ys ← mapO f k; Ret (xs ++ ys)).
Proof.
  induction l as [|x l IH]; simpl; [by destruct (mapO f k)|]. destruct (f x); simpl; [|done].
  rewrite IH. destruct (mapO f l); simpl; [|done]. by destruct (mapO f k).
Qed.

(** The same, where every turn appends to the result. *)
Definition concatO {A B} (f : A → outcome (list B)) (l : list A) : outcome (list B) :=
  xss ← mapO f l; Ret (mjoin (xss : list (list B))).

Lemma elem_of_concatO {A B} (f : A → outcome (list B)) l r y :
  concatO f l = Ret r → y ∈ r ↔ ∃ x ys, x ∈ l ∧ f x = Ret ys ∧ y ∈ ys.
Proof.
  unfold concatO. intros (xss & Hxss%mapO_Forall2 & [= <-])%bind_Ret.
  induction Hxss as [|x ys l xss Hx Hl IH]; csimpl; [set_solver|].
  rewrite elem_of_app, IH. setoid_rewrite elem_of_cons. split.
  - naive_solver.
  - intros (x' & ys' & [->|?] & Hf & ?); [|naive_solver]. left. congruence.
Qed.

Lemma concatO_returns {A B} (f : A → outcome (list B)) l r x :
  concatO f l = Ret r → x ∈ l → returns (f x).
Proof.
  unfold concatO. intros (xss & Hxss%mapO_Forall2 & _)%bind_Ret.
  induction Hxss as [|x' ys l xss Hx Hl IH]; [set_solver|].
  intros [->|?]%elem_of_cons; [by exists ys|auto].
Qed.

Lemma concatO_total {A B} (f : A → outcome (list B)) l : (∀ x, x ∈ l → returns (f x)) → returns (concatO f l).
Proof.
  unfold concatO. induction l as [|x l IH]; intros Hf; [by eexists|]. destruct (Hf x) as [y Hy]; [by left|].
  destruct IH as [r Hr]; [intros; apply Hf; by right|]. apply bind_Ret in Hr as (ys & Hys & _).
  eexists. cbn [mapO]. rewrite Hy. simpl. rewrite Hys. simpl. done.
Qed.

Lemma filter_all {A} (P : A → Prop) `{∀ x, Decision (P x)} (l : list A) : (∀ x, P x) → filter P l = l.
Proof. intros HP. induction l as [|x l IH]; [done|]. by rewrite filter_cons_True, IH. Qed.

(** A loop that updates a state and may panic. *)
Fixpoint foldO {A B} (f : B → A → outcome B) (b : B) (l : list A) : outcome B :=
  match l with
  | [] => Ret b
  | x :: l => b ← f b x; foldO f b l
  end.

Lemma foldO_app {A B} (f : B → A → outcome B) b l k :
  foldO f b (l ++ k) = (b ← foldO f b l; foldO f b k).
Proof. revert b. induction l as [|x l IH]; intros b; simpl; [done|]. by destruct (f b x); simpl. Qed.

Lemma foldO_inv {A B} (f : B → A → outcome B) (P : B → Prop) b l b' :
  (∀ b x b', x ∈ l → P b → f b x = Ret b' → P b') → P b → foldO f b l = Ret b' → P b'.
Proof.
  intros Hstep. revert b. induction l as [|x l IH]; intros b Hb; simpl; [by intros [= <-]|].
  intros (b1 & Hf & Hl)%bind_Ret. eapply (IH ltac:(intros; eapply Hstep; [by right|..]; eauto) b1); [|done].
  eapply Hstep; [by left|..]; eauto.
Qed.

Lemma foldl_inv {A B} (f : B → A → B) (P : B → Prop) b l :
  (∀ b x, P b → P (f b x)) → P b → P (foldl f b l).
Proof. intros Hstep. revert b. induction l; simpl; auto. Qed.

(** A loop that stops at the first error. *)
Fixpoint foldE {E A B} (f : B → A → result E B) (b : B) (l : list A) : result E B :=
  match l with
  | [] => Ok b
  | x :: l => match f b x with Ok b => foldE f b l | Err e => Err e end
  end.

Lemma foldE_ext {E A B} (f g : B → A → result E B) b l : (∀ b x, f b x = g b x) → foldE f b l = foldE g b l.
Proof. intros Hfg. revert b. induction l as [|x l IH]; intros b; simpl; [done|]. rewrite Hfg. by destruct (g b x). Qed.

(** * Slices, pointers and fixed-width integers

    A slice is nil or an array of elements; code that tests [s == nil], or
    compares with [reflect.DeepEqual], tells the nil slice from the empty one.
    A slice that the code only ranges over or takes the length of is a plain
    [list].  A pointer that the code only tests and reads is an [option]. *)
Abbreviation slice A := (option (list A)).

Definition elems {A} (s : slice A) : list A := default [] s.

(** [uint16(x)], [uint32(x)], [uint64(x)], [int32(x)], [int(x)] with Go's wrap-around. *)
Definition uint16 (z : Z) : Z := z `mod` 2 ^ 16.
Definition uint32 (z : Z) : Z := z `mod` 2 ^ 32.
Definition uint64 (z : Z) : Z := z `mod` 2 ^ 64.
Definition int32 (z : Z) : Z := (z + 2 ^ 31) `mod` 2 ^ 32 - 2 ^ 31.
Definition int64 (z : Z) : Z := (z + 2 ^ 63) `mod` 2 ^ 64 - 2 ^ 63.

Definition is_uint16 (z : Z) : Prop := (0 ≤ z < 2 ^ 16)%Z.
Definition is_int64 (z : Z) : Prop := (- 2 ^ 63 ≤ z < 2 ^ 63)%Z.

Lemma uint16_id z : is_uint16 z → uint16 z = z.
Proof. intros ?. by apply Z.mod_small. Qed.

Lemma uint16_range z : is_uint16 (uint16 z).
Proof. unfold is_uint16, uint16. apply Z.mod_pos_bound. lia. Qed.

Lemma int64_id z : is_int64 z → int64 z = z.
Proof. intros [??]. unfold int64. rewrite Z.mod_small; lia. Qed.

Lemma int64_range z : is_int64 (int64 z).
Proof.
  unfold is_int64, int64.
  pose proof (Z.mod_pos_bound (z + 2 ^ 63) (2 ^ 64) ltac:(lia)). lia.
Qed.

#[export] Hint Resolve uint16_range int64_range : osm.

(** [time.Second]: durations and times are counted in nanoseconds. *)
Definition second : Z := 1000000000.

(** Wrapping commutes with addition, so a sum computed with wrap-around at every
    step is the sum wrapped once. *)
Definition sumZ : list Z → Z := foldr Z.add 0%Z.

Lemma int64_add_l a b : int64 (int64 a + b) = int64 (a + b).
Proof.
  unfold int64. f_equal.
  replace ((a + 2 ^ 63) `mod` 2 ^ 64 - 2 ^ 63 + b + 2 ^ 63)%Z
    with ((a + 2 ^ 63) `mod` 2 ^ 64 + b)%Z by lia.
  rewrite Zplus_mod_idemp_l. f_equal. lia.
Qed.

Lemma foldl_int64_sum {A} (f : A → Z) l z :
  foldl (λ acc x, int64 (acc + f x)) (int64 z) l = int64 (z + sumZ (f <$> l)).
Proof.
  revert z. induction l as [|x l IH]; intros z; csimpl.
  - f_equal. unfold sumZ. simpl. lia.
  - rewrite int64_add_l, IH. f_equal. unfold sumZ. simpl. lia.
Qed.

#[global] Instance sumZ_perm : Proper ((≡ₚ) ==> (=)) sumZ.
Proof. unfold sumZ. induction 1; simpl; lia. Qed.

(** * Lists *)

(** A search loop that returns at the first hit. *)
Fixpoint first_some {A B} (f : A → option B) (l : list A) : option B :=
  match l with
  | [] => None
  | x :: l => match f x with Some y => Some y | None => first_some f l end
  end.

Lemma first_some_Some {A B} (f : A → option B) l y :
  first_some f l = Some y ↔
  ∃ before x after, l = before ++ x :: after ∧ f x = Some y ∧ ∀ z, z ∈ before → f z = None.
Proof.
  induction l as [|x l IH]; simpl.
  - split; [done|]. intros ([|??] & ? & ? & ? & _); simplify_list_eq.
  - destruct (f x) as [y'|] eqn:Hx.
    + split.
      * intros [= ->]. exists [], x, l. set_solver.
      * intros ([|z before] & x' & after & [= -> ->] & Hx' & Hbefore); [congruence|].
        rewrite Hbefore in Hx; [done|]. by left.
    + rewrite IH. split.
      * intros (before & x' & after & -> & Hx' & Hb). exists (x :: before), x', after.
        split_and!; [done..|]. intros z [->|?]%elem_of_cons; auto.
      * intros ([|z before] & x' & after & [= -> ->] & Hx' & Hb); [congruence|].
        exists before, x', after. split_and!; [done..|]. intros z' ?. apply Hb. by right.
Qed.

Lemma first_some_None {A B} (f : A → option B) l :
  first_some f l = None ↔ ∀ x, x ∈ l → f x = None.
Proof.
  induction l as [|x l IH]; simpl; [set_solver|]. setoid_rewrite elem_of_cons.
  destruct (f x) eqn:Hx; [|rewrite IH; naive_solver]. split; [done|]. intros Hf.
  rewrite Hf in Hx; [done|]. by left.
Qed.

Lemma first_some_elem {A B} (f : A → option B) l y :
  first_some f l = Some y → ∃ x, x ∈ l ∧ f x = Some y.
Proof. intros (b & x & a & -> & ? & _)%first_some_Some. exists x. set_solver. Qed.

(** Distinct keys identify the elements of a list. *)
Lemma NoDup_fmap_key {A B} (f : A → B) l x y :
  NoDup (f <$> l) → x ∈ l → y ∈ l → f x = f y → x = y.
Proof.
  induction l as [|z l IH]; csimpl; [set_solver|].
  rewrite NoDup_cons, !elem_of_cons, list_elem_of_fmap. naive_solver.
Qed.

Lemma NoDup_fmap_filter {A B} (f : A → B) (P : A → Prop) `{!∀ x, Decision (P x)} l :
  NoDup (f <$> l) → NoDup (f <$> filter P l).
Proof.
  induction l as [|x l IH]; [done|]. csimpl. rewrite NoDup_cons, filter_cons. intros [Hx Hl].
  case_decide; csimpl; [|auto]. constructor; [|auto]. rewrite list_elem_of_fmap in *. setoid_rewrite list_elem_of_filter.
  naive_solver.
Qed.

Lemma filter_nil_iff {A} (P : A → Prop) `{!∀ x, Decision (P x)} l :
  filter P l = [] ↔ ∀ x, x ∈ l → ¬ P x.
Proof.
  induction l as [|x l IH]; [set_solver|]. rewrite filter_cons. setoid_rewrite elem_of_cons.
  case_decide; naive_solver.
Qed.

Lemma fmap_nil_iff {A B} (f : A → B) l : f <$> l = [] ↔ l = [].
Proof. by destruct l. Qed.

(** * Sets and the order in which they are visited

    The code keeps its sets in [mapset.Set] and in maps; both are finite sets
    here ([gset], [gmap]).  A [range] over a map, or over [Set.Iter()], visits
    every element once, in an order that is not specified.  [RangeOrder] is
    that order; a theorem that holds for every instance holds whatever the
    runtime chooses. *)
Class RangeOrder : Type := {
  range_set : ∀ {A} `{Countable A}, gset A → list A;
  range_set_perm : ∀ {A} `{Countable A} (X : gset A), range_set X ≡ₚ elements X;
  range_map : ∀ {K V} `{Countable K}, gmap K V → list (K * V);
  range_map_perm : ∀ {K V} `{Countable K} (m : gmap K V), range_map m ≡ₚ map_to_list m;
}.

(** The order in which stdpp enumerates a set: the instance the examples run on. *)
Definition stdpp_order : RangeOrder := {|
  range_set A _ _ X := elements X;
  range_set_perm A _ _ X := reflexivity _;
  range_map K V _ _ m := map_to_list m;
  range_map_perm K V _ _ m := reflexivity _;
|}.

Section range_order.
Context `{RangeOrder}.

Lemma elem_of_range_set `{Countable A} (X : gset A) x : x ∈ range_set X ↔ x ∈ X.
Proof. by rewrite range_set_perm, elem_of_elements. Qed.

Lemma NoDup_range_set `{Countable A} (X : gset A) : NoDup (range_set X).
Proof. rewrite range_set_perm. apply NoDup_elements. Qed.

Lemma range_set_empty `{Countable A} : range_set (∅ : gset A) = [].
Proof. apply Permutation_nil_r. by rewrite range_set_perm, elements_empty. Qed.

Lemma elem_of_range_map `{Countable K} {V} (m : gmap K V) k v :
  (k, v) ∈ range_map m ↔ m !! k = Some v.
Proof. by rewrite range_map_perm, elem_of_map_to_list. Qed.

Lemma NoDup_fst_range_map `{Countable K} {V} (m : gmap K V) :
  NoDup (range_map m).*1.
Proof. rewrite range_map_perm. apply NoDup_fst_map_to_list. Qed.
End range_order.

(** * The [if set.Add(x) { list = append(list, x) }] idiom *)

Section set_append.
Context `{Countable A}.

Definition set_append (st : gset A * list A) (x : A) : gset A * list A :=
  if bool_decide (x ∈ st.1) then st else ({[x]} ∪ st.1, st.2 ++ [x]).

(** The elements of [l], each at its first position. *)
Definition unique (l : list A) : list A := (foldl set_append (∅, []) l).2.

(** The set and the list agree. *)
Definition set_append_ok (st : gset A * list A) : Prop :=
  (∀ x, x ∈ st.1 ↔ x ∈ st.2) ∧ NoDup st.2.

Lemma set_append_ok_nil : set_append_ok (∅, []).
Proof. split; [set_solver|constructor]. Qed.

Lemma set_append_preserves st x : set_append_ok st → set_append_ok (set_append st x).
Proof.
  intros [Heq Hnd]. unfold set_append. case_bool_decide as Hx; [done|]. split; simpl.
  - intros y. rewrite elem_of_app, elem_of_union, Heq. set_solver.
  - apply NoDup_app. split_and!; [done| |apply NoDup_singleton].
    intros y Hy ->%list_elem_of_singleton. by rewrite <-Heq in Hy.
Qed.

Lemma elem_of_set_append st x y :
  set_append_ok st → y ∈ (set_append st x).2 ↔ y ∈ st.2 ∨ y = x.
Proof.
  intros [Heq _]. unfold set_append. case_bool_decide as Hx; simpl.
  - rewrite Heq in Hx. naive_solver.
  - set_solver.
Qed.

Lemma foldl_set_append_ok st l :
  set_append_ok st → set_append_ok (foldl set_append st l).
Proof. revert st. induction l; simpl; auto using set_append_preserves. Qed.

Lemma elem_of_foldl_set_append st l y :
  set_append_ok st → y ∈ (foldl set_append st l).2 ↔ y ∈ st.2 ∨ y ∈ l.
Proof.
  revert st. induction l as [|x l IH]; intros st Hst; simpl; [set_solver|].
  rewrite IH, elem_of_set_append by auto using set_append_preserves. set_solver.
Qed.

Lemma unique_NoDup l : NoDup (unique l).
Proof. apply foldl_set_append_ok, set_append_ok_nil. Qed.

Lemma elem_of_unique l x : x ∈ unique l ↔ x ∈ l.
Proof.
  unfold unique. rewrite elem_of_foldl_set_append by apply set_append_ok_nil. set_solver.
Qed.
End set_append.

#[export] Hint Resolve unique_NoDup set_append_ok_nil set_append_preserves
  foldl_set_append_ok : osm.

(** * [sort.Sort]

    The library calls [Less] on pairs of elements and swaps them.  It is documented
    to sort when [Less] is a strict weak ordering, and not to keep the order of
    equal elements; [SortOrder] is what it does. *)
Record weak_order {A} (less : A → A → bool) (l : list A) : Prop := {
  wo_irreflexive : ∀ x, x ∈ l → less x x = false;
  wo_transitive : ∀ x y z, x ∈ l → y ∈ l → z ∈ l → less x y = true → less y z = true → less x z = true;
  wo_incomparable : ∀ x y z, x ∈ l → y ∈ l → z ∈ l → less x y = true → less x z = true ∨ less z y = true;
}.

Class SortOrder : Type := {
  go_sort : ∀ {A}, (A → A → bool) → list A → list A;
  go_sort_perm : ∀ {A} (less : A → A → bool) l, go_sort less l ≡ₚ l;
  go_sort_sorted : ∀ {A} (less : A → A → bool) l,
    weak_order less l → StronglySorted (λ x y, less y x = false) (go_sort less l);
}.

Lemma StronglySorted_mono {A} (R R' : A → A → Prop) l :
  (∀ x y, R x y → R' x y) → StronglySorted R l → StronglySorted R' l.
Proof. intros HR. induction 1 as [|x l Hl IH Hx]; constructor; [done|]. eapply Forall_impl; eauto. Qed.

Lemma StronglySorted_elem {A} (R R' : A → A → Prop) l :
  (∀ x y, x ∈ l → y ∈ l → R x y → R' x y) → StronglySorted R l → StronglySorted R' l.
Proof.
  intros HR Hs. induction Hs as [|x l Hl IH Hx]; constructor.
  - apply IH. intros y z ? ?. apply HR; by right.
  - rewrite Forall_forall in *. intros y Hy. apply HR; [left|by right|auto].
Qed.

Lemma StronglySorted_after {A} (R : A → A → Prop) l x k y :
  StronglySorted R (l ++ x :: k) → y ∈ k → R x y.
Proof.
  induction l as [|z l IH]; simpl; intros [Hs Hz]%StronglySorted_inv Hy; [|auto]. rewrite Forall_forall in Hz. auto.
Qed.

Lemma weak_order_map {A B} (f : A → B) (less : A → A → bool) (less' : B → B → bool) l :
  (∀ x y, x ∈ l → y ∈ l → less x y = less' (f x) (f y)) → weak_order less' (f <$> l) → weak_order less l.
Proof.
  intros Hf [Hi Ht Hc]. assert (∀ x, x ∈ l → f x ∈ f <$> l) as Hin by (intros x ?; apply list_elem_of_fmap; eauto).
  split.
  - intros x Hx. rewrite Hf by done. auto.
  - intros x y z ???. rewrite !Hf by done. eauto.
  - intros x y z ???. rewrite !Hf by done. eauto.
Qed.

(** Insertion sort, which the library uses on short slices: an element moves to the
    left while it is less than its neighbour. *)
Fixpoint insert_sorted {A} (less : A → A → bool) (x : A) (l : list A) : list A :=
  match l with
  | [] => [x]
  | y :: l => if forallb (less x) (y :: l) then x :: y :: l else y :: insert_sorted less x l
  end.

Definition insertion_sort {A} (less : A → A → bool) (l : list A) : list A :=
  foldl (λ l x, insert_sorted less x l) [] l.

Lemma insert_sorted_perm {A} (less : A → A → bool) x l : insert_sorted less x l ≡ₚ x :: l.
Proof.
  induction l as [|y l IH]; cbn [insert_sorted]; [done|]. destruct (forallb _ _); [done|].
  rewrite IH. apply Permutation_swap.
Qed.

Lemma insertion_sort_perm {A} (less : A → A → bool) l : insertion_sort less l ≡ₚ l.
Proof.
  unfold insertion_sort. assert (∀ acc, foldl (λ l x, insert_sorted less x l) acc l ≡ₚ acc ++ l) as H.
  { induction l as [|x l IH]; intros acc; simpl; [by rewrite app_nil_r|].
    rewrite IH, insert_sorted_perm. apply Permutation_middle. }
  apply (H []).
Qed.

Lemma insert_sorted_sorted {A} (less : A → A → bool) (all : list A) x l :
  weak_order less all → x ∈ all → l ⊆ all →
  StronglySorted (λ x y, less y x = false) l →
  StronglySorted (λ x y, less y x = false) (insert_sorted less x l).
Proof.
  intros Hwo Hx. induction l as [|y l IH]; intros Hl Hs; cbn [insert_sorted]; [repeat constructor|].
  pose proof Hs as [Hs' Hy]%StronglySorted_inv. rewrite Forall_forall in Hy.
  assert (y ∈ all) by (apply Hl; left). assert (l ⊆ all) as Hl' by (intros z ?; apply Hl; by right).
  destruct (forallb (less x) (y :: l)) eqn:E.
  - rewrite forallb_forall in E. constructor; [done|]. rewrite Forall_forall. intros z Hz. destruct (less z x) eqn:E'; [|done].
    rewrite <-(wo_irreflexive _ _ Hwo x Hx). symmetry.
    apply (wo_transitive _ _ Hwo x z x); auto. by apply E, list_elem_of_In.
  - constructor; [by apply IH|]. rewrite Forall_forall. intros z.
    rewrite insert_sorted_perm. intros [->|?]%elem_of_cons; [|auto].
    destruct (less x y) eqn:E'; [|done].
    cbn [forallb] in E. rewrite E' in E. simpl in E.
    apply not_true_iff_false in E. destruct E. apply forallb_forall. intros z Hz%list_elem_of_In.
    destruct (wo_incomparable _ _ Hwo x y z) as [?|Hzy]; auto. by rewrite Hy in Hzy.
Qed.

Lemma insertion_sort_sorted {A} (less : A → A → bool) l :
  weak_order less l → StronglySorted (λ x y, less y x = false) (insertion_sort less l).
Proof.
  intros Hwo. unfold insertion_sort.
  assert (∀ l' acc, l' ⊆ l → acc ⊆ l → StronglySorted (λ x y, less y x = false) acc →
    StronglySorted (λ x y, less y x = false) (foldl (λ l x, insert_sorted less x l) acc l')) as H.
  { induction l' as [|x l' IH]; intros acc Hl' Hacc Hs; simpl; [done|]. apply IH.
    - intros z ?. apply Hl'. by right.
    - intros z. rewrite insert_sorted_perm. intros [->|?]%elem_of_cons; [apply Hl'; left|auto].
    - apply (insert_sorted_sorted _ l); [done|apply Hl'; left|done|done]. }
  apply H; [done|set_solver|constructor].
Qed.

(** A total order has one sorted list of given elements. *)
Record total_order {A} (less : A → A → bool) : Prop := {
  to_irreflexive : ∀ x, less x x = false;
  to_transitive : ∀ x y z, less x y = true → less y z = true → less x z = true;
  to_total : ∀ x y, less x y = false → less y x = false → x = y;
}.

Lemma total_weak_order {A} (less : A → A → bool) l : total_order less → weak_order less l.
Proof.
  intros [Hi Ht Htot]. split; [done|eauto|]. intros x y z _ _ _ Hxy.
  destruct (less x z) eqn:Exz; [by left|]. destruct (less z x) eqn:Ezx; [right; eauto|].
  right. by rewrite <-(Htot _ _ Exz Ezx).
Qed.

Lemma total_sorted_unique {A} (less : A → A → bool) l1 l2 :
  total_order less → StronglySorted (λ x y, less y x = false) l1 → StronglySorted (λ x y, less y x = false) l2 →
  l1 ≡ₚ l2 → l1 = l2.
Proof.
  intros [_ _ Htot] H1 H2. assert (AntiSymm (=) (λ x y, less y x = false)) by (intros x y ??; by apply Htot).
  by apply (StronglySorted_unique (λ x y, less y x = false)).
Qed.

(** The instance the examples run on. *)
Definition insertion_order : SortOrder := {|
  go_sort A := insertion_sort;
  go_sort_perm A := insertion_sort_perm;
  go_sort_sorted A := insertion_sort_sorted;
|}.
