(* ===== verification/GoStrings.v ===== *)
(** * The string functions of the Go standard library that the code uses

    A Go string is a sequence of bytes.  [strings.Split] with a one-byte
    separator, [strings.TrimSuffix], [strings.HasPrefix], [strings.Contains] of
    one byte, [strings.ToLower] and [strings.EqualFold] are executable functions
    here, with the lemmas the components use: splitting undoes joining, a
    formatted name determines its parts.  [strings.ToLower] and
    [strings.EqualFold] fold ASCII letters only: the resource names, protocols
    and API groups they are applied to are ASCII. *)

From S2P Require Import Prelude.
From Stdlib Require Export Ascii.

(** ** Characters of a string *)

Fixpoint has_char (c : ascii) (s : string) : bool :=
  match s with
  | EmptyString => false
  | String a s => if decide (a = c) then true else has_char c s
  end.

Arguments has_char c%_char_scope s%_stdpp_scope.

(** The string does not contain [c]. *)
Abbreviation free_of c s := (has_char c s = false).

Lemma app_cons a s t : String a s +:+ t = String a (s +:+ t).
Proof. reflexivity. Qed.

Lemma app_nil_l' s : EmptyString +:+ s = s.
Proof. reflexivity. Qed.

Lemma app_nil_r' s : s +:+ EmptyString = s.
Proof. induction s as [|a s IH]; [done|]. by rewrite app_cons, IH. Qed.

Lemma app_assoc' s t u : (s +:+ t) +:+ u = s +:+ t +:+ u.
Proof. induction s as [|a s IH]; [done|]. by rewrite !app_cons, IH. Qed.

Lemma has_char_app c s t : has_char c (s +:+ t) = has_char c s || has_char c t.
Proof.
  induction s as [|a s IH]; [done|]. rewrite app_cons. simpl.
  case_decide; [done|]. by rewrite IH.
Qed.

Lemma free_of_cons c a s : free_of c (String a s) ↔ a ≠ c ∧ free_of c s.
Proof. simpl. case_decide; naive_solver. Qed.

Lemma free_of_app c s t : free_of c (s +:+ t) ↔ free_of c s ∧ free_of c t.
Proof. by rewrite has_char_app, orb_false_iff. Qed.

(** A separator that does not occur in the left parts determines the parts. *)
Lemma sep_inj c a a' b b' :
  free_of c a → free_of c a' →
  a +:+ String c b = a' +:+ String c b' → a = a' ∧ b = b'.
Proof.
  revert a'. induction a as [|x a IH]; intros [|y a'] Ha Ha';
    rewrite ?app_cons, ?app_nil_l'.
  - by intros [= ->].
  - intros [= -> _]. by apply free_of_cons in Ha' as [].
  - intros [= -> _]. by apply free_of_cons in Ha as [].
  - apply free_of_cons in Ha as [_ Ha]. apply free_of_cons in Ha' as [_ Ha'].
    intros [= -> [-> ->]%IH]; done.
Qed.

Lemma app_inj_l a b c : a +:+ b = a +:+ c → b = c.
Proof. induction a as [|x a IH]; [done|]. rewrite !app_cons. by intros [= ?%IH]. Qed.

Lemma app_inj_r a b c : a +:+ c = b +:+ c → a = b.
Proof.
  assert (∀ s, String.length (s +:+ c) = String.length s + String.length c) as Hlen.
  { intros s. induction s as [|x s IH]; [done|]. rewrite app_cons. simpl. by rewrite IH. }
  revert b. induction a as [|x a IH]; intros [|y b]; rewrite ?app_cons, ?app_nil_l'; try done.
  - intros E%(f_equal String.length). simpl in E. rewrite Hlen in E. lia.
  - intros E%(f_equal String.length). simpl in E. rewrite Hlen in E. lia.
  - by intros [= -> ->%IH].
Qed.

(** ** [strings.Split(s, sep)], one-byte separator *)

Fixpoint split (c : ascii) (s : string) : list string :=
  match s with
  | EmptyString => [EmptyString]
  | String a s =>
    if decide (a = c) then EmptyString :: split c s
    else match split c s with
         | [] => [String a EmptyString]
         | h :: t => String a h :: t
         end
  end.

Arguments split c%_char_scope s%_stdpp_scope.

Fixpoint join (c : ascii) (l : list string) : string :=
  match l with
  | [] => EmptyString
  | [s] => s
  | s :: l => s +:+ String c (join c l)
  end.

Lemma split_ne_nil c s : split c s ≠ [].
Proof. destruct s; simpl; [done|]. case_decide; [done|]. by destruct (split _ _). Qed.

Lemma split_free c s : free_of c s → split c s = [s].
Proof.
  induction s as [|a s IH]; [done|]. rewrite free_of_cons. intros [Ha Hs]. simpl.
  rewrite decide_False by done. by rewrite IH.
Qed.

Lemma split_app_sep c s t :
  free_of c s → split c (s +:+ String c t) = s :: split c t.
Proof.
  induction s as [|a s IH].
  - intros _. rewrite app_nil_l'. simpl. by rewrite decide_True.
  - rewrite free_of_cons. intros [Ha Hs]. rewrite app_cons. simpl.
    rewrite decide_False by done. by rewrite IH.
Qed.

Lemma split_app c s t : split c (s +:+ String c t) = split c s ++ split c t.
Proof.
  induction s as [|a s IH]; [rewrite app_nil_l'; simpl; by rewrite decide_True|].
  rewrite app_cons. simpl. case_decide; [by rewrite IH|]. rewrite IH.
  destruct (split c s) as [|h l] eqn:E; [by apply split_ne_nil in E|done].
Qed.

(** The same with the separator written as a literal, as in the formats. *)
Lemma split_app_lit c s t :
  free_of c s → split c (s +:+ String c "" +:+ t) = s :: split c t.
Proof. apply split_app_sep. Qed.

Lemma split_parts_free c s : Forall (λ p, free_of c p) (split c s).
Proof.
  induction s as [|a s IH]; simpl; [by repeat constructor|].
  case_decide as Ha; [by constructor|].
  destruct (split c s) as [|h t] eqn:E; [by destruct (split_ne_nil c s)|].
  apply Forall_cons in IH as [Hh Ht]. constructor; [|done]. by apply free_of_cons.
Qed.

Lemma join_split c s : join c (split c s) = s.
Proof.
  induction s as [|a s IH]; simpl; [done|]. case_decide as Ha.
  - subst a. destruct (split c s) as [|h t] eqn:E; [by destruct (split_ne_nil c s)|].
    rewrite <-IH. reflexivity.
  - destruct (split c s) as [|h t] eqn:E; [by destruct (split_ne_nil c s)|].
    rewrite <-IH. by destruct t.
Qed.

Lemma split_join c l :
  l ≠ [] → Forall (λ p, free_of c p) l → split c (join c l) = l.
Proof.
  intros Hne Hl. induction Hl as [|s l Hs Hl IH]; [done|].
  destruct l as [|s' l]; [by apply split_free|].
  change (join c (s :: s' :: l)) with (s +:+ String c (join c (s' :: l))).
  rewrite split_app_sep by done. f_equal. by apply IH.
Qed.

(** The last part of [s.t] is [t] when [t] has no separator. *)
Lemma last_split_app c s t :
  free_of c t → last (split c (s +:+ String c t)) = Some t.
Proof.
  intros Ht. induction s as [|a s IH].
  - rewrite app_nil_l'. simpl. rewrite decide_True, split_free by done. done.
  - rewrite app_cons. simpl. case_decide as Ha.
    + destruct (split c _) eqn:E; [by destruct (split_ne_nil c (s +:+ String c t))|]. done.
    + destruct (split c _) as [|h l] eqn:E; [by destruct (split_ne_nil c (s +:+ String c t))|].
      destruct l; simpl in *; [|done]. simplify_eq.
      exfalso. assert (has_char c (join c [t]) = true); [|simpl in *; congruence].
      rewrite <-E, join_split, has_char_app. simpl. rewrite decide_True by done.
      by rewrite orb_true_r.
Qed.

Lemma free_of_join c d l :
  c ≠ d → Forall (λ p, free_of d p) l → free_of d (join c l).
Proof.
  intros Hcd Hl. induction Hl as [|s l Hs Hl IH]; [done|].
  destruct l as [|s' l]; [done|].
  change (join c (s :: s' :: l)) with (s +:+ String c (join c (s' :: l))).
  by rewrite free_of_app, free_of_cons.
Qed.

(** ** Suffixes and prefixes *)

(** [strings.TrimSuffix(s, suf)]: [s] without a trailing [suf], [s] itself
    when it does not end in [suf]. *)
Fixpoint trim_suffix (s suf : string) : string :=
  if decide (s = suf) then EmptyString
  else match s with
       | EmptyString => EmptyString
       | String a s => String a (trim_suffix s suf)
       end.

Lemma trim_suffix_app s suf : trim_suffix (s +:+ suf) suf = s.
Proof.
  induction s as [|a s IH].
  - rewrite app_nil_l'. destruct suf; cbn [trim_suffix]; by rewrite decide_True.
  - rewrite app_cons. cbn [trim_suffix]. rewrite decide_False.
    + by rewrite IH.
    + intros E. rewrite <-app_cons in E. rewrite <-(app_nil_l' suf) in E at 2.
      by apply app_inj_r in E.
Qed.

Lemma trim_suffix_none s suf : (∀ p, s ≠ p +:+ suf) → trim_suffix s suf = s.
Proof.
  intros Hs. induction s as [|a s IH]; simpl.
  - by case_decide.
  - rewrite decide_False.
    + rewrite IH; [done|]. intros p ->. by apply (Hs (String a p)).
    + intros <-. by apply (Hs EmptyString).
Qed.

(** [strings.HasPrefix(s, p)]. *)
Definition has_prefix (s p : string) : bool := String.prefix p s.

(** ** Case folding *)

Definition lower_char (c : ascii) : ascii :=
  let n := nat_of_ascii c in
  if decide (65 ≤ n ≤ 90) then ascii_of_nat (n + 32) else c.

Fixpoint to_lower (s : string) : string :=
  match s with
  | EmptyString => EmptyString
  | String c s => String (lower_char c) (to_lower s)
  end.

(** [strings.EqualFold(s, t)]. *)
Definition equal_fold (s t : string) : bool := bool_decide (to_lower s = to_lower t).

Lemma equal_fold_refl s : equal_fold s s = true.
Proof. by apply bool_decide_eq_true_2. Qed.

Lemma equal_fold_comm s t : equal_fold s t = equal_fold t s.
Proof. apply bool_decide_ext. naive_solver. Qed.

(** ** [%d] *)

Definition itoa (z : Z) : string := pretty z.

Lemma itoa_inj z z' : itoa z = itoa z' → z = z'.
Proof. apply (inj pretty). Qed.

(** The characters [%d] prints. *)
Definition is_digit (c : ascii) : bool :=
  bool_decide (48 ≤ nat_of_ascii c ≤ 57) || bool_decide (c = "-"%char).

Lemma pretty_N_char_digit x : is_digit (pretty_N_char x) = true.
Proof. unfold pretty_N_char. by repeat case_match. Qed.

Lemma pretty_N_go_free c x s :
  is_digit c = false → free_of c s → free_of c (pretty_N_go x s).
Proof.
  intros Hc. revert s. induction (N.lt_wf_0 x) as [x _ IH]; intros s Hs.
  assert (x = 0 ∨ 0 < x)%N as [->|Hx] by lia; [by rewrite pretty_N_go_0|].
  rewrite pretty_N_go_step by done. apply IH; [by apply N.div_lt|].
  apply free_of_cons. split; [|done]. intros <-. by rewrite pretty_N_char_digit in Hc.
Qed.

Lemma pretty_N_free c (x : N) : is_digit c = false → free_of c (pretty x).
Proof.
  intros Hc. unfold pretty, pretty_N. case_decide; [|by apply pretty_N_go_free].
  apply free_of_cons. split; [|done]. by intros <-.
Qed.

Lemma itoa_free c z : is_digit c = false → free_of c (itoa z).
Proof.
  intros Hc. unfold itoa, pretty, pretty_Z. destruct z as [|p|p].
  - apply free_of_cons. split; [|done]. by intros <-.
  - by apply pretty_N_free.
  - apply free_of_app. split; [|by apply pretty_N_free].
    apply free_of_cons. split; [|done]. by intros <-.
Qed.

Lemma pretty_N_go_ne x s : (0 < x)%N ∨ s ≠ EmptyString → pretty_N_go x s ≠ EmptyString.
Proof.
  revert s. induction (N.lt_wf_0 x) as [x _ IH]; intros s Hs.
  assert (x = 0 ∨ 0 < x)%N as [->|Hx] by lia; [rewrite pretty_N_go_0; destruct Hs; [lia|done]|].
  rewrite pretty_N_go_step by done. apply IH; [by apply N.div_lt|]. by right.
Qed.

Lemma pretty_N_ne (x : N) : pretty x ≠ EmptyString.
Proof. unfold pretty, pretty_N. case_decide; [done|]. apply pretty_N_go_ne. lia. Qed.

Lemma itoa_ne z : itoa z ≠ EmptyString.
Proof.
  unfold itoa, pretty, pretty_Z. destruct z as [|p|p]; [done| |].
  - apply pretty_N_ne.
  - change "-" with (String "-"%char EmptyString). rewrite app_cons. done.
Qed.

(** ** Scanning *)

Fixpoint all_chars (p : ascii → bool) (s : string) : bool :=
  match s with
  | EmptyString => true
  | String c s => p c && all_chars p s
  end.

(** [strings.FieldsFunc(s, f)]: the maximal runs of characters that are no
    separators. *)
Fixpoint fields_go (p : ascii → bool) (s field : string) : list string :=
  match s with
  | EmptyString => if decide (field = EmptyString) then [] else [field]
  | String c s =>
    if p c then (if decide (field = EmptyString) then [] else [field]) ++ fields_go p s EmptyString
    else fields_go p s (field +:+ String c EmptyString)
  end.
Definition FieldsFunc (s : string) (p : ascii → bool) : list string := fields_go p s EmptyString.

Definition decimal_digit (c : ascii) : bool := bool_decide (48 ≤ nat_of_ascii c ≤ 57).

Fixpoint decimal (s : string) (n : Z) : Z :=
  match s with
  | EmptyString => n
  | String c s => decimal s (10 * n + (Z.of_nat (nat_of_ascii c) - 48))
  end.

(** [strconv.ParseUint(s, 10, bitSize)]. *)
Definition ParseUint (s : string) (bitSize : Z) : option Z :=
  if decide (s = EmptyString) then None
  else if all_chars decimal_digit s then
    let n := decimal s 0 in if decide (n < 2 ^ bitSize)%Z then Some n else None
  else None.

(** A separator ends a field that has none. *)
Lemma fields_go_sep p f c s field :
  all_chars (λ a, negb (p a)) f = true → p c = true →
  fields_go p (f +:+ String c s) field =
  (if decide (field +:+ f = EmptyString) then [] else [field +:+ f]) ++ FieldsFunc s p.
Proof.
  revert field. induction f as [|a f IH]; intros field Hf Hc.
  - rewrite app_nil_l', app_nil_r'. cbn [fields_go]. by rewrite Hc.
  - rewrite app_cons. cbn [all_chars] in Hf. apply andb_true_iff in Hf as [Ha Hf].
    cbn [fields_go]. rewrite (proj1 (negb_true_iff _) Ha), IH by done.
    rewrite app_assoc', app_cons, app_nil_l'. done.
Qed.

Lemma fields_go_end p f field :
  all_chars (λ a, negb (p a)) f = true →
  fields_go p f field = if decide (field +:+ f = EmptyString) then [] else [field +:+ f].
Proof.
  revert field. induction f as [|a f IH]; intros field Hf.
  - rewrite app_nil_r'. done.
  - cbn [all_chars] in Hf. apply andb_true_iff in Hf as [Ha Hf].
    cbn [fields_go]. rewrite (proj1 (negb_true_iff _) Ha), IH by done.
    rewrite app_assoc', app_cons, app_nil_l'. done.
Qed.

Lemma FieldsFunc_sep p f c s :
  f ≠ EmptyString → all_chars (λ a, negb (p a)) f = true → p c = true →
  FieldsFunc (f +:+ String c s) p = f :: FieldsFunc s p.
Proof.
  intros Hne Hf Hc. unfold FieldsFunc at 1. rewrite fields_go_sep, app_nil_l' by done.
  by rewrite decide_False.
Qed.

Lemma FieldsFunc_end p f :
  f ≠ EmptyString → all_chars (λ a, negb (p a)) f = true → FieldsFunc f p = [f].
Proof.
  intros Hne Hf. unfold FieldsFunc. rewrite fields_go_end, app_nil_l' by done. by rewrite decide_False.
Qed.

Lemma all_chars_mono (p q : ascii → bool) s :
  (∀ c, p c = true → q c = true) → all_chars p s = true → all_chars q s = true.
Proof.
  intros Hpq. induction s as [|a s IH]; [done|]. cbn [all_chars].
  rewrite !andb_true_iff. naive_solver.
Qed.

(** Reading back what [%d] prints. *)
Lemma decimal_pretty_N_go x s :
  decimal (pretty_N_go x s) 0 = decimal s (Z.of_N x) ∧
  (all_chars decimal_digit s = true → all_chars decimal_digit (pretty_N_go x s) = true).
Proof.
  revert s. induction (N.lt_wf_0 x) as [x _ IH]; intros s.
  assert (x = 0 ∨ 0 < x)%N as [->|Hx] by lia; [by rewrite pretty_N_go_0|].
  rewrite pretty_N_go_step by done. destruct (IH (x / 10)%N (N.div_lt x 10 Hx eq_refl)
    (String (pretty_N_char (x `mod` 10)) s)) as [-> Hall].
  assert (x `mod` 10 < 10)%N as Hlt by by apply N.mod_lt.
  assert (decimal_digit (pretty_N_char (x `mod` 10)) = true ∧
    Z.of_nat (nat_of_ascii (pretty_N_char (x `mod` 10))) = 48 + Z.of_N (x `mod` 10))%Z as [Hd Hv].
  { revert Hlt. generalize (x `mod` 10)%N as d. intros d Hd. unfold pretty_N_char.
    destruct d as [|p]; [done|]. do 4 (destruct p as [p|p|]; try done; try lia). }
  split; [|intros Hs; apply Hall; cbn [all_chars]; by rewrite Hd, Hs].
  cbn [decimal]. f_equal. rewrite Hv. pose proof (N.div_mod x 10 ltac:(done)). lia.
Qed.

Lemma decimal_pretty_N (x : N) :
  decimal (pretty x) 0 = Z.of_N x ∧ all_chars decimal_digit (pretty x) = true.
Proof.
  unfold pretty, pretty_N. case_decide as Hx; [by subst|].
  destruct (decimal_pretty_N_go x EmptyString) as [-> Hall]. split; [done|]. by apply Hall.
Qed.

Lemma decimal_itoa n : (0 ≤ n)%Z → decimal (itoa n) 0 = n ∧ all_chars decimal_digit (itoa n) = true.
Proof.
  intros Hn. unfold itoa, pretty, pretty_Z. destruct n as [|p|p]; [done| |lia]. apply (decimal_pretty_N (N.pos p)).
Qed.

Lemma ParseUint_itoa n bits : (0 ≤ n < 2 ^ bits)%Z → ParseUint (itoa n) bits = Some n.
Proof.
  intros [Hn Hlt]. unfold ParseUint. rewrite decide_False by apply itoa_ne.
  destruct (decimal_itoa n Hn) as [-> ->]. by rewrite decide_True.
Qed.

Lemma decimal_nonneg s n : (0 ≤ n)%Z → all_chars decimal_digit s = true → (0 ≤ decimal s n)%Z.
Proof.
  revert n. induction s as [|c s IH]; intros n Hn; [done|]. cbn [all_chars decimal]. rewrite andb_true_iff. unfold decimal_digit at 1.
  rewrite bool_decide_eq_true. intros [Hc Hs]. apply IH; [lia|done].
Qed.

Lemma ParseUint_bounds s bits n : ParseUint s bits = Some n → (0 ≤ n < 2 ^ bits)%Z.
Proof.
  unfold ParseUint. case_decide; [done|]. destruct (all_chars decimal_digit s) eqn:E; [|done]. case_decide; [|done].
  intros [= <-]. split; [by apply decimal_nonneg|done].
Qed.

Lemma all_chars_free c s : free_of c s → all_chars (λ a, negb (bool_decide (a = c))) s = true.
Proof.
  induction s as [|a s IH]; [done|]. rewrite free_of_cons. intros [Ha Hs]. cbn [all_chars].
  by rewrite bool_decide_false, IH.
Qed.

Lemma all_chars_app p s t : all_chars p (s +:+ t) = all_chars p s && all_chars p t.
Proof. induction s as [|a s IH]; [done|]. rewrite app_cons. cbn [all_chars]. by rewrite IH, andb_assoc. Qed.

(** Fields are not empty, and have no separators. *)
Lemma FieldsFunc_parts p s : Forall (λ f, f ≠ EmptyString ∧ all_chars (λ a, negb (p a)) f = true) (FieldsFunc s p).
Proof.
  unfold FieldsFunc. cut (∀ field, all_chars (λ a, negb (p a)) field = true →
    Forall (λ f, f ≠ EmptyString ∧ all_chars (λ a, negb (p a)) f = true) (fields_go p s field)); [intros Hgo; by apply Hgo|].
  induction s as [|a s IH]; intros field Hf; cbn [fields_go].
  - case_decide; [constructor|]. by apply Forall_singleton.
  - destruct (p a) eqn:Ea.
    + apply Forall_app. split; [|by apply IH]. case_decide; [constructor|]. by apply Forall_singleton.
    + apply IH. rewrite all_chars_app, Hf. cbn [all_chars]. by rewrite Ea.
Qed.

(** The fields of a joined list are its elements, when they are not empty. *)
Lemma FieldsFunc_join c l :
  Forall (λ f, f ≠ EmptyString ∧ free_of c f) l → FieldsFunc (join c l) (λ r, bool_decide (r = c)) = l.
Proof.
  induction l as [|f [|g l] IH]; [done|..]; intros [[Hne Hf] Hl]%Forall_cons.
  - by apply FieldsFunc_end, all_chars_free.
  - change (join c (f :: g :: l)) with (f +:+ String c (join c (g :: l))).
    rewrite FieldsFunc_sep, IH; [done..|by apply all_chars_free|by apply bool_decide_eq_true].
Qed.

#[export] Hint Resolve itoa_free itoa_inj equal_fold_refl split_ne_nil
  split_parts_free : osm.

(** ** Space and integers *)

(** [unicode.IsSpace] on ASCII. *)
Definition is_space (c : ascii) : bool := bool_decide (nat_of_ascii c ∈ [9; 10; 11; 12; 13; 32]).

Fixpoint trim_left (s : string) : string :=
  match s with
  | EmptyString => EmptyString
  | String c s' => if is_space c then trim_left s' else s
  end.

Fixpoint trim_right (s : string) : string :=
  match s with
  | EmptyString => EmptyString
  | String c s' =>
    match trim_right s' with
    | EmptyString => if is_space c then EmptyString else String c EmptyString
    | r => String c r
    end
  end.

Definition TrimSpace (s : string) : string := trim_right (trim_left s).

(** [strconv.Atoi]: an optional sign and digits, in the range of an int64. *)
Definition Atoi (s : string) : option Z :=
  let digits d := if decide (d = EmptyString) then None else if all_chars decimal_digit d then Some (decimal d 0) else None in
  let in_range z := if decide (- 2 ^ 63 ≤ z < 2 ^ 63)%Z then Some z else None in
  match s with
  | String "-" d => z ← digits d; in_range (- z)%Z
  | String "+" d => z ← digits d; in_range z
  | d => z ← digits d; in_range z
  end.

Lemma trim_right_token s : all_chars (λ c, negb (is_space c)) s = true → trim_right s = s.
Proof.
  induction s as [|c s IH]; [done|]. cbn [all_chars trim_right]. intros [Hc Hs]%andb_true_iff.
  rewrite IH by done. apply negb_true_iff in Hc. rewrite Hc. by destruct s.
Qed.

Lemma TrimSpace_token s : all_chars (λ c, negb (is_space c)) s = true → TrimSpace s = s.
Proof.
  intros Hs. unfold TrimSpace. destruct s as [|c s]; [done|]. cbn [trim_left].
  destruct (is_space c) eqn:Hc; [cbn in Hs; by rewrite Hc in Hs|by apply trim_right_token].
Qed.

Lemma decimal_digit_no_space c : decimal_digit c = true → negb (is_space c) = true.
Proof.
  unfold decimal_digit, is_space. rewrite bool_decide_eq_true, negb_true_iff, bool_decide_eq_false.
  intros Hc. rewrite !elem_of_cons, elem_of_nil. lia.
Qed.

Lemma TrimSpace_itoa n : (0 ≤ n)%Z → TrimSpace (itoa n) = itoa n.
Proof. intros Hn. apply TrimSpace_token, (all_chars_mono decimal_digit), decimal_itoa; [apply decimal_digit_no_space|done]. Qed.

Lemma Atoi_itoa n : (0 ≤ n < 2 ^ 63)%Z → Atoi (itoa n) = Some n.
Proof.
  intros Hn. destruct (decimal_itoa n) as [Hd Ha]; [lia|]. pose proof (itoa_ne n) as Hne.
  assert (Atoi (itoa n) = (if decide (itoa n = EmptyString) then None else if all_chars decimal_digit (itoa n) then Some (decimal (itoa n) 0) else None)
    ≫= λ z, if decide (- 2 ^ 63 ≤ z < 2 ^ 63)%Z then Some z else None) as ->.
  { destruct (itoa n) as [|c s]; [done|]. cbn [all_chars] in Ha. apply andb_true_iff in Ha as [Hc _].
    unfold Atoi. destruct c as [[] [] [] [] [] [] [] []]; done. }
  rewrite Ha, Hd, decide_False by done. cbn. apply decide_True. lia.
Qed.

(** ** The order of strings *)

Lemma ascii_compare_trans a b c : Ascii.compare a b = Lt → Ascii.compare b c = Lt → Ascii.compare a c = Lt.
Proof. unfold Ascii.compare. rewrite !N.compare_lt_iff. lia. Qed.

Lemma ascii_compare_eq a b : Ascii.compare a b = Eq ↔ a = b.
Proof. split; [apply Ascii.compare_eq_iff|intros ->; unfold Ascii.compare; apply N.compare_refl]. Qed.

Lemma string_compare_trans s t u : String.compare s t = Lt → String.compare t u = Lt → String.compare s u = Lt.
Proof.
  revert t u. induction s as [|a s IH]; intros [|b t] [|c u]; cbn [String.compare]; try done.
  destruct (Ascii.compare a b) eqn:Eab; [apply ascii_compare_eq in Eab as ->| |done].
  - destruct (Ascii.compare b c) eqn:Ebc; [apply IH|done|done].
  - intros _. destruct (Ascii.compare b c) eqn:Ebc; [apply ascii_compare_eq in Ebc as ->; by rewrite Eab| |done].
    by rewrite (ascii_compare_trans _ _ _ Eab Ebc).
Qed.

Lemma ltb_total_order : total_order String.ltb.
Proof.
  unfold String.ltb. split.
  - intros s. destruct (String.compare s s) eqn:E; [done| |done].
    pose proof (String.compare_antisym s s) as Ha. by rewrite E in Ha.
  - intros s t u. destruct (String.compare s t) eqn:E1, (String.compare t u) eqn:E2; try done.
    by rewrite (string_compare_trans _ _ _ E1 E2).
  - intros s t. rewrite (String.compare_antisym t s). destruct (String.compare s t) eqn:E; try done.
    intros _ _. by apply String.compare_eq_iff.
Qed.
