(* ===== verification/GoTime.v ===== *)
(** * Durations of Go

    [time.ParseDuration] of the standard library, with its limits on 64-bit integers and
    its use of floating point numbers for fractions; the configurator and the resync ticker
    read durations with it.  Durations are counted in nanoseconds. *)

From Stdlib Require Import SpecFloat.
From S2P Require Import Prelude GoStrings.

#[local] Open Scope Z_scope.

(** ** Floating point *)

(** [float64]: the arithmetic of binary64 with rounding to nearest, and the conversion of
    a positive number to an integer, which truncates. *)
Definition float64 (z : Z) : spec_float := binary_normalize 53 1024 z 0 false.
Definition float64_mul : spec_float → spec_float → spec_float := SFmul 53 1024.
Definition float64_div : spec_float → spec_float → spec_float := SFdiv 53 1024.
Definition float64_trunc (f : spec_float) : Z :=
  match f with
  | S754_finite false m e => Z.shiftl (Z.pos m) e
  | _ => 0
  end.

(** ** Scanning *)

Definition digit (c : ascii) : Z := Z.of_nat (nat_of_ascii c) - 48.

(** [leadingInt]: the number in front, unless it is greater than 2^63, and the rest. *)
Fixpoint leadingInt (s : string) (x : Z) : option (Z * string) :=
  match s with
  | String c rest =>
    if decimal_digit c then
      if decide (2 ^ 63 / 10 < x) then None
      else
        let x := x * 10 + digit c in
        if decide (2 ^ 63 < x) then None else leadingInt rest x
    else Some (x, s)
  | EmptyString => Some (x, s)
  end.

(** [leadingFraction]: the digits after a point as a number and its scale; digits that
    overflow are skipped. *)
Fixpoint leadingFraction (s : string) (x : Z) (scale : spec_float) (overflow : bool) : Z * spec_float * string :=
  match s with
  | String c rest =>
    if decimal_digit c then
      if overflow || bool_decide ((2 ^ 63 - 1) / 10 < x) then leadingFraction rest x scale true
      else
        let y := x * 10 + digit c in
        if decide (2 ^ 63 < y) then leadingFraction rest x scale true
        else leadingFraction rest y (float64_mul scale (float64 10)) false
    else (x, scale, s)
  | EmptyString => (x, scale, s)
  end.

(** The unit: up to a point or a digit. *)
Fixpoint leadingUnit (s : string) : string * string :=
  match s with
  | String c rest =>
    if bool_decide (c = "."%char) || decimal_digit c then ("", s)
    else let '(u, rest) := leadingUnit rest in (String c u, rest)
  | EmptyString => ("", "")
  end.

Definition unitMap (u : string) : option Z :=
  if decide (u = "ns") then Some 1
  else if decide (u = "us") then Some 1000
  else if decide (u = "µs") then Some 1000
  else if decide (u = "μs") then Some 1000
  else if decide (u = "ms") then Some 1000000
  else if decide (u = "s") then Some second
  else if decide (u = "m") then Some (60 * second)
  else if decide (u = "h") then Some (3600 * second)
  else None.

Inductive DurationError :=
| InvalidDuration
| MissingUnit
| UnknownUnit (unit : string).

(** One number with its unit: its nanoseconds and the rest of the string. *)
Definition parseComponent (s : string) : result DurationError (Z * string) :=
  match s with
  | String c _ =>
    if bool_decide (c = "."%char) || decimal_digit c then
      match leadingInt s 0 with
      | None => Err InvalidDuration
      | Some (v, s1) =>
        let pre := negb (bool_decide (String.length s = String.length s1)) in
        let '(f, scale, s2, post) :=
          match s1 with
          | String "." s' =>
            let '(f, scale, s2) := leadingFraction s' 0 (float64 1) false in
            (f, scale, s2, negb (bool_decide (String.length s' = String.length s2)))
          | _ => (0, float64 1, s1, false)
          end in
        if pre || post then
          let '(u, rest) := leadingUnit s2 in
          if decide (u = "") then Err MissingUnit
          else match unitMap u with
               | None => Err (UnknownUnit u)
               | Some unit =>
                 if decide (2 ^ 63 / unit < v) then Err InvalidDuration
                 else
                   let v := v * unit in
                   if decide (0 < f) then
                     let v := v + float64_trunc (float64_mul (float64 f) (float64_div (float64 unit) scale)) in
                     if decide (2 ^ 63 < v) then Err InvalidDuration else Ok (v, rest)
                   else Ok (v, rest)
               end
        else Err InvalidDuration
      end
    else Err InvalidDuration
  | EmptyString => Err InvalidDuration
  end.

(** The loop; a turn takes at least one character, so that the length is enough fuel. *)
Fixpoint parseComponents (fuel : nat) (s : string) (d : Z) : result DurationError Z :=
  match s, fuel with
  | EmptyString, _ => Ok d
  | _, O => Err InvalidDuration
  | _, S fuel =>
    match parseComponent s with
    | Err e => Err e
    | Ok (v, s) =>
      let d := d + v in
      if decide (2 ^ 63 < d) then Err InvalidDuration else parseComponents fuel s d
    end
  end.

Definition ParseDuration (s : string) : result DurationError Z :=
  let '(neg, s) :=
    match s with
    | String "-" s => (true, s)
    | String "+" s => (false, s)
    | _ => (false, s)
    end in
  if decide (s = "0") then Ok 0
  else if decide (s = "") then Err InvalidDuration
  else
    match parseComponents (String.length s) s 0 with
    | Err e => Err e
    | Ok d =>
      if neg : bool then Ok (- d)
      else if decide (2 ^ 63 - 1 < d) then Err InvalidDuration
      else Ok d
    end.

(** ** Theorems *)

Lemma leadingInt_rest s x v rest :
  leadingInt s x = Some (v, rest) → (String.length rest ≤ String.length s)%nat.
Proof.
  revert x. induction s as [|c s IH]; intros x; cbn [leadingInt]; [by intros [= <- <-]|].
  destruct (decimal_digit c); [|by intros [= <- <-]].
  do 2 (case_decide; [done|]). intros Hr%IH. simpl. lia.
Qed.

Lemma leadingInt_nonneg s x v rest : 0 ≤ x → leadingInt s x = Some (v, rest) → 0 ≤ v.
Proof.
  revert x. induction s as [|c s IH]; intros x Hx; cbn [leadingInt]; [by intros [= <- <-]|].
  destruct (decimal_digit c) eqn:E; [|by intros [= <- <-]].
  do 2 (case_decide; [done|]). apply IH. unfold decimal_digit in E. apply bool_decide_eq_true in E. unfold digit. lia.
Qed.

Lemma leadingFraction_rest s x sc o f sc' rest :
  leadingFraction s x sc o = (f, sc', rest) → (String.length rest ≤ String.length s)%nat.
Proof.
  revert x sc o. induction s as [|c s IH]; intros x sc o; cbn [leadingFraction]; [by intros [= <- <- <-]|].
  destruct (decimal_digit c); [|by intros [= <- <- <-]].
  destruct (o || _); [intros Hr%IH; simpl; lia|]. case_decide; intros Hr%IH; simpl; lia.
Qed.

Lemma leadingUnit_rest s u rest : leadingUnit s = (u, rest) → String.length s = (String.length u + String.length rest)%nat.
Proof.
  revert u rest. induction s as [|c s IH]; intros u rest; cbn [leadingUnit]; [by intros [= <- <-]|].
  destruct (_ || _); [by intros [= <- <-]|]. destruct (leadingUnit s) as [u' r'] eqn:E. intros [= <- <-].
  simpl. by rewrite (IH u' r').
Qed.

Lemma unitMap_pos u unit : unitMap u = Some unit → 0 < unit.
Proof. unfold unitMap, second. repeat case_decide; naive_solver lia. Qed.

Lemma float64_trunc_nonneg f : 0 ≤ float64_trunc f.
Proof. destruct f as [| | |[] m e]; simpl; try lia. by apply Z.shiftl_nonneg. Qed.

(** A component is not negative, and leaves a shorter string. *)
Lemma parseComponent_ok s v rest :
  parseComponent s = Ok (v, rest) → 0 ≤ v ∧ (String.length rest < String.length s)%nat.
Proof.
  unfold parseComponent. destruct s as [|c s]; [done|]. destruct (_ || decimal_digit c); [|done].
  destruct (leadingInt _ 0) as [[n s1]|] eqn:Ei; [|done].
  pose proof (leadingInt_rest _ _ _ _ Ei) as Hl1. pose proof (leadingInt_nonneg _ _ _ _ (Z.le_refl 0) Ei) as Hn.
  destruct (match s1 with String "." _ => _ | _ => _ end) as [[[f sc] s2] post] eqn:Ef.
  assert (String.length s2 ≤ String.length s1)%nat as Hl2.
  { destruct s1 as [|a s1]; [by injection Ef as <- <- <- <-|]. destruct (decide (a = "."%char)) as [->|Ha].
    - destruct (leadingFraction s1 0 (float64 1) false) as [[f' sc'] s2'] eqn:E. injection Ef as <- <- <- <-.
      apply leadingFraction_rest in E. simpl. lia.
    - destruct a as [[] [] [] [] [] [] [] []]; first [by injection Ef as <- <- <- <-|done]. }
  destruct (_ || post); [|done]. destruct (leadingUnit s2) as [u r] eqn:Eu. apply leadingUnit_rest in Eu.
  case_decide as Hu; [done|]. destruct (unitMap u) as [unit|] eqn:Em; [|done]. apply unitMap_pos in Em.
  assert (0 < String.length u)%nat by (destruct u; [done|simpl; lia]).
  case_decide; [done|]. case_decide; [case_decide; [done|]|]; intros [= <- <-];
    pose proof (float64_trunc_nonneg (float64_mul (float64 f) (float64_div (float64 unit) sc))); nia.
Qed.

(** The length of the string is enough fuel. *)
Lemma parseComponents_fuel fuel fuel' s d :
  (String.length s ≤ fuel)%nat → (fuel ≤ fuel')%nat → parseComponents fuel' s d = parseComponents fuel s d.
Proof.
  revert fuel' s d. induction fuel as [|fuel IH]; intros fuel' s d Hs Hf.
  { destruct s; [by destruct fuel'|simpl in Hs; lia]. }
  destruct fuel' as [|fuel']; [lia|]. destruct s as [|c s]; [done|]. cbn [parseComponents].
  destruct (parseComponent (String c s)) as [[v rest]|e] eqn:E; [|done]. apply parseComponent_ok in E as [_ Hl].
  case_decide; [done|]. apply IH; lia.
Qed.

Lemma parseComponents_range fuel s d r : 0 ≤ d ≤ 2 ^ 63 → parseComponents fuel s d = Ok r → 0 ≤ r ≤ 2 ^ 63.
Proof.
  revert s d. induction fuel as [|fuel IH]; intros [|c s] d Hd; cbn [parseComponents]; [by intros [= <-]|done|by intros [= <-]|].
  destruct (parseComponent (String c s)) as [[v rest]|e] eqn:E; [|done]. apply parseComponent_ok in E as [Hv _].
  case_decide; [done|]. apply IH. lia.
Qed.

(** What is returned fits into a [time.Duration]. *)
Theorem ParseDuration_int64 s d : ParseDuration s = Ok d → is_int64 d.
Proof.
  unfold ParseDuration, is_int64. destruct (match s with EmptyString => _ | _ => _ end) as [neg s'].
  case_decide; [intros [= <-]; lia|]. case_decide; [done|].
  destruct (parseComponents _ s' 0) as [r|] eqn:E; [|done]. apply parseComponents_range in E; [|lia].
  destruct neg; [intros [= <-]; lia|]. case_decide; [done|]. intros [= <-]. lia.
Qed.

Lemma decimal_ge s x : all_chars decimal_digit s = true → 0 ≤ x → x ≤ decimal s x.
Proof.
  revert x. induction s as [|c s IH]; intros x; cbn [all_chars decimal]; [lia|].
  intros [Hc Hs]%andb_true_iff Hx. unfold decimal_digit in Hc. apply bool_decide_eq_true in Hc.
  etrans; [|apply IH; [done|]]; lia.
Qed.

Lemma leadingInt_app s t x :
  all_chars decimal_digit s = true → match t with String c _ => decimal_digit c = false | EmptyString => True end →
  0 ≤ x → decimal s x ≤ 2 ^ 63 → leadingInt (s +:+ t) x = Some (decimal s x, t).
Proof.
  intros Hs Ht. revert x Hs. induction s as [|c s IH]; intros x Hs Hx Hd.
  { rewrite app_nil_l'. destruct t as [|c t]; cbn [leadingInt]; [done|]. by rewrite Ht. }
  cbn [all_chars] in Hs. apply andb_true_iff in Hs as [Hc Hs]. cbn [decimal] in *. rewrite app_cons. cbn [leadingInt]. rewrite Hc.
  unfold decimal_digit in Hc. apply bool_decide_eq_true in Hc.
  pose proof (decimal_ge s (10 * x + (Z.of_nat (nat_of_ascii c) - 48)) Hs ltac:(lia)) as Hge.
  unfold digit. rewrite !decide_False; [|lia|].
  - replace (x * 10 + (Z.of_nat (nat_of_ascii c) - 48)) with (10 * x + (Z.of_nat (nat_of_ascii c) - 48)) by lia.
    apply IH; [done|lia|done].
  - apply Z.nlt_ge, Z.div_le_lower_bound; lia.
Qed.

(** The units are words of letters. *)
Lemma unit_word u unit : unitMap u = Some unit → leadingUnit u = (u, "") ∧ u ≠ "" ∧
  match u with String c _ => c ≠ "."%char ∧ decimal_digit c = false | EmptyString => False end.
Proof. unfold unitMap. repeat (case_decide; [by subst; intros _; vm_compute|]). done. Qed.

Lemma length_app' s t : String.length (s +:+ t) = (String.length s + String.length t)%nat.
Proof. induction s as [|c s IH]; [done|]. rewrite app_cons. simpl. by rewrite IH. Qed.

Lemma parseComponent_itoa n u unit :
  0 ≤ n → n * unit ≤ 2 ^ 63 → unitMap u = Some unit → parseComponent (itoa n +:+ u) = Ok (n * unit, "").
Proof.
  intros Hn Hr Hm. pose proof (unitMap_pos _ _ Hm) as Hpos. destruct (unit_word _ _ Hm) as (Hw & Hne & Hc).
  assert (decimal (itoa n) 0 = n ∧ all_chars decimal_digit (itoa n) = true) as [Hd Hall].
  { unfold itoa, pretty, pretty_Z. destruct n as [|p|p]; [done| |lia]. apply (decimal_pretty_N (N.pos p)). }
  assert (leadingInt (itoa n +:+ u) 0 = Some (n, u)) as Hl.
  { rewrite leadingInt_app; [by rewrite Hd|done| |done|rewrite Hd; nia]. destruct u; naive_solver. }
  destruct (itoa n) as [|c s] eqn:Ei; [by apply itoa_ne in Ei|]. cbn [all_chars] in Hall. apply andb_true_iff in Hall as [Hc1 _].
  unfold parseComponent. rewrite app_cons in *. rewrite Hc1, orb_true_r, Hl.
  replace (bool_decide _) with false by (symmetry; apply bool_decide_eq_false; simpl; rewrite length_app'; lia).
  destruct u as [|a u]; [done|]. destruct Hc as [Ha Hda].
  assert (∀ A (x y : A), match a with "."%char => x | _ => y end = y) as Hmatch.
  { intros A x y. by destruct a as [[] [] [] [] [] [] [] []]. }
  rewrite Hmatch. simpl negb. cbn [orb]. rewrite Hw, decide_False, Hm by done.
  rewrite decide_False; [by rewrite decide_False by lia|]. apply Z.nlt_ge, Z.div_le_lower_bound; lia.
Qed.

(** A number of units is read back. *)
Theorem ParseDuration_itoa n u unit :
  0 ≤ n → n * unit < 2 ^ 63 → unitMap u = Some unit → ParseDuration (itoa n +:+ u) = Ok (n * unit).
Proof.
  intros Hn Hr Hm. pose proof (parseComponent_itoa n u unit Hn ltac:(lia) Hm) as Hp.
  pose proof (unitMap_pos _ _ Hm) as Hpos. destruct (unit_word _ _ Hm) as (_ & Hne & _).
  assert (all_chars decimal_digit (itoa n) = true) as Hall.
  { unfold itoa, pretty, pretty_Z. destruct n as [|p|p]; [done| |lia]. apply (decimal_pretty_N (N.pos p)). }
  unfold ParseDuration. destruct (itoa n) as [|c s] eqn:Ei; [by apply itoa_ne in Ei|].
  cbn [all_chars] in Hall. apply andb_true_iff in Hall as [Hc _]. rewrite app_cons in *.
  assert (∀ A (x y z : A), match c with "-"%char => x | "+"%char => y | _ => z end = z) as Hmatch.
  { intros A x y z. by destruct c as [[] [] [] [] [] [] [] []]. }
  rewrite Hmatch, decide_False, decide_False; [|done|].
  - cbn [String.length parseComponents]. rewrite Hp, decide_False by nia.
    replace (parseComponents _ "" _) with (@Ok DurationError Z (0 + n * unit)) by by destruct (String.length _).
    simpl. rewrite decide_False by lia. done.
  - intros [= -> E]. destruct s; [by rewrite app_nil_l' in E|by rewrite app_cons in E].
Qed.

Example durations :
  ParseDuration <$> ["1h30m"; "1.5h"; "-.5s"; "0"; "1"; "5x"; ""; "9223372036854775808ns"; "-9223372036854775808ns"] =
  [Ok (5400 * second); Ok (5400 * second); Ok (- 500000000); Ok 0; Err MissingUnit; Err (UnknownUnit "x");
   Err InvalidDuration; Err InvalidDuration; Ok (- 2 ^ 63)].
Proof. by vm_compute. Qed.
