(* ===== verification/Identity.v ===== *)
(** * pkg/identity: service identities, principals and service accounts

    A [ServiceIdentity] is the string [<ServiceAccount>.<Namespace>]; a
    principal is an identity with the trust domain appended.  The file models
    every function of pkg/identity/types.go and shows which conversions can be
    undone. *)

From S2P Require Import Prelude GoStrings.

(** ** Data *)

Abbreviation ServiceIdentity := string.

Record K8sServiceAccount := mkK8sServiceAccount {
  sa_Namespace : string;
  sa_Name : string;
}.

#[global] Instance K8sServiceAccount_eq_dec : EqDecision K8sServiceAccount.
Proof. solve_decision. Defined.
#[global] Instance K8sServiceAccount_countable : Countable K8sServiceAccount.
Proof.
  apply (inj_countable' (λ sa, (sa_Namespace sa, sa_Name sa))
    (λ p, mkK8sServiceAccount p.1 p.2)). by intros [].
Defined.

(** ** Operations *)

Definition namespaceNameSeparator : string := "/".

Definition New (name namespace : string) : ServiceIdentity :=
  name +:+ "." +:+ namespace.

Definition FromPrincipal (servicePrincipal trustDomain : string) : ServiceIdentity :=
  trim_suffix servicePrincipal ("." +:+ trustDomain).

Definition WildcardServiceIdentity : ServiceIdentity := "*".
Definition WildcardPrincipal : string := "*".

Definition IsWildcard (si : ServiceIdentity) : bool :=
  bool_decide (si = WildcardServiceIdentity).

Definition AsPrincipal (si : ServiceIdentity) (trustDomain : string) : string :=
  if IsWildcard si then si else si +:+ "." +:+ trustDomain.

(** [chunks[0]] and [chunks[1]] of the identity split at the dots; indexing
    the second chunk of an identity without a dot panics. *)
Definition ToK8sServiceAccount (si : ServiceIdentity) : outcome K8sServiceAccount :=
  match split "." si with
  | name :: namespace :: _ => Ret (mkK8sServiceAccount namespace name)
  | _ => Panic
  end.

Definition K8sServiceAccount_String (sa : K8sServiceAccount) : string :=
  sa_Namespace sa +:+ namespaceNameSeparator +:+ sa_Name sa.

Definition ToServiceIdentity (sa : K8sServiceAccount) : ServiceIdentity :=
  New (sa_Name sa) (sa_Namespace sa).

Definition sa_AsPrincipal (sa : K8sServiceAccount) (trustDomain : string) : string :=
  AsPrincipal (ToServiceIdentity sa) trustDomain.

(** ** Lemmas *)

(** The names Kubernetes gives namespaces, and most service accounts: no dot. *)
Definition sa_dotless (sa : K8sServiceAccount) : Prop :=
  free_of "." (sa_Name sa) ∧ free_of "." (sa_Namespace sa).

Lemma ToK8s_dotless sa :
  sa_dotless sa → ToK8sServiceAccount (ToServiceIdentity sa) = Ret sa.
Proof.
  intros [Hn Hns]. unfold ToK8sServiceAccount, ToServiceIdentity, New.
  rewrite split_app_lit by done. rewrite split_free by done. by destruct sa.
Qed.

Lemma ToK8s_dotless_inv si sa : ToK8sServiceAccount si = Ret sa → sa_dotless sa.
Proof.
  unfold ToK8sServiceAccount. pose proof (split_parts_free "." si) as Hf.
  destruct (split "." si) as [|n [|ns l]]; [done..|]. intros [= <-].
  apply Forall_cons in Hf as [Hn [Hns _]%Forall_cons]. done.
Qed.

Lemma ToServiceIdentity_inj sa sa' :
  sa_dotless sa → sa_dotless sa' →
  ToServiceIdentity sa = ToServiceIdentity sa' → sa = sa'.
Proof.
  intros H H' E%(f_equal ToK8sServiceAccount).
  rewrite !ToK8s_dotless in E by done. naive_solver.
Qed.

Lemma FromPrincipal_AsPrincipal_id si td : FromPrincipal (AsPrincipal si td) td = si.
Proof.
  unfold FromPrincipal, AsPrincipal, IsWildcard. case_bool_decide as Hw.
  - subst si. apply trim_suffix_none. intros [|a [|b p]]; by intros [=].
  - apply trim_suffix_app.
Qed.

Lemma AsPrincipal_inj td si si' :
  AsPrincipal si td = AsPrincipal si' td → si = si'.
Proof.
  intros E%(f_equal (λ p, FromPrincipal p td)).
  by rewrite !FromPrincipal_AsPrincipal_id in E.
Qed.

Lemma ToK8s_Panic si : ToK8sServiceAccount si = Panic ↔ free_of "." si.
Proof.
  unfold ToK8sServiceAccount. split.
  - pose proof (split_ne_nil "." si). pose proof (split_parts_free "." si) as Hf.
    pose proof (join_split "." si) as Hj. destruct (split "." si) as [|x [|y l]]; [done| |done].
    intros _. rewrite <-Hj. by apply Forall_cons in Hf as [? _].
  - intros Hf. by rewrite split_free.
Qed.

(** ** Theorems *)

(** A certificate's principal determines the workload: reading back the identity
    from the principal of a service account, and the service account from the
    identity, gives the account one started from.  So no two service accounts
    share a principal, whatever the trust domain. *)
Theorem principal_roundtrip (sa : K8sServiceAccount) (trustDomain : string) :
  sa_dotless sa →
  ToK8sServiceAccount (FromPrincipal (sa_AsPrincipal sa trustDomain) trustDomain) = Ret sa ∧
  ∀ sa', sa_dotless sa' → sa_AsPrincipal sa' trustDomain = sa_AsPrincipal sa trustDomain → sa' = sa.
Proof.
  intros Hsa. unfold sa_AsPrincipal. split.
  - by rewrite FromPrincipal_AsPrincipal_id, ToK8s_dotless.
  - intros sa' Hsa' E%AsPrincipal_inj. by apply ToServiceIdentity_inj.
Qed.

Lemma principal_roundtrip_witness :
  ToK8sServiceAccount (FromPrincipal "bookbuyer.demo.cluster.local" "cluster.local") =
  Ret (mkK8sServiceAccount "demo" "bookbuyer").
Proof. apply (principal_roundtrip (mkK8sServiceAccount "demo" "bookbuyer") "cluster.local"). by split. Defined.

(** Converting an identity to a service account panics exactly on the identities
    without a dot, such as the wildcard; of any other it keeps the first two
    components, so an account whose name has a dot does not come back. *)
Theorem ToK8sServiceAccount_total (si : ServiceIdentity) :
  (ToK8sServiceAccount si = Panic ↔ free_of "." si) ∧
  ToK8sServiceAccount WildcardServiceIdentity = Panic ∧
  (∀ sa, ToK8sServiceAccount si = Ret sa → sa_dotless sa) ∧
  ∃ sa, ToK8sServiceAccount (ToServiceIdentity sa) ≠ Ret sa.
Proof.
  split_and!; [apply ToK8s_Panic|done|intros sa; apply ToK8s_dotless_inv|].
  by exists (mkK8sServiceAccount "demo" "v1.bookstore").
Qed.

#[export] Hint Resolve ToK8s_dotless ToK8s_dotless_inv FromPrincipal_AsPrincipal_id : osm.
