(* ===== verification/Service.v ===== *)
(** * pkg/service: mesh services and the names derived from them

    A [MeshService] is one port of a service.  The sidecar configuration refers
    to it by strings: the cluster name, the local cluster name, the traffic
    match names.  The file models pkg/service/types.go and service.go, and
    shows that the cluster names determine the service. *)

From S2P Require Import Prelude GoStrings.

(** ** Data *)

Record MeshService := mkMeshService {
  ms_Namespace : string;
  ms_Name : string;
  ms_Port : Z;
  ms_TargetPort : Z;
  ms_Protocol : string;
  ms_ServiceImportUID : string;
}.

#[global] Instance MeshService_eq_dec : EqDecision MeshService.
Proof. solve_decision. Defined.
#[global] Instance MeshService_countable : Countable MeshService.
Proof.
  apply (inj_countable'
    (λ m, (ms_Namespace m, ms_Name m, ms_Port m, ms_TargetPort m, ms_Protocol m,
           ms_ServiceImportUID m))
    (λ '(a, b, c, d, e, f), mkMeshService a b c d e f)). by intros [].
Defined.

Abbreviation ClusterName := string.

Record WeightedCluster := mkWeightedCluster {
  wc_ClusterName : ClusterName;
  wc_Weight : Z;
}.

#[global] Instance WeightedCluster_eq_dec : EqDecision WeightedCluster.
Proof. solve_decision. Defined.
#[global] Instance WeightedCluster_countable : Countable WeightedCluster.
Proof.
  apply (inj_countable' (λ w, (wc_ClusterName w, wc_Weight w))
    (λ p, mkWeightedCluster p.1 p.2)). by intros [].
Defined.

(** ** Operations *)

Definition Subdomain (ms : MeshService) : string :=
  match split "." (ms_Name ms) with
  | [_] => ""
  | c :: _ => c
  | [] => ""
  end.

Definition ProviderKey (ms : MeshService) : string :=
  default "" (last (split "." (ms_Name ms))).

Definition NamespacedKey (ms : MeshService) : string :=
  ms_Namespace ms +:+ "/" +:+ ProviderKey ms.

Definition IsMultiClusterService (ms : MeshService) : bool :=
  bool_decide (ms_ServiceImportUID ms ≠ "").

Definition SiblingTo (ms svc : MeshService) : bool :=
  bool_decide (NamespacedKey ms = NamespacedKey svc).

Definition MeshService_String (ms : MeshService) : string :=
  ms_Namespace ms +:+ "/" +:+ ms_Name ms.

Definition SidecarClusterName (ms : MeshService) : string :=
  ms_Namespace ms +:+ "/" +:+ ms_Name ms +:+ "|" +:+ itoa (ms_TargetPort ms).

Definition SidecarLocalClusterName (ms : MeshService) : string :=
  ms_Namespace ms +:+ "/" +:+ ms_Name ms +:+ "|" +:+ itoa (ms_TargetPort ms) +:+ "|local".

Definition FQDN (ms : MeshService) : string :=
  ms_Name ms +:+ "." +:+ ms_Namespace ms +:+ ".svc.cluster.local".

Definition ServerName (ms : MeshService) : string := FQDN ms.

Definition OutboundTrafficMatchName (ms : MeshService) : string :=
  "outbound_" +:+ MeshService_String ms +:+ "_" +:+ itoa (ms_Port ms) +:+ "_" +:+ ms_Protocol ms.

Definition InboundTrafficMatchName (ms : MeshService) : string :=
  "inbound_" +:+ MeshService_String ms +:+ "_" +:+ itoa (ms_TargetPort ms) +:+ "_" +:+ ms_Protocol ms.

Definition IngressTrafficMatchName (name namespace : string) (targetPort : Z)
    (protocol : string) : string :=
  "ingress_" +:+ namespace +:+ "/" +:+ name +:+ "_" +:+ itoa targetPort +:+ "_" +:+ protocol.

Definition AccessControlTrafficMatchName (name namespace : string) (targetPort : Z)
    (protocol : string) : string :=
  "acl_" +:+ namespace +:+ "/" +:+ name +:+ "_" +:+ itoa targetPort +:+ "_" +:+ protocol.

Definition ExportedServiceTrafficMatchName (name namespace : string) (targetPort : Z)
    (protocol : string) : string :=
  "exp_" +:+ namespace +:+ "/" +:+ name +:+ "_" +:+ itoa targetPort +:+ "_" +:+ protocol.

(** The methods of the same names: the code passes the namespace as [name] and
    the name as [namespace]. *)
Definition ms_IngressTrafficMatchName (ms : MeshService) : string :=
  IngressTrafficMatchName (ms_Namespace ms) (ms_Name ms) (ms_TargetPort ms) (ms_Protocol ms).

Definition ms_AccessControlTrafficMatchName (ms : MeshService) : string :=
  AccessControlTrafficMatchName (ms_Namespace ms) (ms_Name ms) (ms_TargetPort ms) (ms_Protocol ms).

(** ** Lemmas *)

(** The names the API server admits: no slash in a namespace, no bar in a
    service name. *)
Definition ms_names_ok (ms : MeshService) : Prop :=
  free_of "/" (ms_Namespace ms) ∧ free_of "|" (ms_Name ms).

Lemma cluster_name_inj ns n p r ns' n' p' r' :
  free_of "/" ns → free_of "/" ns' → free_of "|" n → free_of "|" n' →
  ns +:+ "/" +:+ n +:+ "|" +:+ itoa p +:+ String "|"%char r =
  ns' +:+ "/" +:+ n' +:+ "|" +:+ itoa p' +:+ String "|"%char r' →
  ns = ns' ∧ n = n' ∧ p = p'.
Proof.
  intros Hns Hns' Hn Hn' E.
  apply sep_inj in E as [-> E]; [|done..].
  apply sep_inj in E as [-> E]; [|done..].
  apply sep_inj in E as [->%itoa_inj _]; [done|by apply itoa_free..].
Qed.

Lemma SidecarClusterName_local ms : SidecarLocalClusterName ms = SidecarClusterName ms +:+ "|local".
Proof. unfold SidecarLocalClusterName, SidecarClusterName. by rewrite !app_assoc'. Qed.

Lemma SidecarLocalClusterName_inj ms ms' :
  ms_names_ok ms → ms_names_ok ms' →
  SidecarLocalClusterName ms = SidecarLocalClusterName ms' →
  ms_Namespace ms = ms_Namespace ms' ∧ ms_Name ms = ms_Name ms' ∧
  ms_TargetPort ms = ms_TargetPort ms'.
Proof. intros [] []. apply cluster_name_inj; done. Qed.

Lemma SidecarClusterName_inj ms ms' :
  ms_names_ok ms → ms_names_ok ms' →
  SidecarClusterName ms = SidecarClusterName ms' →
  ms_Namespace ms = ms_Namespace ms' ∧ ms_Name ms = ms_Name ms' ∧
  ms_TargetPort ms = ms_TargetPort ms'.
Proof.
  intros ?? E. apply SidecarLocalClusterName_inj; [done..|].
  by rewrite !SidecarClusterName_local, E.
Qed.

(** A local cluster never has the name of an upstream cluster: after the port
    comes a bar, or nothing. *)
Lemma SidecarLocalClusterName_ne ms ms' :
  ms_names_ok ms → ms_names_ok ms' → SidecarLocalClusterName ms ≠ SidecarClusterName ms'.
Proof.
  intros [Hns Hn] [Hns' Hn'] E.
  apply sep_inj in E as [_ E]; [|done..].
  apply sep_inj in E as [_ E]; [|done..].
  apply (f_equal (has_char "|"%char)) in E. rewrite has_char_app in E.
  rewrite !itoa_free in E by done. done.
Qed.

Lemma split_name_dotted sub key :
  free_of "." sub → free_of "." key → split "." (sub +:+ "." +:+ key) = [sub; key].
Proof.
  intros. rewrite split_app_lit by done. by rewrite split_free.
Qed.

Lemma ProviderKey_dotted ms sub key :
  ms_Name ms = sub +:+ "." +:+ key → free_of "." sub → free_of "." key →
  Subdomain ms = sub ∧ ProviderKey ms = key.
Proof.
  intros E ??. unfold Subdomain, ProviderKey. by rewrite E, split_name_dotted.
Qed.

Lemma ProviderKey_plain ms :
  free_of "." (ms_Name ms) → Subdomain ms = "" ∧ ProviderKey ms = ms_Name ms.
Proof. intros ?. unfold Subdomain, ProviderKey. by rewrite split_free. Qed.

(** ** Theorems *)

(** Cluster names identify services: two services of the mesh that share the
    name of their upstream cluster, or of their local cluster, are the same
    service and target port, and a local cluster never has the name of an upstream
    cluster, so the inbound and outbound configurations of a sidecar cannot clash. *)
Theorem cluster_names_unique (ms ms' : MeshService) :
  ms_names_ok ms → ms_names_ok ms' →
  (SidecarClusterName ms = SidecarClusterName ms' ↔
     ms_Namespace ms = ms_Namespace ms' ∧ ms_Name ms = ms_Name ms' ∧ ms_TargetPort ms = ms_TargetPort ms') ∧
  (SidecarLocalClusterName ms = SidecarLocalClusterName ms' ↔
     ms_Namespace ms = ms_Namespace ms' ∧ ms_Name ms = ms_Name ms' ∧ ms_TargetPort ms = ms_TargetPort ms') ∧
  SidecarLocalClusterName ms ≠ SidecarClusterName ms'.
Proof.
  intros H H'. split_and!.
  - split; [by apply SidecarClusterName_inj|]. unfold SidecarClusterName. by intros (-> & -> & ->).
  - split; [by apply SidecarLocalClusterName_inj|]. unfold SidecarLocalClusterName. by intros (-> & -> & ->).
  - by apply SidecarLocalClusterName_ne.
Qed.

Lemma cluster_names_unique_witness :
  SidecarLocalClusterName (mkMeshService "demo" "bookstore" 80 8080 "http" "") ≠
  SidecarClusterName (mkMeshService "demo" "bookstore" 80 8080 "http" "").
Proof.
  apply (cluster_names_unique (mkMeshService "demo" "bookstore" 80 8080 "http" "")
    (mkMeshService "demo" "bookstore" 80 8080 "http" "")); by split.
Defined.

(** The methods that name the ingress and access control matches of a service
    give the name under which the catalog registers the match only when the
    service is called like its namespace: they pass the two the wrong way round. *)
Theorem IngressTrafficMatchName_swapped (ms : MeshService) :
  free_of "/" (ms_Namespace ms) → free_of "/" (ms_Name ms) →
  (ms_IngressTrafficMatchName ms =
     IngressTrafficMatchName (ms_Name ms) (ms_Namespace ms) (ms_TargetPort ms) (ms_Protocol ms) ↔
   ms_Name ms = ms_Namespace ms) ∧
  (ms_AccessControlTrafficMatchName ms =
     AccessControlTrafficMatchName (ms_Name ms) (ms_Namespace ms) (ms_TargetPort ms) (ms_Protocol ms) ↔
   ms_Name ms = ms_Namespace ms).
Proof.
  intros Hns Hn.
  unfold ms_IngressTrafficMatchName, ms_AccessControlTrafficMatchName,
    IngressTrafficMatchName, AccessControlTrafficMatchName.
  split; (split; [|by intros ->]); intros E; injection E as E; apply sep_inj in E as [? _]; done.
Qed.

Lemma IngressTrafficMatchName_swapped_witness :
  ms_IngressTrafficMatchName (mkMeshService "demo" "bookstore" 80 8080 "http" "") ≠
  IngressTrafficMatchName "bookstore" "demo" 8080 "http".
Proof.
  destruct (IngressTrafficMatchName_swapped (mkMeshService "demo" "bookstore" 80 8080 "http" ""))
    as [Hi _]; [reflexivity|reflexivity|]. intros E. apply Hi in E. discriminate E.
Defined.

(** The name of a cluster, split as those who read it back split it. *)
Lemma SidecarClusterName_fields ms :
  ms_Namespace ms ≠ "" → ms_Name ms ≠ "" → free_of "/" (ms_Namespace ms) → free_of "|" (ms_Namespace ms) →
  free_of "/" (ms_Name ms) → free_of "|" (ms_Name ms) →
  FieldsFunc (SidecarClusterName ms) (λ r, bool_decide (r = "/"%char) || bool_decide (r = "|"%char)) =
  [ms_Namespace ms; ms_Name ms; itoa (ms_TargetPort ms)].
Proof.
  intros Hne Hne' Hns Hns' Hn Hn'. unfold SidecarClusterName. set (p := λ r : ascii, _).
  assert (∀ s, free_of "/" s → free_of "|" s → all_chars (λ a, negb (p a)) s = true) as Hfree.
  { subst p. induction s as [|a s IH]; [done|]. rewrite !free_of_cons. intros [??] [??]. cbn [all_chars].
    rewrite !bool_decide_false, IH by done. done. }
  change (ms_Namespace ms +:+ "/" +:+ ms_Name ms +:+ "|" +:+ itoa (ms_TargetPort ms))
    with (ms_Namespace ms +:+ String "/" (ms_Name ms +:+ String "|" (itoa (ms_TargetPort ms)))).
  rewrite FieldsFunc_sep, FieldsFunc_sep, FieldsFunc_end by (try apply itoa_ne; auto with osm). done.
Qed.

#[export] Hint Resolve SidecarClusterName_inj SidecarLocalClusterName_inj : osm.
