(* ===== verification/PolicyApi.v ===== *)
(** * pkg/apis/policy/v1alpha1: the policy resources

    The custom resources of the policy.openservicemesh.io group, field by
    field.  Of an object's metadata the control plane reads the namespace and
    the name.  A [metav1.Duration] is its number of nanoseconds; a [float32] is
    its bit pattern, which the code passes on without computing with it. *)

From S2P Require Import Prelude GoStrings.

Record ObjectMeta := mkObjectMeta {
  om_Namespace : string;
  om_Name : string;
}.

(** [corev1.TypedLocalObjectReference]. *)
Record TypedLocalObjectReference := mkTypedLocalObjectReference {
  ref_APIGroup : option string;
  ref_Kind : string;
  ref_Name : string;
}.

(** [SchemeGroupVersion.String()]. *)
Definition policySchemeGroupVersion : string := "policy.openservicemesh.io/v1alpha1".

(** ** Ingress backends *)

Record PortSpec := mkPortSpec {
  port_Number : Z;
  port_Protocol : string;
}.

Record TLSSpec := mkTLSSpec {
  tls_SkipClientCertValidation : bool;
  tls_SNIHosts : list string;
}.

Record BackendSpec := mkBackendSpec {
  be_Name : string;
  be_Port : PortSpec;
  be_TLS : option TLSSpec;
}.

Definition KindService : string := "Service".
Definition KindAuthenticatedPrincipal : string := "AuthenticatedPrincipal".
Definition KindIPRange : string := "IPRange".

Record IngressSourceSpec := mkIngressSourceSpec {
  is_Kind : string;
  is_Name : string;
  is_Namespace : string;
}.

Record IngressBackendSpec := mkIngressBackendSpec {
  ibs_Backends : list BackendSpec;
  ibs_Sources : list IngressSourceSpec;
  ibs_Matches : list TypedLocalObjectReference;
}.

Record IngressBackendStatus := mkIngressBackendStatus {
  ibst_CurrentStatus : string;
  ibst_Reason : string;
}.

Record IngressBackend := mkIngressBackend {
  ib_Meta : ObjectMeta;
  ib_Spec : IngressBackendSpec;
  ib_Status : IngressBackendStatus;
}.

(** ** Access controls *)

Record AccessControlBackendSpec := mkAccessControlBackendSpec {
  acb_Name : string;
  acb_Port : PortSpec;
  acb_TLS : option TLSSpec;
}.

Record AccessControlSourceSpec := mkAccessControlSourceSpec {
  acs_Kind : string;
  acs_Name : string;
  acs_Namespace : string;
}.

Record AccessControlSpec := mkAccessControlSpec {
  acsp_Backends : list AccessControlBackendSpec;
  acsp_Sources : list AccessControlSourceSpec;
  acsp_Matches : list TypedLocalObjectReference;
}.

Record AccessControlStatus := mkAccessControlStatus {
  acst_CurrentStatus : string;
  acst_Reason : string;
}.

Record AccessControl := mkAccessControl {
  ac_Meta : ObjectMeta;
  ac_Spec : AccessControlSpec;
  ac_Status : AccessControlStatus;
}.

(** ** Upstream traffic settings *)

Record TCPConnectionSettings := mkTCPConnectionSettings {
  tcs_MaxConnections : option Z;
  tcs_ConnectTimeout : option Z;
}.

Record HTTPCircuitBreaking := mkHTTPCircuitBreaking {
  hcb_StatTimeWindow : option Z;
  hcb_MinRequestAmount : Z;
  hcb_DegradedTimeWindow : option Z;
  hcb_SlowTimeThreshold : option Z;
  hcb_SlowAmountThreshold : option Z;
  hcb_SlowRatioThreshold : option Z;
  hcb_ErrorAmountThreshold : option Z;
  hcb_ErrorRatioThreshold : option Z;
  hcb_DegradedStatusCode : option Z;
  hcb_DegradedResponseContent : option string;
}.

Record HTTPConnectionSettings := mkHTTPConnectionSettings {
  hcs_MaxRequests : option Z;
  hcs_MaxRequestsPerConnection : option Z;
  hcs_MaxPendingRequests : option Z;
  hcs_MaxRetries : option Z;
  hcs_CircuitBreaking : option HTTPCircuitBreaking;
}.

Record ConnectionSettingsSpec := mkConnectionSettingsSpec {
  cs_TCP : option TCPConnectionSettings;
  cs_HTTP : option HTTPConnectionSettings;
}.

Record TCPLocalRateLimitSpec := mkTCPLocalRateLimitSpec {
  tlr_Connections : Z;
  tlr_Unit : string;
  tlr_Burst : Z;
}.

Record HTTPHeaderValue := mkHTTPHeaderValue {
  hhv_Name : string;
  hhv_Value : string;
}.

Record HTTPLocalRateLimitSpec := mkHTTPLocalRateLimitSpec {
  hlr_Requests : Z;
  hlr_Unit : string;
  hlr_Burst : Z;
  hlr_ResponseStatusCode : Z;
  hlr_ResponseHeadersToAdd : slice HTTPHeaderValue;
}.

Record LocalRateLimitSpec := mkLocalRateLimitSpec {
  lrl_TCP : option TCPLocalRateLimitSpec;
  lrl_HTTP : option HTTPLocalRateLimitSpec;
}.

Record RateLimitSpec := mkRateLimitSpec {
  rl_Local : option LocalRateLimitSpec;
}.

Record HTTPPerRouteRateLimitSpec := mkHTTPPerRouteRateLimitSpec {
  prl_Local : option HTTPLocalRateLimitSpec;
}.

Record HTTPRouteSpec := mkHTTPRouteSpec {
  hrs_Path : string;
  hrs_RateLimit : option HTTPPerRouteRateLimitSpec;
}.

Record UpstreamTrafficSettingSpec := mkUpstreamTrafficSettingSpec {
  utss_Host : string;
  utss_ConnectionSettings : option ConnectionSettingsSpec;
  utss_RateLimit : option RateLimitSpec;
  utss_HTTPRoutes : list HTTPRouteSpec;
}.

Record UpstreamTrafficSettingStatus := mkUpstreamTrafficSettingStatus {
  utst_CurrentStatus : string;
  utst_Reason : string;
}.

Record UpstreamTrafficSetting := mkUpstreamTrafficSetting {
  uts_Meta : ObjectMeta;
  uts_Spec : UpstreamTrafficSettingSpec;
  uts_Status : UpstreamTrafficSettingStatus;
}.

(** ** Retries *)

Record RetrySrcDstSpec := mkRetrySrcDstSpec {
  rsd_Kind : string;
  rsd_Name : string;
  rsd_Namespace : string;
}.

Record RetryPolicySpec := mkRetryPolicySpec {
  rps_RetryOn : string;
  rps_PerTryTimeout : option Z;
  rps_NumRetries : option Z;
  rps_RetryBackoffBaseInterval : option Z;
}.

Record RetrySpec := mkRetrySpec {
  rs_Source : RetrySrcDstSpec;
  rs_Destinations : list RetrySrcDstSpec;
  rs_RetryPolicy : RetryPolicySpec;
}.

Record Retry := mkRetry {
  retry_Meta : ObjectMeta;
  retry_Spec : RetrySpec;
}.

(** ** Egress policies and gateways *)

Record SecretReference := mkSecretReference {
  sr_Name : string;
  sr_Namespace : string;
}.

Record EgressSourceCertSpec := mkEgressSourceCertSpec {
  esc_SerialNumber : Z;
  esc_SubjectAltNames : list string;
  esc_Expiration : string;
  esc_Secret : SecretReference;
}.

Record EgressSourceMTLSSpec := mkEgressSourceMTLSSpec {
  esm_Issuer : string;
  esm_Cert : option EgressSourceCertSpec;
}.

Record EgressSourceSpec := mkEgressSourceSpec {
  es_Kind : string;
  es_Name : string;
  es_Namespace : string;
  es_MTLS : option EgressSourceMTLSSpec;
}.

Record EgressSpec := mkEgressSpec {
  egs_Sources : list EgressSourceSpec;
  egs_Hosts : list string;
  egs_IPAddresses : list string;
  egs_Ports : list PortSpec;
  egs_Matches : list TypedLocalObjectReference;
}.

Record Egress := mkEgress {
  eg_Meta : ObjectMeta;
  eg_Spec : EgressSpec;
}.

Record GatewayBindingSubject := mkGatewayBindingSubject {
  gbs_Service : string;
  gbs_Namespace : string;
  gbs_Weight : option Z;
}.

Record EgressBindingSubject := mkEgressBindingSubject {
  ebs_Name : string;
  ebs_Namespace : string;
}.

Record EgressPolicyGatewayRule := mkEgressPolicyGatewayRule {
  epgr_EgressPolicies : list EgressBindingSubject;
  epgr_EgressGateways : list GatewayBindingSubject;
}.

(** The code tests the two slices against nil. *)
Record EgressGatewaySpec := mkEgressGatewaySpec {
  egws_GlobalEgressGateways : slice GatewayBindingSubject;
  egws_EgressPolicyGatewayRules : slice EgressPolicyGatewayRule;
  egws_Matches : list TypedLocalObjectReference;
}.

Record EgressGateway := mkEgressGateway {
  egw_Meta : ObjectMeta;
  egw_Spec : EgressGatewaySpec;
}.

(** ** Decidable equality: what [reflect.DeepEqual] decides on these values *)

#[global] Instance ObjectMeta_eq_dec : EqDecision ObjectMeta.
Proof. solve_decision. Defined.
#[global] Instance TLSSpec_eq_dec : EqDecision TLSSpec.
Proof. solve_decision. Defined.
#[global] Instance PortSpec_eq_dec : EqDecision PortSpec.
Proof. solve_decision. Defined.
#[global] Instance TCPConnectionSettings_eq_dec : EqDecision TCPConnectionSettings.
Proof. solve_decision. Defined.
#[global] Instance HTTPCircuitBreaking_eq_dec : EqDecision HTTPCircuitBreaking.
Proof. solve_decision. Defined.
#[global] Instance HTTPConnectionSettings_eq_dec : EqDecision HTTPConnectionSettings.
Proof. solve_decision. Defined.
#[global] Instance ConnectionSettingsSpec_eq_dec : EqDecision ConnectionSettingsSpec.
Proof. solve_decision. Defined.
#[global] Instance TCPLocalRateLimitSpec_eq_dec : EqDecision TCPLocalRateLimitSpec.
Proof. solve_decision. Defined.
#[global] Instance HTTPHeaderValue_eq_dec : EqDecision HTTPHeaderValue.
Proof. solve_decision. Defined.
#[global] Instance HTTPLocalRateLimitSpec_eq_dec : EqDecision HTTPLocalRateLimitSpec.
Proof. solve_decision. Defined.
#[global] Instance LocalRateLimitSpec_eq_dec : EqDecision LocalRateLimitSpec.
Proof. solve_decision. Defined.
#[global] Instance RateLimitSpec_eq_dec : EqDecision RateLimitSpec.
Proof. solve_decision. Defined.
#[global] Instance HTTPPerRouteRateLimitSpec_eq_dec : EqDecision HTTPPerRouteRateLimitSpec.
Proof. solve_decision. Defined.
#[global] Instance HTTPRouteSpec_eq_dec : EqDecision HTTPRouteSpec.
Proof. solve_decision. Defined.
#[global] Instance UpstreamTrafficSettingSpec_eq_dec : EqDecision UpstreamTrafficSettingSpec.
Proof. solve_decision. Defined.
#[global] Instance UpstreamTrafficSettingStatus_eq_dec : EqDecision UpstreamTrafficSettingStatus.
Proof. solve_decision. Defined.
#[global] Instance UpstreamTrafficSetting_eq_dec : EqDecision UpstreamTrafficSetting.
Proof. solve_decision. Defined.
#[global] Instance RetryPolicySpec_eq_dec : EqDecision RetryPolicySpec.
Proof. solve_decision. Defined.
#[global] Instance SecretReference_eq_dec : EqDecision SecretReference.
Proof. solve_decision. Defined.
#[global] Instance EgressSourceCertSpec_eq_dec : EqDecision EgressSourceCertSpec.
Proof. solve_decision. Defined.
#[global] Instance EgressSourceMTLSSpec_eq_dec : EqDecision EgressSourceMTLSSpec.
Proof. solve_decision. Defined.
#[global] Instance TypedLocalObjectReference_eq_dec : EqDecision TypedLocalObjectReference.
Proof. solve_decision. Defined.
#[global] Instance BackendSpec_eq_dec : EqDecision BackendSpec.
Proof. solve_decision. Defined.
#[global] Instance IngressSourceSpec_eq_dec : EqDecision IngressSourceSpec.
Proof. solve_decision. Defined.
#[global] Instance IngressBackendSpec_eq_dec : EqDecision IngressBackendSpec.
Proof. solve_decision. Defined.
#[global] Instance IngressBackendStatus_eq_dec : EqDecision IngressBackendStatus.
Proof. solve_decision. Defined.
#[global] Instance IngressBackend_eq_dec : EqDecision IngressBackend.
Proof. solve_decision. Defined.
#[global] Instance AccessControlBackendSpec_eq_dec : EqDecision AccessControlBackendSpec.
Proof. solve_decision. Defined.
#[global] Instance AccessControlSourceSpec_eq_dec : EqDecision AccessControlSourceSpec.
Proof. solve_decision. Defined.
#[global] Instance AccessControlSpec_eq_dec : EqDecision AccessControlSpec.
Proof. solve_decision. Defined.
#[global] Instance AccessControlStatus_eq_dec : EqDecision AccessControlStatus.
Proof. solve_decision. Defined.
#[global] Instance AccessControl_eq_dec : EqDecision AccessControl.
Proof. solve_decision. Defined.
