(* ===== verification/Net.v ===== *)
(** * The part of Go's net package that the control plane uses

    [net.ParseIP], [net.ParseCIDR], [IP.String] and [IPNet.Contains] as the
    standard library of Go 1.19 defines them.  An address is a list of bytes: an
    IPv4 address is parsed into its 16 byte form, ten zero bytes, two bytes 255
    and the four octets. *)

From S2P Require Import Prelude GoStrings.
Open Scope Z_scope.

(** ** Addresses *)

Abbreviation IP := (list Z).

Definition v4InV6Prefix : IP := [0; 0; 0; 0; 0; 0; 0; 0; 0; 0; 255; 255].

Definition IPv4 (a b c d : Z) : IP := v4InV6Prefix ++ [a; b; c; d].

(** The four octets of an IPv4 address in either form. *)
Definition To4 (ip : IP) : option IP :=
  if decide (length ip = 4%nat) then Some ip
  else if decide (length ip = 16%nat ∧ take 12 ip = v4InV6Prefix) then Some (drop 12 ip)
  else None.

(** ** Numbers *)

Definition digit_val (c : ascii) : option Z :=
  let n := Z.of_nat (nat_of_ascii c) in
  if decide (48 ≤ n ≤ 57) then Some (n - 48) else None.

Definition hex_val (c : ascii) : option Z :=
  let n := Z.of_nat (nat_of_ascii c) in
  if decide (48 ≤ n ≤ 57) then Some (n - 48)
  else if decide (97 ≤ n ≤ 102) then Some (n - 97 + 10)
  else if decide (65 ≤ n ≤ 70) then Some (n - 65 + 10)
  else None.

(** The library's bound on parsed numbers. *)
Definition big : Z := 16777215.

(** [dtoi] and [xtoi]: the number at the start of the string, how many
    characters it takes and what follows; [None] when there is none or it is
    [big] or more. *)
Fixpoint number (val : ascii → option Z) (base : Z) (s : string) (n : Z) (count : nat) :
    option (Z * nat * string) :=
  match s with
  | String c s' =>
    match val c with
    | Some d =>
      let n := n * base + d in
      if decide (big ≤ n) then None else number val base s' n (S count)
    | None => if decide (count = O) then None else Some (n, count, s)
    end
  | EmptyString => if decide (count = O) then None else Some (n, count, s)
  end.

Definition dtoi (s : string) : option (Z * nat * string) := number digit_val 10 s 0 0.
Definition xtoi (s : string) : option (Z * nat * string) := number hex_val 16 s 0 0.

(** ** Parsing *)

(** One octet: at most 255, no leading zero. *)
Definition octet (s : string) : option (Z * string) :=
  '(n, count, rest) ← dtoi s;
  if decide (255 < n) then None
  else if decide ((1 < count)%nat ∧ String.get 0 s = Some "0"%char) then None
  else Some (n, rest).

Fixpoint octets (k : nat) (first : bool) (s : string) : option (list Z * string) :=
  match k with
  | O => Some ([], s)
  | S k =>
    s ← match s with
        | EmptyString => None
        | String c s' =>
          if first then Some s else if decide (c = "."%char) then Some s' else None
        end;
    '(n, rest) ← octet s;
    '(ns, rest) ← octets k false rest;
    Some (n :: ns, rest)
  end.

Definition parseIPv4 (s : string) : option IP :=
  '(ns, rest) ← octets 4 true s;
  match rest with
  | EmptyString => Some (v4InV6Prefix ++ ns)
  | _ => None
  end.

(** The loop of [parseIPv6]: the bytes read so far, the position of the
    ellipsis and the rest of the input.  Every turn but the last reads two
    bytes, so eight turns are enough. *)
Fixpoint parseIPv6_loop (fuel : nat) (bytes : list Z) (ellipsis : option nat) (s : string) :
    option (list Z * option nat * string) :=
  match fuel with
  | O => Some (bytes, ellipsis, s)
  | S fuel =>
    '(n, count, rest) ← xtoi s;
    if decide (65535 < n) then None else
    match rest with
    | String "."%char _ =>
      if decide (ellipsis = None ∧ length bytes ≠ 12%nat) then None
      else if decide (16 < length bytes + 4)%nat then None
      else ip4 ← parseIPv4 s; Some (bytes ++ drop 12 ip4, ellipsis, EmptyString)
    | EmptyString => Some (bytes ++ [n / 256; n `mod` 256], ellipsis, EmptyString)
    | String ":"%char EmptyString => None
    | String ":"%char (String ":"%char rest) =>
      let bytes := bytes ++ [n / 256; n `mod` 256] in
      match ellipsis, rest with
      | Some _, _ => None
      | None, EmptyString => Some (bytes, Some (length bytes), EmptyString)
      | None, _ => parseIPv6_loop fuel bytes (Some (length bytes)) rest
      end
    | String ":"%char rest => parseIPv6_loop fuel (bytes ++ [n / 256; n `mod` 256]) ellipsis rest
    | _ => None
    end
  end.

Definition parseIPv6_end (r : list Z * option nat * string) : option IP :=
  let '(bytes, ellipsis, rest) := r in
  match rest with
  | String _ _ => None
  | EmptyString =>
    if decide (length bytes < 16)%nat then
      e ← ellipsis;
      Some (take e bytes ++ replicate (16 - length bytes) 0 ++ drop e bytes)
    else match ellipsis with Some _ => None | None => Some bytes end
  end.

Definition parseIPv6 (s : string) : option IP :=
  match s with
  | String ":"%char (String ":"%char EmptyString) => Some (replicate 16 0)
  | String ":"%char (String ":"%char s) => parseIPv6_loop 8 [] (Some 0%nat) s ≫= parseIPv6_end
  | _ => parseIPv6_loop 8 [] None s ≫= parseIPv6_end
  end.

(** The first dot or colon decides the syntax. *)
Fixpoint parseIP_go (whole s : string) : option IP :=
  match s with
  | EmptyString => None
  | String "."%char _ => parseIPv4 whole
  | String ":"%char _ => parseIPv6 whole
  | String _ s => parseIP_go whole s
  end.

Definition ParseIP (s : string) : option IP := parseIP_go s s.

(** ** Masks and networks *)

(** [CIDRMask]: [ones] one bits, over [len] bytes. *)
Fixpoint CIDRMask (ones : Z) (len : nat) : list Z :=
  match len with
  | O => []
  | S len =>
    if decide (8 ≤ ones) then 255 :: CIDRMask (ones - 8) len
    else (255 - (255 ≫ ones))%Z :: CIDRMask 0 len
  end.

(** [IP.Mask] on the representation of the mask's length. *)
Definition IP_Mask (ip : IP) (mask : list Z) : option IP :=
  let ip := if decide (length mask = 4%nat ∧ length ip = 16%nat ∧ take 12 ip = v4InV6Prefix)
            then drop 12 ip else ip in
  if decide (length ip = length mask) then Some (zip_with Z.land ip mask) else None.

Record IPNet := mkIPNet {
  net_IP : IP;
  net_Mask : list Z;
}.

Definition cut (c : ascii) (s : string) : option (string * string) :=
  match split c s with
  | before :: after :: rest => Some (before, join c (after :: rest))
  | _ => None
  end.

Definition ParseCIDR (s : string) : option (IP * IPNet) :=
  '(addr, mask) ← cut "/"%char s;
  '(ip, iplen) ← match parseIPv4 addr with
                 | Some ip => Some (ip, 4%nat)
                 | None => ip ← parseIPv6 addr; Some (ip, 16%nat)
                 end;
  '(n, _, rest) ← dtoi mask;
  match rest with
  | String _ _ => None
  | EmptyString =>
    if decide (8 * Z.of_nat iplen < n) then None
    else
      let m := CIDRMask n iplen in
      masked ← IP_Mask ip m;
      Some (ip, {| net_IP := masked; net_Mask := m |})
  end.

(** [IPNet.Contains] for the networks [ParseCIDR] makes. *)
Definition Contains (n : IPNet) (ip : IP) : bool :=
  let ip := default ip (To4 ip) in
  bool_decide (length ip = length (net_IP n)) &&
  bool_decide (zip_with Z.land ip (net_Mask n) = zip_with Z.land (net_IP n) (net_Mask n)).

(** ** Printing *)

Definition hex_digit (n : Z) : ascii :=
  ascii_of_nat (Z.to_nat (if decide (n < 10) then n + 48 else n - 10 + 97)).

(** [appendHex]: at most four digits, no leading zeros. *)
Definition hex (w : Z) : string :=
  let d i := hex_digit ((w ≫ (4 * i)) `mod` 16) in
  if decide (4096 ≤ w) then String (d 3) (String (d 2) (String (d 1) (String (d 0) "")))
  else if decide (256 ≤ w) then String (d 2) (String (d 1) (String (d 0) ""))
  else if decide (16 ≤ w) then String (d 1) (String (d 0) "")
  else String (d 0) "".

Fixpoint words (ip : IP) : list Z :=
  match ip with
  | a :: b :: ip => (256 * a + b) :: words ip
  | _ => []
  end.

(** The length of the run of zero words at the head of the list. *)
Fixpoint zero_run (ws : list Z) : nat :=
  match ws with
  | 0 :: ws => S (zero_run ws)
  | _ => O
  end.

(** The first longest run: its position and length. *)
Fixpoint longest_run (i : nat) (ws : list Z) (best : nat * nat) : nat * nat :=
  match ws with
  | [] => best
  | _ :: ws' =>
    longest_run (S i) ws' (if decide (best.2 < zero_run ws)%nat then (i, zero_run ws) else best)
  end.

Definition colons (ws : list Z) : string := join ":"%char (hex <$> ws).

Definition IP_String (ip : IP) : string :=
  match ip with
  | [] => "<nil>"
  | _ =>
    match To4 ip with
    | Some ip4 => join "."%char (itoa <$> ip4)
    | None =>
      if decide (length ip = 16%nat) then
        let ws := words ip in
        let '(start, len) := longest_run 0 ws (0%nat, 0%nat) in
        if decide (1 < len)%nat
        then colons (take start ws) +:+ "::" +:+ colons (drop (start + len) ws)
        else colons ws
      else "?" +:+ String.concat "" ((λ b, String (hex_digit (b / 16)) (String (hex_digit (b `mod` 16)) "")) <$> ip)
    end
  end.

Example ParseIP_v4 : ParseIP "10.0.0.1" = Some (IPv4 10 0 0 1).
Proof. reflexivity. Qed.
Example ParseIP_bad : ParseIP "10.0.0.01" = None ∧ ParseIP "10.0.0" = None ∧ ParseIP "1.2.3.256" = None.
Proof. split_and!; reflexivity. Qed.
Example ParseIP_v6 : IP_String <$> ParseIP "2001:db8:0:0:1::7" = Some "2001:db8::1:0:0:7"
  ∧ IP_String <$> ParseIP "::" = Some "::" ∧ IP_String <$> ParseIP "0:0::1" = Some "::1"
  ∧ IP_String <$> ParseIP "::ffff:1.2.3.4" = Some "1.2.3.4"
  ∧ ParseIP "1::2::3" = None.
Proof. split_and!; vm_compute; reflexivity. Qed.
Example ParseCIDR_ok : ParseCIDR "10.1.2.3/8" =
  Some (IPv4 10 1 2 3, mkIPNet [10; 0; 0; 0] [255; 0; 0; 0]).
Proof. vm_compute. reflexivity. Qed.

(** ** IPv4 addresses print and parse *)

Definition is_byte (z : Z) : Prop := 0 ≤ z < 256.

(** A bounded integer is one of a list. *)
Lemma forall_byte (P : Z → Prop) : Forall P (seqZ 0 256) → ∀ z, is_byte z → P z.
Proof. intros HP z Hz. rewrite Forall_forall in HP. apply HP, elem_of_seqZ. unfold is_byte in Hz. lia. Qed.

Lemma octet_end n : is_byte n → octet (itoa n) = Some (n, "").
Proof. revert n. apply forall_byte. repeat constructor. Qed.

Lemma octet_dot n r : is_byte n → octet (itoa n +:+ String "." r) = Some (n, String "." r).
Proof. revert n. apply forall_byte. repeat constructor. Qed.

Lemma itoa_byte_cons n : is_byte n → ∃ c s, itoa n = String c s ∧ c ≠ "."%char ∧ c ≠ ":"%char.
Proof. revert n. apply forall_byte. repeat constructor; vm_compute; eexists _, _; by split_and!. Qed.

Lemma octets_first k s :
  s ≠ "" → octets (S k) true s =
  ('(n, rest) ← octet s; '(ns, rest) ← octets k false rest; Some (n :: ns, rest)).
Proof. by destruct s. Qed.

Lemma octets_next k s :
  octets (S k) false (String "." s) =
  ('(n, rest) ← octet s; '(ns, rest) ← octets k false rest; Some (n :: ns, rest)).
Proof. done. Qed.

Lemma IPv4_String a b c d :
  IP_String (IPv4 a b c d) = itoa a +:+ String "." (itoa b +:+ String "." (itoa c +:+ String "." (itoa d))).
Proof. done. Qed.

Lemma parseIPv4_String a b c d :
  is_byte a → is_byte b → is_byte c → is_byte d →
  parseIPv4 (IP_String (IPv4 a b c d)) = Some (IPv4 a b c d).
Proof.
  intros Ha Hb Hc Hd. unfold parseIPv4. rewrite IPv4_String, octets_first.
  - rewrite octet_dot by done. cbn [mbind option_bind].
    rewrite octets_next, octet_dot by done. cbn [mbind option_bind].
    rewrite octets_next, octet_dot by done. cbn [mbind option_bind].
    by rewrite octets_next, octet_end by done.
  - destruct (itoa_byte_cons a Ha) as (x & s & -> & _). done.
Qed.

(** The range of a single IPv4 address: [ip.String() + "/32"]. *)
Lemma ParseCIDR_host a b c d :
  is_byte a → is_byte b → is_byte c → is_byte d →
  ParseCIDR (IP_String (IPv4 a b c d) +:+ "/32") =
  Some (IPv4 a b c d, mkIPNet (zip_with Z.land [a; b; c; d] [255; 255; 255; 255]) [255; 255; 255; 255]).
Proof.
  intros Ha Hb Hc Hd. pose proof (parseIPv4_String a b c d Ha Hb Hc Hd) as Hip.
  assert (free_of "/" (IP_String (IPv4 a b c d))) as Hfree.
  { rewrite IPv4_String. repeat (rewrite free_of_app || rewrite free_of_cons).
    split_and!; try done; by apply itoa_free. }
  generalize dependent (IP_String (IPv4 a b c d)). intros addr Hip Hfree.
  unfold ParseCIDR, cut. change "/32" with (String "/" "32"). rewrite split_app_sep by done.
  simpl. by rewrite Hip.
Qed.

Lemma land_255 z : is_byte z → Z.land z 255 = z.
Proof. intros Hz. change 255 with (Z.ones 8). rewrite Z.land_ones by lia. by apply Z.mod_small. Qed.

Lemma Contains_host a b c d a' b' c' d' :
  is_byte a → is_byte b → is_byte c → is_byte d →
  is_byte a' → is_byte b' → is_byte c' → is_byte d' →
  Contains (mkIPNet (zip_with Z.land [a; b; c; d] [255; 255; 255; 255]) [255; 255; 255; 255])
    (IPv4 a' b' c' d') = true ↔ IPv4 a' b' c' d' = IPv4 a b c d.
Proof.
  intros. unfold Contains. rewrite andb_true_iff, !bool_decide_eq_true. simpl.
  rewrite !(land_255 a), !(land_255 b), !(land_255 c), !(land_255 d) by done.
  rewrite (land_255 a'), (land_255 b'), (land_255 c'), (land_255 d') by done. split; [by intros [_ [= -> -> -> ->]]|]. by intros [= -> -> -> ->].
Qed.
