(* ===== verification/Cidr.v ===== *)
(** * pkg/utils/cidr: arithmetic on IP networks

    helper.go and cidr.go: the successor and predecessor of an address, the order of
    networks, the enumeration of a network's addresses, and splitting and joining
    networks.  Addresses and masks are those of [Net.v]; [net.IPMask.Size] of the
    standard library is modelled here. *)

From S2P Require Import Prelude GoStrings Net.
Open Scope Z_scope.

(** ** The standard library *)

(** [simpleMaskLength] of a byte: the number of leading ones, when zeros follow. *)
Fixpoint byteOnes (bits : nat) (v : Z) : option Z :=
  if decide (v = 0) then Some 0
  else match bits with
       | O => None
       | S bits => if decide (v < 128) then None else n ← byteOnes bits ((v * 2) `mod` 256); Some (n + 1)
       end.

Fixpoint simpleMaskLength (mask : list Z) : option Z :=
  match mask with
  | [] => Some 0
  | v :: mask =>
    if decide (v = 255) then n ← simpleMaskLength mask; Some (n + 8)
    else if decide (mask = replicate (length mask) 0) then byteOnes 8 v else None
  end.

(** [mask.Size()]: the ones and the bits, both zero when the mask is not a prefix. *)
Definition MaskSize (mask : list Z) : Z * Z :=
  match simpleMaskLength mask with
  | Some n => (n, 8 * Z.of_nat (length mask))
  | None => (0, 0)
  end.

(** [bytes.Compare] *)
Fixpoint Compare (a b : list Z) : Z :=
  match a, b with
  | [], [] => 0
  | [], _ => -1
  | _, [] => 1
  | x :: a, y :: b => if decide (x < y) then -1 else if decide (y < x) then 1 else Compare a b
  end.

(** ** helper.go *)

(** The loops run from the last byte to the first: on the reversed list. *)
Fixpoint incr_rev (l : list Z) : list Z :=
  match l with
  | [] => []
  | b :: l => let b := (b + 1) `mod` 256 in if decide (0 < b) then b :: l else b :: incr_rev l
  end.

Definition IncrIP (ip : IP) : IP := rev (incr_rev (rev ip)).

(** The inner loop: the other bytes, and whether the function has returned. *)
Fixpoint borrow (l : list Z) : list Z * bool :=
  match l with
  | [] => ([], false)
  | b :: l =>
    let b := (b - 1) `mod` 256 in
    if decide (b < 255) then (b :: l, true) else let '(l, done) := borrow l in (b :: l, done)
  end.

(** The outer loop, once per byte. *)
Fixpoint decr_rev (turns : nat) (l : list Z) : list Z :=
  match turns, l with
  | S turns, b :: l =>
    let b := (b - 1) `mod` 256 in
    if decide (b < 255) then b :: l
    else let '(l, done) := borrow l in if (done : bool) then b :: l else decr_rev turns (b :: l)
  | _, _ => l
  end.

Definition DecrIP (ip : IP) : IP := rev (decr_rev (length ip) (rev ip)).

Record CIDR := mkCIDR {
  cidr_ip : IP;
  cidr_ipnet : IPNet;
}.

Definition maskOnes (c : CIDR) : Z := (MaskSize (net_Mask (cidr_ipnet c))).1.
Definition maskBits (c : CIDR) : Z := (MaskSize (net_Mask (cidr_ipnet c))).2.
Definition networkIP (c : CIDR) : IP := net_IP (cidr_ipnet c).

Definition CompareCIDR (a b : CIDR) : Z :=
  if decide (maskOnes a = maskOnes b) then Compare (networkIP a) (networkIP b)
  else if decide (maskOnes b < maskOnes a) then 1 else -1.

Definition asc_less (a b : CIDR) : bool :=
  if decide (maskOnes a = maskOnes b) then bool_decide (Compare (networkIP a) (networkIP b) < 0)
  else bool_decide (maskOnes a < maskOnes b).

Definition desc_less (a b : CIDR) : bool :=
  if decide (maskOnes a = maskOnes b) then bool_decide (0 ≤ Compare (networkIP a) (networkIP b))
  else bool_decide (maskOnes b < maskOnes a).

(** [sort.Slice] behaves as [sort.Sort]. *)
Definition AscSortCIDRs `{SortOrder} (cs : list CIDR) : list CIDR := go_sort asc_less cs.
Definition DescSortCIDRs `{SortOrder} (cs : list CIDR) : list CIDR := go_sort desc_less cs.

(** ** cidr.go *)

Definition newCIDR (s : string) : option CIDR :=
  '(ip, n) ← ParseCIDR s; Some (mkCIDR ip n).

(** [c.ipnet.String()] for a mask that is a prefix. *)
Definition CIDR_String (c : CIDR) : string :=
  IP_String (networkIP c) +:+ "/" +:+ itoa (maskOnes c).

(** [IP.Equal]: an IPv4 address is equal to its 16 byte form. *)
Definition IP_Equal (a b : IP) : bool :=
  bool_decide (a = b) ||
  match To4 a, To4 b with
  | Some a4, Some b4 => bool_decide (length a ≠ length b) && bool_decide (a4 = b4)
  | _, _ => false
  end.

Definition Equal (c : CIDR) (ns : string) : bool :=
  match newCIDR ns with
  | None => false
  | Some c2 => IP_Equal (networkIP c) (networkIP c2)
  end.

Definition IsIPv4 (c : CIDR) : bool := bool_decide (maskBits c / 8 = 4).
Definition IsIPv6 (c : CIDR) : bool := bool_decide (maskBits c / 8 = 16).

Definition CIDR_Contains (c : CIDR) (ip : string) : bool := Contains (cidr_ipnet c) (default [] (ParseIP ip)).

Definition CIDR_IP (c : CIDR) : string := IP_String (cidr_ip c).
Definition Network (c : CIDR) : string := IP_String (networkIP c).
Definition Mask (c : CIDR) : string := IP_String (net_Mask (cidr_ipnet c)).

(** The address of the network with the host bits set. *)
Definition broadcastIP (c : CIDR) : IP :=
  zip_with (λ b m, Z.lor b (255 - m)) (networkIP c) (net_Mask (cidr_ipnet c)).
Definition Broadcast (c : CIDR) : string := IP_String (broadcastIP c).

Definition IPRange (c : CIDR) : string * string := (Network c, Broadcast c).

Definition IPCount (c : CIDR) : Z := Z.shiftl 1 (maskBits c - maskOnes c).

(** [for c.ipnet.Contains(next) { iterator(next); IncrIP(next) }], with the state of the
    iterator; [None] when [fuel] turns are not enough. *)
Fixpoint eachIP {E A} (c : CIDR) (iterator : A → string → result E A) (fuel : nat) (next : IP) (s : A) :
    option (result E A) :=
  if Contains (cidr_ipnet c) next then
    match fuel with
    | O => None
    | S fuel =>
      match iterator s (IP_String next) with
      | Err e => Some (Err e)
      | Ok s => eachIP c iterator fuel (IncrIP next) s
      end
    end
  else Some (Ok s).

Definition ForEachIP {E A} (c : CIDR) (iterator : A → string → result E A) (fuel : nat) (s : A) :
    option (result E A) :=
  eachIP c iterator fuel (networkIP c) s.

Definition ForEachIPBeginWith {E A} (c : CIDR) (beginIP : string) (iterator : A → string → result E A)
    (fuel : nat) (s : A) : option (result E A) :=
  eachIP c iterator fuel (default [] (ParseIP beginIP)) s.

(** *** Splitting and joining *)

Inductive SubnettingMethod := subnettingMethodSubnetNum | subnettingMethodHostNum.

(** [num < 1 || num&(num-1) != 0] *)
Definition notPowerOf2 (num : Z) : bool := bool_decide (num < 1) || bool_decide (Z.land num (num - 1) ≠ 0).

(** The address after the network, in the 16 byte form of [net.ParseIP]. *)
Definition nextNetwork (c : CIDR) : IP := IncrIP (default [] (ParseIP (Broadcast c))).

(** [num] networks with [newOnes] ones, one after the other; a text that is no network
    gives a nil pointer, whose use panics. *)
Fixpoint subnets (num : nat) (newOnes : Z) (network : IP) : outcome (list CIDR) :=
  match num with
  | O => Ret []
  | S num =>
    match newCIDR (IP_String network +:+ "/" +:+ itoa newOnes) with
    | None => Panic
    | Some c => cs ← subnets num newOnes (nextNetwork c); Ret (c :: cs)
    end
  end.

(** [None]: nothing to split into.  [num] is a power of two, so the logarithm is exact. *)
Definition SubNetting (c : CIDR) (method : SubnettingMethod) (num : Z) :
    outcome (result string (option (list CIDR))) :=
  if notPowerOf2 num then Ret (Err "num must the power of 2")
  else
    let log := Z.log2 num in
    let ones := maskOnes c in
    let bits := maskBits c in
    match method with
    | subnettingMethodSubnetNum =>
      if decide (bits < ones + log) then Ret (Ok None)
      else cs ← subnets (Z.to_nat num) (ones + log) (networkIP c); Ret (Ok (Some cs))
    | subnettingMethodHostNum =>
      let newOnes := bits - log in
      if decide (newOnes ≤ ones) then Ret (Ok None)
      else cs ← subnets (Z.to_nat (2 ^ (newOnes - ones))) newOnes (networkIP c); Ret (Ok (Some cs))
    end.

(** Whether every network begins where the one before it ends. *)
Fixpoint contiguous (network : option IP) (cs : list CIDR) : bool :=
  match cs with
  | [] => true
  | c :: cs =>
    match network with
    | Some n => IP_Equal n (networkIP c)
    | None => true
    end && contiguous (Some (nextNetwork c)) cs
  end.

(** The networks, which have to have the same mask. *)
Fixpoint parseAll (mask : string) (ns : list string) : result string (list CIDR) :=
  match ns with
  | [] => Ok []
  | n :: ns =>
    match newCIDR n with
    | None => Err ("invalid CIDR format:" +:+ n)
    | Some c =>
      if bool_decide (mask ≠ "") && bool_decide (Mask c ≠ mask) then Err "not the same mask"
      else match parseAll (if decide (mask = "") then Mask c else mask) ns with
           | Ok cs => Ok (c :: cs)
           | Err e => Err e
           end
    end
  end.

(** The parent has a shorter mask; the address is masked, and the result dropped. *)
Definition SuperNetting `{SortOrder} (ns : list string) : outcome (result string CIDR) :=
  let num := Z.of_nat (length ns) in
  if notPowerOf2 num then Ret (Err "ns length must the power of 2")
  else
    match parseAll "" ns with
    | Err e => Ret (Err e)
    | Ok cidrs =>
      let cidrs := AscSortCIDRs cidrs in
      if contiguous None cidrs then
        match cidrs with
        | [] => Panic
        | c :: _ =>
          let ones := maskOnes c - Z.log2 num in
          let mask := if decide (ones < 0) then [] else CIDRMask ones (length (net_Mask (cidr_ipnet c))) in
          Ret (Ok (mkCIDR (cidr_ip c) (mkIPNet (networkIP c) mask)))
        end
      else Ret (Err "not the contiguous segments")
    end.

(** ** Theorems: addresses as numbers *)

Fixpoint le_val (l : list Z) : Z :=
  match l with [] => 0 | b :: l => b + 256 * le_val l end.

(** The number an address stands for. *)
Definition ip_val (ip : IP) : Z := le_val (rev ip).

Abbreviation bytes l := (Forall is_byte l).

Lemma le_val_bound l : bytes l → 0 ≤ le_val l < 256 ^ Z.of_nat (length l).
Proof.
  induction 1 as [|b l Hb _ IH]; [done|]. cbn [le_val length]. unfold is_byte in Hb.
  rewrite Nat2Z.inj_succ, Z.pow_succ_r by lia. lia.
Qed.

Lemma le_val_inj l l' :
  bytes l → bytes l' → length l = length l' → le_val l = le_val l' → l = l'.
Proof.
  intros Hl. revert l'. induction Hl as [|b l Hb Hl IH]; intros [|b' l'] Hl' Hlen Hv; try done.
  apply Forall_cons in Hl' as [Hb' Hl']. cbn [le_val] in Hv. unfold is_byte in *.
  assert (b = b') as -> by lia. f_equal. apply IH; [done|by injection Hlen|lia].
Qed.

Lemma ip_val_inj ip ip' :
  bytes ip → bytes ip' → length ip = length ip' → ip_val ip = ip_val ip' → ip = ip'.
Proof.
  intros Hip Hip' Hlen Hv. rewrite <-(rev_involutive ip), <-(rev_involutive ip'). f_equal.
  apply le_val_inj; [by apply Forall_rev..|by rewrite !length_rev|done].
Qed.

Lemma incr_rev_spec l :
  bytes l → bytes (incr_rev l) ∧ length (incr_rev l) = length l ∧
  le_val (incr_rev l) = (le_val l + 1) `mod` 256 ^ Z.of_nat (length l).
Proof.
  induction 1 as [|b l Hb Hl (IHb & IHl & IHv)]; [done|]. cbn [incr_rev le_val length].
  pose proof (le_val_bound l Hl) as Hbound. unfold is_byte in Hb.
  rewrite Nat2Z.inj_succ, Z.pow_succ_r by lia.
  assert (is_byte ((b + 1) `mod` 256)) by (apply Z.mod_pos_bound; lia).
  destruct (decide (b = 255)) as [->|Hne].
  - rewrite decide_False by done. cbn [le_val length]. split_and!; [by constructor|lia|].
    rewrite IHv. change ((255 + 1) `mod` 256) with 0.
    replace (255 + 256 * le_val l + 1) with (256 * (le_val l + 1)) by lia.
    rewrite Z.mul_mod_distr_l by lia. lia.
  - rewrite (Z.mod_small (b + 1)) by lia. rewrite decide_True by lia. cbn [le_val length].
    split_and!; [constructor; [unfold is_byte; lia|done]|done|]. rewrite Z.mod_small; lia.
Qed.

Lemma borrow_spec l :
  bytes l → bytes (borrow l).1 ∧ length (borrow l).1 = length l ∧
  (le_val l ≠ 0 → (borrow l).2 = true ∧ le_val (borrow l).1 = le_val l - 1) ∧
  (le_val l = 0 → (borrow l).2 = false ∧ le_val (borrow l).1 = 256 ^ Z.of_nat (length l) - 1).
Proof.
  induction 1 as [|b l Hb Hl (IHb & IHl & IHp & IHz)]; [done|]. cbn [borrow le_val length].
  pose proof (le_val_bound l Hl) as Hbound. unfold is_byte in Hb.
  rewrite Nat2Z.inj_succ, Z.pow_succ_r by lia. destruct (decide (b = 0)) as [->|Hne].
  - change ((0 - 1) `mod` 256) with 255. rewrite decide_False by lia.
    destruct (borrow l) as [l' d]. cbn [fst snd le_val length] in *.
    split_and!; [by constructor|by rewrite IHl|..]; intros ?.
    + destruct IHp as [-> ->]; [lia|]. split; [done|]. lia.
    + destruct IHz as [-> ->]; [lia|]. split; [done|]. lia.
  - rewrite Z.mod_small by lia. rewrite decide_True by lia. cbn [fst snd le_val length].
    split_and!; [constructor; [unfold is_byte; lia|done]|done|intros; split; [done|lia]|lia].
Qed.

Lemma decr_rev_spec turns l :
  bytes l → turns ≠ O →
  bytes (decr_rev turns l) ∧ length (decr_rev turns l) = length l ∧
  (le_val l ≠ 0 → le_val (decr_rev turns l) = le_val l - 1).
Proof.
  intros Hl Hn. revert l Hl. induction turns as [|turns IH]; [done|]. clear Hn.
  intros l Hl. destruct Hl as [|b l Hb Hl]; [done|].
  cbn [decr_rev le_val]. pose proof (le_val_bound l Hl) as Hbound. unfold is_byte in Hb.
  destruct (decide (b = 0)) as [->|Hne].
  - change ((0 - 1) `mod` 256) with 255. rewrite decide_False by lia.
    destruct (borrow_spec l Hl) as (Hb' & Hl' & Hp & Hz). destruct (borrow l) as [l' d]. cbn [fst snd] in *.
    assert (bytes (255 :: l')) as Hbl by by constructor.
    destruct d; [|destruct turns as [|turns]].
    + split_and!; [done|simpl; by rewrite Hl'|]. intros ?. cbn [le_val].
      destruct (decide (le_val l = 0)) as [E|E]; [lia|]. destruct (Hp E) as [_ ->]. lia.
    + cbn [decr_rev]. split_and!; [done|simpl; by rewrite Hl'|].
      intros ?. destruct (decide (le_val l = 0)) as [E|E]; [lia|]. by destruct (Hp E) as [? _].
    + destruct (IH ltac:(done) (255 :: l') Hbl) as (? & El & _).
      split_and!; [done|rewrite El; simpl; by rewrite Hl'|].
      intros ?. destruct (decide (le_val l = 0)) as [E|E]; [lia|]. by destruct (Hp E) as [? _].
  - rewrite Z.mod_small by lia. rewrite decide_True by lia. cbn [le_val].
    split_and!; [constructor; [unfold is_byte; lia|done]|done|intros; lia].
Qed.

Lemma IncrIP_spec ip :
  bytes ip → bytes (IncrIP ip) ∧ length (IncrIP ip) = length ip ∧
  ip_val (IncrIP ip) = (ip_val ip + 1) `mod` 256 ^ Z.of_nat (length ip).
Proof.
  intros Hip. unfold IncrIP, ip_val. destruct (incr_rev_spec (rev ip)) as (Hb & Hl & Hv); [by apply Forall_rev|].
  rewrite rev_involutive, !length_rev in *. split_and!; [by apply Forall_rev|done|done].
Qed.

Lemma DecrIP_spec ip :
  bytes ip → ip ≠ [] → bytes (DecrIP ip) ∧ length (DecrIP ip) = length ip ∧
  (ip_val ip ≠ 0 → ip_val (DecrIP ip) = ip_val ip - 1).
Proof.
  intros Hip Hne. unfold DecrIP, ip_val.
  destruct (decr_rev_spec (length ip) (rev ip)) as (Hb & Hl & Hv); [by apply Forall_rev|by destruct ip|].
  rewrite rev_involutive, !length_rev in *. split_and!; [by apply Forall_rev|done|done].
Qed.

(** [IncrIP] and [DecrIP] count: the successor of an address is the next number,
    wrapping around after the last one, and the predecessor undoes it; but the
    predecessor of the first IPv4 address is the one before the last. *)
Theorem IncrIP_DecrIP (ip : IP) :
  bytes ip → ip ≠ [] →
  ip_val (IncrIP ip) = (ip_val ip + 1) `mod` 256 ^ Z.of_nat (length ip) ∧
  (ip_val ip + 1 < 256 ^ Z.of_nat (length ip) → DecrIP (IncrIP ip) = ip) ∧
  DecrIP [0; 0; 0; 0] = [255; 255; 255; 254].
Proof.
  intros Hip Hne. destruct (IncrIP_spec ip Hip) as (Hb & Hl & Hv). split_and!; [done| |done].
  intros Hlt. assert (IncrIP ip ≠ []) as Hne'. { intros E. rewrite E in Hl. by destruct ip. }
  destruct (DecrIP_spec (IncrIP ip) Hb Hne') as (Hb' & Hl' & Hv').
  pose proof (le_val_bound (rev ip) ltac:(by apply Forall_rev)) as Hbound. fold (ip_val ip) in Hbound.
  rewrite Z.mod_small in Hv by lia. apply ip_val_inj; [done..|congruence|]. rewrite Hv', Hv; lia.
Qed.

Lemma IncrIP_DecrIP_witness : DecrIP (IncrIP [10; 0; 0; 255]) = [10; 0; 0; 255].
Proof.
  apply (IncrIP_DecrIP [10; 0; 0; 255]); [|done|vm_compute; reflexivity].
  repeat constructor; unfold is_byte; lia.
Defined.

(** ** Theorems: networks *)

Lemma ip_val_cons b ip : ip_val (b :: ip) = b * 256 ^ Z.of_nat (length ip) + ip_val ip.
Proof.
  unfold ip_val. cbn [rev]. rewrite <-(length_rev ip). generalize (rev ip) as l.
  induction l as [|x l IH]; [simpl; lia|]. rewrite <-app_comm_cons. cbn [le_val length].
  rewrite IH, Nat2Z.inj_succ, Z.pow_succ_r by lia. lia.
Qed.

Lemma ip_val_bound ip : bytes ip → 0 ≤ ip_val ip < 256 ^ Z.of_nat (length ip).
Proof. intros Hip. rewrite <-length_rev. by apply le_val_bound, Forall_rev. Qed.

(** The ones of a partial byte of a mask. *)
Lemma land_partial b ones :
  is_byte b → 0 ≤ ones < 8 → Z.land b (255 - (255 ≫ ones)) = b - b `mod` 2 ^ (8 - ones).
Proof.
  intros Hb Ho. revert b Hb. apply forall_byte.
  assert (Forall (λ ones, Forall (λ b, Z.land b (255 - (255 ≫ ones)) = b - b `mod` 2 ^ (8 - ones))
    (seqZ 0 256)) (seqZ 0 8)) as Hall by (apply (bool_decide_unpack _); vm_compute; exact I).
  rewrite Forall_forall in Hall. apply Hall, elem_of_seqZ. lia.
Qed.

Lemma mask_zero ip : ip_val (zip_with Z.land ip (CIDRMask 0 (length ip))) = 0.
Proof.
  induction ip as [|b ip IH]; [done|]. cbn [length CIDRMask]. rewrite decide_False by lia.
  cbn [zip_with]. rewrite ip_val_cons, IH. change (255 - (255 ≫ 0)) with 0. rewrite Z.land_0_r. lia.
Qed.

Lemma mask_bytes ip mask : bytes ip → bytes (zip_with Z.land ip mask).
Proof.
  intros Hip. revert mask. induction Hip as [|b ip Hb _ IH]; intros [|m mask]; constructor; [|done].
  rewrite <-(land_255 b Hb), <-Z.land_assoc, (Z.land_comm 255), Z.land_assoc.
  change 255 with (Z.ones 8). rewrite Z.land_ones by lia. apply Z.mod_pos_bound. lia.
Qed.

Lemma CIDRMask_length ones len : length (CIDRMask ones len) = len.
Proof. revert ones. induction len as [|len IH]; intros ones; simpl; [done|]. case_decide; simpl; by rewrite IH. Qed.

(** Masking clears the host bits. *)
Lemma mask_val ip ones :
  bytes ip → 0 ≤ ones ≤ 8 * Z.of_nat (length ip) →
  ip_val (zip_with Z.land ip (CIDRMask ones (length ip))) =
  ip_val ip - ip_val ip `mod` 2 ^ (8 * Z.of_nat (length ip) - ones).
Proof.
  intros Hip. revert ones. induction Hip as [|b ip Hb Hip IH]; intros ones Ho.
  { cbn in *. rewrite Zmod_0_l. lia. }
  cbn [length CIDRMask] in *. rewrite Nat2Z.inj_succ in Ho. pose proof (ip_val_bound ip Hip) as Hv.
  assert (256 ^ Z.of_nat (length ip) = 2 ^ (8 * Z.of_nat (length ip))) as E256.
  { change 256 with (2 ^ 8). by rewrite <-Z.pow_mul_r by lia. }
  set (n := Z.of_nat (length ip)) in *. rewrite Nat2Z.inj_succ. fold n. case_decide as Hone.
  - cbn [zip_with]. rewrite !ip_val_cons, length_zip_with, CIDRMask_length, Nat.min_id, land_255, IH by (done || lia).
    fold n. replace (8 * Z.succ n - ones) with (8 * n - (ones - 8)) by lia.
    set (k := 8 * n - (ones - 8)).
    assert (b * 256 ^ n = (b * 2 ^ (8 * n - k)) * 2 ^ k) as ->.
    { rewrite E256. replace (8 * n) with ((8 * n - k) + k) at 1 by lia. rewrite Z.pow_add_r by lia. lia. }
    rewrite (Z.add_comm _ (ip_val ip)), Z_mod_plus_full. lia.
  - cbn [zip_with]. rewrite !ip_val_cons, mask_zero, length_zip_with, CIDRMask_length, Nat.min_id, land_partial
      by (done || lia). fold n.
    replace (8 * Z.succ n - ones) with (8 * n + (8 - ones)) by lia. rewrite Z.pow_add_r, <-E256 by lia.
    unfold is_byte in Hb. pose proof (Z.mod_pos_bound b (2 ^ (8 - ones)) ltac:(lia)) as Hm.
    assert ((b * 256 ^ n + ip_val ip) `mod` (256 ^ n * 2 ^ (8 - ones)) =
      256 ^ n * (b `mod` 2 ^ (8 - ones)) + ip_val ip) as ->; [|lia].
    rewrite (Z.div_mod b (2 ^ (8 - ones))) at 1 by lia.
    replace ((2 ^ (8 - ones) * (b / 2 ^ (8 - ones)) + b `mod` 2 ^ (8 - ones)) * 256 ^ n + ip_val ip)
      with ((256 ^ n * (b `mod` 2 ^ (8 - ones)) + ip_val ip) + (b / 2 ^ (8 - ones)) * (256 ^ n * 2 ^ (8 - ones))) by lia.
    rewrite Z_mod_plus_full. apply Z.mod_small. nia.
Qed.

(** An IPv4 network: its address has no host bits. *)
Record v4net (c : CIDR) (ones : Z) : Prop := {
  v4_bytes : bytes (networkIP c);
  v4_length : length (networkIP c) = 4%nat;
  v4_ones : 0 ≤ ones ≤ 32;
  v4_mask : net_Mask (cidr_ipnet c) = CIDRMask ones 4;
  v4_host : ip_val (networkIP c) `mod` 2 ^ (32 - ones) = 0;
}.

(** The IPv4 address of a number. *)
Definition v4 (z : Z) : IP :=
  [(z / 2 ^ 24) `mod` 256; (z / 2 ^ 16) `mod` 256; (z / 2 ^ 8) `mod` 256; z `mod` 256].

Lemma v4_spec z : 0 ≤ z < 2 ^ 32 → bytes (v4 z) ∧ ip_val (v4 z) = z.
Proof.
  intros Hz. split; [unfold v4; rewrite !Forall_cons; split_and!; [apply Z.mod_pos_bound; lia..|constructor]|].
  unfold v4, ip_val. cbn [rev app le_val]. change (2 ^ 24) with (256 * 256 * 256).
  change (2 ^ 16) with (256 * 256). change (2 ^ 8) with 256 in *. change (2 ^ 32) with (256 * 256 * 256 * 256) in Hz.
  rewrite <-!Z.div_div by lia. Z.div_mod_to_equations. lia.
Qed.

Lemma v4_of_val ip : bytes ip → length ip = 4%nat → ip = v4 (ip_val ip).
Proof.
  intros Hip Hl. pose proof (ip_val_bound ip Hip) as Hv. rewrite Hl in Hv.
  destruct (v4_spec (ip_val ip) Hv). by apply ip_val_inj.
Qed.

Lemma v4_incr z : 0 ≤ z < 2 ^ 32 → IncrIP (v4 z) = v4 ((z + 1) `mod` 2 ^ 32).
Proof.
  intros Hz. destruct (v4_spec z Hz) as [Hb Hv]. destruct (IncrIP_spec (v4 z) Hb) as (Hb' & Hl' & Hv').
  rewrite (v4_of_val (IncrIP (v4 z))) by done. by rewrite Hv', Hv.
Qed.

Lemma v4_contains c ones z :
  v4net c ones → 0 ≤ z < 2 ^ 32 →
  Contains (cidr_ipnet c) (v4 z) = true ↔
  ip_val (networkIP c) ≤ z < ip_val (networkIP c) + 2 ^ (32 - ones).
Proof.
  intros [Hb Hl Ho Hm Hh] Hz. destruct (v4_spec z Hz) as [Hbz Hvz]. unfold Contains.
  change (default (v4 z) (To4 (v4 z))) with (v4 z). fold (networkIP c). rewrite Hl, Hm.
  rewrite andb_true_iff, !bool_decide_eq_true.
  assert (ip_val (zip_with Z.land (v4 z) (CIDRMask ones 4)) = z - z `mod` 2 ^ (32 - ones)) as E1.
  { rewrite <-Hvz at 2 3. by apply (mask_val (v4 z)). }
  assert (ip_val (zip_with Z.land (networkIP c) (CIDRMask ones 4)) = ip_val (networkIP c)) as E2.
  { rewrite <-Hl at 1. rewrite (mask_val (networkIP c)) by (done || rewrite Hl; lia). rewrite Hl.
    change (8 * Z.of_nat 4) with 32. lia. }
  assert (zip_with Z.land (v4 z) (CIDRMask ones 4) = zip_with Z.land (networkIP c) (CIDRMask ones 4) ↔
    z - z `mod` 2 ^ (32 - ones) = ip_val (networkIP c)) as ->.
  { rewrite <-E1, <-E2. split; [congruence|]. apply ip_val_inj; [by apply mask_bytes..|].
    rewrite !length_zip_with, Hl. done. }
  pose proof (Z.mod_pos_bound z (2 ^ (32 - ones)) ltac:(lia)) as Hmod.
  pose proof (Z.div_mod z (2 ^ (32 - ones)) ltac:(lia)) as Hdiv.
  pose proof (Z.div_mod (ip_val (networkIP c)) (2 ^ (32 - ones)) ltac:(lia)) as Hdiv'. rewrite Hh in Hdiv'.
  set (q := z / _) in *. set (q' := _ / _) in Hdiv'. set (K := 2 ^ (32 - ones)) in *. split.
  - intros [_ E]. lia.
  - intros [H1 H2]. split; [done|]. assert (q = q') by nia. nia.
Qed.

Lemma v4net_bound c ones : v4net c ones → 0 ≤ ip_val (networkIP c) ∧ ip_val (networkIP c) + 2 ^ (32 - ones) ≤ 2 ^ 32.
Proof.
  intros [Hb Hl Ho _ Hh]. pose proof (ip_val_bound _ Hb) as Hv. rewrite Hl in Hv. change (256 ^ Z.of_nat 4) with (2 ^ 32) in Hv.
  split; [lia|]. pose proof (Z.div_mod (ip_val (networkIP c)) (2 ^ (32 - ones)) ltac:(lia)) as Hd. rewrite Hh in Hd.
  assert (2 ^ 32 = 2 ^ (32 - ones) * 2 ^ ones) as E by (rewrite <-Z.pow_add_r by lia; f_equal; lia).
  set (q := _ / _) in Hd. assert (q < 2 ^ ones) by nia. nia.
Qed.

(** The loop, from any address of the network on. *)
Lemma eachIP_loop {E A} c ones (it : A → string → result E A) n fuel z s :
  v4net c ones → 1 ≤ ones → z + Z.of_nat n = ip_val (networkIP c) + 2 ^ (32 - ones) →
  ip_val (networkIP c) ≤ z → (n ≤ fuel)%nat →
  eachIP c it fuel (v4 (z `mod` 2 ^ 32)) s = Some (foldE it s ((λ z, IP_String (v4 z)) <$> seqZ z (Z.of_nat n))).
Proof.
  intros Hc Ho. pose proof (v4net_bound c ones Hc) as [Hb1 Hb2].
  revert fuel z s. induction n as [|n IH]; intros fuel z s Hz Hle Hf.
  - assert (Contains (cidr_ipnet c) (v4 (z `mod` 2 ^ 32)) = false) as Hno.
    { apply not_true_is_false. rewrite v4_contains by (done || apply Z.mod_pos_bound; lia).
      assert (2 ^ (32 - ones) ≤ 2 ^ 31) by (apply Z.pow_le_mono_r; lia).
      assert (z < 2 ^ 32 ∨ z = 2 ^ 32) as [Hlt| ->] by lia; [rewrite Z.mod_small by lia; lia|].
      rewrite Z_mod_same_full. lia. }
    destruct fuel; cbn [eachIP]; by rewrite Hno.
  - destruct fuel as [|fuel]; [lia|]. cbn [eachIP].
    assert (0 ≤ z < 2 ^ 32) as Hz32 by lia. rewrite (Z.mod_small z) by done.
    rewrite (proj2 (v4_contains c ones z Hc Hz32)) by lia.
    rewrite seqZ_cons by lia. rewrite fmap_cons. cbn [foldE].
    destruct (it s (IP_String (v4 z))) as [s'|e]; [|done]. rewrite v4_incr by done.
    rewrite (IH fuel (z + 1) s') by lia. replace (Z.pred (Z.of_nat (S n))) with (Z.of_nat n) by lia. done.
Qed.

(** [ForEachIP] ends and visits every address: for an IPv4 network with a mask of at
    least one bit, as many turns as the network has addresses are enough, and the
    iterator sees each address once, in ascending order, until it fails; the network of
    all addresses has no end, whatever the number of turns. *)
Theorem ForEachIP_visits {E A} (c : CIDR) (ones : Z) (iterator : A → string → result E A) (s : A) :
  v4net c ones →
  (1 ≤ ones → ∀ fuel, 2 ^ (32 - ones) ≤ Z.of_nat fuel →
   ForEachIP c iterator fuel s = Some (foldE iterator s
     ((λ z, IP_String (v4 z)) <$> seqZ (ip_val (networkIP c)) (2 ^ (32 - ones))))) ∧
  (ones = 0 → (∀ s ip, ∃ s', iterator s ip = Ok s') → ∀ fuel, ForEachIP c iterator fuel s = None).
Proof.
  intros Hc. pose proof (v4net_bound c ones Hc) as [Hb1 Hb2]. pose proof (v4_ones _ _ Hc). split.
  - intros Ho fuel Hf. unfold ForEachIP.
    assert (0 < 2 ^ (32 - ones)) by (apply Z.pow_pos_nonneg; lia).
    rewrite (v4_of_val (networkIP c)) at 1 by apply Hc.
    rewrite <-(Z.mod_small (ip_val (networkIP c)) (2 ^ 32)) at 1 by lia.
    rewrite (eachIP_loop c ones iterator (Z.to_nat (2 ^ (32 - ones)))) by (done || lia).
    by rewrite Z2Nat.id by lia.
  - intros -> Hit fuel. unfold ForEachIP. rewrite (v4_of_val (networkIP c)) by apply Hc.
    assert (∀ z s, 0 ≤ z < 2 ^ 32 → eachIP c iterator fuel (v4 z) s = None) as Hloop; [|apply Hloop; lia].
    induction fuel as [|fuel IH]; intros z s' Hz; cbn [eachIP];
      rewrite (proj2 (v4_contains c 0 z Hc Hz)) by lia; [done|].
    destruct (Hit s' (IP_String (v4 z))) as [s'' ->]. rewrite v4_incr by done. apply IH, Z.mod_pos_bound. lia.
Qed.

Lemma ForEachIP_visits_witness :
  ∃ c, newCIDR "10.1.2.3/30" = Some c ∧
    ForEachIP (E := string) c (λ ips ip, Ok (ips ++ [ip])) 4 [] =
      Some (Ok ["10.1.2.0"; "10.1.2.1"; "10.1.2.2"; "10.1.2.3"]).
Proof.
  exists (mkCIDR (IPv4 10 1 2 3) (mkIPNet [10; 1; 2; 0] [255; 255; 255; 252])).
  split; [vm_compute; reflexivity|].
  refine (eq_trans (proj1 (ForEachIP_visits _ 30 (λ ips ip, Ok (ips ++ [ip])) [] _) _ 4%nat _) _).
  - split; [repeat constructor; unfold is_byte; simpl; lia|done|lia|done|vm_compute; reflexivity].
  - lia.
  - vm_compute. discriminate.
  - vm_compute. reflexivity.
Defined.

(** ** Theorems: order *)

Lemma Compare_spec a b :
  Compare a b = - Compare b a ∧ (Compare a b = 0 ↔ a = b) ∧ (Compare a b = -1 ∨ Compare a b = 0 ∨ Compare a b = 1).
Proof.
  revert b. induction a as [|x a IH]; intros [|y b]; simpl; [naive_solver lia..|].
  destruct (IH b) as (E & H0 & Hc).
  destruct (decide (x < y)), (decide (y < x)); try lia.
  - split_and!; [done| |auto]. split; [done|intros [= -> _]; lia].
  - split_and!; [done| |auto]. split; [done|intros [= -> _]; lia].
  - split_and!; [done| |done]. rewrite H0. assert (x = y) by lia. subst. naive_solver.
Qed.

Lemma Compare_trans a b c : Compare a b < 0 → Compare b c < 0 → Compare a c < 0.
Proof.
  revert b c. induction a as [|x a IH]; intros [|y b] [|z c]; simpl; try lia.
  destruct (decide (x < y)), (decide (y < x)), (decide (y < z)), (decide (z < y)),
    (decide (x < z)), (decide (z < x)); try lia. apply IH.
Qed.

Lemma asc_less_weak_order l : weak_order asc_less l.
Proof.
  assert (∀ x y, asc_less x y = true ↔ maskOnes x < maskOnes y ∨
    maskOnes x = maskOnes y ∧ Compare (networkIP x) (networkIP y) < 0) as Hless.
  { intros x y. unfold asc_less. case_decide; rewrite bool_decide_eq_true; lia. }
  split.
  - intros x _. apply not_true_is_false. rewrite Hless.
    destruct (Compare_spec (networkIP x) (networkIP x)) as (? & ? & ?). lia.
  - intros x y z _ _ _. rewrite !Hless. intros [?|[? Hxy]] [?|[? Hyz]]; [left; lia..|].
    right. split; [lia|]. by apply (Compare_trans _ (networkIP y)).
  - intros x y z _ _ _. rewrite !Hless. intros [?|[? Hxy]]; [lia|].
    destruct (decide (maskOnes x < maskOnes z)); [auto|]. destruct (decide (maskOnes z < maskOnes y)); [auto|].
    assert (maskOnes x = maskOnes z ∧ maskOnes z = maskOnes y) as [E1 E2] by lia.
    destruct (Compare_spec (networkIP x) (networkIP z)) as (Ea & Eb & Ec).
    destruct (decide (Compare (networkIP x) (networkIP z) < 0)); [left; right; lia|right; right].
    split; [done|]. destruct (decide (Compare (networkIP x) (networkIP z) = 0)) as [E|E].
    + apply Eb in E. by rewrite <-E.
    + apply (Compare_trans _ (networkIP x)); [lia|done].
Qed.

(** Sorting networks: the ascending sort orders them by mask, then by address, and
    loses none; the descending sort calls an element smaller than itself and so does
    not give the library the ordering it asks for. *)
Theorem AscSortCIDRs_sorted `{SortOrder} (cs : list CIDR) :
  AscSortCIDRs cs ≡ₚ cs ∧
  StronglySorted (λ a b, maskOnes a < maskOnes b ∨
    maskOnes a = maskOnes b ∧ Compare (networkIP a) (networkIP b) ≤ 0) (AscSortCIDRs cs) ∧
  ∀ c l, c ∈ l → ¬ weak_order desc_less l.
Proof.
  split_and!; [apply go_sort_perm| |].
  - eapply StronglySorted_mono, go_sort_sorted, asc_less_weak_order. intros a b.
    unfold asc_less. destruct (Compare_spec (networkIP a) (networkIP b)) as (? & _ & _).
    case_decide; rewrite bool_decide_eq_false; lia.
  - intros c l Hc [Hirr _ _]. specialize (Hirr c Hc). unfold desc_less in Hirr.
    rewrite decide_True in Hirr by done. apply bool_decide_eq_false in Hirr.
    destruct (Compare_spec (networkIP c) (networkIP c)) as (? & ? & ?). lia.
Qed.

(** Joining two adjacent networks that do not start at a multiple of the joined size
    succeeds, and gives a network that covers the first and not the second. *)
Theorem SuperNetting_misaligned :
  ∃ c, SuperNetting (H := insertion_order) ["10.0.1.0/24"; "10.0.2.0/24"] = Ret (Ok c) ∧
    CIDR_String c = "10.0.1.0/23" ∧ CIDR_Contains c "10.0.1.7" = true ∧
    CIDR_Contains c "10.0.0.7" = true ∧ CIDR_Contains c "10.0.2.7" = false.
Proof. eexists. split; [vm_compute; reflexivity|]. by vm_compute. Qed.
