(* ===== verification/TrafficPolicy.v ===== *)
(** * pkg/trafficpolicy: the internal representation of traffic policies

    The catalog turns the resources of the cluster into these values and the
    proxy control plane turns them into sidecar configuration.  The file models
    the types of types.go and egress_types.go and every function of
    trafficpolicy.go.  [MergeRules] and [MergeInboundPolicies] update objects
    through shared pointers: they are modelled on an explicit store, and
    [MergeRules] also as the function on values that it implements when no two
    pointers alias. *)

From S2P Require Import Prelude GoStrings Identity Service PolicyApi.

(** ** Data *)

Inductive PathMatchType := PathMatchRegex | PathMatchExact | PathMatchPrefix.

(** [Methods] is compared with [reflect.DeepEqual], which tells the nil slice
    and the nil map from empty ones. *)
Record HTTPRouteMatch := mkHTTPRouteMatch {
  hrm_Path : string;
  hrm_PathMatchType : PathMatchType;
  hrm_Methods : slice string;
  hrm_Headers : option (gmap string string);
}.

Record HTTPRouteMatchWithWeightedClusters := mkHTTPRouteMatchWithWeightedClusters {
  hrwc_UpstreamClusters : list WeightedCluster;
  hrwc_RouteMatches : list HTTPRouteMatch;
  hrwc_HasSplitMatches : bool;
}.

Record TCPRouteMatch := mkTCPRouteMatch {
  trm_Ports : list Z;
}.

Record RouteWeightedClusters := mkRouteWeightedClusters {
  rwc_HTTPRouteMatch : HTTPRouteMatch;
  rwc_WeightedClusters : gset WeightedCluster;
  rwc_RetryPolicy : option RetryPolicySpec;
  rwc_RateLimit : option HTTPPerRouteRateLimitSpec;
}.

Record Rule := mkRule {
  rule_Route : RouteWeightedClusters;
  rule_AllowedPrincipals : gset string;
}.

Record InboundTrafficPolicy := mkInboundTrafficPolicy {
  itp_Name : string;
  itp_Hostnames : list string;
  itp_Rules : list Rule;
  itp_RateLimit : option RateLimitSpec;
}.

Record OutboundTrafficPolicy := mkOutboundTrafficPolicy {
  otp_Name : string;
  otp_Hostnames : list string;
  otp_Routes : list RouteWeightedClusters;
}.

Record TrafficTargetWithRoutes := mkTrafficTargetWithRoutes {
  ttr_Name : string;
  ttr_Destination : ServiceIdentity;
  ttr_Sources : list ServiceIdentity;
  ttr_TCPRouteMatches : list TCPRouteMatch;
}.

Record MeshClusterConfig := mkMeshClusterConfig {
  mcc_Name : string;
  mcc_Service : MeshService;
  mcc_Address : string;
  mcc_Port : Z;
  mcc_EnableSidecarActiveHealthChecks : bool;
  mcc_UpstreamTrafficSetting : option UpstreamTrafficSetting;
}.

Record TrafficMatch := mkTrafficMatch {
  tm_DestinationPort : Z;
  tm_DestinationProtocol : string;
  tm_DestinationIPRanges : list string;
  tm_ServerNames : list string;
  tm_Cluster : string;
  tm_Name : string;
  tm_WeightedClusters : list WeightedCluster;
  tm_RateLimit : option RateLimitSpec;
  tm_EgressGateWay : option string;
}.

Record OutboundMeshTrafficPolicy := mkOutboundMeshTrafficPolicy {
  omtp_TrafficMatches : list TrafficMatch;
  omtp_HTTPRouteConfigsPerPort : gmap Z (list OutboundTrafficPolicy);
  omtp_ClustersConfigs : list MeshClusterConfig;
  omtp_ServicesResolvableSet : gmap string (list string);
}.

Record InboundMeshTrafficPolicy := mkInboundMeshTrafficPolicy {
  imtp_TrafficMatches : list TrafficMatch;
  imtp_HTTPRouteConfigsPerPort : gmap Z (list InboundTrafficPolicy);
  imtp_ClustersConfigs : list MeshClusterConfig;
}.

Record EgressClusterConfig := mkEgressClusterConfig {
  ecc_Name : string;
  ecc_Host : string;
  ecc_Port : Z;
  ecc_UpstreamTrafficSetting : option UpstreamTrafficSetting;
  ecc_SourceMTLS : option EgressSourceMTLSSpec;
}.

Record EgressHTTPRoutingRule := mkEgressHTTPRoutingRule {
  ehr_Route : RouteWeightedClusters;
  ehr_AllowedDestinationIPRanges : list string;
}.

Record EgressHTTPRouteConfig := mkEgressHTTPRouteConfig {
  ehc_Name : string;
  ehc_Hostnames : list string;
  ehc_RoutingRules : list EgressHTTPRoutingRule;
}.

Record EgressTrafficPolicy := mkEgressTrafficPolicy {
  etp_TrafficMatches : list TrafficMatch;
  etp_HTTPRouteConfigsPerPort : gmap Z (list EgressHTTPRouteConfig);
  etp_ClustersConfigs : list EgressClusterConfig;
}.

(** [reflect.DeepEqual] on routes. *)
#[global] Instance PathMatchType_eq_dec : EqDecision PathMatchType.
Proof. solve_decision. Defined.
#[global] Instance HTTPRouteMatch_eq_dec : EqDecision HTTPRouteMatch.
Proof. solve_decision. Defined.
#[global] Instance RouteWeightedClusters_eq_dec : EqDecision RouteWeightedClusters.
Proof. solve_decision. Defined.

(** ** Constants *)

Definition RegexMatchAll : string := ".*".
Definition WildcardHTTPMethod : string := "*".
Definition ClusterWeightAcceptAll : Z := 100.
Definition ClusterWeightFailOver : Z := 0.

Definition WildCardRouteMatch : HTTPRouteMatch := {|
  hrm_Path := RegexMatchAll;
  hrm_PathMatchType := PathMatchRegex;
  hrm_Methods := Some [WildcardHTTPMethod];
  hrm_Headers := None;
|}.

(** ** Constructors *)

(** The rate limit of the first HTTP route setting with the path of the match. *)
Fixpoint perRouteRateLimit (path : string) (routes : list HTTPRouteSpec) :
    option HTTPPerRouteRateLimitSpec :=
  match routes with
  | [] => None
  | r :: routes =>
    if decide (hrs_Path r = path) then hrs_RateLimit r else perRouteRateLimit path routes
  end.

Definition NewRouteWeightedCluster (route : HTTPRouteMatch)
    (weightedClusters : list WeightedCluster)
    (upstreamTrafficSetting : option UpstreamTrafficSetting) : RouteWeightedClusters := {|
  rwc_HTTPRouteMatch := route;
  rwc_WeightedClusters := list_to_set weightedClusters;
  rwc_RetryPolicy := None;
  rwc_RateLimit :=
    match upstreamTrafficSetting with
    | None => None
    | Some uts => perRouteRateLimit (hrm_Path route) (utss_HTTPRoutes (uts_Spec uts))
    end;
|}.

Definition NewInboundTrafficPolicy (name : string) (hostnames : list string)
    (upstreamTrafficSetting : option UpstreamTrafficSetting) : InboundTrafficPolicy := {|
  itp_Name := name;
  itp_Hostnames := hostnames;
  itp_Rules := [];
  itp_RateLimit := uts ← upstreamTrafficSetting; utss_RateLimit (uts_Spec uts);
|}.

Definition NewOutboundTrafficPolicy (name : string) (hostnames : list string) :
    OutboundTrafficPolicy := {|
  otp_Name := name;
  otp_Hostnames := hostnames;
  otp_Routes := [];
|}.

Definition GetEgressTrafficMatchName (port : Z) (protocol : string) : string :=
  "egress-" +:+ to_lower protocol +:+ "." +:+ itoa port.

(** ** Weights *)

Section order.
Context `{RangeOrder}.

(** The loop sums in the machine's [int]. *)
Definition TotalClustersWeight (rwc : RouteWeightedClusters) : Z :=
  foldl (λ totalWeight c, int64 (totalWeight + wc_Weight c)) 0%Z
    (range_set (rwc_WeightedClusters rwc)).

(** ** Hostnames *)

(** [sort.Strings] of the union, when one set contains the other. *)
Definition slicesUnionIfSubset (first second : list string) : list string :=
  let firstSet : gset string := list_to_set first in
  let secondSet : gset string := list_to_set second in
  if bool_decide (firstSet ⊆ secondSet) || bool_decide (secondSet ⊆ firstSet)
  then merge_sort String.le (range_set (firstSet ∪ secondSet))
  else [].
End order.

(** ** Outbound routes *)

(** The error of [AddRoute]: a route with the same match and other clusters. *)
Inductive AddRouteError := RouteExists (existing : RouteWeightedClusters) (policy : string).

(** The loop over [out.Routes]: the routes with the retry policy of the first
    match replaced, an error, or [None] when no route has the match. *)
Fixpoint updateRoute (name : string) (httpRouteMatch : HTTPRouteMatch)
    (retryPolicy : option RetryPolicySpec) (wc : gset WeightedCluster)
    (routes : list RouteWeightedClusters) :
    option (result AddRouteError (list RouteWeightedClusters)) :=
  match routes with
  | [] => None
  | existing :: routes =>
    if decide (rwc_HTTPRouteMatch existing = httpRouteMatch) then
      if decide (rwc_WeightedClusters existing = wc) then
        Some (Ok ({|
          rwc_HTTPRouteMatch := rwc_HTTPRouteMatch existing;
          rwc_WeightedClusters := rwc_WeightedClusters existing;
          rwc_RetryPolicy := retryPolicy;
          rwc_RateLimit := rwc_RateLimit existing;
        |} :: routes))
      else Some (Err (RouteExists existing name))
    else
      r ← updateRoute name httpRouteMatch retryPolicy wc routes;
      Some match r with Ok routes => Ok (existing :: routes) | Err e => Err e end
  end.

(** Returns the receiver after the call, and the error. *)
Definition AddRoute (out : OutboundTrafficPolicy) (httpRouteMatch : HTTPRouteMatch)
    (retryPolicy : option RetryPolicySpec) (weightedClusters : list WeightedCluster) :
    OutboundTrafficPolicy * option AddRouteError :=
  let wc : gset WeightedCluster := list_to_set weightedClusters in
  let with_routes routes := {|
    otp_Name := otp_Name out; otp_Hostnames := otp_Hostnames out; otp_Routes := routes |} in
  match updateRoute (otp_Name out) httpRouteMatch retryPolicy wc (otp_Routes out) with
  | Some (Ok routes) => (with_routes routes, None)
  | Some (Err e) => (out, Some e)
  | None =>
    (with_routes (otp_Routes out ++ [{|
       rwc_HTTPRouteMatch := httpRouteMatch;
       rwc_WeightedClusters := wc;
       rwc_RetryPolicy := retryPolicy;
       rwc_RateLimit := None;
     |}]), None)
  end.

(** ** Merging rules: on values *)

Definition rule_union (o : Rule) (principals : gset string) : Rule := {|
  rule_Route := rule_Route o;
  rule_AllowedPrincipals := rule_AllowedPrincipals o ∪ principals;
|}.

(** One turn of the outer loop of [MergeRules]. *)
Fixpoint merge_rule (originalRules : list Rule) (latest : Rule) : list Rule :=
  match originalRules with
  | [] => [latest]
  | original :: rest =>
    if decide (rule_Route latest = rule_Route original)
    then rule_union original (rule_AllowedPrincipals latest) :: rest
    else original :: merge_rule rest latest
  end.

Definition MergeRules (originalRules latestRules : list Rule) : list Rule :=
  foldl merge_rule originalRules latestRules.

(** [mergeRoutesWeightedClusters]: every original route with the match is
    updated ([continue], not [break]). *)
Definition merge_route (originalRoutes : list RouteWeightedClusters)
    (latest : RouteWeightedClusters) : list RouteWeightedClusters :=
  let same r := rwc_HTTPRouteMatch r = rwc_HTTPRouteMatch latest in
  if decide (Exists same originalRoutes) then
    (λ original,
      if decide (same original) then
        if decide (rwc_WeightedClusters original = rwc_WeightedClusters latest) then original
        else {|
          rwc_HTTPRouteMatch := rwc_HTTPRouteMatch original;
          rwc_WeightedClusters := rwc_WeightedClusters original ∪ rwc_WeightedClusters latest;
          rwc_RetryPolicy := rwc_RetryPolicy original;
          rwc_RateLimit := rwc_RateLimit original;
        |}
      else original) <$> originalRoutes
  else originalRoutes ++ [latest].

Definition mergeRoutesWeightedClusters
    (originalRoutes latestRoutes : list RouteWeightedClusters) : list RouteWeightedClusters :=
  foldl merge_route originalRoutes latestRoutes.

(** ** Merging rules and policies: on the store

    [Rules []*Rule] and [[]*InboundTrafficPolicy] are slices of pointers, and
    both merges assign through them.  [loc] is a pointer; a lookup that fails
    is the dereference of a pointer to no object. *)

Abbreviation loc := positive.

Record PolicyObj := mkPolicyObj {
  po_Name : string;
  po_Hostnames : list string;
  po_Rules : list loc;
  po_RateLimit : option RateLimitSpec;
}.

Record Store := mkStore {
  st_rules : gmap loc Rule;
  st_policies : gmap loc PolicyObj;
}.

Definition st_set_rule (p : loc) (r : Rule) (st : Store) : Store :=
  {| st_rules := <[p := r]> (st_rules st); st_policies := st_policies st |}.
Definition st_set_policy (p : loc) (o : PolicyObj) (st : Store) : Store :=
  {| st_rules := st_rules st; st_policies := <[p := o]> (st_policies st) |}.

(** The inner loop of [MergeRules]: whether the route was found, and the store. *)
Fixpoint merge_rule_st (st : Store) (originals : list loc) (latest : Rule) :
    option (Store * bool) :=
  match originals with
  | [] => Some (st, false)
  | p :: rest =>
    original ← st_rules st !! p;
    if decide (rule_Route latest = rule_Route original)
    then Some (st_set_rule p (rule_union original (rule_AllowedPrincipals latest)) st, true)
    else merge_rule_st st rest latest
  end.

Fixpoint MergeRules_st (st : Store) (originalRules latestRules : list loc) :
    option (Store * list loc) :=
  match latestRules with
  | [] => Some (st, originalRules)
  | l :: latestRules =>
    latest ← st_rules st !! l;
    '(st, foundRoute) ← merge_rule_st st originalRules latest;
    MergeRules_st st (if foundRoute : bool then originalRules else originalRules ++ [l])
      latestRules
  end.

Section merge_policies.
Context `{RangeOrder}.

(** The inner loop of [MergeInboundPolicies] over [original]. *)
Fixpoint merge_policy_st (st : Store) (original : list loc) (l : loc) (found : bool) :
    option (Store * bool) :=
  match original with
  | [] => Some (st, found)
  | p :: rest =>
    or ← st_policies st !! p;
    lp ← st_policies st !! l;
    match slicesUnionIfSubset (po_Hostnames or) (po_Hostnames lp) with
    | [] => merge_policy_st st rest l found
    | hostsUnion =>
      let st := st_set_policy p {|
        po_Name := po_Name or; po_Hostnames := hostsUnion;
        po_Rules := po_Rules or; po_RateLimit := po_RateLimit or |} st in
      (** [l] may be [or] itself: its rules are read after the assignment *)
      lp ← st_policies st !! l;
      '(st, rules) ← MergeRules_st st (po_Rules or) (po_Rules lp);
      let st := st_set_policy p {|
        po_Name := po_Name or; po_Hostnames := hostsUnion;
        po_Rules := rules; po_RateLimit := po_RateLimit or |} st in
      merge_policy_st st rest l true
    end
  end.

Fixpoint MergeInboundPolicies (st : Store) (original latest : list loc) :
    option (Store * list loc) :=
  match latest with
  | [] => Some (st, original)
  | l :: latest =>
    '(st, foundHostnames) ← merge_policy_st st original l false;
    MergeInboundPolicies st (if foundHostnames : bool then original else original ++ [l]) latest
  end.
End merge_policies.

(** ** Deduplication

    [hashstructure.Hash] is third-party code: [hash] is a parameter that gives
    a [uint64] or an error. *)
Section dedup.
Context `{RangeOrder} {T E : Type} (hash : T → result E Z).

(** [matchesMap[hash] = match] for every element: the last one with a hash stays. *)
Fixpoint dedup_map (items : list T) (m : gmap Z T) : result E (gmap Z T) :=
  match items with
  | [] => Ok m
  | x :: items =>
    match hash x with
    | Err e => Err e
    | Ok h => dedup_map items (<[h := x]> m)
    end
  end.

Definition dedup (items : list T) : result E (list T) :=
  match dedup_map items ∅ with
  | Err e => Err e
  | Ok m => Ok (range_map m).*2
  end.
End dedup.

Definition DeduplicateTrafficMatches `{RangeOrder} {E} (hash : TrafficMatch → result E Z)
    (matches : list TrafficMatch) : result E (list TrafficMatch) := dedup hash matches.

Definition DeduplicateClusterConfigs `{RangeOrder} {E} (hash : EgressClusterConfig → result E Z)
    (configs : list EgressClusterConfig) : result E (list EgressClusterConfig) :=
  dedup hash configs.

(** * Theorems *)

(** ** Weights and hostnames *)

Section order_theorems.
Context `{RangeOrder}.

(** Two lists of strings with the same elements sort to the same list. *)
Lemma sort_strings_perm (l k : list string) :
  l ≡ₚ k → merge_sort String.le l = merge_sort String.le k.
Proof.
  intros Hlk. eapply (StronglySorted_unique String.le).
  - apply StronglySorted_merge_sort; apply _.
  - apply StronglySorted_merge_sort; apply _.
  - by rewrite !merge_sort_Permutation.
Qed.

Lemma elem_of_slicesUnionIfSubset first second h :
  h ∈ slicesUnionIfSubset first second ↔
  (first ⊆ second ∨ second ⊆ first) ∧ (h ∈ first ∨ h ∈ second).
Proof.
  unfold slicesUnionIfSubset. destruct (_ || _) eqn:Hsub.
  - rewrite merge_sort_Permutation, elem_of_range_set.
    apply orb_true_iff in Hsub. rewrite !bool_decide_eq_true in Hsub. set_solver.
  - apply orb_false_iff in Hsub. rewrite !bool_decide_eq_false in Hsub. set_solver.
Qed.

(** [TotalClustersWeight] is the sum of the weights, wrapped to the width of
    [int] once, so it does not depend on the order in which the set is visited. *)
Theorem TotalClustersWeight_sum (rwc : RouteWeightedClusters) :
  TotalClustersWeight rwc =
  int64 (sumZ (wc_Weight <$> elements (rwc_WeightedClusters rwc))).
Proof.
  unfold TotalClustersWeight. rewrite <-(range_set_perm (rwc_WeightedClusters rwc)).
  apply (foldl_int64_sum wc_Weight _ 0).
Qed.

(** [slicesUnionIfSubset] returns the sorted duplicate-free union of its
    arguments when one contains the other and the nil slice otherwise; the
    result is determined by the two sets of hostnames, not by the iteration
    order of the union. *)
Theorem slicesUnionIfSubset_spec (first second : list string) :
  let union := slicesUnionIfSubset first second in
  StronglySorted String.le union ∧ NoDup union ∧
  (∀ h, h ∈ union ↔ (first ⊆ second ∨ second ⊆ first) ∧ (h ∈ first ∨ h ∈ second)) ∧
  union = @slicesUnionIfSubset stdpp_order first second.
Proof.
  intros union. split_and!; subst union.
  - unfold slicesUnionIfSubset.
    destruct (_ || _); [apply StronglySorted_merge_sort; apply _|constructor].
  - unfold slicesUnionIfSubset. destruct (_ || _); [|constructor].
    rewrite merge_sort_Permutation. apply NoDup_range_set.
  - apply elem_of_slicesUnionIfSubset.
  - unfold slicesUnionIfSubset. destruct (_ || _); [|done].
    apply sort_strings_perm, range_set_perm.
Qed.
End order_theorems.

(** ** Outbound routes *)

Section add_route.
Context (name : string) (m : HTTPRouteMatch) (retry : option RetryPolicySpec)
  (wc : gset WeightedCluster).

(** The three results of the search: no route with the match; the first one has
    the same clusters, and only its retry policy changes; it has others. *)
Lemma updateRoute_None routes :
  updateRoute name m retry wc routes = None ↔ m ∉ (rwc_HTTPRouteMatch <$> routes).
Proof.
  induction routes as [|r routes IH]; csimpl; [set_solver|].
  rewrite not_elem_of_cons, <-IH. case_decide; [case_decide; naive_solver|].
  destruct (updateRoute name m retry wc routes) as [[]|]; naive_solver.
Qed.

Lemma updateRoute_Ok routes routes' :
  updateRoute name m retry wc routes = Some (Ok routes') →
  ∃ before r after, routes = before ++ r :: after ∧
    rwc_HTTPRouteMatch r = m ∧ rwc_WeightedClusters r = wc ∧
    (m ∉ rwc_HTTPRouteMatch <$> before) ∧
    routes' = before ++ mkRouteWeightedClusters m wc retry (rwc_RateLimit r) :: after.
Proof.
  revert routes'. induction routes as [|r routes IH]; intros routes' Hr; csimpl in *; [done|].
  case_decide as Hm; [case_decide as Hwc|].
  - simplify_eq. exists [], r, routes. split_and!; try done. set_solver.
  - naive_solver.
  - destruct (updateRoute name m retry wc routes) as [[k|]|]; simplify_eq/=.
    destruct (IH k eq_refl) as (before & r' & after & -> & ? & ? & ? & ->).
    exists (r :: before), r', after. split_and!; try done. set_solver.
Qed.

Lemma updateRoute_Err routes e :
  updateRoute name m retry wc routes = Some (Err e) →
  ∃ r, r ∈ routes ∧ rwc_HTTPRouteMatch r = m ∧ rwc_WeightedClusters r ≠ wc ∧
       e = RouteExists r name.
Proof.
  induction routes as [|r routes IH]; intros He; csimpl in *; [done|].
  case_decide as Hm; [case_decide as Hwc|].
  - naive_solver.
  - simplify_eq. exists r. set_solver.
  - destruct (updateRoute name m retry wc routes) as [[k|e']|]; simplify_eq/=.
    destruct (IH eq_refl) as (r' & ? & ?). exists r'. set_solver.
Qed.
End add_route.

(** The routes of an outbound policy have distinct matches. *)
Definition routes_unique (out : OutboundTrafficPolicy) : Prop :=
  NoDup (rwc_HTTPRouteMatch <$> otp_Routes out).

(** The clusters a policy sends a match to. *)
Definition routes_to (out : OutboundTrafficPolicy) (m : HTTPRouteMatch)
    (wc : gset WeightedCluster) : Prop :=
  ∃ r, r ∈ otp_Routes out ∧ rwc_HTTPRouteMatch r = m ∧ rwc_WeightedClusters r = wc.

Lemma AddRoute_unique out m retry wcs :
  routes_unique out → routes_unique (AddRoute out m retry wcs).1.
Proof.
  unfold routes_unique, AddRoute. intros Hu.
  destruct (updateRoute _ _ _ _ _) as [[k|e]|] eqn:Hr; simpl; [| done |].
  - apply updateRoute_Ok in Hr as (before & r & after & Hout & ? & ? & ? & ->).
    rewrite Hout in Hu. rewrite fmap_app, fmap_cons in *. by simplify_eq/=.
  - apply updateRoute_None in Hr. rewrite fmap_app, NoDup_app. split_and!; [done| |].
    + intros x Hx ->%list_elem_of_singleton. done.
    + apply NoDup_singleton.
Qed.

Lemma AddRoute_routes_to out m retry wcs m' wc :
  (AddRoute out m retry wcs).2 = None →
  routes_to (AddRoute out m retry wcs).1 m' wc ↔
  routes_to out m' wc ∨ (m' = m ∧ wc = list_to_set wcs).
Proof.
  unfold routes_to, AddRoute.
  destruct (updateRoute _ _ _ _ _) as [[k|e]|] eqn:Hr; simpl; [|done|]; intros _.
  - apply updateRoute_Ok in Hr as (before & r & after & -> & ? & ? & _ & ->).
    repeat setoid_rewrite elem_of_app. repeat setoid_rewrite elem_of_cons. naive_solver.
  - setoid_rewrite elem_of_app. setoid_rewrite list_elem_of_singleton. naive_solver.
Qed.

Lemma AddRoute_error out m retry wcs e :
  (AddRoute out m retry wcs).2 = Some e →
  (AddRoute out m retry wcs).1 = out ∧
  ∃ wc, routes_to out m wc ∧ wc ≠ list_to_set wcs.
Proof.
  unfold AddRoute.
  destruct (updateRoute _ _ _ _ _) as [[k|e']|] eqn:Hr; simpl; [done| |done].
  apply updateRoute_Err in Hr as (r & ? & ? & ? & ?). split; [done|].
  exists (rwc_WeightedClusters r). split; [by exists r|done].
Qed.

(** [AddRoute] keeps the matches of a policy distinct.  It fails exactly when
    the policy already sends the match to other clusters, and then changes
    nothing; otherwise the policy sends to the same places as before, and the
    new match to the given clusters. *)
Theorem AddRoute_spec (out : OutboundTrafficPolicy) (m : HTTPRouteMatch)
    (retry : option RetryPolicySpec) (wcs : list WeightedCluster) :
  routes_unique out →
  let res := AddRoute out m retry wcs in
  routes_unique res.1 ∧
  (∀ e, res.2 = Some e → res.1 = out) ∧
  ((∃ e, res.2 = Some e) ↔ ∃ wc, routes_to out m wc ∧ wc ≠ list_to_set wcs) ∧
  (res.2 = None → ∀ m' wc, routes_to res.1 m' wc ↔
     routes_to out m' wc ∨ (m' = m ∧ wc = list_to_set wcs)).
Proof.
  intros Hu res. split_and!.
  - by apply AddRoute_unique.
  - intros e He. by apply (AddRoute_error out m retry wcs e).
  - split; [intros [e He]; by apply (AddRoute_error out m retry wcs e)|].
    intros (wc & Hwc & Hne). destruct (res.2) as [e|] eqn:He; [by exists e|].
    destruct (AddRoute_routes_to out m retry wcs m wc He) as [_ Hto].
    pose proof (AddRoute_routes_to out m retry wcs m (list_to_set wcs) He) as Hto'.
    assert (routes_to res.1 m wc) as (r1 & Hr1 & Hm1 & Hw1) by (apply Hto; by left).
    assert (routes_to res.1 m (list_to_set wcs)) as (r2 & Hr2 & Hm2 & Hw2)
      by (apply Hto'; by right).
    apply (AddRoute_unique out m retry wcs) in Hu.
    assert (r1 = r2) as -> by (eapply (NoDup_fmap_key rwc_HTTPRouteMatch); eauto; congruence).
    congruence.
  - intros He m' wc. by apply AddRoute_routes_to.
Qed.

(** ** Merging rules *)

(** Some rule of the list lets the principal use the route. *)
Definition permits (rules : list Rule) (route : RouteWeightedClusters) (p : string) : Prop :=
  ∃ r, r ∈ rules ∧ rule_Route r = route ∧ p ∈ rule_AllowedPrincipals r.

Lemma permits_nil route p : ¬ permits [] route p.
Proof. intros (r & ? & _). set_solver. Qed.

Lemma permits_cons r rules route p :
  permits (r :: rules) route p ↔
  (rule_Route r = route ∧ p ∈ rule_AllowedPrincipals r) ∨ permits rules route p.
Proof. unfold permits. setoid_rewrite elem_of_cons. naive_solver. Qed.

Lemma merge_rule_permits rules latest route p :
  permits (merge_rule rules latest) route p ↔
  permits rules route p ∨ (rule_Route latest = route ∧ p ∈ rule_AllowedPrincipals latest).
Proof.
  induction rules as [|o rules IH]; simpl.
  - rewrite permits_cons. pose proof (permits_nil route p). tauto.
  - case_decide as Hr; rewrite !permits_cons; simpl; [|rewrite IH; tauto].
    rewrite elem_of_union. naive_solver.
Qed.

(** The routes of the result: a latest rule adds its route when it is new. *)
Lemma merge_rule_routes rules latest :
  rule_Route <$> merge_rule rules latest =
  (rule_Route <$> rules) ++
    if decide (rule_Route latest ∈ rule_Route <$> rules) then [] else [rule_Route latest].
Proof.
  induction rules as [|o rules IH]; [by rewrite decide_False by set_solver|].
  rewrite fmap_cons. cbn [merge_rule].
  destruct (decide (rule_Route latest = rule_Route o)); rewrite fmap_cons.
  - rewrite decide_True by set_solver. by rewrite app_nil_r.
  - rewrite IH. simpl. f_equal. f_equal. apply decide_ext. set_solver.
Qed.

Lemma merge_rule_NoDup rules latest :
  NoDup (rule_Route <$> rules) → NoDup (rule_Route <$> merge_rule rules latest).
Proof.
  intros Hnd. rewrite merge_rule_routes. case_decide as Hin; [by rewrite app_nil_r|].
  apply NoDup_app. split_and!; [done| |apply NoDup_singleton].
  by intros r Hr ->%list_elem_of_singleton.
Qed.

Lemma MergeRules_permits originals latests route p :
  permits (MergeRules originals latests) route p ↔
  permits originals route p ∨ permits latests route p.
Proof.
  unfold MergeRules. revert originals.
  induction latests as [|l latests IH]; intros originals; simpl.
  - pose proof (permits_nil route p). tauto.
  - rewrite IH, merge_rule_permits, permits_cons. tauto.
Qed.

Lemma MergeRules_routes originals latests route :
  (route ∈ rule_Route <$> MergeRules originals latests) ↔
  (route ∈ rule_Route <$> originals) ∨ (route ∈ rule_Route <$> latests).
Proof.
  unfold MergeRules. revert originals.
  induction latests as [|l latests IH]; intros originals; csimpl; [set_solver|].
  rewrite IH, merge_rule_routes, elem_of_app, elem_of_cons. case_decide as Hin; [|set_solver].
  split; [set_solver|]. intros [?|[->|?]]; auto.
Qed.

Lemma MergeRules_NoDup originals latests :
  NoDup (rule_Route <$> originals) → NoDup (rule_Route <$> MergeRules originals latests).
Proof.
  unfold MergeRules. revert originals. induction latests; simpl; auto using merge_rule_NoDup.
Qed.

Lemma MergeRules_prefix originals latests :
  (rule_Route <$> originals) `prefix_of` (rule_Route <$> MergeRules originals latests).
Proof.
  unfold MergeRules. revert originals.
  induction latests as [|l latests IH]; intros originals; simpl; [done|].
  etrans; [|apply IH]. rewrite merge_rule_routes. by eexists.
Qed.

(** [MergeRules] allows on each route exactly the principals that one of the
    two lists allows there: it neither drops nor adds a permission.  The routes
    of the first list keep their order, and a list with one rule per route is
    merged into a list with one rule per route. *)
Theorem MergeRules_spec (originals latests : list Rule) :
  NoDup (rule_Route <$> originals) →
  let merged := MergeRules originals latests in
  NoDup (rule_Route <$> merged) ∧
  (rule_Route <$> originals) `prefix_of` (rule_Route <$> merged) ∧
  ∀ route p, permits merged route p ↔ permits originals route p ∨ permits latests route p.
Proof.
  intros ? merged. split_and!; [by apply MergeRules_NoDup|apply MergeRules_prefix|].
  apply MergeRules_permits.
Qed.

(** ** The store implements the merge of values *)

(** The pointers hold the rules. *)
Definition reads (st : Store) (ps : list loc) (rules : list Rule) : Prop :=
  Forall2 (λ p r, st_rules st !! p = Some r) ps rules.

(** The store changes no rule but those the pointers hold, and no policy. *)
Definition frame (ps : list loc) (st st' : Store) : Prop :=
  st_policies st' = st_policies st ∧ ∀ p, p ∉ ps → st_rules st' !! p = st_rules st !! p.

Lemma frame_refl ps st : frame ps st st.
Proof. done. Qed.

Lemma frame_trans ps st1 st2 st3 : frame ps st1 st2 → frame ps st2 st3 → frame ps st1 st3.
Proof. intros [H1 H2] [H3 H4]. split; [congruence|]. intros p Hp. by rewrite H4, H2. Qed.

Lemma frame_mono ps qs st st' : ps ⊆ qs → frame ps st st' → frame qs st st'.
Proof. intros Hsub [H1 H2]. split; [done|]. intros p Hp. apply H2. set_solver. Qed.

Lemma reads_agree qs st st' rules :
  (∀ q, q ∈ qs → st_rules st' !! q = st_rules st !! q) →
  reads st qs rules → reads st' qs rules.
Proof.
  intros Hagree Hr. unfold reads in *.
  induction Hr as [|q r qs rules Hq Hr IH]; constructor.
  - rewrite Hagree; [done|]. by left.
  - apply IH. intros q' ?. apply Hagree. by right.
Qed.

Lemma reads_frame ps qs st st' rules :
  frame ps st st' → (∀ q, q ∈ qs → q ∉ ps) → reads st qs rules → reads st' qs rules.
Proof. intros [_ Hf] Hdisj. apply reads_agree. auto. Qed.

(** The inner loop: the originals hold the merge of the latest rule, which is
    still to be appended when no original has its route. *)
Lemma merge_rule_st_refines st ps rules latest :
  NoDup ps → reads st ps rules →
  ∃ st' found, merge_rule_st st ps latest = Some (st', found) ∧ frame ps st st' ∧
    if found : bool then reads st' ps (merge_rule rules latest)
    else st' = st ∧ merge_rule rules latest = rules ++ [latest].
Proof.
  intros Hnd Hr. induction Hr as [|p r ps rules Hp Hr IH].
  - by exists st, false.
  - apply NoDup_cons in Hnd as [Hnin Hnd]. simpl. rewrite Hp. simpl. case_decide as Hroute.
    + set (r' := rule_union r _). exists (st_set_rule p r' st), true.
      assert (frame [p] st (st_set_rule p r' st)) as Hf.
      { split; [done|]. intros q Hq. simpl. rewrite lookup_insert_ne; [done|set_solver]. }
      split_and!; [done|eapply frame_mono; [|done]; set_solver|].
      constructor; [simpl; by rewrite lookup_insert_eq|].
      eapply reads_frame; [done| |done]. set_solver.
    + destruct (IH Hnd) as (st' & found & -> & Hf & Hfound). exists st', found.
      split_and!; [done|eapply frame_mono; [|done]; set_solver|].
      destruct found; [|by destruct Hfound as [-> ->]]. constructor; [|done].
      destruct Hf as [_ Hf]. by rewrite Hf.
Qed.

Lemma reads_app st ps qs r1 r2 :
  reads st ps r1 → reads st qs r2 → reads st (ps ++ qs) (r1 ++ r2).
Proof. apply Forall2_app. Qed.

Lemma MergeRules_st_ok st originals latests os ls :
  NoDup (originals ++ latests) → reads st originals os → reads st latests ls →
  ∃ st' res, MergeRules_st st originals latests = Some (st', res) ∧
    reads st' res (MergeRules os ls) ∧ res ⊆ originals ++ latests ∧ NoDup res ∧
    frame (originals ++ latests) st st'.
Proof.
  intros Hnd Hos Hls. revert st originals os Hnd Hos Hls. revert ls.
  induction latests as [|l latests IH]; intros ls st originals os Hnd Hos Hls.
  - apply Forall2_nil_inv_l in Hls as ->. rewrite app_nil_r in *. exists st, originals.
    by split_and!.
  - apply Forall2_cons_inv_l in Hls as (latest & ls' & Hl & Hls & ->).
    pose proof Hnd as Hnd'. rewrite NoDup_app in Hnd. destruct Hnd as (Hndo & Hdisj & Hndl).
    apply NoDup_cons in Hndl as [Hl_nin Hndl].
    destruct (merge_rule_st_refines st originals os latest) as
      (st1 & found & Hm & Hf & Hfound); [done..|].
    simpl. rewrite Hl. simpl. rewrite Hm. simpl. destruct found.
    + assert (∀ q, q ∈ latests → q ∉ originals) as Hdisj'.
      { intros q ? Hq. apply (Hdisj q Hq). by right. }
      assert (reads st1 latests ls') by (by eapply reads_frame).
      destruct (IH ls' st1 originals (merge_rule os latest)) as
        (st' & res & -> & ? & ? & ? & Hf'); [|done..|].
      { apply NoDup_app. split_and!; [done| |done]. intros q ? ?. by apply (Hdisj' q). }
      exists st', res. split_and!; [done..|set_solver|done|].
      apply (frame_trans _ _ st1).
      * apply (frame_mono originals); [set_solver|done].
      * apply (frame_mono (originals ++ latests)); [set_solver|done].
    + destruct Hfound as [-> Happ].
      destruct (IH ls' st (originals ++ [l]) (merge_rule os latest)) as
        (st' & res & -> & ? & ? & ? & Hf'); [|rewrite Happ; by apply reads_app, Forall2_cons|done|].
      { by rewrite <-(assoc_L (++)). }
      rewrite <-(assoc_L (++)) in *. by exists st', res.
Qed.

(** On the store, where rules are shared through pointers and merged in place,
    [MergeRules] returns, does not dereference a dangling pointer, and leaves in
    the store the merge of the values, provided the two slices hold pairwise
    distinct pointers; it touches no other object. *)
Theorem MergeRules_st_refines (st : Store) (originals latests : list loc) (os ls : list Rule) :
  NoDup (originals ++ latests) → reads st originals os → reads st latests ls →
  ∃ st' res, MergeRules_st st originals latests = Some (st', res) ∧
    reads st' res (MergeRules os ls) ∧ frame (originals ++ latests) st st'.
Proof.
  intros Hnd Hos Hls. destruct (MergeRules_st_ok st originals latests os ls) as
    (st' & res & ? & ? & _ & _ & ?); [done..|]. by exists st', res.
Qed.

Section merge_policies_theorems.
Context `{RangeOrder}.

Lemma slicesUnionIfSubset_self h : slicesUnionIfSubset [h] [h] = [h].
Proof.
  unfold slicesUnionIfSubset. rewrite bool_decide_true by done. simpl.
  rewrite (sort_strings_perm _ [h]); [done|].
  rewrite range_set_perm, union_idemp_L, union_empty_r_L. by rewrite elements_singleton.
Qed.

(** The pointer holds a policy with the hostnames and the rules. *)
Definition holds (st : Store) (h : string) (x : loc * PolicyObj * list Rule) : Prop :=
  st_policies st !! x.1.1 = Some x.1.2 ∧ po_Hostnames x.1.2 = [h] ∧
  reads st (po_Rules x.1.2) x.2.

Lemma merge_policy_st_one st h l0 o0 rs0 l o rs :
  l ≠ l0 → NoDup (po_Rules o0 ++ po_Rules o) →
  holds st h (l0, o0, rs0) → holds st h (l, o, rs) →
  ∃ st' o0', merge_policy_st st [l0] l false = Some (st', true) ∧
    holds st' h (l0, o0', MergeRules rs0 rs) ∧
    po_Rules o0' ⊆ po_Rules o0 ++ po_Rules o ∧ NoDup (po_Rules o0') ∧
    (∀ p, p ∉ po_Rules o0 ++ po_Rules o → st_rules st' !! p = st_rules st !! p) ∧
    (∀ p, p ≠ l0 → st_policies st' !! p = st_policies st !! p).
Proof.
  intros Hne Hnd (Hl0 & Hh0 & Hr0) (Hl & Hh & Hr). simpl in *. rewrite Hl0. simpl.
  rewrite Hl. simpl. rewrite Hh0, Hh, slicesUnionIfSubset_self.
  rewrite lookup_insert_ne, Hl by done. simpl.
  set (st1 := st_set_policy _ _ _).
  destruct (MergeRules_st_ok st1 (po_Rules o0) (po_Rules o) rs0 rs) as
    (st2 & res & -> & Hres & ? & ? & Hpol & Hrules); [done..|]. simpl.
  eexists _, (mkPolicyObj (po_Name o0) [h] res (po_RateLimit o0)).
  split; [reflexivity|]. split; [|split_and!; [done|done|exact Hrules|]].
  - split; [apply lookup_insert_eq|done].
  - intros p Hp. simpl. rewrite lookup_insert_ne, Hpol by done. by apply lookup_insert_ne.
Qed.

#[local] Arguments merge_policy_st : simpl never.

(** Ingress policies all carry the same hostname.  Merging any number of them,
    with pairwise distinct rule pointers, into the first gives that one policy,
    whose rules are the merge of all the rules in order. *)
Theorem MergeInboundPolicies_one_host (st : Store) (h : string) (l0 : loc) (o0 : PolicyObj)
    (rs0 : list Rule) (latest : list (loc * PolicyObj * list Rule)) :
  l0 ∉ latest.*1.*1 → NoDup (po_Rules o0 ++ (latest ≫= λ x, po_Rules x.1.2)) →
  holds st h (l0, o0, rs0) → Forall (holds st h) latest →
  ∃ st' o0', MergeInboundPolicies st [l0] latest.*1.*1 = Some (st', [l0]) ∧
    holds st' h (l0, o0', foldl MergeRules rs0 latest.*2).
Proof.
  revert st o0 rs0. induction latest as [|[[l o] rs] latest IH];
    intros st o0 rs0 Hl0 Hnd Hh0 Hlatest; csimpl in *; [by exists st, o0|].
  apply Forall_cons in Hlatest as [Hl Hlatest]. apply not_elem_of_cons in Hl0 as [Hne Hl0].
  rewrite (assoc_L (++)) in Hnd. pose proof Hnd as (Hnd1 & Hdisj & Hnd2)%NoDup_app.
  destruct (merge_policy_st_one st h l0 o0 rs0 l o rs) as
    (st1 & o1 & -> & Hh1 & Hsub & Hnd3 & Hrules & Hpols); [done..|]. simpl.
  apply (IH st1 o1); [done| |done|].
  - apply NoDup_app. split_and!; [done| |done]. intros p ?. apply Hdisj. set_solver.
  - rewrite Forall_forall in *. intros [[l' o'] rs'] Hin.
    destruct (Hlatest _ Hin) as (H1 & H2 & H3). simpl in *. split_and!; simpl; [|done|].
    + rewrite Hpols; [done|]. intros ->. apply Hl0. apply list_elem_of_fmap.
      exists (l0, o'). split; [done|]. apply list_elem_of_fmap.
      by exists (l0, o', rs').
    + eapply reads_agree; [|done]. intros q Hq. apply Hrules. intros Hq'.
      apply (Hdisj q Hq'). apply list_elem_of_bind. by exists (l', o', rs').
Qed.
End merge_policies_theorems.

(** ** Merged policies may share a rule

    A latest policy whose hostname belongs to two original policies is merged
    into both, and both end with a pointer to the same rule. *)
Module SharedRule.
Definition route : RouteWeightedClusters := NewRouteWeightedCluster WildCardRouteMatch [] None.
Definition store : Store := {|
  st_rules := {[ 1%positive := mkRule route {["client.x"]}; 2%positive := mkRule route {["client.a"]} ]};
  st_policies := list_to_map [
    (1%positive, mkPolicyObj "a" ["a"; "x"] [] None);
    (2%positive, mkPolicyObj "b" ["b"; "x"] [] None);
    (3%positive, mkPolicyObj "x" ["x"] [1%positive] None);
    (4%positive, mkPolicyObj "a only" ["a"] [2%positive] None) ];
|}.
End SharedRule.

(** [MergeInboundPolicies] can grant more than its arguments do: merging a
    policy for the hostname x into the policies for a, x and for b, x, and then
    one that lets client.a use the hostname a, also lets client.a use b. *)
Theorem MergeInboundPolicies_shared_rule :
  ∃ st' o, @MergeInboundPolicies stdpp_order SharedRule.store
      [1; 2]%positive [3; 4]%positive = Some (st', [1; 2]%positive) ∧
    st_policies st' !! 2%positive = Some o ∧ po_Hostnames o = ["b"; "x"] ∧
    ∃ r, (p ← head (po_Rules o); st_rules st' !! p) = Some r ∧
      "client.a" ∈ rule_AllowedPrincipals r.
Proof.
  eexists _, _. split; [vm_compute; reflexivity|]. split; [vm_compute; reflexivity|].
  split; [reflexivity|]. eexists. split; [vm_compute; reflexivity|].
  apply (bool_decide_unpack _). vm_compute. exact I.
Qed.

(** ** Routes of weighted clusters *)

Lemma merge_route_matches routes latest :
  rwc_HTTPRouteMatch <$> merge_route routes latest =
  (rwc_HTTPRouteMatch <$> routes) ++
    if decide (rwc_HTTPRouteMatch latest ∈ rwc_HTTPRouteMatch <$> routes) then []
    else [rwc_HTTPRouteMatch latest].
Proof.
  unfold merge_route. case_decide as Hex.
  - rewrite decide_True, app_nil_r.
    + rewrite <-list_fmap_compose. apply list_fmap_ext. intros _ r _. simpl.
      by repeat case_decide.
    + apply Exists_exists in Hex as (r & ? & <-). set_solver.
  - rewrite fmap_app, decide_False; [done|]. intros (r & Hr & ?)%list_elem_of_fmap.
    apply Hex, Exists_exists. by exists r.
Qed.

(** The clusters of a match in a list of routes. *)
Definition route_clusters (routes : list RouteWeightedClusters) (m : HTTPRouteMatch)
    (wc : WeightedCluster) : Prop :=
  ∃ r, r ∈ routes ∧ rwc_HTTPRouteMatch r = m ∧ wc ∈ rwc_WeightedClusters r.

Lemma merge_route_clusters routes latest m wc :
  route_clusters (merge_route routes latest) m wc ↔
  route_clusters routes m wc ∨
  (rwc_HTTPRouteMatch latest = m ∧ wc ∈ rwc_WeightedClusters latest).
Proof.
  unfold merge_route, route_clusters. case_decide as Hex.
  - setoid_rewrite list_elem_of_fmap. split.
    + intros (r & (r0 & -> & Hr0) & Hm & Hwc).
      repeat case_decide; simpl in *; [naive_solver| |naive_solver].
      apply elem_of_union in Hwc as [?|?]; [left; by exists r0|right; split; [congruence|done]].
    + intros [(r & Hr & Hm & Hwc)|[Hm Hwc]].
      * eexists. split; [by exists r|]. repeat case_decide; simpl; set_solver.
      * apply Exists_exists in Hex as (r & Hr & Hm'). eexists. split; [by exists r|].
        rewrite decide_True by done. case_decide as Hw; simpl; [|set_solver].
        split; [congruence|by rewrite Hw].
  - setoid_rewrite elem_of_app. setoid_rewrite list_elem_of_singleton. naive_solver.
Qed.

(** [mergeRoutesWeightedClusters] keeps one route per match when the original
    routes have one, and sends each match to the union of the clusters that
    either list sends it to. *)
Theorem mergeRoutesWeightedClusters_spec (originals latests : list RouteWeightedClusters) :
  NoDup (rwc_HTTPRouteMatch <$> originals) →
  NoDup (rwc_HTTPRouteMatch <$> mergeRoutesWeightedClusters originals latests) ∧
  ∀ m wc, route_clusters (mergeRoutesWeightedClusters originals latests) m wc ↔
    route_clusters originals m wc ∨ route_clusters latests m wc.
Proof.
  unfold mergeRoutesWeightedClusters. revert originals.
  induction latests as [|l latests IH]; intros originals Hnd; simpl.
  - split; [done|]. intros m wc. split; [by left|]. intros [?|(r & Hr & _)]; [done|]. set_solver.
  - destruct (IH (merge_route originals l)) as [Hnd' Hwc].
    + rewrite merge_route_matches. case_decide; [by rewrite app_nil_r|].
      apply NoDup_app. split_and!; [done| |apply NoDup_singleton].
      by intros r Hr ->%list_elem_of_singleton.
    + split; [done|]. intros m wc. rewrite Hwc, merge_route_clusters.
      unfold route_clusters at 4. setoid_rewrite elem_of_cons. unfold route_clusters. naive_solver.
Qed.

(** ** Deduplication *)

Section dedup_theorems.
Context `{RangeOrder} {T E : Type} (hash : T → result E Z).

Lemma dedup_map_Ok items m m' :
  dedup_map hash items m = Ok m' →
  (∀ h x, m !! h = Some x → hash x = Ok h) →
  (∀ h x, m' !! h = Some x → hash x = Ok h ∧ (x ∈ items ∨ m !! h = Some x)) ∧
  (∀ h, is_Some (m !! h) → is_Some (m' !! h)) ∧
  (∀ x, x ∈ items → ∃ h, hash x = Ok h ∧ is_Some (m' !! h)).
Proof.
  revert m. induction items as [|x items IH]; intros m Hm Hinv; simpl in *.
  - simplify_eq. split_and!; [naive_solver..|set_solver].
  - destruct (hash x) as [h|e] eqn:Hx; [|done].
    destruct (IH _ Hm) as (H1 & H2 & H3).
    { intros h' y. destruct (decide (h = h')) as [->|]; simplify_map_eq; naive_solver. }
    split_and!.
    + intros h' y Hy. destruct (H1 h' y Hy) as [? [?|Hins]]; [set_solver|].
      destruct (decide (h = h')) as [->|]; simplify_map_eq; set_solver.
    + intros h' ?. apply H2. destruct (decide (h = h')) as [->|]; by simplify_map_eq.
    + intros y [->|Hy]%elem_of_cons; [|by apply H3].
      exists h. split; [done|]. apply H2. by simplify_map_eq.
Qed.

Lemma dedup_map_Err items m :
  (∃ e, dedup_map hash items m = Err e) ↔ ∃ x e, x ∈ items ∧ hash x = Err e.
Proof.
  revert m. induction items as [|x items IH]; intros m; simpl; [set_solver|].
  setoid_rewrite elem_of_cons. destruct (hash x) as [h|e] eqn:Hx; [rewrite IH|].
  - split; [naive_solver|]. intros (y & e & [->|?] & ?); [congruence|naive_solver].
  - split; [intros _; exists x, e; auto|by exists e].
Qed.

Lemma dedup_spec items :
  ((∃ e, dedup hash items = Err e) ↔ ∃ x e, x ∈ items ∧ hash x = Err e) ∧
  (∀ res, dedup hash items = Ok res →
     NoDup (hash <$> res) ∧ res ⊆ items ∧
     ∀ x, x ∈ items → ∃ y, y ∈ res ∧ hash y = hash x).
Proof.
  unfold dedup. rewrite <-(dedup_map_Err items ∅). split.
  { destruct (dedup_map hash items ∅); naive_solver. }
  destruct (dedup_map hash items ∅) as [m|e] eqn:Hm; [|naive_solver]. intros res [= <-].
  apply dedup_map_Ok in Hm as (H1 & _ & H3); [|intros ??; by rewrite lookup_empty].
  assert (hash <$> (range_map m).*2 = Ok <$> (range_map m).*1) as ->.
  { rewrite <-!list_fmap_compose. apply list_fmap_ext. intros i [h x] Hi. simpl.
    apply (H1 h x), elem_of_range_map. by eapply list_elem_of_lookup_2. }
  split_and!.
  - apply NoDup_fmap_2; [intros ?? [=]; done|]. apply NoDup_fst_range_map.
  - intros x ([h y] & -> & Hy)%list_elem_of_fmap. apply elem_of_range_map in Hy.
    destruct (H1 h y Hy) as [_ [?|Hemp]]; [done|]. by rewrite lookup_empty in Hemp.
  - intros x (h & Hx & [y Hy])%H3. exists y. destruct (H1 h y Hy) as [Hhy _].
    split; [|congruence]. apply list_elem_of_fmap. exists (h, y). by rewrite elem_of_range_map.
Qed.
End dedup_theorems.

(** [DeduplicateTrafficMatches] keeps exactly one match per hash value, drops
    no hash value and invents no match, and fails exactly when a match cannot be
    hashed. *)
Theorem DeduplicateTrafficMatches_spec `{RangeOrder} {E} (hash : TrafficMatch → result E Z)
    (matches : list TrafficMatch) :
  ((∃ e, DeduplicateTrafficMatches hash matches = Err e) ↔
     ∃ x e, x ∈ matches ∧ hash x = Err e) ∧
  (∀ res, DeduplicateTrafficMatches hash matches = Ok res →
     NoDup (hash <$> res) ∧ res ⊆ matches ∧
     ∀ x, x ∈ matches → ∃ y, y ∈ res ∧ hash y = hash x).
Proof. apply dedup_spec. Qed.
