(* ===== verification/K8s.v ===== *)
(** * pkg/k8s: Kubernetes resources, the controller interface and host names

    The fields of the core/v1 resources that the control plane reads, the
    informer stores (pkg/k8s/informers), the [Controller] interface of types.go
    as a record of operations, and the functions of util.go on host names. *)

From S2P Require Import Prelude GoStrings Net Identity Service.

(** ** Resources *)

Abbreviation labels := (gmap string string).

Record Namespace := mkNamespace {
  ns_Name : string;
  ns_Labels : labels;
  ns_Annotations : labels;
}.

Record ServicePort := mkServicePort {
  sp_Name : string;
  sp_Port : Z;
  sp_AppProtocol : option string;
}.

Record K8sService := mkK8sService {
  svc_Namespace : string;
  svc_Name : string;
  svc_UID : string;
  svc_Annotations : labels;
  svc_Selector : labels;
  svc_ClusterIP : string;
  svc_Ports : list ServicePort;
}.

Record K8sServiceAccountObject := mkK8sServiceAccountObject {
  sao_Namespace : string;
  sao_Name : string;
}.

Record Pod := mkPod {
  pod_Namespace : string;
  pod_Name : string;
  pod_UID : string;
  pod_Labels : labels;
  pod_Annotations : labels;
  pod_ServiceAccountName : string;
  pod_PodIPs : list string;
  pod_PodIP : string;
}.

Record EndpointAddress := mkEndpointAddress {
  addr_IP : string;
  addr_Hostname : string;
}.

Record EndpointPort := mkEndpointPort {
  epp_Name : string;
  epp_Port : Z;
}.

Record EndpointSubset := mkEndpointSubset {
  eps_Addresses : list EndpointAddress;
  eps_Ports : list EndpointPort;
}.

Record Endpoints := mkEndpoints {
  eps_Namespace : string;
  eps_Name : string;
  eps_Annotations : labels;
  eps_Subsets : list EndpointSubset;
}.

Record NamespacedName := mkNamespacedName {
  nn_Namespace : string;
  nn_Name : string;
}.

Definition NamespacedName_String (n : NamespacedName) : string :=
  nn_Namespace n +:+ "/" +:+ nn_Name n.

#[global] Instance Namespace_eq_dec : EqDecision Namespace.
Proof. solve_decision. Defined.
#[global] Instance ServicePort_eq_dec : EqDecision ServicePort.
Proof. solve_decision. Defined.
#[global] Instance K8sService_eq_dec : EqDecision K8sService.
Proof. solve_decision. Defined.
#[global] Instance Pod_eq_dec : EqDecision Pod.
Proof. solve_decision. Defined.
#[global] Instance NamespacedName_eq_dec : EqDecision NamespacedName.
Proof. solve_decision. Defined.

(** ** Informer stores

    client-go keeps the objects of an informer in a [cache.Store].  The store is
    not code of this repository: it is given by its two operations, [GetByKey]
    (an object, nothing, or an error) and [List]. *)
Record InformerStore (A : Type) := mkInformerStore {
  GetByKey : string → result string (option A);
  List : list A;
}.
Arguments mkInformerStore {A} _ _.
Arguments GetByKey {A} _ _.
Arguments List {A} _.

(** What client-go documents of a store: an object is stored under the key that
    the key function computes from it, and [List] gives the stored objects, each
    once. *)
Record store_ok {A} (key : A → string) (s : InformerStore A) : Prop := {
  store_list : ∀ x, x ∈ List s ↔ GetByKey s (key x) = Ok (Some x);
  store_key : ∀ k x, GetByKey s k = Ok (Some x) → key x = k;
  store_nodup : NoDup (List s);
}.

(** A store with the objects of a map, and no errors. *)
Definition store_of {A} `{RangeOrder} (m : gmap string A) : InformerStore A := {|
  GetByKey k := Ok (m !! k);
  List := (range_map m).*2;
|}.

Lemma store_of_ok {A} `{RangeOrder} (key : A → string) (m : gmap string A) :
  map_Forall (λ k x, key x = k) m → store_ok key (store_of m).
Proof.
  intros Hkey. split; simpl.
  - intros x. rewrite list_elem_of_fmap. split.
    + intros ([k y] & -> & Hy%elem_of_range_map). simpl. by rewrite (Hkey k y Hy), Hy.
    + intros [= Hx]. exists (key x, x). split; [done|]. by apply elem_of_range_map.
  - intros k x [= Hx]. by apply Hkey.
  - apply NoDup_fmap_2_strong.
    + intros [k x] [k' y] Hx%elem_of_range_map Hy%elem_of_range_map Heq. simpl in *. subst y.
      by rewrite <-(Hkey k x Hx), <-(Hkey k' x Hy).
    + eapply NoDup_fmap_1, NoDup_fst_range_map.
Qed.

(** ** The controller interface *)

Inductive K8sError :=
| errServiceNotFound
| errMoreThanOnePodForUUID
| errDidNotFindPodForUUID
| errServiceAccountDoesNotMatchProxy
| errNamespaceDoesNotMatchProxy
| errNotFoundInCache (name : string)
| errPortName (portName name : string)
| errNotNamespacedName (name : string)
| errStore (msg : string).

(** [models.Proxy], as far as the controller looks. *)
Record Proxy := mkProxy {
  proxy_UUID : string;
  proxy_Identity : ServiceIdentity;
}.

Record Controller := mkController {
  ctl_ListServices : list K8sService;
  ctl_ListServiceAccounts : list K8sServiceAccountObject;
  ctl_GetService : MeshService → option K8sService;
  ctl_IsMonitoredNamespace : string → bool;
  ctl_ListMonitoredNamespaces : list string;
  ctl_GetNamespace : string → option Namespace;
  ctl_ListPods : list Pod;
  ctl_ListServiceIdentitiesForService : MeshService → result K8sError (list K8sServiceAccount);
  ctl_GetEndpoints : MeshService → result string (option Endpoints);
  ctl_GetPodForProxy : Proxy → outcome (result K8sError Pod);
  ctl_GetTargetPortForServicePort : NamespacedName → Z → result K8sError Z;
}.

(** ** Host names (util.go)

    The package variable [trustDomain] is an argument. *)

Definition SetTrustDomain (trustDomain domain : string) : string :=
  if bool_decide (domain = "") then trustDomain else domain.

(** The loop over the segments of the trust domain. *)
Fixpoint domain_hostnames (hostname : string) (port : Z) (segs : list string) : list string :=
  match segs with
  | [] => []
  | seg :: segs =>
    if decide (seg = "") then domain_hostnames hostname port segs
    else
      let hostname := hostname +:+ "." +:+ seg in
      hostname :: (hostname +:+ ":" +:+ itoa port) :: domain_hostnames hostname port segs
  end.

Definition GetHostnamesForService (trustDomain : string) (svc : MeshService)
    (localNamespace : bool) : list string :=
  let name := ms_Name svc in
  let ns := ms_Namespace svc in
  let port := itoa (ms_Port svc) in
  (if localNamespace then [name; name +:+ ":" +:+ port] else []) ++
  [ name +:+ "." +:+ ns;
    name +:+ "." +:+ ns +:+ ":" +:+ port;
    name +:+ "." +:+ ns +:+ ".svc";
    name +:+ "." +:+ ns +:+ ".svc:" +:+ port ] ++
  domain_hostnames (name +:+ "." +:+ ns +:+ ".svc") (ms_Port svc) (split "." trustDomain).

(** The service name and the subdomain; [None] is the nil controller. *)
Definition splitHostName (c : option Controller) (host : string) : string * string :=
  let host := default "" (head (split ":" host)) in
  match split "." host with
  | [s] => (s, "")
  | [p1; p2] =>
    match c with
    | None => (p1, "")
    | Some c => match ctl_GetNamespace c p2 with None => (p2, p1) | Some _ => (p1, "") end
    end
  | [c0; c1; tld] =>
    match c with
    | None => if decide (tld = "svc") then (c0, "") else (c1, c0)
    | Some c => match ctl_GetNamespace c tld with None => (c0, "") | Some _ => (c1, c0) end
    end
  | [c0; c1; _; _] => (c1, c0)
  | [c0; _; _; _; _] => (c0, "")
  | [c0; c1; _; _; _; _] => (c1, c0)
  | c0 :: _ => (c0, "")
  | [] => ("", "")
  end.

Definition GetServiceFromHostname (c : option Controller) (host : string) : string :=
  (splitHostName c host).1.

Definition GetSubdomainFromHostname (c : option Controller) (host : string) : string :=
  (splitHostName c host).2.

Definition NamespacedNameFrom (name : string) : result K8sError NamespacedName :=
  match split "/" name with
  | [ns; n] => Ok {| nn_Namespace := ns; nn_Name := n |}
  | _ => Err (errNotNamespacedName name)
  end.

Definition ClusterIPNone : string := "None".

Definition IsHeadlessService (svc : K8sService) : bool :=
  bool_decide (svc_ClusterIP svc = "") || bool_decide (svc_ClusterIP svc = ClusterIPNone).

(** ** Theorems on host names *)

(** The components of a host name, after its port has been dropped. *)
Definition host_components (host : string) : list string :=
  split "." (default "" (head (split ":" host))).

Definition label_ok (s : string) : Prop := free_of "." s ∧ free_of ":" s.

Lemma host_components_join ls :
  ls ≠ [] → Forall label_ok ls → host_components (join "."%char ls) = ls.
Proof.
  intros Hne Hls. unfold host_components. rewrite (split_free ":"); simpl.
  - apply split_join; [done|]. eapply Forall_impl; [done|]. by intros ? [? _].
  - apply free_of_join; [done|]. eapply Forall_impl; [done|]. by intros ? [_ ?].
Qed.

Lemma host_components_port ls port :
  ls ≠ [] → Forall label_ok ls →
  host_components (join "."%char ls +:+ ":" +:+ port) = ls.
Proof.
  intros Hne Hls. unfold host_components. rewrite split_app_lit; simpl.
  - apply split_join; [done|]. eapply Forall_impl; [done|]. by intros ? [? _].
  - apply free_of_join; [done|]. eapply Forall_impl; [done|]. by intros ? [_ ?].
Qed.

(** The components of the host names of a service, with the default domain. *)
Definition service_components (ms : MeshService) : list (list string) :=
  [ [ms_Name ms]; [ms_Name ms; ms_Namespace ms]; [ms_Name ms; ms_Namespace ms; "svc"];
    [ms_Name ms; ms_Namespace ms; "svc"; "cluster"];
    [ms_Name ms; ms_Namespace ms; "svc"; "cluster"; "local"] ].

(** A service of the API server: no dot or colon in its name and namespace. *)
Definition ms_labels_ok (ms : MeshService) : Prop :=
  label_ok (ms_Name ms) ∧ label_ok (ms_Namespace ms).

Lemma service_components_ok ms ls :
  ms_labels_ok ms → ls ∈ service_components ms → ls ≠ [] ∧ Forall label_ok ls.
Proof.
  intros [Hn Hns] Hls. assert (label_ok "svc") by done. assert (label_ok "cluster") by done.
  assert (label_ok "local") by done. unfold service_components in Hls.
  repeat (apply elem_of_cons in Hls as [->|Hls];
    [split; [done|]; by repeat (apply Forall_nil_2 || apply Forall_cons_2)|]).
  by apply not_elem_of_nil in Hls.
Qed.

(** Concatenations in normal form: nested to the right, literals spelled out. *)
Ltac norm_str := repeat (rewrite app_assoc' || rewrite app_cons || rewrite app_nil_l').

Ltac pick_components :=
  first [ apply Exists_cons_hd; left; simpl; norm_str; reflexivity
        | apply Exists_cons_hd; right; simpl; norm_str; reflexivity
        | apply Exists_cons_tl; pick_components ].

Lemma GetHostnames_join ms b :
  Forall (λ h, Exists (λ ls, h = join "."%char ls ∨
      h = join "."%char ls +:+ ":" +:+ itoa (ms_Port ms)) (service_components ms))
    (GetHostnamesForService "cluster.local" ms b).
Proof.
  unfold GetHostnamesForService, service_components. destruct b; simpl.
  all: repeat (apply Forall_nil_2 || (apply Forall_cons; split; [pick_components|])).
Qed.

Lemma GetHostnames_components ms b h :
  ms_labels_ok ms → h ∈ GetHostnamesForService "cluster.local" ms b →
  host_components h ∈ service_components ms.
Proof.
  intros Hok Hh. pose proof (GetHostnames_join ms b) as HF.
  rewrite Forall_forall in HF. apply HF, Exists_exists in Hh as (ls & Hls & Hh).
  destruct (service_components_ok ms ls Hok Hls).
  destruct Hh as [->| ->]; rewrite ?host_components_join, ?host_components_port by done; done.
Qed.

(** The controller knows the namespace of the service, and none called svc. *)
Definition knows_namespace (c : option Controller) (ms : MeshService) : Prop :=
  match c with
  | None => True
  | Some c => ctl_GetNamespace c (ms_Namespace ms) ≠ None ∧ ctl_GetNamespace c "svc" = None
  end.

(** A host name of a service is resolved back to the service, with no
    subdomain, with or without a controller, except for the two forms with four
    components, [name.namespace.svc.cluster] with and without a port, which are
    taken for a pod of a service called as the namespace. *)
Theorem splitHostName_hostnames (c : option Controller) (ms : MeshService) (b : bool)
    (h : string) :
  ms_labels_ok ms → knows_namespace c ms →
  h ∈ GetHostnamesForService "cluster.local" ms b →
  splitHostName c h =
  if decide (length (host_components h) = 4%nat) then (ms_Namespace ms, ms_Name ms)
  else (ms_Name ms, "").
Proof.
  intros Hok Hc Hh. apply GetHostnames_components in Hh; [|done].
  unfold splitHostName. fold (host_components h). unfold service_components in Hh.
  repeat (apply elem_of_cons in Hh as [->|Hh]); [..|by apply not_elem_of_nil in Hh];
    simpl; try done; destruct c as [c|]; try done; destruct Hc as [Hns Hsvc].
  - by destruct (ctl_GetNamespace c (ms_Namespace ms)).
  - by rewrite Hsvc.
Qed.

Module HostnamesWitness.
Definition bookstore : MeshService := mkMeshService "bookstore-ns" "bookstore" 80 8080 "http" "".
End HostnamesWitness.

Lemma splitHostName_hostnames_witness :
  splitHostName None "bookstore.bookstore-ns.svc.cluster" = ("bookstore-ns", "bookstore") ∧
  splitHostName None "bookstore.bookstore-ns.svc.cluster.local:80" = ("bookstore", "").
Proof.
  split; refine (splitHostName_hostnames None HostnamesWitness.bookstore true _ _ I _);
    try done; apply (bool_decide_unpack _); vm_compute; exact I.
Defined.

(** [NamespacedNameFrom] inverts [NamespacedName.String]. *)
Lemma NamespacedNameFrom_String n :
  free_of "/" (nn_Namespace n) → free_of "/" (nn_Name n) →
  NamespacedNameFrom (NamespacedName_String n) = Ok n.
Proof.
  intros Hns Hn. unfold NamespacedNameFrom, NamespacedName_String.
  rewrite split_app_lit, (split_free "/" (nn_Name n)) by done. by destruct n.
Qed.

Lemma NamespacedNameFrom_Ok s n :
  NamespacedNameFrom s = Ok n → s = NamespacedName_String n.
Proof.
  unfold NamespacedNameFrom, NamespacedName_String. intros Hs.
  rewrite <-(join_split "/" s).
  destruct (split "/" s) as [|a [|b [|]]]; simplify_eq/=. done.
Qed.

(** [NamespacedNameFrom] accepts exactly the strings that print a namespaced
    name without slashes, and returns that name; anything else is an error. *)
Theorem NamespacedNameFrom_spec (s : string) (n : NamespacedName) :
  NamespacedNameFrom s = Ok n ↔
  s = NamespacedName_String n ∧ free_of "/" (nn_Namespace n) ∧ free_of "/" (nn_Name n).
Proof.
  split; [|intros (-> & ? & ?); by apply NamespacedNameFrom_String].
  intros Hs. split; [by apply NamespacedNameFrom_Ok|].
  unfold NamespacedNameFrom in Hs. pose proof (split_parts_free "/" s) as HF.
  destruct (split "/" s) as [|a [|b [|]]]; simplify_eq/=. by apply Forall_cons in HF as [? [? _]%Forall_cons].
Qed.
