(* ===== verification/K8sClient.v ===== *)
(** * pkg/k8s/client.go: the Kubernetes controller

    The client answers the [Controller] interface from the informer stores.  Its
    operations read the stores and change nothing; [ServiceToMeshServices] and
    [GetTargetPortFromEndpoints] turn a Kubernetes service into mesh services. *)

From S2P Require Import Prelude GoStrings Net Identity Service K8s.

(** ** Constants *)

Definition ProtocolHTTP : string := "http".
Definition ProtocolHTTPS : string := "https".
Definition ProtocolTCP : string := "tcp".
Definition ProtocolGRPC : string := "grpc".
Definition ProtocolTCPServerFirst : string := "tcp-server-first".
Definition SupportedProtocolsInMesh : list string :=
  [ProtocolTCPServerFirst; ProtocolHTTP; ProtocolTCP; ProtocolGRPC].
Definition SidecarUniqueIDLabelName : string := "osm-proxy-uuid".
Definition PrometheusScrapeAnnotation : string := "prometheus.io/scrape".

(** ** Services as mesh services *)

(** The port of the endpoints with the name; a subset with one port, or an empty
    name, does not need the name to match.  Zero when nothing matches. *)
Definition subset_port (endpointName : string) (subset : EndpointSubset) : option Z :=
  let ports := eps_Ports subset in
  let matches p := bool_decide (endpointName = "") || bool_decide (length ports = 1%nat) ||
                   bool_decide (epp_Name p = endpointName) in
  match filter matches ports with
  | p :: _ => Some (uint16 (epp_Port p))
  | [] => None
  end.

Definition GetTargetPortFromEndpoints (endpointName : string) (endpoints : Endpoints) : Z :=
  default 0%Z (first_some (subset_port endpointName) (eps_Subsets endpoints)).

(** The first supported protocol [p] such that the port is called [p-...]. *)
Definition portProtocol (name : string) : string :=
  default ProtocolHTTP
    (first_some (λ p, if has_prefix name (p +:+ "-") then Some p else None)
       SupportedProtocolsInMesh).

(** The loop over the subsets and addresses of a headless service. *)
Definition headless_services (svc : K8sService) (meshSvc : MeshService) (endpoints : Endpoints) :
    list MeshService :=
  subset ← eps_Subsets endpoints;
  address ← eps_Addresses subset;
  if decide (addr_Hostname address = "") then []
  else [{| ms_Namespace := svc_Namespace svc;
           ms_Name := addr_Hostname address +:+ "." +:+ svc_Name svc;
           ms_Port := ms_Port meshSvc;
           ms_TargetPort := ms_TargetPort meshSvc;
           ms_Protocol := ms_Protocol meshSvc;
           ms_ServiceImportUID := "" |}].

Definition portMeshServices (c : Controller) (svc : K8sService) (portSpec : ServicePort) :
    list MeshService :=
  let meshSvc targetPort := {|
    ms_Namespace := svc_Namespace svc;
    ms_Name := svc_Name svc;
    ms_Port := uint16 (sp_Port portSpec);
    ms_TargetPort := targetPort;
    ms_Protocol := default (portProtocol (sp_Name portSpec)) (sp_AppProtocol portSpec);
    ms_ServiceImportUID := "" |} in
  match ctl_GetEndpoints c (meshSvc 0%Z) with
  | Ok (Some endpoints) =>
    let meshSvc := meshSvc (GetTargetPortFromEndpoints (sp_Name portSpec) endpoints) in
    if IsHeadlessService svc then
      match headless_services svc meshSvc endpoints with
      | [] => [meshSvc]
      | added => added
      end
    else [meshSvc]
  | _ => [meshSvc 0%Z]
  end.

Definition ServiceToMeshServices (c : Controller) (svc : K8sService) : list MeshService :=
  svc_Ports svc ≫= portMeshServices c svc.

(** ** [strconv.ParseBool] *)

Definition ParseBool (s : string) : option bool :=
  if decide (s ∈ ["1"; "t"; "T"; "true"; "TRUE"; "True"]) then Some true
  else if decide (s ∈ ["0"; "f"; "F"; "false"; "FALSE"; "False"]) then Some false
  else None.

Definition IsMetricsEnabled (pod : Pod) : bool :=
  match pod_Annotations pod !! PrometheusScrapeAnnotation with
  | None => false
  | Some a => default false (ParseBool a)
  end.

(** ** The client *)

Record Informers := mkInformers {
  inf_Namespace : InformerStore Namespace;
  inf_Service : InformerStore K8sService;
  inf_ServiceAccount : InformerStore K8sServiceAccountObject;
  inf_Pod : InformerStore Pod;
  inf_Endpoints : InformerStore Endpoints;
}.

Section client.
Context `{RangeOrder}.
(** [labels.Set(selector).AsSelector().Matches(labels)] of apimachinery. *)
Context (Matches : labels → labels → bool).
Context (c : Informers).

Definition IsMonitoredNamespace (namespace : string) : bool :=
  match GetByKey (inf_Namespace c) namespace with
  | Ok (Some _) => true
  | _ => false
  end.

Definition ListMonitoredNamespaces : list string := ns_Name <$> List (inf_Namespace c).

Definition GetService (svc : MeshService) : option K8sService :=
  match GetByKey (inf_Service c) (NamespacedKey svc) with
  | Ok s => s
  | Err _ => None
  end.

Definition ListServices : list K8sService :=
  filter (λ svc, IsMonitoredNamespace (svc_Namespace svc)) (List (inf_Service c)).

Definition ListServiceAccounts : list K8sServiceAccountObject :=
  filter (λ sa, IsMonitoredNamespace (sao_Namespace sa)) (List (inf_ServiceAccount c)).

Definition GetNamespace (ns : string) : option Namespace :=
  match GetByKey (inf_Namespace c) ns with
  | Ok n => n
  | Err _ => None
  end.

Definition ListPods : list Pod :=
  filter (λ pod, IsMonitoredNamespace (pod_Namespace pod)) (List (inf_Pod c)).

Definition GetEndpoints (svc : MeshService) : result string (option Endpoints) :=
  GetByKey (inf_Endpoints c) (NamespacedKey svc).

(** The service accounts of the pods that the selector of the service selects. *)
Definition ListServiceIdentitiesForService (svc : MeshService) :
    result K8sError (list K8sServiceAccount) :=
  match GetService svc with
  | None => Err errServiceNotFound
  | Some k8sSvc =>
    let selected pod := bool_decide (svc_Selector k8sSvc ≠ ∅) &&
                        Matches (svc_Selector k8sSvc) (pod_Labels pod) in
    let account pod := mkK8sServiceAccount (pod_Namespace pod) (pod_ServiceAccountName pod) in
    Ok (range_set (list_to_set (account <$> filter selected ListPods) : gset K8sServiceAccount))
  end.

Definition GetPodForProxy (proxy : Proxy) : outcome (result K8sError Pod) :=
  svcAccount ← ToK8sServiceAccount (proxy_Identity proxy);
  let labelled pod := pod_Labels pod !! SidecarUniqueIDLabelName = Some (proxy_UUID proxy) in
  Ret match filter labelled ListPods with
      | [] => Err errDidNotFindPodForUUID
      | [pod] =>
        if decide (pod_Namespace pod = sa_Namespace svcAccount) then
          if decide (pod_ServiceAccountName pod = sa_Name svcAccount) then Ok pod
          else Err errServiceAccountDoesNotMatchProxy
        else Err errNamespaceDoesNotMatchProxy
      | _ => Err errMoreThanOnePodForUUID
      end.

Definition GetTargetPortForServicePort (namespacedSvc : NamespacedName) (port : Z) :
    result K8sError Z :=
  let key := NamespacedName_String namespacedSvc in
  match GetByKey (inf_Service c) key with
  | Err e => Err (errStore e)
  | Ok None => Err (errNotFoundInCache key)
  | Ok (Some svc) =>
    let portName := default "" (first_some
      (λ p, if decide (uint16 (sp_Port p) = port) then Some (sp_Name p) else None)
      (svc_Ports svc)) in
    match GetByKey (inf_Endpoints c) key with
    | Err e => Err (errStore e)
    | Ok None => Err (errNotFoundInCache key)
    | Ok (Some endpoint) =>
      match first_some
        (λ p, if decide (epp_Name p = portName) then Some (uint16 (epp_Port p)) else None)
        (eps_Subsets endpoint ≫= eps_Ports) with
      | Some p => Ok p
      | None => Err (errPortName portName key)
      end
    end
  end.

(** The client as an implementation of the interface. *)
Definition client : Controller := {|
  ctl_ListServices := ListServices;
  ctl_ListServiceAccounts := ListServiceAccounts;
  ctl_GetService := GetService;
  ctl_IsMonitoredNamespace := IsMonitoredNamespace;
  ctl_ListMonitoredNamespaces := ListMonitoredNamespaces;
  ctl_GetNamespace := GetNamespace;
  ctl_ListPods := ListPods;
  ctl_ListServiceIdentitiesForService := ListServiceIdentitiesForService;
  ctl_GetEndpoints := GetEndpoints;
  ctl_GetPodForProxy := GetPodForProxy;
  ctl_GetTargetPortForServicePort := GetTargetPortForServicePort;
|}.
End client.

(** ** Theorems *)

Lemma elem_of_headless svc ms endpoints x :
  x ∈ headless_services svc ms endpoints →
  ∃ h, x = mkMeshService (svc_Namespace svc) (h +:+ "." +:+ svc_Name svc)
             (ms_Port ms) (ms_TargetPort ms) (ms_Protocol ms) "".
Proof.
  unfold headless_services. intros (subset & Hx & _)%list_elem_of_bind.
  apply list_elem_of_bind in Hx as (address & Hx & _). case_decide; [set_solver|].
  apply list_elem_of_singleton in Hx as ->. eauto.
Qed.

(** The mesh services of a port: their port, protocol and namespace are those of
    the port, and the name is that of the service, perhaps behind a subdomain. *)
Lemma portMeshServices_inv c svc p x :
  x ∈ portMeshServices c svc p →
  ms_Namespace x = svc_Namespace svc ∧ ms_Port x = uint16 (sp_Port p) ∧
  ms_Protocol x = default (portProtocol (sp_Name p)) (sp_AppProtocol p) ∧
  ms_ServiceImportUID x = "" ∧
  (ms_Name x = svc_Name svc ∨ ∃ h, ms_Name x = h +:+ "." +:+ svc_Name svc).
Proof.
  unfold portMeshServices. destruct (ctl_GetEndpoints c _) as [[endpoints|]|];
    [|intros ->%list_elem_of_singleton; simpl; auto 10..].
  destruct (IsHeadlessService svc); [|intros ->%list_elem_of_singleton; simpl; auto 10].
  destruct (headless_services _ _ _) as [|y l] eqn:E;
    [intros ->%list_elem_of_singleton; simpl; auto 10|].
  rewrite <-E. intros (h & ->)%elem_of_headless. simpl. eauto 10.
Qed.

Lemma portMeshServices_ne c svc p : portMeshServices c svc p ≠ [].
Proof.
  unfold portMeshServices. destruct (ctl_GetEndpoints c _) as [[endpoints|]|]; [|done..].
  destruct (IsHeadlessService svc); [|done]. by destruct (headless_services _ _ _).
Qed.

Lemma NamespacedKey_suffix ms h name :
  free_of "." name → (ms_Name ms = name ∨ ms_Name ms = h +:+ "." +:+ name) →
  NamespacedKey ms = ms_Namespace ms +:+ "/" +:+ name.
Proof.
  intros Hn Hname. unfold NamespacedKey, ProviderKey. destruct Hname as [->| ->].
  - by rewrite split_free.
  - change ("." +:+ name) with (String "." name). by rewrite last_split_app.
Qed.

Definition svc_key (svc : K8sService) : string := svc_Namespace svc +:+ "/" +:+ svc_Name svc.
Definition pod_key (pod : Pod) : string := pod_Namespace pod +:+ "/" +:+ pod_Name pod.

Lemma elem_of_ListServices inf svc :
  svc ∈ ListServices inf ↔
  IsMonitoredNamespace inf (svc_Namespace svc) = true ∧ svc ∈ List (inf_Service inf).
Proof. unfold ListServices. by rewrite list_elem_of_filter, Is_true_true. Qed.

Lemma GetService_ServiceToMeshServices inf ctl svc ms :
  store_ok svc_key (inf_Service inf) → svc ∈ ListServices inf → free_of "." (svc_Name svc) →
  ms ∈ ServiceToMeshServices ctl svc → GetService inf ms = Some svc.
Proof.
  intros Hstore [_ Hsvc]%elem_of_ListServices Hdot (p & Hms & _)%list_elem_of_bind.
  apply portMeshServices_inv in Hms as (Hns & _ & _ & _ & Hname).
  assert (NamespacedKey ms = svc_key svc) as Hkey.
  { unfold svc_key. rewrite <-Hns. destruct Hname as [?|[h ?]];
      [apply (NamespacedKey_suffix ms "")|apply (NamespacedKey_suffix ms h)]; auto. }
  unfold GetService. rewrite Hkey. apply (store_list _ _ Hstore) in Hsvc. by rewrite Hsvc.
Qed.

(** Every mesh service made from a Kubernetes service of the cache, a
    subdomain of a headless one included, leads back to that service through
    [GetService]; and every port of the service has at least one mesh service,
    with the port's number and protocol. *)
Theorem ServiceToMeshServices_lookup (inf : Informers) (ctl : Controller) (svc : K8sService) :
  store_ok svc_key (inf_Service inf) → svc ∈ ListServices inf → free_of "." (svc_Name svc) →
  (∀ ms, ms ∈ ServiceToMeshServices ctl svc → GetService inf ms = Some svc) ∧
  (∀ p, p ∈ svc_Ports svc → ∃ ms, ms ∈ ServiceToMeshServices ctl svc ∧
     ms_Port ms = uint16 (sp_Port p) ∧
     ms_Protocol ms = default (portProtocol (sp_Name p)) (sp_AppProtocol p)).
Proof.
  intros Hstore Hsvc Hdot. split.
  - intros ms Hms. by eapply GetService_ServiceToMeshServices.
  - intros p Hp. destruct (portMeshServices ctl svc p) as [|ms l] eqn:E.
    { by destruct (portMeshServices_ne ctl svc p). }
    assert (ms ∈ portMeshServices ctl svc p) as Hms by (rewrite E; by left).
    exists ms. split; [apply list_elem_of_bind; eauto|].
    apply portMeshServices_inv in Hms. naive_solver.
Qed.

Module ClientWitness.
Definition svc : K8sService :=
  mkK8sService "default" "db" "uid-db" ∅ {["app" := "db"]} "None" [mkServicePort "tcp-sql" 5432 None].
Definition ep : Endpoints :=
  mkEndpoints "default" "db" ∅ [mkEndpointSubset [mkEndpointAddress "10.0.0.1" "db-0"] [mkEndpointPort "tcp-sql" 5432]].
Definition pod : Pod :=
  mkPod "default" "db-0" "uid" {["app" := "db"; "osm-proxy-uuid" := "u1"]} ∅ "db-sa" ["10.0.0.1"] "10.0.0.1".
Definition store {A} : gmap string A → InformerStore A := @store_of A stdpp_order.
Definition inf : Informers := {|
  inf_Namespace := store {["default" := mkNamespace "default" ∅ ∅]};
  inf_Service := store {["default/db" := svc]};
  inf_ServiceAccount := store ∅;
  inf_Pod := store {["default/db-0" := pod]};
  inf_Endpoints := store {["default/db" := ep]};
|}.
(** A selector matches the labels that contain it. *)
Definition Matches (sel lbls : labels) : bool := bool_decide (sel ⊆ lbls).
End ClientWitness.

Lemma ServiceToMeshServices_lookup_witness :
  let ctl := @client stdpp_order ClientWitness.Matches ClientWitness.inf in
  ServiceToMeshServices ctl ClientWitness.svc = [mkMeshService "default" "db-0.db" 5432 5432 "tcp" ""] ∧
  GetService ClientWitness.inf (mkMeshService "default" "db-0.db" 5432 5432 "tcp" "") =
    Some ClientWitness.svc.
Proof.
  intros ctl. split; [reflexivity|].
  apply (ServiceToMeshServices_lookup ClientWitness.inf ctl ClientWitness.svc).
  - apply store_of_ok. by apply map_Forall_singleton.
  - vm_compute. by left.
  - reflexivity.
  - vm_compute. by left.
Defined.

(** The single element of a list that satisfies a predicate. *)
Lemma filter_singleton {A} (P : A → Prop) `{!∀ x, Decision (P x)} (l : list A) x :
  NoDup l → filter P l = [x] ↔ x ∈ l ∧ P x ∧ ∀ y, y ∈ l → P y → y = x.
Proof.
  intros Hnd. split.
  - intros E. assert (∀ y, y ∈ filter P l ↔ y = x) as HE by (intros y; rewrite E; set_solver).
    setoid_rewrite list_elem_of_filter in HE. destruct (HE x) as [_ [??]]; [done|]. naive_solver.
  - intros (Hx & HP & Huniq). assert (NoDup (filter P l)) as Hnd' by by apply NoDup_filter.
    assert (∀ y, y ∈ filter P l ↔ y = x) as HE.
    { intros y. rewrite list_elem_of_filter. naive_solver. }
    destruct (filter P l) as [|a [|b k]].
    + destruct (HE x) as [_ Hn]. set_solver.
    + f_equal. apply HE. set_solver.
    + exfalso. apply NoDup_cons in Hnd' as [Hnin _]. apply Hnin.
      assert (a = x) as -> by (apply HE; set_solver). assert (b = x) as -> by (apply HE; set_solver).
      set_solver.
Qed.

Lemma elem_of_ListPods inf pod :
  pod ∈ ListPods inf ↔ IsMonitoredNamespace inf (pod_Namespace pod) = true ∧ pod ∈ List (inf_Pod inf).
Proof. unfold ListPods. by rewrite list_elem_of_filter, Is_true_true. Qed.

(** [GetPodForProxy] returns a pod exactly when it is the only pod of a
    monitored namespace with the proxy's UUID label and it runs, in the namespace
    and under the service account, that the identity in the certificate names. *)
Theorem GetPodForProxy_Ok (inf : Informers) (proxy : Proxy) (sa : K8sServiceAccount) (pod : Pod) :
  store_ok pod_key (inf_Pod inf) →
  ToK8sServiceAccount (proxy_Identity proxy) = Ret sa →
  let labelled p := pod_Labels p !! SidecarUniqueIDLabelName = Some (proxy_UUID proxy) in
  GetPodForProxy inf proxy = Ret (Ok pod) ↔
  pod ∈ List (inf_Pod inf) ∧ IsMonitoredNamespace inf (pod_Namespace pod) = true ∧
  labelled pod ∧ (∀ p, p ∈ ListPods inf → labelled p → p = pod) ∧
  pod_Namespace pod = sa_Namespace sa ∧ pod_ServiceAccountName pod = sa_Name sa.
Proof.
  intros Hstore Hsa labelled.
  assert (NoDup (ListPods inf)) as Hnd by apply NoDup_filter, (store_nodup _ _ Hstore).
  pose proof (filter_singleton labelled (ListPods inf) pod Hnd) as Hf.
  rewrite elem_of_ListPods in Hf. unfold GetPodForProxy. rewrite Hsa. simpl. fold labelled.
  split.
  - intros [= Hres]. destruct (filter labelled (ListPods inf)) as [|p [|]] eqn:E; [done| |done].
    repeat case_decide; simplify_eq. destruct Hf as [Hf _]. destruct Hf as ([??] & ? & ?); [done|].
    by split_and!.
  - intros (Hin & Hmon & Hl & Huniq & Hns & Hname). rewrite (proj2 Hf) by by split_and!.
    by rewrite !decide_True by done.
Qed.

Lemma GetPodForProxy_Ok_witness :
  GetPodForProxy ClientWitness.inf (mkProxy "u1" "db-sa.default") = Ret (Ok ClientWitness.pod).
Proof.
  apply (GetPodForProxy_Ok ClientWitness.inf _ (mkK8sServiceAccount "default" "db-sa") ClientWitness.pod).
  - apply store_of_ok. by apply map_Forall_singleton.
  - reflexivity.
  - assert (ListPods ClientWitness.inf = [ClientWitness.pod]) as HL by (vm_compute; reflexivity).
    assert (List (inf_Pod ClientWitness.inf) = [ClientWitness.pod]) as -> by (vm_compute; reflexivity).
    rewrite HL. split_and!; try (vm_compute; reflexivity); [by left|].
    intros p Hp _. by apply list_elem_of_singleton in Hp.
Defined.
