(* ===== verification/KubeProvider.v ===== *)
(** * pkg/endpoint and pkg/providers/kube: services and endpoints of Kubernetes

    [Provider] is the pair of interfaces endpoint.Provider and service.Provider;
    the client of pkg/providers/kube implements it on top of a [Controller]. *)

From S2P Require Import Prelude GoStrings Net Identity Service K8s K8sClient.

(** ** Endpoints and providers *)

Record Endpoint := mkEndpoint {
  ep_IP : IP;
  ep_Port : Z;
  ep_Weight : Z;
  ep_Priority : Z;
  ep_Zone : string;
  ep_ClusterKey : string;
  ep_LBType : string;
  ep_Path : string;
}.

#[global] Instance Endpoint_eq_dec : EqDecision Endpoint.
Proof. solve_decision. Defined.

(** An endpoint with an address and a port, the other fields at their zero values. *)
Definition ip_port (ip : IP) (port : Z) : Endpoint := mkEndpoint ip port 0 0 "" "" "" "".

Record Provider := mkProvider {
  prov_GetID : string;
  prov_ListEndpointsForService : MeshService → list Endpoint;
  prov_ListEndpointsForIdentity : ServiceIdentity → outcome (list Endpoint);
  prov_GetResolvableEndpointsForService : MeshService → list Endpoint;
  prov_GetServicesForServiceIdentity : ServiceIdentity → outcome (list MeshService);
  prov_ListServices : list MeshService;
  prov_ListServiceIdentitiesForService : MeshService → list ServiceIdentity;
}.

(** ** The Kubernetes provider *)

Section kube.
Context (Matches : labels → labels → bool) (kubeController : Controller).

Definition GetID : string := "kubernetes".

(** The addresses of a subset, for the port; a subdomain selects by host name. *)
Definition subset_endpoints (svc : MeshService) (port : EndpointPort)
    (addresses : list EndpointAddress) : list Endpoint :=
  address ← addresses;
  if bool_decide (Subdomain svc ≠ "") && bool_decide (Subdomain svc ≠ addr_Hostname address)
  then []
  else match ParseIP (addr_IP address) with
       | None => []
       | Some ip => [ip_port ip (uint32 (epp_Port port))]
       end.

Definition ListEndpointsForService (svc : MeshService) : list Endpoint :=
  match ctl_GetEndpoints kubeController svc with
  | Ok (Some kubernetesEndpoints) =>
    subset ← eps_Subsets kubernetesEndpoints;
    port ← eps_Ports subset;
    if bool_decide (ms_TargetPort svc ≠ 0%Z) && bool_decide (epp_Port port ≠ ms_TargetPort svc)
    then [] else subset_endpoints svc port (eps_Addresses subset)
  | _ => []
  end.

(** The addresses of a pod, up to the first that does not parse. *)
Fixpoint pod_endpoints (ips : list string) : list Endpoint :=
  match ips with
  | [] => []
  | s :: ips =>
    match ParseIP s with
    | None => []
    | Some ip => ip_port ip 0 :: pod_endpoints ips
    end
  end.

(** The pods that run under the service account. *)
Definition pods_of (sa : K8sServiceAccount) : list Pod :=
  filter (λ pod, pod_Namespace pod = sa_Namespace sa ∧ pod_ServiceAccountName pod = sa_Name sa)
    (ctl_ListPods kubeController).

Definition ListEndpointsForIdentity (serviceIdentity : ServiceIdentity) :
    outcome (list Endpoint) :=
  sa ← ToK8sServiceAccount serviceIdentity;
  Ret (pods_of sa ≫= λ pod, pod_endpoints (pod_PodIPs pod)).

(** The services of the namespace with a selector that matches the labels. *)
Definition selects (podLabels : labels) (targetNamespace : string) (svc : K8sService) : bool :=
  bool_decide (svc_Namespace svc = targetNamespace) && bool_decide (svc_Selector svc ≠ ∅) &&
  Matches (svc_Selector svc) podLabels.

Definition getServicesByLabels (podLabels : labels) (targetNamespace : string) :
    list MeshService :=
  filter (selects podLabels targetNamespace) (ctl_ListServices kubeController)
    ≫= ServiceToMeshServices kubeController.

Definition GetServicesForServiceIdentity (svcIdentity : ServiceIdentity) :
    outcome (list MeshService) :=
  svcAccount ← ToK8sServiceAccount svcIdentity;
  Ret (unique (pods_of svcAccount ≫= λ pod,
         getServicesByLabels (pod_Labels pod) (pod_Namespace pod))).

Definition GetResolvableEndpointsForService (svc : MeshService) : list Endpoint :=
  match ctl_GetService kubeController svc with
  | None => []
  | Some kubeService =>
    if IsHeadlessService kubeService then ListEndpointsForService svc
    else match ParseIP (svc_ClusterIP kubeService) with
         | None => []
         | Some ip => (λ p, ip_port ip (uint32 (sp_Port p))) <$> svc_Ports kubeService
         end
  end.

Definition provider_ListServices : list MeshService :=
  ctl_ListServices kubeController ≫= ServiceToMeshServices kubeController.

Definition provider_ListServiceIdentitiesForService (svc : MeshService) : list ServiceIdentity :=
  match ctl_ListServiceIdentitiesForService kubeController svc with
  | Err _ => []
  | Ok serviceAccounts => ToServiceIdentity <$> serviceAccounts
  end.

Definition kube_provider : Provider := {|
  prov_GetID := GetID;
  prov_ListEndpointsForService := ListEndpointsForService;
  prov_ListEndpointsForIdentity := ListEndpointsForIdentity;
  prov_GetResolvableEndpointsForService := GetResolvableEndpointsForService;
  prov_GetServicesForServiceIdentity := GetServicesForServiceIdentity;
  prov_ListServices := provider_ListServices;
  prov_ListServiceIdentitiesForService := provider_ListServiceIdentitiesForService;
|}.
End kube.

(** ** Theorems *)

Section kube_theorems.
Context (Matches : labels → labels → bool) (ctl : Controller).

Lemma elem_of_subset_endpoints svc port addresses e :
  e ∈ subset_endpoints svc port addresses ↔
  ∃ a ip, a ∈ addresses ∧ (Subdomain svc = "" ∨ Subdomain svc = addr_Hostname a) ∧
    ParseIP (addr_IP a) = Some ip ∧ e = ip_port ip (uint32 (epp_Port port)).
Proof.
  unfold subset_endpoints. rewrite list_elem_of_bind. split.
  - intros (a & He & Ha). exists a.
    repeat case_bool_decide; simpl in *; try set_solver;
      (destruct (ParseIP (addr_IP a)) as [ip|]; [|set_solver]);
      apply list_elem_of_singleton in He as ->; exists ip; naive_solver.
  - intros (a & ip & Ha & Hsub & Hip & ->). exists a. split; [|done].
    rewrite Hip. repeat case_bool_decide; simpl; set_solver.
Qed.

(** The endpoints of a service are exactly the addresses that parse, of the
    subsets with a port equal to the service's target port (any port, when the
    target port is not known), and with the service's subdomain as host name if
    it has one. *)
Theorem ListEndpointsForService_spec (svc : MeshService) (e : Endpoint) :
  e ∈ ListEndpointsForService ctl svc ↔
  ∃ eps subset port a ip, ctl_GetEndpoints ctl svc = Ok (Some eps) ∧
    subset ∈ eps_Subsets eps ∧ port ∈ eps_Ports subset ∧ a ∈ eps_Addresses subset ∧
    (ms_TargetPort svc = 0%Z ∨ epp_Port port = ms_TargetPort svc) ∧
    (Subdomain svc = "" ∨ Subdomain svc = addr_Hostname a) ∧
    ParseIP (addr_IP a) = Some ip ∧ e = ip_port ip (uint32 (epp_Port port)).
Proof.
  unfold ListEndpointsForService.
  destruct (ctl_GetEndpoints ctl svc) as [[eps|]|]; [|split; [set_solver|naive_solver]..].
  rewrite list_elem_of_bind. setoid_rewrite list_elem_of_bind. split.
  - intros (subset & (port & He & Hport) & Hsubset). exists eps, subset, port.
    repeat case_bool_decide; simpl in *; try set_solver;
      apply elem_of_subset_endpoints in He as (a & ip & ? & ? & ? & ?); exists a, ip; naive_solver.
  - intros (eps' & subset & port & a & ip & [= <-] & Hs & Hp & Ha & Htp & Hsub & Hip & ->).
    exists subset. split; [|done]. exists port. split; [|done].
    repeat case_bool_decide; simpl; try naive_solver; apply elem_of_subset_endpoints; eauto 10.
Qed.

Lemma elem_of_pods_of sa pod :
  pod ∈ pods_of ctl sa ↔
  pod ∈ ctl_ListPods ctl ∧ pod_Namespace pod = sa_Namespace sa ∧ pod_ServiceAccountName pod = sa_Name sa.
Proof. unfold pods_of. rewrite list_elem_of_filter. tauto. Qed.

Lemma elem_of_getServicesByLabels lbls ns ms :
  ms ∈ getServicesByLabels Matches ctl lbls ns ↔
  ∃ svc, svc ∈ ctl_ListServices ctl ∧ svc_Namespace svc = ns ∧ svc_Selector svc ≠ ∅ ∧
    Matches (svc_Selector svc) lbls = true ∧ ms ∈ ServiceToMeshServices ctl svc.
Proof.
  unfold getServicesByLabels. rewrite list_elem_of_bind.
  setoid_rewrite list_elem_of_filter. unfold selects.
  setoid_rewrite Is_true_true. setoid_rewrite andb_true_iff. setoid_rewrite andb_true_iff.
  setoid_rewrite bool_decide_eq_true. naive_solver.
Qed.

Lemma GetServicesForServiceIdentity_Ret id sa l :
  ToK8sServiceAccount id = Ret sa → GetServicesForServiceIdentity Matches ctl id = Ret l →
  NoDup l ∧ ∀ ms, ms ∈ l ↔ ∃ pod svc, pod ∈ pods_of ctl sa ∧ svc ∈ ctl_ListServices ctl ∧
    svc_Namespace svc = sa_Namespace sa ∧ svc_Selector svc ≠ ∅ ∧
    Matches (svc_Selector svc) (pod_Labels pod) = true ∧ ms ∈ ServiceToMeshServices ctl svc.
Proof.
  intros Hsa Hl. unfold GetServicesForServiceIdentity in Hl. rewrite Hsa in Hl.
  simpl in Hl. injection Hl as <-. split; [apply unique_NoDup|]. intros ms.
  rewrite elem_of_unique, list_elem_of_bind. setoid_rewrite elem_of_getServicesByLabels. split.
  - intros (pod & (svc & ? & Hns & ?) & Hpod). exists pod, svc. split; [done|].
    apply elem_of_pods_of in Hpod as (_ & <- & _). naive_solver.
  - intros (pod & svc & Hpod & ? & Hns & ?). exists pod. split; [|done].
    exists svc. apply elem_of_pods_of in Hpod as (_ & Hp & _). rewrite Hp. naive_solver.
Qed.
End kube_theorems.

Section identities.
Context `{RangeOrder} (Matches : labels → labels → bool) (inf : Informers).

Lemma ListServiceIdentities_Some ms svc id :
  GetService inf ms = Some svc →
  id ∈ provider_ListServiceIdentitiesForService (client Matches inf) ms ↔
  ∃ pod, pod ∈ ListPods inf ∧ svc_Selector svc ≠ ∅ ∧
    Matches (svc_Selector svc) (pod_Labels pod) = true ∧
    id = New (pod_ServiceAccountName pod) (pod_Namespace pod).
Proof.
  intros Hsvc. unfold provider_ListServiceIdentitiesForService. simpl.
  unfold ListServiceIdentitiesForService. rewrite Hsvc, list_elem_of_fmap.
  generalize (ListPods inf). intros pods.
  setoid_rewrite elem_of_range_set. setoid_rewrite elem_of_list_to_set.
  setoid_rewrite list_elem_of_fmap. setoid_rewrite list_elem_of_filter.
  setoid_rewrite Is_true_true. setoid_rewrite andb_true_iff. setoid_rewrite bool_decide_eq_true.
  split.
  - intros (sa & -> & pod & -> & [??] & ?). by exists pod.
  - intros (pod & ? & ? & ? & ->). eexists. split; [|by exists pod]. done.
Qed.

(** The two directions of the relation between identities and services agree
    one way: the services of an identity list the identity among theirs. *)
Theorem GetServices_ListIdentities (sa : K8sServiceAccount) (l : list MeshService)
    (ms : MeshService) :
  store_ok svc_key (inf_Service inf) →
  (∀ svc, svc ∈ List (inf_Service inf) → free_of "." (svc_Name svc)) → sa_dotless sa →
  GetServicesForServiceIdentity Matches (client Matches inf) (ToServiceIdentity sa) = Ret l →
  ms ∈ l →
  ToServiceIdentity sa ∈ provider_ListServiceIdentitiesForService (client Matches inf) ms.
Proof.
  intros Hstore Hdot Hsa Hl Hms. pose proof (ToK8s_dotless sa Hsa) as Hto.
  apply (GetServicesForServiceIdentity_Ret _ _ _ sa) in Hl as [_ Hl]; [|done].
  apply Hl in Hms as (pod & svc & Hpod & Hsvc & Hns & Hsel & Hmatch & Hms).
  apply elem_of_pods_of in Hpod as (Hpod & Hpns & Hpsa).
  apply (ListServiceIdentities_Some ms svc).
  - eapply GetService_ServiceToMeshServices; [done..| |done].
    apply Hdot. by apply elem_of_ListServices in Hsvc as [_ ?].
  - exists pod. split_and!; [done..|]. by rewrite Hpns, Hpsa.
Qed.
End identities.

Module ProviderWitness.
Import ClientWitness.
Definition ctl : Controller := @client stdpp_order Matches inf.
Definition ms : MeshService := mkMeshService "default" "db-0.db" 5432 5432 "tcp" "".
(** The cluster of [ClientWitness] with a pod in another monitored namespace
    that carries the same label. *)
Definition stranger : Pod := mkPod "other" "x" "uid-x" {["app" := "db"]} ∅ "x-sa" ["10.0.0.9"] "10.0.0.9".
Definition inf2 : Informers := {|
  inf_Namespace := store {["default" := mkNamespace "default" ∅ ∅; "other" := mkNamespace "other" ∅ ∅]};
  inf_Service := inf_Service inf;
  inf_ServiceAccount := store ∅;
  inf_Pod := store {["default/db-0" := pod; "other/x" := stranger]};
  inf_Endpoints := inf_Endpoints inf;
|}.
End ProviderWitness.

Lemma GetServices_ListIdentities_witness :
  "db-sa.default" ∈
  provider_ListServiceIdentitiesForService ProviderWitness.ctl ProviderWitness.ms.
Proof.
  apply (@GetServices_ListIdentities stdpp_order ClientWitness.Matches ClientWitness.inf
    (mkK8sServiceAccount "default" "db-sa") [ProviderWitness.ms] ProviderWitness.ms).
  - apply store_of_ok. by apply map_Forall_singleton.
  - assert (List (inf_Service ClientWitness.inf) = [ClientWitness.svc]) as -> by (vm_compute; reflexivity).
    by intros svc ->%list_elem_of_singleton.
  - done.
  - vm_compute. reflexivity.
  - by left.
Defined.

(** The other direction fails: the service db of the namespace default lists
    the identity of a pod of the namespace other, although a Kubernetes selector
    selects in the namespace of the service only and the identity has no
    service. *)
Theorem ListServiceIdentities_cross_namespace :
  let ctl := @client stdpp_order ClientWitness.Matches ProviderWitness.inf2 in
  "x-sa.other" ∈ provider_ListServiceIdentitiesForService ctl ProviderWitness.ms ∧
  GetServicesForServiceIdentity ClientWitness.Matches ctl "x-sa.other" = Ret [].
Proof. split; [apply (bool_decide_unpack _); vm_compute; exact I|vm_compute; reflexivity]. Qed.
