(* ===== verification/Smi.v ===== *)
(** * pkg/smi: the Service Mesh Interface resources

    The fields of the SMI resources that the control plane reads, the [MeshSpec]
    interface, and the client that lists the resources of the monitored
    namespaces. *)

From S2P Require Import Prelude GoStrings Net Identity Service PolicyApi K8s.

(** ** Resources *)

Definition ServiceAccountKind : string := "ServiceAccount".
Definition TCPRouteKind : string := "TCPRoute".
Definition HTTPRouteGroupKind : string := "HTTPRouteGroup".

Record IdentityBindingSubject := mkIdentityBindingSubject {
  ibsub_Kind : string;
  ibsub_Name : string;
  ibsub_Namespace : string;
}.

Record TrafficTargetRule := mkTrafficTargetRule {
  ttrule_Kind : string;
  ttrule_Name : string;
  ttrule_Matches : list string;
}.

Record TrafficTarget := mkTrafficTarget {
  tt_Namespace : string;
  tt_Name : string;
  tt_Destination : IdentityBindingSubject;
  tt_Sources : list IdentityBindingSubject;
  tt_Rules : list TrafficTargetRule;
}.

(** [Headers] is a map, nil when the match has none. *)
Record HTTPMatch := mkHTTPMatch {
  hm_Name : string;
  hm_Methods : slice string;
  hm_PathRegex : string;
  hm_Headers : option (gmap string string);
}.

(** The code tests [Matches] against nil. *)
Record HTTPRouteGroup := mkHTTPRouteGroup {
  hrg_Namespace : string;
  hrg_Name : string;
  hrg_Matches : slice HTTPMatch;
}.

Record TCPRoute := mkTCPRoute {
  tcpr_Namespace : string;
  tcpr_Name : string;
  tcpr_Ports : list Z;
}.

Record TrafficSplitBackend := mkTrafficSplitBackend {
  tsb_Service : string;
  tsb_Weight : Z;
}.

Record TrafficSplit := mkTrafficSplit {
  ts_Namespace : string;
  ts_Name : string;
  ts_Service : string;
  ts_Backends : list TrafficSplitBackend;
  ts_Matches : list TypedLocalObjectReference;
}.

#[global] Instance IdentityBindingSubject_eq_dec : EqDecision IdentityBindingSubject.
Proof. solve_decision. Defined.
#[global] Instance TrafficTargetRule_eq_dec : EqDecision TrafficTargetRule.
Proof. solve_decision. Defined.
#[global] Instance TrafficTarget_eq_dec : EqDecision TrafficTarget.
Proof. solve_decision. Defined.

(** ** List options: functions that set a field of the options *)

Record TrafficTargetListOpt := mkTrafficTargetListOpt {
  tto_Destination : K8sServiceAccount;
}.

Abbreviation TrafficTargetListOption := (TrafficTargetListOpt → TrafficTargetListOpt).

Definition WithTrafficTargetDestination (d : K8sServiceAccount) : TrafficTargetListOption :=
  λ _, {| tto_Destination := d |}.

Record TrafficSplitListOpt := mkTrafficSplitListOpt {
  tso_ApexService : MeshService;
  tso_BackendService : MeshService;
  tso_KubeController : option Controller;
}.

Abbreviation TrafficSplitListOption := (TrafficSplitListOpt → TrafficSplitListOpt).

Definition WithTrafficSplitApexService (s : MeshService) : TrafficSplitListOption :=
  λ o, {| tso_ApexService := s; tso_BackendService := tso_BackendService o;
          tso_KubeController := tso_KubeController o |}.

Definition WithTrafficSplitBackendService (s : MeshService) : TrafficSplitListOption :=
  λ o, {| tso_ApexService := tso_ApexService o; tso_BackendService := s;
          tso_KubeController := tso_KubeController o |}.

Definition WithKubeController (c : Controller) : TrafficSplitListOption :=
  λ o, {| tso_ApexService := tso_ApexService o; tso_BackendService := tso_BackendService o;
          tso_KubeController := Some c |}.

Definition apply_options {O} (zero : O) (options : list (O → O)) : O :=
  foldl (λ o opt, opt o) zero options.

(** The zero values of the structs. *)
Definition zero_MeshService : MeshService := mkMeshService "" "" 0 0 "" "".
Definition zero_splitOpt : TrafficSplitListOpt :=
  mkTrafficSplitListOpt zero_MeshService zero_MeshService None.
Definition zero_targetOpt : TrafficTargetListOpt :=
  mkTrafficTargetListOpt (mkK8sServiceAccount "" "").

(** ** The interface *)

Record MeshSpec := mkMeshSpec {
  spec_ListTrafficSplits : list TrafficSplitListOption → list TrafficSplit;
  spec_ListServiceAccounts : list K8sServiceAccount;
  spec_ListHTTPTrafficSpecs : list HTTPRouteGroup;
  spec_GetHTTPRouteGroup : string → option HTTPRouteGroup;
  spec_ListTCPTrafficSpecs : list TCPRoute;
  spec_GetTCPRoute : string → option TCPRoute;
  spec_ListTrafficTargets : list TrafficTargetListOption → list TrafficTarget;
}.

(** ** Filters *)

(** Whether [FilterTrafficSplit] returns the split. *)
Definition FilterTrafficSplit (trafficSplit : TrafficSplit)
    (options : list TrafficSplitListOption) : bool :=
  let o := apply_options zero_splitOpt options in
  let apex := tso_ApexService o in
  let backend := tso_BackendService o in
  if bool_decide (ms_Name apex ≠ "") &&
     (bool_decide (ms_Namespace apex ≠ ts_Namespace trafficSplit) ||
      bool_decide (ms_Name apex ≠ GetServiceFromHostname (tso_KubeController o) (ts_Service trafficSplit)))
  then false
  else if bool_decide (ms_Name backend ≠ "") then
    if bool_decide (ts_Namespace trafficSplit ≠ ms_Namespace backend) then false
    else existsb (λ b, bool_decide (tsb_Service b = ms_Name backend)) (ts_Backends trafficSplit)
  else true.

Definition hasValidRules (rules : list TrafficTargetRule) : bool :=
  match rules with
  | [] => false
  | _ => forallb (λ r, bool_decide (ttrule_Kind r ∈ [HTTPRouteGroupKind; TCPRouteKind])) rules
  end.

Definition isValidTrafficTarget (trafficTarget : TrafficTarget) : bool :=
  bool_decide (tt_Namespace trafficTarget = ibsub_Namespace (tt_Destination trafficTarget)) &&
  hasValidRules (tt_Rules trafficTarget).

Definition FilterTrafficTarget (trafficTarget : TrafficTarget)
    (options : list TrafficTargetListOption) : bool :=
  let d := tto_Destination (apply_options zero_targetOpt options) in
  negb (bool_decide (sa_Name d ≠ "") &&
        (bool_decide (sa_Namespace d ≠ ibsub_Namespace (tt_Destination trafficTarget)) ||
         bool_decide (sa_Name d ≠ ibsub_Name (tt_Destination trafficTarget)))).

(** ** The client *)

Record SmiInformers := mkSmiInformers {
  smi_TrafficSplit : InformerStore TrafficSplit;
  smi_HTTPRouteGroup : InformerStore HTTPRouteGroup;
  smi_TCPRoute : InformerStore TCPRoute;
  smi_TrafficTarget : InformerStore TrafficTarget;
}.

Section client.
Context (c : SmiInformers) (kubeController : Controller).

Abbreviation monitored := (ctl_IsMonitoredNamespace kubeController).

(** Every turn of the loop appends the controller option once more. *)
Fixpoint listSplits (options : list TrafficSplitListOption) (splits : list TrafficSplit) :
    list TrafficSplit :=
  match splits with
  | [] => []
  | trafficSplit :: splits =>
    if monitored (ts_Namespace trafficSplit) then
      let options := options ++ [WithKubeController kubeController] in
      if FilterTrafficSplit trafficSplit options
      then trafficSplit :: listSplits options splits
      else listSplits options splits
    else listSplits options splits
  end.

Definition ListTrafficSplits (options : list TrafficSplitListOption) : list TrafficSplit :=
  listSplits options (List (smi_TrafficSplit c)).

Definition ListHTTPTrafficSpecs : list HTTPRouteGroup :=
  filter (λ r, monitored (hrg_Namespace r)) (List (smi_HTTPRouteGroup c)).

Definition GetHTTPRouteGroup (namespacedName : string) : option HTTPRouteGroup :=
  match GetByKey (smi_HTTPRouteGroup c) namespacedName with
  | Ok (Some route) => if monitored (hrg_Namespace route) then Some route else None
  | _ => None
  end.

Definition ListTCPTrafficSpecs : list TCPRoute :=
  filter (λ r, monitored (tcpr_Namespace r)) (List (smi_TCPRoute c)).

Definition GetTCPRoute (namespacedName : string) : option TCPRoute :=
  match GetByKey (smi_TCPRoute c) namespacedName with
  | Ok (Some route) => if monitored (tcpr_Namespace route) then Some route else None
  | _ => None
  end.

Definition ListTrafficTargets (options : list TrafficTargetListOption) : list TrafficTarget :=
  filter (λ t, monitored (tt_Namespace t) && isValidTrafficTarget t && FilterTrafficTarget t options)
    (List (smi_TrafficTarget c)).

Definition smi_ListServiceAccounts : list K8sServiceAccount :=
  trafficTarget ← filter (λ t, monitored (tt_Namespace t) && isValidTrafficTarget t)
                    (List (smi_TrafficTarget c));
  ((λ s, mkK8sServiceAccount (ibsub_Namespace s) (ibsub_Name s)) <$>
     filter (λ s, monitored (ibsub_Namespace s)) (tt_Sources trafficTarget)) ++
  [mkK8sServiceAccount (ibsub_Namespace (tt_Destination trafficTarget))
     (ibsub_Name (tt_Destination trafficTarget))].

Definition smi_client : MeshSpec := {|
  spec_ListTrafficSplits := ListTrafficSplits;
  spec_ListServiceAccounts := smi_ListServiceAccounts;
  spec_ListHTTPTrafficSpecs := ListHTTPTrafficSpecs;
  spec_GetHTTPRouteGroup := GetHTTPRouteGroup;
  spec_ListTCPTrafficSpecs := ListTCPTrafficSpecs;
  spec_GetTCPRoute := GetTCPRoute;
  spec_ListTrafficTargets := ListTrafficTargets;
|}.
End client.

(** ** What the interface promises

    The catalog relies on these laws; [smi_client_ok] shows that the client
    keeps them. *)
Class MeshSpecOk (ctl : Controller) (spec : MeshSpec) : Prop := {
  targets_filter : ∀ options,
    spec_ListTrafficTargets spec options =
    filter (λ t, FilterTrafficTarget t options) (spec_ListTrafficTargets spec []);
  targets_valid : ∀ t, t ∈ spec_ListTrafficTargets spec [] →
    isValidTrafficTarget t = true ∧ ctl_IsMonitoredNamespace ctl (tt_Namespace t) = true;
  splits_filter : ∀ options,
    spec_ListTrafficSplits spec options =
    filter (λ s, FilterTrafficSplit s (options ++ [WithKubeController ctl]))
      (spec_ListTrafficSplits spec []);
}.

Lemma filter_filter_and {A} (P Q R : A → Prop) `{!∀ x, Decision (P x), !∀ x, Decision (Q x),
    !∀ x, Decision (R x)} (l : list A) :
  (∀ x, R x ↔ P x ∧ Q x) → filter R l = filter P (filter Q l).
Proof.
  intros HR. induction l as [|x l IH]; [done|]. rewrite !filter_cons, IH.
  specialize (HR x). repeat case_decide; rewrite ?filter_cons; repeat case_decide; tauto.
Qed.

Section client_theorems.
Context (c : SmiInformers) (ctl : Controller).

Lemma apply_options_kube options :
  apply_options zero_splitOpt ((options ++ [WithKubeController ctl]) ++ [WithKubeController ctl]) =
  apply_options zero_splitOpt (options ++ [WithKubeController ctl]).
Proof. unfold apply_options. by rewrite !foldl_app. Qed.

Lemma FilterTrafficSplit_ext s o1 o2 :
  apply_options zero_splitOpt o1 = apply_options zero_splitOpt o2 →
  FilterTrafficSplit s o1 = FilterTrafficSplit s o2.
Proof. intros E. unfold FilterTrafficSplit. by rewrite E. Qed.

(** Appending the option at every turn is appending it once. *)
Lemma listSplits_filter options splits :
  listSplits ctl options splits =
  filter (λ s, ctl_IsMonitoredNamespace ctl (ts_Namespace s) &&
               FilterTrafficSplit s (options ++ [WithKubeController ctl])) splits.
Proof.
  revert options. induction splits as [|s splits IH]; intros options; [done|]. simpl.
  rewrite filter_cons. destruct (ctl_IsMonitoredNamespace ctl (ts_Namespace s)); simpl; [|by rewrite IH].
  rewrite IH. rewrite (list_filter_iff _ (λ s, ctl_IsMonitoredNamespace ctl (ts_Namespace s) &&
    FilterTrafficSplit s (options ++ [WithKubeController ctl]))).
  - by destruct (FilterTrafficSplit s _).
  - intros x. by rewrite (FilterTrafficSplit_ext x _ _ (apply_options_kube options)).
Qed.

Lemma FilterTrafficSplit_nil s : FilterTrafficSplit s ([] ++ [WithKubeController ctl]) = true.
Proof. reflexivity. Qed.

#[global] Instance smi_client_ok : MeshSpecOk ctl (smi_client c ctl).
Proof.
  split; simpl.
  - intros options. unfold ListTrafficTargets. apply filter_filter_and.
    intros t. unfold FilterTrafficTarget at 3. simpl.
    rewrite !andb_True. simpl. tauto.
  - intros t [Ht _]%list_elem_of_filter. apply andb_True in Ht as [Ht _].
    apply andb_True in Ht as [Hm Hv]. by rewrite !Is_true_true in *.
  - intros options. unfold ListTrafficSplits. rewrite !listSplits_filter.
    apply filter_filter_and. intros s. rewrite FilterTrafficSplit_nil, !andb_True. simpl. tauto.
Qed.

Lemma FilterTrafficTarget_destination t sa :
  sa_Name sa ≠ "" →
  FilterTrafficTarget t [WithTrafficTargetDestination sa] = true ↔
  ibsub_Namespace (tt_Destination t) = sa_Namespace sa ∧ ibsub_Name (tt_Destination t) = sa_Name sa.
Proof.
  intros Hn. unfold FilterTrafficTarget. simpl. rewrite bool_decide_true by done. simpl.
  rewrite negb_true_iff, orb_false_iff, !bool_decide_eq_false. split; [|intros [-> ->]; naive_solver].
  intros [H1%dec_stable H2%dec_stable]. done.
Qed.

Lemma isValidTrafficTarget_true t :
  isValidTrafficTarget t = true ↔
  tt_Namespace t = ibsub_Namespace (tt_Destination t) ∧ tt_Rules t ≠ [] ∧
  ∀ r, r ∈ tt_Rules t → ttrule_Kind r = HTTPRouteGroupKind ∨ ttrule_Kind r = TCPRouteKind.
Proof.
  unfold isValidTrafficTarget, hasValidRules.
  rewrite andb_true_iff, bool_decide_eq_true. destruct (tt_Rules t) as [|r rules]; [naive_solver|].
  rewrite forallb_forall. setoid_rewrite <-list_elem_of_In. setoid_rewrite bool_decide_eq_true.
  setoid_rewrite elem_of_cons. setoid_rewrite list_elem_of_singleton. naive_solver.
Qed.

(** For a service account, the client lists exactly the TrafficTargets of the
    monitored namespaces that name it as destination, sit in the destination's
    namespace, and have at least one rule, all of them HTTP route groups or TCP
    routes. *)
Theorem ListTrafficTargets_destination (sa : K8sServiceAccount) (t : TrafficTarget) :
  sa_Name sa ≠ "" →
  t ∈ ListTrafficTargets c ctl [WithTrafficTargetDestination sa] ↔
  t ∈ List (smi_TrafficTarget c) ∧ ctl_IsMonitoredNamespace ctl (tt_Namespace t) = true ∧
  tt_Namespace t = sa_Namespace sa ∧
  ibsub_Namespace (tt_Destination t) = sa_Namespace sa ∧ ibsub_Name (tt_Destination t) = sa_Name sa ∧
  tt_Rules t ≠ [] ∧
  ∀ r, r ∈ tt_Rules t → ttrule_Kind r = HTTPRouteGroupKind ∨ ttrule_Kind r = TCPRouteKind.
Proof.
  intros Hn. unfold ListTrafficTargets.
  rewrite list_elem_of_filter, !andb_True, !Is_true_true, FilterTrafficTarget_destination by done.
  rewrite isValidTrafficTarget_true. split.
  - intros ([(? & ? & ? & ?) [??]] & ?). split_and!; try done. congruence.
  - intros (? & ? & ? & ? & ? & ? & ?). split_and!; try done. congruence.
Qed.

(** For an apex service, the client lists exactly the TrafficSplits of the
    service's namespace, if it is monitored, whose root service has a host name
    that resolves to the service. *)
Theorem ListTrafficSplits_apex (svc : MeshService) (s : TrafficSplit) :
  ms_Name svc ≠ "" →
  s ∈ ListTrafficSplits c ctl [WithTrafficSplitApexService svc] ↔
  s ∈ List (smi_TrafficSplit c) ∧ ctl_IsMonitoredNamespace ctl (ts_Namespace s) = true ∧
  ts_Namespace s = ms_Namespace svc ∧ GetServiceFromHostname (Some ctl) (ts_Service s) = ms_Name svc.
Proof.
  intros Hn. unfold ListTrafficSplits.
  rewrite listSplits_filter, list_elem_of_filter, andb_True, !Is_true_true.
  unfold FilterTrafficSplit. simpl. rewrite bool_decide_true by done. simpl.
  repeat case_bool_decide; simpl; naive_solver.
Qed.
End client_theorems.
