(* ===== verification/PolicyClient.v ===== *)
(** * pkg/policy: lookups of the policy resources, and conflicts between them *)

From S2P Require Import Prelude GoStrings Net Identity Service PolicyApi K8s.

Definition kindSvcAccount : string := "ServiceAccount".

(** ** The interface *)

Record UpstreamTrafficSettingGetOpt := mkUpstreamTrafficSettingGetOpt {
  uo_MeshService : option MeshService;
  uo_NamespacedName : option NamespacedName;
  uo_Host : string;
}.

Record PolicyController := mkPolicyController {
  pol_ListEgressGateways : list EgressGateway;
  pol_ListEgressPoliciesForSourceIdentity : K8sServiceAccount → list Egress;
  pol_GetIngressBackendPolicy : MeshService → option IngressBackend;
  pol_ListRetryPolicies : K8sServiceAccount → list Retry;
  pol_GetAccessControlPolicy : MeshService → option AccessControl;
  pol_GetUpstreamTrafficSetting :
    UpstreamTrafficSettingGetOpt → outcome (option UpstreamTrafficSetting);
}.

(** The option the catalog looks up by. *)
Definition by_service (svc : MeshService) : UpstreamTrafficSettingGetOpt :=
  mkUpstreamTrafficSettingGetOpt (Some svc) None "".
Definition by_name (n : NamespacedName) : UpstreamTrafficSettingGetOpt :=
  mkUpstreamTrafficSettingGetOpt None (Some n) "".
Definition by_host (host : string) : UpstreamTrafficSettingGetOpt :=
  mkUpstreamTrafficSettingGetOpt None None host.

(** ** The client *)

Record PolicyInformers := mkPolicyInformers {
  pi_Egress : InformerStore Egress;
  pi_EgressGateway : InformerStore EgressGateway;
  pi_IngressBackend : InformerStore IngressBackend;
  pi_Retry : InformerStore Retry;
  pi_AccessControl : InformerStore AccessControl;
  pi_UpstreamTrafficSetting : InformerStore UpstreamTrafficSetting;
}.

Section client.
Context (c : PolicyInformers) (kubeController : Controller).

Definition ListEgressGateways : list EgressGateway := List (pi_EgressGateway c).

(** A policy is appended once per source that matches. *)
Definition ListEgressPoliciesForSourceIdentity (source : K8sServiceAccount) : list Egress :=
  egressPolicy ← filter (λ e, ctl_IsMonitoredNamespace kubeController (om_Namespace (eg_Meta e)))
                   (List (pi_Egress c));
  (λ _, egressPolicy) <$>
    filter (λ s, es_Kind s = kindSvcAccount ∧ es_Name s = sa_Name source ∧
                 es_Namespace s = sa_Namespace source)
      (egs_Sources (eg_Spec egressPolicy)).

Definition GetIngressBackendPolicy (svc : MeshService) : option IngressBackend :=
  first_some (λ ib,
    if decide (om_Namespace (ib_Meta ib) = ms_Namespace svc) then
      first_some (λ b, if decide (be_Name b = ms_Name svc ∧ port_Number (be_Port b) = ms_TargetPort svc)
                       then Some ib else None)
        (ibs_Backends (ib_Spec ib))
    else None) (List (pi_IngressBackend c)).

Definition ListRetryPolicies (source : K8sServiceAccount) : list Retry :=
  filter (λ r, let s := rs_Source (retry_Spec r) in
               rsd_Kind s = kindSvcAccount ∧ rsd_Name s = sa_Name source ∧
               rsd_Namespace s = sa_Namespace source)
    (List (pi_Retry c)).

Definition GetAccessControlPolicy (svc : MeshService) : option AccessControl :=
  first_some (λ acl,
    if decide (om_Namespace (ac_Meta acl) = ms_Namespace svc) then
      first_some (λ b, if decide (acb_Name b = ms_Name svc ∧ port_Number (acb_Port b) = ms_TargetPort svc)
                       then Some acl else None)
        (acsp_Backends (ac_Spec acl))
    else None) (List (pi_AccessControl c)).

(** The loop over the settings.  A setting whose host is not the host asked for
    is compared with the service, which panics when there is none. *)
Fixpoint findUpstreamTrafficSetting (options : UpstreamTrafficSettingGetOpt)
    (settings : list UpstreamTrafficSetting) : outcome (option UpstreamTrafficSetting) :=
  match settings with
  | [] => Ret None
  | uts :: settings =>
    if decide (utss_Host (uts_Spec uts) = uo_Host options) then Ret (Some uts)
    else match uo_MeshService options with
         | None => Panic
         | Some svc =>
           if decide (om_Namespace (uts_Meta uts) = ms_Namespace svc ∧
                      utss_Host (uts_Spec uts) = FQDN svc)
           then Ret (Some uts)
           else findUpstreamTrafficSetting options settings
         end
  end.

Definition GetUpstreamTrafficSetting (options : UpstreamTrafficSettingGetOpt) :
    outcome (option UpstreamTrafficSetting) :=
  match uo_MeshService options, uo_NamespacedName options, bool_decide (uo_Host options = "") with
  | None, None, true => Ret None
  | _, Some n, _ =>
    Ret match GetByKey (pi_UpstreamTrafficSetting c) (NamespacedName_String n) with
        | Ok r => r
        | Err _ => None
        end
  | _, None, _ => findUpstreamTrafficSetting options (List (pi_UpstreamTrafficSetting c))
  end.

Definition policy_client : PolicyController := {|
  pol_ListEgressGateways := ListEgressGateways;
  pol_ListEgressPoliciesForSourceIdentity := ListEgressPoliciesForSourceIdentity;
  pol_GetIngressBackendPolicy := GetIngressBackendPolicy;
  pol_ListRetryPolicies := ListRetryPolicies;
  pol_GetAccessControlPolicy := GetAccessControlPolicy;
  pol_GetUpstreamTrafficSetting := GetUpstreamTrafficSetting;
|}.
End client.

(** ** Conflicts (conflicts.go) *)

(** The error for a backend: its name and the names of the two resources. *)
Record BackendConflict := mkBackendConflict {
  bc_backend : string;
  bc_x : string;
  bc_y : string;
}.

Definition setKey : Type := string * Z.

Section conflicts.
Context `{RangeOrder}.

Definition DetectIngressBackendConflicts (x y : IngressBackend) : list BackendConflict :=
  let keys (i : IngressBackend) : gset setKey :=
    list_to_set ((λ b, (be_Name b, port_Number (be_Port b))) <$> ibs_Backends (ib_Spec i)) in
  (λ k : setKey, mkBackendConflict k.1 (om_Name (ib_Meta x)) (om_Name (ib_Meta y))) <$>
    range_set (keys x ∩ keys y).

Definition DetectAccessControlConflicts (x y : AccessControl) : list BackendConflict :=
  let keys (a : AccessControl) : gset setKey :=
    list_to_set ((λ b, (acb_Name b, port_Number (acb_Port b))) <$> acsp_Backends (ac_Spec a)) in
  (λ k : setKey, mkBackendConflict k.1 (om_Name (ac_Meta x)) (om_Name (ac_Meta y))) <$>
    range_set (keys x ∩ keys y).
End conflicts.

(** ** Theorems *)

(** The ingress backend has the port of the service among its backends. *)
Definition ib_backs (svc : MeshService) (ib : IngressBackend) : Prop :=
  om_Namespace (ib_Meta ib) = ms_Namespace svc ∧
  ∃ b, b ∈ ibs_Backends (ib_Spec ib) ∧ be_Name b = ms_Name svc ∧
       port_Number (be_Port b) = ms_TargetPort svc.

Definition ac_backs (svc : MeshService) (ac : AccessControl) : Prop :=
  om_Namespace (ac_Meta ac) = ms_Namespace svc ∧
  ∃ b, b ∈ acsp_Backends (ac_Spec ac) ∧ acb_Name b = ms_Name svc ∧
       port_Number (acb_Port b) = ms_TargetPort svc.

(** A search over the list with a test on an inner list: the first element that
    passes is returned. *)
Lemma first_some_inner {A B} (P : Prop) `{!Decision P} (inner : list B)
    (Q : B → Prop) `{!∀ x, Decision (Q x)} (x y : A) :
  (if decide P then first_some (λ b, if decide (Q b) then Some x else None) inner else None) = Some y ↔
  y = x ∧ P ∧ ∃ b, b ∈ inner ∧ Q b.
Proof.
  case_decide as HP; [|naive_solver]. split.
  - intros (b & Hb & Hq)%first_some_elem. case_decide; naive_solver.
  - intros (-> & _ & b & Hb & HQ). destruct (first_some _ inner) as [z|] eqn:E.
    + apply first_some_elem in E as (b' & _ & Hb'). case_decide; congruence.
    + rewrite first_some_None in E. specialize (E b Hb). by rewrite decide_True in E.
Qed.

Section policy_theorems.
Context (c : PolicyInformers) (ctl : Controller).

Lemma GetIngressBackendPolicy_Some svc ib :
  GetIngressBackendPolicy c svc = Some ib → ib ∈ List (pi_IngressBackend c) ∧ ib_backs svc ib.
Proof.
  intros (x & Hx & Hf)%first_some_elem. apply first_some_inner in Hf. unfold ib_backs. naive_solver.
Qed.

Lemma GetIngressBackendPolicy_None svc :
  GetIngressBackendPolicy c svc = None ↔
  ∀ ib, ib ∈ List (pi_IngressBackend c) → ¬ ib_backs svc ib.
Proof.
  unfold GetIngressBackendPolicy. rewrite first_some_None. apply forall_proper. intros ib.
  apply imp_iff_compat_l. rewrite eq_None_not_Some. apply not_iff_compat. unfold is_Some.
  setoid_rewrite first_some_inner. unfold ib_backs. naive_solver.
Qed.

Lemma GetAccessControlPolicy_Some svc ac :
  GetAccessControlPolicy c svc = Some ac → ac ∈ List (pi_AccessControl c) ∧ ac_backs svc ac.
Proof.
  intros (x & Hx & Hf)%first_some_elem. apply first_some_inner in Hf. unfold ac_backs. naive_solver.
Qed.

Lemma GetAccessControlPolicy_None svc :
  GetAccessControlPolicy c svc = None ↔
  ∀ ac, ac ∈ List (pi_AccessControl c) → ¬ ac_backs svc ac.
Proof.
  unfold GetAccessControlPolicy. rewrite first_some_None. apply forall_proper. intros ac.
  apply imp_iff_compat_l. rewrite eq_None_not_Some. apply not_iff_compat. unfold is_Some.
  setoid_rewrite first_some_inner. unfold ac_backs. naive_solver.
Qed.

Lemma DetectIngressBackendConflicts_nil `{RangeOrder} svc x y :
  DetectIngressBackendConflicts x y = [] → ib_backs svc x → ib_backs svc y → False.
Proof.
  unfold DetectIngressBackendConflicts. intros Hnil%fmap_nil_inv.
  intros (_ & b & Hb & Hn & Hp) (_ & b' & Hb' & Hn' & Hp').
  assert ((ms_Name svc, ms_TargetPort svc) ∈ ([] : list setKey)); [|set_solver].
  rewrite <-Hnil, elem_of_range_set, elem_of_intersection, !elem_of_list_to_set, !list_elem_of_fmap.
  split; [exists b|exists b']; split; [congruence|done|congruence|done].
Qed.

(** When no two ingress backends of the cluster conflict, which is what the
    validating webhook is there to ensure, the lookup for a service does not
    depend on the order of the informer store: it returns the resource that has
    the service's port among its backends, and nothing when there is none. *)
Theorem GetIngressBackendPolicy_unique `{RangeOrder} (svc : MeshService) (ib : IngressBackend) :
  (∀ x y, x ∈ List (pi_IngressBackend c) → y ∈ List (pi_IngressBackend c) → x ≠ y →
     om_Namespace (ib_Meta x) = om_Namespace (ib_Meta y) → DetectIngressBackendConflicts x y = []) →
  GetIngressBackendPolicy c svc = Some ib ↔ ib ∈ List (pi_IngressBackend c) ∧ ib_backs svc ib.
Proof.
  intros Hconf. split; [apply GetIngressBackendPolicy_Some|]. intros [Hin Hb].
  destruct (GetIngressBackendPolicy c svc) as [ib'|] eqn:E.
  - apply GetIngressBackendPolicy_Some in E as [Hin' Hb'].
    destruct (decide (ib' = ib)) as [->|Hne]; [done|]. exfalso.
    eapply (DetectIngressBackendConflicts_nil svc ib' ib); [|done..].
    apply Hconf; [done..|]. destruct Hb as [-> _], Hb' as [-> _]. done.
  - rewrite GetIngressBackendPolicy_None in E. naive_solver.
Qed.

(** The setting is for the service. *)
Definition uts_for (svc : MeshService) (u : UpstreamTrafficSetting) : Prop :=
  om_Namespace (uts_Meta u) = ms_Namespace svc ∧ utss_Host (uts_Spec u) = FQDN svc.

Lemma findUTS_by_service svc settings :
  ∃ r, findUpstreamTrafficSetting (by_service svc) settings = Ret r ∧
    match r with
    | Some u => u ∈ settings ∧ (uts_for svc u ∨ utss_Host (uts_Spec u) = "")
    | None => ∀ u, u ∈ settings → ¬ uts_for svc u ∧ utss_Host (uts_Spec u) ≠ ""
    end.
Proof.
  induction settings as [|u settings IH]; simpl; [exists None; set_solver|].
  case_decide as H1; [exists (Some u); split_and!; [done|by left|by right]|].
  case_decide as H2; [exists (Some u); split_and!; [done|by left|by left]|].
  destruct IH as (r & -> & Hr). exists r. split; [done|].
  destruct r as [u'|]; [split; [right|]; apply Hr|]. intros u' [->|?]%elem_of_cons; [|by apply Hr]. done.
Qed.

(** Looking up the traffic setting of a service never panics, and, when every
    setting names a host, returns a setting exactly when one in the service's
    namespace names the service's fully qualified host name. *)
Theorem GetUpstreamTrafficSetting_by_service (svc : MeshService) :
  (∀ u, u ∈ List (pi_UpstreamTrafficSetting c) → utss_Host (uts_Spec u) ≠ "") →
  ∃ r, GetUpstreamTrafficSetting c (by_service svc) = Ret r ∧
    match r with
    | Some u => u ∈ List (pi_UpstreamTrafficSetting c) ∧ uts_for svc u
    | None => ∀ u, u ∈ List (pi_UpstreamTrafficSetting c) → ¬ uts_for svc u
    end.
Proof.
  intros Hhost. destruct (findUTS_by_service svc (List (pi_UpstreamTrafficSetting c))) as (r & Hr & Hspec).
  exists r. split; [exact Hr|]. destruct r as [u|]; [|intros u Hu; by apply Hspec].
  destruct Hspec as [Hu [?|He]]; [done|]. by destruct (Hhost u Hu).
Qed.

(** Looking up a traffic setting by host alone, as the validating webhook
    does, dereferences the nil service, and so panics, whenever the first setting
    that the store lists has another host. *)
Theorem GetUpstreamTrafficSetting_by_host_panics (host : string) :
  host ≠ "" →
  GetUpstreamTrafficSetting c (by_host host) = Panic ↔
  ∃ u settings, List (pi_UpstreamTrafficSetting c) = u :: settings ∧ utss_Host (uts_Spec u) ≠ host.
Proof.
  intros Hh. unfold GetUpstreamTrafficSetting. simpl. rewrite bool_decide_false by done.
  destruct (List (pi_UpstreamTrafficSetting c)) as [|u l]; simpl; [naive_solver|].
  case_decide; naive_solver.
Qed.
End policy_theorems.
