(* ===== verification/Catalog.v ===== *)
(** * pkg/catalog: the mesh catalog, and who may talk to whom

    [MeshCatalog] holds the components the catalog reads through their
    interfaces.  This file models the operations of traffictarget.go,
    service.go, endpoint.go and retry.go, and [ListOutboundServicesForIdentity]:
    which identities, services and endpoints a workload is allowed to reach. *)

From S2P Require Import Prelude GoStrings Net Identity Service PolicyApi TrafficPolicy K8s.
From S2P Require Import K8sClient KubeProvider Smi PolicyClient.

(** ** The components *)

(** The feature flags and settings of the MeshConfig that the catalog reads. *)
Record Configurator := mkConfigurator {
  cfg_IsPermissiveTrafficPolicyMode : bool;
  cfg_IsEgressEnabled : bool;
  cfg_EnableEgressPolicy : bool;
  cfg_EnableIngressBackendPolicy : bool;
  cfg_EnableAccessControlPolicy : bool;
  cfg_EnableRetryPolicy : bool;
  cfg_EnableSidecarActiveHealthChecks : bool;
}.

(** The result of [GetLbWeightForService]: active-active, fail over, locality,
    the weight, and the clusters with their weights. *)
Record LbWeight := mkLbWeight {
  lbw_aa : bool;
  lbw_fo : bool;
  lbw_lc : bool;
  lbw_weight : Z;
  lbw_clusterKeys : gmap string Z;
}.

(** [multiclusterv1alpha1.ServiceExportRule]. *)
Record ServiceExportRule := mkServiceExportRule {
  ser_PortNumber : Z;
  ser_Path : string;
  ser_PathType : option string;
}.

(** The operations of multicluster.Controller that the catalog calls. *)
Record MulticlusterController := mkMulticlusterController {
  mcl_GetIngressControllerServices : list MeshService;
  mcl_GetExportedRule : MeshService → result string (option ServiceExportRule);
  mcl_GetTargetPortForServicePort : NamespacedName → Z → gmap Z bool;
  mcl_GetLbWeightForService : MeshService → LbWeight;
}.

Record MeshCatalog := mkMeshCatalog {
  mc_endpointsProviders : list Provider;
  mc_serviceProviders : list Provider;
  mc_meshSpec : MeshSpec;
  mc_configurator : Configurator;
  mc_GetTrustDomain : string;
  mc_kubeController : Controller;
  mc_policyController : PolicyController;
  mc_multiclusterController : MulticlusterController;
}.

Inductive CatalogError :=
| errNoTrafficSpecFoundForTrafficPolicy.

Inductive trafficDirection := inbound | outbound.

(** ** Traffic targets (traffictarget.go) *)

Definition trafficTargetIdentityToSvcAccount (identitySubject : IdentityBindingSubject) :
    K8sServiceAccount :=
  {| sa_Namespace := ibsub_Namespace identitySubject; sa_Name := ibsub_Name identitySubject |}.

Definition trafficTargetIdentityToServiceIdentity (identitySubject : IdentityBindingSubject) :
    ServiceIdentity :=
  ToServiceIdentity (trafficTargetIdentityToSvcAccount identitySubject).

Definition toUint16Slice (ports : list Z) : list Z := uint16 <$> ports.

Section catalog.
Context `{RangeOrder} (mc : MeshCatalog).

Definition trafficTargetIdentitiesToSvcAccounts (identities : list IdentityBindingSubject) :
    list K8sServiceAccount :=
  range_set (list_to_set (trafficTargetIdentityToSvcAccount <$> identities) : gset K8sServiceAccount).

(** The service accounts that one TrafficTarget adds to the allowed set. *)
Definition allowedByTarget (svcAccount : K8sServiceAccount) (direction : trafficDirection)
    (t : TrafficTarget) : list K8sServiceAccount :=
  let d := tt_Destination t in
  let is_account s := bool_decide (ibsub_Kind s = ServiceAccountKind) in
  if decide (ibsub_Kind d = ServiceAccountKind) then
    match direction with
    | inbound =>
      if decide (ibsub_Name d = sa_Name svcAccount ∧ ibsub_Namespace d = sa_Namespace svcAccount)
      then trafficTargetIdentityToSvcAccount <$> filter is_account (tt_Sources t)
      else []
    | outbound =>
      source ← filter is_account (tt_Sources t);
      if decide (ibsub_Name source = sa_Name svcAccount ∧ ibsub_Namespace source = sa_Namespace svcAccount)
      then [trafficTargetIdentityToSvcAccount d]
      else []
    end
  else [].

Definition getAllowedDirectionalServiceAccounts (svcIdentity : ServiceIdentity)
    (direction : trafficDirection) : outcome (list ServiceIdentity) :=
  svcAccount ← ToK8sServiceAccount svcIdentity;
  let allowed : gset K8sServiceAccount := list_to_set
    (spec_ListTrafficTargets (mc_meshSpec mc) [] ≫= allowedByTarget svcAccount direction) in
  Ret (ToServiceIdentity <$> range_set allowed).

Definition ListInboundServiceIdentities (upstream : ServiceIdentity) : outcome (list ServiceIdentity) :=
  getAllowedDirectionalServiceAccounts upstream inbound.

Definition ListOutboundServiceIdentities (downstream : ServiceIdentity) :
    outcome (list ServiceIdentity) :=
  getAllowedDirectionalServiceAccounts downstream outbound.

(** Every TCP route that the rules name, in the namespace of the target. *)
Fixpoint tcpRouteMatches (namespace : string) (rules : list TrafficTargetRule) :
    result CatalogError (list TCPRouteMatch) :=
  match rules with
  | [] => Ok []
  | rule :: rules =>
    if decide (ttrule_Kind rule = TCPRouteKind) then
      match spec_GetTCPRoute (mc_meshSpec mc) (namespace +:+ "/" +:+ ttrule_Name rule) with
      | None => Err errNoTrafficSpecFoundForTrafficPolicy
      | Some tcpRoute =>
        match tcpRouteMatches namespace rules with
        | Ok matches => Ok ({| trm_Ports := toUint16Slice (tcpr_Ports tcpRoute) |} :: matches)
        | Err e => Err e
        end
      end
    else tcpRouteMatches namespace rules
  end.

Definition getTCPRouteMatchesFromTrafficTarget (trafficTarget : TrafficTarget) :
    result CatalogError (list TCPRouteMatch) :=
  tcpRouteMatches (tt_Namespace trafficTarget) (tt_Rules trafficTarget).

Definition ListInboundTrafficTargetsWithRoutes (upstream : ServiceIdentity) :
    list TrafficTargetWithRoutes :=
  if cfg_IsPermissiveTrafficPolicyMode (mc_configurator mc) then []
  else
    t ← spec_ListTrafficTargets (mc_meshSpec mc) [];
    if decide (ToServiceIdentity (trafficTargetIdentityToSvcAccount (tt_Destination t)) = upstream) then
      match getTCPRouteMatchesFromTrafficTarget t with
      | Err _ => []
      | Ok matches =>
        [{| ttr_Name := tt_Namespace t +:+ "/" +:+ tt_Name t;
            ttr_Destination := trafficTargetIdentityToServiceIdentity (tt_Destination t);
            ttr_Sources := trafficTargetIdentityToServiceIdentity <$> tt_Sources t;
            ttr_TCPRouteMatches := matches |}]
      end
    else [].

(** ** Services (service.go) *)

Definition getServicesForServiceIdentity (svcIdentity : ServiceIdentity) :
    outcome (list MeshService) :=
  concatO (λ p, prov_GetServicesForServiceIdentity p svcIdentity) (mc_serviceProviders mc).

Definition mc_ListServiceIdentitiesForService (svc : MeshService) : list ServiceIdentity :=
  mc_serviceProviders mc ≫= λ p, prov_ListServiceIdentitiesForService p svc.

Definition listMeshServices : list MeshService :=
  mc_serviceProviders mc ≫= prov_ListServices.

(** The services of the destinations of the targets, each destination once per
    target that has the identity among its sources. *)
Definition servicesOfTarget (svcAccount : K8sServiceAccount) (t : TrafficTarget) :
    outcome (list MeshService) :=
  if decide (Exists (λ s, ibsub_Name s = sa_Name svcAccount ∧ ibsub_Namespace s = sa_Namespace svcAccount)
               (tt_Sources t))
  then getServicesForServiceIdentity
         (ToServiceIdentity (trafficTargetIdentityToSvcAccount (tt_Destination t)))
  else Ret [].

Definition ListOutboundServicesForIdentity (serviceIdentity : ServiceIdentity) :
    outcome (list MeshService) :=
  if cfg_IsPermissiveTrafficPolicyMode (mc_configurator mc) then Ret listMeshServices
  else
    svcAccount ← ToK8sServiceAccount serviceIdentity;
    services ← concatO (servicesOfTarget svcAccount) (spec_ListTrafficTargets (mc_meshSpec mc) []);
    Ret (unique services).

(** ** Endpoints (endpoint.go) *)

Definition listEndpointsForService (svc : MeshService) : list Endpoint :=
  mc_endpointsProviders mc ≫= λ p, prov_ListEndpointsForService p svc.

Definition getDNSResolvableServiceEndpoints (svc : MeshService) : list Endpoint :=
  mc_endpointsProviders mc ≫= λ p, prov_GetResolvableEndpointsForService p svc.

Definition listEndpointsForServiceIdentity (serviceIdentity : ServiceIdentity) :
    outcome (list Endpoint) :=
  concatO (λ p, prov_ListEndpointsForIdentity p serviceIdentity) (mc_endpointsProviders mc).

(** [outboundEndpointsSet]: the endpoints by the text of their address. *)
Definition endpointsByIP (endpoints : list Endpoint) : gmap string (list Endpoint) :=
  foldl (λ m ep, let ipStr := IP_String (ep_IP ep) in
                 <[ipStr := default [] (m !! ipStr) ++ [ep]]> m) ∅ endpoints.

Definition ListAllowedUpstreamEndpointsForService (downstreamIdentity : ServiceIdentity)
    (upstreamSvc : MeshService) : outcome (list Endpoint) :=
  let outboundEndpoints := listEndpointsForService upstreamSvc in
  if decide (outboundEndpoints = []) then Ret []
  else if cfg_IsPermissiveTrafficPolicyMode (mc_configurator mc) then Ret outboundEndpoints
  else
    let outboundEndpointsSet := endpointsByIP outboundEndpoints in
    destinations ← ListOutboundServiceIdentities downstreamIdentity;
    endpoints ← concatO listEndpointsForServiceIdentity destinations;
    Ret (endpoints ≫= λ ep, default [] (outboundEndpointsSet !! IP_String (ep_IP ep))).

(** ** Retry policies (retry.go) *)

Definition GetRetryPolicy (downstreamIdentity : ServiceIdentity) (upstreamSvc : MeshService) :
    outcome (option RetryPolicySpec) :=
  if cfg_EnableRetryPolicy (mc_configurator mc) then
    src ← ToK8sServiceAccount downstreamIdentity;
    Ret (first_some (λ retryCRD,
      first_some (λ dest,
        if decide (rsd_Kind dest = "Service") then
          let destMeshSvc := mkMeshService (rsd_Namespace dest) (rsd_Name dest) 0 0 "" "" in
          if SiblingTo upstreamSvc destMeshSvc
          then Some (rs_RetryPolicy (retry_Spec retryCRD))
          else None
        else None) (rs_Destinations (retry_Spec retryCRD)))
      (pol_ListRetryPolicies (mc_policyController mc) src))
  else Ret None.
End catalog.

(** ** Theorems *)

(** The TrafficTarget lets the source account talk to the destination account. *)
Definition target_allows (t : TrafficTarget) (src dst : K8sServiceAccount) : Prop :=
  ibsub_Kind (tt_Destination t) = ServiceAccountKind ∧
  trafficTargetIdentityToSvcAccount (tt_Destination t) = dst ∧
  ∃ s, s ∈ tt_Sources t ∧ ibsub_Kind s = ServiceAccountKind ∧
       trafficTargetIdentityToSvcAccount s = src.

Lemma subject_account s sa :
  trafficTargetIdentityToSvcAccount s = sa ↔
  ibsub_Name s = sa_Name sa ∧ ibsub_Namespace s = sa_Namespace sa.
Proof.
  unfold trafficTargetIdentityToSvcAccount. destruct sa. simpl.
  split; [by intros [= -> ->]|by intros [-> ->]].
Qed.

Lemma allowedByTarget_inbound t dst sa :
  sa ∈ allowedByTarget dst inbound t ↔ target_allows t sa dst.
Proof.
  unfold allowedByTarget, target_allows. case_decide as Hk; [|set_solver]. simpl.
  rewrite subject_account. case_decide as Hd; [|set_solver].
  rewrite list_elem_of_fmap. setoid_rewrite list_elem_of_filter. setoid_rewrite Is_true_true.
  setoid_rewrite bool_decide_eq_true. naive_solver.
Qed.

Lemma allowedByTarget_outbound t src sa :
  sa ∈ allowedByTarget src outbound t ↔ target_allows t src sa.
Proof.
  unfold allowedByTarget, target_allows. case_decide as Hk; [|set_solver]. simpl.
  rewrite list_elem_of_bind. setoid_rewrite list_elem_of_filter. setoid_rewrite Is_true_true.
  setoid_rewrite bool_decide_eq_true. setoid_rewrite subject_account. split.
  - intros (s & Hsa & [? ?]). case_decide as Hs; [|set_solver].
    apply list_elem_of_singleton in Hsa as ->. eauto 10.
  - intros (_ & [Hn Hns] & s & Hs & Hks & Hsrc). exists s. split; [|done].
    rewrite decide_True by done. apply list_elem_of_singleton. symmetry. by apply subject_account.
Qed.

Section catalog_theorems.
Context `{RangeOrder} (mc : MeshCatalog).

Abbreviation targets := (spec_ListTrafficTargets (mc_meshSpec mc) []).

(** Some TrafficTarget of the mesh lets the source talk to the destination. *)
Definition allowed (src dst : K8sServiceAccount) : Prop :=
  ∃ t, t ∈ targets ∧ target_allows t src dst.

Lemma ListInboundServiceIdentities_Ret dst l id :
  sa_dotless dst → ListInboundServiceIdentities mc (ToServiceIdentity dst) = Ret l →
  id ∈ l ↔ ∃ src, id = ToServiceIdentity src ∧ allowed src dst.
Proof.
  intros Hdst. unfold ListInboundServiceIdentities, getAllowedDirectionalServiceAccounts.
  rewrite ToK8s_dotless by done. simpl. intros [= <-].
  rewrite list_elem_of_fmap. setoid_rewrite elem_of_range_set.
  setoid_rewrite elem_of_list_to_set. setoid_rewrite list_elem_of_bind.
  setoid_rewrite allowedByTarget_inbound. unfold allowed. naive_solver.
Qed.

Lemma ListOutboundServiceIdentities_Ret src l id :
  sa_dotless src → ListOutboundServiceIdentities mc (ToServiceIdentity src) = Ret l →
  id ∈ l ↔ ∃ dst, id = ToServiceIdentity dst ∧ allowed src dst.
Proof.
  intros Hsrc. unfold ListOutboundServiceIdentities, getAllowedDirectionalServiceAccounts.
  rewrite ToK8s_dotless by done. simpl. intros [= <-].
  rewrite list_elem_of_fmap. setoid_rewrite elem_of_range_set.
  setoid_rewrite elem_of_list_to_set. setoid_rewrite list_elem_of_bind.
  setoid_rewrite allowedByTarget_outbound. unfold allowed. naive_solver.
Qed.

Lemma identities_return id dir :
  returns (getAllowedDirectionalServiceAccounts mc id dir) ↔ returns (ToK8sServiceAccount id).
Proof.
  unfold getAllowedDirectionalServiceAccounts, returns.
  destruct (ToK8sServiceAccount id); simpl; naive_solver.
Qed.

(** The subjects of the mesh's TrafficTargets have dot-free names. *)
Definition subjects_dotless : Prop :=
  ∀ t, t ∈ targets →
    Forall (λ s, sa_dotless (trafficTargetIdentityToSvcAccount s)) (tt_Destination t :: tt_Sources t).

Lemma allowed_dotless src dst : subjects_dotless → allowed src dst → sa_dotless src ∧ sa_dotless dst.
Proof.
  intros Hdot (t & Ht & _ & <- & s & Hs & _ & <-).
  apply Hdot, Forall_cons in Ht as [Hd Hss]. rewrite Forall_forall in Hss. auto.
Qed.

(** The two views of the access policy agree: both calls return, and a
    workload is among the allowed clients of a service account exactly when the
    service account is among the destinations the workload is allowed to reach. *)
Theorem inbound_outbound_agree (src dst : K8sServiceAccount) :
  subjects_dotless → sa_dotless src → sa_dotless dst →
  ∃ li lo, ListInboundServiceIdentities mc (ToServiceIdentity dst) = Ret li ∧
    ListOutboundServiceIdentities mc (ToServiceIdentity src) = Ret lo ∧
    (ToServiceIdentity src ∈ li ↔ ToServiceIdentity dst ∈ lo) ∧
    (ToServiceIdentity src ∈ li ↔ allowed src dst).
Proof.
  intros Hdot Hsrc Hdst.
  destruct (identities_return (ToServiceIdentity dst) inbound) as [_ [li Hli]];
    [eexists; by apply ToK8s_dotless|].
  destruct (identities_return (ToServiceIdentity src) outbound) as [_ [lo Hlo]];
    [eexists; by apply ToK8s_dotless|].
  exists li, lo. split_and!; [done..| |].
  - rewrite (ListInboundServiceIdentities_Ret dst li), (ListOutboundServiceIdentities_Ret src lo) by done.
    split.
    + intros (src' & E & Ha). destruct (allowed_dotless _ _ Hdot Ha).
      apply ToServiceIdentity_inj in E as <-; [|done..]. by exists dst.
    + intros (dst' & E & Ha). destruct (allowed_dotless _ _ Hdot Ha).
      apply ToServiceIdentity_inj in E as <-; [|done..]. by exists src.
  - rewrite (ListInboundServiceIdentities_Ret dst li) by done. split; [|intros; by exists src].
    intros (src' & E & Ha). destruct (allowed_dotless _ _ Hdot Ha).
    by apply ToServiceIdentity_inj in E as <-.
Qed.

(** *** Endpoints *)

Lemma endpointsByIP_lookup endpoints ip :
  default [] (endpointsByIP endpoints !! ip) = filter (λ ep, IP_String (ep_IP ep) = ip) endpoints.
Proof.
  unfold endpointsByIP. induction endpoints as [|ep endpoints IH] using rev_ind; [done|].
  rewrite foldl_app, filter_app, <-IH. simpl. rewrite filter_cons, filter_nil.
  case_decide as E; [subst ip; by rewrite lookup_insert_eq|].
  by rewrite lookup_insert_ne, app_nil_r.
Qed.

Lemma ListAllowedUpstream_smi src svc lo le l :
  cfg_IsPermissiveTrafficPolicyMode (mc_configurator mc) = false →
  ListOutboundServiceIdentities mc src = Ret lo →
  concatO (listEndpointsForServiceIdentity mc) lo = Ret le →
  ListAllowedUpstreamEndpointsForService mc src svc = Ret l →
  ∀ e, e ∈ l ↔ e ∈ listEndpointsForService mc svc ∧
    ∃ e', e' ∈ le ∧ IP_String (ep_IP e') = IP_String (ep_IP e).
Proof.
  intros Hperm Hlo Hle. unfold ListAllowedUpstreamEndpointsForService. rewrite Hperm.
  case_decide as Hnil; [intros [= <-] e; rewrite Hnil; set_solver|].
  rewrite Hlo. simpl. rewrite Hle. simpl. intros [= <-] e.
  rewrite list_elem_of_bind. setoid_rewrite endpointsByIP_lookup.
  setoid_rewrite list_elem_of_filter. naive_solver.
Qed.

(** In SMI mode a client gets exactly those endpoints of a service whose
    address is also the address of an endpoint of an identity that some
    TrafficTarget allows the client to reach; in permissive mode it gets all of
    them.  In either mode it gets no endpoint the service does not have. *)
Theorem ListAllowedUpstreamEndpoints_spec (src : K8sServiceAccount) (svc : MeshService)
    (l : list Endpoint) :
  sa_dotless src →
  ListAllowedUpstreamEndpointsForService mc (ToServiceIdentity src) svc = Ret l →
  ∀ e, e ∈ l ↔ e ∈ listEndpointsForService mc svc ∧
    (cfg_IsPermissiveTrafficPolicyMode (mc_configurator mc) = true ∨
     ∃ dst les e', allowed src dst ∧
       listEndpointsForServiceIdentity mc (ToServiceIdentity dst) = Ret les ∧
       e' ∈ les ∧ IP_String (ep_IP e') = IP_String (ep_IP e)).
Proof.
  intros Hsrc Hl e. destruct (cfg_IsPermissiveTrafficPolicyMode (mc_configurator mc)) eqn:Hperm.
  { unfold ListAllowedUpstreamEndpointsForService in Hl. rewrite Hperm in Hl.
    case_decide as Hnil; simplify_eq; [rewrite Hnil|]; set_solver. }
  destruct (decide (listEndpointsForService mc svc = [])) as [Hnil|Hne].
  { unfold ListAllowedUpstreamEndpointsForService in Hl. rewrite decide_True in Hl by done.
    simplify_eq. rewrite Hnil. set_solver. }
  pose proof Hl as Hl'. unfold ListAllowedUpstreamEndpointsForService in Hl'.
  rewrite decide_False, Hperm in Hl' by done. apply bind_Ret in Hl' as (lo & Hlo & Hl').
  apply bind_Ret in Hl' as (le & Hle & _).
  rewrite (ListAllowedUpstream_smi _ _ _ _ _ Hperm Hlo Hle Hl).
  setoid_rewrite (elem_of_concatO _ _ _ _ Hle).
  setoid_rewrite (ListOutboundServiceIdentities_Ret src lo _ Hsrc Hlo). naive_solver.
Qed.

(** *** Services *)

Lemma ListOutboundServices_smi src l :
  sa_dotless src → cfg_IsPermissiveTrafficPolicyMode (mc_configurator mc) = false →
  ListOutboundServicesForIdentity mc (ToServiceIdentity src) = Ret l →
  NoDup l ∧ ∀ ms, ms ∈ l ↔ ∃ t s services, t ∈ targets ∧ s ∈ tt_Sources t ∧
    trafficTargetIdentityToSvcAccount s = src ∧
    getServicesForServiceIdentity mc
      (ToServiceIdentity (trafficTargetIdentityToSvcAccount (tt_Destination t))) = Ret services ∧
    ms ∈ services.
Proof.
  intros Hsrc Hperm. unfold ListOutboundServicesForIdentity.
  rewrite Hperm, ToK8s_dotless by done. simpl. intros (services & Hs & [= <-])%bind_Ret.
  split; [apply unique_NoDup|]. intros ms. rewrite elem_of_unique, (elem_of_concatO _ _ _ _ Hs).
  unfold servicesOfTarget. split.
  - intros (t & ys & Ht & Hys & Hms). case_decide as Hex; [|simplify_eq; set_solver].
    apply Exists_exists in Hex as (s & Hs' & Hacc). apply subject_account in Hacc. eauto 10.
  - intros (t & s & ys & Ht & Hs' & Hacc & Hys & Hms). exists t, ys. split_and!; [done| |done].
    rewrite decide_True; [done|]. apply Exists_exists. exists s. by rewrite <-subject_account.
Qed.

(** In SMI mode the services a client may reach are duplicate-free, and every
    one of them belongs to the destination of a TrafficTarget that has the client
    among its sources; when all subjects are service accounts, that is a
    destination the client is allowed to reach, and all their services are listed. *)
Theorem ListOutboundServicesForIdentity_spec (src : K8sServiceAccount) (l : list MeshService) :
  sa_dotless src → cfg_IsPermissiveTrafficPolicyMode (mc_configurator mc) = false →
  (∀ t s, t ∈ targets → s ∈ tt_Destination t :: tt_Sources t → ibsub_Kind s = ServiceAccountKind) →
  ListOutboundServicesForIdentity mc (ToServiceIdentity src) = Ret l →
  NoDup l ∧ ∀ ms, ms ∈ l ↔ ∃ dst services, allowed src dst ∧
    getServicesForServiceIdentity mc (ToServiceIdentity dst) = Ret services ∧ ms ∈ services.
Proof.
  intros Hsrc Hperm Hkind Hl. destruct (ListOutboundServices_smi src l) as [Hnd Hms]; [done..|].
  split; [done|]. intros ms. rewrite Hms. split.
  - intros (t & s & services & Ht & Hs & Hacc & ? & ?). eexists _, services. split_and!; [|done..].
    exists t. split; [done|]. split_and!; [|done|].
    + apply (Hkind t); [done|by left].
    + exists s. split_and!; [done| |done]. apply (Hkind t); [done|by right].
  - intros (dst & services & (t & Ht & _ & <- & s & Hs & _ & Hacc) & ? & ?). by exists t, s, services.
Qed.

(** *** TCP routes *)

Lemma tcpRouteMatches_Ok ns rules matches :
  tcpRouteMatches mc ns rules = Ok matches ↔
  Forall2 (λ rule m, ∃ r, spec_GetTCPRoute (mc_meshSpec mc) (ns +:+ "/" +:+ ttrule_Name rule) = Some r ∧
             m = {| trm_Ports := uint16 <$> tcpr_Ports r |})
    (filter (λ rule, ttrule_Kind rule = TCPRouteKind) rules) matches.
Proof.
  revert matches. induction rules as [|rule rules IH]; intros matches; simpl.
  { split; [intros [= <-]; constructor|]. by inversion 1. }
  rewrite filter_cons. case_decide as Hk; [|apply IH].
  destruct (spec_GetTCPRoute _ _) as [r|] eqn:Hr.
  - destruct (tcpRouteMatches mc ns rules) as [ms|e].
    + split; [intros [= <-]; constructor; [by exists r|by apply IH]|].
      inversion 1 as [|? m ? ms' (r' & Hr' & ->) Hms]; simplify_eq.
      apply IH in Hms. by simplify_eq.
    + split; [done|]. inversion 1 as [|? m ? ms' _ Hms]; simplify_eq. by apply IH in Hms.
  - split; [done|]. inversion 1 as [|? m ? ms' (r' & Hr' & ->) Hms]; simplify_eq.
Qed.
End catalog_theorems.
