(* ===== verification/CatalogEgress.v ===== *)
(** * pkg/catalog: egress policies and egress gateways

    egress.go and egress_gateway.go: the traffic matches, HTTP route
    configurations and clusters that let a workload reach destinations outside
    the mesh, and the gateways they are forwarded to. *)

From S2P Require Import Prelude GoStrings Net Identity Service PolicyApi TrafficPolicy K8s.
From S2P Require Import K8sClient KubeProvider Smi PolicyClient Catalog.

Definition upstreamTrafficSettingKind : string := "UpstreamTrafficSetting".

(** [smiSpecs.SchemeGroupVersion.String()]. *)
Definition smiSpecsSchemeGroupVersion : string := "specs.smi-spec.io/v1alpha4".

Definition EgressGatewayModeAnnotation : string := "openservicemesh.io/egress-gateway-mode".
Definition EgressGatewayModeHTTP2Tunnel : string := "http2tunnel".
Definition EgressGatewayModeSock5 : string := "sock5".

(** ** Egress gateway types (trafficpolicy/egress_gateway_types.go) *)

Record EgressGatewayConfig := mkEgressGatewayConfig {
  egc_Service : string;
  egc_Namespace : string;
  egc_Mode : string;
  egc_Weight : option Z;
  egc_Endpoints : list Endpoint;
}.

Record EgressPolicyConfig := mkEgressPolicyConfig {
  epc_Name : string;
  epc_Namespace : string;
}.

Record EgressGatewayRule := mkEgressGatewayRule {
  egr_Name : string;
  egr_Namespace : string;
  egr_EgressPolicies : list EgressPolicyConfig;
  egr_EgressGateways : list EgressGatewayConfig;
}.

(** [Global] is compared with nil by its readers. *)
Record EgressGatewayPolicy := mkEgressGatewayPolicy {
  egp_Global : list EgressGatewayConfig;
  egp_Rules : list EgressGatewayRule;
}.

(** ** Route matches of an HTTP route group *)

(** When pathRegex or methods are not given they are wildcarded. *)
Definition routeMatchOf (m : HTTPMatch) : HTTPRouteMatch := {|
  hrm_Path := if bool_decide (hm_PathRegex m = "") then RegexMatchAll else hm_PathRegex m;
  hrm_PathMatchType := PathMatchRegex;
  hrm_Methods := match elems (hm_Methods m) with
                 | [] => Some [WildcardHTTPMethod]
                 | _ => hm_Methods m
                 end;
  hrm_Headers := hm_Headers m;
|}.

Definition getHTTPRouteMatchesFromHTTPRouteGroup (httpRouteGroup : HTTPRouteGroup) :
    list HTTPRouteMatch :=
  routeMatchOf <$> elems (hrg_Matches httpRouteGroup).

Section egress.
Context `{RangeOrder} (mc : MeshCatalog).
(** [hashstructure.Hash] on the two types. *)
Context (hashMatch : TrafficMatch → result string Z) (hashCluster : EgressClusterConfig → result string Z).

Definition getEgressSourceMTLS (egressPolicy : Egress) (source : K8sServiceAccount) :
    option EgressSourceMTLSSpec :=
  match filter (λ s, es_Name s = sa_Name source ∧ es_Namespace s = sa_Namespace source)
          (egs_Sources (eg_Spec egressPolicy)) with
  | s :: _ => es_MTLS s
  | [] => None
  end.

(** The error for a missing setting carries its name. *)
Definition getUpstreamTrafficSettingForEgress (egressPolicy : Egress) :
    outcome (result string (option UpstreamTrafficSetting)) :=
  match filter (λ m, ref_APIGroup m = Some policySchemeGroupVersion ∧
                     ref_Kind m = upstreamTrafficSettingKind)
          (egs_Matches (eg_Spec egressPolicy)) with
  | [] => Ret (Ok None)
  | m :: _ =>
    let namespacedName := mkNamespacedName (om_Namespace (eg_Meta egressPolicy)) (ref_Name m) in
    uts ← pol_GetUpstreamTrafficSetting (mc_policyController mc) (by_name namespacedName);
    Ret match uts with
        | None => Err (NamespacedName_String namespacedName)
        | Some uts => Ok (Some uts)
        end
  end.

(** Whether the reference is to an HTTP route group. *)
Definition is_HTTPRouteGroup_ref (m : TypedLocalObjectReference) : Prop :=
  ref_APIGroup m = Some smiSpecsSchemeGroupVersion ∧ ref_Kind m = HTTPRouteGroupKind.

#[global] Instance is_HTTPRouteGroup_ref_dec m : Decision (is_HTTPRouteGroup_ref m).
Proof. unfold is_HTTPRouteGroup_ref. apply _. Defined.

(** The IP ranges that parse, each once. *)
Definition allowedIPRanges (ranges : list string) : list string :=
  unique (filter (λ r, is_Some (ParseCIDR r)) ranges).

Definition egressRouteMatches (egressPolicy : Egress) : list HTTPRouteMatch :=
  let refs := filter is_HTTPRouteGroup_ref (egs_Matches (eg_Spec egressPolicy)) in
  match refs with
  | [] => [WildCardRouteMatch]
  | _ =>
    m ← refs;
    match spec_GetHTTPRouteGroup (mc_meshSpec mc)
            (om_Namespace (eg_Meta egressPolicy) +:+ "/" +:+ ref_Name m) with
    | None => []
    | Some httpRouteGroup => getHTTPRouteMatchesFromHTTPRouteGroup httpRouteGroup
    end
  end.

Definition hostWithPort (host : string) (port : Z) : string := host +:+ ":" +:+ itoa port.

Definition egressClusterConfig (port : Z) (uts : option UpstreamTrafficSetting)
    (sourceMTLS : option EgressSourceMTLSSpec) (host : string) : EgressClusterConfig := {|
  ecc_Name := hostWithPort host port;
  ecc_Host := host;
  ecc_Port := port;
  ecc_UpstreamTrafficSetting := uts;
  ecc_SourceMTLS := sourceMTLS;
|}.

Definition egressRouteConfig (matches : list HTTPRouteMatch) (ranges : list string) (port : Z)
    (host : string) : EgressHTTPRouteConfig := {|
  ehc_Name := host;
  ehc_Hostnames := [host; hostWithPort host port];
  ehc_RoutingRules :=
    (λ m, {| ehr_Route := {|
               rwc_HTTPRouteMatch := m;
               rwc_WeightedClusters := {[mkWeightedCluster (hostWithPort host port) ClusterWeightAcceptAll]};
               rwc_RetryPolicy := None;
               rwc_RateLimit := None |};
             ehr_AllowedDestinationIPRanges := ranges |}) <$> matches;
|}.

Definition buildHTTPRouteConfigs (egressPolicy : Egress) (port : Z)
    (uts : option UpstreamTrafficSetting) (sourceMTLS : option EgressSourceMTLSSpec) :
    list EgressHTTPRouteConfig * list EgressClusterConfig :=
  let spec := eg_Spec egressPolicy in
  (egressRouteConfig (egressRouteMatches egressPolicy) (allowedIPRanges (egs_IPAddresses spec)) port
     <$> egs_Hosts spec,
   egressClusterConfig port uts sourceMTLS <$> egs_Hosts spec).

(** ** Gateways *)

(** The name of the rule of the [index]-th gateway that covers the policy. *)
Fixpoint gatewayRuleName (index : nat) (egressPolicy : Egress) (gateways : list EgressGateway) :
    option string :=
  match gateways with
  | [] => None
  | g :: gateways =>
    let covers e := equal_fold (ebs_Namespace e) (om_Namespace (eg_Meta egressPolicy)) &&
                    equal_fold (ebs_Name e) (om_Name (eg_Meta egressPolicy)) in
    if existsb (λ rule, existsb covers (epgr_EgressPolicies rule))
         (elems (egws_EgressPolicyGatewayRules (egw_Spec g)))
    then Some (om_Namespace (egw_Meta g) +:+ "." +:+ om_Name (egw_Meta g) +:+ "." +:+ itoa (Z.of_nat index))
    else gatewayRuleName (S index) egressPolicy gateways
  end.

Definition getGatewayForEgress (egressPolicy : Egress) : option string :=
  let gateways := pol_ListEgressGateways (mc_policyController mc) in
  match gatewayRuleName 0 egressPolicy gateways with
  | Some name => Some name
  | None =>
    if existsb (λ g, bool_decide (egws_GlobalEgressGateways (egw_Spec g) ≠ None)) gateways
    then Some "*" else None
  end.

Definition gatewayMode (svc : K8sService) : string :=
  match svc_Annotations svc !! EgressGatewayModeAnnotation with
  | None => EgressGatewayModeHTTP2Tunnel
  | Some mode =>
    if decide (mode = EgressGatewayModeHTTP2Tunnel ∨ mode = EgressGatewayModeSock5) then mode
    else EgressGatewayModeHTTP2Tunnel
  end.

(** The configuration of a gateway whose service exists. *)
Definition gatewayConfig (g : GatewayBindingSubject) : list EgressGatewayConfig :=
  let meshSvc := mkMeshService (gbs_Namespace g) (gbs_Service g) 0 0 "" "" in
  match ctl_GetService (mc_kubeController mc) meshSvc with
  | None => []
  | Some svc => [{|
      egc_Service := gbs_Service g;
      egc_Namespace := gbs_Namespace g;
      egc_Mode := gatewayMode svc;
      egc_Weight := gbs_Weight g;
      egc_Endpoints := listEndpointsForService mc meshSvc |}]
  end.

Definition GetEgressGatewayPolicy : option EgressGatewayPolicy :=
  match pol_ListEgressGateways (mc_policyController mc) with
  | [] => None
  | gateways => Some {|
      egp_Global :=
        g ← gateways; subject ← elems (egws_GlobalEgressGateways (egw_Spec g)); gatewayConfig subject;
      egp_Rules :=
        g ← gateways;
        (λ rule, {|
           egr_Name := om_Name (egw_Meta g);
           egr_Namespace := om_Namespace (egw_Meta g);
           egr_EgressPolicies :=
             (λ e, mkEgressPolicyConfig (ebs_Name e) (ebs_Namespace e)) <$> epgr_EgressPolicies rule;
           egr_EgressGateways := epgr_EgressGateways rule ≫= gatewayConfig |})
          <$> elems (egws_EgressPolicyGatewayRules (egw_Spec g)) |}
  end.

(** ** The egress policy of an identity *)

(** What the loop accumulates. *)
Record EgressAcc := mkEgressAcc {
  ea_matches : list TrafficMatch;
  ea_clusters : list EgressClusterConfig;
  ea_routes : gmap Z (list EgressHTTPRouteConfig);
}.

Definition egressMatch (port : PortSpec) (ranges servers : list string) (cluster : string)
    (gateway : option string) : TrafficMatch := {|
  tm_DestinationPort := port_Number port;
  tm_DestinationProtocol := port_Protocol port;
  tm_DestinationIPRanges := ranges;
  tm_ServerNames := servers;
  tm_Cluster := cluster;
  tm_Name := GetEgressTrafficMatchName (port_Number port) (port_Protocol port);
  tm_WeightedClusters := [];
  tm_RateLimit := None;
  tm_EgressGateWay := gateway;
|}.

(** One port of an egress policy. *)
Definition egressPort (egress : Egress) (uts : option UpstreamTrafficSetting)
    (gateway : option string) (sourceMTLS : option EgressSourceMTLSSpec)
    (acc : EgressAcc) (port : PortSpec) : EgressAcc :=
  let n := port_Number port in
  let spec := eg_Spec egress in
  let protocol := to_lower (port_Protocol port) in
  let stream_cluster := {|
    ecc_Name := itoa n; ecc_Host := ""; ecc_Port := n;
    ecc_UpstreamTrafficSetting := uts; ecc_SourceMTLS := sourceMTLS |} in
  if decide (protocol = ProtocolHTTP) then
    let '(routes, clusters) := buildHTTPRouteConfigs egress n uts sourceMTLS in
    {| ea_matches := ea_matches acc ++ [egressMatch port [] [] "" gateway];
       ea_clusters := ea_clusters acc ++ clusters;
       ea_routes := <[n := default [] (ea_routes acc !! n) ++ routes]> (ea_routes acc) |}
  else if decide (protocol = ProtocolTCP ∨ protocol = ProtocolTCPServerFirst) then
    {| ea_matches := ea_matches acc ++ [egressMatch port (egs_IPAddresses spec) [] (itoa n) gateway];
       ea_clusters := ea_clusters acc ++ [stream_cluster];
       ea_routes := ea_routes acc |}
  else if decide (protocol = ProtocolHTTPS) then
    {| ea_matches := ea_matches acc ++
         [egressMatch port (egs_IPAddresses spec) (egs_Hosts spec) (itoa n) gateway];
       ea_clusters := ea_clusters acc ++ [stream_cluster];
       ea_routes := ea_routes acc |}
  else acc.

Definition egressStep (source : K8sServiceAccount) (acc : EgressAcc) (egress : Egress) :
    outcome EgressAcc :=
  setting ← getUpstreamTrafficSettingForEgress egress;
  Ret match setting with
      | Err _ => acc
      | Ok uts =>
        foldl (egressPort egress uts (getGatewayForEgress egress) (getEgressSourceMTLS egress source))
          acc (egs_Ports (eg_Spec egress))
      end.

(** [Ok None]: egress policies are not enabled. *)
Definition GetEgressTrafficPolicy (serviceIdentity : ServiceIdentity) :
    outcome (result string (option EgressTrafficPolicy)) :=
  if cfg_EnableEgressPolicy (mc_configurator mc) then
    source ← ToK8sServiceAccount serviceIdentity;
    acc ← foldO (egressStep source) (mkEgressAcc [] [] ∅)
            (pol_ListEgressPoliciesForSourceIdentity (mc_policyController mc) source);
    Ret match DeduplicateTrafficMatches hashMatch (ea_matches acc) with
        | Err e => Err e
        | Ok matches =>
          match DeduplicateClusterConfigs hashCluster (ea_clusters acc) with
          | Err e => Err e
          | Ok clusters => Ok (Some {|
              etp_TrafficMatches := matches;
              etp_HTTPRouteConfigsPerPort := ea_routes acc;
              etp_ClustersConfigs := clusters |})
          end
        end
  else Ret (Ok None).
End egress.

(** ** Theorems *)

Section egress_theorems.
Context `{RangeOrder} (mc : MeshCatalog).

(** Every cluster that the matches and routes name is configured, the cluster of a match
    without a host; every port with routes is matched as HTTP; and an HTTP match has routes
    on its port, another one a cluster. *)
Record egress_ok (matches : list TrafficMatch) (clusters : list EgressClusterConfig)
    (routes : gmap Z (list EgressHTTPRouteConfig)) : Prop := {
  eok_match : ∀ m, m ∈ matches → tm_Cluster m ≠ "" →
    ∃ c, c ∈ clusters ∧ ecc_Name c = tm_Cluster m ∧ ecc_Port c = tm_DestinationPort m ∧ ecc_Host c = "";
  eok_route : ∀ n cfgs cfg rule wc, routes !! n = Some cfgs → cfg ∈ cfgs →
    rule ∈ ehc_RoutingRules cfg → wc ∈ rwc_WeightedClusters (ehr_Route rule) →
    (∃ c, c ∈ clusters ∧ ecc_Name c = wc_ClusterName wc ∧ ecc_Port c = n ∧ ecc_Host c = ehc_Name cfg) ∧
    Forall (λ r, is_Some (ParseCIDR r)) (ehr_AllowedDestinationIPRanges rule);
  eok_port : ∀ n, is_Some (routes !! n) →
    ∃ m, m ∈ matches ∧ tm_DestinationPort m = n ∧ to_lower (tm_DestinationProtocol m) = ProtocolHTTP;
  eok_kind : ∀ m, m ∈ matches →
    if decide (to_lower (tm_DestinationProtocol m) = ProtocolHTTP) then is_Some (routes !! tm_DestinationPort m)
    else tm_Cluster m ≠ "";
}.

Definition acc_ok (acc : EgressAcc) : Prop :=
  egress_ok (ea_matches acc) (ea_clusters acc) (ea_routes acc).

(** What the invariant says of one match. *)
Definition match_ok (clusters : list EgressClusterConfig) (routes : gmap Z (list EgressHTTPRouteConfig)) (m : TrafficMatch) : Prop :=
  (tm_Cluster m ≠ "" → ∃ c, c ∈ clusters ∧ ecc_Name c = tm_Cluster m ∧ ecc_Port c = tm_DestinationPort m ∧ ecc_Host c = "") ∧
  if decide (to_lower (tm_DestinationProtocol m) = ProtocolHTTP) then is_Some (routes !! tm_DestinationPort m)
  else tm_Cluster m ≠ "".

Lemma egress_ok_mono ms ms' cs cs' routes :
  ms ⊆ ms' → cs ⊆ cs' → (∀ m, m ∈ ms' → m ∈ ms ∨ match_ok cs' routes m) →
  egress_ok ms cs routes → egress_ok ms' cs' routes.
Proof.
  intros Hms Hcs Hnew [H1 H2 H3 H4]. split.
  - intros m Hm Hc. destruct (Hnew m Hm) as [Hin|[Hok _]]; [|by apply Hok].
    destruct (H1 m Hin Hc) as (c & ? & ?). exists c. split; [by apply Hcs|done].
  - intros n cfgs cfg rule wc ? ? ? ?. destruct (H2 n cfgs cfg rule wc) as [(c & ? & ?) ?]; [done..|].
    split; [|done]. exists c. split; [by apply Hcs|done].
  - intros n Hn. destruct (H3 n Hn) as (m & ? & ?). exists m. split; [by apply Hms|done].
  - intros m Hm. destruct (Hnew m Hm) as [Hin|[_ Hk]]; [by apply H4|done].
Qed.

Lemma allowedIPRanges_parse ranges : Forall (λ r, is_Some (ParseCIDR r)) (allowedIPRanges ranges).
Proof.
  apply Forall_forall. intros r. unfold allowedIPRanges.
  rewrite elem_of_unique, list_elem_of_filter. by intros [? _].
Qed.

(** The configuration of an HTTP port. *)
Lemma buildHTTPRouteConfigs_ok egress port uts mtls cfg rule wc :
  cfg ∈ (buildHTTPRouteConfigs mc egress port uts mtls).1 → rule ∈ ehc_RoutingRules cfg →
  wc ∈ rwc_WeightedClusters (ehr_Route rule) →
  (∃ c, c ∈ (buildHTTPRouteConfigs mc egress port uts mtls).2 ∧ ecc_Name c = wc_ClusterName wc ∧
     ecc_Port c = port ∧ ecc_Host c = ehc_Name cfg) ∧
  Forall (λ r, is_Some (ParseCIDR r)) (ehr_AllowedDestinationIPRanges rule).
Proof.
  unfold buildHTTPRouteConfigs. simpl. intros (host & -> & Hhost)%list_elem_of_fmap. simpl.
  intros (m & -> & _)%list_elem_of_fmap. simpl. intros ->%elem_of_singleton. simpl.
  split; [|apply allowedIPRanges_parse].
  exists (egressClusterConfig port uts mtls host). split_and!; try done.
  apply list_elem_of_fmap. by exists host.
Qed.

(** The match of a port that is not HTTP. *)
Lemma stream_match_ok port ranges servers gateway uts mtls cs routes :
  to_lower (port_Protocol port) ≠ ProtocolHTTP →
  match_ok (cs ++ [mkEgressClusterConfig (itoa (port_Number port)) "" (port_Number port) uts mtls]) routes
    (egressMatch port ranges servers (itoa (port_Number port)) gateway).
Proof.
  intros Hp. split.
  - intros _. eexists. rewrite elem_of_app. split; [right; by left|done].
  - cbn [egressMatch tm_DestinationProtocol tm_Cluster]. rewrite decide_False by done. apply itoa_ne.
Qed.

Lemma egressPort_ok egress uts gateway mtls acc port :
  acc_ok acc → acc_ok (egressPort mc egress uts gateway mtls acc port).
Proof.
  intros Hacc. unfold egressPort, acc_ok.
  case_decide as Hhttp; [|case_decide as Htcp; [|case_decide as Hhttps; [|done]]].
  - pose proof (buildHTTPRouteConfigs_ok egress (port_Number port) uts mtls) as Hbuild.
    destruct (buildHTTPRouteConfigs mc egress (port_Number port) uts mtls) as [routes clusters].
    simpl in *. destruct Hacc as [H1 H2 H3 H4]. split.
    + intros m [Hm| ->%list_elem_of_singleton]%elem_of_app Hc; [|done].
      destruct (H1 m Hm Hc) as (c & ? & ?). exists c. rewrite elem_of_app. auto.
    + intros n cfgs cfg rule wc Hn Hcfg Hrule Hwc.
      assert ((∃ old, ea_routes acc !! n = Some old ∧ cfg ∈ old) ∨ n = port_Number port ∧ cfg ∈ routes) as [(old & Hold & Hin)|[-> Hin]].
      { destruct (decide (n = port_Number port)) as [->|Hne]; [|rewrite lookup_insert_ne in Hn by done; eauto].
        rewrite lookup_insert_eq in Hn. simplify_eq. apply elem_of_app in Hcfg as [Hold|Hnew]; [|by right].
        destruct (ea_routes acc !! port_Number port) as [old|] eqn:Hlk; [eauto|set_solver]. }
      * destruct (H2 n old cfg rule wc) as [(c & ? & ?) ?]; [done..|]. split; [|done]. exists c. rewrite elem_of_app. auto.
      * destruct (Hbuild cfg rule wc) as [(c & ? & ?) ?]; [done..|]. split; [|done]. exists c. rewrite elem_of_app. auto.
    + intros n. destruct (decide (n = port_Number port)) as [->|Hne].
      * intros _. exists (egressMatch port [] [] "" gateway). split_and!; [set_solver|done..].
      * rewrite lookup_insert_ne by done. intros (m & ? & ?)%H3. exists m. rewrite elem_of_app. auto.
    + intros m [Hm| ->%list_elem_of_singleton]%elem_of_app.
      * specialize (H4 m Hm). case_decide; [|done]. by apply lookup_insert_is_Some'; right.
      * cbn [tm_DestinationProtocol egressMatch tm_DestinationPort]. rewrite decide_True by done. by rewrite lookup_insert_eq.
  - simpl. eapply egress_ok_mono; [..|exact Hacc]; [set_solver..|]. intros m. rewrite elem_of_app.
    intros [?| ->%list_elem_of_singleton]; [auto|]. right. by apply stream_match_ok.
  - simpl. eapply egress_ok_mono; [..|exact Hacc]; [set_solver..|]. intros m. rewrite elem_of_app.
    intros [?| ->%list_elem_of_singleton]; [auto|]. right. by apply stream_match_ok.
Qed.

Lemma egressStep_ok source acc egress acc' :
  acc_ok acc → egressStep mc source acc egress = Ret acc' → acc_ok acc'.
Proof.
  intros Hacc. unfold egressStep. intros ([uts|e] & _ & [= <-])%bind_Ret; [|done].
  apply foldl_inv; [intros; by apply egressPort_ok|done].
Qed.

Context (hashMatch : TrafficMatch → result string Z) (hashCluster : EgressClusterConfig → result string Z).

(** Structures with one hash value have the fields the code looks up by. *)
Definition hash_faithful : Prop :=
  (∀ x y, hashCluster x = hashCluster y →
     ecc_Name x = ecc_Name y ∧ ecc_Port x = ecc_Port y ∧ ecc_Host x = ecc_Host y) ∧
  (∀ x y, hashMatch x = hashMatch y → tm_DestinationPort x = tm_DestinationPort y ∧
     tm_DestinationProtocol x = tm_DestinationProtocol y).

Lemma dedup_egress_ok ms cs routes ms' cs' :
  hash_faithful → dedup hashMatch ms = Ok ms' → dedup hashCluster cs = Ok cs' →
  egress_ok ms cs routes → egress_ok ms' cs' routes.
Proof.
  intros [Hc Hm] Hms Hcs [H1 H2 H3 H4].
  destruct (dedup_spec hashMatch ms) as [_ Hdm]. destruct (Hdm ms' Hms) as (_ & Hsub & Hrep).
  destruct (dedup_spec hashCluster cs) as [_ Hdc]. destruct (Hdc cs' Hcs) as (_ & _ & Hcrep).
  split.
  - intros m Hin Hcl. destruct (H1 m (Hsub m Hin) Hcl) as (c & Hc1 & Hn & Hp & Hho).
    destruct (Hcrep c Hc1) as (c' & Hc' & Hh). apply Hc in Hh as (E1 & E2 & E3).
    exists c'. split_and!; [done|congruence..].
  - intros n cfgs cfg rule wc ? ? ? ?.
    destruct (H2 n cfgs cfg rule wc) as [(c & Hc1 & Hn & Hp & Hh0) ?]; [done..|]. split; [|done].
    destruct (Hcrep c Hc1) as (c' & Hc' & Hh). apply Hc in Hh as (E1 & E2 & E3).
    exists c'. split_and!; [done|congruence..].
  - intros n Hn. destruct (H3 n Hn) as (m & Hin & Hp & Hpr).
    destruct (Hrep m Hin) as (m' & Hm' & Hh). apply Hm in Hh as (E1 & E2).
    exists m'. split_and!; [done|congruence..].
  - intros m Hin. apply H4. auto.
Qed.

(** Referential integrity of the egress policy of a workload: every cluster
    that a TCP or HTTPS match or an HTTP route sends to is configured for the
    port, HTTP routes carry only IP ranges that parse, and every port with HTTP
    routes has an HTTP traffic match. *)
Lemma GetEgressTrafficPolicy_integrity (id : ServiceIdentity) (p : EgressTrafficPolicy) :
  hash_faithful →
  GetEgressTrafficPolicy mc hashMatch hashCluster id = Ret (Ok (Some p)) →
  egress_ok (etp_TrafficMatches p) (etp_ClustersConfigs p) (etp_HTTPRouteConfigsPerPort p).
Proof.
  intros Hf. unfold GetEgressTrafficPolicy. destruct (cfg_EnableEgressPolicy _); [|done].
  intros (source & Hs & Hp)%bind_Ret. apply bind_Ret in Hp as (acc & Hacc & Hp).
  assert (acc_ok acc) as Hok.
  { eapply (foldO_inv _ acc_ok); [|split|done]; simpl; [|set_solver|done|by intros ? []|set_solver].
    intros b x b' _. apply egressStep_ok. }
  unfold DeduplicateTrafficMatches, DeduplicateClusterConfigs in Hp.
  destruct (dedup hashMatch _) as [ms|] eqn:Hms; [|done].
  destruct (dedup hashCluster _) as [cs|] eqn:Hcs; simplify_eq. simpl. by eapply dedup_egress_ok.
Qed.
End egress_theorems.
