(* ===== verification/CatalogInbound.v ===== *)
(** * pkg/catalog: inbound mesh traffic policies

    inbound_traffic_policies.go: from the services of a workload, the
    TrafficTargets that name its service account as destination and the
    TrafficSplits that route to its services, the traffic matches, HTTP routes
    with their allowed principals, and local clusters of the workload's sidecar. *)

From S2P Require Import Prelude GoStrings Net Identity Service PolicyApi TrafficPolicy K8s.
From S2P Require Import K8sClient KubeProvider Smi PolicyClient Catalog CatalogEgress.

Definition LocalhostIPAddress : string := "127.0.0.1".

Definition getTrafficSpecName (trafficSpecKind trafficSpecNamespace trafficSpecName : string) : string :=
  trafficSpecKind +:+ "/" +:+ trafficSpecNamespace +:+ "/" +:+ trafficSpecName.

Section inbound.
Context `{RangeOrder} (mc : MeshCatalog).
(** The variable [trustDomain] of pkg/k8s. *)
Context (k8sTrustDomain : string).

(** ** Routes of a TrafficTarget *)

Definition addMatch (m : gmap string HTTPRouteMatch) (trafficSpecsMatch : HTTPMatch) :
    gmap string HTTPRouteMatch :=
  <[hm_Name trafficSpecsMatch := routeMatchOf trafficSpecsMatch]> m.

(** map[traffic_spec_name]map[match_name]HTTPRouteMatch *)
Definition getHTTPPathsPerRoute : gmap string (gmap string HTTPRouteMatch) :=
  foldl (λ routePolicies trafficSpecs,
    match hrg_Matches trafficSpecs with
    | None => routePolicies
    | Some matches =>
      let specKey := getTrafficSpecName HTTPRouteGroupKind (hrg_Namespace trafficSpecs)
                       (hrg_Name trafficSpecs) in
      <[specKey := foldl addMatch ∅ matches]> routePolicies
    end) ∅ (spec_ListHTTPTrafficSpecs (mc_meshSpec mc)).

Definition routesFromRules (rules : list TrafficTargetRule) (trafficTargetNamespace : string) :
    list HTTPRouteMatch :=
  let specMatchRoute := getHTTPPathsPerRoute in
  if decide (specMatchRoute = ∅) then []
  else
    rule ← rules;
    match_ ← ttrule_Matches rule;
    let trafficSpecName := getTrafficSpecName HTTPRouteGroupKind trafficTargetNamespace (ttrule_Name rule) in
    match specMatchRoute !! trafficSpecName ≫= (.!! match_) with
    | Some matchedRoute => [matchedRoute]
    | None => []
    end.

Definition getRoutingRulesFromTrafficTarget (trafficTarget : TrafficTarget)
    (routingCluster : WeightedCluster) (uts : option UpstreamTrafficSetting) : list Rule :=
  let httpRouteMatches := routesFromRules (tt_Rules trafficTarget) (tt_Namespace trafficTarget) in
  let allowedDownstreamPrincipals : gset string := list_to_set
    ((λ source, sa_AsPrincipal (trafficTargetIdentityToSvcAccount source) (mc_GetTrustDomain mc))
       <$> tt_Sources trafficTarget) in
  (λ httpRouteMatch, {|
     rule_Route := NewRouteWeightedCluster httpRouteMatch [routingCluster] uts;
     rule_AllowedPrincipals := allowedDownstreamPrincipals |}) <$> httpRouteMatches.

(** ** The policy of a service *)

Definition localCluster (upstreamSvc : MeshService) : WeightedCluster := {|
  wc_ClusterName := SidecarLocalClusterName upstreamSvc;
  wc_Weight := ClusterWeightAcceptAll;
|}.

Definition with_rules (p : InboundTrafficPolicy) (rules : list Rule) : InboundTrafficPolicy := {|
  itp_Name := itp_Name p; itp_Hostnames := itp_Hostnames p;
  itp_Rules := rules; itp_RateLimit := itp_RateLimit p;
|}.

Definition buildInboundHTTPPolicyFromTrafficTarget (upstreamSvc : MeshService)
    (trafficTargets : list TrafficTarget) (uts : option UpstreamTrafficSetting) :
    InboundTrafficPolicy :=
  let hostnames := GetHostnamesForService k8sTrustDomain upstreamSvc true in
  let inboundPolicy := NewInboundTrafficPolicy (FQDN upstreamSvc) hostnames uts in
  with_rules inboundPolicy
    (foldl (λ routingRules trafficTarget,
       MergeRules routingRules
         (getRoutingRulesFromTrafficTarget trafficTarget (localCluster upstreamSvc) uts))
       [] trafficTargets).

Definition getInboundTrafficPoliciesForUpstream (upstreamSvc : MeshService) (permissiveMode : bool)
    (trafficTargets : list TrafficTarget) (uts : option UpstreamTrafficSetting) :
    InboundTrafficPolicy :=
  if permissiveMode then
    let hostnames := GetHostnamesForService k8sTrustDomain upstreamSvc true in
    with_rules (NewInboundTrafficPolicy (FQDN upstreamSvc) hostnames uts)
      [{| rule_Route := NewRouteWeightedCluster WildCardRouteMatch [localCluster upstreamSvc] uts;
          rule_AllowedPrincipals := {[WildcardPrincipal]} |}]
  else buildInboundHTTPPolicyFromTrafficTarget upstreamSvc trafficTargets uts.

(** ** Apex services *)

(** The service a split is for, as seen from a backend of it. *)
Definition apexMeshService (svc : MeshService) (split : TrafficSplit) : MeshService :=
  let svcName := GetServiceFromHostname (Some (mc_kubeController mc)) (ts_Service split) in
  let subdomain := GetSubdomainFromHostname (Some (mc_kubeController mc)) (ts_Service split) in
  {| ms_Namespace := ms_Namespace svc;
     ms_Name := if bool_decide (subdomain = "") then svcName else subdomain +:+ "." +:+ svcName;
     ms_Port := ms_Port svc;
     ms_TargetPort := ms_TargetPort svc;
     ms_Protocol := ms_Protocol svc;
     ms_ServiceImportUID := "" |}.

Definition getUpstreamServicesIncludeApex (upstreamServices : list MeshService) : list MeshService :=
  unique (upstreamServices ≫= λ svc,
    svc :: (apexMeshService svc <$>
              spec_ListTrafficSplits (mc_meshSpec mc) [WithTrafficSplitBackendService svc])).

(** ** The policy of an identity *)

Record InboundAcc := mkInboundAcc {
  ia_matches : list TrafficMatch;
  ia_clusters : list MeshClusterConfig;
  ia_routes : gmap Z (list InboundTrafficPolicy);
}.

Definition inboundCluster (svc : MeshService) : MeshClusterConfig := {|
  mcc_Name := SidecarLocalClusterName svc;
  mcc_Service := svc;
  mcc_Address := LocalhostIPAddress;
  mcc_Port := uint32 (ms_TargetPort svc);
  mcc_EnableSidecarActiveHealthChecks := false;
  mcc_UpstreamTrafficSetting := None;
|}.

Definition inboundMatch (svc : MeshService) (uts : option UpstreamTrafficSetting) : TrafficMatch := {|
  tm_DestinationPort := ms_TargetPort svc;
  tm_DestinationProtocol := ms_Protocol svc;
  tm_DestinationIPRanges := [];
  tm_ServerNames := [ServerName svc];
  tm_Cluster := SidecarLocalClusterName svc;
  tm_Name := InboundTrafficMatchName svc;
  tm_WeightedClusters := [];
  tm_RateLimit := uts ← uts; utss_RateLimit (uts_Spec uts);
  tm_EgressGateWay := None;
|}.

(** The protocols without HTTP routes. *)
Definition is_tcp (svc : MeshService) : bool :=
  bool_decide (ms_Protocol svc = ProtocolTCP) || bool_decide (ms_Protocol svc = ProtocolTCPServerFirst).

Definition inboundStep (upstreamSvcSet : gset MeshService) (permissiveMode : bool)
    (trafficTargets : list TrafficTarget) (acc : InboundAcc) (svc : MeshService) :
    outcome InboundAcc :=
  uts ← pol_GetUpstreamTrafficSetting (mc_policyController mc) (by_service svc);
  Ret {|
    ia_matches := ia_matches acc ++
      (if bool_decide (svc ∈ upstreamSvcSet) then [inboundMatch svc uts] else []);
    ia_clusters := ia_clusters acc ++ [inboundCluster svc];
    ia_routes :=
      if is_tcp svc then ia_routes acc
      else
        let port := ms_TargetPort svc in
        <[port := default [] (ia_routes acc !! port) ++
            [getInboundTrafficPoliciesForUpstream svc permissiveMode trafficTargets uts]]>
          (ia_routes acc) |}.

Definition GetInboundMeshTrafficPolicy (upstreamIdentity : ServiceIdentity)
    (upstreamServices : list MeshService) : outcome InboundMeshTrafficPolicy :=
  let permissiveMode := cfg_IsPermissiveTrafficPolicyMode (mc_configurator mc) in
  trafficTargets ←
    (if permissiveMode then Ret []
     else
       sa ← ToK8sServiceAccount upstreamIdentity;
       Ret (spec_ListTrafficTargets (mc_meshSpec mc) [WithTrafficTargetDestination sa]));
  acc ← foldO (inboundStep (list_to_set upstreamServices) permissiveMode trafficTargets)
          (mkInboundAcc [] [] ∅) (getUpstreamServicesIncludeApex upstreamServices);
  Ret {|
    imtp_TrafficMatches := ia_matches acc;
    imtp_HTTPRouteConfigsPerPort := ia_routes acc;
    imtp_ClustersConfigs := ia_clusters acc |}.
End inbound.

(** ** Theorems *)

(** Merging the rules of a list of sources. *)
Lemma foldl_MergeRules_permits {A} (f : A → list Rule) rules l route p :
  permits (foldl (λ rs x, MergeRules rs (f x)) rules l) route p ↔
  permits rules route p ∨ ∃ x, x ∈ l ∧ permits (f x) route p.
Proof.
  revert rules. induction l as [|x l IH]; intros rules; simpl; [set_solver|].
  rewrite IH, MergeRules_permits. setoid_rewrite elem_of_cons. naive_solver.
Qed.

Lemma foldl_MergeRules_routes {A} (f : A → list Rule) rules l route :
  (route ∈ rule_Route <$> foldl (λ rs x, MergeRules rs (f x)) rules l) ↔
  (route ∈ rule_Route <$> rules) ∨ ∃ x, x ∈ l ∧ route ∈ rule_Route <$> f x.
Proof.
  revert rules. induction l as [|x l IH]; intros rules; simpl; [set_solver|].
  rewrite IH, MergeRules_routes. setoid_rewrite elem_of_cons. naive_solver.
Qed.

Lemma foldl_MergeRules_NoDup {A} (f : A → list Rule) rules l :
  NoDup (rule_Route <$> rules) →
  NoDup (rule_Route <$> foldl (λ rs x, MergeRules rs (f x)) rules l).
Proof. revert rules. induction l; simpl; auto using MergeRules_NoDup. Qed.

#[global] Arguments is_tcp : simpl never.

(** [t] lets the sources it has use route [m] of the workloads of [sa]. *)
Definition authorises (mc : MeshCatalog) (sa : K8sServiceAccount) (t : TrafficTarget) (m : HTTPRouteMatch) : Prop :=
  t ∈ spec_ListTrafficTargets (mc_meshSpec mc) [] ∧
  ctl_IsMonitoredNamespace (mc_kubeController mc) (tt_Namespace t) = true ∧
  trafficTargetIdentityToSvcAccount (tt_Destination t) = sa ∧
  m ∈ routesFromRules mc (tt_Rules t) (tt_Namespace t).

Section inbound_theorems.
Context `{RangeOrder} (mc : MeshCatalog) (domain : string).

Lemma getRoutingRules_permits t wc uts route p :
  permits (getRoutingRulesFromTrafficTarget mc t wc uts) route p ↔
  ∃ m s, m ∈ routesFromRules mc (tt_Rules t) (tt_Namespace t) ∧ s ∈ tt_Sources t ∧
    route = NewRouteWeightedCluster m [wc] uts ∧
    p = sa_AsPrincipal (trafficTargetIdentityToSvcAccount s) (mc_GetTrustDomain mc).
Proof.
  unfold getRoutingRulesFromTrafficTarget, permits. setoid_rewrite list_elem_of_fmap. split.
  - intros (r & (m & -> & Hm) & <- & Hp). simpl in *.
    apply elem_of_list_to_set, list_elem_of_fmap in Hp as (s & -> & Hs). by exists m, s.
  - intros (m & s & Hm & Hs & -> & ->). eexists. split; [by exists m|]. split; [done|].
    simpl. apply elem_of_list_to_set, list_elem_of_fmap. by exists s.
Qed.

(** The rules built for a service have one rule per route, and let a principal
    use a route exactly when some TrafficTarget has it among its sources and the
    route among its rules. *)
Lemma buildInboundHTTPPolicy_authorised (svc : MeshService) (ts : list TrafficTarget)
    (uts : option UpstreamTrafficSetting) :
  let rules := itp_Rules (buildInboundHTTPPolicyFromTrafficTarget mc domain svc ts uts) in
  NoDup (rule_Route <$> rules) ∧
  ∀ route p, permits rules route p ↔
    ∃ t m s, t ∈ ts ∧ m ∈ routesFromRules mc (tt_Rules t) (tt_Namespace t) ∧ s ∈ tt_Sources t ∧
      route = NewRouteWeightedCluster m [localCluster svc] uts ∧
      p = sa_AsPrincipal (trafficTargetIdentityToSvcAccount s) (mc_GetTrustDomain mc).
Proof.
  simpl. split; [apply foldl_MergeRules_NoDup; constructor|]. intros route p.
  rewrite foldl_MergeRules_permits. setoid_rewrite getRoutingRules_permits.
  pose proof (permits_nil route p). naive_solver.
Qed.

(** What a rule of the policy of a service comes from. *)
Lemma buildInbound_rule svc ts uts d :
  d ∈ itp_Rules (buildInboundHTTPPolicyFromTrafficTarget mc domain svc ts uts) →
  ∃ m, rule_Route d = NewRouteWeightedCluster m [localCluster svc] uts ∧
    (∀ p, p ∈ rule_AllowedPrincipals d → ∃ t s, t ∈ ts ∧
       m ∈ routesFromRules mc (tt_Rules t) (tt_Namespace t) ∧ s ∈ tt_Sources t ∧
       p = sa_AsPrincipal (trafficTargetIdentityToSvcAccount s) (mc_GetTrustDomain mc)) ∧
    (rule_AllowedPrincipals d = ∅ → ∃ t, t ∈ ts ∧
       m ∈ routesFromRules mc (tt_Rules t) (tt_Namespace t) ∧ tt_Sources t = []).
Proof.
  intros Hd. destruct (buildInboundHTTPPolicy_authorised svc ts uts) as [Hnd Hp].
  set (rules := itp_Rules _) in *. assert (rule_Route d ∈ rule_Route <$> rules) as Hr.
  { apply list_elem_of_fmap. by exists d. }
  apply foldl_MergeRules_routes in Hr as [?|(t & Ht & Hr)]; [set_solver|].
  apply list_elem_of_fmap in Hr as (r & Er & (m & -> & Hm)%list_elem_of_fmap). simpl in Er.
  exists m. split_and!; [done| |].
  - intros p Hin. assert (permits rules (rule_Route d) p) as (t' & m' & s & ? & Hm' & ? & E & ->)%Hp by by exists d.
    rewrite Er in E. injection E as ->. by exists t', s.
  - intros Hempty. exists t. split_and!; [done..|]. destruct (tt_Sources t) as [|s l] eqn:Es; [done|].
    assert (permits rules (rule_Route d) (sa_AsPrincipal (trafficTargetIdentityToSvcAccount s)
      (mc_GetTrustDomain mc))) as (d' & Hd' & E & Hin).
    { apply Hp. exists t, m, s. rewrite Es. split_and!; [done..|by left|done|done]. }
    assert (d' = d) as -> by by apply (NoDup_fmap_key rule_Route rules).
    by rewrite Hempty in Hin.
Qed.

(** The TrafficTargets of a service account. *)
Lemma destination_targets `{!MeshSpecOk (mc_kubeController mc) (mc_meshSpec mc)} sa t :
  sa_Name sa ≠ "" →
  t ∈ spec_ListTrafficTargets (mc_meshSpec mc) [WithTrafficTargetDestination sa] ↔
  t ∈ spec_ListTrafficTargets (mc_meshSpec mc) [] ∧
  ctl_IsMonitoredNamespace (mc_kubeController mc) (tt_Namespace t) = true ∧
  trafficTargetIdentityToSvcAccount (tt_Destination t) = sa.
Proof.
  intros Hname. rewrite targets_filter, list_elem_of_filter, Is_true_true.
  rewrite (FilterTrafficTarget_destination t sa Hname), subject_account. split.
  - intros [? Ht]. destruct (targets_valid t Ht). naive_solver.
  - naive_solver.
Qed.

(** *** The loop over the services *)

Abbreviation setting svc := (pol_GetUpstreamTrafficSetting (mc_policyController mc) (by_service svc)).

Lemma inbound_fold set perm ts acc0 svcs acc :
  foldO (inboundStep mc domain set perm ts) acc0 svcs = Ret acc →
  ∃ utss, mapO (λ svc, setting svc) svcs = Ret utss ∧
    ia_clusters acc = ia_clusters acc0 ++ (inboundCluster <$> svcs) ∧
    ia_matches acc = ia_matches acc0 ++ (zip svcs utss ≫= λ su,
      if bool_decide (su.1 ∈ set) then [inboundMatch su.1 su.2] else []) ∧
    ∀ port, default [] (ia_routes acc !! port) = default [] (ia_routes acc0 !! port) ++
      (zip svcs utss ≫= λ su,
         if negb (is_tcp su.1) && bool_decide (ms_TargetPort su.1 = port)
         then [getInboundTrafficPoliciesForUpstream mc domain su.1 perm ts su.2] else []).
Proof.
  revert acc0. induction svcs as [|svc svcs IH]; intros acc0; simpl.
  { intros [= <-]. exists []. split_and!; [done|by rewrite app_nil_r..|].
    intros port. by rewrite app_nil_r. }
  intros (acc1 & Hstep & Hfold)%bind_Ret.
  apply bind_Ret in Hstep as (uts & Huts & [= <-]).
  apply IH in Hfold as (utss & Hutss & Hc & Hm & Hr). exists (uts :: utss).
  rewrite Huts, Hutss, Hc, Hm. csimpl. split_and!; [done|by rewrite <-(assoc_L (++))..|].
  intros port. rewrite Hr. csimpl. rewrite (assoc_L (++)). f_equal.
  destruct (is_tcp svc); simpl; [by rewrite app_nil_r|].
  destruct (decide (ms_TargetPort svc = port)) as [<-|Hne].
  - by rewrite lookup_insert_eq, bool_decide_true.
  - by rewrite lookup_insert_ne, bool_decide_false, app_nil_r.
Qed.

(** The TrafficTargets the policy of an identity is built from. *)
Definition targetsFor (id : ServiceIdentity) : outcome (list TrafficTarget) :=
  if cfg_IsPermissiveTrafficPolicyMode (mc_configurator mc) then Ret []
  else sa ← ToK8sServiceAccount id;
       Ret (spec_ListTrafficTargets (mc_meshSpec mc) [WithTrafficTargetDestination sa]).

Lemma GetInbound_closed id svcs pol :
  GetInboundMeshTrafficPolicy mc domain id svcs = Ret pol →
  let all := getUpstreamServicesIncludeApex mc svcs in
  ∃ ts utss, targetsFor id = Ret ts ∧ mapO (λ svc, setting svc) all = Ret utss ∧
    imtp_ClustersConfigs pol = inboundCluster <$> all ∧
    imtp_TrafficMatches pol = (zip all utss ≫= λ su,
      if bool_decide (su.1 ∈ (list_to_set svcs : gset MeshService)) then [inboundMatch su.1 su.2] else []) ∧
    ∀ port, default [] (imtp_HTTPRouteConfigsPerPort pol !! port) =
      zip all utss ≫= λ su,
         if negb (is_tcp su.1) && bool_decide (ms_TargetPort su.1 = port)
         then [getInboundTrafficPoliciesForUpstream mc domain su.1
                 (cfg_IsPermissiveTrafficPolicyMode (mc_configurator mc)) ts su.2] else [].
Proof.
  intros Hpol all. apply bind_Ret in Hpol as (ts & Hts & Hpol).
  apply bind_Ret in Hpol as (acc & Hfold & [= <-]). apply inbound_fold in Hfold as (utss & ? & ? & ? & Hr).
  exists ts, utss. by split_and!.
Qed.

(** The pairs of a service and its setting. *)
Lemma elem_of_zip_setting svcs utss su :
  mapO (λ svc, setting svc) svcs = Ret utss → su ∈ zip svcs utss →
  su.1 ∈ svcs ∧ setting su.1 = Ret su.2.
Proof.
  intros HF%mapO_Forall2. induction HF as [|svc uts svcs utss Hs HF IH]; simpl; [set_solver|].
  intros [->|Hin]%elem_of_cons; simpl; [set_solver|]. destruct (IH Hin). set_solver.
Qed.

Lemma elem_of_zip_setting_2 svcs utss svc :
  mapO (λ svc, setting svc) svcs = Ret utss → svc ∈ svcs →
  ∃ uts, (svc, uts) ∈ zip svcs utss ∧ setting svc = Ret uts.
Proof.
  intros HF%mapO_Forall2. induction HF as [|svc' uts svcs utss Hs HF IH]; simpl; [set_solver|].
  intros [->|Hin]%elem_of_cons; [exists uts; set_solver|].
  destruct (IH Hin) as (uts' & ? & ?). exists uts'. set_solver.
Qed.

Lemma inbound_routes_inv id svcs pol port itps itp :
  GetInboundMeshTrafficPolicy mc domain id svcs = Ret pol →
  imtp_HTTPRouteConfigsPerPort pol !! port = Some itps → itp ∈ itps →
  ∃ ts svc uts, targetsFor id = Ret ts ∧ svc ∈ getUpstreamServicesIncludeApex mc svcs ∧
    setting svc = Ret uts ∧ is_tcp svc = false ∧ ms_TargetPort svc = port ∧
    itp = getInboundTrafficPoliciesForUpstream mc domain svc
            (cfg_IsPermissiveTrafficPolicyMode (mc_configurator mc)) ts uts.
Proof.
  intros Hpol Hport Hitp. apply GetInbound_closed in Hpol as (ts & utss & Hts & Hutss & _ & _ & Hr).
  specialize (Hr port). rewrite Hport in Hr. simpl in Hr. rewrite Hr in Hitp.
  apply list_elem_of_bind in Hitp as (su & Hitp & Hsu).
  destruct (elem_of_zip_setting _ _ _ Hutss Hsu) as [? ?].
  destruct (is_tcp su.1) eqn:Htcp; simpl in Hitp; [set_solver|]. case_bool_decide; [|set_solver].
  apply list_elem_of_singleton in Hitp as ->. by exists ts, su.1, su.2.
Qed.

(** Every HTTP service of the workload has its policy, on its target port. *)
Lemma inbound_routes_intro id svcs pol svc :
  GetInboundMeshTrafficPolicy mc domain id svcs = Ret pol → svc ∈ getUpstreamServicesIncludeApex mc svcs → is_tcp svc = false →
  ∃ ts uts itps, targetsFor id = Ret ts ∧ imtp_HTTPRouteConfigsPerPort pol !! ms_TargetPort svc = Some itps ∧
    getInboundTrafficPoliciesForUpstream mc domain svc (cfg_IsPermissiveTrafficPolicyMode (mc_configurator mc)) ts uts ∈ itps.
Proof.
  intros Hpol Hsvc Htcp. apply GetInbound_closed in Hpol as (ts & utss & Hts & Hutss & _ & _ & Hr).
  destruct (elem_of_zip_setting_2 _ _ _ Hutss Hsvc) as (uts & Hz & _). specialize (Hr (ms_TargetPort svc)).
  assert (getInboundTrafficPoliciesForUpstream mc domain svc (cfg_IsPermissiveTrafficPolicyMode (mc_configurator mc)) ts uts ∈
    default [] (imtp_HTTPRouteConfigsPerPort pol !! ms_TargetPort svc)) as Hin.
  { rewrite Hr. apply list_elem_of_bind. exists (svc, uts). simpl. rewrite Htcp, bool_decide_true by done. split; [by left|done]. }
  destruct (imtp_HTTPRouteConfigsPerPort pol !! ms_TargetPort svc) as [itps|]; [by exists ts, uts, itps|by apply elem_of_nil in Hin].
Qed.

Lemma elem_of_includeApex svcs svc :
  svc ∈ getUpstreamServicesIncludeApex mc svcs ↔
  ∃ svc0, svc0 ∈ svcs ∧ (svc = svc0 ∨ ∃ split,
    split ∈ spec_ListTrafficSplits (mc_meshSpec mc) [WithTrafficSplitBackendService svc0] ∧
    svc = apexMeshService mc svc0 split).
Proof.
  unfold getUpstreamServicesIncludeApex. rewrite elem_of_unique, list_elem_of_bind.
  setoid_rewrite elem_of_cons. setoid_rewrite list_elem_of_fmap. naive_solver.
Qed.

(** C3. Zero trust on the inbound side: in SMI mode, whatever port and host a rule
    of a workload's policy is for, the principals it admits are exactly the
    sources of TrafficTargets of monitored namespaces that name the workload's
    own service account as destination and select the route. *)
Theorem GetInboundMeshTrafficPolicy_authorised `{!MeshSpecOk (mc_kubeController mc) (mc_meshSpec mc)}
    (sa : K8sServiceAccount) (svcs : list MeshService) (pol : InboundMeshTrafficPolicy)
    (port : Z) (itps : list InboundTrafficPolicy) (itp : InboundTrafficPolicy) :
  cfg_IsPermissiveTrafficPolicyMode (mc_configurator mc) = false →
  sa_dotless sa → sa_Name sa ≠ "" →
  GetInboundMeshTrafficPolicy mc domain (ToServiceIdentity sa) svcs = Ret pol →
  imtp_HTTPRouteConfigsPerPort pol !! port = Some itps → itp ∈ itps →
  NoDup (rule_Route <$> itp_Rules itp) ∧
  ∃ svc uts, svc ∈ getUpstreamServicesIncludeApex mc svcs ∧ itp_Name itp = FQDN svc ∧
  ∀ route p, permits (itp_Rules itp) route p ↔
    ∃ t m s, t ∈ spec_ListTrafficTargets (mc_meshSpec mc) [] ∧
      ctl_IsMonitoredNamespace (mc_kubeController mc) (tt_Namespace t) = true ∧
      trafficTargetIdentityToSvcAccount (tt_Destination t) = sa ∧
      m ∈ routesFromRules mc (tt_Rules t) (tt_Namespace t) ∧ s ∈ tt_Sources t ∧
      route = NewRouteWeightedCluster m [localCluster svc] uts ∧
      p = sa_AsPrincipal (trafficTargetIdentityToSvcAccount s) (mc_GetTrustDomain mc).
Proof.
  intros Hperm Hsa Hname Hpol Hport Hitp.
  destruct (inbound_routes_inv _ _ _ _ _ _ Hpol Hport Hitp) as
    (ts & svc & uts & Hts & Hsvc & _ & _ & _ & ->).
  unfold targetsFor in Hts. rewrite Hperm, ToK8s_dotless in Hts by done. simpl in Hts.
  injection Hts as <-. rewrite Hperm.
  destruct (buildInboundHTTPPolicy_authorised svc
    (spec_ListTrafficTargets (mc_meshSpec mc) [WithTrafficTargetDestination sa]) uts) as [Hnd Hp].
  split; [done|]. exists svc, uts. split_and!; [done..|]. intros route p.
  unfold getInboundTrafficPoliciesForUpstream. rewrite Hp.
  setoid_rewrite (λ t, destination_targets sa t Hname). naive_solver.
Qed.

(** The rules of an inbound policy come from TrafficTargets. *)
Lemma inbound_rule_authorised `{!MeshSpecOk (mc_kubeController mc) (mc_meshSpec mc)} sa svcs pol port itps itp d :
  cfg_IsPermissiveTrafficPolicyMode (mc_configurator mc) = false → sa_dotless sa → sa_Name sa ≠ "" →
  GetInboundMeshTrafficPolicy mc domain (ToServiceIdentity sa) svcs = Ret pol →
  imtp_HTTPRouteConfigsPerPort pol !! port = Some itps → itp ∈ itps → d ∈ itp_Rules itp →
  let m := rwc_HTTPRouteMatch (rule_Route d) in
  (∀ p, p ∈ rule_AllowedPrincipals d → ∃ t src, authorises mc sa t m ∧ src ∈ tt_Sources t ∧
     p = sa_AsPrincipal (trafficTargetIdentityToSvcAccount src) (mc_GetTrustDomain mc)) ∧
  (rule_AllowedPrincipals d = ∅ → ∃ t, authorises mc sa t m ∧ tt_Sources t = []).
Proof.
  intros Hsmi Hsa Hname Hpol Hport Hc Hd.
  destruct (inbound_routes_inv _ _ _ _ _ _ Hpol Hport Hc) as (ts & svc & uts & Hts & _ & _ & _ & _ & ->).
  unfold targetsFor in Hts. rewrite Hsmi, ToK8s_dotless in Hts by done. injection Hts as <-.
  rewrite Hsmi in Hd. apply buildInbound_rule in Hd as (m & Er & Hp & He). rewrite Er. split.
  - intros p Hin. destruct (Hp p Hin) as (t & src & Ht & ? & ? & ->).
    apply (destination_targets sa t Hname) in Ht as (? & ? & ?). by exists t, src.
  - intros (t & Ht & ? & ?)%He. apply (destination_targets sa t Hname) in Ht as (? & ? & ?). by exists t.
Qed.

(** Every rule of a service's policy routes to its local cluster. *)
Lemma policy_routes svc perm ts uts rule :
  rule ∈ itp_Rules (getInboundTrafficPoliciesForUpstream mc domain svc perm ts uts) →
  ∃ m, rule_Route rule = NewRouteWeightedCluster m [localCluster svc] uts.
Proof.
  unfold getInboundTrafficPoliciesForUpstream. destruct perm; simpl.
  { intros ->%list_elem_of_singleton. by eexists. }
  intros Hrule. assert (rule_Route rule ∈ rule_Route <$> itp_Rules
    (buildInboundHTTPPolicyFromTrafficTarget mc domain svc ts uts)) as Hr.
  { apply list_elem_of_fmap. by exists rule. }
  simpl in Hr. apply foldl_MergeRules_routes in Hr as [?|(t & _ & Hr)]; [set_solver|].
  apply list_elem_of_fmap in Hr as (r & -> & Hr). unfold getRoutingRulesFromTrafficTarget in Hr.
  apply list_elem_of_fmap in Hr as (m & -> & _). by exists m.
Qed.

(** Inbound configuration refers only to what it configures: there is a local
    cluster for every service, apex services included; a traffic match exactly
    for the workload's own services, with its local cluster; and every HTTP route
    is on the target port of a service that is not TCP and sends to the local
    cluster of that service only. *)
Theorem GetInboundMeshTrafficPolicy_integrity (id : ServiceIdentity) (svcs : list MeshService)
    (pol : InboundMeshTrafficPolicy) :
  GetInboundMeshTrafficPolicy mc domain id svcs = Ret pol →
  imtp_ClustersConfigs pol = inboundCluster <$> getUpstreamServicesIncludeApex mc svcs ∧
  (∀ m, m ∈ imtp_TrafficMatches pol ↔ ∃ svc uts, svc ∈ svcs ∧ setting svc = Ret uts ∧
     m = inboundMatch svc uts) ∧
  (∀ port itps itp rule wc, imtp_HTTPRouteConfigsPerPort pol !! port = Some itps → itp ∈ itps →
     rule ∈ itp_Rules itp → wc ∈ rwc_WeightedClusters (rule_Route rule) →
     ∃ c, c ∈ imtp_ClustersConfigs pol ∧ wc_ClusterName wc = mcc_Name c ∧
       ms_TargetPort (mcc_Service c) = port ∧ is_tcp (mcc_Service c) = false).
Proof.
  intros Hpol. destruct (GetInbound_closed _ _ _ Hpol) as (ts & utss & _ & Hutss & Hc & Hm & _).
  split_and!; [done| |].
  - intros m. rewrite Hm, list_elem_of_bind. split.
    + intros (su & Hin & Hsu). destruct (elem_of_zip_setting _ _ _ Hutss Hsu).
      case_bool_decide as Hsvc; [|set_solver]. apply list_elem_of_singleton in Hin as ->.
      apply elem_of_list_to_set in Hsvc. by exists su.1, su.2.
    + intros (svc & uts & Hsvc & Huts & ->).
      destruct (elem_of_zip_setting_2 _ _ svc Hutss) as (uts' & Hz & Hs).
      { apply elem_of_includeApex. exists svc. auto. }
      rewrite Huts in Hs. injection Hs as <-. exists (svc, uts). split; [|done]. simpl.
      rewrite bool_decide_true; [by left|]. by apply elem_of_list_to_set.
  - intros port itps itp rule wc Hport Hitp Hrule Hwc.
    destruct (inbound_routes_inv _ _ _ _ _ _ Hpol Hport Hitp) as
      (ts' & svc & uts & _ & Hsvc & _ & Htcp & Htp & ->).
    exists (inboundCluster svc). split_and!; [|..|done|done].
    + rewrite Hc. apply list_elem_of_fmap. by exists svc.
    + apply policy_routes in Hrule as [m Hr]. rewrite Hr in Hwc. simpl in Hwc.
      apply elem_of_union in Hwc as [->%elem_of_singleton|?]; [done|set_solver].
Qed.
End inbound_theorems.
