(* ===== verification/CatalogOutbound.v ===== *)
(** * pkg/catalog: outbound mesh traffic policies

    outbound_traffic_policies.go: for every service a workload may reach, the
    traffic matches, the HTTP routes with their weighted clusters, split as the
    TrafficSplits say, and the cluster configuration.  ([ListOutboundServicesForIdentity]
    is in Catalog.v.) *)

From S2P Require Import Prelude GoStrings Net Identity Service PolicyApi TrafficPolicy K8s.
From S2P Require Import K8sClient KubeProvider Smi PolicyClient Catalog CatalogEgress.
From S2P Require Import CatalogInbound.

(** ** Weights *)

(** The loop of [activeUpstreamClusters]: what is left of the weight is divided by
    the number of clusters left.  Go's division truncates. *)
Fixpoint splitWeight (totalWeight : Z) (aas : list ClusterName) : list WeightedCluster :=
  match aas with
  | [] => []
  | cn :: rest =>
    let weight := totalWeight `quot` Z.of_nat (length aas) in
    mkWeightedCluster cn weight :: splitWeight (int64 (totalWeight - weight)) rest
  end.

Definition activeUpstreamClusters (aas : list ClusterName) (backend : TrafficSplitBackend)
    (upstreamClusters : list WeightedCluster) : list WeightedCluster :=
  upstreamClusters ++ splitWeight (tsb_Weight backend) aas.

Definition failOverUpstreamClusters (fos : list ClusterName)
    (upstreamClusters : list WeightedCluster) : list WeightedCluster :=
  upstreamClusters ++ ((λ cn, mkWeightedCluster cn ClusterWeightFailOver) <$> fos).

(** [upstreamClusterMap]: the first cluster of each name is kept. *)
Definition addUnseen (weight : WeightedCluster → Z)
    (st : gset ClusterName * list WeightedCluster) (wc : WeightedCluster) :
    gset ClusterName * list WeightedCluster :=
  if bool_decide (wc_ClusterName wc ∈ st.1) then st
  else ({[wc_ClusterName wc]} ∪ st.1, st.2 ++ [mkWeightedCluster (wc_ClusterName wc) (weight wc)]).

Definition getWildCardRouteUpstreamClusters (hasTrafficSplitWildCard : bool)
    (routeMatches : list HTTPRouteMatchWithWeightedClusters) : list WeightedCluster :=
  if hasTrafficSplitWildCard then
    (foldl (addUnseen wc_Weight) (∅, [])
       (filter (λ r, negb (hrwc_HasSplitMatches r)) routeMatches ≫= hrwc_UpstreamClusters)).2
  else
    (foldl (addUnseen (λ _, ClusterWeightAcceptAll)) (∅, [])
       (routeMatches ≫= hrwc_UpstreamClusters)).2.

Section outbound.
Context `{RangeOrder} (mc : MeshCatalog) (k8sTrustDomain : string).
Context (hashMatch : TrafficMatch → result string Z) (hashCluster : EgressClusterConfig → result string Z).

(** ** Clusters of a service *)

Definition mergeUpstreamClusters (meshSvc : MeshService) (upstreamClusters : list WeightedCluster) :
    list WeightedCluster :=
  let weight :=
    if IsMultiClusterService meshSvc then
      let lb := mcl_GetLbWeightForService (mc_multiclusterController mc) meshSvc in
      if lbw_aa lb && bool_decide (0 < lbw_weight lb)%Z then lbw_weight lb
      else if lbw_fo lb then ClusterWeightFailOver else ClusterWeightAcceptAll
    else ClusterWeightAcceptAll in
  upstreamClusters ++ [mkWeightedCluster (SidecarClusterName meshSvc) weight].

(** The clusters of a split's backend: the one in this cluster, if the service
    exists here, then those imported, active or for fail over. *)
Definition localBackend (meshSvc : MeshService) (backend : TrafficSplitBackend) : list ClusterName :=
  match ctl_GetTargetPortForServicePort (mc_kubeController mc)
          (mkNamespacedName (ms_Namespace meshSvc) (tsb_Service backend)) (ms_Port meshSvc) with
  | Ok targetPort =>
    [SidecarClusterName (mkMeshService (ms_Namespace meshSvc) (tsb_Service backend) 0 targetPort "" "")]
  | Err _ => []
  end.

Definition importedBackends (meshSvc : MeshService) (backend : TrafficSplitBackend) :
    list (ClusterName * bool) :=
  (λ pa, (SidecarClusterName (mkMeshService (ms_Namespace meshSvc) (tsb_Service backend)
            (ms_Port meshSvc) pa.1 "" ""), pa.2)) <$>
    range_map (mcl_GetTargetPortForServicePort (mc_multiclusterController mc)
      (mkNamespacedName (ms_Namespace meshSvc) (tsb_Service backend)) (ms_Port meshSvc)).

Definition mergeSplitUpstreamClusters (meshSvc : MeshService) (backend : TrafficSplitBackend)
    (upstreamClusters : list WeightedCluster) : list WeightedCluster :=
  let cnsLocal := localBackend meshSvc backend in
  let imported := filter (λ ca, ca.1 ∉ cnsLocal) (importedBackends meshSvc backend) in
  let aas := cnsLocal ++ (filter (λ ca, ca.2 = true) imported).*1 in
  let fos := (filter (λ ca, ca.2 = false) imported).*1 in
  failOverUpstreamClusters fos (activeUpstreamClusters aas backend upstreamClusters).

(** The route matches of the HTTP route groups that the split names. *)
Definition getSplitRouteMatches (split : TrafficSplit) : list HTTPRouteMatch :=
  trafficSpecs ← spec_ListHTTPTrafficSpecs (mc_meshSpec mc);
  match hrg_Matches trafficSpecs with
  | None => []
  | Some matches =>
    if decide (hrg_Name trafficSpecs ∈ ref_Name <$> ts_Matches split)
    then routeMatchOf <$> matches else []
  end.

Definition splitRouteMatch (meshSvc : MeshService) (split : TrafficSplit) :
    HTTPRouteMatchWithWeightedClusters := {|
  hrwc_UpstreamClusters :=
    foldl (λ cs b, mergeSplitUpstreamClusters meshSvc b cs) [] (ts_Backends split);
  hrwc_RouteMatches := if decide (ts_Matches split = []) then [] else getSplitRouteMatches split;
  hrwc_HasSplitMatches := bool_decide (ts_Matches split ≠ []);
|}.

(** The route matches of a service, and whether one of them is a wildcard. *)
Definition routeMatchesFor (meshSvc : MeshService) :
    list HTTPRouteMatchWithWeightedClusters * bool :=
  match spec_ListTrafficSplits (mc_meshSpec mc) [WithTrafficSplitApexService meshSvc] with
  | [] => ([mkHTTPRouteMatchWithWeightedClusters (mergeUpstreamClusters meshSvc []) [] false], true)
  | trafficSplits =>
    (splitRouteMatch meshSvc <$> trafficSplits,
     existsb (λ s, bool_decide (ts_Matches s = [])) trafficSplits)
  end.

(** ** Egress services *)

Definition isEgressService (meshSvc : MeshService) (egressPolicy : EgressTrafficPolicy) : bool :=
  let hostnames := GetHostnamesForService k8sTrustDomain meshSvc true in
  existsb (λ pc, existsb (λ cfg, existsb (λ host, bool_decide (host ∈ hostnames)) (ehc_Hostnames cfg)) pc.2)
    (range_map (etp_HTTPRouteConfigsPerPort egressPolicy)).

(** The policy is fetched once: [egressPolicyGetted] and [egressPolicy] are kept
    across the services. *)
Definition EgressMemo : Type := option (option EgressTrafficPolicy).

Definition enableEgressSrviceForIdentity (downstreamIdentity : ServiceIdentity) (memo : EgressMemo)
    (meshSvc : MeshService) : outcome (bool * EgressMemo) :=
  if cfg_IsEgressEnabled (mc_configurator mc) then Ret (true, memo)
  else
    egressPolicy ← match memo with
                   | Some p => Ret p
                   | None =>
                     r ← GetEgressTrafficPolicy mc hashMatch hashCluster downstreamIdentity;
                     Ret match r with Ok p => p | Err _ => None end
                   end;
    Ret (match egressPolicy with Some p => isEgressService meshSvc p | None => false end,
         Some egressPolicy).

(** ** The HTTP policy of a service *)

(** Adding the routes of every route match; a route that conflicts is skipped. *)
Definition addRoutes (retryPolicy : option RetryPolicySpec)
    (routeMatches : list HTTPRouteMatchWithWeightedClusters) (policy : OutboundTrafficPolicy) :
    OutboundTrafficPolicy :=
  foldl (λ policy routeMatch,
    foldl (λ policy route, (AddRoute policy route retryPolicy (hrwc_UpstreamClusters routeMatch)).1)
      policy (hrwc_RouteMatches routeMatch)) policy routeMatches.

(** [None]: the wildcard route could not be added and the service is skipped. *)
Definition outboundPolicy (meshSvc : MeshService) (localNamespace : bool)
    (retryPolicy : option RetryPolicySpec)
    (routeMatches : list HTTPRouteMatchWithWeightedClusters) (hasTrafficSplitWildCard : bool) :
    option OutboundTrafficPolicy :=
  let hostnames := GetHostnamesForService k8sTrustDomain meshSvc localNamespace in
  let policy := addRoutes retryPolicy routeMatches (NewOutboundTrafficPolicy (FQDN meshSvc) hostnames) in
  let hasWildCardRoute :=
    existsb (λ route, bool_decide (hrm_Path route = RegexMatchAll)) (routeMatches ≫= hrwc_RouteMatches) in
  if hasWildCardRoute then Some policy
  else
    match AddRoute policy WildCardRouteMatch retryPolicy
            (getWildCardRouteUpstreamClusters hasTrafficSplitWildCard routeMatches) with
    | (policy, None) => Some policy
    | (_, Some _) => None
    end.

(** ** The policy of an identity *)

Record OutboundAcc := mkOutboundAcc {
  oa_matches : list TrafficMatch;
  oa_clusters : list MeshClusterConfig;
  oa_routes : gmap Z (list OutboundTrafficPolicy);
  oa_resolvable : gmap string (list string);
  oa_memo : EgressMemo;
}.

Definition outboundMatch (meshSvc : MeshService) (ranges : list string)
    (routeMatch : HTTPRouteMatchWithWeightedClusters) : TrafficMatch := {|
  tm_DestinationPort := ms_Port meshSvc;
  tm_DestinationProtocol := ms_Protocol meshSvc;
  tm_DestinationIPRanges := ranges;
  tm_ServerNames := [];
  tm_Cluster := "";
  tm_Name := OutboundTrafficMatchName meshSvc;
  tm_WeightedClusters := hrwc_UpstreamClusters routeMatch;
  tm_RateLimit := None;
  tm_EgressGateWay := None;
|}.

Definition outboundCluster (meshSvc : MeshService) (uts : option UpstreamTrafficSetting) :
    MeshClusterConfig := {|
  mcc_Name := SidecarClusterName meshSvc;
  mcc_Service := meshSvc;
  mcc_Address := "";
  mcc_Port := 0;
  mcc_EnableSidecarActiveHealthChecks := cfg_EnableSidecarActiveHealthChecks (mc_configurator mc);
  mcc_UpstreamTrafficSetting := uts;
|}.

Definition destinationIPRanges (endpoints : list Endpoint) : list string :=
  unique ((λ e, IP_String (ep_IP e) +:+ "/32") <$> endpoints).

(** The addresses under which a service outside this cluster is resolved. *)
Definition addResolvable (meshSvc : MeshService) (endpoints : list Endpoint) (intra : bool)
    (resolvable : gmap string (list string)) : gmap string (list string) :=
  let ips : gset string := list_to_set ((λ e, IP_String (ep_IP e)) <$> endpoints) in
  if intra then resolvable
  else if decide (ips = ∅) then resolvable
  else <[FQDN meshSvc := range_set ips]> resolvable.

Definition outboundStep (downstreamIdentity : ServiceIdentity) (downstreamSvcAccount : K8sServiceAccount)
    (acc : OutboundAcc) (meshSvc : MeshService) : outcome OutboundAcc :=
  '(egressEnabled, memo) ← enableEgressSrviceForIdentity downstreamIdentity (oa_memo acc) meshSvc;
  let monitoredNamespace := ctl_IsMonitoredNamespace (mc_kubeController mc) (ms_Namespace meshSvc) in
  let endpoints := getDNSResolvableServiceEndpoints mc meshSvc in
  let existIntraEndpoints :=
    existsb (λ e, bool_decide (ep_ClusterKey e = "") && (monitoredNamespace || egressEnabled)) endpoints in
  uts ← pol_GetUpstreamTrafficSetting (mc_policyController mc) (by_service meshSvc);
  let '(routeMatches, hasTrafficSplitWildCard) := routeMatchesFor meshSvc in
  let acc := {|
    oa_matches := oa_matches acc ++ (outboundMatch meshSvc (destinationIPRanges endpoints) <$> routeMatches);
    oa_clusters := oa_clusters acc ++ [outboundCluster meshSvc uts];
    oa_routes := oa_routes acc;
    oa_resolvable := addResolvable meshSvc endpoints existIntraEndpoints (oa_resolvable acc);
    oa_memo := memo |} in
  if is_tcp meshSvc then Ret acc
  else
    retryPolicy ← GetRetryPolicy mc downstreamIdentity meshSvc;
    let localNamespace := bool_decide (sa_Namespace downstreamSvcAccount = ms_Namespace meshSvc) in
    Ret match outboundPolicy meshSvc localNamespace retryPolicy routeMatches hasTrafficSplitWildCard with
        | None => acc
        | Some policy => {|
            oa_matches := oa_matches acc;
            oa_clusters := oa_clusters acc;
            oa_routes :=
              <[ms_Port meshSvc := default [] (oa_routes acc !! ms_Port meshSvc) ++ [policy]]> (oa_routes acc);
            oa_resolvable := oa_resolvable acc;
            oa_memo := oa_memo acc |}
        end.

Definition GetOutboundMeshTrafficPolicy (downstreamIdentity : ServiceIdentity) :
    outcome OutboundMeshTrafficPolicy :=
  downstreamSvcAccount ← ToK8sServiceAccount downstreamIdentity;
  services ← ListOutboundServicesForIdentity mc downstreamIdentity;
  acc ← foldO (outboundStep downstreamIdentity downstreamSvcAccount)
          (mkOutboundAcc [] [] ∅ ∅ None) services;
  Ret {|
    omtp_TrafficMatches := oa_matches acc;
    omtp_HTTPRouteConfigsPerPort := oa_routes acc;
    omtp_ClustersConfigs := oa_clusters acc;
    omtp_ServicesResolvableSet := oa_resolvable acc |}.
End outbound.

(** ** Theorems: weights *)

Lemma splitWeight_names totalWeight aas : wc_ClusterName <$> splitWeight totalWeight aas = aas.
Proof. revert totalWeight. induction aas; intros; csimpl; f_equal; auto. Qed.

(** Dividing a weight that lies between [n * q] and [n * (q + 1)] over [n] clusters. *)
Lemma splitWeight_bounds (q totalWeight : Z) (aas : list ClusterName) :
  (0 ≤ q)%Z → (Z.of_nat (length aas) * q ≤ totalWeight ≤ Z.of_nat (length aas) * (q + 1))%Z →
  (totalWeight < 2 ^ 63)%Z →
  (aas ≠ [] → sumZ (wc_Weight <$> splitWeight totalWeight aas) = totalWeight) ∧
  Forall (λ wc, q ≤ wc_Weight wc ≤ q + 1)%Z (splitWeight totalWeight aas).
Proof.
  intros Hq. revert totalWeight. induction aas as [|cn aas IH]; intros w Hw Hmax.
  { split; [done|constructor]. }
  cbn [splitWeight]. remember (Z.of_nat (length (cn :: aas))) as n eqn:Hn.
  assert (n = Z.of_nat (length aas) + 1)%Z as Hn' by (simpl in Hn; lia).
  rewrite Z.quot_div_nonneg by nia.
  assert (q ≤ w `div` n ≤ q + 1)%Z as Hdiv.
  { split; [apply Z.div_le_lower_bound; nia|]. apply Z.lt_succ_r, Z.div_lt_upper_bound; nia. }
  assert (Z.of_nat (length aas) * q ≤ w - w `div` n ≤ Z.of_nat (length aas) * (q + 1))%Z as Hrest.
  { assert (w = n * (q + 1) ∨ w < n * (q + 1))%Z as [->|Hlt] by lia.
    - rewrite (Z.mul_comm n), Z.div_mul by lia. nia.
    - assert (w `div` n < q + 1)%Z by (apply Z.div_lt_upper_bound; lia). nia. }
  rewrite int64_id by (unfold is_int64; nia).
  destruct (IH (w - w `div` n)%Z Hrest ltac:(nia)) as [Hsum Hall].
  split; [|by constructor]. intros _. csimpl. unfold sumZ in *. simpl. destruct aas as [|cn' aas].
  - simpl. simpl in Hn'. subst n. rewrite Hn', Z.div_1_r. lia.
  - rewrite Hsum by done. lia.
Qed.

(** C40. The weight of a split's backend is shared fairly between its active
    clusters: every cluster gets one entry, the weights add up to the backend's
    weight with nothing lost to rounding, and no two differ by more than one. *)
Theorem activeUpstreamClusters_fair (aas : list ClusterName) (backend : TrafficSplitBackend)
    (upstreamClusters : list WeightedCluster) :
  aas ≠ [] → (0 ≤ tsb_Weight backend < 2 ^ 63)%Z →
  ∃ shares, activeUpstreamClusters aas backend upstreamClusters = upstreamClusters ++ shares ∧
    wc_ClusterName <$> shares = aas ∧
    sumZ (wc_Weight <$> shares) = tsb_Weight backend ∧
    Forall (λ wc, tsb_Weight backend `div` Z.of_nat (length aas) ≤ wc_Weight wc ≤
                  tsb_Weight backend `div` Z.of_nat (length aas) + 1)%Z shares.
Proof.
  intros Hne Hw. exists (splitWeight (tsb_Weight backend) aas). split; [done|].
  split; [apply splitWeight_names|].
  assert (0 < Z.of_nat (length aas))%Z as Hpos by (destruct aas; simpl; [done|lia]).
  destruct (splitWeight_bounds (tsb_Weight backend `div` Z.of_nat (length aas))
              (tsb_Weight backend) aas) as [? ?]; [| |lia|auto].
  - apply Z.div_pos; lia.
  - pose proof (Z.div_mod (tsb_Weight backend) (Z.of_nat (length aas)) ltac:(lia)).
    pose proof (Z.mod_pos_bound (tsb_Weight backend) (Z.of_nat (length aas)) ltac:(lia)). lia.
Qed.

(** ** Theorems: the routes of a service *)

Section add_routes.
Context (retry : option RetryPolicySpec).

Abbreviation add_all := (foldl (λ out (mc : HTTPRouteMatch * list WeightedCluster),
  (AddRoute out mc.1 retry mc.2).1)).

(** The routes of a list of route matches, with their clusters. *)
Definition routesOf (rms : list HTTPRouteMatchWithWeightedClusters) :
    list (HTTPRouteMatch * list WeightedCluster) :=
  rms ≫= λ rm, (λ m, (m, hrwc_UpstreamClusters rm)) <$> hrwc_RouteMatches rm.

Lemma addRoutes_flat rms out : addRoutes retry rms out = add_all out (routesOf rms).
Proof.
  unfold addRoutes, routesOf. revert out. induction rms as [|rm rms IH]; intros out; csimpl; [done|].
  rewrite foldl_app, IH. f_equal. generalize (hrwc_RouteMatches rm). intros ms.
  revert out. induction ms as [|m ms IHms]; intros out; csimpl; [done|]. apply IHms.
Qed.

Lemma AddRoute_same out m wcs :
  otp_Name (AddRoute out m retry wcs).1 = otp_Name out ∧
  otp_Hostnames (AddRoute out m retry wcs).1 = otp_Hostnames out.
Proof. unfold AddRoute. by destruct (updateRoute _ _ _ _ _) as [[]|]. Qed.

Lemma AddRoute_any out m wcs m' wc :
  routes_to (AddRoute out m retry wcs).1 m' wc →
  routes_to out m' wc ∨ (m' = m ∧ wc = list_to_set wcs).
Proof.
  destruct (AddRoute out m retry wcs).2 as [e|] eqn:He.
  - destruct (AddRoute_error _ _ _ _ _ He) as [-> _]. auto.
  - by apply AddRoute_routes_to.
Qed.

Lemma AddRoute_keeps out m wcs m' wc :
  routes_to out m' wc → routes_to (AddRoute out m retry wcs).1 m' wc.
Proof.
  destruct (AddRoute out m retry wcs).2 as [e|] eqn:He.
  - by destruct (AddRoute_error _ _ _ _ _ He) as [-> _].
  - rewrite AddRoute_routes_to by done. auto.
Qed.

Lemma AddRoute_adds out m wcs : ∃ wc, routes_to (AddRoute out m retry wcs).1 m wc.
Proof.
  destruct (AddRoute out m retry wcs).2 as [e|] eqn:He.
  - destruct (AddRoute_error _ _ _ _ _ He) as [-> (wc & ? & _)]. by exists wc.
  - exists (list_to_set wcs). rewrite AddRoute_routes_to by done. auto.
Qed.

(** Adding routes one after the other: the matches stay distinct, every match gets
    a route, and every route was there or is one of those added. *)
Lemma add_all_spec l out :
  routes_unique out →
  let out' := add_all out l in
  routes_unique out' ∧ otp_Name out' = otp_Name out ∧ otp_Hostnames out' = otp_Hostnames out ∧
  (∀ m wc, routes_to out m wc → routes_to out' m wc) ∧
  (∀ m wc, routes_to out' m wc → routes_to out m wc ∨ ∃ cs, (m, cs) ∈ l ∧ wc = list_to_set cs) ∧
  (∀ m cs, (m, cs) ∈ l → ∃ wc, routes_to out' m wc).
Proof.
  revert out. induction l as [|[m0 cs0] l IH]; intros out Hu; simpl.
  { split_and!; auto. set_solver. }
  destruct (AddRoute_same out m0 cs0) as [Hn Hh].
  destruct (IH (AddRoute out m0 retry cs0).1 (AddRoute_unique _ _ _ _ Hu)) as
    (IHu & IHn & IHh & IHk & IHr & IHa).
  split_and!; [done|congruence|congruence|auto using AddRoute_keeps| |].
  - intros m wc [[?|[-> ->]]%AddRoute_any|(cs & ? & ?)]%IHr; [by left| |]; right.
    + exists cs0. split; [by left|done].
    + exists cs. split; [by right|done].
  - intros m cs [[= -> ->]|?]%elem_of_cons; [|eauto].
    destruct (AddRoute_adds out m0 cs0) as [wc ?]. exists wc. auto.
Qed.
End add_routes.

Lemma addUnseen_spec (weight : WeightedCluster → Z) l :
  let r := foldl (addUnseen weight) (∅, []) l in
  NoDup (wc_ClusterName <$> r.2) ∧
  (∀ n, n ∈ r.1 ↔ n ∈ wc_ClusterName <$> r.2) ∧
  (∀ n, (n ∈ wc_ClusterName <$> r.2) ↔ n ∈ wc_ClusterName <$> l) ∧
  ∀ wc, wc ∈ r.2 → ∃ wc0, wc0 ∈ l ∧
    wc = mkWeightedCluster (wc_ClusterName wc0) (weight wc0).
Proof.
  induction l as [|wc0 l IH] using rev_ind; cbn zeta.
  { split_and!; [constructor|set_solver..]. }
  rewrite foldl_app. simpl in *. destruct IH as (Hnd & Hset & Hnames & Hin).
  unfold addUnseen at 1 3 5 7 9. case_bool_decide as Hseen; simpl.
  - split_and!; [done..| |].
    + intros n. rewrite fmap_app, elem_of_app, Hnames. rewrite Hset, Hnames in Hseen. set_solver.
    + intros wc (wc' & ? & ?)%Hin. exists wc'. set_solver.
  - rewrite !fmap_app. split_and!.
    + apply NoDup_app. split_and!; [done| |apply NoDup_singleton].
      intros n Hn ->%list_elem_of_singleton. by rewrite <-Hset in Hn.
    + intros n. rewrite elem_of_app, <-Hset. set_solver.
    + intros n. rewrite !elem_of_app, Hnames. set_solver.
    + intros wc [(wc' & ? & ?)%Hin| ->%list_elem_of_singleton]%elem_of_app.
      * exists wc'. set_solver.
      * exists wc0. set_solver.
Qed.

Lemma getWildCard_clusters wild rms wc :
  wc ∈ getWildCardRouteUpstreamClusters wild rms →
  ∃ rm wc0, rm ∈ rms ∧ wc0 ∈ hrwc_UpstreamClusters rm ∧ wc_ClusterName wc = wc_ClusterName wc0.
Proof.
  unfold getWildCardRouteUpstreamClusters. destruct wild.
  all: intros (wc0 & (rm & ? & Hrm)%list_elem_of_bind & ->)%addUnseen_spec.
  - apply list_elem_of_filter in Hrm as [_ ?]. by exists rm, wc0.
  - by exists rm, wc0.
Qed.

Lemma elem_of_routesOf rms m cs :
  (m, cs) ∈ routesOf rms ↔
  ∃ rm, rm ∈ rms ∧ m ∈ hrwc_RouteMatches rm ∧ cs = hrwc_UpstreamClusters rm.
Proof.
  unfold routesOf. rewrite list_elem_of_bind. setoid_rewrite list_elem_of_fmap. split.
  - intros (rm & (m' & [= -> ->] & ?) & ?). by exists rm.
  - intros (rm & ? & ? & ->). exists rm. split; [|done]. by exists m.
Qed.

(** What the policy of a service is: never skipped, with its hostnames, distinct
    matches, a route whose path is the wildcard, and routes that come from the
    route matches or are the default one. *)
Lemma outboundPolicy_spec domain svc local retry rms wild :
  ∃ p, outboundPolicy domain svc local retry rms wild = Some p ∧ routes_unique p ∧
    otp_Name p = FQDN svc ∧ otp_Hostnames p = GetHostnamesForService domain svc local ∧
    (∃ m wc, routes_to p m wc ∧ hrm_Path m = RegexMatchAll) ∧
    (∀ m wc, routes_to p m wc →
       (∃ cs, (m, cs) ∈ routesOf rms ∧ wc = list_to_set cs) ∨
       (m = WildCardRouteMatch ∧ wc = list_to_set (getWildCardRouteUpstreamClusters wild rms))) ∧
    (∀ m cs, (m, cs) ∈ routesOf rms → ∃ wc, routes_to p m wc).
Proof.
  unfold outboundPolicy. rewrite addRoutes_flat.
  set (p0 := NewOutboundTrafficPolicy _ _). assert (routes_unique p0) as Hu0 by constructor.
  assert (∀ m wc, ¬ routes_to p0 m wc) as Hnone by (intros m wc (r & Hr & _); set_solver).
  destruct (add_all_spec retry (routesOf rms) p0 Hu0) as (Hu & Hn & Hh & _ & Hr & Ha).
  set (p := foldl _ p0 (routesOf rms)) in *. destruct (existsb _ _) eqn:Hex.
  - exists p. split_and!; [done..| | |done].
    + apply existsb_exists in Hex as (m & Hm & Hp%bool_decide_eq_true).
      apply list_elem_of_In, list_elem_of_bind in Hm as (rm & ? & ?).
      destruct (Ha m (hrwc_UpstreamClusters rm)) as [wc ?]; [|by exists m, wc].
      apply elem_of_routesOf. by exists rm.
    + intros m wc [?|(cs & ? & ->)]%Hr; [by destruct (Hnone m wc)|]. left. by exists cs.
  - set (cs := getWildCardRouteUpstreamClusters wild rms).
    destruct (AddRoute p WildCardRouteMatch retry cs) as [p' [e|]] eqn:E.
    { destruct (AddRoute_error p WildCardRouteMatch retry cs e) as [_ (wc & Hwc & _)]; [by rewrite E|].
      apply Hr in Hwc as [?|(cs' & Hin & _)]; [by destruct (Hnone WildCardRouteMatch wc)|].
      assert (existsb (λ route, bool_decide (hrm_Path route = RegexMatchAll))
                (rms ≫= hrwc_RouteMatches) = true) as Htrue; [|congruence].
      apply elem_of_routesOf in Hin as (rm & ? & ? & _).
      apply existsb_exists. exists WildCardRouteMatch. split; [|by apply bool_decide_eq_true].
      apply list_elem_of_In, list_elem_of_bind. by exists rm. }
    pose proof (AddRoute_routes_to p WildCardRouteMatch retry cs) as Hto.
    pose proof (AddRoute_unique p WildCardRouteMatch retry cs Hu) as Hu'.
    pose proof (AddRoute_same retry p WildCardRouteMatch cs) as [Hn' Hh'].
    rewrite E in *. simpl in *. exists p'. split_and!; [done..|congruence|congruence| | |].
    + exists WildCardRouteMatch, (list_to_set cs). split; [|done]. apply Hto; auto.
    + intros m wc [[?|(cs' & ? & ->)]%Hr|[-> ->]]%Hto; [| | |done].
      * by destruct (Hnone m wc).
      * left. by exists cs'.
      * by right.
    + intros m cs' (wc & ?)%Ha. exists wc. apply Hto; auto.
Qed.

(** ** Theorems: the policy of an identity *)

Section outbound_theorems.
Context `{RangeOrder} (mc : MeshCatalog) (domain : string).
Context (hashMatch : TrafficMatch → result string Z) (hashCluster : EgressClusterConfig → result string Z).

(** The service's traffic matches, and whether a policy is the service's policy. *)
Definition matchesFor (svc : MeshService) : list TrafficMatch :=
  outboundMatch svc (destinationIPRanges (getDNSResolvableServiceEndpoints mc svc)) <$>
    (routeMatchesFor mc svc).1.

Definition policyFor (id : ServiceIdentity) (sa : K8sServiceAccount) (svc : MeshService)
    (p : OutboundTrafficPolicy) : Prop :=
  ∃ retry, GetRetryPolicy mc id svc = Ret retry ∧
    outboundPolicy domain svc (bool_decide (sa_Namespace sa = ms_Namespace svc)) retry
      (routeMatchesFor mc svc).1 (routeMatchesFor mc svc).2 = Some p.

Abbreviation on_port port := (filter (λ s, is_tcp s = false ∧ ms_Port s = port)).

Lemma outboundStep_spec id sa acc0 svc acc :
  outboundStep mc domain hashMatch hashCluster id sa acc0 svc = Ret acc →
  (∃ uts, oa_clusters acc = oa_clusters acc0 ++ [outboundCluster mc svc uts] ∧
     pol_GetUpstreamTrafficSetting (mc_policyController mc) (by_service svc) = Ret uts) ∧
  oa_matches acc = oa_matches acc0 ++ matchesFor svc ∧
  ∀ port, ∃ ps, default [] (oa_routes acc !! port) = default [] (oa_routes acc0 !! port) ++ ps ∧
    Forall2 (policyFor id sa) (on_port port [svc]) ps.
Proof.
  unfold outboundStep, matchesFor. intros ([en memo] & _ & Hacc)%bind_Ret.
  apply bind_Ret in Hacc as (uts & Huts & Hacc).
  destruct (routeMatchesFor mc svc) as [rms wild] eqn:Hrms. cbn zeta beta iota in Hacc.
  destruct (is_tcp svc) eqn:Htcp.
  { injection Hacc as <-. simpl. split_and!; [by eexists|done|]. intros port. exists [].
    rewrite app_nil_r. split; [done|]. rewrite filter_cons_False by (intros [? _]; congruence). constructor. }
  apply bind_Ret in Hacc as (retry & Hretry & [= <-]).
  destruct (outboundPolicy_spec domain svc (bool_decide (sa_Namespace sa = ms_Namespace svc))
              retry rms wild) as (p & Hp & _).
  rewrite Hp. simpl. split_and!; [by eexists|done|]. intros port.
  destruct (decide (ms_Port svc = port)) as [<-|Hne].
  - exists [p]. rewrite lookup_insert_eq, filter_cons_True by done. split; [done|].
    repeat constructor. exists retry. by rewrite Hrms.
  - exists []. rewrite lookup_insert_ne, app_nil_r by done. split; [done|].
    rewrite filter_cons_False by (by intros [_ ?]). constructor.
Qed.

Lemma outbound_fold id sa acc0 svcs acc :
  foldO (outboundStep mc domain hashMatch hashCluster id sa) acc0 svcs = Ret acc →
  (∃ cs, oa_clusters acc = oa_clusters acc0 ++ cs ∧
     Forall2 (λ svc c, ∃ uts, c = outboundCluster mc svc uts ∧
       pol_GetUpstreamTrafficSetting (mc_policyController mc) (by_service svc) = Ret uts) svcs cs) ∧
  oa_matches acc = oa_matches acc0 ++ (svcs ≫= matchesFor) ∧
  ∀ port, ∃ ps, default [] (oa_routes acc !! port) = default [] (oa_routes acc0 !! port) ++ ps ∧
    Forall2 (policyFor id sa) (on_port port svcs) ps.
Proof.
  revert acc0. induction svcs as [|svc svcs IH]; intros acc0; simpl.
  { intros [= <-]. rewrite app_nil_r. split_and!; [|done|].
    - exists []. rewrite app_nil_r. split; [done|constructor].
    - intros port. exists []. rewrite app_nil_r. split; [done|constructor]. }
  intros (acc1 & Hstep & Hfold)%bind_Ret.
  apply outboundStep_spec in Hstep as ((uts & Hc1 & Huts) & Hm1 & Hr1).
  apply IH in Hfold as ((cs & Hc & Hcs) & Hm & Hr). split_and!.
  - exists (outboundCluster mc svc uts :: cs). rewrite Hc, Hc1, <-(assoc_L (++)). split; [done|].
    constructor; [by exists uts|done].
  - by rewrite Hm, Hm1, <-(assoc_L (++)).
  - intros port. destruct (Hr1 port) as (ps1 & E1 & HF1), (Hr port) as (ps & E & HF).
    exists (ps1 ++ ps). rewrite E, E1, (assoc_L (++)). split; [done|].
    change (svc :: svcs) with ([svc] ++ svcs). rewrite filter_app. by apply Forall2_app.
Qed.

(** C36. The outbound configuration of a workload is for exactly the services it may
    reach: there is one cluster per service, and one traffic match per service and
    route match, in order; on every port, the HTTP policies are one for every
    service of that port that is not TCP, in order (no service is skipped), with
    the service's name and hostnames, distinct matches, and a route whose path
    matches everything. *)
Theorem GetOutboundMeshTrafficPolicy_spec (id : ServiceIdentity) (pol : OutboundMeshTrafficPolicy) :
  GetOutboundMeshTrafficPolicy mc domain hashMatch hashCluster id = Ret pol →
  ∃ sa svcs, ToK8sServiceAccount id = Ret sa ∧ ListOutboundServicesForIdentity mc id = Ret svcs ∧
    Forall2 (λ svc c, mcc_Name c = SidecarClusterName svc ∧ mcc_Service c = svc) svcs
      (omtp_ClustersConfigs pol) ∧
    omtp_TrafficMatches pol = (svcs ≫= λ svc,
      outboundMatch svc (destinationIPRanges (getDNSResolvableServiceEndpoints mc svc)) <$>
        (routeMatchesFor mc svc).1) ∧
    ∀ port, Forall2 (λ svc p, otp_Name p = FQDN svc ∧
        otp_Hostnames p = GetHostnamesForService domain svc
          (bool_decide (sa_Namespace sa = ms_Namespace svc)) ∧
        routes_unique p ∧ ∃ m wc, routes_to p m wc ∧ hrm_Path m = RegexMatchAll)
      (filter (λ s, is_tcp s = false ∧ ms_Port s = port) svcs)
      (default [] (omtp_HTTPRouteConfigsPerPort pol !! port)).
Proof.
  unfold GetOutboundMeshTrafficPolicy. intros (sa & Hsa & Hpol)%bind_Ret.
  apply bind_Ret in Hpol as (svcs & Hsvcs & Hpol). apply bind_Ret in Hpol as (acc & Hfold & [= <-]).
  apply outbound_fold in Hfold as ((cs & Hc & Hcs) & Hm & Hr). exists sa, svcs. split_and!; [done..| |done|].
  - rewrite Hc. simpl. eapply Forall2_impl; [exact Hcs|]. by intros svc c (uts & -> & _).
  - intros port. destruct (Hr port) as (ps & E & HF). simpl in *. rewrite E.
    eapply Forall2_impl; [exact HF|]. intros svc p (retry & _ & Hp).
    destruct (outboundPolicy_spec domain svc (bool_decide (sa_Namespace sa = ms_Namespace svc)) retry
      (routeMatchesFor mc svc).1 (routeMatchesFor mc svc).2) as (p' & Hp' & ? & ? & ? & Hw & _).
    rewrite Hp in Hp'. by injection Hp' as <-.
Qed.

(** *** Where the routes lead *)

(** The names of the clusters of a backend, here and in other clusters. *)
Definition backendClusters (svc : MeshService) (backend : TrafficSplitBackend) : list ClusterName :=
  localBackend mc svc backend ++ (importedBackends mc svc backend).*1.

Lemma mergeSplit_clusters svc backend cs wc :
  wc ∈ mergeSplitUpstreamClusters mc svc backend cs →
  wc ∈ cs ∨ wc_ClusterName wc ∈ backendClusters svc backend.
Proof.
  unfold mergeSplitUpstreamClusters, failOverUpstreamClusters, activeUpstreamClusters, backendClusters.
  set (imported := filter _ (importedBackends mc svc backend)).
  assert (∀ ca, ca ∈ imported → ca.1 ∈ (importedBackends mc svc backend).*1) as Himp.
  { intros ca [_ ?]%list_elem_of_filter. by apply list_elem_of_fmap_2. }
  rewrite !elem_of_app. intros [[?|Haa]|Hfo]; [by left|right..].
  - apply (list_elem_of_fmap_2 wc_ClusterName) in Haa. rewrite splitWeight_names in Haa.
    apply elem_of_app in Haa as [?|(ca & -> & [_ ?]%list_elem_of_filter)%list_elem_of_fmap]; auto.
  - apply list_elem_of_fmap in Hfo as (cn & -> & Hcn). simpl. right.
    apply list_elem_of_fmap in Hcn as (ca & -> & [_ ?]%list_elem_of_filter). auto.
Qed.

Lemma mergeSplits_clusters svc backends cs wc :
  wc ∈ foldl (λ cs b, mergeSplitUpstreamClusters mc svc b cs) cs backends →
  wc ∈ cs ∨ ∃ b, b ∈ backends ∧ wc_ClusterName wc ∈ backendClusters svc b.
Proof.
  revert cs. induction backends as [|b backends IH]; intros cs; simpl; [by left|].
  intros [[?|?]%mergeSplit_clusters|(b' & ? & ?)]%IH; [by left|right..].
  - exists b. split; [by left|done].
  - exists b'. split; [by right|done].
Qed.

Abbreviation splits_of svc :=
  (spec_ListTrafficSplits (mc_meshSpec mc) [WithTrafficSplitApexService svc]).

Lemma routeMatchesFor_clusters svc rm wc :
  rm ∈ (routeMatchesFor mc svc).1 → wc ∈ hrwc_UpstreamClusters rm →
  (splits_of svc = [] ∧ wc_ClusterName wc = SidecarClusterName svc) ∨
  ∃ split b, split ∈ splits_of svc ∧ b ∈ ts_Backends split ∧
    wc_ClusterName wc ∈ backendClusters svc b.
Proof.
  unfold routeMatchesFor. destruct (splits_of svc) as [|split0 splits] eqn:Hsplits.
  - intros ->%list_elem_of_singleton Hwc. left. split; [done|].
    by apply list_elem_of_singleton in Hwc as ->.
  - intros (split & -> & Hsplit)%list_elem_of_fmap [?|(b & ? & ?)]%mergeSplits_clusters; [set_solver|].
    right. by exists split, b.
Qed.

Lemma policyFor_clusters id sa svc p m wcs wc :
  policyFor id sa svc p → routes_to p m wcs → wc ∈ wcs →
  otp_Name p = FQDN svc ∧
  ((splits_of svc = [] ∧ m = WildCardRouteMatch ∧ wc_ClusterName wc = SidecarClusterName svc) ∨
   ∃ split b, split ∈ splits_of svc ∧ b ∈ ts_Backends split ∧
     wc_ClusterName wc ∈ backendClusters svc b).
Proof.
  intros (retry & _ & Hp) Hto Hwc.
  destruct (outboundPolicy_spec domain svc (bool_decide (sa_Namespace sa = ms_Namespace svc)) retry
    (routeMatchesFor mc svc).1 (routeMatchesFor mc svc).2) as (p' & Hp' & _ & Hn & _ & _ & Hr & _).
  rewrite Hp in Hp'. injection Hp' as <-. split; [done|].
  apply Hr in Hto as [(cs & Hcs & ->)|[-> ->]].
  - apply elem_of_list_to_set in Hwc. apply elem_of_routesOf in Hcs as (rm & Hrm & Hm & ->).
    destruct (routeMatchesFor_clusters _ _ _ Hrm Hwc) as [[Hnil _]|?]; [|by right].
    unfold routeMatchesFor in Hrm. rewrite Hnil in Hrm. apply list_elem_of_singleton in Hrm as ->.
    simpl in Hm. set_solver.
  - apply elem_of_list_to_set, getWildCard_clusters in Hwc as (rm & wc0 & Hrm & Hwc & ->).
    destruct (routeMatchesFor_clusters _ _ _ Hrm Hwc) as [[? ?]|?]; [by left|by right].
Qed.

(** A TrafficSplit decides where the traffic of its apex goes: every route on a
    port belongs to a service that the workload may reach there, and a cluster it
    sends to is the service's own when no split has the service as its apex, and
    then the only match is the wildcard; otherwise it is a cluster of a backend of
    such a split, in this cluster or imported. *)
Theorem GetOutboundMeshTrafficPolicy_clusters (id : ServiceIdentity) (pol : OutboundMeshTrafficPolicy)
    (port : Z) (ps : list OutboundTrafficPolicy) (p : OutboundTrafficPolicy) (m : HTTPRouteMatch)
    (wcs : gset WeightedCluster) (wc : WeightedCluster) :
  GetOutboundMeshTrafficPolicy mc domain hashMatch hashCluster id = Ret pol →
  omtp_HTTPRouteConfigsPerPort pol !! port = Some ps → p ∈ ps → routes_to p m wcs → wc ∈ wcs →
  ∃ svcs svc, ListOutboundServicesForIdentity mc id = Ret svcs ∧ svc ∈ svcs ∧
    is_tcp svc = false ∧ ms_Port svc = port ∧ otp_Name p = FQDN svc ∧
    ((splits_of svc = [] ∧ m = WildCardRouteMatch ∧ wc_ClusterName wc = SidecarClusterName svc) ∨
     ∃ split b, split ∈ splits_of svc ∧ b ∈ ts_Backends split ∧
       wc_ClusterName wc ∈ backendClusters svc b).
Proof.
  unfold GetOutboundMeshTrafficPolicy. intros (sa & Hsa & Hpol)%bind_Ret Hport Hp Hto Hwc.
  apply bind_Ret in Hpol as (svcs & Hsvcs & Hpol). apply bind_Ret in Hpol as (acc & Hfold & [= <-]).
  apply outbound_fold in Hfold as (_ & _ & Hr). destruct (Hr port) as (ps' & E & HF). simpl in *.
  rewrite Hport in E. change (ps = ps') in E. subst ps'. apply list_elem_of_lookup in Hp as [i Hi].
  destruct (Forall2_lookup_r _ _ _ _ _ HF Hi) as (svc & Hsvc & Hpf).
  apply list_elem_of_lookup_2, list_elem_of_filter in Hsvc as [[? ?] ?].
  destruct (policyFor_clusters _ _ _ _ _ _ _ Hpf Hto Hwc). by exists svcs, svc.
Qed.
End outbound_theorems.
