(* ===== verification/CatalogIngress.v ===== *)
(** * pkg/catalog: traffic that enters the mesh

    ingress.go, access_control.go and multi_cluster.go: for a service, the traffic
    matches and HTTP routes of its IngressBackend, of its AccessControl and of its
    ServiceExport.  The status that is written back to the resource is part of the
    result. *)

From S2P Require Import Prelude GoStrings Net Identity Service PolicyApi TrafficPolicy K8s.
From S2P Require Import K8sClient KubeProvider Smi PolicyClient Catalog CatalogEgress.
From S2P Require Import CatalogInbound.

(** ** Types (pkg/trafficpolicy) *)

Record IngressTrafficMatch := mkIngressTrafficMatch {
  igm_Name : string;
  igm_Port : Z;
  igm_Protocol : string;
  igm_SourceIPRanges : list string;
  igm_TLS : option TLSSpec;
  igm_ServerNames : list string;
  igm_SkipClientCertValidation : bool;
  igm_RateLimit : option RateLimitSpec;
}.

Record IngressTrafficPolicy := mkIngressTrafficPolicy {
  igp_TrafficMatches : list IngressTrafficMatch;
  igp_HTTPRoutePolicies : list InboundTrafficPolicy;
}.

Record AccessControlTrafficMatch := mkAccessControlTrafficMatch {
  acm_Name : string;
  acm_Port : Z;
  acm_Protocol : string;
  acm_SourceIPRanges : list string;
  acm_TLS : option TLSSpec;
  acm_RateLimit : option RateLimitSpec;
}.

(** The elements of [HTTPRoutePolicies] are pointers; the code stores nil ones. *)
Record AccessControlTrafficPolicy := mkAccessControlTrafficPolicy {
  acp_TrafficMatches : list AccessControlTrafficMatch;
  acp_HTTPRoutePolicies : list (option InboundTrafficPolicy);
}.

Record ServiceExportTrafficMatch := mkServiceExportTrafficMatch {
  sem_Name : string;
  sem_Port : Z;
  sem_Protocol : string;
  sem_SourceIPRanges : list string;
  sem_TLS : option TLSSpec;
}.

Record ServiceExportTrafficPolicy := mkServiceExportTrafficPolicy {
  sep_TrafficMatches : list ServiceExportTrafficMatch;
  sep_HTTPRoutePolicies : list (option InboundTrafficPolicy);
}.

(** Could not list endpoints of the source service [namespace/name]. *)
Inductive SourceError := EndpointsNotFound (namespace name : string).

Definition singeIPPrefixLen : string := "/32".

Definition status_error (namespace name : string) : string * string :=
  ("error", "endpoints not found for service " +:+ namespace +:+ "/" +:+ name).
Definition status_committed : string * string :=
  ("committed", "successfully committed by the system").

Definition ib_with_status (ib : IngressBackend) (st : string * string) : IngressBackend := {|
  ib_Meta := ib_Meta ib; ib_Spec := ib_Spec ib;
  ib_Status := mkIngressBackendStatus st.1 st.2 |}.
Definition ac_with_status (ac : AccessControl) (st : string * string) : AccessControl := {|
  ac_Meta := ac_Meta ac; ac_Spec := ac_Spec ac;
  ac_Status := mkAccessControlStatus st.1 st.2 |}.

(** ** Sources *)

(** What the loop over the sources updates: [sourceIPSet] with [sourceIPRanges],
    and [sourcePrincipals]. *)
Record SourceAcc := mkSourceAcc {
  src_set : gset string;
  src_ranges : list string;
  src_principals : gset string;
}.

(** [backend.TLS != nil && backend.TLS.SkipClientCertValidation] *)
Definition skipsValidation (tls : option TLSSpec) : bool :=
  match tls with Some t => tls_SkipClientCertValidation t | None => false end.

Section ingress.
Context `{RangeOrder} (mc : MeshCatalog).

Definition endpointCIDRs (svc : MeshService) : list string :=
  (λ ep, IP_String (ep_IP ep) +:+ singeIPPrefixLen) <$> listEndpointsForService mc svc.

(** One turn of the loop over the sources, the same for both resources. *)
Definition sourceStep (tls : option TLSSpec) (acc : SourceAcc) (kind name namespace : string) :
    result SourceError SourceAcc :=
  if decide (kind = KindService) then
    let cidrs := endpointCIDRs (mkMeshService namespace name 0 0 "" "") in
    if decide (cidrs = []) then Err (EndpointsNotFound namespace name)
    else
      let '(set, ranges) := foldl set_append (src_set acc, src_ranges acc) cidrs in
      Ok (mkSourceAcc set ranges (src_principals acc))
  else if decide (kind = KindIPRange) then
    match ParseCIDR name with
    | None => Ok acc
    | Some _ => Ok (mkSourceAcc (src_set acc) (src_ranges acc ++ [name]) (src_principals acc))
    end
  else if decide (kind = KindAuthenticatedPrincipal) then
    let principal := if skipsValidation tls then WildcardServiceIdentity else name in
    Ok (mkSourceAcc (src_set acc) (src_ranges acc) ({[principal]} ∪ src_principals acc))
  else Ok acc.

(** *** The loops

    Over the backends of an IngressBackend or AccessControl, and over its sources
    for every backend that is the service's; [sourcePrincipals] is one set for the
    whole call, which every rule points to.  The two files have the same loops over
    their own types: [kind], [name] and [namespace] are the fields of a source,
    [backendName], [port] and [tls] those of a backend, and [mkMatch] makes the
    traffic match. *)
Section loops.
Context {S B M : Type} (kind name namespace : S → string).
Context (backendName : B → string) (port : B → PortSpec) (tls : B → option TLSSpec).
Context (mkMatch : B → option UpstreamTrafficSetting → list string → M).

(** The sources for one backend, and the wildcard of an HTTP port: the source
    ranges, and the principals collected so far. *)
Definition sourcesLoop (sources : list S) (backend : B) (principals : gset string) :
    result SourceError (list string * gset string) :=
  match foldE (λ acc s, sourceStep (tls backend) acc (kind s) (name s) (namespace s))
          (mkSourceAcc ∅ [] principals) sources with
  | Err e => Err e
  | Ok acc =>
    Ok (src_ranges acc,
        if equal_fold (port_Protocol (port backend)) ProtocolHTTP
        then {[WildcardPrincipal]} ∪ src_principals acc
        else src_principals acc)
  end.

Fixpoint backendsLoop (svc : MeshService) (sources : list S) (backends : list B)
    (matches : list M) (principals : gset string) :
    outcome (result SourceError (list M * gset string)) :=
  match backends with
  | [] => Ret (Ok (matches, principals))
  | backend :: backends =>
    if decide (backendName backend = ms_Name svc ∧ port_Number (port backend) = ms_TargetPort svc) then
      uts ← pol_GetUpstreamTrafficSetting (mc_policyController mc) (by_service svc);
      match sourcesLoop sources backend principals with
      | Err e => Ret (Err e)
      | Ok (ranges, principals) =>
        backendsLoop svc sources backends (matches ++ [mkMatch backend uts ranges]) principals
      end
    else backendsLoop svc sources backends matches principals
  end.
End loops.

(** ** Ingress backends *)

Definition wildcardRoute (svc : MeshService) : RouteWeightedClusters := {|
  rwc_HTTPRouteMatch := WildCardRouteMatch;
  rwc_WeightedClusters := {[localCluster svc]};
  rwc_RetryPolicy := None;
  rwc_RateLimit := None;
|}.

Definition rateLimitOf (uts : option UpstreamTrafficSetting) : option RateLimitSpec :=
  uts ← uts; utss_RateLimit (uts_Spec uts).

Definition ingressMatch (svc : MeshService) (backend : BackendSpec) (uts : option UpstreamTrafficSetting)
    (sourceIPRanges : list string) : IngressTrafficMatch := {|
  igm_Name := IngressTrafficMatchName (ms_Name svc) (ms_Namespace svc)
                (uint16 (port_Number (be_Port backend))) (port_Protocol (be_Port backend));
  igm_Port := uint32 (port_Number (be_Port backend));
  igm_Protocol := port_Protocol (be_Port backend);
  igm_SourceIPRanges := sourceIPRanges;
  igm_TLS := be_TLS backend;
  igm_ServerNames := match be_TLS backend with Some t => tls_SNIHosts t | None => [] end;
  igm_SkipClientCertValidation := skipsValidation (be_TLS backend);
  igm_RateLimit := rateLimitOf uts;
|}.

(** The resources whose status is updated, and the result. *)
Definition GetIngressTrafficPolicy (svc : MeshService) :
    outcome (list IngressBackend * result SourceError (option IngressTrafficPolicy)) :=
  if cfg_EnableIngressBackendPolicy (mc_configurator mc) then
    match pol_GetIngressBackendPolicy (mc_policyController mc) svc with
    | None => Ret ([], Ok None)
    | Some ib =>
      r ← backendsLoop is_Kind is_Name is_Namespace be_Name be_Port be_TLS (ingressMatch svc) svc
            (ibs_Sources (ib_Spec ib)) (ibs_Backends (ib_Spec ib)) [] ∅;
      Ret match r with
          | Err (EndpointsNotFound ns n) =>
            ([ib_with_status ib (status_error ns n)], Err (EndpointsNotFound ns n))
          | Ok ([], _) => ([], Ok None)
          | Ok (matches, principals) =>
            ([ib_with_status ib status_committed],
             Ok (Some {|
               igp_TrafficMatches := matches;
               igp_HTTPRoutePolicies := [{|
                 itp_Name := MeshService_String svc +:+ "_from_" +:+ om_Name (ib_Meta ib);
                 itp_Hostnames := ["*"];
                 itp_Rules := (λ _, mkRule (wildcardRoute svc) principals) <$> matches;
                 itp_RateLimit := None |}] |}))
          end
    end
  else Ret ([], Ok None).

(** ** Access controls *)

Definition accessControlMatch (svc : MeshService) (backend : AccessControlBackendSpec)
    (uts : option UpstreamTrafficSetting) (sourceIPRanges : list string) : AccessControlTrafficMatch := {|
  acm_Name := AccessControlTrafficMatchName (ms_Name svc) (ms_Namespace svc)
                (uint16 (port_Number (acb_Port backend))) (port_Protocol (acb_Port backend));
  acm_Port := uint32 (port_Number (acb_Port backend));
  acm_Protocol := port_Protocol (acb_Port backend);
  acm_SourceIPRanges := sourceIPRanges;
  acm_TLS := acb_TLS backend;
  acm_RateLimit := rateLimitOf uts;
|}.

(** [protocol == constants.ProtocolHTTP || protocol == constants.ProtocolGRPC], in
    lower case. *)
Definition hasRoutes (protocol : string) : bool :=
  bool_decide (to_lower protocol = ProtocolHTTP) || bool_decide (to_lower protocol = ProtocolGRPC).

(** The policy of a list of rules, nil when there is none. *)
Definition routePolicy (name : string) (rules : list Rule) : option InboundTrafficPolicy :=
  match rules with
  | [] => None
  | _ => Some {| itp_Name := name; itp_Hostnames := ["*"]; itp_Rules := rules; itp_RateLimit := None |}
  end.

Definition GetAccessControlTrafficPolicy (svc : MeshService) :
    outcome (list AccessControl * result SourceError (option AccessControlTrafficPolicy)) :=
  if cfg_EnableAccessControlPolicy (mc_configurator mc) then
    match pol_GetAccessControlPolicy (mc_policyController mc) svc with
    | None => Ret ([], Ok None)
    | Some ac =>
      r ← backendsLoop acs_Kind acs_Name acs_Namespace acb_Name acb_Port acb_TLS
            (accessControlMatch svc) svc
            (acsp_Sources (ac_Spec ac)) (acsp_Backends (ac_Spec ac)) [] ∅;
      Ret match r with
          | Err (EndpointsNotFound ns n) =>
            ([ac_with_status ac (status_error ns n)], Err (EndpointsNotFound ns n))
          | Ok ([], _) => ([], Ok None)
          | Ok (matches, principals) =>
            ([ac_with_status ac status_committed],
             Ok (Some {|
               acp_TrafficMatches := matches;
               acp_HTTPRoutePolicies :=
                 [routePolicy (MeshService_String svc +:+ "_from_" +:+ om_Name (ac_Meta ac))
                    ((λ _, mkRule (wildcardRoute svc) principals) <$>
                       filter (λ m, hasRoutes (acm_Protocol m)) matches)] |}))
          end
    end
  else Ret ([], Ok None).

(** ** Exported services *)

Definition GetExportTrafficPolicy (svc : MeshService) :
    result string (option ServiceExportTrafficPolicy) :=
  match mcl_GetExportedRule (mc_multiclusterController mc) svc with
  | Err e => Err e
  | Ok None => Ok None
  | Ok (Some exportedRule) =>
    let controllerServices := mcl_GetIngressControllerServices (mc_multiclusterController mc) in
    let trafficMatch := {|
      sem_Name := ExportedServiceTrafficMatchName (ms_Name svc) (ms_Namespace svc)
                    (uint16 (ser_PortNumber exportedRule)) (ms_Protocol svc);
      sem_Port := uint32 (ser_PortNumber exportedRule);
      sem_Protocol := ms_Protocol svc;
      sem_SourceIPRanges := unique (controllerServices ≫= endpointCIDRs);
      sem_TLS := None |} in
    let sourcePrincipals : gset string :=
      if equal_fold (ms_Protocol svc) ProtocolHTTP then {[WildcardPrincipal]} else ∅ in
    let trafficRoutingRules :=
      if hasRoutes (ms_Protocol svc) then [mkRule (wildcardRoute svc) sourcePrincipals] else [] in
    Ok (Some {|
      sep_TrafficMatches := [trafficMatch];
      sep_HTTPRoutePolicies :=
        [routePolicy (MeshService_String svc +:+ "_from_" +:+ "IngressController") trafficRoutingRules] |})
  end.
End ingress.

(** ** Theorems: the loops *)

Lemma elem_of_foldl_set_append_sub `{Countable A} (st : gset A * list A) l y :
  (∀ x, x ∈ st.1 → x ∈ st.2) →
  let st' := foldl set_append st l in
  (∀ x, x ∈ st'.1 → x ∈ st'.2) ∧ (y ∈ st'.2 ↔ y ∈ st.2 ∨ y ∈ l).
Proof.
  revert st. induction l as [|x l IH]; intros st Hst; simpl; [split; [done|set_solver]|].
  destruct (IH (set_append st x)) as [Hsub ->].
  { unfold set_append. case_bool_decide; [done|]. simpl. set_solver. }
  split; [done|]. unfold set_append. case_bool_decide; simpl; set_solver.
Qed.

Section loop_theorems.
Context `{RangeOrder} (mc : MeshCatalog).
Context {S B : Type} (kind name namespace : S → string).

(** The source is a service without endpoints. *)
Definition source_missing (s : S) : Prop :=
  kind s = KindService ∧ endpointCIDRs mc (mkMeshService (namespace s) (name s) 0 0 "" "") = [].

(** The range is the address of an endpoint of a source, or a source itself. *)
Definition source_range (s : S) (x : string) : Prop :=
  (kind s = KindService ∧ x ∈ endpointCIDRs mc (mkMeshService (namespace s) (name s) 0 0 "" "")) ∨
  (kind s = KindIPRange ∧ is_Some (ParseCIDR x) ∧ x = name s).

(** The principal is a source's, or the wildcard if the certificate is not checked. *)
Definition source_principal (t : option TLSSpec) (s : S) (p : string) : Prop :=
  kind s = KindAuthenticatedPrincipal ∧
  p = if skipsValidation t then WildcardServiceIdentity else name s.

#[global] Instance source_missing_dec s : Decision (source_missing s).
Proof. unfold source_missing. apply _. Defined.

Lemma sourceStep_Ok t acc s acc' :
  sourceStep mc t acc (kind s) (name s) (namespace s) = Ok acc' →
  (∀ x, x ∈ src_set acc → x ∈ src_ranges acc) →
  (∀ x, x ∈ src_set acc' → x ∈ src_ranges acc') ∧
  (∀ x, x ∈ src_ranges acc' ↔ x ∈ src_ranges acc ∨ source_range s x) ∧
  (∀ p, p ∈ src_principals acc' ↔ p ∈ src_principals acc ∨ source_principal t s p) ∧
  ¬ source_missing s.
Proof.
  unfold sourceStep, source_range, source_principal, source_missing. intros Hstep Hsub.
  destruct (decide (kind s = KindService)) as [Hk|Hk].
  { set (cidrs := endpointCIDRs mc _) in *. destruct (decide (cidrs = [])) as [|Hne]; [done|].
    pose proof (elem_of_foldl_set_append_sub (src_set acc, src_ranges acc) cidrs) as Hf.
    destruct (foldl _ _ cidrs) as [set ranges]. injection Hstep as <-. simpl in *. rewrite Hk.
    split_and!; [naive_solver|naive_solver|naive_solver|naive_solver]. }
  destruct (decide (kind s = KindIPRange)) as [Hk'|Hk'].
  { rewrite Hk'. destruct (ParseCIDR (name s)) eqn:Hp; injection Hstep as <-; simpl.
    - split_and!; [set_solver| |naive_solver|naive_solver]. intros x.
      rewrite elem_of_app, list_elem_of_singleton. naive_solver.
    - split_and!; [done| |naive_solver|naive_solver]. intros x. split; [by left|].
      intros [?|[[? _]|(_ & [? ?] & ->)]]; [done..|congruence]. }
  destruct (decide (kind s = KindAuthenticatedPrincipal)) as [Hk''|Hk'']; injection Hstep as <-; simpl.
  - split_and!; [done|naive_solver| |naive_solver]. intros p. rewrite elem_of_union, elem_of_singleton.
    naive_solver.
  - naive_solver.
Qed.

Lemma sourceStep_Err t acc s e :
  sourceStep mc t acc (kind s) (name s) (namespace s) = Err e →
  source_missing s ∧ e = EndpointsNotFound (namespace s) (name s).
Proof.
  unfold sourceStep, source_missing. repeat case_decide; try done.
  - by intros [= <-].
  - by destruct (foldl _ _ _).
  - by destruct (ParseCIDR (name s)).
Qed.

Lemma sources_fold t acc sources :
  (∀ x, x ∈ src_set acc → x ∈ src_ranges acc) →
  match foldE (λ acc s, sourceStep mc t acc (kind s) (name s) (namespace s)) acc sources with
  | Ok acc' =>
    (∀ x, x ∈ src_ranges acc' ↔ x ∈ src_ranges acc ∨ ∃ s, s ∈ sources ∧ source_range s x) ∧
    (∀ p, p ∈ src_principals acc' ↔ p ∈ src_principals acc ∨ ∃ s, s ∈ sources ∧ source_principal t s p) ∧
    head (filter source_missing sources) = None
  | Err e => ∃ s, head (filter source_missing sources) = Some s ∧
      e = EndpointsNotFound (namespace s) (name s)
  end.
Proof.
  revert acc. induction sources as [|s sources IH]; intros acc Hsub; simpl.
  { split_and!; [set_solver..|done]. }
  rewrite filter_cons. destruct (sourceStep _ _ _ _ _ _) as [acc1|e] eqn:Hstep.
  - apply sourceStep_Ok in Hstep as (Hsub1 & Hr1 & Hp1 & Hm1); [|done].
    rewrite decide_False by done. specialize (IH acc1 Hsub1). destruct (foldE _ _ _) as [acc'|e]; [|done].
    destruct IH as (Hr & Hp & Hm). setoid_rewrite Hr. setoid_rewrite Hp. setoid_rewrite Hr1.
    setoid_rewrite Hp1. setoid_rewrite elem_of_cons. naive_solver.
  - apply sourceStep_Err in Hstep as [Hm ->]. rewrite decide_True by done. by exists s.
Qed.

Context (port : B → PortSpec) (tls : B → option TLSSpec).

(** The principals that a backend adds. *)
Definition backend_principal (sources : list S) (b : B) (p : string) : Prop :=
  (∃ s, s ∈ sources ∧ source_principal (tls b) s p) ∨
  (equal_fold (port_Protocol (port b)) ProtocolHTTP = true ∧ p = WildcardPrincipal).

Lemma sourcesLoop_spec sources b principals :
  match sourcesLoop mc kind name namespace port tls sources b principals with
  | Ok (ranges, ps) =>
    head (filter source_missing sources) = None ∧
    (∀ x, x ∈ ranges ↔ ∃ s, s ∈ sources ∧ source_range s x) ∧
    (∀ p, p ∈ ps ↔ p ∈ principals ∨ backend_principal sources b p)
  | Err e => ∃ s, head (filter source_missing sources) = Some s ∧
      e = EndpointsNotFound (namespace s) (name s)
  end.
Proof.
  unfold sourcesLoop, backend_principal.
  pose proof (sources_fold (tls b) (mkSourceAcc ∅ [] principals) sources) as Hf.
  destruct (foldE _ _ _) as [acc|e]; [|apply Hf; set_solver].
  destruct Hf as (Hr & Hp & Hm); [set_solver|]. simpl in *. split_and!; [done| |].
  - intros x. rewrite Hr. set_solver.
  - intros p. destruct (equal_fold _ _).
    + rewrite elem_of_union, elem_of_singleton, Hp. naive_solver.
    + rewrite Hp. naive_solver.
Qed.

Context {M : Type} (backendName : B → string).
Context (mkMatch : B → option UpstreamTrafficSetting → list string → M).

Abbreviation selected svc :=
  (λ b, backendName b = ms_Name svc ∧ port_Number (port b) = ms_TargetPort svc).

Definition match_of (sources : list S) (uts : option UpstreamTrafficSetting) (b : B) (m : M) : Prop :=
  ∃ ranges, m = mkMatch b uts ranges ∧
    ∀ x, x ∈ ranges ↔ ∃ s, s ∈ sources ∧ source_range s x.

Lemma backendsLoop_spec svc sources uts backends matches principals :
  pol_GetUpstreamTrafficSetting (mc_policyController mc) (by_service svc) = Ret uts →
  let r := backendsLoop mc kind name namespace backendName port tls mkMatch svc sources backends
             matches principals in
  match filter (selected svc) backends, head (filter source_missing sources) with
  | _ :: _, Some s => r = Ret (Err (EndpointsNotFound (namespace s) (name s)))
  | sel, _ => ∃ ms ps, r = Ret (Ok (matches ++ ms, ps)) ∧
      Forall2 (match_of sources uts) sel ms ∧
      ∀ p, p ∈ ps ↔ p ∈ principals ∨ ∃ b, b ∈ sel ∧ backend_principal sources b p
  end.
Proof.
  intros Huts. revert matches principals. induction backends as [|b backends IH]; intros matches principals.
  { rewrite filter_nil. exists [], principals. rewrite app_nil_r. split_and!; [done|constructor|set_solver]. }
  simpl. destruct (decide (selected svc b)) as [Hsel|Hsel].
  2: { rewrite filter_cons_False by done. apply IH. }
  rewrite filter_cons_True by done. rewrite Huts. simpl.
  pose proof (sourcesLoop_spec sources b principals) as Hs.
  destruct (sourcesLoop _ _ _ _ _ _ _ _ _) as [[ranges ps]|e].
  2: { destruct Hs as (s & -> & ->). done. }
  destruct Hs as (Hm & Hr & Hp). specialize (IH (matches ++ [mkMatch b uts ranges]) ps).
  rewrite Hm in *.
  assert (∃ ms ps', backendsLoop mc kind name namespace backendName port tls mkMatch svc sources backends
      (matches ++ [mkMatch b uts ranges]) ps = Ret (Ok ((matches ++ [mkMatch b uts ranges]) ++ ms, ps')) ∧
      Forall2 (match_of sources uts) (filter (selected svc) backends) ms ∧
      ∀ p, p ∈ ps' ↔ p ∈ ps ∨ ∃ b, b ∈ filter (selected svc) backends ∧ backend_principal sources b p)
    as (ms & ps' & E & HF & Hps) by by destruct (filter (selected svc) backends).
  exists (mkMatch b uts ranges :: ms), ps'. rewrite E, <-(assoc_L (++)). split_and!; [done| |].
  - constructor; [by exists ranges|done].
  - intros p. rewrite Hps, Hp. setoid_rewrite elem_of_cons. naive_solver.
Qed.
End loop_theorems.

(** ** Theorems: the policies *)

Section ingress_theorems.
Context `{RangeOrder} (mc : MeshCatalog) (svc : MeshService) (uts : option UpstreamTrafficSetting).
Context (Huts : pol_GetUpstreamTrafficSetting (mc_policyController mc) (by_service svc) = Ret uts).

(** C37. The ingress policy of a service, on every path.  It is empty when the
    IngressBackend has no backend with the service's name and target port; an
    error, recorded in the resource's status, when a source service has no
    endpoints; otherwise the status is committed, there is one match for every such
    backend, and it admits exactly the addresses of the endpoints of the source
    services and the valid IP ranges; all rules share the principals of all
    these backends, and send every request to the service's local cluster. *)
Theorem GetIngressTrafficPolicy_spec (ib : IngressBackend) :
  cfg_EnableIngressBackendPolicy (mc_configurator mc) = true →
  pol_GetIngressBackendPolicy (mc_policyController mc) svc = Some ib →
  let sources := ibs_Sources (ib_Spec ib) in
  let sel := filter (λ b, be_Name b = ms_Name svc ∧ port_Number (be_Port b) = ms_TargetPort svc)
               (ibs_Backends (ib_Spec ib)) in
  match sel, head (filter (source_missing mc is_Kind is_Name is_Namespace) sources) with
  | [], _ => GetIngressTrafficPolicy mc svc = Ret ([], Ok None)
  | _, Some s => GetIngressTrafficPolicy mc svc =
      Ret ([ib_with_status ib (status_error (is_Namespace s) (is_Name s))],
           Err (EndpointsNotFound (is_Namespace s) (is_Name s)))
  | _, None => ∃ p principals,
      GetIngressTrafficPolicy mc svc = Ret ([ib_with_status ib status_committed], Ok (Some p)) ∧
      Forall2 (match_of mc is_Kind is_Name is_Namespace (ingressMatch svc) sources uts)
        sel (igp_TrafficMatches p) ∧
      (∃ itp, igp_HTTPRoutePolicies p = [itp] ∧ itp_Hostnames itp = ["*"] ∧ itp_Rules itp ≠ [] ∧
         Forall (λ r, r = mkRule (wildcardRoute svc) principals) (itp_Rules itp)) ∧
      ∀ q, q ∈ principals ↔ ∃ b, b ∈ sel ∧ backend_principal is_Kind is_Name be_Port be_TLS sources b q
  end.
Proof using Huts.
  intros Hen Hib sources sel. unfold GetIngressTrafficPolicy. rewrite Hen, Hib.
  pose proof (backendsLoop_spec mc is_Kind is_Name is_Namespace be_Port be_TLS be_Name (ingressMatch svc)
    svc sources uts (ibs_Backends (ib_Spec ib)) [] ∅ Huts) as Hl. cbn zeta in Hl.
  fold sources sel in Hl. fold sources.
  destruct sel as [|b sel'] eqn:Hsel.
  { destruct Hl as (ms & ps & -> & HF & _). by inversion HF. }
  destruct (head _) as [s|]; [by rewrite Hl|]. destruct Hl as (ms & ps & -> & HF & Hp).
  destruct ms as [|m ms]; [by inversion HF|]. eexists _, ps. simpl. split; [done|]. simpl.
  split; [done|]. split.
  - eexists. split; [done|]. simpl. split_and!; [done..|]. constructor; [done|].
    apply Forall_fmap, Forall_true. done.
  - intros q. rewrite Hp. set_solver.
Qed.

Lemma routePolicy_None n rules : routePolicy n rules = None ↔ rules = [].
Proof. by destruct rules. Qed.

Lemma acl_protocols sources sel ms :
  Forall2 (match_of mc acs_Kind acs_Name acs_Namespace (accessControlMatch svc) sources uts) sel ms →
  port_Protocol ∘ acb_Port <$> sel = acm_Protocol <$> ms.
Proof. induction 1 as [|b m sel ms (ranges & -> & _) _ IH]; csimpl; [done|]. by rewrite IH. Qed.

(** No match has routes exactly when no backend does. *)
Lemma acl_no_routes sources sel ms :
  Forall2 (match_of mc acs_Kind acs_Name acs_Namespace (accessControlMatch svc) sources uts) sel ms →
  filter (λ m, hasRoutes (acm_Protocol m)) ms = [] ↔
  ∀ b, b ∈ sel → hasRoutes (port_Protocol (acb_Port b)) = false.
Proof.
  intros HF%acl_protocols. rewrite filter_nil_iff. split.
  - intros Hms b Hb. apply (list_elem_of_fmap_2 (port_Protocol ∘ acb_Port)) in Hb.
    rewrite HF in Hb. apply list_elem_of_fmap in Hb as (m & E & Hm). simpl in E. rewrite E.
    destruct (hasRoutes (acm_Protocol m)) eqn:Hr; [|done].
    destruct (Hms m Hm). by rewrite Hr.
  - intros Hsel m Hm Hr. apply (list_elem_of_fmap_2 acm_Protocol) in Hm. rewrite <-HF in Hm.
    apply list_elem_of_fmap in Hm as (b & E & Hb). simpl in E. specialize (Hsel b Hb).
    by rewrite E, Hsel in Hr.
Qed.

(** The access control policy of a service, on every path, as for ingress; a
    rule is made only for the backends whose protocol is HTTP or gRPC, and when
    there is none the policy that is stored is nil. *)
Theorem GetAccessControlTrafficPolicy_spec (ac : AccessControl) :
  cfg_EnableAccessControlPolicy (mc_configurator mc) = true →
  pol_GetAccessControlPolicy (mc_policyController mc) svc = Some ac →
  let sources := acsp_Sources (ac_Spec ac) in
  let sel := filter (λ b, acb_Name b = ms_Name svc ∧ port_Number (acb_Port b) = ms_TargetPort svc)
               (acsp_Backends (ac_Spec ac)) in
  match sel, head (filter (source_missing mc acs_Kind acs_Name acs_Namespace) sources) with
  | [], _ => GetAccessControlTrafficPolicy mc svc = Ret ([], Ok None)
  | _, Some s => GetAccessControlTrafficPolicy mc svc =
      Ret ([ac_with_status ac (status_error (acs_Namespace s) (acs_Name s))],
           Err (EndpointsNotFound (acs_Namespace s) (acs_Name s)))
  | _, None => ∃ p itp principals,
      GetAccessControlTrafficPolicy mc svc = Ret ([ac_with_status ac status_committed], Ok (Some p)) ∧
      Forall2 (match_of mc acs_Kind acs_Name acs_Namespace (accessControlMatch svc) sources uts)
        sel (acp_TrafficMatches p) ∧
      acp_HTTPRoutePolicies p = [itp] ∧
      (itp = None ↔ ∀ b, b ∈ sel → hasRoutes (port_Protocol (acb_Port b)) = false) ∧
      (∀ i, itp = Some i → itp_Hostnames i = ["*"] ∧
         Forall (λ r, r = mkRule (wildcardRoute svc) principals) (itp_Rules i)) ∧
      ∀ q, q ∈ principals ↔ ∃ b, b ∈ sel ∧ backend_principal acs_Kind acs_Name acb_Port acb_TLS sources b q
  end.
Proof using Huts.
  intros Hen Hac sources sel. unfold GetAccessControlTrafficPolicy. rewrite Hen, Hac.
  pose proof (backendsLoop_spec mc acs_Kind acs_Name acs_Namespace acb_Port acb_TLS acb_Name
    (accessControlMatch svc) svc sources uts (acsp_Backends (ac_Spec ac)) [] ∅ Huts) as Hl.
  cbn zeta in Hl. fold sources sel in Hl. fold sources.
  destruct sel as [|b sel'] eqn:Hsel.
  { destruct Hl as (ms & ps & -> & HF & _). by inversion HF. }
  destruct (head _) as [s|]; [by rewrite Hl|]. destruct Hl as (ms & ps & -> & HF & Hp).
  pose proof (acl_no_routes _ _ _ HF) as Hnone.
  destruct ms as [|m ms]; [by inversion HF|]. cbn [app].
  eexists (mkAccessControlTrafficPolicy (m :: ms) [_]), _, ps. split; [reflexivity|].
  split; [done|]. split; [done|]. split_and!.
  - rewrite routePolicy_None, fmap_nil_iff. done.
  - intros i Hi. unfold routePolicy in Hi. destruct (_ <$> _) as [|r rs] eqn:Hrs; [done|].
    injection Hi as <-. simpl. split; [done|]. rewrite <-Hrs. apply Forall_fmap, Forall_true. done.
  - intros q. rewrite Hp. set_solver.
Qed.
End ingress_theorems.
