(* ===== verification/Multicluster.v ===== *)
(** * pkg/multicluster: services that are exported to and imported from other clusters

    The client answers from the informer stores of the flomesh.io resources:
    ServiceExport, ServiceImport, GlobalTrafficPolicy and IngressClass.  A
    GlobalTrafficPolicy says how the traffic of a service is balanced over the
    clusters; without one the service stays in its own cluster.

    [catalog_view] is the client as the catalog sees it. *)

From S2P Require Import Prelude GoStrings Net Identity Service PolicyApi TrafficPolicy K8s.
From S2P Require Import K8sClient KubeProvider Catalog.

(** ** Resources *)

(** [Target] and [Endpoint] of v1alpha1/service_import.go. *)
Record ImportTarget := mkImportTarget {
  tgt_Host : string;
  tgt_IP : string;
  tgt_Port : Z;
  tgt_Path : string;
}.

Record ImportEndpoint := mkImportEndpoint {
  ie_Target : ImportTarget;
  ie_ClusterKey : string;
}.

Record ImportPort := mkImportPort {
  imp_Name : string;
  imp_AppProtocol : option string;
  imp_Port : Z;
  imp_Endpoints : list ImportEndpoint;
}.

Record ServiceImport := mkServiceImport {
  si_Namespace : string;
  si_Name : string;
  si_UID : string;
  si_Ports : list ImportPort;
  si_ServiceAccountName : string;
}.

(** [TrafficTarget] of v1alpha1/traffic_policy.go. *)
Record LoadBalanceTarget := mkLoadBalanceTarget {
  lbt_ClusterKey : string;
  lbt_Weight : option Z;
}.

Record GlobalTrafficPolicy := mkGlobalTrafficPolicy {
  gtp_Namespace : string;
  gtp_Name : string;
  gtp_LbType : string;
  gtp_LoadBalanceTarget : list LoadBalanceTarget;
}.

Definition ActiveActiveLbType : string := "ActiveActive".
Definition LocalityLbType : string := "Locality".
Definition FailOverLbType : string := "FailOver".

Record Condition := mkCondition {
  cond_Type : string;
  cond_Status : string;
}.

Record ServiceExport := mkServiceExport {
  se_Namespace : string;
  se_Name : string;
  se_Rules : list ServiceExportRule;
  se_Conditions : list Condition;
}.

Record IngressClass := mkIngressClass {
  ic_Name : string;
  ic_Annotations : labels;
}.

(** The stores of the informers that the client reads. *)
Record MulticlusterInformers := mkMulticlusterInformers {
  inf_ServiceExport : InformerStore ServiceExport;
  inf_ServiceImport : InformerStore ServiceImport;
  inf_GlobalTrafficPolicy : InformerStore GlobalTrafficPolicy;
  inf_IngressClass : InformerStore IngressClass;
}.

(** ** Annotations of imported endpoints (types.go)

    The format strings end in [%s/%d], an address and a port. *)

Definition addressKey (prefix ip : string) (port : Z) : string :=
  prefix +:+ ip +:+ "/" +:+ itoa port.

Definition ServiceImportClusterKeyAnnotation : string → Z → string :=
  addressKey "flomesh.io/ServiceImport/ClusterKey/".
Definition ServiceImportContextPathAnnotation : string → Z → string :=
  addressKey "flomesh.io/ServiceImport/ContextPath/".
Definition ServiceImportLBTypeAnnotation : string → Z → string :=
  addressKey "flomesh.io/ServiceImport/LBType/".
Definition ServiceImportLBWeightAnnotation : string → Z → string :=
  addressKey "flomesh.io/ServiceImport/LBWeight/".

(** The four writes to the annotations for one endpoint. *)
Definition annotateEndpoint (lbType : string) (m : labels) (ew : ImportEndpoint * Z) : labels :=
  let '(endpoint, lbWeight) := ew in
  let ip := tgt_IP (ie_Target endpoint) in
  let port := tgt_Port (ie_Target endpoint) in
  let m := <[ServiceImportClusterKeyAnnotation ip port := ie_ClusterKey endpoint]> m in
  let m := <[ServiceImportContextPathAnnotation ip port := tgt_Path (ie_Target endpoint)]> m in
  let m := <[ServiceImportLBTypeAnnotation ip port := lbType]> m in
  <[ServiceImportLBWeightAnnotation ip port := itoa lbWeight]> m.

Section client.
Context `{RangeOrder}.
(** [labels.Set(selector).AsSelector().Matches(labels)] of apimachinery. *)
Context (Matches : labels → labels → bool).
Context (c : MulticlusterInformers).

(** ** Load balancing (traffic_policy.go) *)

Definition getGlobalTrafficPolicy (svc : MeshService) : option GlobalTrafficPolicy :=
  match GetByKey (inf_GlobalTrafficPolicy c) (NamespacedKey svc) with
  | Ok p => p
  | Err _ => None
  end.

Definition isLocality (svc : MeshService) : bool :=
  match getGlobalTrafficPolicy svc with
  | Some gblTrafficPolicy => bool_decide (gtp_LbType gblTrafficPolicy = LocalityLbType)
  | None => true
  end.

Definition targetWeight (lbt : LoadBalanceTarget) : Z := default 0%Z (lbt_Weight lbt).

(** The loop that fills [clusterKeys]: a later target replaces an earlier one
    with the same key. *)
Definition targetKeys (weight : LoadBalanceTarget → Z) (targets : list LoadBalanceTarget) :
    gmap string Z :=
  foldl (λ m lbt, <[lbt_ClusterKey lbt := weight lbt]> m) ∅ targets.

Definition getServiceTrafficPolicy (svc : MeshService) : string * gmap string Z :=
  match getGlobalTrafficPolicy svc with
  | Some gblTrafficPolicy =>
    (gtp_LbType gblTrafficPolicy, targetKeys targetWeight (gtp_LoadBalanceTarget gblTrafficPolicy))
  | None => (LocalityLbType, ∅)
  end.

Definition GetLbWeightForService (svc : MeshService) : LbWeight :=
  match getGlobalTrafficPolicy svc with
  | Some gblTrafficPolicy =>
    let targets := gtp_LoadBalanceTarget gblTrafficPolicy in
    if decide (gtp_LbType gblTrafficPolicy = ActiveActiveLbType) then
      match targets with
      | [] => mkLbWeight true false false ClusterWeightAcceptAll ∅
      | _ =>
        match filter (λ lbt, ms_ServiceImportUID svc = lbt_ClusterKey lbt) targets with
        | [] => mkLbWeight true false false 0 ∅
        | lbt :: _ =>
          mkLbWeight true false false (targetWeight lbt) {[lbt_ClusterKey lbt := targetWeight lbt]}
        end
      end
    else if decide (gtp_LbType gblTrafficPolicy = FailOverLbType) then
      mkLbWeight false true false ClusterWeightFailOver
        (targetKeys (λ _, ClusterWeightFailOver) targets)
    else mkLbWeight false false true 0 ∅
  | None => mkLbWeight false false true 0 ∅
  end.

(** ** Imported services (service_import.go) *)

Definition importFor (svc : MeshService) : option ServiceImport :=
  match GetByKey (inf_ServiceImport c) (NamespacedKey svc) with
  | Ok i => i
  | Err _ => None
  end.

(** The service that stands for one address of an import. *)
Definition targetService (importedService : ServiceImport) (uid clusterIP : string)
    (ports : list ServicePort) : K8sService := {|
  svc_Namespace := si_Namespace importedService;
  svc_Name := si_Name importedService;
  svc_UID := uid;
  svc_Annotations := ∅;
  svc_Selector := {["app" := si_Name importedService]};
  svc_ClusterIP := clusterIP;
  svc_Ports := ports;
|}.

Definition targetSvcPort (port : ImportPort) : ServicePort :=
  mkServicePort (imp_Name port) (imp_Port port) (imp_AppProtocol port).

Definition mcs_GetService (svc : MeshService) : option K8sService :=
  if isLocality svc then None
  else
    importedService ← importFor svc;
    first_some (λ port,
      if equal_fold (si_Name importedService) (ms_Name svc) &&
         bool_decide (uint16 (imp_Port port) = ms_Port svc) &&
         bool_decide (imp_Endpoints port ≠ []) then
        Some match filter (λ e, ms_TargetPort svc = uint16 (tgt_Port (ie_Target e)))
                     (imp_Endpoints port) with
             | [] => targetService importedService (si_UID importedService) "" []
             | endpoint :: _ =>
               targetService importedService (si_UID importedService) (tgt_IP (ie_Target endpoint))
                 [targetSvcPort port]
             end
      else None) (si_Ports importedService).

Definition mcs_ListServices : list K8sService :=
  importedService ← List (inf_ServiceImport c);
  let svc := mkMeshService (si_Namespace importedService) (si_Name importedService) 0 0 "" "" in
  if isLocality svc then []
  else
    port ← si_Ports importedService;
    endpoint ← imp_Endpoints port;
    [targetService importedService (ie_ClusterKey endpoint) (tgt_IP (ie_Target endpoint))
       [targetSvcPort port]].

Definition mcs_GetNamespace (ns : string) : option Namespace :=
  first_some (λ importedService,
    if equal_fold (si_Namespace importedService) ns
    then Some (mkNamespace (si_Namespace importedService) ∅ ∅) else None)
    (List (inf_ServiceImport c)).

(** The pod that stands for one address of an import. *)
Definition targetPod (importedService : ServiceImport) (endpoint : ImportEndpoint) : Pod := {|
  pod_Namespace := si_Namespace importedService;
  pod_Name := tgt_Host (ie_Target endpoint);
  pod_UID := "";
  pod_Labels := {["app" := si_Name importedService]};
  pod_Annotations := ∅;
  pod_ServiceAccountName := si_ServiceAccountName importedService;
  pod_PodIPs := [tgt_IP (ie_Target endpoint)];
  pod_PodIP := tgt_IP (ie_Target endpoint);
|}.

Definition mcs_ListPods : list Pod :=
  importedService ← List (inf_ServiceImport c);
  port ← si_Ports importedService;
  targetPod importedService <$> imp_Endpoints port.

(** The endpoints of the port that the loop does not skip, with their weights. *)
Definition endpointWeight (svc : MeshService) (clusterKeys : gmap string Z)
    (endpoint : ImportEndpoint) : option Z :=
  if bool_decide (0 < ms_TargetPort svc)%Z &&
     bool_decide (ms_TargetPort svc ≠ uint16 (tgt_Port (ie_Target endpoint)))
  then None
  else if decide (clusterKeys = ∅) then Some 0%Z
  else clusterKeys !! ie_ClusterKey endpoint.

Definition selectedEndpoints (svc : MeshService) (clusterKeys : gmap string Z) (port : ImportPort) :
    list (ImportEndpoint * Z) :=
  omap (λ e, (e,.) <$> endpointWeight svc clusterKeys e) (imp_Endpoints port).

Definition endpointSubset (port : ImportPort) (endpoint : ImportEndpoint) : EndpointSubset := {|
  eps_Addresses := [mkEndpointAddress (tgt_IP (ie_Target endpoint)) (tgt_Host (ie_Target endpoint))];
  eps_Ports := [mkEndpointPort (imp_Name port) (tgt_Port (ie_Target endpoint))];
|}.

(** The port of the import for which endpoints are listed: the first with the
    number of the service, or the first if the service has no number. *)
Definition portFor (importedService : ServiceImport) (svc : MeshService) : option ImportPort :=
  first_some (λ port,
    if equal_fold (si_Name importedService) (ms_Name svc) &&
       (bool_decide (ms_Port svc = 0%Z) || bool_decide (ms_Port svc = uint16 (imp_Port port))) &&
       bool_decide (imp_Endpoints port ≠ [])
    then Some port else None) (si_Ports importedService).

Definition targetEndpoints (svc : MeshService) (importedService : ServiceImport) (port : ImportPort) :
    Endpoints :=
  let '(lbType, clusterKeys) := getServiceTrafficPolicy svc in
  let selected := selectedEndpoints svc clusterKeys port in {|
  eps_Namespace := si_Namespace importedService;
  eps_Name := si_Name importedService;
  eps_Annotations := foldl (annotateEndpoint lbType) ∅ selected;
  eps_Subsets := (λ ew, endpointSubset port ew.1) <$> selected;
|}.

Definition mcs_GetEndpoints (svc : MeshService) : result string (option Endpoints) :=
  if decide ((getServiceTrafficPolicy svc).1 = LocalityLbType) then Ok None
  else Ok (importedService ← importFor svc;
           port ← portFor importedService svc;
           Some (targetEndpoints svc importedService port)).

Definition mcs_ListServiceIdentitiesForService (svc : MeshService) :
    result K8sError (list K8sServiceAccount) :=
  match mcs_GetService svc with
  | None => Err errServiceNotFound
  | Some k8sSvc =>
    let selected pod := bool_decide (svc_Selector k8sSvc ≠ ∅) &&
                        Matches (svc_Selector k8sSvc) (pod_Labels pod) in
    let account pod := mkK8sServiceAccount (pod_Namespace pod) (pod_ServiceAccountName pod) in
    Ok (range_set (list_to_set (account <$> filter selected mcs_ListPods) : gset K8sServiceAccount))
  end.

(** The target ports of a service port, and whether they are active; a port
    of which no cluster is in [clusterKeys] is left out. *)
Definition mcs_GetTargetPortForServicePort (namespacedSvc : NamespacedName) (port : Z) : gmap Z bool :=
  let svc := mkMeshService (nn_Namespace namespacedSvc) (nn_Name namespacedSvc) 0 0 "" "" in
  let lb := GetLbWeightForService svc in
  if lbw_lc lb then ∅
  else
    match importFor svc with
    | None => ∅
    | Some importedService =>
      let endpoints :=
        svcPort ← si_Ports importedService;
        if equal_fold (si_Name importedService) (nn_Name namespacedSvc) &&
           bool_decide (uint16 (imp_Port svcPort) = port)
        then imp_Endpoints svcPort else [] in
      foldl (λ m endpoint,
        if bool_decide (lbw_clusterKeys lb = ∅) ||
           bool_decide (is_Some (lbw_clusterKeys lb !! ie_ClusterKey endpoint))
        then <[uint16 (tgt_Port (ie_Target endpoint)) := lbw_aa lb]> m else m) ∅ endpoints
    end.

(** ** Exported services (service_export.go) and ingress controllers (ingress_class.go) *)

(** A condition that stops the export. *)
Definition conditionRefuses (condition : Condition) : bool :=
  (bool_decide (cond_Type condition = "Valid") && bool_decide (cond_Status condition ≠ "True")) ||
  (bool_decide (cond_Type condition = "Conflict") && bool_decide (cond_Status condition ≠ "False")).

Definition GetExportedRule (svc : MeshService) : result string (option ServiceExportRule) :=
  match GetByKey (inf_ServiceExport c) (NamespacedKey svc) with
  | Err e => Err e
  | Ok None => Ok None
  | Ok (Some exportedService) =>
    if existsb conditionRefuses (se_Conditions exportedService) then Ok None
    else Ok (head (filter (λ rule, uint16 (ser_PortNumber rule) = ms_Port svc)
                     (se_Rules exportedService)))
  end.

(** The annotation, if it is there and not empty. *)
Definition nonEmptyAnnotation (annotations : labels) (key : string) : option string :=
  v ← annotations !! key; if decide (v = "") then None else Some v.

(** The first of the three namespace annotations that is set decides. *)
Definition ingressClassService (ingressClass : IngressClass) : option MeshService :=
  ns ← first_some (nonEmptyAnnotation (ic_Annotations ingressClass))
         ["meta.flomesh.io/fsm-namespace"; "meta.flomesh.io/erie-canal-namespace";
          "meta.flomesh.io/namespace"];
  svc ← nonEmptyAnnotation (ic_Annotations ingressClass) "meta.flomesh.io/ingress-pipy-svc";
  Some (mkMeshService ns svc 0 0 "" "").

Definition GetIngressControllerServices : list MeshService :=
  omap ingressClassService (List (inf_IngressClass c)).

(** The client, for the operations that the catalog calls. *)
Definition catalog_view : MulticlusterController := {|
  mcl_GetIngressControllerServices := GetIngressControllerServices;
  mcl_GetExportedRule := GetExportedRule;
  mcl_GetTargetPortForServicePort := mcs_GetTargetPortForServicePort;
  mcl_GetLbWeightForService := GetLbWeightForService;
|}.
End client.

(** ** Theorems: annotations *)

Lemma addressKey_inj prefix ip port ip' port' :
  addressKey prefix ip port = addressKey prefix ip' port' → (ip, port) = (ip', port').
Proof.
  unfold addressKey. intros Heq%app_inj_l.
  assert (itoa port = itoa port') as Hp%itoa_inj.
  { assert (last (split "/" (ip +:+ "/" +:+ itoa port)) = last (split "/" (ip' +:+ "/" +:+ itoa port')))
      as Hl by by rewrite Heq.
    change ("/" +:+ itoa port) with (String "/" (itoa port)) in Hl.
    change ("/" +:+ itoa port') with (String "/" (itoa port')) in Hl.
    rewrite !last_split_app in Hl by auto with osm. by injection Hl. }
  subst port'. f_equal. eapply app_inj_r, Heq.
Qed.

Definition address (e : ImportEndpoint) : string * Z := (tgt_IP (ie_Target e), tgt_Port (ie_Target e)).

(** What the annotations say of an address. *)
Definition notes (m : labels) (a : string * Z) : list (option string) :=
  [ m !! ServiceImportClusterKeyAnnotation a.1 a.2; m !! ServiceImportContextPathAnnotation a.1 a.2;
    m !! ServiceImportLBTypeAnnotation a.1 a.2; m !! ServiceImportLBWeightAnnotation a.1 a.2 ].

Definition notes_of (lbType : string) (ew : ImportEndpoint * Z) : list (option string) :=
  [ Some (ie_ClusterKey ew.1); Some (tgt_Path (ie_Target ew.1)); Some lbType; Some (itoa ew.2) ].

Ltac other_address :=
  let H := fresh in intros H; first [by apply addressKey_inj in H | discriminate H].

Lemma notes_annotate lbType m ew a :
  notes (annotateEndpoint lbType m ew) a =
  if decide (a = address ew.1) then notes_of lbType ew else notes m a.
Proof.
  destruct ew as [e w], a as [ip port]. unfold notes, notes_of, annotateEndpoint, address. simpl.
  case_decide as Ha.
  - injection Ha as -> ->.
    repeat match goal with |- _ :: _ = _ :: _ => apply (f_equal2 cons) end; [..|done].
    all: repeat (rewrite lookup_insert_ne by other_address); by rewrite lookup_insert_eq.
  - repeat match goal with |- _ :: _ = _ :: _ => apply (f_equal2 cons) end; [..|done].
    all: by repeat (rewrite lookup_insert_ne by other_address).
Qed.

(** The annotations of a listed address are those of a listed endpoint with that
    address: its own, unless a later endpoint shares the address. *)
Lemma notes_origin lbType sel m e w :
  (e, w) ∈ sel →
  ∃ ew, ew ∈ sel ∧ address ew.1 = address e ∧
    notes (foldl (annotateEndpoint lbType) m sel) (address e) = notes_of lbType ew.
Proof.
  revert m. induction sel as [|ew sel IH] using rev_ind; intros m He; [by apply elem_of_nil in He|].
  rewrite foldl_app. simpl. rewrite notes_annotate. case_decide as Ha.
  - exists ew. split_and!; [apply elem_of_app; right; by left|done..].
  - apply elem_of_app in He as [He|He%list_elem_of_singleton]; [|by subst ew].
    destruct (IH m He) as (ew' & ? & ? & ?). exists ew'.
    split_and!; [apply elem_of_app; by left|done..].
Qed.

(** ** Theorems: policies *)

Lemma targetKeys_lookup weight targets k :
  is_Some (targetKeys weight targets !! k) ↔ k ∈ lbt_ClusterKey <$> targets.
Proof.
  unfold targetKeys. induction targets as [|t targets IH] using rev_ind; [split; [by intros []|set_solver]|].
  rewrite foldl_app, fmap_app, elem_of_app, <-IH. simpl. rewrite list_elem_of_singleton.
  destruct (decide (lbt_ClusterKey t = k)) as [->|Hne].
  - rewrite lookup_insert_eq. naive_solver.
  - rewrite lookup_insert_ne by done. naive_solver.
Qed.

Lemma targetKeys_empty weight targets : targetKeys weight targets = ∅ ↔ targets = [].
Proof.
  split; [|by intros ->]. intros He. destruct targets as [|t targets]; [done|].
  assert (is_Some (targetKeys weight (t :: targets) !! lbt_ClusterKey t)) as [x Hx]
    by (apply targetKeys_lookup; set_solver).
  by rewrite He, lookup_empty in Hx.
Qed.

(** The cluster is one that the policy balances over; without targets all are. *)
Definition in_targets (p : GlobalTrafficPolicy) (k : string) : Prop :=
  gtp_LoadBalanceTarget p = [] ∨ k ∈ lbt_ClusterKey <$> gtp_LoadBalanceTarget p.

#[global] Instance in_targets_dec p k : Decision (in_targets p k).
Proof. unfold in_targets. apply _. Defined.

Definition policyKeys (p : GlobalTrafficPolicy) : gmap string Z :=
  targetKeys targetWeight (gtp_LoadBalanceTarget p).

(** An endpoint is listed for a target port exactly when it has the port and
    its cluster is a target. *)
Lemma endpointWeight_Some svc p e :
  (0 ≤ ms_TargetPort svc)%Z →
  is_Some (endpointWeight svc (policyKeys p) e) ↔
  (ms_TargetPort svc = 0%Z ∨ ms_TargetPort svc = uint16 (tgt_Port (ie_Target e))) ∧
  in_targets p (ie_ClusterKey e).
Proof.
  intros Htp. unfold endpointWeight, in_targets.
  rewrite <-(targetKeys_lookup targetWeight), <-(targetKeys_empty targetWeight).
  fold (policyKeys p). case_bool_decide as H1; simpl.
  - case_bool_decide as H2; [split; [by intros []|naive_solver lia]|].
    case_decide as Hk; [split; [|by eauto]; intros _; split; [right; lia|by left]|].
    split; [intros ?; split; [right; lia|by right]|naive_solver].
  - assert (ms_TargetPort svc = 0%Z) as -> by lia.
    case_decide as Hk; [split; [|by eauto]; intros _; split; by left|].
    split; [intros ?; split; [by left|by right]|naive_solver].
Qed.

Lemma elem_of_selected svc keys port e w :
  (e, w) ∈ selectedEndpoints svc keys port ↔ e ∈ imp_Endpoints port ∧ endpointWeight svc keys e = Some w.
Proof.
  unfold selectedEndpoints. rewrite list_elem_of_omap. setoid_rewrite fmap_Some. naive_solver.
Qed.

(** ** Theorems: imports *)

Definition import_key (si : ServiceImport) : string := si_Namespace si +:+ "/" +:+ si_Name si.

(** The store of imports is that of client-go, and the name of an import is a
    DNS label, as that of a service. *)
Record imports_ok (c : MulticlusterInformers) : Prop := {
  io_store : store_ok import_key (inf_ServiceImport c);
  io_names : ∀ si, si ∈ List (inf_ServiceImport c) → free_of "." (si_Name si);
}.

(** The addresses of the imports are IP addresses with the number of a port. *)
Definition addresses_ok (c : MulticlusterInformers) : Prop :=
  ∀ si port e, si ∈ List (inf_ServiceImport c) → port ∈ si_Ports si → e ∈ imp_Endpoints port →
    (0 < tgt_Port (ie_Target e) < 2 ^ 16)%Z ∧ is_Some (ParseIP (tgt_IP (ie_Target e))).

(** The policy of a service is one that balances over clusters. *)
Definition balanced (c : MulticlusterInformers) (svc : MeshService) (p : GlobalTrafficPolicy) : Prop :=
  getGlobalTrafficPolicy c svc = Some p ∧ gtp_LbType p ≠ LocalityLbType.

Section import_theorems.
Context (c : MulticlusterInformers).

Lemma balanced_key svc svc' p : NamespacedKey svc = NamespacedKey svc' → balanced c svc p → balanced c svc' p.
Proof. intros Hkey. unfold balanced, getGlobalTrafficPolicy. by rewrite Hkey. Qed.

Lemma isLocality_false svc : isLocality c svc = false ↔ ∃ p, balanced c svc p.
Proof.
  unfold isLocality, balanced. destruct (getGlobalTrafficPolicy c svc) as [p|].
  - rewrite bool_decide_eq_false. naive_solver.
  - split; [done|]. by intros (? & ? & _).
Qed.

Lemma portFor_Some si svc port :
  portFor si svc = Some port →
  port ∈ si_Ports si ∧ imp_Endpoints port ≠ [] ∧ (ms_Port svc = 0%Z ∨ ms_Port svc = uint16 (imp_Port port)).
Proof.
  intros (port' & Hin & Hif)%first_some_elem. destruct (_ && _ && _) eqn:Hb; [|done].
  injection Hif as ->. rewrite !andb_true_iff, orb_true_iff, !bool_decide_eq_true in Hb. naive_solver.
Qed.

Lemma portFor_ext si svc svc' :
  ms_Name svc = ms_Name svc' → ms_Port svc = ms_Port svc' → portFor si svc = portFor si svc'.
Proof. intros Hn Hp. unfold portFor. by rewrite Hn, Hp. Qed.

(** A port with endpoints is found under its number, if it is the only one with
    the number. *)
Lemma portFor_unique si svc port e :
  equal_fold (si_Name si) (ms_Name svc) = true → ms_Port svc = uint16 (imp_Port port) →
  NoDup (imp_Port <$> si_Ports si) → (∀ port, port ∈ si_Ports si → 0 < imp_Port port < 2 ^ 16)%Z →
  port ∈ si_Ports si → e ∈ imp_Endpoints port → portFor si svc = Some port.
Proof.
  intros Hn Hp Hnd Hr Hport He. pose proof (Hr port Hport) as Hr1.
  assert (ms_Port svc = imp_Port port) as Hp' by (rewrite Hp; apply uint16_id; unfold is_uint16; lia).
  destruct (portFor si svc) as [port'|] eqn:Hf.
  - apply portFor_Some in Hf as (Hport' & _ & Heq). f_equal. pose proof (Hr port' Hport') as Hr2.
    apply (NoDup_fmap_key imp_Port (si_Ports si)); [done..|].
    rewrite uint16_id in Heq by (unfold is_uint16; lia). lia.
  - unfold portFor in Hf. rewrite first_some_None in Hf. specialize (Hf port Hport).
    rewrite Hn, Hp, (bool_decide_true (uint16 _ = uint16 _)), orb_true_r in Hf by done.
    rewrite bool_decide_true in Hf by (intros E; rewrite E in He; by apply elem_of_nil in He). done.
Qed.

(** The endpoints object, when there is one. *)
Lemma mcs_GetEndpoints_Some svc eps :
  mcs_GetEndpoints c svc = Ok (Some eps) ↔
  ∃ p si port, balanced c svc p ∧ importFor c svc = Some si ∧ portFor si svc = Some port ∧
    eps = mkEndpoints (si_Namespace si) (si_Name si)
      (foldl (annotateEndpoint (gtp_LbType p)) ∅ (selectedEndpoints svc (policyKeys p) port))
      ((λ ew, endpointSubset port ew.1) <$> selectedEndpoints svc (policyKeys p) port).
Proof.
  unfold mcs_GetEndpoints, targetEndpoints, getServiceTrafficPolicy, balanced.
  destruct (getGlobalTrafficPolicy c svc) as [p|]; simpl.
  2: { split; [done|]. by intros (? & ? & ? & [? _] & _). }
  case_decide as Hl; [split; [done|]; intros (? & ? & ? & [[= <-] Hne] & _); by destruct Hne|].
  destruct (importFor c svc) as [si|]; simpl; [|split; [done|]; intros (? & ? & ? & _ & ? & _); done].
  destruct (portFor si svc) as [port|] eqn:Hp; simpl.
  - split; [intros [= <-]; by exists p, si, port|].
    intros (p' & si' & port' & [[= <-] _] & [= <-] & Hp' & ->). rewrite Hp in Hp'. by injection Hp' as <-.
  - split; [done|]. intros (? & si' & ? & _ & [= <-] & ? & _). congruence.
Qed.

Lemma import_listed si svc :
  imports_ok c → si ∈ List (inf_ServiceImport c) → ms_Namespace svc = si_Namespace si → ms_Name svc = si_Name si →
  NamespacedKey svc = import_key si ∧ importFor c svc = Some si.
Proof.
  intros Hok Hsi Hns Hn. pose proof (io_names c Hok si Hsi) as Hdot.
  assert (NamespacedKey svc = import_key si) as Hkey.
  { unfold NamespacedKey, import_key. rewrite <-Hn in Hdot |- *.
    by rewrite (proj2 (ProviderKey_plain svc Hdot)), Hns. }
  split; [done|]. unfold importFor. rewrite Hkey.
  by rewrite (proj1 (store_list _ _ (io_store c Hok) si) Hsi).
Qed.

Lemma elem_of_mcs_ListServices svc :
  svc ∈ mcs_ListServices c ↔
  ∃ si port e p, si ∈ List (inf_ServiceImport c) ∧ port ∈ si_Ports si ∧ e ∈ imp_Endpoints port ∧
    balanced c (mkMeshService (si_Namespace si) (si_Name si) 0 0 "" "") p ∧
    svc = targetService si (ie_ClusterKey e) (tgt_IP (ie_Target e)) [targetSvcPort port].
Proof.
  unfold mcs_ListServices. rewrite list_elem_of_bind. split.
  - intros (si & Hsvc & Hsi). destruct (isLocality c _) eqn:Hl; [by apply elem_of_nil in Hsvc|].
    apply isLocality_false in Hl as [p Hp].
    apply list_elem_of_bind in Hsvc as (port & Hsvc & Hport).
    apply list_elem_of_bind in Hsvc as (e & ->%list_elem_of_singleton & He). by exists si, port, e, p.
  - intros (si & port & e & p & Hsi & Hport & He & Hp & ->). exists si. split; [|done].
    rewrite (proj2 (isLocality_false _)) by eauto.
    apply list_elem_of_bind. exists port. split; [|done].
    apply list_elem_of_bind. exists e. split; [by apply list_elem_of_singleton|done].
Qed.

Lemma elem_of_mcs_ListPods pod :
  pod ∈ mcs_ListPods c ↔
  ∃ si port e, si ∈ List (inf_ServiceImport c) ∧ port ∈ si_Ports si ∧ e ∈ imp_Endpoints port ∧
    pod = targetPod si e.
Proof.
  unfold mcs_ListPods. rewrite list_elem_of_bind. setoid_rewrite list_elem_of_bind.
  setoid_rewrite list_elem_of_fmap. naive_solver.
Qed.

(** A service with the number of a port of its import is found. *)
Lemma mcs_GetService_found si svc port e p :
  imports_ok c → si ∈ List (inf_ServiceImport c) → ms_Namespace svc = si_Namespace si → ms_Name svc = si_Name si →
  balanced c svc p → port ∈ si_Ports si → e ∈ imp_Endpoints port →
  ms_Port svc = uint16 (imp_Port port) →
  ∃ k8sSvc, mcs_GetService c svc = Some k8sSvc ∧ svc_Selector k8sSvc = {["app" := si_Name si]} ∧
    svc_Namespace k8sSvc = si_Namespace si.
Proof.
  intros Hok Hsi Hns Hn Hp Hport He Hnum. unfold mcs_GetService.
  rewrite (proj2 (isLocality_false svc)) by eauto.
  destruct (import_listed si svc Hok Hsi Hns Hn) as [_ ->]. simpl.
  match goal with |- context [first_some ?g _] => set (f := g) end.
  destruct (first_some f (si_Ports si)) as [k8sSvc|] eqn:Hf.
  - exists k8sSvc. split; [done|]. apply first_some_elem in Hf as (port' & _ & Hf). unfold f in Hf.
    destruct (_ && _ && _); [|done]. injection Hf as <-. by destruct (filter _ _).
  - rewrite first_some_None in Hf. specialize (Hf port Hport). unfold f in Hf.
    rewrite Hn, Hnum, equal_fold_refl, bool_decide_true in Hf by done.
    rewrite bool_decide_true in Hf by (intros E; rewrite E in He; by apply elem_of_nil in He). done.
Qed.
End import_theorems.
