(* ===== verification/FsmProvider.v ===== *)
(** * pkg/providers/fsm: the provider of imported services and their endpoints

    The second provider of the catalog, on top of the multicluster client.  An
    address of an import stands for a service, a pod and an endpoint; what the
    import says of it reaches the endpoint through annotations. *)

From S2P Require Import Prelude GoStrings GoTime Net Identity Service PolicyApi TrafficPolicy K8s.
From S2P Require Import K8sClient KubeProvider Smi PolicyClient Catalog CatalogOutbound Multicluster.

(** ** [strconv.ParseUint]

    The value that is returned also with an error: zero for a character that
    is no digit, the largest number when the number is too large. *)
Fixpoint parseUint_loop (maxVal : Z) (s : string) (n : Z) : Z :=
  match s with
  | EmptyString => n
  | String c s =>
    if decimal_digit c then
      let n1 := (10 * n + (Z.of_nat (nat_of_ascii c) - 48))%Z in
      if decide (maxVal < n1)%Z then maxVal else parseUint_loop maxVal s n1
    else 0%Z
  end.

Definition ParseUint_value (s : string) (bitSize : Z) : Z := parseUint_loop (2 ^ bitSize - 1) s 0.

(** ** The interface

    The operations of multicluster.Controller that the provider calls. *)
Record ImportController := mkImportController {
  ictl_ListServices : list K8sService;
  ictl_GetService : MeshService → option K8sService;
  ictl_ListPods : list Pod;
  ictl_ListServiceIdentitiesForService : MeshService → result K8sError (list K8sServiceAccount);
  ictl_GetEndpoints : MeshService → result string (option Endpoints);
}.

Definition provider_view `{RangeOrder} (Matches : labels → labels → bool)
    (c : MulticlusterInformers) : ImportController := {|
  ictl_ListServices := mcs_ListServices c;
  ictl_GetService := mcs_GetService c;
  ictl_ListPods := mcs_ListPods c;
  ictl_ListServiceIdentitiesForService := mcs_ListServiceIdentitiesForService Matches c;
  ictl_GetEndpoints := mcs_GetEndpoints c;
|}.

Definition AnyServiceAccount : string := "*".

(** ** The provider *)

Section fsm.
Context (Matches : labels → labels → bool) (multiclusterController : ImportController).

Definition fsm_GetID : string := "flomesh".

(** The endpoint for one address and port, from the annotations of the object. *)
Definition importedEndpoint (annotations : labels) (ip : IP) (address : EndpointAddress)
    (port : EndpointPort) : Endpoint :=
  let annotation key := default "" (annotations !! key (addr_IP address) (epp_Port port)) in {|
  ep_IP := ip;
  ep_Port := uint32 (epp_Port port);
  ep_Weight := uint32 (ParseUint_value (annotation ServiceImportLBWeightAnnotation) 32);
  ep_Priority := 0;
  ep_Zone := "";
  ep_ClusterKey := annotation ServiceImportClusterKeyAnnotation;
  ep_LBType := annotation ServiceImportLBTypeAnnotation;
  ep_Path := annotation ServiceImportContextPathAnnotation;
|}.

Definition fsm_ListEndpointsForService (svc : MeshService) : list Endpoint :=
  match ictl_GetEndpoints multiclusterController svc with
  | Ok (Some kubernetesEndpoints) =>
    kubernetesEndpoint ← eps_Subsets kubernetesEndpoints;
    port ← eps_Ports kubernetesEndpoint;
    if bool_decide (ms_TargetPort svc ≠ 0%Z) && bool_decide (epp_Port port ≠ ms_TargetPort svc)
    then []
    else
      address ← eps_Addresses kubernetesEndpoint;
      if bool_decide (Subdomain svc ≠ "") && bool_decide (Subdomain svc ≠ addr_Hostname address)
      then []
      else match ParseIP (addr_IP address) with
           | None => []
           | Some ip => [importedEndpoint (eps_Annotations kubernetesEndpoints) ip address port]
           end
  | _ => []
  end.

(** The pods of the account, or of any account. *)
Definition fsm_pods_of (sa : K8sServiceAccount) : list Pod :=
  filter (λ pod, pod_Namespace pod = sa_Namespace sa ∧
                 (pod_ServiceAccountName pod = sa_Name sa ∨
                  pod_ServiceAccountName pod = AnyServiceAccount))
    (ictl_ListPods multiclusterController).

Definition fsm_ListEndpointsForIdentity (serviceIdentity : ServiceIdentity) :
    outcome (list Endpoint) :=
  sa ← ToK8sServiceAccount serviceIdentity;
  Ret (fsm_pods_of sa ≫= λ pod, pod_endpoints (pod_PodIPs pod)).

(** The mesh services for a port: one for each port of the endpoints. *)
Definition importedMeshServices (svc : K8sService) (portSpec : ServicePort) : list MeshService :=
  let meshSvc targetPort := {|
    ms_Namespace := svc_Namespace svc;
    ms_Name := svc_Name svc;
    ms_Port := uint16 (sp_Port portSpec);
    ms_TargetPort := targetPort;
    ms_Protocol := default (portProtocol (sp_Name portSpec)) (sp_AppProtocol portSpec);
    ms_ServiceImportUID := svc_UID svc |} in
  match ictl_GetEndpoints multiclusterController (meshSvc 0%Z) with
  | Ok (Some endpoints) =>
    subset ← eps_Subsets endpoints;
    port ← eps_Ports subset;
    [meshSvc (uint16 (epp_Port port))]
  | _ => []
  end.

Definition fsm_ServiceToMeshServices (svc : K8sService) : list MeshService :=
  svc_Ports svc ≫= importedMeshServices svc.

Definition fsm_getServicesByLabels (podLabels : labels) (targetNamespace : string) :
    list MeshService :=
  filter (selects Matches podLabels targetNamespace) (ictl_ListServices multiclusterController)
    ≫= fsm_ServiceToMeshServices.

Definition fsm_GetServicesForServiceIdentity (svcIdentity : ServiceIdentity) :
    outcome (list MeshService) :=
  svcAccount ← ToK8sServiceAccount svcIdentity;
  Ret (unique (fsm_pods_of svcAccount ≫= λ pod,
         fsm_getServicesByLabels (pod_Labels pod) (pod_Namespace pod))).

Definition fsm_GetResolvableEndpointsForService (svc : MeshService) : list Endpoint :=
  match ictl_GetService multiclusterController svc with
  | None => []
  | Some kubeService =>
    if IsHeadlessService kubeService then fsm_ListEndpointsForService svc
    else match ParseIP (svc_ClusterIP kubeService) with
         | None => []
         | Some ip =>
           (λ p, mkEndpoint ip (uint32 (sp_Port p)) 0 0 "" fsm_GetID "" "") <$> svc_Ports kubeService
         end
  end.

Definition fsm_ListServices : list MeshService :=
  ictl_ListServices multiclusterController ≫= fsm_ServiceToMeshServices.

Definition fsm_ListServiceIdentitiesForService (svc : MeshService) : list ServiceIdentity :=
  match ictl_ListServiceIdentitiesForService multiclusterController svc with
  | Err _ => []
  | Ok serviceAccounts => ToServiceIdentity <$> serviceAccounts
  end.

Definition fsm_provider : Provider := {|
  prov_GetID := fsm_GetID;
  prov_ListEndpointsForService := fsm_ListEndpointsForService;
  prov_ListEndpointsForIdentity := fsm_ListEndpointsForIdentity;
  prov_GetResolvableEndpointsForService := fsm_GetResolvableEndpointsForService;
  prov_GetServicesForServiceIdentity := fsm_GetServicesForServiceIdentity;
  prov_ListServices := fsm_ListServices;
  prov_ListServiceIdentitiesForService := fsm_ListServiceIdentitiesForService;
|}.
End fsm.

(** ** Theorems *)

Lemma parseUint_loop_decimal maxVal s n :
  (0 ≤ n)%Z → all_chars decimal_digit s = true → (decimal s n ≤ maxVal)%Z →
  parseUint_loop maxVal s n = decimal s n.
Proof.
  revert n. induction s as [|a s IH]; intros n Hn; [done|]. cbn [all_chars decimal parseUint_loop].
  rewrite andb_true_iff. intros [Ha Hs] Hmax. rewrite Ha.
  unfold decimal_digit in Ha. rewrite bool_decide_eq_true in Ha.
  pose proof (decimal_ge s (10 * n + (Z.of_nat (nat_of_ascii a) - 48)) Hs ltac:(lia)).
  rewrite decide_False by lia. apply IH; [lia|done..].
Qed.

(** The weight that is printed is the one that is read, within 32 bits. *)
Lemma ParseUint_value_itoa w bits : (0 ≤ w < 2 ^ bits)%Z → ParseUint_value (itoa w) bits = w.
Proof.
  intros Hw. destruct (decimal_itoa w) as [Hd Ha]; [lia|]. unfold ParseUint_value.
  rewrite parseUint_loop_decimal; [done|lia|done|lia].
Qed.

Lemma bind_fmap_omap {A B C} (g : A → B) (f : B → list C) (h : A → option C) (l : list A) :
  (∀ x, x ∈ l → f (g x) = option_list (h x)) → (g <$> l) ≫= f = omap h l.
Proof.
  induction l as [|x l IH]; intros Hf; [done|]. rewrite fmap_cons, bind_cons, IH, Hf; [|set_solver..].
  simpl. by destruct (h x).
Qed.

Section fsm_theorems.
Context `{RangeOrder} (Matches : labels → labels → bool) (c : MulticlusterInformers).

(** The endpoint that an address of an import should become. *)
Definition endpointOf (lbType : string) (ew : ImportEndpoint * Z) : option Endpoint :=
  (λ ip, mkEndpoint ip (tgt_Port (ie_Target ew.1)) ew.2 0 "" (ie_ClusterKey ew.1) lbType
           (tgt_Path (ie_Target ew.1))) <$> ParseIP (tgt_IP (ie_Target ew.1)).

(** The endpoint of an address, with the annotations of [ew]. *)
Lemma importedEndpoint_notes annotations lbType ip host name e ew :
  notes annotations (address e) = notes_of lbType ew → is_uint16 (tgt_Port (ie_Target e)) →
  importedEndpoint annotations ip (mkEndpointAddress (tgt_IP (ie_Target e)) host)
    (mkEndpointPort name (tgt_Port (ie_Target e))) =
  mkEndpoint ip (tgt_Port (ie_Target e)) (uint32 (ParseUint_value (itoa ew.2) 32)) 0 ""
    (ie_ClusterKey ew.1) lbType (tgt_Path (ie_Target ew.1)).
Proof.
  unfold notes, notes_of, address. simpl. intros Hn Hp. injection Hn as Hk Hpath Hl Hweight.
  unfold importedEndpoint. simpl. rewrite Hk, Hpath, Hl, Hweight. simpl.
  unfold is_uint16 in Hp. unfold uint32 at 1. by rewrite Z.mod_small by lia.
Qed.

(** An endpoint of the import passes the tests of the provider. *)
Lemma selected_port svc keys port e w :
  (0 ≤ ms_TargetPort svc)%Z → is_uint16 (tgt_Port (ie_Target e)) →
  (e, w) ∈ selectedEndpoints svc keys port →
  ms_TargetPort svc = 0%Z ∨ tgt_Port (ie_Target e) = ms_TargetPort svc.
Proof.
  intros Htp Hport [_ He]%elem_of_selected. unfold endpointWeight in He.
  destruct (decide (ms_TargetPort svc = 0%Z)) as [|Hne]; [by left|right].
  rewrite bool_decide_true in He by lia. case_bool_decide as Heq; [done|].
  rewrite uint16_id in Heq by done. done.
Qed.

(** The annotations for the endpoints of a service. *)
Definition notesFor (svc : MeshService) (p : GlobalTrafficPolicy) (port : ImportPort) : labels :=
  foldl (annotateEndpoint (gtp_LbType p)) ∅ (selectedEndpoints svc (policyKeys p) port).

(** The provider lists the selected endpoints, with what the annotations say of
    their addresses. *)
Lemma fsm_endpoints_selected svc p si port :
  balanced c svc p → importFor c svc = Some si → portFor si svc = Some port →
  Subdomain svc = "" → (0 ≤ ms_TargetPort svc)%Z →
  (∀ e, e ∈ imp_Endpoints port → is_uint16 (tgt_Port (ie_Target e))) →
  fsm_ListEndpointsForService (provider_view Matches c) svc =
  omap (λ ew, (λ ip, importedEndpoint (notesFor svc p port) ip
                 (mkEndpointAddress (tgt_IP (ie_Target ew.1)) (tgt_Host (ie_Target ew.1)))
                 (mkEndpointPort (imp_Name port) (tgt_Port (ie_Target ew.1)))) <$>
              ParseIP (tgt_IP (ie_Target ew.1)))
    (selectedEndpoints svc (policyKeys p) port).
Proof.
  intros Hp Hsi Hport Hsub Htp Hports.
  pose proof (proj2 (mcs_GetEndpoints_Some c svc _)
    (ex_intro _ p (ex_intro _ si (ex_intro _ port (conj Hp (conj Hsi (conj Hport eq_refl))))))) as Heps.
  unfold fsm_ListEndpointsForService. simpl. rewrite Heps, Hsub. simpl. apply bind_fmap_omap.
  intros [e w] Hew. pose proof (proj1 (proj1 (elem_of_selected _ _ _ _ _) Hew)) as He.
  simpl. rewrite app_nil_r.
  replace (bool_decide _ && bool_decide _) with false.
  2: { destruct (selected_port svc _ port e w Htp (Hports e He) Hew) as [->| ->];
       [by rewrite (bool_decide_false (0 ≠ 0)%Z) by naive_solver
       |by rewrite (bool_decide_false (_ ≠ ms_TargetPort svc)), andb_false_r by naive_solver]. }
  simpl. by destruct (ParseIP _).
Qed.

(** C30. The endpoints of an imported service are the addresses of its port that
    the policy selects, in their order, each with the cluster, path and weight
    that the import and the policy give it: nothing is lost or mixed up on the way
    through the annotations of the Endpoints object, as long as no two selected
    addresses are the same and the weights have 32 bits. *)
Theorem imported_endpoints_roundtrip (svc : MeshService) (p : GlobalTrafficPolicy)
    (si : ServiceImport) (port : ImportPort) :
  balanced c svc p → importFor c svc = Some si → portFor si svc = Some port →
  Subdomain svc = "" → (0 ≤ ms_TargetPort svc)%Z →
  (∀ e, e ∈ imp_Endpoints port → is_uint16 (tgt_Port (ie_Target e))) →
  let selected := selectedEndpoints svc (policyKeys p) port in
  NoDup ((λ ew, address ew.1) <$> selected) →
  (∀ e w, (e, w) ∈ selected → 0 ≤ w < 2 ^ 32)%Z →
  fsm_ListEndpointsForService (provider_view Matches c) svc = omap (endpointOf (gtp_LbType p)) selected.
Proof.
  intros Hp Hsi Hport Hsub Htp Hports selected Hnd Hw.
  rewrite (fsm_endpoints_selected svc p si port) by done. fold selected.
  apply list_omap_ext, Forall2_same_length_lookup_2; [done|].
  intros i ew ew' Hi Hi'. simplify_eq. destruct ew as [e w].
  pose proof (list_elem_of_lookup_2 _ _ _ Hi) as Hew.
  pose proof (proj1 (proj1 (elem_of_selected _ _ _ _ _) Hew)) as He.
  unfold endpointOf. simpl. destruct (ParseIP _) as [ip|]; simpl; [|done]. f_equal.
  destruct (notes_origin (gtp_LbType p) selected ∅ e w Hew) as (ew & Hin & Haddr & Hnotes).
  assert (ew = (e, w)) as -> by by apply (NoDup_fmap_key (λ ew, address ew.1) selected).
  rewrite (importedEndpoint_notes _ _ _ _ _ e (e, w) Hnotes) by by apply Hports.
  simpl. specialize (Hw e w Hew). rewrite ParseUint_value_itoa by done.
  unfold uint32. by rewrite Z.mod_small by lia.
Qed.

(** The mesh service for a port of an import, with the cluster of [e0] and the
    target port of [e]. *)
Definition importedService (si : ServiceImport) (sp : ImportPort) (e0 e : ImportEndpoint) : MeshService := {|
  ms_Namespace := si_Namespace si;
  ms_Name := si_Name si;
  ms_Port := uint16 (imp_Port sp);
  ms_TargetPort := uint16 (tgt_Port (ie_Target e));
  ms_Protocol := default (portProtocol (imp_Name sp)) (imp_AppProtocol sp);
  ms_ServiceImportUID := ie_ClusterKey e0;
|}.

Lemma elem_of_importedMeshServices si sp e0 ms :
  imports_ok c → si ∈ List (inf_ServiceImport c) →
  ms ∈ fsm_ServiceToMeshServices (provider_view Matches c)
         (targetService si (ie_ClusterKey e0) (tgt_IP (ie_Target e0)) [targetSvcPort sp]) ↔
  ∃ p port e, balanced c ms p ∧ portFor si ms = Some port ∧ e ∈ imp_Endpoints port ∧
    in_targets p (ie_ClusterKey e) ∧ ms = importedService si sp e0 e.
Proof.
  intros Hok Hsi. unfold fsm_ServiceToMeshServices, importedMeshServices. simpl. rewrite app_nil_r.
  set (ms0 := mkMeshService _ _ _ 0 _ _).
  assert (∀ e, NamespacedKey ms0 = NamespacedKey (importedService si sp e0 e)) as Hkey by done.
  assert (∀ e, portFor si ms0 = portFor si (importedService si sp e0 e)) as Hpf by (intros; by apply portFor_ext).
  destruct (import_listed c si ms0 Hok Hsi) as [_ Himp]; [done..|]. split.
  - destruct (mcs_GetEndpoints c ms0) as [[eps|]|] eqn:He; [|by intros ?%elem_of_nil..].
    apply mcs_GetEndpoints_Some in He as (p & si' & port & Hp & Hsi' & Hport & ->). simplify_eq.
    intros (sub & Hms & ([e w] & -> & Hew)%list_elem_of_fmap)%list_elem_of_bind. simpl in Hms.
    apply list_elem_of_singleton in Hms as ->. exists p, port, e.
    split_and!; [by eapply balanced_key|by rewrite (Hpf e) in Hport|by apply elem_of_selected in Hew as []| |done].
    apply elem_of_selected in Hew as [_ Hw]. eapply (endpointWeight_Some ms0); [done|by rewrite Hw].
  - intros (p & port & e & Hp & Hport & He & Ht & ->).
    apply (balanced_key c _ ms0) in Hp; [|done]. rewrite <-Hpf in Hport.
    destruct (proj2 (endpointWeight_Some ms0 p e ltac:(done))) as [w Hw]; [split; [by left|done]|].
    rewrite (proj2 (mcs_GetEndpoints_Some c ms0 _)
      (ex_intro _ p (ex_intro _ si (ex_intro _ port (conj Hp (conj Himp (conj Hport eq_refl))))))). simpl.
    apply list_elem_of_bind. exists (endpointSubset port e). split; [by apply list_elem_of_singleton|].
    apply list_elem_of_fmap. exists (e, w). split; [done|]. by apply elem_of_selected.
Qed.

(** The services that the provider lists. *)
Lemma elem_of_fsm_ListServices ms :
  imports_ok c →
  ms ∈ fsm_ListServices (provider_view Matches c) ↔
  ∃ si sp e0 p port e, si ∈ List (inf_ServiceImport c) ∧ sp ∈ si_Ports si ∧ e0 ∈ imp_Endpoints sp ∧
    balanced c ms p ∧ portFor si ms = Some port ∧ e ∈ imp_Endpoints port ∧
    in_targets p (ie_ClusterKey e) ∧ ms = importedService si sp e0 e.
Proof.
  intros Hok. unfold fsm_ListServices. rewrite list_elem_of_bind. simpl. split.
  - intros (svc & Hms & (si & sp & e0 & p & Hsi & Hsp & He0 & _ & ->)%elem_of_mcs_ListServices).
    apply elem_of_importedMeshServices in Hms as (p' & port & e & Hms); [|done..].
    by exists si, sp, e0, p', port, e.
  - intros (si & sp & e0 & p & port & e & Hsi & Hsp & He0 & Hp & Hport & He & Ht & ->).
    exists (targetService si (ie_ClusterKey e0) (tgt_IP (ie_Target e0)) [targetSvcPort sp]). split.
    + apply elem_of_importedMeshServices; [done..|]. by exists p, port, e.
    + apply elem_of_mcs_ListServices. exists si, sp, e0, p. split_and!; [done..| |done].
      by eapply balanced_key.
Qed.

(** The endpoints that the provider lists for a service, in terms of the import
    and the policy. *)
Lemma fsm_endpoints_origin svc p si port ep :
  balanced c svc p → importFor c svc = Some si → portFor si svc = Some port →
  Subdomain svc = "" → (0 ≤ ms_TargetPort svc)%Z →
  (∀ e, e ∈ imp_Endpoints port → is_uint16 (tgt_Port (ie_Target e))) →
  ep ∈ fsm_ListEndpointsForService (provider_view Matches c) svc →
  ∃ e, e ∈ imp_Endpoints port ∧ ep_Port ep = tgt_Port (ie_Target e) ∧
    Some (ep_IP ep) = ParseIP (tgt_IP (ie_Target e)) ∧ ep_ClusterKey ep = ie_ClusterKey e ∧
    ep_Path ep = tgt_Path (ie_Target e) ∧ ep_LBType ep = gtp_LbType p ∧
    (ms_TargetPort svc = 0%Z ∨ ep_Port ep = ms_TargetPort svc) ∧ in_targets p (ie_ClusterKey e).
Proof.
  intros Hp Hsi Hport Hsub Htp Hports. rewrite (fsm_endpoints_selected svc p si port) by done.
  intros ([e w] & Hew & Hep)%list_elem_of_omap. simpl in Hep.
  destruct (ParseIP _) as [ip|] eqn:Hip; [|done]. simpl in Hep. injection Hep as <-.
  pose proof (proj1 (proj1 (elem_of_selected _ _ _ _ _) Hew)) as He.
  destruct (notes_origin (gtp_LbType p) _ ∅ e w Hew) as ([e' w'] & Hew' & Haddr & Hnotes).
  rewrite (importedEndpoint_notes _ _ _ _ _ e (e', w') Hnotes) by by apply Hports.
  unfold address in Haddr. simpl in *. injection Haddr as Hip' Hport'.
  apply elem_of_selected in Hew' as [He' Hw'].
  destruct (proj1 (endpointWeight_Some svc p e' Htp)) as [_ Ht]; [by rewrite Hw'|].
  exists e'. rewrite Hip', Hport'. split_and!; [done..| |done].
  destruct (selected_port svc _ port e w Htp (Hports e He) Hew); auto.
Qed.

Lemma fsm_endpoints_some svc p si port e :
  balanced c svc p → importFor c svc = Some si → portFor si svc = Some port →
  Subdomain svc = "" → (0 ≤ ms_TargetPort svc)%Z →
  (∀ e, e ∈ imp_Endpoints port → is_uint16 (tgt_Port (ie_Target e))) →
  e ∈ imp_Endpoints port → is_Some (ParseIP (tgt_IP (ie_Target e))) →
  ms_TargetPort svc = uint16 (tgt_Port (ie_Target e)) → in_targets p (ie_ClusterKey e) →
  ∃ ep, ep ∈ fsm_ListEndpointsForService (provider_view Matches c) svc.
Proof.
  intros Hp Hsi Hport Hsub Htp Hports He [ip Hip] Heq Ht.
  rewrite (fsm_endpoints_selected svc p si port) by done.
  destruct (proj2 (endpointWeight_Some svc p e Htp)) as [w Hw]; [auto|].
  eexists. apply list_elem_of_omap. exists (e, w).
  split; [by apply elem_of_selected|]. simpl. by rewrite Hip.
Qed.
End fsm_theorems.

(** ** Theorems: the catalog with imported services *)

(** The numbers of the ports of an import are valid and different. *)
Definition numbers_ok (c : MulticlusterInformers) : Prop :=
  ∀ si, si ∈ List (inf_ServiceImport c) →
    NoDup (imp_Port <$> si_Ports si) ∧ ∀ port, port ∈ si_Ports si → (0 < imp_Port port < 2 ^ 16)%Z.

(** [ep] is an address of a cluster over which the policy balances, at the
    target port of the service. *)
Definition follows_policy (p : GlobalTrafficPolicy) (ms : MeshService) (ep : Endpoint) : Prop :=
  ep_Port ep = ms_TargetPort ms ∧ in_targets p (ep_ClusterKey ep) ∧ ep_LBType ep = gtp_LbType p.

Section imported.
Context `{RangeOrder} (Matches : labels → labels → bool) (c : MulticlusterInformers).

Lemma addresses_uint16 si port e :
  addresses_ok c → si ∈ List (inf_ServiceImport c) → port ∈ si_Ports si → e ∈ imp_Endpoints port →
  is_uint16 (tgt_Port (ie_Target e)).
Proof. intros Ha Hsi Hport He. destruct (Ha si port e) as [? _]; [done..|]. unfold is_uint16. lia. Qed.

Lemma importFor_listed svc si :
  imports_ok c → importFor c svc = Some si → si ∈ List (inf_ServiceImport c).
Proof.
  intros Hok. unfold importFor. destruct (GetByKey _ _) as [[x|]|] eqn:Hg; [|done..]. intros [= ->].
  apply (store_list _ _ (io_store c Hok)). by rewrite (store_key _ _ (io_store c Hok) _ _ Hg).
Qed.

(** A target port of a target cluster has endpoints, and only such that follow
    the policy. *)
Lemma fsm_endpoints_follow svc p si port e :
  imports_ok c → addresses_ok c → balanced c svc p → importFor c svc = Some si →
  portFor si svc = Some port → Subdomain svc = "" → e ∈ imp_Endpoints port →
  ms_TargetPort svc = uint16 (tgt_Port (ie_Target e)) → in_targets p (ie_ClusterKey e) →
  let endpoints := fsm_ListEndpointsForService (provider_view Matches c) svc in
  (∃ ep, ep ∈ endpoints) ∧ ∀ ep, ep ∈ endpoints → follows_policy p svc ep.
Proof.
  intros Hok Ha Hp Hsi Hport Hsub He Htp Ht endpoints.
  pose proof (importFor_listed svc si Hok Hsi) as Hl.
  destruct (portFor_Some _ _ _ Hport) as (Hin & _ & _).
  assert (∀ e, e ∈ imp_Endpoints port → is_uint16 (tgt_Port (ie_Target e))) as Hports
    by (intros e'; by apply (addresses_uint16 si)).
  destruct (Ha si port e) as [Hrange Hip]; [done..|].
  assert (ms_TargetPort svc = tgt_Port (ie_Target e)) as Htp' by (rewrite Htp; by apply uint16_id, Hports).
  assert (0 ≤ ms_TargetPort svc)%Z as Hpos by lia. split.
  - by apply (fsm_endpoints_some Matches c svc p si port e).
  - intros ep Hep. apply (fsm_endpoints_origin Matches c svc p si port) in Hep
      as (e' & _ & _ & _ & Hk & _ & Hlb & Hpt & Ht'); [|done..].
    unfold follows_policy. rewrite Hk. split_and!; [|done..]. destruct Hpt; [lia|done].
Qed.

(** C29. Every imported service that the catalog lists can be reached: it has an
    endpoint, and all endpoints that come from imports are at its target port, in
    clusters over which the policy of the service balances, and say how it does. *)
Theorem imported_services_served (mc : MeshCatalog) (ms : MeshService) :
  imports_ok c → addresses_ok c →
  fsm_provider Matches (provider_view Matches c) ∈ mc_endpointsProviders mc →
  ms ∈ fsm_ListServices (provider_view Matches c) →
  ∃ p, balanced c ms p ∧ (∃ ep, ep ∈ listEndpointsForService mc ms ∧ follows_policy p ms ep) ∧
    ∀ ep, ep ∈ fsm_ListEndpointsForService (provider_view Matches c) ms → follows_policy p ms ep.
Proof.
  intros Hok Ha Hprov Hms. apply elem_of_fsm_ListServices in Hms
    as (si & sp & e0 & p & port & e & Hsi & Hsp & He0 & Hp & Hport & He & Ht & ->); [|done].
  exists p. split; [done|].
  destruct (import_listed c si (importedService si sp e0 e) Hok Hsi) as [_ Himp]; [done..|].
  destruct (fsm_endpoints_follow (importedService si sp e0 e) p si port e) as [[ep Hep] Hall]; [done..| |done| |done|].
  - apply ProviderKey_plain. by apply (io_names c Hok).
  - done.
  - split; [|done]. exists ep. split; [|by apply Hall]. unfold listEndpointsForService.
    apply list_elem_of_bind. by exists (fsm_provider Matches (provider_view Matches c)).
Qed.

(** An identity and its imported services: a service that the provider gives
    an identity lists that identity, or all accounts of the namespace. *)
Theorem imported_identities_agree (sa : K8sServiceAccount) (l : list MeshService) (ms : MeshService) :
  imports_ok c → sa_dotless sa →
  fsm_GetServicesForServiceIdentity Matches (provider_view Matches c) (ToServiceIdentity sa) = Ret l →
  ms ∈ l →
  let any := mkK8sServiceAccount (sa_Namespace sa) AnyServiceAccount in
  ToServiceIdentity sa ∈ fsm_ListServiceIdentitiesForService (provider_view Matches c) ms ∨
  ToServiceIdentity any ∈ fsm_ListServiceIdentitiesForService (provider_view Matches c) ms.
Proof.
  intros Hok Hsa Hl Hms any. unfold fsm_GetServicesForServiceIdentity in Hl.
  rewrite (ToK8s_dotless sa Hsa) in Hl. simpl in Hl. injection Hl as <-.
  rewrite elem_of_unique, list_elem_of_bind in Hms. destruct Hms as (pod & Hms & Hpod).
  unfold fsm_pods_of in Hpod. rewrite list_elem_of_filter in Hpod. destruct Hpod as [[Hns Hacc] Hpod].
  unfold fsm_getServicesByLabels in Hms. rewrite list_elem_of_bind in Hms.
  destruct Hms as (svc & Hms & Hsvc). rewrite list_elem_of_filter in Hsvc.
  destruct Hsvc as [Hsel (si & sp & e0 & p & Hsi & Hsp & He0 & _ & ->)%elem_of_mcs_ListServices].
  apply elem_of_importedMeshServices in Hms as (p' & port & e & Hp & _ & _ & _ & ->); [|done..].
  destruct (mcs_GetService_found c si (importedService si sp e0 e) sp e0 p')
    as (k8sSvc & Hget & Hselector & _); [done..|].
  assert (∃ acc, (acc = sa ∨ acc = any) ∧
    ToServiceIdentity acc ∈ fsm_ListServiceIdentitiesForService (provider_view Matches c)
      (importedService si sp e0 e)) as (acc & [->| ->] & ?); [|by left|by right].
  exists (mkK8sServiceAccount (pod_Namespace pod) (pod_ServiceAccountName pod)). split.
  { destruct sa. unfold any. simpl in *. rewrite Hns. destruct Hacc as [-> | ->]; auto. }
  unfold fsm_ListServiceIdentitiesForService. simpl. unfold mcs_ListServiceIdentitiesForService.
  rewrite Hget. apply list_elem_of_fmap. eexists. split; [done|].
  apply elem_of_range_set, elem_of_list_to_set, list_elem_of_fmap. exists pod. split; [done|].
  apply list_elem_of_filter. split; [|done]. rewrite Hselector. unfold selects in Hsel.
  apply Is_true_true, andb_true_iff in Hsel as [_ Hsel]. simpl in Hsel. rewrite Hsel.
  by rewrite bool_decide_true by done.
Qed.

Lemma lookup_foldl_insert_if {A} (f : A → Z) (P : A → bool) (b : bool) (l : list A) k v :
  foldl (λ (m : gmap Z bool) x, if P x then <[f x := b]> m else m) ∅ l !! k = Some v ↔
  v = b ∧ ∃ x, x ∈ l ∧ P x = true ∧ f x = k.
Proof.
  induction l as [|x l IH] using rev_ind.
  { simpl. rewrite lookup_empty. split; [done|]. by intros (_ & x & ?%elem_of_nil & _). }
  rewrite foldl_app. simpl. setoid_rewrite elem_of_app. setoid_rewrite list_elem_of_singleton.
  destruct (P x) eqn:HP; [destruct (decide (f x = k)) as [Hk|Hk]|].
  - rewrite Hk, lookup_insert_eq. split; [intros [= <-]; split; [done|]; exists x; auto|].
    intros [-> _]. done.
  - rewrite lookup_insert_ne, IH by done. split; intros [-> (y & Hy & HPy & Hfy)]; (split; [done|]); exists y.
    + auto.
    + destruct Hy as [Hy| ->]; [done|congruence].
  - rewrite IH. split; intros [-> (y & Hy & HPy & Hfy)]; (split; [done|]); exists y.
    + auto.
    + destruct Hy as [Hy| ->]; [done|congruence].
Qed.

(** A backend of a split, as the multicluster client is asked for it. *)
Definition backendService (meshSvc : MeshService) (backend : TrafficSplitBackend) : MeshService :=
  mkMeshService (ms_Namespace meshSvc) (tsb_Service backend) 0 0 "" "".

(** The same at a target port. *)
Definition backendAt (meshSvc : MeshService) (backend : TrafficSplitBackend) (tp : Z) : MeshService :=
  mkMeshService (ms_Namespace meshSvc) (tsb_Service backend) (ms_Port meshSvc) tp "" "".

(** The address [e] is one of the port of the service. *)
Definition backend_address (meshSvc : MeshService) (backend : TrafficSplitBackend)
    (e : ImportEndpoint) : Prop :=
  ∃ si sp, importFor c (backendService meshSvc backend) = Some si ∧ sp ∈ si_Ports si ∧
    equal_fold (si_Name si) (tsb_Service backend) = true ∧ uint16 (imp_Port sp) = ms_Port meshSvc ∧
    e ∈ imp_Endpoints sp.

(** The imported clusters of a backend. *)
Lemma elem_of_importedBackends mc meshSvc backend cn act :
  mc_multiclusterController mc = catalog_view c →
  let lb := GetLbWeightForService c (backendService meshSvc backend) in
  (cn, act) ∈ importedBackends mc meshSvc backend ↔
  lbw_lc lb = false ∧ act = lbw_aa lb ∧ ∃ e, backend_address meshSvc backend e ∧
    (lbw_clusterKeys lb = ∅ ∨ is_Some (lbw_clusterKeys lb !! ie_ClusterKey e)) ∧
    cn = SidecarClusterName (backendAt meshSvc backend (uint16 (tgt_Port (ie_Target e)))).
Proof.
  intros Hmc lb. unfold importedBackends. rewrite Hmc, list_elem_of_fmap. cbn [catalog_view mcl_GetTargetPortForServicePort].
  unfold mcs_GetTargetPortForServicePort. cbn [nn_Namespace nn_Name]. fold (backendService meshSvc backend). fold lb.
  unfold backend_address. destruct (lbw_lc lb).
  { split; [|by intros [? _]]. intros ([tp b] & _ & Hx%elem_of_range_map). by rewrite lookup_empty in Hx. }
  destruct (importFor c (backendService meshSvc backend)) as [si|].
  2: { split; [|by intros (_ & _ & e & (? & ? & ? & _) & _)].
       intros ([tp b] & _ & Hx%elem_of_range_map). by rewrite lookup_empty in Hx. }
  split.
  - intros ([tp b] & [= -> ->] & Hx%elem_of_range_map).
    apply lookup_foldl_insert_if in Hx as (-> & e & He & Hk & <-). split_and!; [done..|].
    apply list_elem_of_bind in He as (sp & He & Hsp). exists e.
    destruct (_ && _) eqn:Hc; [|by apply elem_of_nil in He].
    rewrite andb_true_iff, bool_decide_eq_true in Hc. rewrite orb_true_iff, !bool_decide_eq_true in Hk.
    split_and!; [|done..]. exists si, sp. naive_solver.
  - intros (_ & -> & e & (si' & sp & [= <-] & Hsp & Hn & Hnum & He) & Hk & ->).
    exists (uint16 (tgt_Port (ie_Target e)), lbw_aa lb). split; [done|].
    apply elem_of_range_map, lookup_foldl_insert_if. split; [done|]. exists e. split_and!; [| |done].
    + apply list_elem_of_bind. exists sp. by rewrite Hn, bool_decide_true.
    + by rewrite orb_true_iff, !bool_decide_eq_true.
Qed.

Lemma backend_port meshSvc backend e tp :
  imports_ok c → numbers_ok c → backend_address meshSvc backend e →
  ∃ si sp, importFor c (backendAt meshSvc backend tp) = Some si ∧
    portFor si (backendAt meshSvc backend tp) = Some sp ∧ e ∈ imp_Endpoints sp ∧
    ∀ e', e' ∈ imp_Endpoints sp → backend_address meshSvc backend e'.
Proof.
  intros Hok Hnum (si & sp & Hsi & Hsp & Hn & Hp & He). exists si, sp.
  split_and!; [done| |done|intros e' ?; by exists si, sp].
  destruct (Hnum si) as [Hnd Hr]; [by eapply importFor_listed|]. by apply (portFor_unique _ _ _ e).
Qed.

(** The imported clusters of the backend of a traffic split, when the policy
    of the backend is to fail over, or is active for all clusters: each of them
    has an endpoint, in a cluster over which the policy balances, and they are
    active or for fail over as the policy says. *)
Theorem split_backends_served (mc : MeshCatalog) (meshSvc : MeshService)
    (backend : TrafficSplitBackend) (p : GlobalTrafficPolicy) (cn : ClusterName) (act : bool) :
  imports_ok c → addresses_ok c → numbers_ok c →
  mc_multiclusterController mc = catalog_view c →
  fsm_provider Matches (provider_view Matches c) ∈ mc_endpointsProviders mc →
  free_of "." (tsb_Service backend) →
  getGlobalTrafficPolicy c (backendService meshSvc backend) = Some p →
  gtp_LbType p = FailOverLbType ∨ (gtp_LbType p = ActiveActiveLbType ∧ gtp_LoadBalanceTarget p = []) →
  (cn, act) ∈ importedBackends mc meshSvc backend →
  act = bool_decide (gtp_LbType p = ActiveActiveLbType) ∧
  ∃ tp ep, cn = SidecarClusterName (backendAt meshSvc backend tp) ∧
    ep ∈ listEndpointsForService mc (backendAt meshSvc backend tp) ∧
    follows_policy p (backendAt meshSvc backend tp) ep.
Proof.
  intros Hok Ha Hnum Hmc Hprov Hdot Hp Hlb Hcn.
  apply elem_of_importedBackends in Hcn as (_ & -> & e & He & Hk & ->); [|done].
  assert (lbw_aa (GetLbWeightForService c (backendService meshSvc backend)) =
            bool_decide (gtp_LbType p = ActiveActiveLbType) ∧ in_targets p (ie_ClusterKey e)) as [-> Ht].
  { unfold GetLbWeightForService, in_targets in *. rewrite Hp in *.
    destruct Hlb as [Hlb|[Hlb Htargets]]; rewrite Hlb in *; simpl in *.
    - by rewrite targetKeys_empty, targetKeys_lookup in Hk.
    - rewrite Htargets in *. simpl. auto. }
  split; [done|]. set (tp := uint16 _). set (svc := backendAt meshSvc backend tp).
  destruct (backend_port meshSvc backend e tp Hok Hnum He) as (si & sp & Hsi & Hsp & Hin & _).
  assert (balanced c svc p) as Hbal.
  { split; [done|]. by destruct Hlb as [-> |[-> _]]. }
  destruct (fsm_endpoints_follow svc p si sp e) as [[ep Hep] Hall]; [done..| |done|done|done|].
  { by apply ProviderKey_plain. }
  exists tp, ep. split_and!; [done| |by apply Hall]. unfold listEndpointsForService.
  apply list_elem_of_bind. by exists (fsm_provider Matches (provider_view Matches c)).
Qed.

(** C33. With an active policy that names its clusters, the backend of a traffic
    split does not keep to them: the target port of every imported address is an
    active cluster of the split, also when no address at that port belongs to a
    cluster of the policy, and then the cluster has no imported endpoint. *)
Theorem split_ignores_targets (mc : MeshCatalog) (meshSvc : MeshService)
    (backend : TrafficSplitBackend) (p : GlobalTrafficPolicy) (e : ImportEndpoint) :
  imports_ok c → addresses_ok c → numbers_ok c →
  mc_multiclusterController mc = catalog_view c → free_of "." (tsb_Service backend) →
  getGlobalTrafficPolicy c (backendService meshSvc backend) = Some p →
  gtp_LbType p = ActiveActiveLbType → gtp_LoadBalanceTarget p ≠ [] →
  ("" ∉ lbt_ClusterKey <$> gtp_LoadBalanceTarget p) → backend_address meshSvc backend e →
  let svc := backendAt meshSvc backend (tgt_Port (ie_Target e)) in
  (SidecarClusterName svc, true) ∈ importedBackends mc meshSvc backend ∧
  ((∀ e', backend_address meshSvc backend e' → tgt_Port (ie_Target e') = tgt_Port (ie_Target e) →
     ¬ in_targets p (ie_ClusterKey e')) →
   fsm_ListEndpointsForService (provider_view Matches c) svc = []).
Proof.
  intros Hok Ha Hnum Hmc Hdot Hp Hlb Hne Hempty He svc.
  assert (GetLbWeightForService c (backendService meshSvc backend) = mkLbWeight true false false 0 ∅) as Hw.
  { unfold GetLbWeightForService. rewrite Hp, decide_True by done.
    destruct (gtp_LoadBalanceTarget p) as [|t ts] eqn:Hts; [done|].
    destruct (filter _ _) as [|t' l] eqn:Hf; [done|]. exfalso. apply Hempty.
    assert (t' ∈ t' :: l) as Ht' by by left. rewrite <-Hf, list_elem_of_filter in Ht'.
    destruct Ht' as [Hk Ht']. simpl in Hk. rewrite Hk. by apply list_elem_of_fmap_2. }
  destruct (backend_port meshSvc backend e (tgt_Port (ie_Target e)) Hok Hnum He)
    as (si & sp & Hsi & Hsp & Hin & Hback).
  pose proof (importFor_listed svc si Hok Hsi) as Hl.
  destruct (portFor_Some _ _ _ Hsp) as (Hsp' & _ & _).
  assert (∀ e', e' ∈ imp_Endpoints sp → is_uint16 (tgt_Port (ie_Target e'))) as Hports
    by (intros e'; by apply (addresses_uint16 si)).
  split.
  - apply elem_of_importedBackends; [done|]. rewrite Hw. split_and!; [done..|]. exists e.
    rewrite uint16_id by by apply Hports. auto.
  - intros Hno. destruct (fsm_ListEndpointsForService _ svc) as [|ep l] eqn:Hf; [done|]. exfalso.
    assert (ep ∈ fsm_ListEndpointsForService (provider_view Matches c) svc) as Hep by (rewrite Hf; by left).
    destruct (Ha si sp e) as [Hrange _]; [done..|].
    apply (fsm_endpoints_origin Matches c svc p si sp) in Hep
      as (e' & He' & Hport & _ & _ & _ & _ & Htp & Ht); [|split; [done|by rewrite Hlb]|done|done| | |done].
    + apply (Hno e'); [by apply Hback| |done]. simpl in Htp. destruct Htp; [lia|congruence].
    + by apply ProviderKey_plain.
    + simpl. lia.
Qed.
End imported.
