(* ===== verification/MeshConfig.v ===== *)
(** * pkg/apis/config/v1alpha2 and pkg/configurator: the mesh configuration

    The MeshConfig resource, field by field, and the getters of methods.go with
    their defaults.  The getters that parse a fraction, and the one that prints the
    configuration, are not modelled.  The environment of the
    process is an argument. *)

From S2P Require Import Prelude GoStrings GoTime PolicyApi K8s Catalog.

(** ** Types (mesh_config.go) *)

(** A pointer that the code compares: its address, and what it points to. *)
Record pointer (A : Type) := mkPointer {
  ptr_addr : positive;
  ptr_val : A;
}.
Arguments mkPointer {A} _ _.
Arguments ptr_addr {A} _.
Arguments ptr_val {A} _.

Record LocalDNSProxy := mkLocalDNSProxy {
  ldp_Enable : bool;
  ldp_PrimaryUpstreamDNSServerIPAddr : string;
  ldp_SecondaryUpstreamDNSServerIPAddr : string;
}.

Record SidecarDriverSpec := mkSidecarDriverSpec {
  sds_SidecarName : string;
  sds_SidecarImage : string;
  sds_SidecarWindowsImage : string;
  sds_InitContainerImage : string;
  sds_ProxyServerPort : Z;
  sds_SidecarDisabledMTLS : bool;
}.

(** Quantities by the name of a resource; a nil map is not an empty one. *)
Record ResourceRequirements := mkResourceRequirements {
  rr_Limits : option (gmap string string);
  rr_Requests : option (gmap string string);
}.

Record SidecarSpec := mkSidecarSpec {
  sc_EnablePrivilegedInitContainer : bool;
  sc_LogLevel : string;
  sc_SidecarClass : string;
  sc_SidecarImage : string;
  sc_SidecarWindowsImage : string;
  sc_InitContainerImage : string;
  sc_SidecarDrivers : list SidecarDriverSpec;
  sc_MaxDataPlaneConnections : Z;
  sc_ConfigResyncInterval : string;
  sc_SidecarTimeout : Z;
  sc_Resources : ResourceRequirements;
  sc_TLSMinProtocolVersion : string;
  sc_TLSMaxProtocolVersion : string;
  sc_CipherSuites : list string;
  sc_ECDHCurves : list string;
  sc_LocalProxyMode : string;
  sc_LocalDNSProxy : LocalDNSProxy;
}.

Record ExternalAuthzSpec := mkExternalAuthzSpec {
  eas_Enable : bool;
  eas_Address : string;
  eas_Port : Z;
  eas_StatPrefix : string;
  eas_Timeout : string;
  eas_FailureModeAllow : bool;
}.

Record TrafficSpec := mkTrafficSpec {
  tf_InterceptionMode : string;
  tf_EnableEgress : bool;
  tf_OutboundIPRangeExclusionList : list string;
  tf_OutboundIPRangeInclusionList : list string;
  tf_OutboundPortExclusionList : list Z;
  tf_InboundPortExclusionList : list Z;
  tf_EnablePermissiveTrafficPolicyMode : bool;
  tf_InboundExternalAuthorization : ExternalAuthzSpec;
  tf_NetworkInterfaceExclusionList : list string;
  tf_HTTP1PerRequestLoadBalancing : bool;
  tf_HTTP2PerRequestLoadBalancing : bool;
}.

(** [Port] is an [int16], [SampledFraction] a [*string]. *)
Record TracingSpec := mkTracingSpec {
  tr_Enable : bool;
  tr_Port : Z;
  tr_Address : string;
  tr_Endpoint : string;
  tr_SampledFraction : option (pointer string);
}.

Record RemoteLoggingSpec := mkRemoteLoggingSpec {
  rlog_Enable : bool;
  rlog_Level : Z;
  rlog_Port : Z;
  rlog_Address : string;
  rlog_Endpoint : string;
  rlog_Authorization : string;
  rlog_SampledFraction : option (pointer string);
}.

Record ObservabilitySpec := mkObservabilitySpec {
  ob_OSMLogLevel : string;
  ob_EnableDebugServer : bool;
  ob_Tracing : TracingSpec;
  ob_RemoteLogging : RemoteLoggingSpec;
}.

Record IngressGatewayCertSpec := mkIngressGatewayCertSpec {
  igc_SubjectAltNames : list string;
  igc_ValidityDuration : string;
  igc_Secret : SecretReference;
}.

Record CertificateSpec := mkCertificateSpec {
  ces_ServiceCertValidityDuration : string;
  ces_CertKeyBitSize : Z;
  ces_IngressGateway : option IngressGatewayCertSpec;
}.

Record FeatureFlags := mkFeatureFlags {
  ff_EnableWASMStats : bool;
  ff_EnableEgressPolicy : bool;
  ff_EnableSnapshotCacheMode : bool;
  ff_EnableAsyncProxyServiceMapping : bool;
  ff_EnableIngressBackendPolicy : bool;
  ff_EnableAccessControlPolicy : bool;
  ff_EnableAccessCertPolicy : bool;
  ff_EnableSidecarActiveHealthChecks : bool;
  ff_EnableRetryPolicy : bool;
  ff_EnablePluginPolicy : bool;
}.

Record RepoServerSpec := mkRepoServerSpec {
  rss_IPAddr : string;
  rss_Codebase : string;
}.

Record ClusterPropertySpec := mkClusterPropertySpec {
  cp_Name : string;
  cp_Value : string;
}.

Record ClusterSetSpec := mkClusterSetSpec {
  cset_Properties : slice ClusterPropertySpec;
}.

(** [Priority] is a [float32], kept as its bit pattern. *)
Record PluginChainSpec := mkPluginChainSpec {
  pcs_Plugin : string;
  pcs_Priority : Z;
  pcs_Disable : bool;
}.

Record PluginChainsSpec := mkPluginChainsSpec {
  pch_InboundTCPChains : slice PluginChainSpec;
  pch_InboundHTTPChains : slice PluginChainSpec;
  pch_OutboundTCPChains : slice PluginChainSpec;
  pch_OutboundHTTPChains : slice PluginChainSpec;
}.

Record MeshConfigSpec := mkMeshConfigSpec {
  mcs_ClusterSet : ClusterSetSpec;
  mcs_Sidecar : SidecarSpec;
  mcs_RepoServer : RepoServerSpec;
  mcs_Traffic : TrafficSpec;
  mcs_Observability : ObservabilitySpec;
  mcs_Certificate : CertificateSpec;
  mcs_FeatureFlags : FeatureFlags;
  mcs_PluginChains : PluginChainsSpec;
}.

(** What the control plane reads when there is no MeshConfig. *)
Definition zero_MeshConfigSpec : MeshConfigSpec := {|
  mcs_ClusterSet := mkClusterSetSpec None;
  mcs_Sidecar := mkSidecarSpec false "" "" "" "" "" [] 0 "" 0 (mkResourceRequirements None None) "" "" [] [] "" (mkLocalDNSProxy false "" "");
  mcs_RepoServer := mkRepoServerSpec "" "";
  mcs_Traffic := mkTrafficSpec "" false [] [] [] [] false (mkExternalAuthzSpec false "" 0 "" "" false)
                   [] false false;
  mcs_Observability := mkObservabilitySpec "" false (mkTracingSpec false 0 "" "" None)
                         (mkRemoteLoggingSpec false 0 0 "" "" "" None);
  mcs_Certificate := mkCertificateSpec "" 0 None;
  mcs_FeatureFlags := mkFeatureFlags false false false false false false false false false false;
  mcs_PluginChains := mkPluginChainsSpec None None None None;
|}.

#[global] Instance ExternalAuthzSpec_eq_dec : EqDecision ExternalAuthzSpec.
Proof. solve_decision. Defined.
#[global] Instance FeatureFlags_eq_dec : EqDecision FeatureFlags.
Proof. solve_decision. Defined.
#[global] Instance ClusterPropertySpec_eq_dec : EqDecision ClusterPropertySpec.
Proof. solve_decision. Defined.
#[global] Instance ClusterSetSpec_eq_dec : EqDecision ClusterSetSpec.
Proof. solve_decision. Defined.
#[global] Instance PluginChainSpec_eq_dec : EqDecision PluginChainSpec.
Proof. solve_decision. Defined.
#[global] Instance PluginChainsSpec_eq_dec : EqDecision PluginChainsSpec.
Proof. solve_decision. Defined.

(** [trafficpolicy.Plugin]. *)
Record Plugin := mkPlugin {
  pl_Name : string;
  pl_Priority : Z;
  pl_Script : string;
  pl_BuildIn : bool;
}.

(** ** The configurator *)

Definition DefaultTracingHost : string := "jaeger".
Definition DefaultTracingPort : Z := 9411.
Definition DefaultTracingEndpoint : string := "/api/v2/spans".
Definition DefaultSidecarLogLevel : string := "error".
Definition SidecarClassPipy : string := "pipy".
Definition ProxyServerPort : Z := 15128.
Definition minCertKeyBitSize : Z := 2048.
Definition maxCertKeyBitSize : Z := 4096.
Definition defaultCertKeyBitSize : Z := 2048.

Definition defaultServiceCertValidityDuration : Z := 24 * 3600 * second.
Definition defaultIngressGatewayCertValidityDuration : Z := 24 * 3600 * second.

(** [auth.ExtAuthConfig]. *)
Record ExtAuthConfig := mkExtAuthConfig {
  eac_Enable : bool;
  eac_Address : string;
  eac_Port : Z;
  eac_StatPrefix : string;
  eac_AuthzTimeout : Z;
  eac_FailureModeAllow : bool;
}.

(** [strings.TrimPrefix(s, p)] and [strings.TrimSuffix(s, p)] for one character. *)
Definition trim_slash_prefix (s : string) : string :=
  match s with String "/" s => s | _ => s end.

Section configurator.
Context (store : InformerStore MeshConfigSpec) (osmNamespace meshConfigName : string).
Context (Getenv : string → string).

Definition getMeshConfigCacheKey : string := osmNamespace +:+ "/" +:+ meshConfigName.

Definition getMeshConfig : MeshConfigSpec :=
  match GetByKey store getMeshConfigCacheKey with
  | Ok (Some c) => c
  | _ => zero_MeshConfigSpec
  end.

Definition IsPermissiveTrafficPolicyMode : bool :=
  tf_EnablePermissiveTrafficPolicyMode (mcs_Traffic getMeshConfig).
Definition IsEgressEnabled : bool := tf_EnableEgress (mcs_Traffic getMeshConfig).
Definition IsDebugServerEnabled : bool := ob_EnableDebugServer (mcs_Observability getMeshConfig).
Definition GetTrafficInterceptionMode : string := tf_InterceptionMode (mcs_Traffic getMeshConfig).
Definition IsPrivilegedInitContainer : bool := sc_EnablePrivilegedInitContainer (mcs_Sidecar getMeshConfig).
Definition GetOSMLogLevel : string := ob_OSMLogLevel (mcs_Observability getMeshConfig).
Definition IsTracingEnabled : bool := tr_Enable (ob_Tracing (mcs_Observability getMeshConfig)).
Definition IsLocalDNSProxyEnabled : bool := ldp_Enable (sc_LocalDNSProxy (mcs_Sidecar getMeshConfig)).
Definition GetLocalDNSProxyPrimaryUpstream : string :=
  ldp_PrimaryUpstreamDNSServerIPAddr (sc_LocalDNSProxy (mcs_Sidecar getMeshConfig)).
Definition GetLocalDNSProxySecondaryUpstream : string :=
  ldp_SecondaryUpstreamDNSServerIPAddr (sc_LocalDNSProxy (mcs_Sidecar getMeshConfig)).
Definition GetFeatureFlags : FeatureFlags := mcs_FeatureFlags getMeshConfig.

Definition GetTracingHost : string :=
  let tracingAddress := tr_Address (ob_Tracing (mcs_Observability getMeshConfig)) in
  if bool_decide (tracingAddress ≠ "") then tracingAddress
  else DefaultTracingHost +:+ "." +:+ osmNamespace +:+ ".svc.cluster.local".

Definition GetTracingPort : Z :=
  let tracingPort := tr_Port (ob_Tracing (mcs_Observability getMeshConfig)) in
  if bool_decide (tracingPort ≠ 0%Z) then uint32 tracingPort else DefaultTracingPort.

Definition GetTracingEndpoint : string :=
  let tracingEndpoint := tr_Endpoint (ob_Tracing (mcs_Observability getMeshConfig)) in
  if bool_decide (tracingEndpoint ≠ "") then tracingEndpoint else DefaultTracingEndpoint.

Definition IsRemoteLoggingEnabled : bool := rlog_Enable (ob_RemoteLogging (mcs_Observability getMeshConfig)).
Definition GetRemoteLoggingLevel : Z := rlog_Level (ob_RemoteLogging (mcs_Observability getMeshConfig)).
Definition GetRemoteLoggingHost : string := rlog_Address (ob_RemoteLogging (mcs_Observability getMeshConfig)).
Definition GetRemoteLoggingEndpoint : string := rlog_Endpoint (ob_RemoteLogging (mcs_Observability getMeshConfig)).
Definition GetRemoteLoggingAuthorization : string :=
  rlog_Authorization (ob_RemoteLogging (mcs_Observability getMeshConfig)).

Definition GetRemoteLoggingPort : Z :=
  let remoteLoggingPort := rlog_Port (ob_RemoteLogging (mcs_Observability getMeshConfig)) in
  if bool_decide (remoteLoggingPort ≠ 0%Z) then uint32 remoteLoggingPort else 0.

Definition GetMaxDataPlaneConnections : Z := sc_MaxDataPlaneConnections (mcs_Sidecar getMeshConfig).

Definition GetSidecarTimeout : Z :=
  let timeout := sc_SidecarTimeout (mcs_Sidecar getMeshConfig) in
  if bool_decide (timeout ≤ 0)%Z then 60 else timeout.

Definition GetSidecarLogLevel : string :=
  let logLevel := sc_LogLevel (mcs_Sidecar getMeshConfig) in
  if bool_decide (logLevel ≠ "") then logLevel else DefaultSidecarLogLevel.

Definition GetSidecarClass : string :=
  let class := sc_SidecarClass (mcs_Sidecar getMeshConfig) in
  let class := if bool_decide (class = "") then Getenv "OSM_DEFAULT_SIDECAR_CLASS" else class in
  if bool_decide (class = "") then SidecarClassPipy else class.

(** The loop over the drivers: the first whose name is the class of the MeshConfig. *)
Definition driverOfClass : option SidecarDriverSpec :=
  let sidecarClass := sc_SidecarClass (mcs_Sidecar getMeshConfig) in
  first_some (λ d, if equal_fold (to_lower sidecarClass) (to_lower (sds_SidecarName d))
                   then Some d else None) (sc_SidecarDrivers (mcs_Sidecar getMeshConfig)).

(** The image of the MeshConfig, of the driver, or of the environment. *)
Definition imageOf (image : string) (ofDriver : SidecarDriverSpec → string) (variable : string) : string :=
  let image := if bool_decide (image = "") then
                 match driverOfClass with Some d => ofDriver d | None => image end
               else image in
  if bool_decide (image = "") then Getenv variable else image.

Definition GetSidecarImage : string :=
  imageOf (sc_SidecarImage (mcs_Sidecar getMeshConfig)) sds_SidecarImage "OSM_DEFAULT_SIDECAR_IMAGE".
Definition GetSidecarWindowsImage : string :=
  imageOf (sc_SidecarWindowsImage (mcs_Sidecar getMeshConfig)) sds_SidecarWindowsImage
    "OSM_DEFAULT_SIDECAR_WINDOWS_IMAGE".
Definition GetInitContainerImage : string :=
  imageOf (sc_InitContainerImage (mcs_Sidecar getMeshConfig)) sds_InitContainerImage
    "OSM_DEFAULT_INIT_CONTAINER_IMAGE".

Definition GetProxyServerPort : Z :=
  match driverOfClass with Some d => sds_ProxyServerPort d | None => ProxyServerPort end.

Definition GetSidecarDisabledMTLS : bool :=
  match driverOfClass with Some d => sds_SidecarDisabledMTLS d | None => false end.

Definition GetRepoServerIPAddr : string :=
  let ipAddr := Getenv "OSM_REPO_SERVER_IPADDR" in
  let ipAddr := if bool_decide (ipAddr = "") then rss_IPAddr (mcs_RepoServer getMeshConfig) else ipAddr in
  if bool_decide (ipAddr = "") then "127.0.0.1" else ipAddr.

Definition GetRepoServerCodebase : string :=
  let codebase := Getenv "OSM_REPO_SERVER_CODEBASE" in
  let codebase := if bool_decide (codebase = "") then rss_Codebase (mcs_RepoServer getMeshConfig)
                  else codebase in
  trim_slash_prefix (trim_suffix codebase "/").

Definition GetCertKeyBitSize : Z :=
  let bitSize := ces_CertKeyBitSize (mcs_Certificate getMeshConfig) in
  if bool_decide (bitSize < minCertKeyBitSize)%Z || bool_decide (maxCertKeyBitSize < bitSize)%Z
  then defaultCertKeyBitSize else bitSize.

(** A duration of the configuration, or a default when it does not parse. *)
Definition durationOr (d : Z) (s : string) : Z := match ParseDuration s with Ok v => v | Err _ => d end.

Definition GetServiceCertValidityPeriod : Z :=
  durationOr defaultServiceCertValidityDuration (ces_ServiceCertValidityDuration (mcs_Certificate getMeshConfig)).

Definition GetIngressGatewayCertValidityPeriod : Z :=
  match ces_IngressGateway (mcs_Certificate getMeshConfig) with
  | None => defaultIngressGatewayCertValidityDuration
  | Some spec => durationOr defaultServiceCertValidityDuration (igc_ValidityDuration spec)
  end.

Definition GetConfigResyncInterval : Z := durationOr 0 (sc_ConfigResyncInterval (mcs_Sidecar getMeshConfig)).

Definition GetInboundExternalAuthConfig : ExtAuthConfig :=
  let spec := tf_InboundExternalAuthorization (mcs_Traffic getMeshConfig) in {|
    eac_Enable := eas_Enable spec;
    eac_Address := eas_Address spec;
    eac_Port := uint16 (eas_Port spec);
    eac_StatPrefix := eas_StatPrefix spec;
    eac_AuthzTimeout := durationOr second (eas_Timeout spec);
    eac_FailureModeAllow := eas_FailureModeAllow spec |}.

Definition enabledPlugins (chain : slice PluginChainSpec) : list Plugin :=
  (λ p, mkPlugin (pcs_Plugin p) (pcs_Priority p) "" true) <$>
    filter (λ p, pcs_Disable p = false) (elems chain).

Definition GetGlobalPluginChains : gmap string (list Plugin) :=
  let spec := mcs_PluginChains getMeshConfig in
  <["outbound-http" := enabledPlugins (pch_OutboundHTTPChains spec)]>
  (<["outbound-tcp" := enabledPlugins (pch_OutboundTCPChains spec)]>
  (<["inbound-http" := enabledPlugins (pch_InboundHTTPChains spec)]>
  (<["inbound-tcp" := enabledPlugins (pch_InboundTCPChains spec)]> ∅))).

(** The flags that the catalog reads through the interface. *)
Definition catalog_configurator : Configurator := {|
  cfg_IsPermissiveTrafficPolicyMode := IsPermissiveTrafficPolicyMode;
  cfg_IsEgressEnabled := IsEgressEnabled;
  cfg_EnableEgressPolicy := ff_EnableEgressPolicy GetFeatureFlags;
  cfg_EnableIngressBackendPolicy := ff_EnableIngressBackendPolicy GetFeatureFlags;
  cfg_EnableAccessControlPolicy := ff_EnableAccessControlPolicy GetFeatureFlags;
  cfg_EnableRetryPolicy := ff_EnableRetryPolicy GetFeatureFlags;
  cfg_EnableSidecarActiveHealthChecks := ff_EnableSidecarActiveHealthChecks GetFeatureFlags;
|}.
End configurator.

(** ** Theorems *)

Section configurator_theorems.
Context (store : InformerStore MeshConfigSpec) (osmNamespace meshConfigName : string).
Context (Getenv : string → string).

Abbreviation key := (getMeshConfigCacheKey osmNamespace meshConfigName).

(** Whatever the MeshConfig says, and when it cannot be read, the control plane
    runs with usable values: a key size between 2048 and 4096 bits, a positive
    timeout, a log level, a sidecar class and a repository address; and without a
    MeshConfig it is not permissive and egress is off. *)
Theorem configurator_defaults :
  (minCertKeyBitSize ≤ GetCertKeyBitSize store osmNamespace meshConfigName ≤ maxCertKeyBitSize)%Z ∧
  (0 < GetSidecarTimeout store osmNamespace meshConfigName)%Z ∧
  GetSidecarLogLevel store osmNamespace meshConfigName ≠ "" ∧
  GetSidecarClass store osmNamespace meshConfigName Getenv ≠ "" ∧
  GetRepoServerIPAddr store osmNamespace meshConfigName Getenv ≠ "" ∧
  ((∀ c, GetByKey store key ≠ Ok (Some c)) →
   cfg_IsPermissiveTrafficPolicyMode (catalog_configurator store osmNamespace meshConfigName) = false ∧
   cfg_IsEgressEnabled (catalog_configurator store osmNamespace meshConfigName) = false).
Proof.
  unfold GetCertKeyBitSize, GetSidecarTimeout, GetSidecarLogLevel, GetSidecarClass, GetRepoServerIPAddr.
  split_and!.
  - unfold defaultCertKeyBitSize, minCertKeyBitSize, maxCertKeyBitSize.
    repeat case_bool_decide; simpl; lia.
  - unfold defaultCertKeyBitSize, minCertKeyBitSize, maxCertKeyBitSize.
    repeat case_bool_decide; simpl; lia.
  - case_bool_decide; lia.
  - by case_bool_decide.
  - by repeat case_bool_decide.
  - by repeat case_bool_decide.
  - intros Hnone. unfold catalog_configurator, IsPermissiveTrafficPolicyMode, IsEgressEnabled, getMeshConfig.
    destruct (GetByKey store key) as [[c|]|]; [by destruct (Hnone c)|done..].
Qed.
End configurator_theorems.

(** A MeshConfig with the default class and a driver for it that disables mTLS. *)
Definition config_with_driver (class : string) (d : SidecarDriverSpec) : MeshConfigSpec :=
  let z := zero_MeshConfigSpec in {|
  mcs_ClusterSet := mcs_ClusterSet z;
  mcs_Sidecar := mkSidecarSpec false "" class "" "" "" [d] 0 "" 0 (mkResourceRequirements None None) "" "" [] [] "" (mkLocalDNSProxy false "" "");
  mcs_RepoServer := mcs_RepoServer z;
  mcs_Traffic := mcs_Traffic z;
  mcs_Observability := mcs_Observability z;
  mcs_Certificate := mcs_Certificate z;
  mcs_FeatureFlags := mcs_FeatureFlags z;
  mcs_PluginChains := mcs_PluginChains z;
|}.

(** The driver lookups do not use the class that [GetSidecarClass] reports: when
    the MeshConfig leaves the class out, the default class is pipy, but the
    settings of the driver called pipy, its port, its image and whether mTLS is
    disabled, are not found. *)
Theorem driver_of_default_class :
  ∃ store d, sds_SidecarName d = "pipy" ∧
    GetSidecarClass store "osm-system" "osm-mesh-config" (λ _, "") = "pipy" ∧
    sds_SidecarDisabledMTLS d = true ∧
    GetSidecarDisabledMTLS store "osm-system" "osm-mesh-config" = false ∧
    GetProxyServerPort store "osm-system" "osm-mesh-config" ≠ sds_ProxyServerPort d.
Proof.
  set (d := mkSidecarDriverSpec "pipy" "image" "" "" 6060 true).
  exists (mkInformerStore (λ _, Ok (Some (config_with_driver "" d))) []), d. by vm_compute.
Qed.
