(* ===== verification/Broker.v ===== *)
(** * pkg/messaging: the message broker

    broker.go and workqueue.go: which events update which proxies, the processing
    of an event, and the dispatcher that batches broadcast updates with two timers.
    The work queue and the publish/subscribe library are given by what they are
    asked to do: a message is taken from the queue, and a publication is an entry
    of a log.  The timers are Go's (before version 1.23): a timer is armed until a
    deadline, or has put a value in its channel, or neither. *)

From S2P Require Import Prelude GoStrings Net K8s K8sClient Catalog MeshConfig.

(** ** Announcements (pkg/announcements) *)

(** [NoKind] is the zero value of the type, the empty string. *)
Inductive Kind :=
| NoKind | ProxyUpdate | PodAdded | PodDeleted | PodUpdated | EndpointAdded | EndpointDeleted
| EndpointUpdated | NamespaceAdded | NamespaceDeleted | NamespaceUpdated | ServiceAdded
| ServiceDeleted | ServiceUpdated | ServiceAccountAdded | ServiceAccountDeleted
| ServiceAccountUpdated | TrafficSplitAdded | TrafficSplitDeleted | TrafficSplitUpdated
| RouteGroupAdded | RouteGroupDeleted | RouteGroupUpdated | TCPRouteAdded | TCPRouteDeleted
| TCPRouteUpdated | TrafficTargetAdded | TrafficTargetDeleted | TrafficTargetUpdated
| IngressAdded | IngressDeleted | IngressUpdated | IngressClassAdded | IngressClassDeleted
| IngressClassUpdated | CertificateRotated | MeshConfigAdded | MeshConfigDeleted
| MeshConfigUpdated | MeshRootCertificateAdded | MeshRootCertificateDeleted
| MeshRootCertificateUpdated | EgressAdded | EgressDeleted | EgressUpdated | EgressGatewayAdded
| EgressGatewayDeleted | EgressGatewayUpdated | IngressBackendAdded | IngressBackendDeleted
| IngressBackendUpdated | AccessControlAdded | AccessControlDeleted | AccessControlUpdated
| AccessCertAdded | AccessCertDeleted | AccessCertUpdated | ServiceExportAdded
| ServiceExportDeleted | ServiceExportUpdated | ServiceImportAdded | ServiceImportDeleted
| ServiceImportUpdated | GlobalTrafficPolicyAdded | GlobalTrafficPolicyDeleted
| GlobalTrafficPolicyUpdated | RetryPolicyAdded | RetryPolicyDeleted | RetryPolicyUpdated
| UpstreamTrafficSettingAdded | UpstreamTrafficSettingDeleted | UpstreamTrafficSettingUpdated
| PluginAdded | PluginDeleted | PluginUpdated | PluginChainAdded | PluginChainDeleted
| PluginChainUpdated | PluginConfigAdded | PluginConfigDeleted | PluginConfigUpdated.

#[global] Instance Kind_eq_dec : EqDecision Kind.
Proof. solve_decision. Defined.

Definition Kind_String (k : Kind) : string :=
  match k with
  | NoKind => ""
  | ProxyUpdate => "proxy-update"
  | PodAdded => "pod-added"
  | PodDeleted => "pod-deleted"
  | PodUpdated => "pod-updated"
  | EndpointAdded => "endpoint-added"
  | EndpointDeleted => "endpoint-deleted"
  | EndpointUpdated => "endpoint-updated"
  | NamespaceAdded => "namespace-added"
  | NamespaceDeleted => "namespace-deleted"
  | NamespaceUpdated => "namespace-updated"
  | ServiceAdded => "service-added"
  | ServiceDeleted => "service-deleted"
  | ServiceUpdated => "service-updated"
  | ServiceAccountAdded => "serviceaccount-added"
  | ServiceAccountDeleted => "serviceaccount-deleted"
  | ServiceAccountUpdated => "serviceaccount-updated"
  | TrafficSplitAdded => "trafficsplit-added"
  | TrafficSplitDeleted => "trafficsplit-deleted"
  | TrafficSplitUpdated => "trafficsplit-updated"
  | RouteGroupAdded => "routegroup-added"
  | RouteGroupDeleted => "routegroup-deleted"
  | RouteGroupUpdated => "routegroup-updated"
  | TCPRouteAdded => "tcproute-added"
  | TCPRouteDeleted => "tcproute-deleted"
  | TCPRouteUpdated => "tcproute-updated"
  | TrafficTargetAdded => "traffictarget-added"
  | TrafficTargetDeleted => "traffictarget-deleted"
  | TrafficTargetUpdated => "traffictarget-updated"
  | IngressAdded => "ingress-added"
  | IngressDeleted => "ingress-deleted"
  | IngressUpdated => "ingress-updated"
  | IngressClassAdded => "ingressclass-added"
  | IngressClassDeleted => "ingressclass-deleted"
  | IngressClassUpdated => "ingressclass-updated"
  | CertificateRotated => "certificate-rotated"
  | MeshConfigAdded => "meshconfig-added"
  | MeshConfigDeleted => "meshconfig-deleted"
  | MeshConfigUpdated => "meshconfig-updated"
  | MeshRootCertificateAdded => "meshrootcertificate-added"
  | MeshRootCertificateDeleted => "meshrootcertificate-deleted"
  | MeshRootCertificateUpdated => "meshrootcertificate-updated"
  | EgressAdded => "egress-added"
  | EgressDeleted => "egress-deleted"
  | EgressUpdated => "egress-updated"
  | EgressGatewayAdded => "egressgateway-added"
  | EgressGatewayDeleted => "egressgateway-deleted"
  | EgressGatewayUpdated => "egressgateway-updated"
  | IngressBackendAdded => "ingressbackend-added"
  | IngressBackendDeleted => "ingressbackend-deleted"
  | IngressBackendUpdated => "ingressbackend-updated"
  | AccessControlAdded => "accesscontrol-added"
  | AccessControlDeleted => "accesscontrol-deleted"
  | AccessControlUpdated => "accesscontrol-updated"
  | AccessCertAdded => "accesscert-added"
  | AccessCertDeleted => "accesscert-deleted"
  | AccessCertUpdated => "accesscert-updated"
  | ServiceExportAdded => "serviceexport-added"
  | ServiceExportDeleted => "serviceexport-deleted"
  | ServiceExportUpdated => "serviceexport-updated"
  | ServiceImportAdded => "serviceimport-added"
  | ServiceImportDeleted => "serviceimport-deleted"
  | ServiceImportUpdated => "serviceimport-updated"
  | GlobalTrafficPolicyAdded => "globaltrafficpolicy-added"
  | GlobalTrafficPolicyDeleted => "globaltrafficpolicy-deleted"
  | GlobalTrafficPolicyUpdated => "globaltrafficpolicy-updated"
  | RetryPolicyAdded => "retry-added"
  | RetryPolicyDeleted => "retry-deleted"
  | RetryPolicyUpdated => "retry-updated"
  | UpstreamTrafficSettingAdded => "upstreamtrafficsetting-added"
  | UpstreamTrafficSettingDeleted => "upstreamtrafficsetting-deleted"
  | UpstreamTrafficSettingUpdated => "upstreamtrafficsetting-updated"
  | PluginAdded => "plugin-added"
  | PluginDeleted => "plugin-deleted"
  | PluginUpdated => "plugin-updated"
  | PluginChainAdded => "pluginchain-added"
  | PluginChainDeleted => "pluginchain-deleted"
  | PluginChainUpdated => "pluginchain-updated"
  | PluginConfigAdded => "pluginconfig-added"
  | PluginConfigDeleted => "pluginconfig-deleted"
  | PluginConfigUpdated => "pluginconfig-updated"
  end.

(** ** Messages *)

(** The objects of a message, by the type that the code casts them to. *)
Inductive object :=
| ObjMeshConfig (c : MeshConfigSpec)
| ObjPod (p : Pod)
| ObjOther.

Record PubSubMessage := mkPubSubMessage {
  msg_Kind : Kind;
  msg_OldObj : object;
  msg_NewObj : object;
}.

Record proxyUpdateEvent := mkProxyUpdateEvent {
  ev_msg : PubSubMessage;
  ev_topic : string;
}.

Definition GetPubSubTopicForProxyUUID (uuid : string) : string := "proxy:" +:+ uuid.

(** ** Which events update proxies *)

(** The kinds that are broadcast whatever the objects are. *)
Definition isBroadcastKind (k : Kind) : bool :=
  match k with
  | EndpointAdded | EndpointDeleted | EndpointUpdated | IngressAdded | IngressDeleted |
    IngressUpdated | IngressClassAdded | IngressClassDeleted | IngressClassUpdated |
    EgressAdded | EgressDeleted | EgressUpdated | EgressGatewayAdded | EgressGatewayDeleted |
    EgressGatewayUpdated | IngressBackendAdded | IngressBackendDeleted |
    IngressBackendUpdated | AccessControlAdded | AccessControlDeleted | AccessControlUpdated |
    RetryPolicyAdded | RetryPolicyDeleted | RetryPolicyUpdated | UpstreamTrafficSettingAdded |
    UpstreamTrafficSettingDeleted | UpstreamTrafficSettingUpdated | RouteGroupAdded |
    RouteGroupDeleted | RouteGroupUpdated | TCPRouteAdded | TCPRouteDeleted | TCPRouteUpdated |
    TrafficSplitAdded | TrafficSplitDeleted | TrafficSplitUpdated | TrafficTargetAdded |
    TrafficTargetDeleted | TrafficTargetUpdated | ServiceImportAdded | ServiceImportDeleted |
    ServiceImportUpdated | ServiceExportAdded | ServiceExportDeleted | ServiceExportUpdated |
    GlobalTrafficPolicyAdded | GlobalTrafficPolicyDeleted | GlobalTrafficPolicyUpdated |
    PluginAdded | PluginDeleted | PluginUpdated | PluginChainAdded | PluginChainDeleted |
    PluginChainUpdated | PluginConfigAdded | PluginConfigDeleted | PluginConfigUpdated |
    ProxyUpdate => true
  | _ => false
  end.

(** [==] on pointers and on structs with pointers compares addresses. *)
Definition same_pointer {A} (p q : option (pointer A)) : bool :=
  bool_decide (ptr_addr <$> p = ptr_addr <$> q).

Definition same_tracing (a b : TracingSpec) : bool :=
  bool_decide (tr_Enable a = tr_Enable b ∧ tr_Port a = tr_Port b ∧ tr_Address a = tr_Address b ∧
               tr_Endpoint a = tr_Endpoint b) &&
  same_pointer (tr_SampledFraction a) (tr_SampledFraction b).

Definition same_logging (a b : RemoteLoggingSpec) : bool :=
  bool_decide (rlog_Enable a = rlog_Enable b ∧ rlog_Level a = rlog_Level b ∧ rlog_Port a = rlog_Port b ∧
               rlog_Address a = rlog_Address b ∧ rlog_Endpoint a = rlog_Endpoint b ∧
               rlog_Authorization a = rlog_Authorization b) &&
  same_pointer (rlog_SampledFraction a) (rlog_SampledFraction b).

(** Whether the change of the mesh configuration changes a proxy's configuration. *)
Definition meshConfigChanged (prevSpec newSpec : MeshConfigSpec) : bool :=
  let pt := mcs_Traffic prevSpec in
  let nt := mcs_Traffic newSpec in
  let pa := tf_InboundExternalAuthorization pt in
  let na := tf_InboundExternalAuthorization nt in
  bool_decide (tf_EnableEgress pt ≠ tf_EnableEgress nt) ||
  bool_decide (tf_EnablePermissiveTrafficPolicyMode pt ≠ tf_EnablePermissiveTrafficPolicyMode nt) ||
  bool_decide (tf_HTTP1PerRequestLoadBalancing pt ≠ tf_HTTP1PerRequestLoadBalancing nt) ||
  bool_decide (tf_HTTP2PerRequestLoadBalancing pt ≠ tf_HTTP2PerRequestLoadBalancing nt) ||
  negb (same_tracing (ob_Tracing (mcs_Observability prevSpec)) (ob_Tracing (mcs_Observability newSpec))) ||
  negb (same_logging (ob_RemoteLogging (mcs_Observability prevSpec))
          (ob_RemoteLogging (mcs_Observability newSpec))) ||
  bool_decide (sc_LogLevel (mcs_Sidecar prevSpec) ≠ sc_LogLevel (mcs_Sidecar newSpec)) ||
  bool_decide (sc_SidecarTimeout (mcs_Sidecar prevSpec) ≠ sc_SidecarTimeout (mcs_Sidecar newSpec)) ||
  bool_decide (eas_Enable pa ≠ eas_Enable na) ||
  (eas_Enable na && bool_decide (pa ≠ na)) ||
  bool_decide (mcs_FeatureFlags prevSpec ≠ mcs_FeatureFlags newSpec) ||
  bool_decide (mcs_PluginChains prevSpec ≠ mcs_PluginChains newSpec) ||
  bool_decide (mcs_ClusterSet prevSpec ≠ mcs_ClusterSet newSpec).

Definition annotation (m : labels) (k : string) : string := default "" (m !! k).

Definition getProxyUpdateEvent (msg : PubSubMessage) : option proxyUpdateEvent :=
  let broadcast := Some (mkProxyUpdateEvent msg (Kind_String ProxyUpdate)) in
  if isBroadcastKind (msg_Kind msg) then broadcast
  else
    match msg_Kind msg with
    | MeshConfigUpdated =>
      match msg_OldObj msg, msg_NewObj msg with
      | ObjMeshConfig prevSpec, ObjMeshConfig newSpec =>
        if meshConfigChanged prevSpec newSpec then broadcast else None
      | _, _ => None
      end
    | PodUpdated =>
      match msg_OldObj msg, msg_NewObj msg with
      | ObjPod prevPod, ObjPod newPod =>
        let proxyUUID := annotation (pod_Labels newPod) SidecarUniqueIDLabelName in
        if bool_decide (annotation (pod_Annotations prevPod) PrometheusScrapeAnnotation ≠
                        annotation (pod_Annotations newPod) PrometheusScrapeAnnotation)
        then Some (mkProxyUpdateEvent msg (GetPubSubTopicForProxyUUID proxyUUID))
        else if bool_decide (proxyUUID ≠ "") then broadcast
        else None
      | _, _ => None
      end
    | _ => None
    end.

(** ** Timers *)

(** Armed until a deadline, and whether there is a value in the channel. *)
Record Timer := mkTimer {
  t_deadline : option Z;
  t_fired : bool;
}.

Definition NewTimer (now d : Z) : Timer := mkTimer (Some (now + d)) false.

(** [t.Stop()]: whether the call stopped an armed timer. *)
Definition Stop (t : Timer) : bool * Timer :=
  (bool_decide (is_Some (t_deadline t)), mkTimer None (t_fired t)).

Definition Reset (now d : Z) (t : Timer) : Timer := mkTimer (Some (now + d)) (t_fired t).

(** [<-t.C]; [None] when there is no value: the receiver blocks. *)
Definition receive (t : Timer) : option Timer :=
  if t_fired t then Some (mkTimer (t_deadline t) false) else None.

(** [if !t.Stop() { <-t.C }] *)
Definition stopAndDrain (t : Timer) : option Timer :=
  match Stop t with
  | (true, t) => Some t
  | (false, t) => receive t
  end.

(** The runtime sends on the channel, of capacity one, when the deadline has passed. *)
Definition fire (t : Timer) : Timer := mkTimer None true.

(** ** The dispatcher *)

Definition proxyUpdateSlidingWindow : Z := 2 * second.
Definition proxyUpdateMaxWindow : Z := 10 * second.
Definition noTimeout : Z := 87600 * 3600 * second.

Record Dispatcher := mkDispatcher {
  d_slidingTimer : Timer;
  d_maxTimer : Timer;
  d_dispatchPending : bool;
  d_batchCount : Z;
  d_event : proxyUpdateEvent;
}.

(** The zero value of [proxyUpdateEvent]. *)
Definition noEvent : proxyUpdateEvent := mkProxyUpdateEvent (mkPubSubMessage NoKind ObjOther ObjOther) "".

Definition newDispatcher (now : Z) : Dispatcher := {|
  d_slidingTimer := NewTimer now noTimeout;
  d_maxTimer := NewTimer now noTimeout;
  d_dispatchPending := false;
  d_batchCount := 0;
  d_event := noEvent;
|}.

(** [case e := <-b.proxyUpdateCh]; [None] when the dispatcher blocks for ever. *)
Definition onUpdate (now : Z) (e : proxyUpdateEvent) (d : Dispatcher) : option Dispatcher :=
  if d_dispatchPending d then
    sliding ← stopAndDrain (d_slidingTimer d);
    Some {|
      d_slidingTimer := Reset now proxyUpdateSlidingWindow sliding;
      d_maxTimer := d_maxTimer d;
      d_dispatchPending := true;
      d_batchCount := int64 (d_batchCount d + 1);
      d_event := e |}
  else
    sliding ← stopAndDrain (d_slidingTimer d);
    max ← stopAndDrain (d_maxTimer d);
    Some {|
      d_slidingTimer := Reset now proxyUpdateSlidingWindow sliding;
      d_maxTimer := Reset now proxyUpdateMaxWindow max;
      d_dispatchPending := true;
      d_batchCount := int64 (d_batchCount d + 1);
      d_event := e |}.

(** [case <-slidingTimer.C] and [case <-maxTimer.C]: the state, and the event that
    is published. *)
Definition onSliding (now : Z) (d : Dispatcher) : option (Dispatcher * proxyUpdateEvent) :=
  sliding ← receive (d_slidingTimer d);
  max ← stopAndDrain (d_maxTimer d);
  Some ({|
    d_slidingTimer := Reset now noTimeout sliding;
    d_maxTimer := Reset now noTimeout max;
    d_dispatchPending := false;
    d_batchCount := 0;
    d_event := d_event d |}, d_event d).

Definition onMax (now : Z) (d : Dispatcher) : option (Dispatcher * proxyUpdateEvent) :=
  max ← receive (d_maxTimer d);
  sliding ← stopAndDrain (d_slidingTimer d);
  Some ({|
    d_slidingTimer := Reset now noTimeout sliding;
    d_maxTimer := Reset now noTimeout max;
    d_dispatchPending := false;
    d_batchCount := 0;
    d_event := d_event d |}, d_event d).

(** ** The broker *)

Record Broker := mkBroker {
  b_now : Z;
  b_dispatcher : Dispatcher;
  b_totalQEventCount : Z;
  b_totalQProxyEventCount : Z;
  b_totalDispatchedProxyEventCount : Z;
  (** The log of [proxyUpdatePubSub]: when, and what. *)
  b_published : list (Z * proxyUpdateEvent);
  (** The log of [kubeEventPubSub]: the message and the topic. *)
  b_kubeEvents : list (PubSubMessage * string);
  (** The updates handed to the dispatcher, with their times. *)
  b_updates : list (Z * proxyUpdateEvent);
}.

Definition NewBroker : Broker := mkBroker 0 (newDispatcher 0) 0 0 0 [] [] [].

(** A publication by the dispatcher. *)
Definition dispatched (b : Broker) (d : Dispatcher) (e : proxyUpdateEvent) : Broker := {|
  b_now := b_now b;
  b_dispatcher := d;
  b_totalQEventCount := b_totalQEventCount b;
  b_totalQProxyEventCount := b_totalQProxyEventCount b;
  b_totalDispatchedProxyEventCount := uint64 (b_totalDispatchedProxyEventCount b + 1);
  b_published := b_published b ++ [(b_now b, e)];
  b_kubeEvents := b_kubeEvents b;
  b_updates := b_updates b;
|}.

(** [processNextItem] on a message: [processEvent], the update of a proxy first, then
    the publication to the other clients.  A broadcast is handed to the dispatcher
    over a channel without a buffer, so both take the step together. *)
Definition processEvent (msg : PubSubMessage) (b : Broker) : option Broker :=
  let kube := b_kubeEvents b ++ [(msg, Kind_String (msg_Kind msg))] in
  let queued := uint64 (b_totalQEventCount b + 1) in
  match getProxyUpdateEvent msg with
  | None =>
    Some (mkBroker (b_now b) (b_dispatcher b) queued (b_totalQProxyEventCount b)
            (b_totalDispatchedProxyEventCount b) (b_published b) kube (b_updates b))
  | Some event =>
    let proxyQueued := uint64 (b_totalQProxyEventCount b + 1) in
    if bool_decide (ev_topic event ≠ Kind_String ProxyUpdate) then
      Some (mkBroker (b_now b) (b_dispatcher b) queued proxyQueued
              (uint64 (b_totalDispatchedProxyEventCount b + 1))
              (b_published b ++ [(b_now b, event)]) kube (b_updates b))
    else
      d ← onUpdate (b_now b) event (b_dispatcher b);
      Some (mkBroker (b_now b) d queued proxyQueued (b_totalDispatchedProxyEventCount b)
              (b_published b) kube (b_updates b ++ [(b_now b, event)]))
  end.

Definition with_dispatcher (b : Broker) (d : Dispatcher) : Broker :=
  mkBroker (b_now b) d (b_totalQEventCount b) (b_totalQProxyEventCount b)
    (b_totalDispatchedProxyEventCount b) (b_published b) (b_kubeEvents b) (b_updates b).

Definition with_sliding (d : Dispatcher) (t : Timer) : Dispatcher :=
  mkDispatcher t (d_maxTimer d) (d_dispatchPending d) (d_batchCount d) (d_event d).
Definition with_max (d : Dispatcher) (t : Timer) : Dispatcher :=
  mkDispatcher (d_slidingTimer d) t (d_dispatchPending d) (d_batchCount d) (d_event d).

Definition at_time (b : Broker) (now : Z) : Broker :=
  mkBroker now (b_dispatcher b) (b_totalQEventCount b) (b_totalQProxyEventCount b)
    (b_totalDispatchedProxyEventCount b) (b_published b) (b_kubeEvents b) (b_updates b).

(** The timer has nothing to do before the time: it is not past its deadline, and no
    value waits in its channel. *)
Definition idle_until (now : Z) (t : Timer) : Prop :=
  t_fired t = false ∧ ∀ deadline, t_deadline t = Some deadline → (now ≤ deadline)%Z.

(** The steps of the system.  In a punctual run time does not pass over a deadline or
    while a value waits in the channel of a timer; in the others the goroutines and
    the runtime may be late. *)
Inductive step (punctual : bool) : Broker → Broker → Prop :=
| step_time b now :
    (b_now b < now)%Z →
    (punctual = true → idle_until now (d_slidingTimer (b_dispatcher b)) ∧
                       idle_until now (d_maxTimer (b_dispatcher b))) →
    step punctual b (at_time b now)
| step_fire_sliding b deadline :
    t_deadline (d_slidingTimer (b_dispatcher b)) = Some deadline → (deadline ≤ b_now b)%Z →
    step punctual b
      (with_dispatcher b (with_sliding (b_dispatcher b) (fire (d_slidingTimer (b_dispatcher b)))))
| step_fire_max b deadline :
    t_deadline (d_maxTimer (b_dispatcher b)) = Some deadline → (deadline ≤ b_now b)%Z →
    step punctual b
      (with_dispatcher b (with_max (b_dispatcher b) (fire (d_maxTimer (b_dispatcher b)))))
| step_message b msg b' :
    processEvent msg b = Some b' → step punctual b b'
| step_sliding b d e :
    onSliding (b_now b) (b_dispatcher b) = Some (d, e) → step punctual b (dispatched b d e)
| step_max b d e :
    onMax (b_now b) (b_dispatcher b) = Some (d, e) → step punctual b (dispatched b d e).

Definition reachable (punctual : bool) : Broker → Prop := rtc (step punctual) NewBroker.

(** ** The invariant *)

(** The timer is armed for the time, or fired at or after it. *)
Definition timer_due (now : Z) (t : Timer) (due : Z) : Prop :=
  (t_deadline t = Some due ∧ t_fired t = false) ∨
  (t_deadline t = None ∧ t_fired t = true ∧ (due ≤ now)%Z).

Lemma stopAndDrain_due now t due :
  timer_due now t due → ∃ t', stopAndDrain t = Some t' ∧ t_fired t' = false.
Proof.
  unfold stopAndDrain, Stop, receive. destruct t as [? f]. intros [[??]|(? & ? & _)]; simplify_eq/=; by eexists.
Qed.

Lemma timer_due_Reset now d t : t_fired t = false → timer_due now (Reset now d t) (now + d).
Proof. intros Hf. left. by split. Qed.

Lemma timer_due_later now now' t due : (now ≤ now')%Z → timer_due now t due → timer_due now' t due.
Proof. intros ? [?|(? & ? & ?)]; [by left|right]. split_and!; [done..|lia]. Qed.

Lemma timer_due_fire now t due deadline :
  t_deadline t = Some deadline → (deadline ≤ now)%Z → timer_due now t due → timer_due now (fire t) due.
Proof. intros E Hle [[E' _]|[E' _]]; simplify_eq. by right. Qed.

(** An update that the dispatcher received. *)
Definition is_update (te : Z * proxyUpdateEvent) : Prop := ev_topic te.2 = Kind_String ProxyUpdate.

#[global] Instance is_update_dec te : Decision (is_update te).
Proof. unfold is_update. apply _. Defined.

(** The broadcasts that were published. *)
Definition broadcasts (b : Broker) : list (Z * proxyUpdateEvent) := filter is_update (b_published b).

(** Consecutive broadcasts are a sliding window apart. *)
Fixpoint spaced (l : list (Z * proxyUpdateEvent)) : Prop :=
  match l with
  | x :: ((y :: _) as l') => (x.1 + proxyUpdateSlidingWindow ≤ y.1)%Z ∧ spaced l'
  | _ => True
  end.

(** The update was published in the window, with an update received no earlier. *)
Definition covered (punctual : bool) (b : Broker) (te : Z * proxyUpdateEvent) : Prop :=
  ∃ t' e' t'', (t', e') ∈ broadcasts b ∧ (t'', e') ∈ b_updates b ∧ (te.1 ≤ t'' ≤ t')%Z ∧
    (punctual = true → t' ≤ te.1 + proxyUpdateMaxWindow)%Z.

(** The first and the last time of the batch that waits, or the time of the last
    publication when there is none. *)
Definition batch (punctual : bool) (b : Broker) (sliding max : Z) : Prop :=
  if d_dispatchPending (b_dispatcher b) then
    ∃ first last, sliding = (last + proxyUpdateSlidingWindow)%Z ∧ max = (first + proxyUpdateMaxWindow)%Z ∧
      (first ≤ last ≤ b_now b)%Z ∧ (last, d_event (b_dispatcher b)) ∈ b_updates b ∧
      is_update (last, d_event (b_dispatcher b)) ∧
      (∀ x, x ∈ broadcasts b → x.1 ≤ first)%Z ∧
      ∀ te, te ∈ b_updates b → (te.1 ≤ last)%Z ∧ (covered punctual b te ∨ first ≤ te.1)%Z
  else
    ∃ start, sliding = (start + noTimeout)%Z ∧ max = (start + noTimeout)%Z ∧ (start ≤ b_now b)%Z ∧
      (∀ x, x ∈ broadcasts b → x.1 ≤ start)%Z ∧
      (∀ te, te ∈ b_updates b → te.1 ≤ start)%Z ∧
      ∀ te, te ∈ b_updates b → covered punctual b te.

Definition broker_inv (punctual : bool) (b : Broker) : Prop :=
  ∃ sliding max,
    timer_due (b_now b) (d_slidingTimer (b_dispatcher b)) sliding ∧
    timer_due (b_now b) (d_maxTimer (b_dispatcher b)) max ∧
    (punctual = true → b_now b ≤ sliding ∧ b_now b ≤ max)%Z ∧
    spaced (broadcasts b) ∧ batch punctual b sliding max.

(** ** The invariant is preserved *)

Lemma spaced_snoc l y :
  spaced l → (∀ x, x ∈ l → x.1 + proxyUpdateSlidingWindow ≤ y.1)%Z → spaced (l ++ [y]).
Proof.
  induction l as [|x [|x' l] IH]; intros Hs Hl; [done| |].
  - split; [|done]. apply Hl. set_solver.
  - simpl in Hs. destruct Hs as [Hx Hs]. split; [done|]. apply IH; [done|]. set_solver.
Qed.

Lemma spaced_head l x y : spaced (x :: l) → y ∈ l → (x.1 + proxyUpdateSlidingWindow ≤ y.1)%Z.
Proof.
  revert x. induction l as [|z l IH]; intros x Hs Hy; [by apply elem_of_nil in Hy|].
  simpl in Hs. destruct Hs as [Hxz Hs]. apply elem_of_cons in Hy as [->|Hy]; [done|].
  pose proof (IH z Hs Hy). unfold proxyUpdateSlidingWindow, second in *. lia.
Qed.

Lemma spaced_lookup l i j x y :
  spaced l → (i < j)%nat → l !! i = Some x → l !! j = Some y → (x.1 + proxyUpdateSlidingWindow ≤ y.1)%Z.
Proof.
  revert i j. induction l as [|z l IH]; intros i j Hs Hij Hx Hy; [done|].
  destruct j as [|j]; [lia|]. destruct i as [|i]; simplify_eq/=.
  - eapply spaced_head; [done|]. by eapply list_elem_of_lookup_2.
  - apply (IH i j); [|lia|done..]. destruct l; [done|]. by destruct Hs.
Qed.

Lemma covered_mono punctual b b' te :
  broadcasts b ⊆ broadcasts b' → b_updates b ⊆ b_updates b' →
  covered punctual b te → covered punctual b' te.
Proof.
  intros Hb Hu (t' & e' & t'' & H1 & H2 & H3). exists t', e', t''. split_and!; [set_solver..|naive_solver|naive_solver].
Qed.

(** What the invariant says of a batch depends on the logs of the broker, which may
    get publications to one proxy only. *)
Lemma batch_same punctual b b' sliding max :
  d_dispatchPending (b_dispatcher b') = d_dispatchPending (b_dispatcher b) →
  d_event (b_dispatcher b') = d_event (b_dispatcher b) →
  broadcasts b' = broadcasts b → b_updates b' = b_updates b → (b_now b ≤ b_now b')%Z →
  batch punctual b sliding max → batch punctual b' sliding max.
Proof.
  intros Hp He Hb Hu Hn. unfold batch, covered. rewrite Hp, He, Hb, Hu.
  destruct (d_dispatchPending (b_dispatcher b)).
  - intros (first & last & ? & ? & ? & ?). exists first, last. naive_solver lia.
  - intros (start & ? & ? & ? & ?). exists start. naive_solver lia.
Qed.

Lemma inv_NewBroker punctual : broker_inv punctual NewBroker.
Proof.
  exists noTimeout, noTimeout. split_and!; [by left..|done|done|].
  exists 0%Z. split_and!; [done..| | |]; intros ? ?%elem_of_nil; done.
Qed.

Lemma inv_time punctual b now :
  (b_now b < now)%Z →
  (punctual = true → idle_until now (d_slidingTimer (b_dispatcher b)) ∧
                     idle_until now (d_maxTimer (b_dispatcher b))) →
  broker_inv punctual b → broker_inv punctual (at_time b now).
Proof.
  intros Hlt Hidle (sliding & max & Hs & Hm & Hp & Hsp & Hb).
  exists sliding, max. split_and!; simpl.
  - eapply timer_due_later; [|done]. lia.
  - eapply timer_due_later; [|done]. lia.
  - intros Hpun. destruct (Hidle Hpun) as [[Hf1 Hd1] [Hf2 Hd2]].
    destruct Hs as [[??]|(? & ? & ?)]; [|congruence]. destruct Hm as [[??]|(? & ? & ?)]; [|congruence]. auto.
  - done.
  - eapply batch_same; [..|exact Hb]; simpl; [done..|lia].
Qed.

(** The two timers fire in the same way. *)
Lemma inv_fire punctual b d :
  (∀ due, timer_due (b_now b) (d_slidingTimer (b_dispatcher b)) due → timer_due (b_now b) (d_slidingTimer d) due) →
  (∀ due, timer_due (b_now b) (d_maxTimer (b_dispatcher b)) due → timer_due (b_now b) (d_maxTimer d) due) →
  d_dispatchPending d = d_dispatchPending (b_dispatcher b) → d_event d = d_event (b_dispatcher b) →
  broker_inv punctual b → broker_inv punctual (with_dispatcher b d).
Proof.
  intros H1 H2 Hp He (sliding & max & ? & ? & ? & ? & Hb). exists sliding, max. split_and!; simpl; auto.
  eapply batch_same; [..|exact Hb]; simpl; done.
Qed.

(** After a timer expired: the event is that of the batch, and the two timers are
    reset. *)
Definition dispatches (now : Z) (before d : Dispatcher) (e : proxyUpdateEvent) : Prop :=
  e = d_event before ∧ d_dispatchPending d = false ∧
  timer_due now (d_slidingTimer d) (now + noTimeout) ∧ timer_due now (d_maxTimer d) (now + noTimeout).

Lemma onSliding_due now before sliding max :
  timer_due now (d_slidingTimer before) sliding → timer_due now (d_maxTimer before) max →
  match onSliding now before with
  | Some (d, e) => dispatches now before d e ∧ (sliding ≤ now)%Z
  | None => t_fired (d_slidingTimer before) = false
  end.
Proof.
  intros Hs Hm. unfold onSliding, receive.
  destruct Hs as [[_ Hf]|(_ & Hf & Hle)]; rewrite Hf; simpl; [done|].
  destruct (stopAndDrain_due _ _ _ Hm) as (t & -> & Ht). simpl. split; [|done].
  split_and!; [done..| |]; by apply timer_due_Reset.
Qed.

Lemma onMax_due now before sliding max :
  timer_due now (d_slidingTimer before) sliding → timer_due now (d_maxTimer before) max →
  match onMax now before with
  | Some (d, e) => dispatches now before d e ∧ (max ≤ now)%Z
  | None => t_fired (d_maxTimer before) = false
  end.
Proof.
  intros Hs Hm. unfold onMax, receive.
  destruct Hm as [[_ Hf]|(_ & Hf & Hle)]; rewrite Hf; simpl; [done|].
  destruct (stopAndDrain_due _ _ _ Hs) as (t & -> & Ht). simpl. split; [|done].
  split_and!; [done..| |]; by apply timer_due_Reset.
Qed.

Lemma broadcasts_dispatched b d e :
  broadcasts (dispatched b d e) = broadcasts b ++ filter is_update [(b_now b, e)].
Proof. unfold broadcasts. simpl. by rewrite filter_app. Qed.

(** A dispatch of the batch that waits covers its updates. *)
Lemma covered_dispatched punctual b d first last te :
  is_update (last, d_event (b_dispatcher b)) → (last, d_event (b_dispatcher b)) ∈ b_updates b →
  (first ≤ te.1 ≤ last)%Z → (last ≤ b_now b)%Z →
  (punctual = true → b_now b ≤ first + proxyUpdateMaxWindow)%Z →
  covered punctual (dispatched b d (d_event (b_dispatcher b))) te.
Proof.
  intros Hup Hin Ht Hlast Hpun. exists (b_now b), (d_event (b_dispatcher b)), last.
  rewrite broadcasts_dispatched, filter_cons_True by done. split_and!; [set_solver|done|lia|lia|].
  intros ?%Hpun. lia.
Qed.

(** When a timer of the batch expires, the last broadcast is a window ago. *)
Lemma batch_gap punctual b sliding max x :
  batch punctual b sliding max → (sliding ≤ b_now b ∨ max ≤ b_now b)%Z → x ∈ broadcasts b →
  (x.1 + proxyUpdateSlidingWindow ≤ b_now b)%Z.
Proof.
  unfold batch, proxyUpdateSlidingWindow, proxyUpdateMaxWindow, noTimeout, second.
  destruct (d_dispatchPending (b_dispatcher b)).
  - intros (first & last & -> & -> & ? & _ & _ & Hbr & _) ? ?%Hbr. lia.
  - intros (start & -> & -> & ? & Hbr & _) ? ?%Hbr. lia.
Qed.

Lemma inv_dispatch punctual b d e sliding max :
  dispatches (b_now b) (b_dispatcher b) d e →
  (sliding ≤ b_now b ∨ max ≤ b_now b)%Z →
  (punctual = true → b_now b ≤ max)%Z →
  spaced (broadcasts b) → batch punctual b sliding max →
  broker_inv punctual (dispatched b d e).
Proof.
  intros (-> & Hd & Hs & Hm) Hdue Hpun Hsp Hb.
  exists (b_now b + noTimeout)%Z, (b_now b + noTimeout)%Z. split_and!; [done..|simpl; unfold noTimeout, second; lia| |].
  - rewrite broadcasts_dispatched, filter_cons, filter_nil. case_decide; [|by rewrite app_nil_r].
    apply spaced_snoc; [done|]. intros x Hx. eapply batch_gap; eauto.
  - unfold batch in *. simpl. rewrite Hd. exists (b_now b). rewrite broadcasts_dispatched.
    assert (∀ te, covered punctual b te → covered punctual (dispatched b d (d_event (b_dispatcher b))) te) as Hmono.
    { intros te. apply covered_mono; [|done]. rewrite broadcasts_dispatched. apply list_subseteq_app_l. done. }
    assert (∀ x, x ∈ filter is_update [(b_now b, d_event (b_dispatcher b))] → x.1 = b_now b) as Hx.
    { intros x [_ ->%list_elem_of_singleton]%list_elem_of_filter. done. }
    destruct (d_dispatchPending (b_dispatcher b)).
    + destruct Hb as (first & last & -> & -> & Hfl & Hin & Hup & Hbr & Hcov). split_and!; [done..| | |].
      * intros x [?%Hbr|?%Hx]%elem_of_app; lia.
      * intros te [? _]%Hcov. lia.
      * intros te [? [?|?]]%Hcov; [by auto|]. apply (covered_dispatched _ _ _ first last); [done..|lia|lia|done].
    + destruct Hb as (start & -> & -> & Hst & Hbr & Hup & Hcov). split_and!; [done..| | |].
      * intros x [?%Hbr|?%Hx]%elem_of_app; lia.
      * intros te ?%Hup. lia.
      * auto.
Qed.

(** A broadcast that the dispatcher receives: it waits, for a sliding window from now
    on and at most until the end of the maximal window of its batch. *)
Lemma onUpdate_due now e before sliding max :
  timer_due now (d_slidingTimer before) sliding → timer_due now (d_maxTimer before) max →
  ∃ d, onUpdate now e before = Some d ∧ d_dispatchPending d = true ∧ d_event d = e ∧
    timer_due now (d_slidingTimer d) (now + proxyUpdateSlidingWindow) ∧
    timer_due now (d_maxTimer d)
      (if d_dispatchPending before then max else now + proxyUpdateMaxWindow).
Proof.
  intros Hs Hm. unfold onUpdate. destruct (stopAndDrain_due _ _ _ Hs) as (s & -> & Hsf).
  destruct (stopAndDrain_due _ _ _ Hm) as (m & Em & Hmf). destruct (d_dispatchPending before); simpl.
  - eexists. split_and!; [done..| |done]. by apply timer_due_Reset.
  - rewrite Em. eexists. split_and!; [done..| |]; by apply timer_due_Reset.
Qed.

Lemma batch_update punctual b b' sliding max :
  batch punctual b sliding max →
  d_dispatchPending (b_dispatcher b') = true → b_now b' = b_now b → broadcasts b' = broadcasts b →
  b_updates b' = b_updates b ++ [(b_now b, d_event (b_dispatcher b'))] →
  is_update (b_now b, d_event (b_dispatcher b')) →
  batch punctual b' (b_now b + proxyUpdateSlidingWindow)
    (if d_dispatchPending (b_dispatcher b) then max else b_now b + proxyUpdateMaxWindow).
Proof.
  intros Hb Hp Hn Hbr Hu Hup. unfold batch in *. rewrite Hp, Hn, Hu, Hbr.
  assert (∀ te, covered punctual b te → covered punctual b' te) as Hmono.
  { intros te. apply covered_mono; [by rewrite Hbr|rewrite Hu; by apply list_subseteq_app_l]. }
  destruct (d_dispatchPending (b_dispatcher b)).
  - destruct Hb as (first & last & -> & -> & Hfl & _ & _ & Hx & Hcov). exists first, (b_now b).
    split_and!; [done..|lia|lia|set_solver|done|done|].
    intros te [[? [?|?]]%Hcov| ->%list_elem_of_singleton]%elem_of_app; simpl; (split; [lia|]); auto. right. lia.
  - destruct Hb as (start & -> & -> & Hst & Hx & Hus & Hcov). exists (b_now b), (b_now b).
    split_and!; [done..|lia|lia|set_solver|done| |].
    + intros x ?%Hx. lia.
    + intros te [H| ->%list_elem_of_singleton]%elem_of_app; simpl; [|split; [lia|right; lia]].
      pose proof (Hus te H). split; [lia|]. auto.
Qed.

Lemma inv_message punctual b msg b' :
  processEvent msg b = Some b' → broker_inv punctual b → broker_inv punctual b'.
Proof.
  intros E (sliding & max & Hs & Hm & Hpun & Hsp & Hb). unfold processEvent in E.
  destruct (getProxyUpdateEvent msg) as [event|].
  - case_bool_decide as Htopic.
    + simplify_eq/=. assert (∀ b', b_published b' = b_published b ++ [(b_now b, event)] → broadcasts b' = broadcasts b) as Hbr.
      { intros b' Eb. unfold broadcasts. rewrite Eb, filter_app, filter_cons_False by done. by rewrite filter_nil, app_nil_r. }
      exists sliding, max. split_and!; [done..|by rewrite Hbr|].
      eapply batch_same; [..|exact Hb]; simpl; [done..|by apply Hbr|done|done].
    + destruct (onUpdate_due _ event _ _ _ Hs Hm) as (d & Ed & Hp & He & Hs' & Hm'). rewrite Ed in E. simplify_eq/=.
      eexists _, _. split_and!; [exact Hs'|exact Hm'| |done|by eapply batch_update].
      intros ?%Hpun. simpl. unfold proxyUpdateSlidingWindow, proxyUpdateMaxWindow, second.
      destruct (d_dispatchPending (b_dispatcher b)); lia.
  - simplify_eq/=. exists sliding, max. split_and!; [done..|]. eapply batch_same; [..|exact Hb]; done.
Qed.

Lemma inv_step punctual b b' : step punctual b b' → broker_inv punctual b → broker_inv punctual b'.
Proof.
  destruct 1 as [b now ??|b deadline E Hle|b deadline E Hle|b msg b' E|b d e E|b d e E]; intros Hinv.
  - by apply inv_time.
  - apply inv_fire; [|done..]. intros due. by apply (timer_due_fire _ _ _ deadline).
  - apply inv_fire; [done| |done..]. intros due. by apply (timer_due_fire _ _ _ deadline).
  - by eapply inv_message.
  - destruct Hinv as (sliding & max & Hs & Hm & Hpun & Hsp & Hb).
    pose proof (onSliding_due _ _ _ _ Hs Hm) as Hd. rewrite E in Hd. destruct Hd as [??].
    apply (inv_dispatch _ _ _ _ sliding max); [done|by left|naive_solver|done..].
  - destruct Hinv as (sliding & max & Hs & Hm & Hpun & Hsp & Hb).
    pose proof (onMax_due _ _ _ _ Hs Hm) as Hd. rewrite E in Hd. destruct Hd as [??].
    apply (inv_dispatch _ _ _ _ sliding max); [done|by right|naive_solver|done..].
Qed.

Lemma inv_reachable punctual b : reachable punctual b → broker_inv punctual b.
Proof.
  intros Hr. assert (∀ b0, rtc (step punctual) b0 b → broker_inv punctual b0 → broker_inv punctual b) as H.
  { clear Hr. induction 1 as [|b0 b1 b2 Hstep _ IH]; [done|]. intros. apply IH. by eapply inv_step. }
  apply (H _ Hr), inv_NewBroker.
Qed.

(** From a state in which a timer has fired, the dispatch and then the passing of
    time are possible. *)
Lemma fired_passes b :
  broker_inv true b →
  t_fired (d_slidingTimer (b_dispatcher b)) = true ∨ t_fired (d_maxTimer (b_dispatcher b)) = true →
  ∃ b', rtc (step true) b b' ∧ (b_now b < b_now b')%Z.
Proof.
  intros (sliding & max & Hs & Hm & _) Hf.
  assert (∃ d e, step true b (dispatched b d e) ∧ dispatches (b_now b) (b_dispatcher b) d e) as (d & e & Hstep & Hd).
  { pose proof (onSliding_due _ _ _ _ Hs Hm) as H1. pose proof (onMax_due _ _ _ _ Hs Hm) as H2.
    destruct Hf as [Hf|Hf].
    - destruct (onSliding _ _) as [[d e]|] eqn:E; [|congruence]. exists d, e. split; [by constructor|naive_solver].
    - destruct (onMax _ _) as [[d e]|] eqn:E; [|congruence]. exists d, e. split; [by apply step_max|naive_solver]. }
  destruct Hd as (_ & _ & Hds & Hdm).
  exists (at_time (dispatched b d e) (b_now b + 1)). simpl. split; [|lia].
  eapply rtc_l; [exact Hstep|]. apply rtc_once. apply step_time; simpl; [lia|]. intros _.
  unfold idle_until, noTimeout, second in *.
  split; [destruct Hds as [[??]|(? & ? & ?)]|destruct Hdm as [[??]|(? & ? & ?)]];
    first [lia | split; [done|]; intros ? ?; simplify_eq; lia].
Qed.

Lemma idle_or_due now t due :
  timer_due now t due →
  idle_until (now + 1) t ∨ t_fired t = true ∨ ∃ deadline, t_deadline t = Some deadline ∧ (deadline ≤ now)%Z.
Proof.
  intros [[E Hf]|(E & Hf & _)]; [|by right; left].
  destruct (decide (due ≤ now)%Z); [right; right; eauto|left]. split; [done|]. intros ? ?. simplify_eq. lia.
Qed.

(** ** Theorems *)

(** C15. The dispatcher never blocks on a timer's channel: in every run, late or not,
    a message is always processed, and a timer that has fired is always served.
    ([stopAndDrain] would block on a timer that was neither armed nor had fired.) *)
Theorem dispatcher_never_blocks punctual b :
  reachable punctual b →
  (∀ msg, is_Some (processEvent msg b)) ∧
  (t_fired (d_slidingTimer (b_dispatcher b)) = true → is_Some (onSliding (b_now b) (b_dispatcher b))) ∧
  (t_fired (d_maxTimer (b_dispatcher b)) = true → is_Some (onMax (b_now b) (b_dispatcher b))).
Proof.
  intros (sliding & max & Hs & Hm & _)%inv_reachable. split_and!.
  - intros msg. unfold processEvent. destruct (getProxyUpdateEvent msg) as [e|]; [|by eexists].
    case_bool_decide; [by eexists|].
    destruct (onUpdate_due _ e _ _ _ Hs Hm) as (d & -> & _). by eexists.
  - pose proof (onSliding_due _ _ _ _ Hs Hm) as H. destruct (onSliding _ _); [by eexists|congruence].
  - pose proof (onMax_due _ _ _ _ Hs Hm) as H. destruct (onMax _ _); [by eexists|congruence].
Qed.

(** C14. No broadcast is lost or delayed beyond the maximal window: in a punctual run,
    an update received more than ten seconds ago has been followed by a broadcast,
    at most ten seconds after it, of an update received at the same time or later. *)
Theorem broadcast_within_max_window b t e :
  reachable true b → (t, e) ∈ b_updates b → (t + proxyUpdateMaxWindow < b_now b)%Z →
  ∃ t' e' t'', (t', e') ∈ b_published b ∧ ev_topic e' = Kind_String ProxyUpdate ∧
    (t'', e') ∈ b_updates b ∧ (t ≤ t'' ≤ t')%Z ∧ (t' ≤ t + proxyUpdateMaxWindow)%Z.
Proof.
  intros (sliding & max & _ & _ & Hpun & _ & Hb)%inv_reachable Hin Hlate.
  destruct (Hpun eq_refl) as [_ Hmax].
  assert (covered true b (t, e)) as (t' & e' & t'' & [? ?]%list_elem_of_filter & ? & ? & Hw).
  { unfold batch in Hb. destruct (d_dispatchPending (b_dispatcher b)); [|naive_solver].
    destruct Hb as (first & last & -> & -> & _ & _ & _ & _ & Hcov).
    destruct (Hcov _ Hin) as [_ [?|?]]; [done|]. simpl in *. lia. }
  exists t', e', t''. split_and!; try done; naive_solver.
Qed.

(** The dispatcher does not publish in a hot loop: in every run, late or not, two
    broadcasts are at least a sliding window, two seconds, apart. *)
Theorem broadcasts_spaced punctual b i j x y :
  reachable punctual b → (i < j)%nat → broadcasts b !! i = Some x → broadcasts b !! j = Some y →
  (x.1 + proxyUpdateSlidingWindow ≤ y.1)%Z.
Proof.
  intros (sliding & max & _ & _ & _ & Hsp & _)%inv_reachable Hij Hx Hy.
  by eapply spaced_lookup.
Qed.

(** Time can always pass: from every state of a punctual run, without any further
    message, a finite number of steps of the dispatcher leads to a later time, so that
    the bound on the delay of a broadcast is never met by a run that is stuck. *)
Theorem time_passes b :
  reachable true b → ∃ b', rtc (step true) b b' ∧ (b_now b < b_now b')%Z.
Proof.
  intros Hinv%inv_reachable. pose proof Hinv as (sliding & max & Hs & Hm & _).
  destruct (idle_or_due _ _ _ Hs) as [Hs'|[?|(deadline & ? & ?)]]; [|by apply fired_passes; auto|].
  - destruct (idle_or_due _ _ _ Hm) as [Hm'|[?|(deadline & ? & ?)]]; [|by apply fired_passes; auto|].
    + exists (at_time b (b_now b + 1)). split; [|simpl; lia]. apply rtc_once, step_time; [lia|done].
    + pose proof (step_fire_max true b deadline) as Hstep.
      destruct (fired_passes (with_dispatcher b (with_max (b_dispatcher b) (fire (d_maxTimer (b_dispatcher b))))))
        as (b' & ? & ?); [eapply inv_step; eauto|by right|].
      exists b'. split; [|done]. eapply rtc_l; eauto.
  - pose proof (step_fire_sliding true b deadline) as Hstep.
    destruct (fired_passes (with_dispatcher b (with_sliding (b_dispatcher b) (fire (d_slidingTimer (b_dispatcher b))))))
      as (b' & ? & ?); [eapply inv_step; eauto|by left|].
    exists b'. split; [|done]. eapply rtc_l; eauto.
Qed.

(** The topic of an update: an update of one proxy comes only from a change of a
    pod's scrape annotation, and is published on the topic of that pod's proxy, which
    is never the topic of broadcasts; every other update is a broadcast, and the
    events that are no updates are those of the other kinds, a pod update without a
    proxy UUID, and a MeshConfig update that changes none of the compared fields. *)
Theorem getProxyUpdateEvent_topic msg :
  match getProxyUpdateEvent msg with
  | Some e =>
    ev_msg e = msg ∧
    (ev_topic e ≠ Kind_String ProxyUpdate ↔
       ∃ prevPod newPod, msg_Kind msg = PodUpdated ∧ msg_OldObj msg = ObjPod prevPod ∧
         msg_NewObj msg = ObjPod newPod ∧
         annotation (pod_Annotations prevPod) PrometheusScrapeAnnotation ≠
           annotation (pod_Annotations newPod) PrometheusScrapeAnnotation) ∧
    (ev_topic e ≠ Kind_String ProxyUpdate → ∃ newPod, msg_NewObj msg = ObjPod newPod ∧
       ev_topic e = GetPubSubTopicForProxyUUID (annotation (pod_Labels newPod) SidecarUniqueIDLabelName))
  | None =>
    isBroadcastKind (msg_Kind msg) = false ∧
    (∀ prevSpec newSpec, msg_Kind msg = MeshConfigUpdated → msg_OldObj msg = ObjMeshConfig prevSpec →
       msg_NewObj msg = ObjMeshConfig newSpec → meshConfigChanged prevSpec newSpec = false) ∧
    (∀ prevPod newPod, msg_Kind msg = PodUpdated → msg_OldObj msg = ObjPod prevPod →
       msg_NewObj msg = ObjPod newPod → annotation (pod_Labels newPod) SidecarUniqueIDLabelName = "")
  end.
Proof.
  unfold getProxyUpdateEvent. destruct (isBroadcastKind (msg_Kind msg)) eqn:Ek.
  { split_and!; [done| |done]. split; [done|]. intros (? & ? & E & _). by rewrite E in Ek. }
  destruct (msg_Kind msg); try discriminate; try (split_and!; [done|by intros..]).
  - destruct (msg_OldObj msg) as [?|prevPod|], (msg_NewObj msg) as [?|newPod|]; try (split_and!; [done|by intros..]).
    case_bool_decide; [split_and!; [done|split; [by eauto 7|done]|by eauto]|].
    case_bool_decide as Hu; simpl.
    + split_and!; [done|split; [done|naive_solver]|done].
    + split_and!; [done..|]. intros ? ? _ _ [= <-]. done.
  - destruct (msg_OldObj msg) as [prev|?|], (msg_NewObj msg) as [new|?|]; try (split_and!; [done|by intros..]).
    destruct (meshConfigChanged prev new) eqn:E; simpl.
    + split_and!; [done|split; [done|naive_solver]|done].
    + split_and!; [done|naive_solver|done].
Qed.

(** The MeshConfig with other settings of the local DNS proxy. *)
Definition with_LocalDNSProxy (s : MeshConfigSpec) (dns : LocalDNSProxy) : MeshConfigSpec :=
  let c := mcs_Sidecar s in
  mkMeshConfigSpec (mcs_ClusterSet s)
    (mkSidecarSpec (sc_EnablePrivilegedInitContainer c) (sc_LogLevel c) (sc_SidecarClass c) (sc_SidecarImage c)
       (sc_SidecarWindowsImage c) (sc_InitContainerImage c) (sc_SidecarDrivers c) (sc_MaxDataPlaneConnections c)
       (sc_ConfigResyncInterval c) (sc_SidecarTimeout c) (sc_Resources c) (sc_TLSMinProtocolVersion c)
       (sc_TLSMaxProtocolVersion c) (sc_CipherSuites c) (sc_ECDHCurves c) (sc_LocalProxyMode c) dns)
    (mcs_RepoServer s) (mcs_Traffic s) (mcs_Observability s) (mcs_Certificate s) (mcs_FeatureFlags s)
    (mcs_PluginChains s).

(** The MeshConfig with the tracing fraction at another address, as a second decoding
    of the same object has it. *)
Definition with_SampledFraction (s : MeshConfigSpec) (p : pointer string) : MeshConfigSpec :=
  let o := mcs_Observability s in
  let t := ob_Tracing o in
  mkMeshConfigSpec (mcs_ClusterSet s) (mcs_Sidecar s) (mcs_RepoServer s) (mcs_Traffic s)
    (mkObservabilitySpec (ob_OSMLogLevel o) (ob_EnableDebugServer o)
       (mkTracingSpec (tr_Enable t) (tr_Port t) (tr_Address t) (tr_Endpoint t) (Some p))
       (ob_RemoteLogging o))
    (mcs_Certificate s) (mcs_FeatureFlags s) (mcs_PluginChains s).

Lemma same_logging_refl l : same_logging l l = true.
Proof. unfold same_logging, same_pointer. by rewrite !bool_decide_true. Qed.
Lemma same_tracing_refl t : same_tracing t t = true.
Proof. unfold same_tracing, same_pointer. by rewrite !bool_decide_true. Qed.

(** Two deviations from the rule that a MeshConfig update must only be triggered
    when a field that maps to a proxy configuration changes.  A change of the local
    DNS proxy, which maps to the proxy configuration, triggers none.  A MeshConfig
    equal to the previous one triggers one, because the sampled fractions are compared
    by their addresses. *)
Theorem meshConfigChanged_deviates :
  (∀ s dns, getProxyUpdateEvent (mkPubSubMessage MeshConfigUpdated (ObjMeshConfig s)
                                   (ObjMeshConfig (with_LocalDNSProxy s dns))) = None) ∧
  (∀ s v a a', a ≠ a' →
     is_Some (getProxyUpdateEvent (mkPubSubMessage MeshConfigUpdated
                (ObjMeshConfig (with_SampledFraction s (mkPointer a v)))
                (ObjMeshConfig (with_SampledFraction s (mkPointer a' v)))))).
Proof.
  split.
  - intros s dns. unfold getProxyUpdateEvent, meshConfigChanged. simpl.
    rewrite same_logging_refl, same_tracing_refl. simpl.
    rewrite !bool_decide_false by naive_solver. by rewrite andb_false_r.
  - intros s v a a' Ha. unfold getProxyUpdateEvent. simpl.
    assert (meshConfigChanged (with_SampledFraction s (mkPointer a v)) (with_SampledFraction s (mkPointer a' v)) = true) as ->;
      [|by eexists].
    unfold meshConfigChanged, same_tracing, same_pointer. simpl.
    rewrite (bool_decide_false (Some a = Some a')) by naive_solver. rewrite andb_false_r. simpl.
    by rewrite !orb_true_r.
Qed.
