(* ===== verification/Certificate.v ===== *)
(** * pkg/certificate: the certificate manager

    manager.go, options.go, certificate.go and types.go.  The manager has a cache of the
    certificates it issued, by the prefix of their name, and two issuers, which the events
    of the MeshRootCertificates set: one signs, and the root of the other is trusted too.
    A goroutine looks at every cached certificate at each tick and replaces those that
    expire soon or that are not of the current issuers.

    Times are nanoseconds on the wall clock, as [Z]; a call carries the readings it makes
    of the clock, of the random numbers and of the MeshConfig (a [moment]), so that a
    theorem for every moment holds whatever they are.  An issuer is a function of the
    call ([Issuer]); what the manager relies on is the class [IssuerLaws], which
    [CertIssuers] proves of the issuers of the repository.  [group.Do] lets one call at a
    time run for a prefix: a call is one action, while the rotation, which is a loop of
    calls over a copy of the cache, can be interleaved with other calls ([exec]). *)

From S2P Require Import Prelude GoStrings.

#[local] Open Scope Z_scope.

(** ** Time *)

Definition hour : Z := 3600 * second.

(** [time.Until]: the difference, saturated to the range of a [time.Duration]. *)
Definition Until (t now : Z) : Z := Z.max (- 2 ^ 63) (Z.min (2 ^ 63 - 1) (t - now)).

Definition RenewBeforeCertExpires : Z := 30 * second.
Definition noiseSeconds : Z := 5.
Definition OSMCertificateValidityPeriod : Z := 87600 * hour.

(** ** Data *)

Definition CertType_Internal : string := "internal".
Definition CertType_IngressGateway : string := "ingressGateway".
Definition CertType_Service : string := "service".

Record MeshCertificate := mkMeshCertificate {
  cert_CommonName : string;
  cert_SANames : list string;
  cert_SerialNumber : string;
  cert_Expiration : Z;
  cert_CertChain : string;
  cert_PrivateKey : string;
  cert_IssuingCA : string;
  cert_TrustedCAs : string;
  cert_signingIssuerID : string;
  cert_validatingIssuerID : string;
  cert_certType : string;
}.

#[global] Instance MeshCertificate_eq_dec : EqDecision MeshCertificate.
Proof. solve_decision. Defined.

(** What a call reads besides the state: the clock in [ShouldRotate], its noise, the
    clock of the issuer, the validity periods of the MeshConfig, and the number of the
    call, on which the random choices of the issuer depend. *)
Record moment := mkMoment {
  at_now : Z;
  at_noise : Z;
  at_issue : Z;
  at_serviceCertValidityDuration : Z;
  at_ingressCertValidityDuration : Z;
  at_call : nat;
}.

(** [Issuer.IssueCertificate]: call, clock, name, alternative names, validity. *)
Abbreviation Issuer := (nat → Z → string → list string → Z → outcome (result string MeshCertificate)).

Record issuer := mkIssuer {
  iss_Issuer : Issuer;
  iss_ID : string;
  iss_TrustDomain : string;
  iss_CertificateAuthority : string;
}.

Record Manager := mkManager {
  mgr_cache : gmap string MeshCertificate;
  mgr_signingIssuer : option issuer;
  mgr_validatingIssuer : option issuer;
}.

Inductive Provider := ProviderTresor | ProviderVault | ProviderCertManager.

(** A MeshRootCertificate; of its provider, which of the three fields is set first in
    the order the code looks at them, if one is. *)
Record MeshRootCertificate := mkMRC {
  mrc_Name : string;
  mrc_Provider : option Provider;
  mrc_TrustDomain : string;
  mrc_State : string;
}.

Inductive MRCEventType := MRCEventAdded | MRCEventUpdated.
Record MRCEvent := mkMRCEvent {
  ev_Type : MRCEventType;
  ev_MRC : MeshRootCertificate;
}.

Definition MRCStateValidatingRollout : string := "validatingRollout".
Definition MRCStateIssuingRollout : string := "issuingRollout".
Definition MRCStateActive : string := "active".
Definition MRCStateIssuingRollback : string := "issuingRollback".
Definition MRCStateValidatingRollback : string := "validatingRollback".
Definition MRCStateInactive : string := "inactive".
Definition MRCStateError : string := "error".

(** ** Options *)

Record issueOptions := mkIssueOptions {
  opt_fullCNProvided : bool;
  opt_validityDuration : option Z;
  opt_saNames : list string;
}.

Abbreviation IssueOption := (issueOptions → issueOptions).

Definition FullCNProvided : IssueOption :=
  λ o, mkIssueOptions true (opt_validityDuration o) (opt_saNames o).
Definition ValidityDurationProvided (d : option Z) : IssueOption :=
  λ o, mkIssueOptions (opt_fullCNProvided o) d (opt_saNames o).
Definition SubjectAlternativeNames (saNames : list string) : IssueOption :=
  λ o, mkIssueOptions (opt_fullCNProvided o) (opt_validityDuration o) saNames.

Definition formatCN (o : issueOptions) (prefix trustDomain : string) : string :=
  if opt_fullCNProvided o then prefix else prefix +:+ "." +:+ trustDomain.

Definition validityPeriod (o : issueOptions) (d : Z) : Z := default d (opt_validityDuration o).

(** Names with a colon and names to exclude are left out, and repeated ones; a slice of
    fewer than two names is returned as it is. *)
Definition uniqueSubjectAlternativeNames (saNames excludeSANS : list string) : list string :=
  if bool_decide (1 < length saNames)%nat then
    (foldl (λ st san,
       if has_char ":" san then st
       else if bool_decide (san ∈ excludeSANS) then st
       else set_append st san) (∅, []) saNames).2
  else saNames.

Definition subjectAlternativeNames (o : issueOptions) : list string :=
  if bool_decide (1 < length (opt_saNames o))%nat then uniqueSubjectAlternativeNames (opt_saNames o) []
  else opt_saNames o.

(** ** Certificates *)

Definition newMergedWithRoot (c : MeshCertificate) (root : string) : MeshCertificate :=
  mkMeshCertificate (cert_CommonName c) (cert_SANames c) (cert_SerialNumber c) (cert_Expiration c)
    (cert_CertChain c) (cert_PrivateKey c) (cert_IssuingCA c) (cert_IssuingCA c +:+ root)
    (cert_signingIssuerID c) (cert_validatingIssuerID c) (cert_certType c).

(** The three assignments after the certificate is issued. *)
Definition stamp (c : MeshCertificate) (signing validating ct : string) : MeshCertificate :=
  mkMeshCertificate (cert_CommonName c) (cert_SANames c) (cert_SerialNumber c) (cert_Expiration c)
    (cert_CertChain c) (cert_PrivateKey c) (cert_IssuingCA c) (cert_TrustedCAs c) signing validating ct.

(** ** The manager *)

Definition NewManager : Manager := mkManager ∅ None None.

Definition with_cache (m : Manager) (cache : gmap string MeshCertificate) : Manager :=
  mkManager cache (mgr_signingIssuer m) (mgr_validatingIssuer m).

Section manager.
Context (GetCertIssuerForMRC : MeshRootCertificate → outcome (result string (Issuer * string))).

Definition handleMRCEvent (m : Manager) (event : MRCEvent) : outcome (result string Manager) :=
  match ev_Type event with
  | MRCEventAdded =>
    let mrc := ev_MRC event in
    if decide (mrc_State mrc = MRCStateError) then Ret (Ok m)
    else
      r ← GetCertIssuerForMRC mrc;
      match r with
      | Err e => Ret (Err e)
      | Ok (client, ca) =>
        let c := Some (mkIssuer client (mrc_Name mrc) (mrc_TrustDomain mrc) ca) in
        Ret (Ok
          (if decide (mrc_State mrc = MRCStateActive) then mkManager (mgr_cache m) c c
           else if decide (mrc_State mrc = MRCStateIssuingRollback ∨ mrc_State mrc = MRCStateIssuingRollout)
           then mkManager (mgr_cache m) c (mgr_validatingIssuer m)
           else if decide (mrc_State mrc = MRCStateValidatingRollback ∨ mrc_State mrc = MRCStateValidatingRollout)
           then mkManager (mgr_cache m) (mgr_signingIssuer m) c
           else mkManager (mgr_cache m) c c))
      end
  | MRCEventUpdated => Ret (Ok m)
  end.

(** The goroutine of [start]: an event whose handling fails is logged and skipped. *)
Definition watch (m : Manager) (events : list MRCEvent) : outcome Manager :=
  foldO (λ m ev, r ← handleMRCEvent m ev; Ret match r with Ok m' => m' | Err _ => m end) m events.

(** [start], given the events that arrive before it times out. *)
Definition start (m : Manager) (events : list MRCEvent) : outcome (result string Manager) :=
  m' ← watch m events;
  Ret match mgr_signingIssuer m', mgr_validatingIssuer m' with
      | Some _, Some _ => Ok m'
      | _, _ => Err "manager initialization timed out. Make sure your MeshRootCertificate(s) are valid"
      end.
End manager.

Definition GetTrustDomain (m : Manager) : outcome string :=
  match mgr_signingIssuer m with Some s => Ret (iss_TrustDomain s) | None => Panic end.

Definition ShouldRotate (m : Manager) (now noise : Z) (c : MeshCertificate) : outcome bool :=
  let renewBefore := RenewBeforeCertExpires + noise * second in
  if bool_decide (Until (cert_Expiration c) now ≤ renewBefore) then Ret true
  else
    match mgr_signingIssuer m with
    | None => Panic
    | Some s =>
      if decide (cert_signingIssuerID c ≠ iss_ID s) then Ret true
      else match mgr_validatingIssuer m with
           | None => Panic
           | Some v => Ret (bool_decide (cert_validatingIssuerID c ≠ iss_ID v))
           end
    end.

Definition getValidityDurationForCertType (at_ : moment) (ct : string) : Z :=
  if decide (ct = CertType_Internal) then OSMCertificateValidityPeriod
  else if decide (ct = CertType_IngressGateway) then at_ingressCertValidityDuration at_
  else if decide (ct = CertType_Service) then at_serviceCertValidityDuration at_
  else OSMCertificateValidityPeriod.

Definition getFromCache (m : Manager) (key : string) : option MeshCertificate := mgr_cache m !! key.

(** The messages that are published: the old and the new certificate of a rotation. *)
Abbreviation Rotated := (list (MeshCertificate * MeshCertificate)).

(** Some certificate that is not to be rotated is returned as it is; else one is issued,
    for the alternative names of the old one if there is one. *)
Definition issueCertificate (m : Manager) (at_ : moment) (prefix ct : string) (opts : list IssueOption) :
    outcome (Manager * result string MeshCertificate * Rotated) :=
  let cert := getFromCache m prefix in
  rotate ← match cert with Some c => ShouldRotate m (at_now at_) (at_noise at_) c | None => Ret false end;
  match cert, rotate with
  | Some c, false => Ret (m, Ok c, [])
  | _, _ =>
    let options := foldl (λ o f, f o) (mkIssueOptions false None []) opts in
    let options := match cert with
                   | Some c => SubjectAlternativeNames (uniqueSubjectAlternativeNames (cert_SANames c) []) options
                   | None => options
                   end in
    match mgr_signingIssuer m with
    | None => Panic
    | Some s =>
      r ← iss_Issuer s (at_call at_) (at_issue at_) (formatCN options prefix (iss_TrustDomain s))
            (subjectAlternativeNames options)
            (validityPeriod options (getValidityDurationForCertType at_ ct));
      match r with
      | Err e => Ret (m, Err e, [])
      | Ok newCert =>
        match mgr_validatingIssuer m with
        | None => Panic
        | Some v =>
          let newCert := if decide (iss_ID v ≠ iss_ID s)
                         then newMergedWithRoot newCert (iss_CertificateAuthority v) else newCert in
          let newCert := stamp newCert (iss_ID s) (iss_ID v) ct in
          Ret (with_cache m (<[prefix := newCert]> (mgr_cache m)), Ok newCert,
               match cert with Some c => [(c, newCert)] | None => [] end)
        end
      end
    end
  end.

Definition ReleaseCertificate (m : Manager) (key : string) : Manager := with_cache m (delete key (mgr_cache m)).

Definition ListIssuedCertificates `{RangeOrder} (m : Manager) : list MeshCertificate := (range_map (mgr_cache m)).*2.

(** The options with which [checkAndRotate] issues a certificate again. *)
Definition rotateOptions (key : string) (cert : MeshCertificate) : list IssueOption :=
  if decide (key = cert_CommonName cert)
  then [FullCNProvided; SubjectAlternativeNames (uniqueSubjectAlternativeNames (cert_SANames cert) [key])]
  else [].

(** A turn of its loop; an error is logged. *)
Definition rotateOne (m : Manager) (at_ : moment) (kc : string * MeshCertificate) : outcome (Manager * Rotated) :=
  '(m', _, pub) ← issueCertificate m at_ kc.1 (cert_certType kc.2) (rotateOptions kc.1 kc.2);
  Ret (m', pub).

(** The loop over the copy of the cache; [ats] is the moment of each turn. *)
Fixpoint rotateAll (m : Manager) (ats : nat → moment) (n : nat) (certs : list (string * MeshCertificate)) :
    outcome (Manager * Rotated) :=
  match certs with
  | [] => Ret (m, [])
  | kc :: certs =>
    '(m, pub) ← rotateOne m (ats n) kc;
    '(m, pub') ← rotateAll m ats (S n) certs;
    Ret (m, pub ++ pub')
  end.

Definition checkAndRotate `{RangeOrder} (m : Manager) (ats : nat → moment) : outcome (Manager * Rotated) :=
  rotateAll m ats 0 (range_map (mgr_cache m)).

(** ** Interleavings

    The rotation goroutine next to the other callers.  [w_pending] is what is left of
    the copy of the cache that a check made; [w_started] and [w_checked] are history:
    the start of the last check, and of the last check that is complete. *)
Record World := mkWorld {
  w_manager : Manager;
  w_pending : list (string * MeshCertificate);
  w_started : Z;
  w_checked : Z;
  w_published : Rotated;
}.

Inductive action :=
| Event (ev : MRCEvent)
| Issue (at_ : moment) (prefix ct : string) (opts : list IssueOption)
| Release (key : string)
| Check (now : Z)
| Rotate (at_ : moment).

Definition with_manager (w : World) (m : Manager) : World :=
  mkWorld m (w_pending w) (w_started w) (w_checked w) (w_published w).

(** A tick during a check starts none, and there is nothing to rotate outside a check. *)
Definition exec `{RangeOrder} (GetCertIssuerForMRC : MeshRootCertificate → outcome (result string (Issuer * string)))
    (w : World) (a : action) : outcome World :=
  match a with
  | Event ev =>
    m ← watch GetCertIssuerForMRC (w_manager w) [ev];
    Ret (with_manager w m)
  | Issue at_ prefix ct opts =>
    '(m, _, pub) ← issueCertificate (w_manager w) at_ prefix ct opts;
    Ret (mkWorld m (w_pending w) (w_started w) (w_checked w) (w_published w ++ pub))
  | Release key => Ret (with_manager w (ReleaseCertificate (w_manager w) key))
  | Check now =>
    Ret match w_pending w with
        | [] =>
          let certs := range_map (mgr_cache (w_manager w)) in
          mkWorld (w_manager w) certs now (if decide (certs = []) then now else w_checked w) (w_published w)
        | _ :: _ => w
        end
  | Rotate at_ =>
    match w_pending w with
    | [] => Ret w
    | kc :: certs =>
      '(m, pub) ← rotateOne (w_manager w) at_ kc;
      Ret (mkWorld m certs (w_started w) (if decide (certs = []) then w_started w else w_checked w)
             (w_published w ++ pub))
    end
  end.

(** Readings of the clock that do not decrease, from [t] on. *)
Fixpoint timed (t : Z) (acts : list action) : Prop :=
  match acts with
  | [] => True
  | (Event _ | Release _) :: acts => timed t acts
  | Check now :: acts => t ≤ now ∧ timed now acts
  | (Issue at_ _ _ _ | Rotate at_) :: acts => t ≤ at_now at_ ∧ at_now at_ ≤ at_issue at_ ∧ timed (at_issue at_) acts
  end.

(** The noise is that of [rand.Intn(noiseSeconds)], and the certificates that may be
    issued are valid for longer than the renewal period. *)
Definition lasting (at_ : moment) (ct : string) (opts : list IssueOption) : Prop :=
  0 ≤ at_noise at_ < noiseSeconds ∧
  RenewBeforeCertExpires <
    validityPeriod (foldl (λ o f, f o) (mkIssueOptions false None []) opts) (getValidityDurationForCertType at_ ct).

Definition lasting_action (a : action) : Prop :=
  match a with
  | Issue at_ _ ct opts => lasting at_ ct opts
  | Rotate at_ => ∀ ct, lasting at_ ct []
  | _ => True
  end.

(** ** What the manager relies on *)

Class IssuerLaws (i : Issuer) (ca : string) : Prop := {
  issued_name : ∀ n now cn sans v c, i n now cn sans v = Ret (Ok c) → cert_CommonName c = cn;
  issued_expiration : ∀ n now cn sans v c, i n now cn sans v = Ret (Ok c) → cert_Expiration c = now + v;
  issued_ca : ∀ n now cn sans v c, i n now cn sans v = Ret (Ok c) → cert_IssuingCA c = ca ∧ cert_TrustedCAs c = ca;
}.

(** An issuer that does not fail. *)
Definition answers (i : Issuer) : Prop := ∀ n now cn sans v, ∃ c, i n now cn sans v = Ret (Ok c).

(** ** Options *)

Lemma uniqueSubjectAlternativeNames_spec saNames excl :
  (1 < length saNames)%nat →
  uniqueSubjectAlternativeNames saNames excl =
    unique (filter (λ san, has_char ":" san = false ∧ san ∉ excl) saNames).
Proof.
  intros Hl. unfold uniqueSubjectAlternativeNames, unique. rewrite bool_decide_eq_true_2 by done. clear Hl. f_equal.
  generalize ((∅, []) : gset string * list string).
  induction saNames as [|san l IH]; intros st; cbn [foldl]; [done|]. rewrite filter_cons, IH.
  destruct (has_char ":" san) eqn:E; [by rewrite decide_False by naive_solver|].
  case_bool_decide; [by rewrite decide_False by naive_solver|]. by rewrite decide_True.
Qed.

Lemma elem_of_uniqueSAN saNames excl x : x ∈ uniqueSubjectAlternativeNames saNames excl → x ∈ saNames.
Proof.
  destruct (decide (1 < length saNames)%nat) as [Hl|Hl].
  - rewrite uniqueSubjectAlternativeNames_spec, elem_of_unique, list_elem_of_filter by done. naive_solver.
  - unfold uniqueSubjectAlternativeNames. by rewrite bool_decide_eq_false_2.
Qed.

Lemma Until_gt t now d : - 2 ^ 63 ≤ d → d < Until t now → now + d < t.
Proof. unfold Until. lia. Qed.

Lemma Until_le t now d : d < 2 ^ 63 - 1 → Until t now ≤ d → t ≤ now + d.
Proof. unfold Until. lia. Qed.

(** ** Issuing *)

(** A manager whose issuers are set and have the properties [P]. *)
Definition issuers_are (P : issuer → Prop) (m : Manager) : Prop :=
  ∃ s v, mgr_signingIssuer m = Some s ∧ mgr_validatingIssuer m = Some v ∧ P s ∧ P v.

Definition lawful (i : issuer) : Prop := IssuerLaws (iss_Issuer i) (iss_CertificateAuthority i).

Lemma ShouldRotate_returns m now noise c : issuers_are (λ _, True) m → returns (ShouldRotate m now noise c).
Proof.
  intros (s & v & Hs & Hv & _). unfold ShouldRotate, returns. rewrite Hs, Hv.
  case_bool_decide; [eauto|]. case_decide; eauto.
Qed.

Lemma ShouldRotate_false m now noise c :
  0 ≤ noise < noiseSeconds → ShouldRotate m now noise c = Ret false →
  now + RenewBeforeCertExpires + noise * second < cert_Expiration c ∧
  ∃ s v, mgr_signingIssuer m = Some s ∧ mgr_validatingIssuer m = Some v ∧
    cert_signingIssuerID c = iss_ID s ∧ cert_validatingIssuerID c = iss_ID v.
Proof.
  unfold ShouldRotate, noiseSeconds. intros Hn. case_bool_decide as E; [done|].
  apply Z.nle_gt, Until_gt in E; [|unfold RenewBeforeCertExpires, second; lia].
  destruct (mgr_signingIssuer m) as [s|]; [|done]. case_decide as Es; [done|].
  destruct (mgr_validatingIssuer m) as [v|]; [|done]. intros [= Ev%bool_decide_eq_false_1].
  split; [lia|]. exists s, v. split_and!; [done|done|done|by apply dec_stable].
Qed.

Lemma ShouldRotate_true m s v now noise c :
  0 ≤ noise < noiseSeconds → mgr_signingIssuer m = Some s → mgr_validatingIssuer m = Some v →
  cert_Expiration c ≤ now + RenewBeforeCertExpires + noise * second ∨
  cert_signingIssuerID c ≠ iss_ID s ∨ cert_validatingIssuerID c ≠ iss_ID v →
  ShouldRotate m now noise c = Ret true.
Proof.
  unfold ShouldRotate, noiseSeconds. intros Hn -> -> H. case_bool_decide as E; [done|].
  apply Z.nle_gt, Until_gt in E; [|unfold RenewBeforeCertExpires, second; lia].
  case_decide as Es; [done|]. f_equal. apply bool_decide_eq_true_2. destruct H as [H|[H|H]]; [lia|done|done].
Qed.

(** The certificate that an issuer's answer becomes. *)
Definition issued_as (s v : issuer) (ct : string) (c : MeshCertificate) : MeshCertificate :=
  stamp (if decide (iss_ID v ≠ iss_ID s) then newMergedWithRoot c (iss_CertificateAuthority v) else c)
    (iss_ID s) (iss_ID v) ct.

(** What a call returns: the cached certificate, which needs no rotation, or an error of
    the issuer, or a new certificate, which replaces the cached one and is announced if
    there was one. *)
Inductive issue_result (m : Manager) (at_ : moment) (prefix ct : string) (opts : list IssueOption) :
    Manager * result string MeshCertificate * Rotated → Prop :=
| issue_cached c :
  mgr_cache m !! prefix = Some c → ShouldRotate m (at_now at_) (at_noise at_) c = Ret false →
  issue_result m at_ prefix ct opts (m, Ok c, [])
| issue_failed s e sans :
  mgr_signingIssuer m = Some s →
  (∀ c, mgr_cache m !! prefix = Some c → ShouldRotate m (at_now at_) (at_noise at_) c = Ret true) →
  let o := foldl (λ o f, f o) (mkIssueOptions false None []) opts in
  iss_Issuer s (at_call at_) (at_issue at_) (formatCN o prefix (iss_TrustDomain s)) sans
    (validityPeriod o (getValidityDurationForCertType at_ ct)) = Ret (Err e) →
  issue_result m at_ prefix ct opts (m, Err e, [])
| issue_new s v sans newCert :
  mgr_signingIssuer m = Some s → mgr_validatingIssuer m = Some v →
  (∀ c, mgr_cache m !! prefix = Some c → ShouldRotate m (at_now at_) (at_noise at_) c = Ret true) →
  (∀ c, mgr_cache m !! prefix = Some c → sans ⊆ cert_SANames c) →
  let o := foldl (λ o f, f o) (mkIssueOptions false None []) opts in
  iss_Issuer s (at_call at_) (at_issue at_) (formatCN o prefix (iss_TrustDomain s)) sans
    (validityPeriod o (getValidityDurationForCertType at_ ct)) = Ret (Ok newCert) →
  issue_result m at_ prefix ct opts
    (with_cache m (<[prefix := issued_as s v ct newCert]> (mgr_cache m)), Ok (issued_as s v ct newCert),
     match mgr_cache m !! prefix with Some c => [(c, issued_as s v ct newCert)] | None => [] end).

Lemma elem_of_subjectAlternativeNames o x : x ∈ subjectAlternativeNames o → x ∈ opt_saNames o.
Proof. unfold subjectAlternativeNames. case_bool_decide; [|done]. apply elem_of_uniqueSAN. Qed.

Lemma issueCertificate_result m at_ prefix ct opts r :
  issueCertificate m at_ prefix ct opts = Ret r → issue_result m at_ prefix ct opts r.
Proof.
  unfold issueCertificate, getFromCache. intros (rotate & Hrot & H)%bind_Ret.
  destruct (mgr_cache m !! prefix) as [c|] eqn:Ec; [destruct rotate; [|injection H as <-; by constructor]|].
  all: destruct (mgr_signingIssuer m) as [s|] eqn:Es; [|done].
  all: apply bind_Ret in H as ([newCert|e] & Hi & H); [|injection H as <-; eapply issue_failed; [done| |exact Hi]; congruence].
  all: destruct (mgr_validatingIssuer m) as [v|] eqn:Ev; [|done]; injection H as <-.
  all: pose proof (λ sans, issue_new m at_ prefix ct opts s v sans newCert Es Ev) as HN; rewrite Ec in HN; eapply HN; [congruence| |exact Hi].
  - intros ? [= <-] x Hx%elem_of_subjectAlternativeNames. by apply elem_of_uniqueSAN in Hx.
  - done.
Qed.

Lemma issueCertificate_returns m at_ prefix ct opts :
  issuers_are (answers ∘ iss_Issuer) m →
  ∃ m' c pub, issueCertificate m at_ prefix ct opts = Ret (m', Ok c, pub).
Proof.
  intros (s & v & Hs & Hv & As & Av). unfold issueCertificate, getFromCache. rewrite Hs, Hv.
  destruct (mgr_cache m !! prefix) as [c|]; simpl.
  - destruct (ShouldRotate_returns m (at_now at_) (at_noise at_) c) as [[] ->]; [by exists s, v| |by repeat eexists].
    simpl. match goal with |- context [iss_Issuer s ?a ?b ?x ?y ?z] => destruct (As a b x y z) as [c' ->] end.
    by repeat eexists.
  - match goal with |- context [iss_Issuer s ?a ?b ?x ?y ?z] => destruct (As a b x y z) as [c' ->] end.
    by repeat eexists.
Qed.

(** Only the cache changes. *)
Lemma issue_result_issuers m at_ prefix ct opts m' r pub :
  issue_result m at_ prefix ct opts (m', r, pub) →
  mgr_signingIssuer m' = mgr_signingIssuer m ∧ mgr_validatingIssuer m' = mgr_validatingIssuer m.
Proof. by inversion 1. Qed.

Lemma issued_as_Expiration s v ct c : cert_Expiration (issued_as s v ct c) = cert_Expiration c.
Proof. unfold issued_as. by case_decide. Qed.
Lemma issued_as_CommonName s v ct c : cert_CommonName (issued_as s v ct c) = cert_CommonName c.
Proof. unfold issued_as. by case_decide. Qed.
Lemma issued_as_IssuingCA s v ct c : cert_IssuingCA (issued_as s v ct c) = cert_IssuingCA c.
Proof. unfold issued_as. by case_decide. Qed.

(** After a call that returns no error, the certificate of the prefix expires after the
    renewal period; the others are the same. *)
Lemma issue_result_fresh m at_ prefix ct opts m' c pub t :
  issuers_are lawful m → lasting at_ ct opts → t ≤ at_now at_ → at_now at_ ≤ at_issue at_ →
  issue_result m at_ prefix ct opts (m', Ok c, pub) →
  mgr_cache m' !! prefix = Some c ∧ t + RenewBeforeCertExpires < cert_Expiration c ∧
  ∀ k, k ≠ prefix → mgr_cache m' !! k = mgr_cache m !! k.
Proof.
  intros (s' & v' & Hs' & _ & Ls & _) [Hn Hv] Ht Hi. inversion 1 as [? Hc Hrot| |s v sans newCert Hs _ _ _ o Hiss]; subst.
  - split_and!; [done| |done]. apply ShouldRotate_false in Hrot as [Hexp _]; [|done]. unfold second in Hexp. lia.
  - split_and!; [apply lookup_insert_eq| |by intros; apply lookup_insert_ne].
    assert (s' = s) as -> by congruence. unfold lawful in Ls. rewrite issued_as_Expiration, (issued_expiration _ _ _ _ _ _ Hiss).
    subst o. lia.
Qed.

(** ** Theorems: the rotation *)

Lemma lasting_rotate at_ key c : (∀ ct, lasting at_ ct []) → lasting at_ (cert_certType c) (rotateOptions key c).
Proof. intros H. destruct (H (cert_certType c)) as [Hn Hv]. split; [done|]. unfold rotateOptions. by case_decide. Qed.

Section rotation.
Context `{RangeOrder}.
Context (GetCertIssuerForMRC : MeshRootCertificate → outcome (result string (Issuer * string))).
(** A MeshRootCertificate has no issuer, or one that keeps the laws and does not fail. *)
Hypothesis provided : ∀ mrc, (∃ e, GetCertIssuerForMRC mrc = Ret (Err e)) ∨
  ∃ i ca, GetCertIssuerForMRC mrc = Ret (Ok (i, ca)) ∧ IssuerLaws i ca ∧ answers i.

Definition good (i : issuer) : Prop := lawful i ∧ answers (iss_Issuer i).

Lemma issuers_are_mono (P Q : issuer → Prop) m : (∀ i, P i → Q i) → issuers_are P m → issuers_are Q m.
Proof. intros HPQ (s & v & ? & ? & ? & ?). exists s, v. auto. Qed.

(** An event keeps the cache, and the issuers that are set are set to good ones. *)
Definition event_step (m m' : Manager) : Prop :=
  mgr_cache m' = mgr_cache m ∧
  ∀ f, f = mgr_signingIssuer ∨ f = mgr_validatingIssuer → f m' = f m ∨ ∃ i, f m' = Some i ∧ good i.

Lemma handleMRCEvent_step m ev :
  ∃ r, handleMRCEvent GetCertIssuerForMRC m ev = Ret r ∧ ∀ m', r = Ok m' → event_step m m'.
Proof using provided.
  assert (event_step m m) as Hm by (split; auto). unfold handleMRCEvent. destruct (ev_Type ev); [|eexists; split; [done|by intros ? [= <-]]].
  case_decide; [eexists; split; [done|by intros ? [= <-]]|].
  destruct (provided (ev_MRC ev)) as [[e ->]|(i & ca & -> & Hi & Ha)]; simpl; [by eexists|].
  eexists. split; [done|]. intros m' [= <-].
  assert (good (mkIssuer i (mrc_Name (ev_MRC ev)) (mrc_TrustDomain (ev_MRC ev)) ca)) as G by done.
  repeat case_decide; (split; [done|]); intros f [->| ->]; simpl; eauto.
Qed.

Lemma watch_cons m ev evs : watch GetCertIssuerForMRC m (ev :: evs) =
  (m' ← watch GetCertIssuerForMRC m [ev]; watch GetCertIssuerForMRC m' evs).
Proof. unfold watch. cbn [foldO]. by destruct (handleMRCEvent _ m ev) as [[]|]. Qed.

Lemma watch_step m ev : ∃ m', watch GetCertIssuerForMRC m [ev] = Ret m' ∧ event_step m m'.
Proof using provided.
  unfold watch. cbn [foldO]. destruct (handleMRCEvent_step m ev) as ([m'|e] & -> & Hm); simpl; [by eauto|].
  exists m. split; [done|]. split; auto.
Qed.

Lemma watch_good m events :
  ∃ m', watch GetCertIssuerForMRC m events = Ret m' ∧ event_step m m'.
Proof using provided.
  revert m. induction events as [|ev evs IH]; intros m; [by exists m; split; [|split; auto]|].
  rewrite watch_cons. destruct (watch_step m ev) as (m1 & -> & Hc1 & Hi1). simpl.
  destruct (IH m1) as (m2 & -> & Hc2 & Hi2). exists m2. split; [done|]. split; [congruence|].
  intros f Hf. destruct (Hi2 f Hf) as [->|?]; auto.
Qed.

Lemma event_step_good m m' : event_step m m' → issuers_are good m → issuers_are good m'.
Proof.
  intros [_ Hi] (s & v & Hs & Hv & Gs & Gv).
  assert (∀ f i, f = mgr_signingIssuer ∨ f = mgr_validatingIssuer → f m = Some i → good i → ∃ j, f m' = Some j ∧ good j) as H'.
  { intros f i Hf Hm Gi. destruct (Hi f Hf) as [->|?]; eauto. }
  destruct (H' _ s (or_introl eq_refl) Hs Gs) as (s' & ? & ?). destruct (H' _ v (or_intror eq_refl) Hv Gv) as (v' & ? & ?).
  by exists s', v'.
Qed.

Lemma start_good events m :
  start GetCertIssuerForMRC NewManager events = Ret (Ok m) → issuers_are good m ∧ mgr_cache m = ∅.
Proof using provided.
  unfold start. destruct (watch_good NewManager events) as (m' & -> & Hc & Hi). cbn.
  destruct (mgr_signingIssuer m') as [s|] eqn:Es, (mgr_validatingIssuer m') as [v|] eqn:Ev; try done.
  intros [= <-]. split; [|done]. exists s, v. split_and!; [done..| |].
  - destruct (Hi mgr_signingIssuer) as [E|(i & E & ?)]; [by left|by rewrite Es in E|]. congruence.
  - destruct (Hi mgr_validatingIssuer) as [E|(i & E & ?)]; [by right|by rewrite Ev in E|]. congruence.
Qed.

(** The invariant: [t] is the last reading of the clock. *)
Record world_ok (t : Z) (w : World) : Prop := {
  wk_issuers : issuers_are good (w_manager w);
  wk_times : w_checked w ≤ w_started w ≤ t;
  wk_idle : w_pending w = [] → w_checked w = w_started w;
  wk_checked : ∀ k c, mgr_cache (w_manager w) !! k = Some c →
    w_checked w + RenewBeforeCertExpires < cert_Expiration c;
  wk_done : ∀ k c, mgr_cache (w_manager w) !! k = Some c → k ∉ (w_pending w).*1 →
    w_started w + RenewBeforeCertExpires < cert_Expiration c;
}.

Lemma issue_ok t w at_ prefix ct opts :
  world_ok t w → lasting at_ ct opts → t ≤ at_now at_ → at_now at_ ≤ at_issue at_ →
  ∃ m' c pub, issueCertificate (w_manager w) at_ prefix ct opts = Ret (m', Ok c, pub) ∧
    issuers_are good m' ∧ mgr_cache m' !! prefix = Some c ∧
    w_started w + RenewBeforeCertExpires < cert_Expiration c ∧
    ∀ k, k ≠ prefix → mgr_cache m' !! k = mgr_cache (w_manager w) !! k.
Proof.
  intros Hw Hl Ht Hi. pose proof (wk_issuers _ _ Hw) as Hg. pose proof (wk_times _ _ Hw) as Htm.
  destruct (issueCertificate_returns (w_manager w) at_ prefix ct opts) as (m' & c & pub & E).
  { by eapply issuers_are_mono, Hg; intros ? []. }
  exists m', c, pub. split; [done|]. apply issueCertificate_result in E.
  pose proof (issue_result_issuers _ _ _ _ _ _ _ _ E) as [Es Ev].
  eapply (issue_result_fresh _ _ _ _ _ _ _ _ (w_started w)) in E as (Hc & Hexp & Hk); [|by eapply issuers_are_mono, Hg; intros ? []|done|lia|done].
  split_and!; [|done..]. destruct Hg as (s & v & ? & ? & ?). exists s, v. by rewrite Es, Ev.
Qed.

Definition next_time (t : Z) (a : action) : Z :=
  match a with
  | Event _ | Release _ => t
  | Check now => now
  | Issue at_ _ _ _ | Rotate at_ => at_issue at_
  end.

Lemma exec_ok t w a acts :
  world_ok t w → timed t (a :: acts) → lasting_action a →
  ∃ w', exec GetCertIssuerForMRC w a = Ret w' ∧ world_ok (next_time t a) w' ∧ timed (next_time t a) acts.
Proof using provided.
  intros Hw Ht Hl. pose proof Hw as [Hg [Htm1 Htm2] Hidle Hch Hdone]. destruct a as [ev|at_ prefix ct opts|key|now|at_]; simpl in *.
  - destruct (watch_step (w_manager w) ev) as (m' & -> & Hm'). simpl. eexists. split_and!; [done| |done].
    split; simpl; [by eapply event_step_good|done|done|..]; by rewrite (proj1 Hm').
  - destruct Ht as (Ht1 & Ht2 & Ht). destruct (issue_ok t w at_ prefix ct opts) as (m' & c & pub & -> & Hg' & Hc & Hexp & Hk); [done..|].
    simpl. eexists. split_and!; [done| |done]. split; simpl; [done|lia|done|..].
    + intros k d. destruct (decide (k = prefix)) as [->|]; [rewrite Hc; intros [= <-]; lia|]. rewrite Hk by done. apply Hch.
    + intros k d. destruct (decide (k = prefix)) as [->|]; [by rewrite Hc; intros [= <-] _|]. rewrite Hk by done. apply Hdone.
  - eexists. split_and!; [done| |done]. split; simpl; [done|lia|done|..].
    + intros k d [_ Hd]%lookup_delete_Some. by eapply Hch.
    + intros k d [_ Hd]%lookup_delete_Some. by eapply Hdone.
  - destruct Ht as [Ht1 Ht]. eexists. split_and!; [done| |done]. destruct (w_pending w) as [|kc l] eqn:Ep.
    + split; simpl; [done|case_decide; lia|by intros ->; rewrite decide_True|..].
      * case_decide as E; [|done]. intros k c Hk%elem_of_range_map. rewrite E in Hk. by apply not_elem_of_nil in Hk.
      * intros k c Hk%elem_of_range_map []. by apply (list_elem_of_fmap_2 fst) in Hk.
    + split; rewrite ?Ep; auto; lia.
  - destruct Ht as (Ht1 & Ht2 & Ht). destruct (w_pending w) as [|[k0 c0] l] eqn:Ep.
    + eexists. split_and!; [done| |done]. split; rewrite ?Ep; auto; lia.
    + unfold rotateOne. simpl.
      destruct (issue_ok t w at_ k0 (cert_certType c0) (rotateOptions k0 c0)) as (m' & c & pub & -> & Hg' & Hc & Hexp & Hk);
        [done|by apply lasting_rotate|done..|].
      simpl. eexists. split_and!; [done| |done].
      assert (∀ k d, mgr_cache m' !! k = Some d → k ∉ l.*1 → w_started w + RenewBeforeCertExpires < cert_Expiration d) as Hnew.
      { intros k d. destruct (decide (k = k0)) as [->|]; [by rewrite Hc; intros [= <-] _|]. rewrite Hk by done.
        intros Hd Hl'. eapply Hdone; [done|]. csimpl. by rewrite not_elem_of_cons. }
      split; simpl; [done|case_decide; lia|by intros ->; rewrite decide_True| |done].
      intros k d Hd. case_decide as El; [subst; by eapply Hnew; [done|apply not_elem_of_nil]|].
      destruct (decide (k = k0)) as [->|]; [rewrite Hc in Hd; injection Hd as <-; lia|]. rewrite Hk in Hd by done. by eapply Hch.
Qed.

Lemma run_ok t w acts :
  world_ok t w → timed t acts → Forall lasting_action acts →
  ∃ w' t', foldO (exec GetCertIssuerForMRC) w acts = Ret w' ∧ world_ok t' w'.
Proof using provided.
  revert t w. induction acts as [|a acts IH]; intros t w Hw Ht Hl; [by exists w, t|].
  inversion Hl; subst. destruct (exec_ok t w a acts) as (w' & E & Hw' & Ht'); [done..|]. cbn [foldO]. rewrite E. by eapply IH.
Qed.

(** C18. A certificate that the manager has in its cache does not expire between checks.
    The manager is started, and events, calls and releases come in any order, also while
    a check is going through its copy of the cache: every action returns, and every
    certificate in the cache expires more than the renewal period of 30 seconds after the
    start of the last complete check.  The issuers do not fail and the validity periods
    are longer than the renewal period. *)
Theorem certificates_outlive_checks (events : list MRCEvent) (m : Manager) (t : Z) (acts : list action) :
  start GetCertIssuerForMRC NewManager events = Ret (Ok m) → timed t acts → Forall lasting_action acts →
  ∃ w, foldO (exec GetCertIssuerForMRC) (mkWorld m [] t t []) acts = Ret w ∧
    ∀ k c, mgr_cache (w_manager w) !! k = Some c → w_checked w + RenewBeforeCertExpires < cert_Expiration c.
Proof using provided.
  intros [Hg Hc]%start_good Ht Hl. destruct (run_ok t (mkWorld m [] t t []) acts) as (w & t' & E & Hw); [|done..|].
  - split; simpl; [done|lia|done|..]; intros k c; by rewrite Hc, lookup_empty.
  - exists w. split; [done|]. apply Hw.
Qed.
End rotation.

(** ** Theorems: a check without interference *)

Lemma same_issuers_ShouldRotate m m' now noise c :
  mgr_signingIssuer m' = mgr_signingIssuer m → mgr_validatingIssuer m' = mgr_validatingIssuer m →
  ShouldRotate m' now noise c = ShouldRotate m now noise c.
Proof. unfold ShouldRotate. by intros -> ->. Qed.

(** What a turn does with the certificate [c] of [k]: it keeps it, or replaces it by [c'],
    of the same name and type and of the current issuers, and announces this. *)
Definition turned (m : Manager) (at_ : moment) (k : string) (c c' : MeshCertificate) (pub : Rotated) : Prop :=
  (ShouldRotate m (at_now at_) (at_noise at_) c = Ret false ∧ c' = c) ∨
  (ShouldRotate m (at_now at_) (at_noise at_) c = Ret true ∧ (c, c') ∈ pub ∧
   ∃ s v, mgr_signingIssuer m = Some s ∧ mgr_validatingIssuer m = Some v ∧
     cert_CommonName c' = (if decide (k = cert_CommonName c) then k else k +:+ "." +:+ iss_TrustDomain s) ∧
     cert_Expiration c' = at_issue at_ + getValidityDurationForCertType at_ (cert_certType c) ∧
     cert_certType c' = cert_certType c ∧
     cert_signingIssuerID c' = iss_ID s ∧ cert_validatingIssuerID c' = iss_ID v).

Lemma turned_mono m m' at_ k c c' pub pub' :
  mgr_signingIssuer m' = mgr_signingIssuer m → mgr_validatingIssuer m' = mgr_validatingIssuer m → pub ⊆ pub' →
  turned m' at_ k c c' pub → turned m at_ k c c' pub'.
Proof. unfold turned. intros Es Ev Hp. rewrite (same_issuers_ShouldRotate m m'), Es, Ev by done. naive_solver. Qed.

Lemma rotateOne_spec m at_ k c :
  issuers_are good m → mgr_cache m !! k = Some c →
  ∃ m' c' pub, rotateOne m at_ (k, c) = Ret (m', pub) ∧
    mgr_signingIssuer m' = mgr_signingIssuer m ∧ mgr_validatingIssuer m' = mgr_validatingIssuer m ∧
    mgr_cache m' = <[k := c']> (mgr_cache m) ∧ turned m at_ k c c' pub ∧
    ∀ d d', (d, d') ∈ pub → d = c ∧ d' = c'.
Proof.
  intros Hg Hc. unfold rotateOne. simpl.
  destruct (issueCertificate_returns m at_ k (cert_certType c) (rotateOptions k c)) as (m' & c' & pub & E).
  { by eapply issuers_are_mono, Hg; intros ? []. }
  rewrite E. simpl. exists m', c', pub. split; [done|]. apply issueCertificate_result in E.
  destruct (issue_result_issuers _ _ _ _ _ _ _ _ E) as [Es Ev]. do 2 (split; [done|]).
  inversion E as [d Hd Hrot| |s v sans newCert Hs Hv Hrot _ o Hiss]; subst.
  - assert (c' = c) as -> by congruence. split_and!; [by rewrite insert_id|by left|].
    intros ?? Hn. by apply not_elem_of_nil in Hn.
  - rewrite Hc. split_and!; [done| |].
    + right. split_and!; [by apply Hrot|by left|]. exists s, v.
      destruct Hg as (s' & ? & Hs' & _ & [L _] & _). assert (s' = s) as -> by congruence. unfold lawful in L.
      rewrite issued_as_CommonName, issued_as_Expiration, (issued_name _ _ _ _ _ _ Hiss), (issued_expiration _ _ _ _ _ _ Hiss).
      split_and!; try done; unfold issued_as; subst o; unfold rotateOptions; by case_decide.
    + by intros ?? [= -> ->]%list_elem_of_singleton.
Qed.

Lemma rotateAll_spec ats certs m n :
  issuers_are good m → NoDup certs.*1 → (∀ k c, (k, c) ∈ certs → mgr_cache m !! k = Some c) →
  ∃ m' pub, rotateAll m ats n certs = Ret (m', pub) ∧
    mgr_signingIssuer m' = mgr_signingIssuer m ∧ mgr_validatingIssuer m' = mgr_validatingIssuer m ∧
    (∀ k, k ∉ certs.*1 → mgr_cache m' !! k = mgr_cache m !! k) ∧
    (∀ k c, (k, c) ∈ certs → ∃ i c', mgr_cache m' !! k = Some c' ∧ turned m (ats i) k c c' pub) ∧
    ∀ d d', (d, d') ∈ pub → ∃ k, (k, d) ∈ certs ∧ mgr_cache m' !! k = Some d'.
Proof.
  revert m n. induction certs as [|[k0 c0] l IH]; intros m n Hg Hnd Hin.
  { exists m, []. split_and!; [done..| |]; intros ?? Hn; by apply not_elem_of_nil in Hn. }
  csimpl in *. apply NoDup_cons in Hnd as [Hk0 Hnd].
  destruct (rotateOne_spec m (ats n) k0 c0 Hg) as (m1 & c1 & pub1 & -> & Es1 & Ev1 & Hc1 & Ht1 & Hp1); [by apply Hin; left|]. simpl.
  destruct (IH m1 (S n)) as (m2 & pub2 & -> & Es2 & Ev2 & Hk2 & Ht2 & Hp2); [|done| |].
  { destruct Hg as (s & v & ? & ? & ?). exists s, v. by rewrite Es1, Ev1. }
  { intros k c Hkc. rewrite Hc1, lookup_insert_ne; [apply Hin; by right|]. intros ->. apply Hk0. by apply (list_elem_of_fmap_2 fst) in Hkc. }
  assert (mgr_cache m2 !! k0 = Some c1) as E0 by (by rewrite Hk2, Hc1, lookup_insert_eq).
  exists m2, (pub1 ++ pub2). simpl. split_and!; [done|congruence..| | |].
  - intros k [Hne Hl]%not_elem_of_cons. rewrite Hk2, Hc1, lookup_insert_ne; done.
  - intros k c [[= -> ->]|Hkc]%elem_of_cons.
    + exists n, c1. split; [done|]. eapply turned_mono, Ht1; [done..|]. intros x ?. apply elem_of_app. by left.
    + destruct (Ht2 k c Hkc) as (i & c' & ? & ?). exists i, c'. split; [done|]. eapply turned_mono; [exact Es1|exact Ev1| |done].
      intros x ?. apply elem_of_app. by right.
  - intros d d' [H1|H2]%elem_of_app.
    + apply Hp1 in H1 as [-> ->]. exists k0. split; [by left|done].
    + destruct (Hp2 d d' H2) as (k & ? & ?). exists k. split; [by right|done].
Qed.


(** The turns of a check, one by one, are the actions [Check] and [Rotate]. *)
Lemma rotateAll_exec `{RangeOrder} Get ats certs m n t0 t1 pub0 :
  certs ≠ [] →
  foldO (exec Get) (mkWorld m certs t0 t1 pub0) ((λ i, Rotate (ats i)) <$> seq n (length certs)) =
  ('(m', pub) ← rotateAll m ats n certs; Ret (mkWorld m' [] t0 t0 (pub0 ++ pub))).
Proof.
  revert m n t1 pub0. induction certs as [|kc l IH]; intros m n t1 pub0 Hne; [done|]. clear Hne. cbn.
  destruct (rotateOne m (ats n) kc) as [[m1 pub1]|]; simpl; [|done]. destruct l as [|kc' l].
  - rewrite decide_True by done. simpl. by rewrite app_nil_r.
  - rewrite decide_False by done. rewrite IH by done. destruct (rotateAll _ _ _ (kc' :: l)) as [[m2 pub2]|]; simpl; [|done].
    by rewrite app_assoc.
Qed.

Lemma checkAndRotate_exec `{RangeOrder} Get ats m t now :
  mgr_cache m ≠ ∅ →
  foldO (exec Get) (mkWorld m [] t t []) (Check now :: ((λ i, Rotate (ats i)) <$> seq 0 (size (mgr_cache m)))) =
  ('(m', pub) ← checkAndRotate m ats; Ret (mkWorld m' [] now now pub)).
Proof.
  intros Hne. assert (length (range_map (mgr_cache m)) = size (mgr_cache m)) as Hl.
  { by rewrite (Permutation_length (range_map_perm _)), length_map_to_list. }
  assert (range_map (mgr_cache m) ≠ []) as Hr.
  { intros E. rewrite E in Hl. by apply Hne, map_size_empty_inv. }
  cbn [foldO]. simpl exec. rewrite decide_False by done. rewrite <-Hl.
  unfold checkAndRotate. exact (rotateAll_exec Get ats (range_map (mgr_cache m)) m 0 now t [] Hr).
Qed.

(** ** Theorems: trust while the root is rotated *)

(** The roots that the holder of [c] trusts include the one that signed [d]. *)
Definition trusts (c d : MeshCertificate) : Prop := ∃ a b, cert_TrustedCAs c = a +:+ cert_IssuingCA d +:+ b.

Definition issuers_of (m : Manager) (s v : issuer) : Prop :=
  mgr_signingIssuer m = Some s ∧ mgr_validatingIssuer m = Some v ∧ lawful s ∧ lawful v.

Lemma issue_new_roots m s v at_ prefix ct opts m' c pub :
  issuers_of m s v → mgr_cache m !! prefix = None →
  issueCertificate m at_ prefix ct opts = Ret (m', Ok c, pub) →
  cert_IssuingCA c = iss_CertificateAuthority s ∧
  cert_TrustedCAs c =
    (if decide (iss_ID v = iss_ID s) then iss_CertificateAuthority s
     else iss_CertificateAuthority s +:+ iss_CertificateAuthority v).
Proof.
  intros (Hs & Hv & Ls & Lv) Hp E%issueCertificate_result.
  inversion E as [d Hd Hrot| |s' v' sans newCert Hs' Hv' _ _ o Hiss]; subst; [congruence|].
  assert (s' = s) as -> by congruence. assert (v' = v) as -> by congruence. unfold lawful in Ls.
  destruct (issued_ca _ _ _ _ _ _ Hiss) as [Ei Et]. rewrite issued_as_IssuingCA. split; [done|].
  unfold issued_as. repeat case_decide; simpl; try done. by rewrite Ei.
Qed.

Lemma trusts_roots c d i j (same : Prop) `{!Decision same} :
  cert_TrustedCAs c = (if decide same then i else i +:+ j) →
  cert_IssuingCA d = i ∨ (¬ same ∧ cert_IssuingCA d = j) → trusts c d.
Proof.
  unfold trusts. intros -> [->|[Hn ->]].
  - case_decide; [exists "", ""; by rewrite app_nil_r'|by exists "", j].
  - rewrite decide_False by done. exists i, "". by rewrite app_nil_r'.
Qed.

(** Certificates of two stages of a root rotation trust each other: when the issuer
    that signs in each stage signs or validates in the other, a certificate issued in the
    first stage and one issued in the second each have the root that signed the other in
    their trust context. *)
Theorem stages_trust (m1 m2 : Manager) (s1 v1 s2 v2 : issuer) (at1 at2 : moment) (p1 p2 ct1 ct2 : string)
    (opts1 opts2 : list IssueOption) (m1' m2' : Manager) (c1 c2 : MeshCertificate) (pub1 pub2 : Rotated) :
  issuers_of m1 s1 v1 → issuers_of m2 s2 v2 →
  (∀ i j, i ∈ [s1; v1; s2; v2] → j ∈ [s1; v1; s2; v2] → iss_ID i = iss_ID j →
    iss_CertificateAuthority i = iss_CertificateAuthority j) →
  iss_ID s2 = iss_ID s1 ∨ iss_ID s2 = iss_ID v1 → iss_ID s1 = iss_ID s2 ∨ iss_ID s1 = iss_ID v2 →
  mgr_cache m1 !! p1 = None → mgr_cache m2 !! p2 = None →
  issueCertificate m1 at1 p1 ct1 opts1 = Ret (m1', Ok c1, pub1) →
  issueCertificate m2 at2 p2 ct2 opts2 = Ret (m2', Ok c2, pub2) →
  trusts c1 c2 ∧ trusts c2 c1.
Proof.
  intros H1 H2 Hid E2 E1 N1 N2 I1 I2.
  destruct (issue_new_roots _ _ _ _ _ _ _ _ _ _ H1 N1 I1) as [Ei1 Et1].
  destruct (issue_new_roots _ _ _ _ _ _ _ _ _ _ H2 N2 I2) as [Ei2 Et2].
  assert (∀ s v s', s ∈ [s1; v1; s2; v2] → v ∈ [s1; v1; s2; v2] → s' ∈ [s1; v1; s2; v2] →
    iss_ID s' = iss_ID s ∨ iss_ID s' = iss_ID v →
    iss_CertificateAuthority s' = iss_CertificateAuthority s ∨
    (iss_ID v ≠ iss_ID s ∧ iss_CertificateAuthority s' = iss_CertificateAuthority v)) as Hca.
  { intros s v s' ??? [E|E]; [left; auto|]. destruct (decide (iss_ID v = iss_ID s)); [left; apply Hid; congruence|right; auto]. }
  split; (eapply trusts_roots; [done|]); rewrite ?Ei1, ?Ei2; apply Hca; set_solver.
Qed.

(** Events of two MeshRootCertificates arrive in any order, and the order can matter: an
    active one takes both issuers whatever was set before. *)
Lemma active_overwrites Get m ev i ca :
  ev_Type ev = MRCEventAdded → mrc_State (ev_MRC ev) = MRCStateActive → Get (ev_MRC ev) = Ret (Ok (i, ca)) →
  let c := Some (mkIssuer i (mrc_Name (ev_MRC ev)) (mrc_TrustDomain (ev_MRC ev)) ca) in
  handleMRCEvent Get m ev = Ret (Ok (mkManager (mgr_cache m) c c)).
Proof. unfold handleMRCEvent. intros -> Es ->. rewrite Es. done. Qed.

(** One in the state [inactive] does so too: it has no case of its own. *)
Lemma inactive_signs Get m ev i ca :
  ev_Type ev = MRCEventAdded → mrc_State (ev_MRC ev) = MRCStateInactive → Get (ev_MRC ev) = Ret (Ok (i, ca)) →
  let c := Some (mkIssuer i (mrc_Name (ev_MRC ev)) (mrc_TrustDomain (ev_MRC ev)) ca) in
  handleMRCEvent Get m ev = Ret (Ok (mkManager (mgr_cache m) c c)).
Proof. unfold handleMRCEvent. intros -> Es ->. rewrite Es. done. Qed.

(** ** Theorems: the names of a certificate that is rotated *)

(** The alternative names that a caller asks for are those of the certificate only the
    first time: a certificate that is rotated gets names of the old one. *)
Lemma rotation_keeps_names m at_ prefix ct opts sans sans' c :
  mgr_cache m !! prefix = Some c → ShouldRotate m (at_now at_) (at_noise at_) c = Ret true →
  issueCertificate m at_ prefix ct (opts ++ [SubjectAlternativeNames sans]) =
  issueCertificate m at_ prefix ct (opts ++ [SubjectAlternativeNames sans']).
Proof. intros Hc Hrot. unfold issueCertificate, getFromCache. rewrite Hc, Hrot. simpl. by rewrite !foldl_app. Qed.
