(* ===== verification/CertIssuers.v ===== *)
(** * pkg/certificate: the issuers and the root of the mesh

    encode.go, providers/tresor, providers/vault, providers/config.go and castorage/k8s:
    the issuers that the certificate manager uses, the choice of one for a
    MeshRootCertificate, and the secret on which the replicas of the control plane agree.
    Tresor and Vault keep the laws of [Certificate.IssuerLaws].

    Keys, signatures and encodings are those of Go's crypto packages: [Crypto] has the
    calls, with the answers they give during one call of the issuer.  The Vault client
    and the API server are parameters too. *)

From S2P Require Import Prelude GoStrings Certificate.

#[local] Open Scope Z_scope.

(** ** encode.go *)

(** A block of a PEM file; its headers are only counted. *)
Record Block := mkBlock {
  blk_Type : string;
  blk_Headers : nat;
  blk_Bytes : string;
}.

Definition TypeCertificate : string := "CERTIFICATE".
Definition TypePrivateKey : string := "PRIVATE KEY".
Definition ErrNoCertificateInPEM : string := "no certificate in PEM".
Definition errNoPrivateKeyInPEM : string := "no private Key in PEM".

Record template := mkTemplate {
  tpl_SerialNumber : string;
  tpl_DNSNames : list string;
  tpl_CommonName : string;
  tpl_Organization : string;
  tpl_NotBefore : Z;
  tpl_NotAfter : Z;
}.

(** [cr_Decode] is what repeated calls of [pem.Decode] return: the blocks, and whether
    some input is left after the last one.  [cr_ParseKey] is none for a key that is not
    an RSA key. *)
Record Crypto (Key X509 : Type) := mkCrypto {
  cr_Decode : string → list Block * bool;
  cr_Encode : string → string → result string string;
  cr_ParseCertificate : string → result string X509;
  cr_ParseKey : string → result string (option Key);
  cr_MarshalKey : Key → result string string;
  cr_GenerateKey : Z → result string Key;
  cr_SerialNumber : result string Z;
  cr_CreateCertificate : template → X509 → Key → Key → result string string;
}.
Arguments cr_Decode {_ _}.
Arguments cr_Encode {_ _}.
Arguments cr_ParseCertificate {_ _}.
Arguments cr_ParseKey {_ _}.
Arguments cr_MarshalKey {_ _}.
Arguments cr_GenerateKey {_ _}.
Arguments cr_SerialNumber {_ _}.
Arguments cr_CreateCertificate {_ _}.

Section encode.
Context {Key X509 : Type} (cr : Crypto Key X509).

(** The first block that is a certificate and can be parsed. *)
Definition DecodePEMCertificate (certPEM : string) : result string X509 :=
  match first_some (λ block,
    if bool_decide (blk_Type block ≠ TypeCertificate ∨ blk_Headers block ≠ 0%nat) then None
    else result_value (cr_ParseCertificate cr (blk_Bytes block))) (cr_Decode cr certPEM).1 with
  | Some cert => Ok cert
  | None => Err ErrNoCertificateInPEM
  end.

(** The first block that is a private key, even if it cannot be parsed. *)
Definition DecodePEMPrivateKey (keyPEM : string) : outcome (result string Key) :=
  match first_some (λ block,
    if bool_decide (blk_Type block ≠ TypePrivateKey ∨ blk_Headers block ≠ 0%nat) then None
    else Some (cr_ParseKey cr (blk_Bytes block))) (cr_Decode cr keyPEM).1 with
  | Some (Ok (Some key)) => Ret (Ok key)
  | Some (Ok None) => Panic
  | Some (Err e) => Ret (Err e)
  | None => Ret (Err (if (cr_Decode cr keyPEM).2 then errNoPrivateKeyInPEM else ErrNoCertificateInPEM))
  end.

Definition EncodeCertDERtoPEM (derBytes : string) : result string string :=
  match cr_Encode cr TypeCertificate derBytes with
  | Ok pem => Ok pem
  | Err e => Err ("encode cert: " +:+ e)
  end.

Definition EncodeKeyDERtoPEM (priv : Key) : result string string :=
  match cr_MarshalKey cr priv with
  | Err e => Err ("marshal private key: " +:+ e)
  | Ok privBytes =>
    match cr_Encode cr TypePrivateKey privBytes with
    | Ok pem => Ok pem
    | Err e => Err ("encode key: " +:+ e)
    end
  end.

(** ** providers/tresor *)

Record tresor_CertManager := mkTresor {
  tr_ca : option MeshCertificate;
  tr_certificatesOrganization : string;
  tr_keySize : Z;
}.

Definition tresor_New (ca : option MeshCertificate) (certificatesOrganization : string) (keySize : Z) :
    result string tresor_CertManager :=
  match ca with
  | None => Err "no issuing CA"
  | Some _ =>
    if decide (keySize = 0) then Err "key bit size cannot be zero"
    else Ok (mkTresor ca certificatesOrganization keySize)
  end.

Definition tresor_IssueCertificate (cm : tresor_CertManager) (now : Z) (cn : string) (saNames : list string)
    (validity : Z) : outcome (result string MeshCertificate) :=
  match tr_ca cm with
  | None => Ret (Err "no issuing CA")
  | Some ca =>
    match cr_GenerateKey cr (tr_keySize cm) with
    | Err e => Ret (Err ("generate private: " +:+ e))
    | Ok certPrivKey =>
      match cr_SerialNumber cr with
      | Err e => Ret (Err ("generate serial number: " +:+ e))
      | Ok serialNumber =>
        let names := cn :: saNames in
        let names := if bool_decide (1 < length names)%nat then uniqueSubjectAlternativeNames names [] else names in
        let tpl := mkTemplate (itoa serialNumber) names cn (tr_certificatesOrganization cm) now (now + validity) in
        match DecodePEMCertificate (cert_CertChain ca) with
        | Err e => Ret (Err ("create cert: " +:+ e))
        | Ok x509Root =>
          k ← DecodePEMPrivateKey (cert_PrivateKey ca);
          Ret match k with
              | Err e => Err ("create cert: " +:+ e)
              | Ok rsaKeyRoot =>
                match cr_CreateCertificate cr tpl x509Root certPrivKey rsaKeyRoot with
                | Err e => Err ("create cert: " +:+ e)
                | Ok derBytes =>
                  match EncodeCertDERtoPEM derBytes, EncodeKeyDERtoPEM certPrivKey with
                  | Err e, _ => Err e
                  | Ok _, Err e => Err e
                  | Ok certPEM, Ok privKeyPEM =>
                    Ok (mkMeshCertificate cn (tpl_DNSNames tpl) (tpl_SerialNumber tpl) (tpl_NotAfter tpl) certPEM privKeyPEM
                          (cert_CertChain ca) (cert_CertChain ca) "" "" "")
                  end
                end
              end
        end
      end
    end
  end.
End encode.

(** ** providers/vault *)

Definition serialNumberField : string := "serial_number".
Definition certificateField : string := "certificate".
Definition privateKeyField : string := "private_key".
Definition issuingCAField : string := "issuing_ca".
Definition commonNameField : string := "common_name".
Definition ttlField : string := "ttl".

(** Whole hours: integer division drops what is left. *)
Definition getDurationInMinutes (validity : Z) : string := itoa (Z.quot validity hour) +:+ "h".

Definition getIssueURL (role : string) : string := "pki/issue/" +:+ role.

Definition getIssuanceData (cn : string) (validity : Z) : gmap string string :=
  {[ commonNameField := cn; ttlField := getDurationInMinutes validity ]}.

(** A field that is missing from the secret fails the type assertion. *)
Definition newCert (cn : string) (secret : gmap string string) (saNames : list string) (expiration : Z) :
    outcome MeshCertificate :=
  match secret !! serialNumberField, secret !! certificateField, secret !! privateKeyField, secret !! issuingCAField with
  | Some serial, Some chain, Some key, Some ca =>
    Ret (mkMeshCertificate cn saNames serial expiration chain key ca ca "" "" "")
  | _, _, _, _ => Panic
  end.

(** [write] is the call of the Vault client, [now] the clock when it has returned. *)
Definition vault_IssueCertificate (write : string → gmap string string → result string (gmap string string))
    (role : string) (now : Z) (cn : string) (saNames : list string) (validity : Z) :
    outcome (result string MeshCertificate) :=
  match write (getIssueURL role) (getIssuanceData cn validity) with
  | Err e => Ret (Err e)
  | Ok secret =>
    c ← newCert cn secret (uniqueSubjectAlternativeNames saNames []) (now + validity);
    Ret (Ok c)
  end.

(** ** providers/config.go *)

Definition getCA (i : Issuer) (n : nat) (now : Z) : outcome (result string string) :=
  r ← i n now "init-cert" [] (1 * second);
  Ret match r with Ok cert => Ok (cert_IssuingCA cert) | Err e => Err e end.

Definition GetCertIssuerForMRC
    (getTresor getVault getCertManager : MeshRootCertificate → result string Issuer) (n : nat) (now : Z)
    (mrc : MeshRootCertificate) : outcome (result string (Issuer * string)) :=
  let issuer := match mrc_Provider mrc with
                | Some ProviderTresor => getTresor mrc
                | Some ProviderVault => getVault mrc
                | Some ProviderCertManager => getCertManager mrc
                | None => Err "Unknown certificate provider"
                end in
  match issuer with
  | Err e => Ret (Err e)
  | Ok i =>
    ca ← getCA i n now;
    Ret match ca with
        | Err e => Err ("error generating init cert: " +:+ e)
        | Ok ca => Ok (i, ca)
        end
  end.

(** ** The root in a secret (castorage/k8s) *)

Record X509View := mkX509View {
  x_CommonName : string;
  x_DNSNames : list string;
  x_SerialNumber : string;
  x_NotAfter : Z;
}.

Definition KubernetesOpaqueSecretCAKey : string := "ca.crt".
Definition KubernetesOpaqueSecretRootPrivateKeyKey : string := "private.key".
Definition ErrInvalidCertSecret : string := "invalid secret for certificate".
Definition ErrSecretNotFound : string := "secret not found".

(** The secrets of the API server, by namespace and name. *)
Abbreviation Secrets := (gmap (string * string) (gmap string string)).

(** A replica that runs [GetCertificateFromSecret]: before it creates the secret, before
    it loads it, and with its result. *)
Inductive replica :=
| Creating (cert : MeshCertificate)
| Loading
| Done (r : result string MeshCertificate).

Section castorage.
Context {Key X509 : Type} (cr : Crypto Key X509) (view : X509 → X509View).

Definition NewFromPEM (pemCert pemKey : string) : result string MeshCertificate :=
  match DecodePEMCertificate cr pemCert with
  | Err e => Err e
  | Ok x509Cert =>
    let x := view x509Cert in
    Ok (mkMeshCertificate (x_CommonName x) (x_DNSNames x) (x_SerialNumber x) (x_NotAfter x) pemCert pemKey
          pemCert pemCert "" "" "")
  end.

Definition GetCertFromKubernetes (secrets : Secrets) (ns secretName : string) : result string MeshCertificate :=
  match secrets !! (ns, secretName) with
  | None => Err ErrSecretNotFound
  | Some data =>
    match data !! KubernetesOpaqueSecretCAKey with
    | None => Err ErrInvalidCertSecret
    | Some pemCert =>
      match data !! KubernetesOpaqueSecretRootPrivateKeyKey with
      | None => Err ErrInvalidCertSecret
      | Some pemKey => NewFromPEM pemCert pemKey
      end
    end
  end.

Definition secretData (cert : MeshCertificate) : gmap string string :=
  {[ KubernetesOpaqueSecretCAKey := cert_CertChain cert;
     KubernetesOpaqueSecretRootPrivateKeyKey := cert_PrivateKey cert ]}.

(** The first half of [GetCertificateFromSecret].  [apiError] is an error of the API server
    other than that the secret exists, which is no error here. *)
Definition createSecret (secrets : Secrets) (ns secretName : string) (cert : MeshCertificate) (apiError : option string) :
    Secrets * replica :=
  match apiError with
  | Some e => (secrets, Done (Err e))
  | None =>
    (match secrets !! (ns, secretName) with
     | Some _ => secrets
     | None => <[(ns, secretName) := secretData cert]> secrets
     end, Loading)
  end.

Definition GetCertificateFromSecret (secrets : Secrets) (ns secretName : string) (cert : MeshCertificate)
    (apiError : option string) : Secrets * result string MeshCertificate :=
  match createSecret secrets ns secretName cert apiError with
  | (secrets, Done r) => (secrets, r)
  | (secrets, _) => (secrets, GetCertFromKubernetes secrets ns secretName)
  end.

(** The replicas next to each other: a step is one call of the API server. *)
Inductive replica_step (ns secretName : string) : Secrets * list replica → Secrets * list replica → Prop :=
| step_create secrets rs i cert apiError :
  rs !! i = Some (Creating cert) →
  replica_step ns secretName (secrets, rs)
    ((createSecret secrets ns secretName cert apiError).1, <[i := (createSecret secrets ns secretName cert apiError).2]> rs)
| step_load secrets rs i :
  rs !! i = Some Loading →
  replica_step ns secretName (secrets, rs) (secrets, <[i := Done (GetCertFromKubernetes secrets ns secretName)]> rs).

(** ** Theorems: the replicas *)

(** The secret, once it is there, is that of one replica or the one that was there. *)
Record replicas_ok (ns secretName : string) (before : Secrets) (certs : list MeshCertificate)
    (st : Secrets * list replica) : Prop := {
  rk_secret : ∀ data, st.1 !! (ns, secretName) = Some data →
    before !! (ns, secretName) = Some data ∨
    (before !! (ns, secretName) = None ∧ ∃ cert, cert ∈ certs ∧ data = secretData cert);
  rk_creating : ∀ i cert, st.2 !! i = Some (Creating cert) → cert ∈ certs;
  rk_done : ∀ i c, st.2 !! i = Some (Done (Ok c)) → GetCertFromKubernetes st.1 ns secretName = Ok c;
}.

Lemma createSecret_keeps secrets ns name cert e c :
  GetCertFromKubernetes secrets ns name = Ok c →
  GetCertFromKubernetes (createSecret secrets ns name cert e).1 ns name = Ok c.
Proof.
  unfold createSecret, GetCertFromKubernetes. destruct e; [done|]. by destruct (secrets !! (ns, name)) as [data|] eqn:E; simpl; rewrite ?E.
Qed.

Lemma replica_step_ok ns name before certs st st' :
  (∀ data, before !! (ns, name) = Some data → st.1 !! (ns, name) = Some data) →
  replicas_ok ns name before certs st → replica_step ns name st st' →
  (∀ data, before !! (ns, name) = Some data → st'.1 !! (ns, name) = Some data) ∧ replicas_ok ns name before certs st'.
Proof.
  intros Hb [Hs Hc Hd]. destruct 1 as [secrets rs i cert e Hi|secrets rs i Hi]; simpl in *.
  - pose proof (Hc _ _ Hi) as Hcert. split.
    { intros data Hdata%Hb. unfold createSecret. destruct e; [done|]. by rewrite Hdata. }
    split; simpl.
    + intros data. unfold createSecret. destruct e; [by auto|]. destruct (secrets !! (ns, name)) as [d|] eqn:E; simpl.
      * rewrite E. intros [= <-]. auto.
      * rewrite lookup_insert_eq. intros [= <-]. right. split; [|eauto].
        destruct (before !! (ns, name)) as [d|] eqn:Eb; [|done]. specialize (Hb d eq_refl). congruence.
    + intros j c' [(<- & E & _)|[_ Hj]]%list_lookup_insert_Some; [|by eapply Hc].
      unfold createSecret in E. by destruct e.
    + intros j c' [(<- & E & _)|[_ Hj]]%list_lookup_insert_Some; [unfold createSecret in E; by destruct e|].
      by eapply createSecret_keeps, Hd.
  - split; [done|]. split; simpl; [done|..].
    + intros j c' [(<- & E & _)|[_ Hj]]%list_lookup_insert_Some; [done|by eapply Hc].
    + intros j c' [(<- & E & _)|[_ Hj]]%list_lookup_insert_Some; [by injection E|by eapply Hd].
Qed.

Lemma replicas_reachable ns name before certs st :
  rtc (replica_step ns name) (before, Creating <$> certs) st → replicas_ok ns name before certs st.
Proof.
  assert (replicas_ok ns name before certs (before, Creating <$> certs)) as H0.
  { split; simpl; [auto|..].
    - intros i c. rewrite list_lookup_fmap. intros (d & Hd & [= ->])%fmap_Some. by eapply list_elem_of_lookup_2.
    - intros i c. rewrite list_lookup_fmap. by intros (d & _ & ?)%fmap_Some. }
  assert (∀ data, before !! (ns, name) = Some data → (before, Creating <$> certs).1 !! (ns, name) = Some data) as Hb by done.
  revert H0 Hb. generalize (before, Creating <$> certs). intros st0 H0 Hb Hst.
  induction Hst as [st|st st' st'' Hstep Hst IH]; [done|].
  destruct (replica_step_ok _ _ _ _ _ _ Hb H0 Hstep). auto.
Qed.

(** C20. The replicas of the control plane have one root.  Each makes a root of its own,
    and they create and load the secret in any order: any two that return a certificate
    return the same one.  It is that of the secret, if the secret was there, and else one
    that some replica made. *)
Theorem replicas_agree (ns secretName : string) (before : Secrets) (certs : list MeshCertificate)
    (secrets : Secrets) (rs : list replica) (i j : nat) (c d : MeshCertificate) :
  rtc (replica_step ns secretName) (before, Creating <$> certs) (secrets, rs) →
  rs !! i = Some (Done (Ok c)) → rs !! j = Some (Done (Ok d)) →
  c = d ∧
  (GetCertFromKubernetes before ns secretName = Ok c ∨
   before !! (ns, secretName) = None ∧
   ∃ cert, cert ∈ certs ∧ NewFromPEM (cert_CertChain cert) (cert_PrivateKey cert) = Ok c).
Proof.
  intros [Hs _ Hd]%replicas_reachable Hi Hj. simpl in *. apply Hd in Hi, Hj. split; [congruence|].
  unfold GetCertFromKubernetes in *. destruct (secrets !! (ns, secretName)) as [data|]; [|done].
  destruct (Hs data eq_refl) as [->|(-> & cert & Hcert & ->)]; [by left|]. right. split; [done|]. by exists cert.
Qed.
End castorage.

(** ** The laws of the issuers *)

#[global] Instance tresor_laws {Key X509} (cr : nat → Crypto Key X509) cm ca (Hca : tr_ca cm = Some ca) :
  IssuerLaws (λ n, tresor_IssueCertificate (cr n) cm) (cert_CertChain ca).
Proof.
  assert (∀ n now cn sans v c, tresor_IssueCertificate (cr n) cm now cn sans v = Ret (Ok c) →
    cert_CommonName c = cn ∧ cert_Expiration c = now + v ∧ cert_IssuingCA c = cert_CertChain ca ∧
    cert_TrustedCAs c = cert_CertChain ca) as H.
  { intros n now cn sans v c. unfold tresor_IssueCertificate. rewrite Hca.
    destruct (cr_GenerateKey _ _); [|done]. destruct (cr_SerialNumber _); [|done].
    destruct (DecodePEMCertificate _ _); [|done]. intros ([key|] & _ & E)%bind_Ret; [|done].
    destruct (cr_CreateCertificate _ _ _ _ _); [|done]. by repeat case_match; simplify_eq. }
  split; intros; by edestruct H as (? & ? & ? & ?).
Qed.

(** Vault answers every call with the same root. *)
#[global] Instance vault_laws (write : nat → string → gmap string string → result string (gmap string string)) role ca
    (Hca : ∀ n url data secret, write n url data = Ok secret → secret !! issuingCAField = Some ca) :
  IssuerLaws (λ n, vault_IssueCertificate (write n) role) ca.
Proof.
  assert (∀ n now cn sans v c, vault_IssueCertificate (write n) role now cn sans v = Ret (Ok c) →
    cert_CommonName c = cn ∧ cert_Expiration c = now + v ∧ cert_IssuingCA c = ca ∧ cert_TrustedCAs c = ca) as H.
  { intros n now cn sans v c. unfold vault_IssueCertificate, newCert. destruct (write n _ _) as [secret|] eqn:E; [|done].
    rewrite (Hca _ _ _ _ E). by repeat case_match; try done; intros [= <-]. }
  split; intros; by edestruct H as (? & ? & ? & ?).
Qed.

(** The root that is kept for an issuer is the one it signs with. *)
Lemma GetCertIssuerForMRC_lawful getTresor getVault getCertManager n now mrc i ca ca' :
  GetCertIssuerForMRC getTresor getVault getCertManager n now mrc = Ret (Ok (i, ca)) →
  IssuerLaws i ca' → IssuerLaws i ca.
Proof.
  unfold GetCertIssuerForMRC, getCA. intros E L. destruct (match mrc_Provider mrc with Some _ => _ | None => _ end) as [i'|]; [|done].
  apply bind_Ret in E as ([ca1|] & E1 & E); [|done]. injection E as -> ->.
  apply bind_Ret in E1 as ([c|] & Ec & [= <-]). by destruct (issued_ca _ _ _ _ _ _ Ec) as [-> _].
Qed.

(** Vault is asked for whole hours.  The manager goes by the whole period, so unless the
    period is a number of hours it takes the certificate to be valid for longer than it is. *)
Lemma vault_hours write role now cn sans v c :
  0 ≤ v → vault_IssueCertificate write role now cn sans v = Ret (Ok c) →
  ∃ h, getDurationInMinutes v = itoa h +:+ "h" ∧ cert_Expiration c = now + v ∧
    h * hour ≤ v < (h + 1) * hour ∧ (v `mod` hour ≠ 0 → now + h * hour < cert_Expiration c).
Proof.
  intros Hv. unfold vault_IssueCertificate, newCert. destruct (write _ _) as [secret|]; [|done].
  intros (c' & Hc & [= <-])%bind_Ret. exists (Z.quot v hour). split; [done|].
  assert (cert_Expiration c' = now + v) as -> by (revert Hc; by repeat case_match; try done; intros [= <-]).
  assert (0 < hour) by (unfold hour, second; lia). rewrite Z.quot_div_nonneg by lia.
  pose proof (Z.div_mod v hour ltac:(lia)). pose proof (Z.mod_pos_bound v hour ltac:(lia)).
  split_and!; [done|nia|nia|]. intros Hne. nia.
Qed.

(** ** Examples *)

Module CertWitness.

(** A library whose encodings are the identity and that does not fail. *)
Definition crypto (n : nat) : Crypto string string := {|
  cr_Decode s := ([mkBlock TypeCertificate 0 s; mkBlock TypePrivateKey 0 s], false);
  cr_Encode _ s := Ok s;
  cr_ParseCertificate s := Ok s;
  cr_ParseKey s := Ok (Some s);
  cr_MarshalKey s := Ok s;
  cr_GenerateKey _ := Ok "key";
  cr_SerialNumber := Ok (Z.of_nat n);
  cr_CreateCertificate tpl _ _ _ := Ok (tpl_CommonName tpl +:+ " " +:+ tpl_SerialNumber tpl);
|}.

Definition root (name : string) : MeshCertificate :=
  mkMeshCertificate name [] "0" 0 (name +:+ " root;") "root key" (name +:+ " root;") (name +:+ " root;") "" "" "".

Definition tresor (name : string) : Issuer :=
  λ n, tresor_IssueCertificate (crypto n) (mkTresor (Some (root name)) "osm" 2048).

Definition get : MeshRootCertificate → outcome (result string (Issuer * string)) :=
  GetCertIssuerForMRC (λ mrc, Ok (tresor (mrc_Name mrc))) (λ _, Err "no vault") (λ _, Err "no cert-manager") 0 0.

Definition mrc (name state : string) : MeshRootCertificate := mkMRC name (Some ProviderTresor) "cluster.local" state.
Definition added (name state : string) : MRCEvent := mkMRCEvent MRCEventAdded (mrc name state).

Lemma tresor_answers name : answers (tresor name).
Proof. intros n now cn sans v. by eexists. Qed.

Lemma tresor_lawful name : IssuerLaws (tresor name) (name +:+ " root;").
Proof. exact (tresor_laws crypto (mkTresor (Some (root name)) "osm" 2048) (root name) eq_refl). Qed.

Lemma get_provided m : (∃ e, get m = Ret (Err e)) ∨ ∃ i ca, get m = Ret (Ok (i, ca)) ∧ IssuerLaws i ca ∧ answers i.
Proof.
  destruct m as [name [[]|] td state]; [|by left; eexists..]. right.
  exists (tresor name), (name +:+ " root;"). split_and!; [done|apply tresor_lawful|apply tresor_answers].
Qed.

(** At [s] seconds, with the noise [noise]; certificates of services last a minute. *)
Definition at_second (s noise : Z) (n : nat) : moment :=
  mkMoment (s * second) noise (s * second) (60 * second) (60 * second) n.

Definition manager : Manager :=
  match start get NewManager [added "a" MRCStateActive] with Ret (Ok m) => m | _ => NewManager end.

(** Two certificates are issued, a check starts, one of them is released and issued again
    before its turn, and a new root is validated. *)
Definition acts : list action :=
  [Issue (at_second 0 0 1) "web.shop" CertType_Service [];
   Issue (at_second 1 3 2) "db.shop" CertType_Service [SubjectAlternativeNames ["db"; "db.shop"]];
   Check (30 * second); Release "web.shop"; Issue (at_second 31 0 3) "web.shop" CertType_Service [];
   Event (added "b" MRCStateValidatingRollout); Rotate (at_second 32 4 4); Rotate (at_second 32 0 5)].

#[local] Existing Instance stdpp_order.

Lemma acts_timed : timed 0 acts.
Proof. cbn [timed acts]. unfold at_second, second. simpl. lia. Qed.

Lemma acts_lasting : Forall lasting_action acts.
Proof.
  assert (∀ s noise n ct, 0 ≤ noise < noiseSeconds → lasting (at_second s noise n) ct []) as H.
  { intros s noise n ct Hn. split; [done|]. cbn. unfold getValidityDurationForCertType, OSMCertificateValidityPeriod.
    unfold hour, RenewBeforeCertExpires. simpl. unfold second. repeat case_decide; lia. }
  assert (∀ ct, lasting_action (Issue (at_second 1 3 2) "db.shop" ct [SubjectAlternativeNames ["db"; "db.shop"]])) as H'.
  { intros ct. by apply (H 1 3 2%nat ct). }
  unfold acts. rewrite !Forall_cons, Forall_nil. repeat split; try done; first [apply H'|by apply H|intros ct; by apply H].
Qed.

Lemma certificates_outlive_checks_witness :
  ∃ w, foldO (exec get) (mkWorld manager [] 0 0 []) acts = Ret w ∧
    ∀ k c, mgr_cache (w_manager w) !! k = Some c → w_checked w + RenewBeforeCertExpires < cert_Expiration c.
Proof.
  apply (certificates_outlive_checks get get_provided [added "a" MRCStateActive]);
    [reflexivity|exact acts_timed|exact acts_lasting].
Defined.

(** The check at 30 seconds is complete at the end, and both certificates were replaced:
    that of the database because it expired soon, that of the web server because the new
    root is to be validated. *)
Lemma acts_run : (λ w, (w_checked w, length (w_published w))) <$> foldO (exec get) (mkWorld manager [] 0 0 []) acts =
  Ret (30 * second, 2%nat).
Proof. vm_compute. reflexivity. Qed.

(** The manager after the first two actions. *)
Definition stocked : Manager :=
  match foldO (exec get) (mkWorld manager [] 0 0 []) (take 2 acts) with Ret w => w_manager w | Panic => manager end.

Definition tresor_issuer (name : string) : issuer := mkIssuer (tresor name) name "cluster.local" (name +:+ " root;").

Lemma tresor_good name : good (tresor_issuer name).
Proof. split; [apply tresor_lawful|apply tresor_answers]. Qed.


(** A stage in which [sign] signs and the root of [validate] is trusted too. *)
Definition stage (sign validate : string) : Manager :=
  mkManager ∅ (Some (tresor_issuer sign)) (Some (tresor_issuer validate)).

(** The stages are those that the events set. *)
Lemma stage_watch :
  watch get NewManager [added "a" MRCStateActive; added "b" MRCStateValidatingRollout] = Ret (stage "a" "b") ∧
  watch get NewManager [added "b" MRCStateIssuingRollout; added "a" MRCStateValidatingRollback] = Ret (stage "b" "a").
Proof. split; reflexivity. Qed.

Definition issued (m : Manager) (prefix : string) : Manager * MeshCertificate * Rotated :=
  match issueCertificate m (at_second 0 0 7) prefix CertType_Service [] with
  | Ret (m', Ok c, pub) => (m', c, pub)
  | _ => (m, root prefix, [])
  end.

Lemma stages_trust_witness :
  trusts (issued (stage "a" "b") "web.shop").1.2 (issued (stage "b" "a") "db.shop").1.2 ∧
  trusts (issued (stage "b" "a") "db.shop").1.2 (issued (stage "a" "b") "web.shop").1.2.
Proof.
  assert (∀ x y, issuers_of (stage x y) (tresor_issuer x) (tresor_issuer y)) as H
    by (intros x y; split_and!; [done..|apply tresor_lawful|apply tresor_lawful]).
  apply (stages_trust (stage "a" "b") (stage "b" "a") (tresor_issuer "a") (tresor_issuer "b") (tresor_issuer "b")
    (tresor_issuer "a") (at_second 0 0 7) (at_second 0 0 7) "web.shop" "db.shop" CertType_Service CertType_Service [] []
    (issued (stage "a" "b") "web.shop").1.1 (issued (stage "b" "a") "db.shop").1.1
    (issued (stage "a" "b") "web.shop").1.2 (issued (stage "b" "a") "db.shop").1.2
    (issued (stage "a" "b") "web.shop").2 (issued (stage "b" "a") "db.shop").2 (H _ _) (H _ _));
    [|by right|by right|reflexivity..].
  intros i j Hi Hj E. assert (∀ i, i ∈ [tresor_issuer "a"; tresor_issuer "b"; tresor_issuer "b"; tresor_issuer "a"] →
    iss_CertificateAuthority i = iss_ID i +:+ " root;") as Hca.
  { intros x. rewrite !elem_of_cons. intros Hx. by destruct_or!; subst; [..|apply not_elem_of_nil in Hx]. }
  by rewrite !Hca, E.
Defined.

(** Two replicas create the secret and load it, the second one first. *)
Definition view (s : string) : X509View := mkX509View s [] "0" 0.
Definition secrets : Secrets := (createSecret ∅ "osm" "ca" (root "a") None).1.
Definition loaded : result string MeshCertificate := GetCertFromKubernetes (crypto 0) view secrets "osm" "ca".
Definition loaded_root : MeshCertificate := match loaded with Ok c => c | Err _ => root "c" end.

Lemma replicas_run :
  rtc (replica_step (crypto 0) view "osm" "ca") (∅, Creating <$> [root "a"; root "b"]) (secrets, [Done loaded; Done loaded]).
Proof.
  eapply rtc_l; [eapply (step_create _ _ _ _ _ _ 0 _ None); reflexivity|].
  eapply rtc_l; [eapply (step_create _ _ _ _ _ _ 1 _ None); reflexivity|].
  eapply rtc_l; [eapply (step_load _ _ _ _ _ _ 1); reflexivity|].
  eapply rtc_l; [eapply (step_load _ _ _ _ _ _ 0); reflexivity|]. apply rtc_refl.
Qed.

Lemma replicas_agree_witness :
  loaded_root = loaded_root ∧
  (GetCertFromKubernetes (crypto 0) view ∅ "osm" "ca" = Ok loaded_root ∨
   (∅ : Secrets) !! ("osm", "ca") = None ∧
   ∃ cert, cert ∈ [root "a"; root "b"] ∧ NewFromPEM (crypto 0) view (cert_CertChain cert) (cert_PrivateKey cert) = Ok loaded_root).
Proof. exact (replicas_agree (crypto 0) view "osm" "ca" ∅ [root "a"; root "b"] _ _ 0 1 _ _ replicas_run eq_refl eq_refl). Defined.
End CertWitness.
