(* ===== verification/Gateway.v ===== *)
(** * pkg/ingress: certificates for ingress gateways and for external services

    gateway.go: a goroutine keeps a certificate in the secret that the MeshConfig names
    for the ingress gateway, and one in the secret of every AccessCert.  It reacts to
    updates of the MeshConfig, to events of AccessCerts, and to the rotation of a
    certificate by the manager ([Certificate]).

    The API server is the map of its secrets; a call may also fail for a reason of its
    own, which is an argument ([faults]).  [gateway_run] interleaves the goroutine with the
    manager, whose messages wait in [gs_rotated] until they are handled; a turn of the
    goroutine, with its calls of the manager and of the API server, is one step.  The
    goroutine subscribes after it is started, and [unsubscribed_run] is the time until
    then, in which messages are lost. *)

From S2P Require Import Prelude GoStrings GoTime PolicyApi MeshConfig Certificate CertIssuers.

(** ** Data *)

#[global] Instance IngressGatewayCertSpec_eq_dec : EqDecision IngressGatewayCertSpec.
Proof. solve_decision. Defined.

Record AccessCertSpec := mkAccessCertSpec {
  acs_SubjectAltNames : list string;
  acs_Secret : SecretReference;
}.

Record AccessCert := mkAccessCert {
  acert_Meta : ObjectMeta;
  acert_Spec : AccessCertSpec;
}.

Inductive GatewayError :=
| errNoSAN
| errCertDuration (s : string) (e : DurationError)
| errSecretRef (namespace name : string)
| errIssuing (msg : string)
| errStoring (namespace name msg : string)
| errDeleting (msg : string).

(** The status that is written to an AccessCert: its reason is that issuing is
    prohibited, or the text of an error, or that the certificate is committed. *)
Inductive AccessCertStatus :=
| StatusProhibited
| StatusError (e : GatewayError)
| StatusCommitted.

(** The errors that the API server gives to the calls of one turn, besides those that
    follow from the secrets it has. *)
Record faults := mkFaults {
  ft_create : option string;
  ft_update : option string;
  ft_delete : option string;
}.
Definition no_faults : faults := mkFaults None None None.

Record GatewayState := mkGatewayState {
  gs_manager : Manager;
  gs_secrets : Secrets;
  gs_spec : option IngressGatewayCertSpec;
  gs_accessCertCache : gmap string AccessCert;
  gs_statuses : list (ObjectMeta * AccessCertStatus);
  gs_rotated : list MeshCertificate;
}.

Definition with_issued (st : GatewayState) (m : Manager) (secrets : Secrets) (pub : Rotated) : GatewayState :=
  mkGatewayState m secrets (gs_spec st) (gs_accessCertCache st) (gs_statuses st) (gs_rotated st ++ pub.*2).
Definition with_spec (st : GatewayState) (spec : option IngressGatewayCertSpec) : GatewayState :=
  mkGatewayState (gs_manager st) (gs_secrets st) spec (gs_accessCertCache st) (gs_statuses st) (gs_rotated st).
Definition with_accessCerts (st : GatewayState) (accessCertCache : gmap string AccessCert) : GatewayState :=
  mkGatewayState (gs_manager st) (gs_secrets st) (gs_spec st) accessCertCache (gs_statuses st) (gs_rotated st).
Definition UpdateStatus (st : GatewayState) (c : AccessCert) (status : AccessCertStatus) : GatewayState :=
  mkGatewayState (gs_manager st) (gs_secrets st) (gs_spec st) (gs_accessCertCache st)
    (gs_statuses st ++ [(acert_Meta c, status)]) (gs_rotated st).

(** ** Secrets *)

Definition secret_key (secret : SecretReference) : string * string := (sr_Namespace secret, sr_Name secret).

Definition tlsSecretData (cert : MeshCertificate) : gmap string string :=
  {[ "ca.crt" := cert_TrustedCAs cert; "tls.crt" := cert_CertChain cert; "tls.key" := cert_PrivateKey cert ]}.

(** Create, and update if the secret exists already. *)
Definition storeCertInSecret (ft : faults) (secrets : Secrets) (cert : MeshCertificate)
    (secret : SecretReference) : Secrets * result string unit :=
  let stored := <[secret_key secret := tlsSecretData cert]> secrets in
  match ft_create ft with
  | Some e => (secrets, Err e)
  | None =>
    match secrets !! secret_key secret with
    | None => (stored, Ok tt)
    | Some _ => match ft_update ft with Some e => (secrets, Err e) | None => (stored, Ok tt) end
    end
  end.

Definition deleteSecret (ft : faults) (secrets : Secrets) (secret : SecretReference) :
    result string Secrets :=
  match ft_delete ft with
  | Some e => Err e
  | None =>
    match secrets !! secret_key secret with
    | None => Err ("secrets " +:+ sr_Name secret +:+ " not found")
    | Some _ => Ok (delete (secret_key secret) secrets)
    end
  end.

(** ** Certificates in secrets *)

(** The common end of the two functions below: release, issue, store. *)
Definition issueAndStore (at_ : moment) (ft : faults) (st : GatewayState) (certCN ct : string)
    (secret : SecretReference) : outcome (GatewayState * result GatewayError unit) :=
  '(m, r, pub) ← issueCertificate (ReleaseCertificate (gs_manager st) certCN) at_ certCN ct [FullCNProvided];
  Ret match r with
      | Err e => (with_issued st m (gs_secrets st) pub, Err (errIssuing e))
      | Ok issuedCert =>
        match storeCertInSecret ft (gs_secrets st) issuedCert secret with
        | (secrets, Ok _) => (with_issued st m secrets pub, Ok tt)
        | (secrets, Err e) =>
          (with_issued st m secrets pub, Err (errStoring (sr_Namespace secret) (sr_Name secret) e))
        end
      end.

Definition createAndStoreGatewayCert (at_ : moment) (ft : faults) (st : GatewayState)
    (spec : IngressGatewayCertSpec) : outcome (GatewayState * result GatewayError unit) :=
  match igc_SubjectAltNames spec with
  | [] => Ret (st, Err errNoSAN)
  | certCN :: _ =>
    match ParseDuration (igc_ValidityDuration spec) with
    | Err e => Ret (st, Err (errCertDuration (igc_ValidityDuration spec) e))
    | Ok _ =>
      let secret := igc_Secret spec in
      if decide (sr_Name secret = "" ∨ sr_Namespace secret = "")
      then Ret (st, Err (errSecretRef (sr_Namespace secret) (sr_Name secret)))
      else issueAndStore at_ ft st certCN CertType_IngressGateway secret
    end
  end.

Definition createAndStoreAccessCert (at_ : moment) (ft : faults) (st : GatewayState)
    (spec : AccessCertSpec) : outcome (GatewayState * result GatewayError unit) :=
  match acs_SubjectAltNames spec with
  | [] => Ret (st, Err errNoSAN)
  | certCN :: _ =>
    let secret := acs_Secret spec in
    if decide (sr_Name secret = "" ∨ sr_Namespace secret = "")
    then Ret (st, Err (errSecretRef (sr_Namespace secret) (sr_Name secret)))
    else issueAndStore at_ ft st certCN CertType_Service secret
  end.

(** [removeGatewayCertAndSecret] and [removeAccessCertAndSecret], which differ in the
    type of the specification; [SubjectAltNames[0]] panics if there is none. *)
Definition removeCertAndSecret (ft : faults) (st : GatewayState) (sans : list string)
    (secret : SecretReference) : outcome (GatewayState * result GatewayError unit) :=
  match deleteSecret ft (gs_secrets st) secret with
  | Err e => Ret (st, Err (errDeleting e))
  | Ok secrets =>
    match sans with
    | [] => Panic
    | certCN :: _ => Ret (with_issued st (ReleaseCertificate (gs_manager st) certCN) secrets [], Ok tt)
    end
  end.

(** ** The handlers *)

(** A message that is no event, or a closed channel, is [None]. *)
Definition doMeshConfigUpdateChan (at_ : moment) (ft : faults) (st : GatewayState)
    (msg : option (option IngressGatewayCertSpec)) : outcome GatewayState :=
  match msg with
  | None => Ret st
  | Some newCertSpec =>
    if decide (gs_spec st = newCertSpec) then Ret st
    else
      '(st', _) ← match newCertSpec, gs_spec st with
                  | None, Some currentCertSpec =>
                    removeCertAndSecret ft st (igc_SubjectAltNames currentCertSpec) (igc_Secret currentCertSpec)
                  | Some newCertSpec, _ => createAndStoreGatewayCert at_ ft st newCertSpec
                  | None, None => Ret (st, Ok tt)
                  end;
      Ret (with_spec st' newCertSpec)
  end.

Definition issueAccessCert (at_ : moment) (ft : faults) (st : GatewayState) (newAccessCert : AccessCert) :
    outcome GatewayState :=
  '(st, r) ← createAndStoreAccessCert at_ ft st (acert_Spec newAccessCert);
  match r with
  | Err e => Ret (UpdateStatus st newAccessCert (StatusError e))
  | Ok _ =>
    match acs_SubjectAltNames (acert_Spec newAccessCert) with
    | [] => Panic
    | certCN :: _ =>
      Ret (UpdateStatus (with_accessCerts st (<[certCN := newAccessCert]> (gs_accessCertCache st)))
             newAccessCert StatusCommitted)
    end
  end.

Definition removeAccessCert (ft : faults) (st : GatewayState) (oldAccessCert : AccessCert)
    (newAccessCert : option AccessCert) : outcome (GatewayState * result GatewayError unit) :=
  '(st, r) ← removeCertAndSecret ft st (acs_SubjectAltNames (acert_Spec oldAccessCert))
               (acs_Secret (acert_Spec oldAccessCert));
  Ret match r, newAccessCert with
      | Err e, Some new => (UpdateStatus st new (StatusError e), Err e)
      | _, _ => (st, r)
      end.

(** The event of an AccessCert: the old and the new object, where there are such. *)
Definition doAccessCertChan (at_ : moment) (ft : faults) (enabled : bool) (st : GatewayState)
    (msg : option (option AccessCert * option AccessCert)) : outcome GatewayState :=
  match msg with
  | None => Ret st
  | Some (oldAccessCert, newAccessCert) =>
    match newAccessCert, enabled with
    | Some new, false => Ret (UpdateStatus st new StatusProhibited)
    | _, _ =>
      '(st, r) ← match oldAccessCert with
                 | None => Ret (st, Ok tt)
                 | Some old =>
                   match acs_SubjectAltNames (acert_Spec old) with
                   | [] => Panic
                   | certCN :: _ =>
                     removeAccessCert ft (with_accessCerts st (delete certCN (gs_accessCertCache st))) old newAccessCert
                   end
                 end;
      match r, newAccessCert with
      | Ok _, Some new => issueAccessCert at_ ft st new
      | _, _ => Ret st
      end
    end
  end.

Definition doCertRotateChan (at_ : moment) (ft : faults) (st : GatewayState)
    (msg : option MeshCertificate) : outcome GatewayState :=
  match msg with
  | None => Ret st
  | Some cert =>
    let access := match gs_accessCertCache st !! cert_CommonName cert with
                  | Some accessCert =>
                    '(st, _) ← createAndStoreAccessCert at_ ft st (acert_Spec accessCert); Ret st
                  | None => Ret st
                  end in
    match gs_spec st with
    | None => access
    | Some currentCertSpec =>
      match igc_SubjectAltNames currentCertSpec with
      | [] => Panic
      | certCN :: _ =>
        if decide (cert_CommonName cert = certCN) then
          '(st, _) ← createAndStoreGatewayCert at_ ft st currentCertSpec; Ret st
        else access
      end
    end
  end.

(** What happens before the goroutine starts. *)
Definition provisionIngressGatewayCert (at_ : moment) (ft : faults) (m : Manager) (secrets : Secrets)
    (defaultCertSpec : option IngressGatewayCertSpec) : outcome (result GatewayError GatewayState) :=
  let st := mkGatewayState m secrets defaultCertSpec ∅ [] [] in
  match defaultCertSpec with
  | None => Ret (Ok st)
  | Some spec =>
    '(st, r) ← createAndStoreGatewayCert at_ ft st spec;
    Ret match r with Err e => Err e | Ok _ => Ok st end
  end.

(** ** The goroutine and the manager

    A turn of the loop of [handleCertificateChange] takes one message; the manager
    takes a turn for a certificate of a copy of its cache, or issues one to another
    caller.  The stop channel ends the run. *)
Inductive GatewayAction :=
| MeshConfigChanged (at_ : moment) (ft : faults) (spec : option IngressGatewayCertSpec)
| AccessCertChanged (at_ : moment) (ft : faults) (enabled : bool) (old new : option AccessCert)
| RotationHandled (at_ : moment) (ft : faults)
| ManagerRotates (at_ : moment) (kc : string * MeshCertificate)
| OtherIssues (at_ : moment) (prefix ct : string) (opts : list IssueOption).

Definition handleCertificateChange (st : GatewayState) (a : GatewayAction) : outcome GatewayState :=
  match a with
  | MeshConfigChanged at_ ft spec => doMeshConfigUpdateChan at_ ft st (Some spec)
  | AccessCertChanged at_ ft enabled old new => doAccessCertChan at_ ft enabled st (Some (old, new))
  | RotationHandled at_ ft =>
    match gs_rotated st with
    | [] => Ret st
    | cert :: rest =>
      doCertRotateChan at_ ft
        (mkGatewayState (gs_manager st) (gs_secrets st) (gs_spec st) (gs_accessCertCache st) (gs_statuses st) rest)
        (Some cert)
    end
  | ManagerRotates at_ kc =>
    '(m, pub) ← rotateOne (gs_manager st) at_ kc; Ret (with_issued st m (gs_secrets st) pub)
  | OtherIssues at_ prefix ct opts =>
    '(m, _, pub) ← issueCertificate (gs_manager st) at_ prefix ct opts;
    Ret (with_issued st m (gs_secrets st) pub)
  end.

Definition gateway_run (st : GatewayState) (acts : list GatewayAction) : outcome GatewayState :=
  foldO handleCertificateChange st acts.

(** From the end of [provisionIngressGatewayCert] until the goroutine has subscribed, only
    the manager and its callers take turns, and what the manager publishes is not
    received. *)
Definition unsubscribed (st : GatewayState) (a : GatewayAction) : outcome GatewayState :=
  match a with
  | ManagerRotates at_ kc => '(m, _) ← rotateOne (gs_manager st) at_ kc; Ret (with_issued st m (gs_secrets st) [])
  | OtherIssues at_ prefix ct opts =>
    '(m, _, _) ← issueCertificate (gs_manager st) at_ prefix ct opts; Ret (with_issued st m (gs_secrets st) [])
  | _ => Ret st
  end.

Definition unsubscribed_run (st : GatewayState) (acts : list GatewayAction) : outcome GatewayState :=
  foldO unsubscribed st acts.

(** ** Theorems *)

(** A specification that is accepted. *)
Definition spec_ok (spec : IngressGatewayCertSpec) : Prop :=
  is_Some (head (igc_SubjectAltNames spec)) ∧ (∃ d, ParseDuration (igc_ValidityDuration spec) = Ok d) ∧
  sr_Name (igc_Secret spec) ≠ "" ∧ sr_Namespace (igc_Secret spec) ≠ "".

Lemma issue_good (m : Manager) at_ prefix ct opts :
  issuers_are good m →
  ∃ m' c pub, issueCertificate m at_ prefix ct opts = Ret (m', Ok c, pub) ∧ issuers_are good m' ∧
    mgr_cache m' = <[prefix := c]> (mgr_cache m) ∧
    ((mgr_cache m !! prefix = Some c ∧ pub = []) ∨
     ((let o := foldl (λ o f, f o) (mkIssueOptions false None []) opts in
       opt_fullCNProvided o = true → cert_CommonName c = prefix) ∧
      pub = match mgr_cache m !! prefix with Some c0 => [(c0, c)] | None => [] end)).
Proof.
  intros Hg. destruct (issueCertificate_returns m at_ prefix ct opts) as (m' & c & pub & E).
  { by eapply issuers_are_mono, Hg; intros ? []. }
  exists m', c, pub. split; [done|]. apply issueCertificate_result in E.
  destruct (issue_result_issuers _ _ _ _ _ _ _ _ E) as [Es Ev]. split.
  { destruct Hg as (s & v & ? & ? & ?). exists s, v. by rewrite Es, Ev. }
  inversion E as [d Hd Hrot| |s v sans newCert Hs Hv Hrot _ o Hiss]; subst.
  - split; [by rewrite insert_id|]. by left.
  - split; [done|]. right. split; [|done]. cbn zeta. fold o. intros Ho.
    destruct Hg as (s' & ? & Hs' & _ & [L _] & _). assert (s' = s) as -> by congruence. unfold lawful in L.
    rewrite issued_as_CommonName, (issued_name _ _ _ _ _ _ Hiss). unfold formatCN. by rewrite Ho.
Qed.

(** Without faults of the API server a certificate that is issued is stored. *)
Lemma issueAndStore_ok at_ st cn ct secret :
  issuers_are good (gs_manager st) →
  ∃ m c, issueAndStore at_ no_faults st cn ct secret =
      Ret (with_issued st m (<[secret_key secret := tlsSecretData c]> (gs_secrets st)) [], Ok tt) ∧
    issuers_are good m ∧ mgr_cache m = <[cn := c]> (mgr_cache (gs_manager st)) ∧ cert_CommonName c = cn.
Proof.
  intros Hg. unfold issueAndStore.
  destruct (issue_good (ReleaseCertificate (gs_manager st) cn) at_ cn ct [FullCNProvided])
    as (m & c & pub & -> & Hm & Hc & Hpub); [done|]. simpl in *. rewrite lookup_delete_eq in Hpub.
  destruct Hpub as [[? _]|[Hcn ->]]; [done|]. rewrite insert_delete_eq in Hc.
  exists m, c. split; [|by auto]. unfold storeCertInSecret. simpl. by destruct (gs_secrets st !! _).
Qed.

(** With faults, the manager changes at the name only, and no message is sent. *)
Lemma issueAndStore_frame at_ ft st cn ct secret :
  issuers_are good (gs_manager st) →
  ∃ m secrets r, issueAndStore at_ ft st cn ct secret = Ret (with_issued st m secrets [], r) ∧
    issuers_are good m ∧ (∀ k, k ≠ cn → mgr_cache m !! k = mgr_cache (gs_manager st) !! k) ∧
    ∀ k, k ≠ secret_key secret → secrets !! k = gs_secrets st !! k.
Proof.
  intros Hg. unfold issueAndStore.
  destruct (issue_good (ReleaseCertificate (gs_manager st) cn) at_ cn ct [FullCNProvided])
    as (m & c & pub & -> & Hm & Hc & Hpub); [done|]. simpl in *. rewrite lookup_delete_eq in Hpub.
  destruct Hpub as [[? _]|[Hcn ->]]; [done|]. rewrite insert_delete_eq in Hc.
  assert (∀ k, k ≠ cn → mgr_cache m !! k = mgr_cache (gs_manager st) !! k) as Hk.
  { intros k Hne. by rewrite Hc, lookup_insert_ne. }
  unfold storeCertInSecret.
  destruct (ft_create ft); [|destruct (gs_secrets st !! _); [destruct (ft_update ft)|]];
    (do 3 eexists; split_and!; [done..|]); intros k Hne; by rewrite ?lookup_insert_ne.
Qed.

(** *** The secret of the gateway

    [reserved] are the names, and [kept] the secrets, that only the specification of the
    MeshConfig uses. *)
Section gateway.
Context (reserved : string → Prop) (kept : string * string → Prop).

Definition gateway_ok (spec : IngressGatewayCertSpec) : Prop :=
  spec_ok spec ∧ (∀ cn, head (igc_SubjectAltNames spec) = Some cn → reserved cn) ∧
  kept (secret_key (igc_Secret spec)).

Definition access_ok (c : AccessCert) : Prop :=
  (∃ cn, head (acs_SubjectAltNames (acert_Spec c)) = Some cn ∧ ¬ reserved cn) ∧
  ¬ kept (secret_key (acs_Secret (acert_Spec c))).

(** The manager's copies of certificates with a reserved name are certificates for that
    name, and other callers use other names.  The API server answers the calls for the
    gateway. *)
Definition orderly (a : GatewayAction) : Prop :=
  match a with
  | MeshConfigChanged _ ft spec => ft = no_faults ∧ ∀ s, spec = Some s → gateway_ok s
  | AccessCertChanged _ _ _ old new => ∀ c, old = Some c ∨ new = Some c → access_ok c
  | RotationHandled _ ft => ft = no_faults
  | ManagerRotates _ kc => reserved kc.1 → cert_CommonName kc.2 = kc.1
  | OtherIssues _ prefix _ _ => ¬ reserved prefix
  end.

(** The secret holds the certificate of the manager, or a message about its rotation is
    still to be handled. *)
Definition follows (st : GatewayState) (spec : IngressGatewayCertSpec) : Prop :=
  ∃ cn c, head (igc_SubjectAltNames spec) = Some cn ∧ mgr_cache (gs_manager st) !! cn = Some c ∧
    cert_CommonName c = cn ∧
    (gs_secrets st !! secret_key (igc_Secret spec) = Some (tlsSecretData c) ∨
     ∃ x, x ∈ gs_rotated st ∧ cert_CommonName x = cn).

Record gateway_inv (st : GatewayState) : Prop := {
  gi_issuers : issuers_are good (gs_manager st);
  gi_spec : ∀ s, gs_spec st = Some s → gateway_ok s ∧ follows st s;
  gi_access : ∀ k c, gs_accessCertCache st !! k = Some c → access_ok c;
}.

(** A change that keeps what the secret of the gateway depends on. *)
Lemma gateway_inv_frame st st' :
  gateway_inv st → issuers_are good (gs_manager st') →
  gs_spec st' = gs_spec st → gs_rotated st' = gs_rotated st →
  (∀ k, reserved k → mgr_cache (gs_manager st') !! k = mgr_cache (gs_manager st) !! k) →
  (∀ k, kept k → gs_secrets st' !! k = gs_secrets st !! k) →
  (∀ k c, gs_accessCertCache st' !! k = Some c → access_ok c) → gateway_inv st'.
Proof.
  intros [Hg Hs Ha] Hg' Espec Erot Hc Hk Ha'. split; [done| |done]. intros s Es. rewrite Espec in Es.
  destruct (Hs s Es) as [Hok (cn & c & Hcn & Hcache & Hname & Hsec)]. split; [done|].
  exists cn, c. destruct Hok as (_ & Hres & Hkept). rewrite Hc, Hk, Erot; auto.
Qed.

(** A new specification is followed at once. *)
Lemma createAndStoreGatewayCert_ok at_ st spec :
  issuers_are good (gs_manager st) → spec_ok spec →
  ∃ st', createAndStoreGatewayCert at_ no_faults st spec = Ret (st', Ok tt) ∧
    issuers_are good (gs_manager st') ∧ follows st' spec ∧ gs_spec st' = gs_spec st ∧
    gs_rotated st' = gs_rotated st ∧ gs_accessCertCache st' = gs_accessCertCache st.
Proof.
  intros Hg ([cn Hcn] & [d Hd] & Hn & Hns). unfold createAndStoreGatewayCert.
  destruct (igc_SubjectAltNames spec) as [|cn' rest] eqn:Esan; [done|]. simpl in Hcn. injection Hcn as ->.
  rewrite Hd, decide_False by (by intros [?|?]).
  destruct (issueAndStore_ok at_ st cn CertType_IngressGateway (igc_Secret spec) Hg) as (m & c & -> & Hm & Hc & Hname).
  eexists. split; [done|]. split_and!; [done| |done|by simpl; rewrite app_nil_r|done].
  exists cn, c. simpl. rewrite Esan, Hc, !lookup_insert_eq. auto.
Qed.

Lemma createAndStoreAccessCert_inv at_ ft st c :
  gateway_inv st → access_ok c →
  ∃ st' r, createAndStoreAccessCert at_ ft st (acert_Spec c) = Ret (st', r) ∧ gateway_inv st' ∧
    gs_spec st' = gs_spec st ∧ gs_rotated st' = gs_rotated st.
Proof.
  intros Hinv [(cn & Hcn & Hres) Hkept]. unfold createAndStoreAccessCert.
  destruct (acs_SubjectAltNames _) as [|cn' rest] eqn:Esan; [done|]. simpl in Hcn. injection Hcn as ->.
  case_decide; [by eauto 10|].
  destruct (issueAndStore_frame at_ ft st cn CertType_Service (acs_Secret (acert_Spec c)) (gi_issuers _ Hinv))
    as (m & secrets & r & -> & Hm & Hc & Hk).
  assert (gs_rotated (with_issued st m secrets []) = gs_rotated st) as Er by (simpl; by rewrite app_nil_r).
  do 2 eexists. split_and!; [done| |done|done].
  apply (gateway_inv_frame st); [done..| | |exact (gi_access _ Hinv)]; simpl.
  - intros k ?. apply Hc. by intros ->.
  - intros k ?. apply Hk. by intros ->.
Qed.

Lemma removeCertAndSecret_access ft st c :
  gateway_inv st → access_ok c →
  ∃ st' r, removeCertAndSecret ft st (acs_SubjectAltNames (acert_Spec c)) (acs_Secret (acert_Spec c)) = Ret (st', r) ∧
    gateway_inv st'.
Proof.
  intros Hinv [(cn & Hcn & Hres) Hkept]. unfold removeCertAndSecret, deleteSecret.
  destruct (acs_SubjectAltNames _) as [|cn' rest]; [done|]. simpl in Hcn. injection Hcn as ->.
  destruct (ft_delete ft); [by eauto|]. destruct (gs_secrets st !! _); [|by eauto].
  do 2 eexists. split; [done|].
  apply (gateway_inv_frame st); [done|exact (gi_issuers _ Hinv)|done|simpl; by rewrite app_nil_r|..|exact (gi_access _ Hinv)]; simpl.
  - intros k ?. apply lookup_delete_ne. by intros <-.
  - intros k ?. apply lookup_delete_ne. by intros <-.
Qed.

Lemma UpdateStatus_inv st c status : gateway_inv st → gateway_inv (UpdateStatus st c status).
Proof. intros Hinv. by apply (gateway_inv_frame st); [|apply Hinv|..|apply Hinv]. Qed.

Lemma with_accessCerts_inv st cache :
  gateway_inv st → (∀ k c, cache !! k = Some c → access_ok c) → gateway_inv (with_accessCerts st cache).
Proof. intros Hinv Ha. by apply (gateway_inv_frame st); [|apply Hinv|..]. Qed.

Lemma doAccessCertChan_inv at_ ft enabled st old new :
  gateway_inv st → (∀ c, old = Some c ∨ new = Some c → access_ok c) →
  ∃ st', doAccessCertChan at_ ft enabled st (Some (old, new)) = Ret st' ∧ gateway_inv st'.
Proof.
  intros Hinv Hok. unfold doAccessCertChan.
  assert (∀ st, gateway_inv st → ∀ r : result GatewayError unit, ∃ st',
    match r, new with Ok _, Some new => issueAccessCert at_ ft st new | _, _ => Ret st end = Ret st' ∧ gateway_inv st') as Hnew.
  { clear st Hinv. intros st Hinv [[]|e]; [|by eauto]. destruct new as [n|]; [|by eauto].
    unfold issueAccessCert. pose proof (Hok n (or_intror eq_refl)) as Hn.
    destruct (createAndStoreAccessCert_inv at_ ft st n Hinv Hn) as (st' & r & -> & Hinv' & _). simpl.
    destruct r; [|by eauto using UpdateStatus_inv]. destruct Hn as [(cn & Hcn & Hres) Hkept].
    destruct (acs_SubjectAltNames _) as [|cn' rest] eqn:Esan; [done|]. eexists. split; [done|].
    apply UpdateStatus_inv, with_accessCerts_inv; [done|]. intros k c.
    rewrite lookup_insert_Some. intros [[_ <-]|[_ Hc]]; [|by apply (gi_access _ Hinv' k)].
    by apply Hok; right. }
  assert (∃ st' r, match old with
      | None => Ret (st, Ok tt)
      | Some old => match acs_SubjectAltNames (acert_Spec old) with
                    | [] => Panic
                    | certCN :: _ => removeAccessCert ft (with_accessCerts st (delete certCN (gs_accessCertCache st))) old new
                    end
      end = Ret (st', r) ∧ gateway_inv st') as (st' & r & Hrem & Hinv').
  { destruct old as [o|]; [|by eauto]. pose proof (Hok o (or_introl eq_refl)) as Ho.
    destruct (acs_SubjectAltNames (acert_Spec o)) as [|cn rest] eqn:Esan; [destruct Ho as [(? & Hcn & _) _]; by rewrite Esan in Hcn|].
    unfold removeAccessCert.
    destruct (removeCertAndSecret_access ft (with_accessCerts st (delete cn (gs_accessCertCache st))) o)
      as (st' & r & -> & Hinv'); [|done|].
    { apply with_accessCerts_inv; [done|]. intros k c [_ Hc]%lookup_delete_Some. by apply (gi_access _ Hinv k). }
    simpl. destruct r, new; eauto using UpdateStatus_inv. }
  destruct new as [n|], enabled; rewrite Hrem || idtac; simpl; eauto using UpdateStatus_inv.
Qed.

(** Handling a rotation takes one message. *)
Lemma RotationHandled_inv at_ st :
  gateway_inv st →
  ∃ st', handleCertificateChange st (RotationHandled at_ no_faults) = Ret st' ∧ gateway_inv st' ∧
    gs_spec st' = gs_spec st ∧ gs_rotated st' = tail (gs_rotated st).
Proof.
  intros Hinv. simpl. destruct (gs_rotated st) as [|cert rest] eqn:Erot; [by exists st; rewrite Erot|].
  set (st1 := mkGatewayState _ _ _ _ _ rest).
  assert (∀ s, gs_spec st = Some s → head (igc_SubjectAltNames s) ≠ Some (cert_CommonName cert) → follows st1 s) as Hrest.
  { intros s Es Hne. destruct (gi_spec _ Hinv s Es) as [_ (cn & c & Hcn & Hcache & Hname & Hsec)]. exists cn, c.
    split_and!; [done..|]. destruct Hsec as [?|(x & Hx & Hxn)]; [by left|right].
    rewrite Erot in Hx. apply elem_of_cons in Hx as [->|Hx]; [congruence|by exists x]. }
  assert ((∀ s, gs_spec st = Some s → head (igc_SubjectAltNames s) ≠ Some (cert_CommonName cert)) →
    ∃ st', match gs_accessCertCache st !! cert_CommonName cert with
      | Some accessCert => '(st, _) ← createAndStoreAccessCert at_ no_faults st1 (acert_Spec accessCert); Ret st
      | None => Ret st1
      end = Ret st' ∧ gateway_inv st' ∧ gs_spec st' = gs_spec st ∧ gs_rotated st' = rest) as Haccess.
  { intros Hne. assert (gateway_inv st1) as Hinv1.
    { split; [apply Hinv| |apply Hinv]. intros s Es. split; [by apply Hinv|by apply Hrest, Hne]. }
    destruct (gs_accessCertCache st !! _) as [a|] eqn:Ea; [|by exists st1].
    destruct (createAndStoreAccessCert_inv at_ no_faults st1 a Hinv1) as (st' & r & -> & ? & ? & ?);
      [by apply (gi_access _ Hinv (cert_CommonName cert))|]. simpl. by exists st'. }
  unfold doCertRotateChan. cbn [gs_spec gs_accessCertCache st1].
  destruct (gs_spec st) as [s|] eqn:Es; [|by apply Haccess].
  destruct (gi_spec _ Hinv s Es) as [Hok _]. pose proof Hok as [Hspec _].
  destruct (igc_SubjectAltNames s) as [|cn sans] eqn:Esan; [destruct Hspec as [[? Hcn] _]; by rewrite Esan in Hcn|].
  case_decide as Hcn.
  - destruct (createAndStoreGatewayCert_ok at_ st1 s) as (st' & -> & Hg & Hf & E1 & E2 & E3); [apply Hinv|done|].
    simpl. exists st'. split_and!; [done| |by rewrite E1|done]. split; [done| |rewrite E3; apply Hinv].
    intros s'. rewrite E1. by intros [= <-].
  - apply Haccess. intros s' [= <-]. rewrite Esan. simpl. congruence.
Qed.

Lemma handleCertificateChange_inv st a :
  gateway_inv st → orderly a → ∃ st', handleCertificateChange st a = Ret st' ∧ gateway_inv st'.
Proof.
  intros Hinv. destruct a as [at_ ft spec|at_ ft enabled old new|at_ ft|at_ kc|at_ prefix ct opts]; cbn [orderly].
  - intros [-> Hok]. cbn [handleCertificateChange doMeshConfigUpdateChan].
    case_decide; [by eauto|]. destruct spec as [s|].
    + destruct (Hok s eq_refl) as [Hs ?].
      destruct (createAndStoreGatewayCert_ok at_ st s) as (st' & -> & Hg & Hf & _ & _ & Ea); [apply Hinv|done|].
      eexists. split; [done|]. split; [done| |simpl; rewrite Ea; apply Hinv]. by intros s' [= <-].
    + assert (∃ st' r, match gs_spec st with
        | Some cur => removeCertAndSecret no_faults st (igc_SubjectAltNames cur) (igc_Secret cur)
        | None => Ret (st, Ok tt) end = Ret (st', r) ∧ issuers_are good (gs_manager st') ∧
        gs_accessCertCache st' = gs_accessCertCache st) as (st' & r & -> & Hg & Ea).
      { destruct (gs_spec st) as [cur|] eqn:Ecur; [|exists st, (Ok tt); split; [done|split; [apply Hinv|done]]].
        destruct (gi_spec _ Hinv cur Ecur) as [[[[cn Hcn] _] _] _].
        unfold removeCertAndSecret. destruct (deleteSecret _ _ _); [|do 2 eexists; split; [done|split; [apply Hinv|done]]].
        destruct (igc_SubjectAltNames cur); [done|]. do 2 eexists; split; [done|split; [apply Hinv|done]]. }
      eexists. split; [done|]. split; [done|done|]. simpl. rewrite Ea. apply Hinv.
  - intros Hok. by apply doAccessCertChan_inv.
  - intros ->. destruct (RotationHandled_inv at_ st Hinv) as (st' & ? & ? & _). by exists st'.
  - intros Hkc. cbn [handleCertificateChange]. unfold rotateOne.
    destruct (issue_good (gs_manager st) at_ kc.1 (cert_certType kc.2) (rotateOptions kc.1 kc.2))
      as (m & c & pub & -> & Hm & Hc & Hpub); [apply Hinv|].
    eexists. split; [done|]. split; [done| |apply Hinv]. intros s Es.
    destruct (gi_spec _ Hinv s Es) as [Hok (cn & c0 & Hcn & Hcache & Hname & Hsec)]. split; [done|].
    destruct (decide (cn = kc.1)) as [Hkey|Hkey].
    2: { exists cn, c0. simpl. rewrite Hc, lookup_insert_ne by done. split_and!; [done..|].
         destruct Hsec as [?|(x & ? & ?)]; [by left|]. right. exists x. set_solver. }
    exists cn, c. simpl. rewrite Hc, Hkey, lookup_insert_eq. rewrite Hkey in *.
    destruct Hpub as [[Hsame ->]|[Hfull ->]].
    + simplify_eq. split_and!; [done..|]. rewrite app_nil_r. done.
    + assert (cert_CommonName c = kc.1) as Hcn'.
      { apply Hfull. unfold rotateOptions. rewrite decide_True; [done|]. symmetry. apply Hkc. apply Hok. done. }
      split_and!; [done..|]. right. exists c. split; [|done]. rewrite Hcache. set_solver.
  - intros Hres. cbn [handleCertificateChange].
    destruct (issue_good (gs_manager st) at_ prefix ct opts) as (m & c & pub & -> & Hm & Hc & Hpub); [apply Hinv|].
    eexists. split; [done|]. split; [done| |apply Hinv]. intros s Es.
    destruct (gi_spec _ Hinv s Es) as [Hok (cn & c0 & Hcn & Hcache & Hname & Hsec)]. split; [done|].
    exists cn, c0. simpl. rewrite Hc, lookup_insert_ne by (intros ->; by apply Hres, Hok). split_and!; [done..|].
    destruct Hsec as [?|(x & ? & ?)]; [by left|]. right. exists x. set_solver.
Qed.

(** The messages that wait are handled, one after the other. *)
Definition drain (ats : nat → moment) (n : nat) : list GatewayAction :=
  (λ i, RotationHandled (ats i) no_faults) <$> seq 0 n.

Lemma drain_inv ats n st :
  gateway_inv st →
  ∃ st', gateway_run st (drain ats n) = Ret st' ∧ gateway_inv st' ∧ gs_spec st' = gs_spec st ∧
    gs_rotated st' = drop n (gs_rotated st).
Proof.
  unfold drain. generalize 0%nat as i. revert st. induction n as [|n IH]; intros st i Hinv.
  { by exists st. }
  destruct (RotationHandled_inv (ats i) st Hinv) as (st1 & E1 & Hinv1 & Es1 & Er1).
  destruct (IH st1 (S i) Hinv1) as (st2 & E2 & Hinv2 & Es2 & Er2). exists st2.
  unfold gateway_run in *. cbn [seq fmap list_fmap foldO]. rewrite E1. simpl. rewrite E2, Es2, Er2, Es1, Er1.
  split_and!; [done..|]. destruct (gs_rotated st); simpl; [by rewrite drop_nil|done].
Qed.

Lemma provision_inv at_ m secrets spec :
  issuers_are good m → (∀ s, spec = Some s → gateway_ok s) →
  ∃ st, provisionIngressGatewayCert at_ no_faults m secrets spec = Ret (Ok st) ∧ gateway_inv st.
Proof.
  intros Hm Hspec. unfold provisionIngressGatewayCert. destruct spec as [s|].
  - destruct (Hspec s eq_refl) as [Hs ?].
    destruct (createAndStoreGatewayCert_ok at_ (mkGatewayState m secrets (Some s) ∅ [] []) s)
      as (st & -> & Hg & Hf & Es & _ & Ea); [done..|].
    exists st. split; [done|]. split; [done| |]; [by rewrite Es; intros s' [= <-]|]. rewrite Ea.
    intros k c Hc. simpl in Hc. by apply lookup_empty_Some in Hc.
  - eexists. split; [done|]. split; [done..|]. intros k c Hc. simpl in Hc. by apply lookup_empty_Some in Hc.
Qed.

(** The manager leaves the certificates with a reserved name alone. *)
Definition quiet (a : GatewayAction) : Prop :=
  match a with
  | ManagerRotates _ kc => ¬ reserved kc.1
  | OtherIssues _ prefix _ _ => ¬ reserved prefix
  | _ => True
  end.

Lemma with_manager_inv st m k c :
  gateway_inv st → issuers_are good m → mgr_cache m = <[k := c]> (mgr_cache (gs_manager st)) → ¬ reserved k →
  gateway_inv (with_issued st m (gs_secrets st) []).
Proof.
  intros Hinv Hm Hc Hk. apply (gateway_inv_frame st); [done..|simpl; by rewrite app_nil_r| |done|exact (gi_access _ Hinv)].
  intros k' Hk'. simpl. rewrite Hc. apply lookup_insert_ne. by intros ->.
Qed.

Lemma unsubscribed_inv st a : gateway_inv st → quiet a → ∃ st', unsubscribed st a = Ret st' ∧ gateway_inv st'.
Proof.
  intros Hinv. destruct a as [| | |at_ kc|at_ prefix ct opts]; cbn [quiet unsubscribed]; [by eauto..| |]; intros Hq.
  - unfold rotateOne. destruct (issue_good (gs_manager st) at_ kc.1 (cert_certType kc.2) (rotateOptions kc.1 kc.2))
      as (m & c & pub & -> & Hm & Hc & _); [apply Hinv|]. eexists. split; [done|]. by eapply with_manager_inv.
  - destruct (issue_good (gs_manager st) at_ prefix ct opts) as (m & c & pub & -> & Hm & Hc & _); [apply Hinv|].
    eexists. split; [done|]. by eapply with_manager_inv.
Qed.

Lemma foldO_inv_returns {A} (f : GatewayState → A → outcome GatewayState) (ok : A → Prop) st l :
  (∀ st a, gateway_inv st → ok a → ∃ st', f st a = Ret st' ∧ gateway_inv st') →
  gateway_inv st → Forall ok l → ∃ st', foldO f st l = Ret st' ∧ gateway_inv st'.
Proof.
  intros Hstep Hinv Hl. revert st Hinv. induction Hl as [|a l Ha _ IH]; intros st Hinv; [by exists st|].
  destruct (Hstep st a Hinv Ha) as (st1 & E1 & Hinv1). destruct (IH st1 Hinv1) as (st' & E & ?).
  exists st'. simpl. by rewrite E1.
Qed.

End gateway.

(** *** AccessCerts *)

(** The events of an AccessCert that is edited, from its version [old] on. *)
Fixpoint edits (old : AccessCert) (l : list (moment * faults * AccessCert)) : list GatewayAction :=
  match l with
  | [] => []
  | (at_, ft, new) :: l => AccessCertChanged at_ ft true (Some old) (Some new) :: edits new l
  end.

(** C34. An AccessCert whose secret does not exist, because it could not be issued when it
    was created, cannot be repaired: before a new version is issued the secret of the
    old one is deleted, which fails, so no edit has a certificate issued or a secret
    written. *)
Theorem failed_access_cert_stuck (st : GatewayState) (old : AccessCert)
    (l : list (moment * faults * AccessCert)) :
  Forall (λ c, acs_SubjectAltNames (acert_Spec c) ≠ [] ∧
               gs_secrets st !! secret_key (acs_Secret (acert_Spec c)) = None) (old :: l.*2) →
  ∃ st' statuses, gateway_run st (edits old l) = Ret st' ∧ gs_secrets st' = gs_secrets st ∧
    gs_manager st' = gs_manager st ∧ gs_statuses st' = gs_statuses st ++ statuses ∧
    statuses.*1 = acert_Meta <$> l.*2 ∧ Forall (λ s, ∃ e, s.2 = StatusError e) statuses.
Proof.
  revert st old. induction l as [|[[at_ ft] new] l IH]; intros st old Hall.
  { exists st, []. by rewrite app_nil_r. }
  csimpl in *. apply Forall_cons in Hall as [[Hsan Hsec] Hall].
  assert (∃ st1 e, handleCertificateChange st (AccessCertChanged at_ ft true (Some old) (Some new)) = Ret st1 ∧
    gs_secrets st1 = gs_secrets st ∧ gs_manager st1 = gs_manager st ∧
    gs_statuses st1 = gs_statuses st ++ [(acert_Meta new, StatusError e)]) as (st1 & e & E1 & Es & Em & Et).
  { unfold handleCertificateChange, doAccessCertChan.
    destruct (acs_SubjectAltNames (acert_Spec old)) as [|cn rest] eqn:Esan; [done|].
    unfold removeAccessCert, removeCertAndSecret, deleteSecret. simpl. rewrite Hsec.
    destruct (ft_delete ft) as [e|]; simpl; by do 2 eexists. }
  destruct (IH st1 new) as (st' & statuses & E' & Es' & Em' & Et' & Hm & Hst); [by rewrite Es|].
  exists st', ((acert_Meta new, StatusError e) :: statuses). unfold gateway_run in *. cbn [foldO].
  rewrite E1. simpl. rewrite Es', Em', Et', Es, Em, Et, <-app_assoc. split_and!; [done..|by csimpl; f_equal|].
  constructor; [by eexists|done].
Qed.

(** *** Names that are used twice *)

Lemma issueAndStore_Ret at_ ft st cn ct secret st' r :
  issueAndStore at_ ft st cn ct secret = Ret (st', r) →
  gs_spec st' = gs_spec st ∧ gs_accessCertCache st' = gs_accessCertCache st ∧
  ∀ k, k ≠ secret_key secret → gs_secrets st' !! k = gs_secrets st !! k.
Proof.
  unfold issueAndStore. intros ([[m ri] pub] & _ & H)%bind_Ret. destruct ri as [c|e]; [|by injection H as <- <-].
  unfold storeCertInSecret in H.
  destruct (ft_create ft); [|destruct (gs_secrets st !! _); [destruct (ft_update ft)|]];
    injection H as <- <-; (split_and!; [done..|]); intros k Hne; simpl; by rewrite ?lookup_insert_ne.
Qed.

(** The actions by which certificates are renewed. *)
Definition renewal (a : GatewayAction) : Prop :=
  match a with
  | RotationHandled _ _ | ManagerRotates _ _ | OtherIssues _ _ _ _ => True
  | _ => False
  end.

(** An AccessCert with the name of the ingress gateway is not renewed: whatever is
    rotated, the message is taken for the gateway, and the secret of the AccessCert
    keeps the certificate it has until that expires, and after. *)
Theorem shared_name_never_renewed (st st' : GatewayState) (s : IngressGatewayCertSpec) (cn : string)
    (a : AccessCert) (acts : list GatewayAction) :
  gs_spec st = Some s → head (igc_SubjectAltNames s) = Some cn →
  gs_accessCertCache st !! cn = Some a →
  let k := secret_key (acs_Secret (acert_Spec a)) in
  k ≠ secret_key (igc_Secret s) →
  (∀ n b, gs_accessCertCache st !! n = Some b → n ≠ cn → secret_key (acs_Secret (acert_Spec b)) ≠ k) →
  Forall renewal acts → gateway_run st acts = Ret st' → gs_secrets st' !! k = gs_secrets st !! k.
Proof.
  intros Hs Hcn Ha k Hk Hother Hacts Hrun.
  apply (foldO_inv handleCertificateChange (λ st1, gs_spec st1 = gs_spec st ∧
    gs_accessCertCache st1 = gs_accessCertCache st ∧ gs_secrets st1 !! k = gs_secrets st !! k) st acts st') in Hrun as (_ & _ & ?);
    [done| |done].
  intros st1 act st2 Hin (Es & Ea & Ek) Hstep. rewrite Forall_forall in Hacts. specialize (Hacts act Hin).
  destruct act as [| |at_ ft|at_ kc|at_ prefix ct opts]; try done.
  2: { apply bind_Ret in Hstep as ([m pub] & _ & [= <-]). done. }
  2: { apply bind_Ret in Hstep as ([[m r] pub] & _ & [= <-]). done. }
  simpl in Hstep. destruct (gs_rotated st1) as [|cert rest]; [by injection Hstep as <-|].
  unfold doCertRotateChan in Hstep. cbn [gs_spec gs_accessCertCache] in Hstep. rewrite Es, Hs in Hstep.
  destruct (igc_SubjectAltNames s) as [|cn' sans] eqn:Esan; [done|]. simpl in Hcn. injection Hcn as ->.
  case_decide as Hc.
  - apply bind_Ret in Hstep as ([st3 r] & Hstep & [= <-]). unfold createAndStoreGatewayCert in Hstep.
    rewrite Esan in Hstep. destruct (ParseDuration _); [|by injection Hstep as <- _].
    case_decide; [by injection Hstep as <- _|]. apply issueAndStore_Ret in Hstep as (-> & -> & Hframe).
    split_and!; [done..|]. by rewrite Hframe.
  - rewrite Ea in Hstep. destruct (gs_accessCertCache st !! cert_CommonName cert) as [b|] eqn:Eb; [|by injection Hstep as <-].
    apply bind_Ret in Hstep as ([st3 r] & Hstep & [= <-]). unfold createAndStoreAccessCert in Hstep.
    destruct (acs_SubjectAltNames _); [by injection Hstep as <- _|].
    case_decide; [by injection Hstep as <- _|]. apply issueAndStore_Ret in Hstep as (-> & -> & Hframe).
    split_and!; [done..|]. rewrite Hframe; [done|]. intros E. by apply (Hother _ b Eb Hc).
Qed.

(** When the MeshConfig names another secret and another name, the old secret stays, and
    the manager goes on renewing the old certificate. *)
Lemma changed_spec_leaves_secret at_ ft st st' s s' :
  gs_spec st = Some s → secret_key (igc_Secret s') ≠ secret_key (igc_Secret s) →
  handleCertificateChange st (MeshConfigChanged at_ ft (Some s')) = Ret st' →
  gs_secrets st' !! secret_key (igc_Secret s) = gs_secrets st !! secret_key (igc_Secret s).
Proof.
  intros Hs Hne. simpl. case_decide; [by intros [= <-]|]. intros ([st1 r] & Hst & [= <-])%bind_Ret. simpl.
  unfold createAndStoreGatewayCert in Hst.
  destruct (igc_SubjectAltNames s'); [by injection Hst as <- _|].
  destruct (ParseDuration _); [|by injection Hst as <- _].
  case_decide; [by injection Hst as <- _|]. apply issueAndStore_Ret in Hst as (_ & _ & Hf). by apply Hf.
Qed.

(** ** Examples *)

Module GatewayWitness.
Import CertWitness.

Definition secret (name : string) : SecretReference := mkSecretReference name "osm-system".
Definition gateway : IngressGatewayCertSpec := mkIngressGatewayCertSpec ["gw.example"] "24h" (secret "gateway").
Definition access (cn name : string) : AccessCert := mkAccessCert (mkObjectMeta "demo" "ext") (mkAccessCertSpec [cn] (secret name)).

(** The copy of the gateway's certificate that a check made. *)
Definition copy : MeshCertificate := mkMeshCertificate "gw.example" [] "" 0 "" "" "" "" "" "" CertType_IngressGateway.

Definition acts : list GatewayAction :=
  [ OtherIssues (at_second 1 0 1) "web.shop" CertType_Service [];
    AccessCertChanged (at_second 2 0 2) no_faults true None (Some (access "ext.example" "ext"));
    ManagerRotates (at_second 40 0 3) ("gw.example", copy);
    ManagerRotates (at_second 40 0 4) ("ext.example", root "ext.example") ].

Lemma gateway_manager_good : issuers_are good manager.
Proof.
  exists (tresor_issuer "a"), (tresor_issuer "a"). split_and!; [reflexivity|reflexivity|apply tresor_good|apply tresor_good].
Qed.

Definition reserved (cn : string) : Prop := cn = "gw.example".
Definition kept (k : string * string) : Prop := k = ("osm-system", "gateway").

Lemma gateway_is_ok : gateway_ok reserved kept gateway.
Proof. split_and!; [split_and!; [by eexists|by eexists|done..]|by intros cn [= <-]|done]. Qed.

Lemma acts_orderly : Forall (orderly reserved kept) acts.
Proof.
  unfold acts. rewrite !Forall_cons, Forall_nil. unfold orderly, reserved. split_and!; try done.
  intros c [?|[= <-]]; [done|]. split; [by eexists|]. done.
Qed.

(** The gateway and an AccessCert with its name. *)
Definition shared : GatewayState :=
  match provisionIngressGatewayCert (at_second 0 0 1) no_faults manager ∅ (Some gateway) with
  | Ret (Ok st) =>
    match gateway_run st [AccessCertChanged (at_second 1 0 2) no_faults true None (Some (access "gw.example" "ext"))] with
    | Ret st => st
    | Panic => st
    end
  | _ => mkGatewayState manager ∅ None ∅ [] []
  end.
Definition renewals : list GatewayAction :=
  [ManagerRotates (at_second 40 0 3) ("gw.example", copy); RotationHandled (at_second 41 0 4) no_faults].
Definition renewed : GatewayState := match gateway_run shared renewals with Ret st => st | Panic => shared end.

Lemma shared_access : gs_accessCertCache shared = {["gw.example" := access "gw.example" "ext"]}.
Proof. vm_compute. reflexivity. Qed.

Lemma renewed_Ret : gateway_run shared renewals = Ret renewed.
Proof.
  assert (match gateway_run shared renewals with Ret _ => true | Panic => false end = true) as Hr
    by (vm_compute; reflexivity).
  unfold renewed. by destruct (gateway_run shared renewals).
Qed.
End GatewayWitness.

Import GatewayWitness.


(** A rotation before the goroutine has subscribed is lost: no message waits, and the secret
    does not hold the certificate that the manager has. *)
Example gap_rotation_lost :
  let lost :=
    r ← provisionIngressGatewayCert (CertWitness.at_second 0 0 0) no_faults CertWitness.manager ∅ (Some gateway);
    match r with
    | Ok st0 => unsubscribed_run st0 [ManagerRotates (CertWitness.at_second 40 0 3) ("gw.example", copy)]
    | Err _ => Panic
    end in
  match lost with
  | Ret st =>
    gs_rotated st = [] ∧
    bool_decide (gs_secrets st !! ("osm-system", "gateway") =
                 tlsSecretData <$> mgr_cache (gs_manager st) !! "gw.example") = false
  | Panic => False
  end.
Proof. vm_compute. done. Qed.

Lemma failed_access_cert_stuck_witness :
  let st := mkGatewayState CertWitness.manager ∅ None ∅ [] [] in
  let l := [(CertWitness.at_second 1 0 1, no_faults, access "ext.example" "ext")] in
  ∃ st' statuses, gateway_run st (edits (access "ext.example" "") l) = Ret st' ∧ gs_secrets st' = gs_secrets st ∧
    gs_manager st' = gs_manager st ∧ gs_statuses st' = gs_statuses st ++ statuses ∧
    statuses.*1 = acert_Meta <$> l.*2 ∧ Forall (λ s, ∃ e, s.2 = StatusError e) statuses.
Proof.
  intros st l. apply (failed_access_cert_stuck st).
  apply Forall_cons. split; [by split|]. apply Forall_cons. split; [by split|]. by apply Forall_nil.
Defined.

Lemma shared_name_never_renewed_witness :
  gs_secrets renewed !! ("osm-system", "ext") = gs_secrets shared !! ("osm-system", "ext").
Proof.
  apply (shared_name_never_renewed shared renewed gateway "gw.example" (access "gw.example" "ext") renewals).
  - vm_compute. reflexivity.
  - reflexivity.
  - vm_compute. reflexivity.
  - discriminate.
  - intros n b Hb Hne. rewrite shared_access in Hb. by apply lookup_singleton_Some in Hb as [<- _].
  - repeat constructor.
  - apply renewed_Ret.
Defined.
