(* ===== verification/Pipy.v ===== *)
(** * pkg/sidecar/providers/pipy/repo: the configuration of a pipy sidecar

    types.go, policy.go and ratelimit.go: the configuration that is sent to a
    sidecar as JSON, and the methods that build it.  The code reaches every object
    through one map entry, or through two that name the same key, and assigns
    through the pointer it got; here an object is read from its entry, changed, and
    put back.  A map or slice that the code makes with its first element is a plain
    map or list: the empty one is the nil one. *)

From S2P Require Import Prelude GoStrings Net Service PolicyApi TrafficPolicy K8s K8sClient.

(** ** Data *)

Definition URIMatchType : Type := string.
Definition PathMatchRegex : URIMatchType := "Regex".
Definition PathMatchExact : URIMatchType := "Exact".
Definition PathMatchPrefix : URIMatchType := "Prefix".

(** The configuration of a plugin is JSON that is passed on; the pointer to it can be
    nil. *)
Definition RawExtension : Type := string.
Definition Plugins : Type := option (gmap string (option RawExtension)).

(** [d.Seconds()], the floating-point number of seconds of a duration in nanoseconds,
    which the code only stores. *)
Inductive Seconds := mkSeconds (nanoseconds : Z).

Record HTTPMatchRule := mkHTTPMatchRule {
  hmr_Path : string;
  hmr_Type : URIMatchType;
  hmr_Headers : gmap string string;
  hmr_Methods : list string;
  hmr_allowedAnyService : bool;
  hmr_allowedAnyMethod : bool;
}.

#[global] Instance HTTPMatchRule_eq_dec : EqDecision HTTPMatchRule.
Proof. solve_decision. Defined.

Record HTTPRouteRule := mkHTTPRouteRule {
  hrr_Match : HTTPMatchRule;
  hrr_TargetClusters : gmap string Z;
  hrr_AllowedServices : list string;
}.

Record SourceSecuritySpec := mkSourceSecuritySpec {
  sss_MTLS : bool;
  sss_SkipClientCertValidation : bool;
  sss_AuthenticatedPrincipals : list string;
}.

Record Certificate := mkCertificate {
  crt_OsmIssued : option bool;
  crt_CommonName : option string;
  crt_SubjectAltNames : list string;
  crt_Expiration : string;
  crt_CertChain : string;
  crt_PrivateKey : string;
  crt_IssuingCA : string;
}.

Definition zero_Certificate : Certificate := mkCertificate None None [] "" "" "" "".

Record DestinationSecuritySpec := mkDestinationSecuritySpec {
  dss_SourceCert : option Certificate;
}.

(** *** Rate limits (ratelimit.go) *)

Record TCPLocalRateLimit := mkTCPLocalRateLimit {
  tl_Connections : Z;
  tl_StatTimeWindow : Z;
  tl_Burst : Z;
}.

Record TCPRateLimit := mkTCPRateLimit {
  trl_Local : option TCPLocalRateLimit;
}.

Record HTTPLocalRateLimit := mkHTTPLocalRateLimit {
  hl_Requests : Z;
  hl_StatTimeWindow : Z;
  hl_Burst : Z;
  hl_ResponseStatusCode : Z;
  hl_ResponseHeadersToAdd : list HTTPHeaderValue;
}.

Record HTTPRateLimit := mkHTTPRateLimit {
  hrl_Local : option HTTPLocalRateLimit;
}.

Record HTTPPerRouteRateLimit := mkHTTPPerRouteRateLimit {
  hprl_Local : option HTTPLocalRateLimit;
}.

(** *** Inbound *)

Record InboundHTTPRouteRule := mkInboundHTTPRouteRule {
  ihrr_Rule : HTTPRouteRule;
  ihrr_RateLimit : option HTTPPerRouteRateLimit;
}.

Record InboundHTTPRouteRules := mkInboundHTTPRouteRules {
  ihrs_RouteRules : list InboundHTTPRouteRule;
  ihrs_Plugins : Plugins;
  ihrs_HTTPRateLimit : option HTTPRateLimit;
  ihrs_AllowedEndpoints : gmap string string;
}.

Record InboundTCPServiceRouteRules := mkInboundTCPServiceRouteRules {
  itsr_TargetClusters : gmap string Z;
  itsr_Plugins : Plugins;
}.

Record InboundTrafficMatch := mkInboundTrafficMatch {
  itm_Port : Z;
  itm_Protocol : string;
  itm_SourceIPRanges : gmap string (option SourceSecuritySpec);
  itm_HTTPHostPort2Service : gmap string string;
  itm_HTTPServiceRouteRules : gmap string InboundHTTPRouteRules;
  itm_TCPServiceRouteRules : option InboundTCPServiceRouteRules;
  itm_TCPRateLimit : option TCPRateLimit;
}.

Record InboundTrafficPolicy := mkInboundTrafficPolicy {
  pitp_TrafficMatches : gmap Z InboundTrafficMatch;
  pitp_ClustersConfigs : gmap string (gmap string Z);
}.

(** *** Outbound *)

(** [OutboundHTTPRouteRule] is an [HTTPRouteRule]. *)
Record OutboundHTTPRouteRules := mkOutboundHTTPRouteRules {
  ohrs_RouteRules : list HTTPRouteRule;
  ohrs_ServiceIdentity : string;
  ohrs_EgressForwardGateway : option string;
  ohrs_Plugins : Plugins;
}.

Record OutboundTCPServiceRouteRules := mkOutboundTCPServiceRouteRules {
  otsr_TargetClusters : gmap string Z;
  otsr_AllowedEgressTraffic : bool;
  otsr_EgressForwardGateway : option string;
  otsr_Plugins : Plugins;
}.

Record OutboundTrafficMatch := mkOutboundTrafficMatch {
  otm_DestinationIPRanges : gmap string (option DestinationSecuritySpec);
  otm_Port : Z;
  otm_Protocol : string;
  otm_HTTPHostPort2Service : gmap string string;
  otm_HTTPServiceRouteRules : gmap string OutboundHTTPRouteRules;
  otm_TCPServiceRouteRules : option OutboundTCPServiceRouteRules;
}.

Record WeightedZoneEndpoint := mkWeightedZoneEndpoint {
  wze_Weight : Z;
  wze_Cluster : string;
  wze_LBType : string;
  wze_ContextPath : string;
}.

Record TCPConnectionSettings := mkTCPConnectionSettings {
  ptcs_MaxConnections : option Z;
  ptcs_ConnectTimeout : option Seconds;
}.

Record HTTPCircuitBreaking := mkHTTPCircuitBreaking {
  phcb_StatTimeWindow : option Seconds;
  phcb_MinRequestAmount : Z;
  phcb_DegradedTimeWindow : option Seconds;
  phcb_SlowTimeThreshold : option Seconds;
  phcb_SlowAmountThreshold : option Z;
  phcb_SlowRatioThreshold : option Z;
  phcb_ErrorAmountThreshold : option Z;
  phcb_ErrorRatioThreshold : option Z;
  phcb_DegradedStatusCode : option Z;
  phcb_DegradedResponseContent : option string;
}.

Record HTTPConnectionSettings := mkHTTPConnectionSettings {
  phcs_MaxRequests : option Z;
  phcs_MaxRequestsPerConnection : option Z;
  phcs_MaxPendingRequests : option Z;
  phcs_MaxRetries : option Z;
  phcs_CircuitBreaking : option HTTPCircuitBreaking;
}.

Record ConnectionSettings := mkConnectionSettings {
  pcs_TCP : option TCPConnectionSettings;
  pcs_HTTP : option HTTPConnectionSettings;
}.

Record RetryPolicy := mkRetryPolicy {
  prp_RetryOn : string;
  prp_PerTryTimeout : option Seconds;
  prp_NumRetries : option Z;
  prp_RetryBackoffBaseInterval : option Seconds;
}.

Record ClusterConfigs := mkClusterConfigs {
  cc_Endpoints : gmap string WeightedZoneEndpoint;
  cc_ConnectionSettings : option ConnectionSettings;
  cc_RetryPolicy : option RetryPolicy;
  cc_SourceCert : option Certificate;
}.

Record EgressGatewayClusterConfigs := mkEgressGatewayClusterConfigs {
  egcc_ClusterConfigs : ClusterConfigs;
  egcc_Mode : string;
}.

(** [namedTrafficMatches] and [TrafficMatches] hold the same objects: the second map
    holds their names. *)
Record OutboundTrafficPolicy := mkOutboundTrafficPolicy {
  potp_namedTrafficMatches : gmap string OutboundTrafficMatch;
  potp_TrafficMatches : gmap Z (list string);
  potp_ClustersConfigs : gmap string ClusterConfigs;
}.

Record ForwardTrafficPolicy := mkForwardTrafficPolicy {
  ftp_ForwardMatches : gmap string (gmap string Z);
  ftp_EgressGateways : gmap string EgressGatewayClusterConfigs;
}.

(** A weighted cluster of the mesh with the retry policy of its route. *)
Record WeightedCluster := mkWeightedCluster {
  pwc_WeightedCluster : Service.WeightedCluster;
  pwc_RetryPolicy : option RetryPolicySpec;
}.

(** *** The settings of the MeshConfig that a sidecar gets *)

Record UpstreamDNSServers := mkUpstreamDNSServers {
  uds_Primary : option string;
  uds_Secondary : option string;
}.

Record PipySpec := mkPipySpec {
  psp_SidecarLogLevel : string;
  psp_SidecarTimeout : Z;
  psp_RemoteLoggingLevel : Z;
  psp_EnableEgress : bool;
  psp_enablePermissiveTrafficPolicyMode : bool;
  psp_HTTP1PerRequestLoadBalancing : bool;
  psp_HTTP2PerRequestLoadBalancing : bool;
  psp_EnableSidecarActiveHealthChecks : bool;
  psp_ClusterSet : gmap string string;
  (** [LocalDNSProxy]: nil, or with or without upstream servers. *)
  psp_LocalDNSProxy : option (option UpstreamDNSServers);
}.

(** The plugins of a service are pointers to the mount points of the plugin, which the
    services share: per service the names of the plugins, and per plugin its mount
    points with their configuration. *)
Record PluginPolicies := mkPluginPolicies {
  pp_services : gmap string (gset string);
  pp_mountPoints : gmap string (gmap string (option RawExtension));
}.

Record PipyConf := mkPipyConf {
  pc_Spec : PipySpec;
  pc_Inbound : option InboundTrafficPolicy;
  pc_Outbound : option OutboundTrafficPolicy;
  pc_Forward : option ForwardTrafficPolicy;
  pc_AllowedEndpoints : gmap string string;
  pc_Chains : option (gmap string (list string));
  pc_DNSResolveDB : gmap string (list string);
  pc_pluginPolicies : PluginPolicies;
}.

(** ** Rate limits *)

(** The switch on the unit; any other unit leaves zero. *)
Definition statTimeWindow (unit : string) : Z :=
  if decide (unit = "second") then 1
  else if decide (unit = "minute") then 60
  else if decide (unit = "hour") then 3600
  else 0.

Definition newTCPLocalRateLimit (spec : option TCPLocalRateLimitSpec) : option TCPLocalRateLimit :=
  spec ← spec;
  Some {| tl_Connections := tlr_Connections spec;
          tl_StatTimeWindow := statTimeWindow (tlr_Unit spec);
          tl_Burst := tlr_Burst spec |}.

Definition newTCPRateLimit (spec : option LocalRateLimitSpec) : option TCPRateLimit :=
  spec ← spec;
  match lrl_TCP spec with
  | None => None
  | Some tcp => Some {| trl_Local := newTCPLocalRateLimit (Some tcp) |}
  end.

Definition newHTTPHeaderValue (header : HTTPHeaderValue) : HTTPHeaderValue :=
  mkHTTPHeaderValue (hhv_Name header) (hhv_Value header).

Definition newHTTPLocalRateLimit (spec : option HTTPLocalRateLimitSpec) : option HTTPLocalRateLimit :=
  spec ← spec;
  Some {| hl_Requests := hlr_Requests spec;
          hl_StatTimeWindow := statTimeWindow (hlr_Unit spec);
          hl_Burst := hlr_Burst spec;
          hl_ResponseStatusCode := hlr_ResponseStatusCode spec;
          hl_ResponseHeadersToAdd := newHTTPHeaderValue <$> elems (hlr_ResponseHeadersToAdd spec) |}.

Definition newHTTPRateLimit (spec : option LocalRateLimitSpec) : option HTTPRateLimit :=
  spec ← spec;
  match lrl_HTTP spec with
  | None => None
  | Some http => Some {| hrl_Local := newHTTPLocalRateLimit (Some http) |}
  end.

Definition newHTTPPerRouteRateLimit (spec : option HTTPPerRouteRateLimitSpec) :
    option HTTPPerRouteRateLimit :=
  spec ← spec;
  Some {| hprl_Local := newHTTPLocalRateLimit (prl_Local spec) |}.

(** ** Match rules *)

Definition addHeaderMatch (hmr : HTTPMatchRule) (header headerRegexp : string) : HTTPMatchRule := {|
  hmr_Path := hmr_Path hmr; hmr_Type := hmr_Type hmr;
  hmr_Headers := <[header := headerRegexp]> (hmr_Headers hmr);
  hmr_Methods := hmr_Methods hmr;
  hmr_allowedAnyService := hmr_allowedAnyService hmr;
  hmr_allowedAnyMethod := hmr_allowedAnyMethod hmr |}.

Definition addMethodMatch (hmr : HTTPMatchRule) (method : string) : HTTPMatchRule :=
  if hmr_allowedAnyMethod hmr then hmr
  else
    let any := bool_decide (method = "*") in
    {| hmr_Path := hmr_Path hmr; hmr_Type := hmr_Type hmr; hmr_Headers := hmr_Headers hmr;
       hmr_Methods := if any then [] else hmr_Methods hmr ++ [method];
       hmr_allowedAnyService := hmr_allowedAnyService hmr;
       hmr_allowedAnyMethod := any |}.

(** [matchType] of util.go. *)
Definition matchType (t : PathMatchType) : URIMatchType :=
  match t with
  | TrafficPolicy.PathMatchExact => PathMatchExact
  | TrafficPolicy.PathMatchPrefix => PathMatchPrefix
  | TrafficPolicy.PathMatchRegex => PathMatchRegex
  end.

(** The block of util.go, repeated in every generator, that builds the match rule of
    a route. *)
Definition newHTTPMatch `{RangeOrder} (m : HTTPRouteMatch) : HTTPMatchRule :=
  let type := matchType (hrm_PathMatchType m) in
  let httpMatch := {|
    hmr_Path := if bool_decide (hrm_Path m = "") then RegexMatchAll else hrm_Path m;
    hmr_Type := if bool_decide (type = "") then PathMatchRegex else type;
    hmr_Headers := ∅; hmr_Methods := [];
    hmr_allowedAnyService := false; hmr_allowedAnyMethod := false |} in
  let httpMatch := foldl (λ h kv, addHeaderMatch h kv.1 kv.2) httpMatch
                     (range_map (default ∅ (hrm_Headers m))) in
  match elems (hrm_Methods m) with
  | [] => addMethodMatch httpMatch "*"
  | methods => foldl addMethodMatch httpMatch methods
  end.

(** ** Route rules *)

Definition newRouteRule (matchRule : HTTPMatchRule) : HTTPRouteRule := mkHTTPRouteRule matchRule ∅ [].

Definition addWeightedCluster (hrr : HTTPRouteRule) (clusterName : string) (weight : Z) : HTTPRouteRule := {|
  hrr_Match := hrr_Match hrr;
  hrr_TargetClusters := <[clusterName := weight]> (hrr_TargetClusters hrr);
  hrr_AllowedServices := hrr_AllowedServices hrr |}.

Definition addAllowedService (hrr : HTTPRouteRule) (serviceName : string) : HTTPRouteRule :=
  let m := hrr_Match hrr in
  if hmr_allowedAnyService m then hrr
  else
    let any := bool_decide (serviceName = "*") in
    {| hrr_Match := {|
         hmr_Path := hmr_Path m; hmr_Type := hmr_Type m; hmr_Headers := hmr_Headers m;
         hmr_Methods := hmr_Methods m; hmr_allowedAnyService := any;
         hmr_allowedAnyMethod := hmr_allowedAnyMethod m |};
       hrr_TargetClusters := hrr_TargetClusters hrr;
       hrr_AllowedServices := if any then [] else hrr_AllowedServices hrr ++ [serviceName] |}.

(** [hsrr, duplicate := hsrrs.newHTTPServiceRouteRule(matchRule)], and then [f] on
    [hsrr]: the first rule whose match is deeply equal, or a new one at the end. *)
Fixpoint newHTTPServiceRouteRule {R} (matchOf : R → HTTPMatchRule) (new : HTTPMatchRule → R)
    (matchRule : HTTPMatchRule) (f : bool → R → R) (rules : list R) : list R :=
  match rules with
  | [] => [f false (new matchRule)]
  | rule :: rules =>
    if decide (matchOf rule = matchRule) then f true rule :: rules
    else rule :: newHTTPServiceRouteRule matchOf new matchRule f rules
  end.

Definition newInboundRule (matchRule : HTTPMatchRule) : InboundHTTPRouteRule :=
  mkInboundHTTPRouteRule (newRouteRule matchRule) None.

Definition on_rule (f : HTTPRouteRule → HTTPRouteRule) (r : InboundHTTPRouteRule) : InboundHTTPRouteRule :=
  mkInboundHTTPRouteRule (f (ihrr_Rule r)) (ihrr_RateLimit r).

Definition setRateLimit (r : InboundHTTPRouteRule) (rateLimit : option HTTPPerRouteRateLimitSpec) :
    InboundHTTPRouteRule :=
  mkInboundHTTPRouteRule (ihrr_Rule r) (newHTTPPerRouteRateLimit rateLimit).

(** ** Inbound route rules *)

Definition zero_InboundHTTPRouteRules : InboundHTTPRouteRules := mkInboundHTTPRouteRules [] None None ∅.

Definition setHTTPServiceRateLimit (hrrs : InboundHTTPRouteRules) (rateLimit : option RateLimitSpec) :
    InboundHTTPRouteRules := {|
  ihrs_RouteRules := ihrs_RouteRules hrrs; ihrs_Plugins := ihrs_Plugins hrrs;
  ihrs_HTTPRateLimit := rl ← rateLimit; newHTTPRateLimit (rl_Local rl);
  ihrs_AllowedEndpoints := ihrs_AllowedEndpoints hrrs |}.

Definition setPlugins (hrrs : InboundHTTPRouteRules) (plugins : Plugins) : InboundHTTPRouteRules := {|
  ihrs_RouteRules := ihrs_RouteRules hrrs; ihrs_Plugins := plugins;
  ihrs_HTTPRateLimit := ihrs_HTTPRateLimit hrrs; ihrs_AllowedEndpoints := ihrs_AllowedEndpoints hrrs |}.

Definition setRules (hrrs : InboundHTTPRouteRules) (rules : list InboundHTTPRouteRule) :
    InboundHTTPRouteRules := {|
  ihrs_RouteRules := rules; ihrs_Plugins := ihrs_Plugins hrrs;
  ihrs_HTTPRateLimit := ihrs_HTTPRateLimit hrrs; ihrs_AllowedEndpoints := ihrs_AllowedEndpoints hrrs |}.

Definition addAllowedEndpoint (hrrs : InboundHTTPRouteRules) (address serviceName : string) :
    InboundHTTPRouteRules := {|
  ihrs_RouteRules := ihrs_RouteRules hrrs; ihrs_Plugins := ihrs_Plugins hrrs;
  ihrs_HTTPRateLimit := ihrs_HTTPRateLimit hrrs;
  ihrs_AllowedEndpoints :=
    match ihrs_AllowedEndpoints hrrs !! address with
    | Some _ => ihrs_AllowedEndpoints hrrs
    | None => <[address := serviceName]> (ihrs_AllowedEndpoints hrrs)
    end |}.

(** ** Inbound traffic matches *)

Definition zero_InboundTrafficMatch : InboundTrafficMatch := mkInboundTrafficMatch 0 "" ∅ ∅ ∅ None None.

(** The protocol of a match: lower case, and server-first TCP is TCP. *)
Definition setProtocol (protocol : string) : string :=
  let protocol := to_lower protocol in
  if bool_decide (protocol = ProtocolTCPServerFirst) then ProtocolTCP else protocol.

(** [tm.setProtocol(protocol); tm.setPort(port); tm.setTCPServiceRateLimit(rateLimit)] *)
Definition setMatch (itm : InboundTrafficMatch) (protocol : string) (port : Z)
    (rateLimit : option RateLimitSpec) : InboundTrafficMatch := {|
  itm_Port := uint16 port;
  itm_Protocol := setProtocol protocol;
  itm_SourceIPRanges := itm_SourceIPRanges itm;
  itm_HTTPHostPort2Service := itm_HTTPHostPort2Service itm;
  itm_HTTPServiceRouteRules := itm_HTTPServiceRouteRules itm;
  itm_TCPServiceRouteRules := itm_TCPServiceRouteRules itm;
  itm_TCPRateLimit := rl ← rateLimit; newTCPRateLimit (rl_Local rl) |}.

Definition addSourceIPRange (itm : InboundTrafficMatch) (ipRange : string)
    (sourceSpec : option SourceSecuritySpec) : InboundTrafficMatch := {|
  itm_Port := itm_Port itm; itm_Protocol := itm_Protocol itm;
  itm_SourceIPRanges :=
    match itm_SourceIPRanges itm !! ipRange with
    | Some _ => itm_SourceIPRanges itm
    | None => <[ipRange := sourceSpec]> (itm_SourceIPRanges itm)
    end;
  itm_HTTPHostPort2Service := itm_HTTPHostPort2Service itm;
  itm_HTTPServiceRouteRules := itm_HTTPServiceRouteRules itm;
  itm_TCPServiceRouteRules := itm_TCPServiceRouteRules itm;
  itm_TCPRateLimit := itm_TCPRateLimit itm |}.

Definition addHTTPHostPort2Service (itm : InboundTrafficMatch) (hostPort ruleName : string) :
    InboundTrafficMatch := {|
  itm_Port := itm_Port itm; itm_Protocol := itm_Protocol itm;
  itm_SourceIPRanges := itm_SourceIPRanges itm;
  itm_HTTPHostPort2Service := <[hostPort := ruleName]> (itm_HTTPHostPort2Service itm);
  itm_HTTPServiceRouteRules := itm_HTTPServiceRouteRules itm;
  itm_TCPServiceRouteRules := itm_TCPServiceRouteRules itm;
  itm_TCPRateLimit := itm_TCPRateLimit itm |}.

(** [hsrrs := tm.newHTTPServiceRouteRules(ruleName)], nil for the empty name. *)
Definition newHTTPServiceRouteRules (itm : InboundTrafficMatch) (ruleName : string) :
    option InboundHTTPRouteRules :=
  if bool_decide (ruleName = "") then None
  else Some (default zero_InboundHTTPRouteRules (itm_HTTPServiceRouteRules itm !! ruleName)).

Definition putRouteRules (itm : InboundTrafficMatch) (ruleName : string) (hrrs : InboundHTTPRouteRules) :
    InboundTrafficMatch := {|
  itm_Port := itm_Port itm; itm_Protocol := itm_Protocol itm;
  itm_SourceIPRanges := itm_SourceIPRanges itm;
  itm_HTTPHostPort2Service := itm_HTTPHostPort2Service itm;
  itm_HTTPServiceRouteRules := <[ruleName := hrrs]> (itm_HTTPServiceRouteRules itm);
  itm_TCPServiceRouteRules := itm_TCPServiceRouteRules itm;
  itm_TCPRateLimit := itm_TCPRateLimit itm |}.

(** [tsrr := tm.newTCPServiceRouteRules()], [tsrr.addWeightedCluster(name, weight)] and
    [tsrr.setPlugins(plugins)]. *)
Definition addTCPCluster (itm : InboundTrafficMatch) (clusterName : string) (weight : Z)
    (plugins : Plugins) : InboundTrafficMatch :=
  let tsrr := default (mkInboundTCPServiceRouteRules ∅ None) (itm_TCPServiceRouteRules itm) in
  {| itm_Port := itm_Port itm; itm_Protocol := itm_Protocol itm;
     itm_SourceIPRanges := itm_SourceIPRanges itm;
     itm_HTTPHostPort2Service := itm_HTTPHostPort2Service itm;
     itm_HTTPServiceRouteRules := itm_HTTPServiceRouteRules itm;
     itm_TCPServiceRouteRules := Some {|
       itsr_TargetClusters := <[clusterName := weight]> (itsr_TargetClusters tsrr);
       itsr_Plugins := plugins |};
     itm_TCPRateLimit := itm_TCPRateLimit itm |}.

(** ** Inbound policies *)

Definition zero_InboundTrafficPolicy : InboundTrafficPolicy := mkInboundTrafficPolicy ∅ ∅.

Definition newTrafficMatch (itp : InboundTrafficPolicy) (port : Z) : InboundTrafficMatch :=
  default zero_InboundTrafficMatch (pitp_TrafficMatches itp !! port).

Definition getTrafficMatch (itp : InboundTrafficPolicy) (port : Z) : option InboundTrafficMatch :=
  pitp_TrafficMatches itp !! port.

Definition putTrafficMatch (itp : InboundTrafficPolicy) (port : Z) (itm : InboundTrafficMatch) :
    InboundTrafficPolicy :=
  mkInboundTrafficPolicy (<[port := itm]> (pitp_TrafficMatches itp)) (pitp_ClustersConfigs itp).

(** The regular expression [:\d+$]. *)
Definition addrWithPort (address : string) : bool :=
  match rev (split ":" address) with
  | port :: _ :: _ => bool_decide (port ≠ "") && all_chars decimal_digit port
  | _ => false
  end.

(** The key of an endpoint: the address, with the port unless it has one. *)
Definition httpHostPort (address : string) (port : Z) : string :=
  if addrWithPort address then address else address +:+ ":" +:+ itoa port.

(** [itp.newClusterConfigs(name).addWeightedEndpoint(address, port, weight)] *)
Definition addClusterEndpoint (itp : InboundTrafficPolicy) (clusterName address : string) (port weight : Z) :
    InboundTrafficPolicy :=
  mkInboundTrafficPolicy (pitp_TrafficMatches itp)
    (<[clusterName := <[httpHostPort address port := weight]>
                        (default ∅ (pitp_ClustersConfigs itp !! clusterName))]> (pitp_ClustersConfigs itp)).

(** ** Outbound route rules and traffic matches *)

Definition zero_OutboundHTTPRouteRules : OutboundHTTPRouteRules := mkOutboundHTTPRouteRules [] "" None None.
Definition zero_OutboundTrafficMatch : OutboundTrafficMatch := mkOutboundTrafficMatch ∅ 0 "" ∅ ∅ None.
Definition zero_OutboundTrafficPolicy : OutboundTrafficPolicy := mkOutboundTrafficPolicy ∅ ∅ ∅.

Definition o_setRules (hrrs : OutboundHTTPRouteRules) (rules : list HTTPRouteRule) : OutboundHTTPRouteRules :=
  mkOutboundHTTPRouteRules rules (ohrs_ServiceIdentity hrrs) (ohrs_EgressForwardGateway hrrs)
    (ohrs_Plugins hrrs).
Definition setServiceIdentity (hrrs : OutboundHTTPRouteRules) (serviceIdentity : string) :
    OutboundHTTPRouteRules :=
  mkOutboundHTTPRouteRules (ohrs_RouteRules hrrs) serviceIdentity (ohrs_EgressForwardGateway hrrs)
    (ohrs_Plugins hrrs).
Definition setEgressForwardGateway (hrrs : OutboundHTTPRouteRules) (egressGateway : option string) :
    OutboundHTTPRouteRules :=
  mkOutboundHTTPRouteRules (ohrs_RouteRules hrrs) (ohrs_ServiceIdentity hrrs) egressGateway
    (ohrs_Plugins hrrs).
Definition o_setPlugins (hrrs : OutboundHTTPRouteRules) (plugins : Plugins) : OutboundHTTPRouteRules :=
  mkOutboundHTTPRouteRules (ohrs_RouteRules hrrs) (ohrs_ServiceIdentity hrrs)
    (ohrs_EgressForwardGateway hrrs) plugins.

(** [tm.setProtocol(protocol); tm.setPort(port)] on a new match. *)
Definition o_setMatch (otm : OutboundTrafficMatch) (protocol : string) (port : Z) : OutboundTrafficMatch := {|
  otm_DestinationIPRanges := otm_DestinationIPRanges otm;
  otm_Port := uint16 port;
  otm_Protocol := setProtocol protocol;
  otm_HTTPHostPort2Service := otm_HTTPHostPort2Service otm;
  otm_HTTPServiceRouteRules := otm_HTTPServiceRouteRules otm;
  otm_TCPServiceRouteRules := otm_TCPServiceRouteRules otm |}.

Definition addDestinationIPRange (destinationSpec : option DestinationSecuritySpec)
    (otm : OutboundTrafficMatch) (ipRange : string) : OutboundTrafficMatch := {|
  otm_DestinationIPRanges :=
    match otm_DestinationIPRanges otm !! ipRange with
    | Some _ => otm_DestinationIPRanges otm
    | None => <[ipRange := destinationSpec]> (otm_DestinationIPRanges otm)
    end;
  otm_Port := otm_Port otm; otm_Protocol := otm_Protocol otm;
  otm_HTTPHostPort2Service := otm_HTTPHostPort2Service otm;
  otm_HTTPServiceRouteRules := otm_HTTPServiceRouteRules otm;
  otm_TCPServiceRouteRules := otm_TCPServiceRouteRules otm |}.

Definition o_addHTTPHostPort2Service (otm : OutboundTrafficMatch) (hostPort ruleName : string) :
    OutboundTrafficMatch := {|
  otm_DestinationIPRanges := otm_DestinationIPRanges otm;
  otm_Port := otm_Port otm; otm_Protocol := otm_Protocol otm;
  otm_HTTPHostPort2Service := <[hostPort := ruleName]> (otm_HTTPHostPort2Service otm);
  otm_HTTPServiceRouteRules := otm_HTTPServiceRouteRules otm;
  otm_TCPServiceRouteRules := otm_TCPServiceRouteRules otm |}.

Definition o_newHTTPServiceRouteRules (otm : OutboundTrafficMatch) (ruleName : string) :
    option OutboundHTTPRouteRules :=
  if bool_decide (ruleName = "") then None
  else Some (default zero_OutboundHTTPRouteRules (otm_HTTPServiceRouteRules otm !! ruleName)).

Definition o_putRouteRules (otm : OutboundTrafficMatch) (ruleName : string) (hrrs : OutboundHTTPRouteRules) :
    OutboundTrafficMatch := {|
  otm_DestinationIPRanges := otm_DestinationIPRanges otm;
  otm_Port := otm_Port otm; otm_Protocol := otm_Protocol otm;
  otm_HTTPHostPort2Service := otm_HTTPHostPort2Service otm;
  otm_HTTPServiceRouteRules := <[ruleName := hrrs]> (otm_HTTPServiceRouteRules otm);
  otm_TCPServiceRouteRules := otm_TCPServiceRouteRules otm |}.

Definition o_newTCPServiceRouteRules (otm : OutboundTrafficMatch) : OutboundTCPServiceRouteRules :=
  default (mkOutboundTCPServiceRouteRules ∅ false None None) (otm_TCPServiceRouteRules otm).

Definition o_putTCPRouteRules (otm : OutboundTrafficMatch) (tsrr : OutboundTCPServiceRouteRules) :
    OutboundTrafficMatch := {|
  otm_DestinationIPRanges := otm_DestinationIPRanges otm;
  otm_Port := otm_Port otm; otm_Protocol := otm_Protocol otm;
  otm_HTTPHostPort2Service := otm_HTTPHostPort2Service otm;
  otm_HTTPServiceRouteRules := otm_HTTPServiceRouteRules otm;
  otm_TCPServiceRouteRules := Some tsrr |}.

Definition t_addWeightedCluster (tsrr : OutboundTCPServiceRouteRules) (clusterName : string) (weight : Z) :
    OutboundTCPServiceRouteRules :=
  mkOutboundTCPServiceRouteRules (<[clusterName := weight]> (otsr_TargetClusters tsrr))
    (otsr_AllowedEgressTraffic tsrr) (otsr_EgressForwardGateway tsrr) (otsr_Plugins tsrr).
Definition t_setPlugins (tsrr : OutboundTCPServiceRouteRules) (plugins : Plugins) :
    OutboundTCPServiceRouteRules :=
  mkOutboundTCPServiceRouteRules (otsr_TargetClusters tsrr) (otsr_AllowedEgressTraffic tsrr)
    (otsr_EgressForwardGateway tsrr) plugins.
Definition setAllowedEgressTraffic (tsrr : OutboundTCPServiceRouteRules) (allowed : bool) :
    OutboundTCPServiceRouteRules :=
  mkOutboundTCPServiceRouteRules (otsr_TargetClusters tsrr) allowed (otsr_EgressForwardGateway tsrr)
    (otsr_Plugins tsrr).
Definition t_setEgressForwardGateway (tsrr : OutboundTCPServiceRouteRules) (egressGateway : option string) :
    OutboundTCPServiceRouteRules :=
  mkOutboundTCPServiceRouteRules (otsr_TargetClusters tsrr) (otsr_AllowedEgressTraffic tsrr) egressGateway
    (otsr_Plugins tsrr).

(** ** Outbound policies *)

Definition namedPort (port : Z) (name : string) : string := itoa port +:+ "=" +:+ name.

(** The match, whether it existed, and the policy with it. *)
Definition o_newTrafficMatch (otp : OutboundTrafficPolicy) (port : Z) (name : string) :
    OutboundTrafficMatch * bool * OutboundTrafficPolicy :=
  let key := namedPort port name in
  match potp_namedTrafficMatches otp !! key with
  | Some tm => (tm, true, otp)
  | None =>
    (zero_OutboundTrafficMatch, false, {|
      potp_namedTrafficMatches := <[key := zero_OutboundTrafficMatch]> (potp_namedTrafficMatches otp);
      potp_TrafficMatches :=
        <[port := default [] (potp_TrafficMatches otp !! port) ++ [key]]> (potp_TrafficMatches otp);
      potp_ClustersConfigs := potp_ClustersConfigs otp |})
  end.

Definition o_putTrafficMatch (otp : OutboundTrafficPolicy) (port : Z) (name : string)
    (tm : OutboundTrafficMatch) : OutboundTrafficPolicy := {|
  potp_namedTrafficMatches := <[namedPort port name := tm]> (potp_namedTrafficMatches otp);
  potp_TrafficMatches := potp_TrafficMatches otp;
  potp_ClustersConfigs := potp_ClustersConfigs otp |}.

Definition zero_ClusterConfigs : ClusterConfigs := mkClusterConfigs ∅ None None None.

Definition newClusterConfigs (otp : OutboundTrafficPolicy) (clusterName : string) : ClusterConfigs :=
  default zero_ClusterConfigs (potp_ClustersConfigs otp !! clusterName).

Definition putClusterConfigs (otp : OutboundTrafficPolicy) (clusterName : string) (cc : ClusterConfigs) :
    OutboundTrafficPolicy := {|
  potp_namedTrafficMatches := potp_namedTrafficMatches otp;
  potp_TrafficMatches := potp_TrafficMatches otp;
  potp_ClustersConfigs := <[clusterName := cc]> (potp_ClustersConfigs otp) |}.

Definition addWeightedZoneEndpoint (cc : ClusterConfigs) (address : string) (port weight : Z)
    (cluster lbType contextPath : string) : ClusterConfigs := {|
  cc_Endpoints := <[httpHostPort address port := mkWeightedZoneEndpoint weight cluster lbType contextPath]>
                    (cc_Endpoints cc);
  cc_ConnectionSettings := cc_ConnectionSettings cc;
  cc_RetryPolicy := cc_RetryPolicy cc; cc_SourceCert := cc_SourceCert cc |}.

Definition addWeightedEndpoint (cc : ClusterConfigs) (address : string) (port weight : Z) : ClusterConfigs :=
  addWeightedZoneEndpoint cc address port weight "" "" "".

(** ** Connection settings and retries *)

Definition circuitBreaking (cb : PolicyApi.HTTPCircuitBreaking) : HTTPCircuitBreaking := {|
  phcb_StatTimeWindow := mkSeconds <$> hcb_StatTimeWindow cb;
  phcb_MinRequestAmount := hcb_MinRequestAmount cb;
  phcb_DegradedTimeWindow := mkSeconds <$> hcb_DegradedTimeWindow cb;
  phcb_SlowTimeThreshold := mkSeconds <$> hcb_SlowTimeThreshold cb;
  phcb_SlowAmountThreshold := hcb_SlowAmountThreshold cb;
  phcb_SlowRatioThreshold := hcb_SlowRatioThreshold cb;
  phcb_ErrorAmountThreshold := hcb_ErrorAmountThreshold cb;
  phcb_ErrorRatioThreshold := hcb_ErrorRatioThreshold cb;
  phcb_DegradedStatusCode := hcb_DegradedStatusCode cb;
  phcb_DegradedResponseContent := hcb_DegradedResponseContent cb |}.

Definition connectionSettings (cs : ConnectionSettingsSpec) : ConnectionSettings := {|
  pcs_TCP := (λ tcp, {|
    ptcs_MaxConnections := tcs_MaxConnections tcp;
    ptcs_ConnectTimeout := mkSeconds <$> tcs_ConnectTimeout tcp |}) <$> cs_TCP cs;
  pcs_HTTP := (λ http, {|
    phcs_MaxRequests := hcs_MaxRequests http;
    phcs_MaxRequestsPerConnection := hcs_MaxRequestsPerConnection http;
    phcs_MaxPendingRequests := hcs_MaxPendingRequests http;
    phcs_MaxRetries := hcs_MaxRetries http;
    phcs_CircuitBreaking := circuitBreaking <$> hcs_CircuitBreaking http |}) <$> cs_HTTP cs |}.

Definition setConnectionSettings (cc : ClusterConfigs) (cs : option ConnectionSettingsSpec) : ClusterConfigs :=
  mkClusterConfigs (cc_Endpoints cc) (connectionSettings <$> cs) (cc_RetryPolicy cc) (cc_SourceCert cc).

(** [retryPolicy.PerTryTimeout.Seconds()] dereferences the pointer, so does the base
    interval. *)
Definition setRetryPolicy (cc : ClusterConfigs) (retryPolicy : option RetryPolicySpec) :
    outcome ClusterConfigs :=
  let with_policy rp := mkClusterConfigs (cc_Endpoints cc) (cc_ConnectionSettings cc) rp (cc_SourceCert cc) in
  match retryPolicy with
  | None => Ret (with_policy None)
  | Some rp =>
    match rps_PerTryTimeout rp, rps_RetryBackoffBaseInterval rp with
    | Some perTryTimeout, Some retryBackoffBaseInterval =>
      Ret (with_policy (Some {|
        prp_RetryOn := rps_RetryOn rp;
        prp_PerTryTimeout := Some (mkSeconds perTryTimeout);
        prp_NumRetries := rps_NumRetries rp;
        prp_RetryBackoffBaseInterval := Some (mkSeconds retryBackoffBaseInterval) |}))
    | _, _ => Panic
    end
  end.

(** ** Forwarding *)

Definition zero_ForwardTrafficPolicy : ForwardTrafficPolicy := mkForwardTrafficPolicy ∅ ∅.

(** [forwardMatch := ftp.newForwardMatch(rule)] and [forwardMatch[name] = weight] *)
Definition newForwardMatch (ftp : ForwardTrafficPolicy) (rule : string) : ForwardTrafficPolicy :=
  mkForwardTrafficPolicy
    (<[rule := default ∅ (ftp_ForwardMatches ftp !! rule)]> (ftp_ForwardMatches ftp)) (ftp_EgressGateways ftp).
Definition setForwardWeight (ftp : ForwardTrafficPolicy) (rule clusterName : string) (weight : Z) :
    ForwardTrafficPolicy :=
  mkForwardTrafficPolicy
    (<[rule := <[clusterName := weight]> (default ∅ (ftp_ForwardMatches ftp !! rule))]>
       (ftp_ForwardMatches ftp)) (ftp_EgressGateways ftp).

(** The mode is that of the first call. *)
Definition newEgressGateway (ftp : ForwardTrafficPolicy) (clusterName mode : string) :
    EgressGatewayClusterConfigs :=
  default (mkEgressGatewayClusterConfigs zero_ClusterConfigs mode) (ftp_EgressGateways ftp !! clusterName).
Definition putEgressGateway (ftp : ForwardTrafficPolicy) (clusterName : string)
    (g : EgressGatewayClusterConfigs) : ForwardTrafficPolicy :=
  mkForwardTrafficPolicy (ftp_ForwardMatches ftp) (<[clusterName := g]> (ftp_EgressGateways ftp)).

(** ** Weights *)

Definition ActiveActiveLbType : string := "ActiveActive".
Definition FailOverLbType : string := "FailOver".

Definition set_weight (e : WeightedZoneEndpoint) (weight : Z) : WeightedZoneEndpoint :=
  mkWeightedZoneEndpoint weight (wze_Cluster e) (wze_LBType e) (wze_ContextPath e).

Definition accept_all_if_zero (e : WeightedZoneEndpoint) : WeightedZoneEndpoint :=
  if decide (wze_Weight e = 0%Z) then set_weight e ClusterWeightAcceptAll else e.

Definition rebalancedEndpoint (hasLocalEndpoints : bool) (e : WeightedZoneEndpoint) : WeightedZoneEndpoint :=
  if decide (wze_Cluster e ≠ "") then
    if decide (wze_LBType e = FailOverLbType) then
      set_weight e (if hasLocalEndpoints then ClusterWeightFailOver else ClusterWeightAcceptAll)
    else if decide (wze_LBType e = ActiveActiveLbType) then accept_all_if_zero e
    else e
  else accept_all_if_zero e.

(** Some endpoint is of this cluster. *)
Definition hasLocal (es : gmap string WeightedZoneEndpoint) : bool :=
  bool_decide (map_Exists (λ _ e, wze_Cluster e = "") es).

Definition rebalancedCluster (cc : ClusterConfigs) : ClusterConfigs :=
  mkClusterConfigs (rebalancedEndpoint (hasLocal (cc_Endpoints cc)) <$> cc_Endpoints cc)
    (cc_ConnectionSettings cc) (cc_RetryPolicy cc) (cc_SourceCert cc).

Definition rebalancedOutboundClusters (outbound : option OutboundTrafficPolicy) :
    option OutboundTrafficPolicy :=
  (λ otp, mkOutboundTrafficPolicy (potp_namedTrafficMatches otp) (potp_TrafficMatches otp)
            (rebalancedCluster <$> potp_ClustersConfigs otp)) <$> outbound.

Definition rebalancedWeights (weights : gmap string Z) : gmap string Z :=
  (λ w, if decide (w = 0%Z) then ClusterWeightAcceptAll else w) <$> weights.

Definition rebalancedGateway (g : EgressGatewayClusterConfigs) : EgressGatewayClusterConfigs :=
  let cc := egcc_ClusterConfigs g in
  mkEgressGatewayClusterConfigs
    (mkClusterConfigs (accept_all_if_zero <$> cc_Endpoints cc) (cc_ConnectionSettings cc)
       (cc_RetryPolicy cc) (cc_SourceCert cc)) (egcc_Mode g).

Definition rebalancedForwardClusters (forward : option ForwardTrafficPolicy) : option ForwardTrafficPolicy :=
  (λ ftp, mkForwardTrafficPolicy (rebalancedWeights <$> ftp_ForwardMatches ftp)
            (rebalancedGateway <$> ftp_EgressGateways ftp)) <$> forward.
