(* ===== verification/PipyPlugin.v ===== *)
(** * pkg/sidecar/providers/pipy/repo: plugin chains

    plugin.go, and the plugin lookups of pkg/catalog/plugin.go: which plugins are
    mounted where in a sidecar, in which order, and which configuration a traffic
    match gets.  [metav1.LabelSelectorAsSelector] is a parameter. *)

From S2P Require Import Prelude GoStrings Service PolicyApi K8s MeshConfig Pipy.

(** ** Resources (pkg/apis/plugin, pkg/trafficpolicy/plugin_types.go) *)

Record PluginSpec := mkPluginSpec {
  pls_Name : string;
  pls_Priority : option Z;
  pls_Script : string;
}.

Record ChainPluginSpec := mkChainPluginSpec {
  cps_Name : string;
  cps_Plugins : list string;
}.

Record PluginChain (LabelSelector : Type) := mkPluginChain {
  plc_Name : string;
  plc_Namespace : string;
  plc_Chains : list ChainPluginSpec;
  plc_PodSelector : option LabelSelector;
  plc_NamespaceSelector : option LabelSelector;
}.
Arguments mkPluginChain {LabelSelector} _ _ _ _ _.
Arguments plc_Name {LabelSelector} _.
Arguments plc_Namespace {LabelSelector} _.
Arguments plc_Chains {LabelSelector} _.
Arguments plc_PodSelector {LabelSelector} _.
Arguments plc_NamespaceSelector {LabelSelector} _.

(** [corev1.ObjectReference]. *)
Record ObjectReference := mkObjectReference {
  oref_Kind : string;
  oref_Namespace : string;
  oref_Name : string;
}.

Record PluginConfig := mkPluginConfig {
  plg_Name : string;
  plg_Namespace : string;
  plg_Plugin : string;
  plg_DestinationRefs : list ObjectReference;
  plg_Config : RawExtension;
}.

(** ** Catalog *)

Definition GetPlugins (enablePluginPolicy : bool) (plugins : list PluginSpec) : list Plugin :=
  if enablePluginPolicy then
    (λ p, mkPlugin (pls_Name p) (default 0%Z (pls_Priority p)) (pls_Script p) false) <$> plugins
  else [].

Definition GetPluginConfigs (enablePluginPolicy : bool) (configs : list PluginConfig) : list PluginConfig :=
  if enablePluginPolicy then configs else [].

Definition GetPluginChains {S} (enablePluginPolicy : bool) (chains : list (PluginChain S)) :
    list (PluginChain S) :=
  if enablePluginPolicy then chains else [].

(** ** Priorities *)

(** The value of a [float32] by its bit pattern: sign and magnitude, and whether it is
    not a number. *)
Definition float32_nan (bits : Z) : bool :=
  bool_decide (2139095040 < Z.land bits 2147483647)%Z.
Definition float32_key (bits : Z) : Z :=
  let magnitude := Z.land bits 2147483647 in
  if Z.testbit bits 31 then (- magnitude)%Z else magnitude.

(** [a > b] *)
Definition float32_gt (a b : Z) : bool :=
  negb (float32_nan a) && negb (float32_nan b) && bool_decide (float32_key b < float32_key a)%Z.

(** [PluginSlice.Less]: the higher priority first. *)
Definition plugin_less (a b : Plugin) : bool := float32_gt (pl_Priority a) (pl_Priority b).

(** ** Chains *)

Definition getPluginURI (name : string) : string := "plugins/" +:+ name +:+ ".js".

Section plugins.
Context {LabelSelector : Type} (LabelSelectorAsSelector : LabelSelector → option (labels → bool)).

(** The namespace is nil when it is not known; its labels are read only for a chain with
    a namespace selector. *)
Definition matchPluginChain (pluginChain : PluginChain LabelSelector) (ns : option Namespace) (pod : Pod) :
    outcome bool :=
  let matchPod (matchedNamespace : bool) :=
    match plc_PodSelector pluginChain with
    | None => matchedNamespace
    | Some s =>
      match LabelSelectorAsSelector s with
      | None => false
      | Some matches => matchedNamespace && matches (pod_Labels pod)
      end
    end in
  match plc_NamespaceSelector pluginChain with
  | None => Ret (matchPod true)
  | Some s =>
    match LabelSelectorAsSelector s with
    | None => Ret false
    | Some matches =>
      match ns with
      | None => Panic
      | Some ns => Ret (matchPod (matches (ns_Labels ns)))
      end
    end
  end.

(** [plugin2MountPoints], [mountPoint2Plugins], and whether the job is to be retried. *)
Record ChainAcc := mkChainAcc {
  ca_mountPoints : gmap string (gmap string (option RawExtension));
  ca_plugins : gmap string (gset string);
  ca_retry : bool;
}.

Definition mountPlugin (pluginSet : gset string) (chain : string) (acc : ChainAcc) (pluginName : string) :
    ChainAcc :=
  if bool_decide (pluginName ∈ pluginSet) then
    let mounts := default ∅ (ca_mountPoints acc !! pluginName) in
    {| ca_mountPoints :=
         <[pluginName := match mounts !! chain with Some _ => mounts | None => <[chain := None]> mounts end]>
           (ca_mountPoints acc);
       ca_plugins := <[chain := {[pluginName]} ∪ default ∅ (ca_plugins acc !! chain)]> (ca_plugins acc);
       ca_retry := ca_retry acc |}
  else mkChainAcc (ca_mountPoints acc) (ca_plugins acc) true.

Definition walkPluginChain (pluginChains : list (PluginChain LabelSelector)) (ns : option Namespace)
    (pod : Pod) (pluginSet : gset string) : outcome ChainAcc :=
  foldO (λ acc pluginChain,
    matched ← matchPluginChain pluginChain ns pod;
    Ret (if (matched : bool) then
           foldl (λ acc chain, foldl (mountPlugin pluginSet (cps_Name chain)) acc (cps_Plugins chain)) acc
             (plc_Chains pluginChain)
         else acc)) (mkChainAcc ∅ ∅ false) pluginChains.
End plugins.

(** ** Configurations *)

(** One PluginConfig: its configuration at every mount point of the plugin, and the
    plugin for each service it refers to. *)
Definition configurePlugin (pp : PluginPolicies) (pluginConfig : PluginConfig) : PluginPolicies :=
  match pp_mountPoints pp !! plg_Plugin pluginConfig with
  | None => pp
  | Some mounts => {|
      pp_services := foldl (λ services ref,
        if decide (oref_Kind ref = KindService) then
          let meshSvc := oref_Namespace ref +:+ "/" +:+ oref_Name ref in
          <[meshSvc := {[plg_Plugin pluginConfig]} ∪ default ∅ (services !! meshSvc)]> services
        else services) (pp_services pp) (plg_DestinationRefs pluginConfig);
      pp_mountPoints :=
        <[plg_Plugin pluginConfig := (λ _, Some (plg_Config pluginConfig)) <$> mounts]> (pp_mountPoints pp) |}
  end.

Definition walkPluginConfig (pluginConfigs : list PluginConfig)
    (plugin2MountPoint2Config : gmap string (gmap string (option RawExtension))) : PluginPolicies :=
  foldl configurePlugin (mkPluginPolicies ∅ plugin2MountPoint2Config) pluginConfigs.

(** The configurations of the plugins of the match's service at the mount point of the
    match.  The cases of the switch do not fall through: only exported services are
    mapped to the inbound mount points. *)
Definition getTrafficMatchPluginConfigs (pluginPolicies : PluginPolicies) (trafficMatch : string) :
    outcome Plugins :=
  match split "_" trafficMatch with
  | seg0 :: meshSvc :: _ :: seg3 :: _ =>
    let direct := if bool_decide (seg0 = "exp") then "inbound" else seg0 in
    let mountPoint := direct +:+ "-" +:+ seg3 in
    Ret (plugins ← pp_services pluginPolicies !! meshSvc;
         let configs : gmap string (option RawExtension) :=
           omap (λ mounts : gmap string (option RawExtension), mounts !! mountPoint)
             (filter (λ kv, kv.1 ∈ plugins) (pp_mountPoints pluginPolicies)) in
         if decide (configs = ∅) then None else Some configs)
  | _ => Panic
  end.

(** ** The chains of a sidecar *)

Section chains.
Context `{RangeOrder, SortOrder}.

Definition pluginURI (p : Plugin) : string :=
  if pl_BuildIn p then pl_Name p +:+ ".js" else getPluginURI (pl_Name p).

(** The plugins of a mount point: those of the MeshConfig, and the mounted ones. *)
Definition mountedPlugins (pluginPri : gmap string Z) (plugins : gset string) : list Plugin :=
  item ← range_set plugins;
  match pluginPri !! item with
  | Some pri => [mkPlugin item pri "" false]
  | None => []
  end.

Definition setSidecarChain (globalChains : gmap string (list Plugin)) (pluginPri : gmap string Z)
    (mountPoint2Plugins : gmap string (gset string)) : gmap string (list string) :=
  let pluginChains :=
    if decide (pluginPri = ∅) then globalChains
    else
      merge (λ items plugins,
        match items, plugins with
        | _, Some plugins => Some (default [] items ++ mountedPlugins pluginPri plugins)
        | items, None => items
        end) globalChains mountPoint2Plugins in
  omap (λ items : list Plugin,
    match items with
    | [] => None
    | items => Some (pluginURI <$> go_sort plugin_less items)
    end) pluginChains.
End chains.

(** ** Theorems *)

(** The configuration at the mount points of a plugin. *)
Lemma walkPluginConfig_mounts configs pp pl :
  pp_mountPoints (foldl configurePlugin pp configs) !! pl =
  match last (filter (λ c, plg_Plugin c = pl) configs) with
  | Some c => fmap (λ _, Some (plg_Config c)) <$> pp_mountPoints pp !! pl
  | None => pp_mountPoints pp !! pl
  end.
Proof.
  induction configs as [|c configs IH] using rev_ind; [done|].
  rewrite foldl_app, filter_app. simpl. unfold configurePlugin at 1.
  destruct (decide (plg_Plugin c = pl)) as [<-|Hne].
  - rewrite filter_cons_True, filter_nil, last_snoc by done.
    destruct (last _) as [c'|]; rewrite IH; destruct (pp_mountPoints pp !! _) as [m|] eqn:Em; simpl;
      rewrite ?lookup_insert_eq, ?IH, ?Em; simpl; try done.
    by rewrite <-map_fmap_compose.
  - rewrite filter_cons_False, filter_nil, app_nil_r by done.
    destruct (pp_mountPoints _ !! plg_Plugin c); simpl; [by rewrite lookup_insert_ne|done].
Qed.

(** The services that use a plugin share its configuration: whatever match asks, a
    plugin that has any PluginConfig is given the configuration of the last one in the
    list, also for a service that only an earlier PluginConfig refers to. *)
Theorem plugin_config_shared (configs : list PluginConfig)
    (mounts : gmap string (gmap string (option RawExtension))) (trafficMatch pl : string)
    (found : gmap string (option RawExtension)) (c : PluginConfig) (x : option RawExtension) :
  last (filter (λ c, plg_Plugin c = pl) configs) = Some c →
  getTrafficMatchPluginConfigs (walkPluginConfig configs mounts) trafficMatch = Ret (Some found) →
  found !! pl = Some x → x = Some (plg_Config c).
Proof.
  intros Hlast Hget Hx. unfold getTrafficMatchPluginConfigs in Hget.
  destruct (split "_" trafficMatch) as [|seg0 [|svc [|? [|seg3 ?]]]]; [done..|].
  injection Hget as Hget. destruct (pp_services _ !! svc) as [plugins|]; [|done]. simpl in Hget.
  case_decide; [done|]. injection Hget as <-. rewrite lookup_omap in Hx.
  apply bind_Some in Hx as (m & Hm & Hx). apply map_lookup_filter_Some in Hm as [Hm _].
  unfold walkPluginConfig in Hm. rewrite walkPluginConfig_mounts, Hlast in Hm.
  apply fmap_Some in Hm as (m0 & _ & ->). rewrite lookup_fmap in Hx. by apply fmap_Some in Hx as (? & _ & ->).
Qed.

(** The four mount points of a chain. *)
Definition mount_points : list string := ["inbound-tcp"; "inbound-http"; "outbound-tcp"; "outbound-http"].

Definition mounted_ok (pp : PluginPolicies) : Prop :=
  ∀ pl mounts mp, pp_mountPoints pp !! pl = Some mounts → mp ∉ mount_points → mounts !! mp = None.

Lemma match_name_split pre ns name port proto :
  free_of "_" pre → free_of "_" ns → free_of "_" name → free_of "_" proto →
  split "_" (pre +:+ "_" +:+ ns +:+ "/" +:+ name +:+ "_" +:+ itoa port +:+ "_" +:+ proto) =
  [pre; ns +:+ "/" +:+ name; itoa port; proto].
Proof.
  intros Hpre Hns Hname Hproto. rewrite split_app_lit by done. f_equal.
  replace (ns +:+ "/" +:+ name +:+ "_" +:+ itoa port +:+ "_" +:+ proto)
    with ((ns +:+ "/" +:+ name) +:+ "_" +:+ itoa port +:+ "_" +:+ proto) by by rewrite !app_assoc'.
  rewrite split_app_lit by (by rewrite !free_of_app). f_equal.
  rewrite split_app_lit by (by apply itoa_free). f_equal. by apply split_free.
Qed.

Lemma unmounted pp seg0 svc port proto :
  mounted_ok pp → (seg0 +:+ "-" +:+ proto) ∉ mount_points → seg0 ≠ "exp" →
  ∀ s, split "_" s = [seg0; svc; port; proto] → getTrafficMatchPluginConfigs pp s = Ret None.
Proof.
  intros Hok Hmp Hseg s Hs. unfold getTrafficMatchPluginConfigs. rewrite Hs.
  rewrite bool_decide_false by done. f_equal. destruct (pp_services pp !! svc); [|done]. simpl.
  rewrite decide_True; [done|]. apply map_eq. intros pl. rewrite lookup_omap, lookup_empty.
  destruct (filter _ _ !! pl) as [m|] eqn:E; [|done]. simpl.
  apply map_lookup_filter_Some in E as [E _]. by eapply Hok.
Qed.

(** The plugins of the inbound chains are not configured for traffic that enters
    through an ingress or an access control: the matches look for mount points that no
    chain has, and get nothing, while the matches of exported services get what
    inbound matches get. *)
Theorem ingress_plugins_unmounted (pp : PluginPolicies) (name ns proto : string) (port : Z) :
  mounted_ok pp → free_of "_" name → free_of "_" ns → free_of "_" proto →
  getTrafficMatchPluginConfigs pp (IngressTrafficMatchName name ns port proto) = Ret None ∧
  getTrafficMatchPluginConfigs pp (AccessControlTrafficMatchName name ns port proto) = Ret None ∧
  getTrafficMatchPluginConfigs pp (ExportedServiceTrafficMatchName name ns port proto) =
    getTrafficMatchPluginConfigs pp (InboundTrafficMatchName (mkMeshService ns name port port proto "")).
Proof.
  intros Hok Hname Hns Hproto. split_and!.
  - apply (unmounted pp "ingress" (ns +:+ "/" +:+ name) (itoa port) proto); [done| |done|].
    + intros H. repeat (apply elem_of_cons in H as [H|H]; [by injection H|]). by apply elem_of_nil in H.
    + by apply (match_name_split "ingress").
  - apply (unmounted pp "acl" (ns +:+ "/" +:+ name) (itoa port) proto); [done| |done|].
    + intros H. repeat (apply elem_of_cons in H as [H|H]; [by injection H|]). by apply elem_of_nil in H.
    + by apply (match_name_split "acl").
  - assert (split "_" (ExportedServiceTrafficMatchName name ns port proto) =
            ["exp"; ns +:+ "/" +:+ name; itoa port; proto]) as E1 by by apply (match_name_split "exp").
    assert (split "_" (InboundTrafficMatchName (mkMeshService ns name port port proto "")) =
            ["inbound"; ns +:+ "/" +:+ name; itoa port; proto]) as E2.
    { unfold InboundTrafficMatchName, MeshService_String. simpl. rewrite !app_assoc'.
      by apply (match_name_split "inbound"). }
    unfold getTrafficMatchPluginConfigs. by rewrite E1, E2.
Qed.

(** *** Order *)

Lemma plugin_less_weak_order l :
  (∀ p, p ∈ l → float32_nan (pl_Priority p) = false) → weak_order plugin_less l.
Proof.
  intros Hnan. unfold plugin_less, float32_gt. split.
  - intros x Hx. rewrite (Hnan x) by done. simpl. apply bool_decide_eq_false. lia.
  - intros x y z Hx Hy Hz. rewrite (Hnan x), (Hnan y), (Hnan z) by done. simpl.
    rewrite !bool_decide_eq_true. lia.
  - intros x y z Hx Hy Hz. rewrite (Hnan x), (Hnan y), (Hnan z) by done. simpl.
    rewrite !bool_decide_eq_true. lia.
Qed.

(** The chain of a mount point holds the plugins of the MeshConfig and the mounted
    ones, each once, by falling priority, when no priority is NaN. *)
Theorem setSidecarChain_sorted `{RangeOrder, SortOrder} (global : gmap string (list Plugin))
    (pri : gmap string Z) (mounted : gmap string (gset string)) (mp : string) (uris : list string) :
  setSidecarChain global pri mounted !! mp = Some uris →
  ∃ items, uris = pluginURI <$> items ∧
    items ≡ₚ default [] (global !! mp) ++ mountedPlugins pri (default ∅ (mounted !! mp)) ∧
    ((∀ p, p ∈ items → float32_nan (pl_Priority p) = false) →
     StronglySorted (λ a b, float32_gt (pl_Priority b) (pl_Priority a) = false) items).
Proof.
  unfold setSidecarChain. rewrite lookup_omap. intros (items & Hitems & Huris)%bind_Some.
  assert (items = default [] (global !! mp) ++ mountedPlugins pri (default ∅ (mounted !! mp))) as Heq.
  { case_decide as Hpri.
    - rewrite Hitems. subst pri. simpl.
      assert (∀ X, mountedPlugins ∅ X = []) as ->; [|by rewrite app_nil_r].
      intros X. unfold mountedPlugins. induction (range_set X) as [|y l IH]; [done|]. simpl.
      by rewrite lookup_empty.
    - rewrite lookup_merge in Hitems. destruct (global !! mp), (mounted !! mp); simpl in *; simplify_eq; try done.
      + unfold mountedPlugins. by rewrite range_set_empty, app_nil_r. }
  assert (uris = pluginURI <$> go_sort plugin_less items) as ->.
  { destruct items; [done|]. by simplify_eq. }
  exists (go_sort plugin_less items). split_and!; [done|by rewrite go_sort_perm, Heq|].
  intros Hnan. apply go_sort_sorted, plugin_less_weak_order. intros p Hp. apply Hnan. by rewrite go_sort_perm.
Qed.

(** ** Two services with their own configuration of one plugin *)

Module PluginWitness.
Definition config (svc cfg : string) : PluginConfig :=
  mkPluginConfig svc "demo" "token" [mkObjectReference KindService "demo" svc] cfg.
Definition configs : list PluginConfig := [config "bookstore" "strict"; config "shop" "lax"].
Definition mounts : gmap string (gmap string (option RawExtension)) := {["token" := {["inbound-http" := None]}]}.

(** The match of [bookstore] gets the configuration that is for [shop]. *)
Lemma plugin_config_shared_witness :
  ∃ found, getTrafficMatchPluginConfigs (walkPluginConfig configs mounts) "inbound_demo/bookstore_8080_http" =
    Ret (Some found) ∧ ∀ x, found !! "token" = Some x → x = Some "lax".
Proof.
  eexists. split; [vm_compute; reflexivity|]. intros x.
  apply (plugin_config_shared configs mounts "inbound_demo/bookstore_8080_http" "token" _ (config "shop" "lax"));
    vm_compute; reflexivity.
Defined.

Definition chain : gmap string (list string) :=
  @setSidecarChain stdpp_order insertion_order {["inbound-http" := [mkPlugin "modules" 1065353216 "" true]]}
    {["token" := 1073741824%Z]} {["inbound-http" := {["token"]}]}.

(** The mounted plugin has the higher priority. *)
Lemma setSidecarChain_sorted_witness :
  chain !! "inbound-http" = Some ["plugins/token.js"; "modules.js"] ∧
  ∃ items, ["plugins/token.js"; "modules.js"] = pluginURI <$> items.
Proof.
  assert (chain !! "inbound-http" = Some ["plugins/token.js"; "modules.js"]) as E by (vm_compute; reflexivity).
  split; [exact E|]. unfold chain in E.
  destruct (@setSidecarChain_sorted stdpp_order insertion_order _ _ _ _ _ E) as (items & Hi & _). by exists items.
Defined.
End PluginWitness.
