(* ===== verification/Webhook.v ===== *)
(** * pkg/validator and pkg/webhook: the validating webhook

    validators.go and server.go of pkg/validator, webhook.go of pkg/webhook: what the API
    server asks before it stores a resource of the mesh, and the answer.  A validator
    decodes the object of a request; the decoders are encoding/json's and a parameter
    ([Decoders]), and so is the table of Envoy's status codes.  An error is a value of
    [ValidationError], with what its message prints. *)

From S2P Require Import Prelude GoStrings Net Identity Service PolicyApi K8s K8sClient Smi PolicyClient.
From S2P Require Import CatalogEgress MeshConfig PipyPlugin.

(** ** Requests and responses *)

Inductive ValidationError :=
| DecodeError (e : string)
| NamespaceMismatch (namespace destination : string)
| AccessCertProhibited
| DuplicateBackend (name : string) (port : Z)
| BackendConflicts (conflicts : list (string * list BackendConflict))
| PrincipalRequired
| SourceNameMissing (kind : string)
| SourceNamespaceMissing (kind : string)
| InvalidIPRange (name : string)
| InvalidSourceKind
| InvalidProtocol (protocol : string)
| InvalidMatchKind (name kind : string)
| InvalidAPIGroup (group : string)
| TooManySettings
| InvalidHost (host : string)
| SettingConflict (name other host : string)
| InvalidStatusCode (code : Z)
| GatewayConflict (namespace name : string)
| PluginProhibited
| MissingScript (name : string)
| UnknownKind (gvk : string).

Record AdmissionRequest := mkAdmissionRequest {
  req_UID : string;
  req_Kind : string;
  req_Namespace : string;
  req_Object : string;
}.

Record AdmissionResponse := mkAdmissionResponse {
  resp_UID : string;
  resp_Allowed : bool;
  resp_Result : option ValidationError;
}.

Definition AdmissionError (err : ValidationError) : AdmissionResponse := mkAdmissionResponse "" false (Some err).

(** A validator returns a response and an error; either can be nil. *)
Abbreviation validateFunc := (AdmissionRequest → outcome (option AdmissionResponse * option ValidationError)).

(** [Decode] of the object, for every type that is decoded. *)
Record Decoders := mkDecoders {
  dec_TrafficTarget : string → result string TrafficTarget;
  dec_AccessCert : string → result string unit;
  dec_AccessControl : string → result string AccessControl;
  dec_IngressBackend : string → result string IngressBackend;
  dec_Egress : string → result string Egress;
  dec_UpstreamTrafficSetting : string → result string UpstreamTrafficSetting;
  dec_EgressGateway : string → result string EgressGateway;
  dec_Plugin : string → result string Plugin;
  dec_PluginConfig : string → result string unit;
  dec_PluginChain : string → result string unit;
}.

(** A validator that decodes its object, and has an error or none. *)
Definition validate {T} (decode : string → result string T) (check : T → outcome (option ValidationError)) : validateFunc :=
  λ req,
    match decode (req_Object req) with
    | Err e => Ret (None, Some (DecodeError e))
    | Ok obj => err ← check obj; Ret (None, err)
    end.

(** ** The checks *)

Definition trafficTargetCheck (t : TrafficTarget) : option ValidationError :=
  if decide (ibsub_Namespace (tt_Destination t) ≠ tt_Namespace t)
  then Some (NamespaceMismatch (tt_Namespace t) (ibsub_Namespace (tt_Destination t)))
  else None.

(** The loop over the sources, the same for both kinds of resource. *)
Definition sourceCheck (kind name namespace : string) : option ValidationError :=
  if decide (kind = KindService) then
    if decide (name = "") then Some (SourceNameMissing KindService)
    else if decide (namespace = "") then Some (SourceNamespaceMissing KindService)
    else None
  else if decide (kind = KindAuthenticatedPrincipal) then
    if decide (name = "") then Some (SourceNameMissing KindAuthenticatedPrincipal) else None
  else if decide (kind = KindIPRange) then
    match ParseCIDR name with Some _ => None | None => Some (InvalidIPRange name) end
  else Some InvalidSourceKind.

(** The service that the policy client is asked for: without a namespace. *)
Definition fakeMeshSvc (name : string) (port : PortSpec) : MeshService := {|
  ms_Namespace := ""; ms_Name := name; ms_Port := 0; ms_TargetPort := uint16 (port_Number port);
  ms_Protocol := port_Protocol port; ms_ServiceImportUID := "" |}.

(** What the loop over the backends has gathered: the backends seen, the resources
    already reported, and the report. *)
Record BackendState := mkBackendState {
  bst_backends : gset setKey;
  bst_conflicting : gset (string * string);
  bst_conflicts : list (string * list BackendConflict);
}.

Section validators.
Context `{RangeOrder} (policyClient : PolicyController) (flags : FeatureFlags).

(** A turn of the loop.  A resource that was already reported ends the turn ([continue]);
    [check] is what the turn checks after the conflicts. *)
Definition backendTurn {R} (name : string) (port : PortSpec) (resource : string) (matching : option R)
    (meta : R → ObjectMeta) (detect : R → list BackendConflict) (check : option ValidationError) (st : BackendState) :
    result ValidationError BackendState :=
  let key := (name, port_Number port) in
  let finish st := match check with Some err => Err err | None => Ok st end in
  if bool_decide (key ∈ bst_backends st) then Err (DuplicateBackend name (port_Number port))
  else
    let backends := {[key]} ∪ bst_backends st in
    let same := mkBackendState backends (bst_conflicting st) (bst_conflicts st) in
    match matching with
    | Some r =>
      if decide (om_Name (meta r) ≠ resource) then
        let id := (om_Namespace (meta r), om_Name (meta r)) in
        if bool_decide (id ∈ bst_conflicting st) then Ok same
        else finish (mkBackendState backends ({[id]} ∪ bst_conflicting st)
                       (bst_conflicts st ++ [(om_Name (meta r), detect r)]))
      else finish same
    | None => finish same
    end.

(** The checks of a turn after the conflicts. *)
Definition accessControlError (acl : AccessControl) (b : AccessControlBackendSpec) : option ValidationError :=
  match acb_TLS b with
  | Some tls =>
    let authenticatedSourceFound :=
      existsb (λ s, bool_decide (acs_Kind s = KindAuthenticatedPrincipal)) (acsp_Sources (ac_Spec acl)) in
    if tls_SkipClientCertValidation tls && negb authenticatedSourceFound then Some PrincipalRequired else None
  | None => None
  end.

Definition ingressError (ib : IngressBackend) (b : BackendSpec) : option ValidationError :=
  let protocol := to_lower (port_Protocol (be_Port b)) in
  if decide (protocol = ProtocolHTTP) then None
  else if decide (protocol = ProtocolHTTPS) then None
  else if decide (protocol = ProtocolGRPC) then
    let authenticatedSourceFound :=
      existsb (λ s, bool_decide (is_Kind s = KindAuthenticatedPrincipal)) (ibs_Sources (ib_Spec ib)) in
    match be_TLS b with
    | Some tls => if tls_SkipClientCertValidation tls && negb authenticatedSourceFound then Some PrincipalRequired else None
    | None => None
    end
  else Some (InvalidProtocol (port_Protocol (be_Port b))).

Definition accessControlBackend (acl : AccessControl) (st : BackendState) (b : AccessControlBackendSpec) :
    result ValidationError BackendState :=
  backendTurn (acb_Name b) (acb_Port b) (om_Name (ac_Meta acl))
    (pol_GetAccessControlPolicy policyClient (fakeMeshSvc (acb_Name b) (acb_Port b))) ac_Meta
    (DetectAccessControlConflicts acl) (accessControlError acl b) st.

Definition ingressBackendTurn (ib : IngressBackend) (st : BackendState) (b : BackendSpec) :
    result ValidationError BackendState :=
  backendTurn (be_Name b) (be_Port b) (om_Name (ib_Meta ib))
    (pol_GetIngressBackendPolicy policyClient (fakeMeshSvc (be_Name b) (be_Port b))) ib_Meta
    (DetectIngressBackendConflicts ib) (ingressError ib b) st.

Definition backendState : BackendState := mkBackendState ∅ ∅ [].

(** After the loop: the report, and then the sources. *)
Definition afterBackends (r : result ValidationError BackendState) (sources : option ValidationError) :
    option ValidationError :=
  match r with
  | Err err => Some err
  | Ok st => if decide (bst_conflicts st = []) then sources else Some (BackendConflicts (bst_conflicts st))
  end.

Definition accessControlCheck (acl : AccessControl) : option ValidationError :=
  afterBackends (foldE (accessControlBackend acl) backendState (acsp_Backends (ac_Spec acl)))
    (first_some (λ s, sourceCheck (acs_Kind s) (acs_Name s) (acs_Namespace s)) (acsp_Sources (ac_Spec acl))).

Definition ingressBackendCheck (ib : IngressBackend) : option ValidationError :=
  afterBackends (foldE (ingressBackendTurn ib) backendState (ibs_Backends (ib_Spec ib)))
    (first_some (λ s, sourceCheck (is_Kind s) (is_Name s) (is_Namespace s)) (ibs_Sources (ib_Spec ib))).

(** [*m.APIGroup] panics when the reference has no group. *)
Fixpoint egressMatches (matches : list TypedLocalObjectReference) (count : Z) : outcome (result ValidationError Z) :=
  match matches with
  | [] => Ret (Ok count)
  | m :: matches =>
    match ref_APIGroup m with
    | None => Panic
    | Some group =>
      if decide (group = smiSpecsSchemeGroupVersion) then
        if decide (ref_Kind m = HTTPRouteGroupKind) then egressMatches matches count
        else Ret (Err (InvalidMatchKind (ref_Name m) (ref_Kind m)))
      else if decide (group = policySchemeGroupVersion) then
        if decide (ref_Kind m = upstreamTrafficSettingKind) then egressMatches matches (count + 1)%Z
        else Ret (Err (InvalidMatchKind (ref_Name m) (ref_Kind m)))
      else Ret (Err (InvalidAPIGroup group))
    end
  end.

Definition egressCheck (e : Egress) : outcome (option ValidationError) :=
  r ← egressMatches (egs_Matches (eg_Spec e)) 0;
  Ret match r with
      | Err err => Some err
      | Ok count => if decide (1 < count)%Z then Some TooManySettings else None
      end.

(** [StatusCode_name] of Envoy, at [int32(code)]. *)
Context (StatusCode_name : Z → bool).

Definition statusCheck (code : Z) : option ValidationError :=
  if StatusCode_name (int32 code) then None else Some (InvalidStatusCode code).

Definition upstreamTrafficSettingCheck (u : UpstreamTrafficSetting) : outcome (option ValidationError) :=
  let host := utss_Host (uts_Spec u) in
  if decide (length (split "." host) < 2)%nat then Ret (Some (InvalidHost host))
  else
    matching ← pol_GetUpstreamTrafficSetting policyClient (by_host host);
    let rates :=
      match (rl ← utss_RateLimit (uts_Spec u); l ← rl_Local rl; lrl_HTTP l) ≫= statusCheck ∘ hlr_ResponseStatusCode with
      | Some err => Some err
      | None =>
        first_some (λ route, (rl ← hrs_RateLimit route; prl_Local rl) ≫= statusCheck ∘ hlr_ResponseStatusCode)
          (utss_HTTPRoutes (uts_Spec u))
      end in
    Ret match matching with
        | Some other =>
          if decide (om_Name (uts_Meta other) ≠ om_Name (uts_Meta u))
          then Some (SettingConflict (om_Name (uts_Meta u)) (om_Name (uts_Meta other)) (utss_Host (uts_Spec other)))
          else rates
        | None => rates
        end.

Definition egressGatewayCheck (g : EgressGateway) : option ValidationError :=
  if decide (elems (egws_GlobalEgressGateways (egw_Spec g)) = []) then None
  else
    first_some (λ p,
      if equal_fold (om_Name (egw_Meta g)) (om_Name (egw_Meta p)) &&
         equal_fold (om_Namespace (egw_Meta g)) (om_Namespace (egw_Meta p)) then None
      else if decide (elems (egws_GlobalEgressGateways (egw_Spec p)) = []) then None
      else Some (GatewayConflict (om_Namespace (egw_Meta p)) (om_Name (egw_Meta p))))
      (pol_ListEgressGateways policyClient).

Definition pluginCheck (p : Plugin) : option ValidationError :=
  if decide (pl_Script p = "") then Some (MissingScript (pl_Name p)) else None.

(** ** The validators *)

Context (dec : Decoders).

(** The validators of plugins look at the feature flag before they decode. *)
Definition guarded (v : validateFunc) : validateFunc :=
  λ req, if ff_EnablePluginPolicy flags then v req else Ret (None, Some PluginProhibited).

Definition trafficTargetValidator : validateFunc := validate (dec_TrafficTarget dec) (λ t, Ret (trafficTargetCheck t)).
Definition accessCertValidator : validateFunc :=
  validate (dec_AccessCert dec) (λ _, Ret (if ff_EnableAccessCertPolicy flags then None else Some AccessCertProhibited)).
Definition accessControlValidator : validateFunc := validate (dec_AccessControl dec) (λ acl, Ret (accessControlCheck acl)).
Definition ingressBackendValidator : validateFunc := validate (dec_IngressBackend dec) (λ ib, Ret (ingressBackendCheck ib)).
Definition egressValidator : validateFunc := validate (dec_Egress dec) egressCheck.
Definition upstreamTrafficSettingValidator : validateFunc :=
  validate (dec_UpstreamTrafficSetting dec) upstreamTrafficSettingCheck.
Definition egressGatewayValidator : validateFunc := validate (dec_EgressGateway dec) (λ g, Ret (egressGatewayCheck g)).
Definition pluginValidator : validateFunc := guarded (validate (dec_Plugin dec) (λ p, Ret (pluginCheck p))).
Definition pluginConfigValidator : validateFunc := guarded (validate (dec_PluginConfig dec) (λ _, Ret None)).
Definition pluginChainValidator : validateFunc := guarded (validate (dec_PluginChain dec) (λ _, Ret None)).

(** [GroupVersionKind.String()]. *)
Definition gvk (group version kind : string) : string := group +:+ "/" +:+ version +:+ ", Kind=" +:+ kind.
Definition policy_gvk : string → string := gvk "policy.openservicemesh.io" "v1alpha1".
Definition plugin_gvk : string → string := gvk "plugin.flomesh.io" "v1alpha1".

Definition validators : gmap string validateFunc := list_to_map [
  (policy_gvk "AccessCert", accessCertValidator);
  (policy_gvk "AccessControl", accessControlValidator);
  (policy_gvk "IngressBackend", ingressBackendValidator);
  (policy_gvk "Egress", egressValidator);
  (policy_gvk "EgressGateway", egressGatewayValidator);
  (policy_gvk "UpstreamTrafficSetting", upstreamTrafficSettingValidator);
  (gvk "access.smi-spec.io" "v1alpha3" "TrafficTarget", trafficTargetValidator);
  (plugin_gvk "Plugin", pluginValidator);
  (plugin_gvk "PluginConfig", pluginConfigValidator);
  (plugin_gvk "PluginChain", pluginChainValidator)].

(** ** The server *)

Definition handleValidation (req : AdmissionRequest) : outcome AdmissionResponse :=
  resp ← match validators !! req_Kind req with
         | None => Ret (Some (AdmissionError (UnknownKind (req_Kind req))))
         | Some v =>
           '(resp, err) ← v req;
           Ret match resp, err with
               | Some resp, _ => Some resp
               | None, Some err => Some (AdmissionError err)
               | None, None => None
               end
         end;
  let resp := default (mkAdmissionResponse "" true None) resp in
  Ret (mkAdmissionResponse (req_UID req) (resp_Allowed resp) (resp_Result resp)).

(** [review] is the request of the decoded body, or the error of the decoder, with the
    request that is in the review then, if any.  The result has the namespace of the
    request, which panics without a request. *)
Definition getAdmissionReqResp (review : result (string * option AdmissionRequest) (option AdmissionRequest)) :
    outcome (string * AdmissionResponse) :=
  '(req, resp) ← match review with
                 | Err (e, req) => Ret (req, AdmissionError (DecodeError e))
                 | Ok (Some req) => resp ← handleValidation req; Ret (Some req, resp)
                 | Ok None => Panic
                 end;
  match req with
  | Some req => Ret (req_Namespace req, resp)
  | None => Panic
  end.
End validators.

(** ** Theorems: what is admitted *)

(** A source that is accepted. *)
Definition source_ok (kind name namespace : string) : Prop :=
  (kind = KindService ∧ name ≠ "" ∧ namespace ≠ "") ∨
  (kind = KindAuthenticatedPrincipal ∧ name ≠ "") ∨
  (kind = KindIPRange ∧ is_Some (ParseCIDR name)).

Lemma sourceCheck_None kind name namespace : sourceCheck kind name namespace = None ↔ source_ok kind name namespace.
Proof.
  unfold sourceCheck, source_ok, KindService, KindAuthenticatedPrincipal, KindIPRange, is_Some.
  repeat case_decide; subst; try destruct (ParseCIDR name); naive_solver.
Qed.

(** A turn of the loop when no stored resource matches. *)
Definition plainTurn {B} (key : B → setKey) (check : B → option ValidationError) (st : BackendState) (b : B) :
    result ValidationError BackendState :=
  if bool_decide (key b ∈ bst_backends st) then Err (DuplicateBackend (key b).1 (key b).2)
  else match check b with
       | Some err => Err err
       | None => Ok (mkBackendState ({[key b]} ∪ bst_backends st) (bst_conflicting st) (bst_conflicts st))
       end.

Lemma plainTurn_loop {B} (key : B → setKey) check (backends : list B) st sources :
  bst_conflicts st = [] →
  afterBackends (foldE (plainTurn key check) st backends) sources = None ↔
  NoDup (key <$> backends) ∧ (∀ b, b ∈ backends → (key b ∉ bst_backends st) ∧ check b = None) ∧ sources = None.
Proof.
  revert st. induction backends as [|b l IH]; intros st Hst; csimpl.
  { rewrite decide_True by done. split; [intros Hs; split_and!; [constructor|set_solver|done]|naive_solver]. }
  rewrite NoDup_cons. setoid_rewrite elem_of_cons. unfold plainTurn at 1.
  destruct (bool_decide_reflect (key b ∈ bst_backends st)) as [Hb|Hb]; simpl; [naive_solver|].
  destruct (check b) eqn:Ec; simpl; [naive_solver|]. rewrite IH by done. simpl. setoid_rewrite not_elem_of_union.
  setoid_rewrite not_elem_of_singleton. rewrite list_elem_of_fmap. split.
  - intros (Hnd & Hl & Hs). split_and!; [|done| |done]; [naive_solver|]. intros b' [->|Hb']; [done|]. naive_solver.
  - intros ([Hn Hnd] & Hl & Hs). split_and!; [done| |done]. intros b' Hb'. split_and!; [naive_solver..|]. naive_solver.
Qed.

(** The check that a turn makes on a backend. *)
Definition ingressCheck (ib : IngressBackend) (b : BackendSpec) : Prop :=
  let protocol := to_lower (port_Protocol (be_Port b)) in
  (protocol = ProtocolHTTP ∨ protocol = ProtocolHTTPS ∨ protocol = ProtocolGRPC) ∧
  (protocol = ProtocolGRPC → tls_SkipClientCertValidation <$> be_TLS b = Some true →
   ∃ s, s ∈ ibs_Sources (ib_Spec ib) ∧ is_Kind s = KindAuthenticatedPrincipal).

(** What the validator accepts. *)
Definition ingress_ok (ib : IngressBackend) : Prop :=
  NoDup ((λ b, (be_Name b, port_Number (be_Port b))) <$> ibs_Backends (ib_Spec ib)) ∧
  (∀ b, b ∈ ibs_Backends (ib_Spec ib) → ingressCheck ib b) ∧
  ∀ s, s ∈ ibs_Sources (ib_Spec ib) → source_ok (is_Kind s) (is_Name s) (is_Namespace s).

Definition acl_ok (acl : AccessControl) : Prop :=
  NoDup ((λ b, (acb_Name b, port_Number (acb_Port b))) <$> acsp_Backends (ac_Spec acl)) ∧
  (∀ b, b ∈ acsp_Backends (ac_Spec acl) → (tls_SkipClientCertValidation <$> acb_TLS b) = Some true →
    ∃ s, s ∈ acsp_Sources (ac_Spec acl) ∧ acs_Kind s = KindAuthenticatedPrincipal) ∧
  ∀ s, s ∈ acsp_Sources (ac_Spec acl) → source_ok (acs_Kind s) (acs_Name s) (acs_Namespace s).

Lemma existsb_exists_elem {A} (f : A → bool) l : existsb f l = true ↔ ∃ x, x ∈ l ∧ f x = true.
Proof. rewrite existsb_exists. by setoid_rewrite list_elem_of_In. Qed.

Lemma principal_check {A} (tls : option TLSSpec) (kind : A → string) (sources : list A) :
  match tls with
  | Some tls =>
    if tls_SkipClientCertValidation tls && negb (existsb (λ s, bool_decide (kind s = KindAuthenticatedPrincipal)) sources)
    then Some PrincipalRequired else None
  | None => None
  end = None ↔
  ((tls_SkipClientCertValidation <$> tls) = Some true → ∃ s, s ∈ sources ∧ kind s = KindAuthenticatedPrincipal).
Proof.
  destruct tls as [[[] hosts]|]; simpl; [|naive_solver..]. destruct (existsb _ _) eqn:E; simpl.
  - apply existsb_exists_elem in E as (s & Hs & Hk%bool_decide_eq_true_1). naive_solver.
  - split; [done|]. intros (s & Hs & Hk); [done|]. assert (existsb (λ s, bool_decide (kind s = KindAuthenticatedPrincipal)) sources = true);
      [|congruence]. apply existsb_exists_elem. exists s. by rewrite bool_decide_eq_true_2.
Qed.

Section admitted.
Context `{RangeOrder} (c : PolicyInformers) (ctl : Controller) (flags : FeatureFlags) (StatusCode_name : Z → bool) (dec : Decoders).
Abbreviation client := (policy_client c ctl).

(** The resources of the stores are namespaced. *)
Hypothesis ingress_namespaced : ∀ ib, ib ∈ List (pi_IngressBackend c) → om_Namespace (ib_Meta ib) ≠ "".
Hypothesis acl_namespaced : ∀ acl, acl ∈ List (pi_AccessControl c) → om_Namespace (ac_Meta acl) ≠ "".

Lemma ingress_fake_None name port : pol_GetIngressBackendPolicy client (fakeMeshSvc name port) = None.
Proof using ingress_namespaced.
  apply GetIngressBackendPolicy_None. intros ib Hib [Hns _]. by apply (ingress_namespaced ib Hib).
Qed.

Lemma acl_fake_None name port : pol_GetAccessControlPolicy client (fakeMeshSvc name port) = None.
Proof using acl_namespaced.
  apply GetAccessControlPolicy_None. intros acl Hacl [Hns _]. by apply (acl_namespaced acl Hacl).
Qed.

Lemma ingressBackendCheck_None ib : ingressBackendCheck client ib = None ↔ ingress_ok ib.
Proof using ingress_namespaced.
  unfold ingressBackendCheck, ingress_ok.
  rewrite (foldE_ext _ (plainTurn (λ b, (be_Name b, port_Number (be_Port b))) (ingressError ib)))
    by (intros st b; unfold ingressBackendTurn; by rewrite ingress_fake_None).
  rewrite plainTurn_loop, first_some_None by done. setoid_rewrite sourceCheck_None.
  apply and_iff_compat_l, and_iff_compat_r, forall_proper. intros b.
  apply imp_iff_compat_l. simpl. unfold ingressCheck, ingressError. rewrite <-principal_check.
  assert (ProtocolGRPC ≠ ProtocolHTTP ∧ ProtocolGRPC ≠ ProtocolHTTPS) as [? ?] by done.
  assert ((be_Name b, port_Number (be_Port b)) ∉ (∅ : gset setKey)) by apply not_elem_of_empty.
  repeat case_decide; intuition congruence.
Qed.

Lemma accessControlCheck_None acl : accessControlCheck client acl = None ↔ acl_ok acl.
Proof using acl_namespaced.
  unfold accessControlCheck, acl_ok.
  rewrite (foldE_ext _ (plainTurn (λ b, (acb_Name b, port_Number (acb_Port b))) (accessControlError acl)))
    by (intros st b; unfold accessControlBackend; by rewrite acl_fake_None).
  rewrite plainTurn_loop, first_some_None by done. setoid_rewrite sourceCheck_None.
  apply and_iff_compat_l, and_iff_compat_r, forall_proper. intros b.
  apply imp_iff_compat_l. simpl. unfold accessControlError. rewrite principal_check.
  split; [by intros [_ Hc]|]. split; [apply not_elem_of_empty|done].
Qed.
End admitted.

(** ** The references of an Egress *)

(** The references that an Egress may have. *)
Definition egress_ref_ok (m : TypedLocalObjectReference) : Prop :=
  (ref_APIGroup m = Some smiSpecsSchemeGroupVersion ∧ ref_Kind m = HTTPRouteGroupKind) ∨
  (ref_APIGroup m = Some policySchemeGroupVersion ∧ ref_Kind m = upstreamTrafficSettingKind).

Lemma egressMatches_spec matches count :
  Forall (λ m, is_Some (ref_APIGroup m)) matches →
  ∃ r, egressMatches matches count = Ret r ∧
    match r with
    | Ok n => Forall egress_ref_ok matches ∧
        n = (count + Z.of_nat (length (filter (λ m, ref_APIGroup m = Some policySchemeGroupVersion) matches)))%Z
    | Err _ => ¬ Forall egress_ref_ok matches
    end.
Proof.
  intros Hm. revert count. induction Hm as [|m l [g Hg] Hl IH]; intros count; simpl.
  { exists (Ok count). split; [done|]. split; [constructor|]. simpl. lia. }
  rewrite Hg, filter_cons. destruct (decide (ref_APIGroup m = Some policySchemeGroupVersion)) as [Hpol|Hpol];
    rewrite Hg in Hpol.
  all: assert (smiSpecsSchemeGroupVersion ≠ policySchemeGroupVersion) as Hne by done.
  all: pose proof (Forall_cons egress_ref_ok m l) as HF.
  - injection Hpol as ->. rewrite decide_False, decide_True by done. case_decide as Hk.
    + destruct (IH (count + 1)%Z) as (r & -> & Hr). exists r. split; [done|].
      assert (egress_ref_ok m) by (by right). destruct r; [|tauto]. simpl. split; [tauto|]. lia.
    + eexists. split; [done|]. simpl. rewrite HF. intros [[[E _]|[_ ?]] _]; congruence.
  - case_decide as Hs; [subst g; case_decide as Hk|rewrite decide_False by congruence].
    + destruct (IH count) as (r & -> & Hr). exists r. split; [done|]. assert (egress_ref_ok m) by (by left). destruct r; tauto.
    + eexists. split; [done|]. simpl. rewrite HF. intros [[[_ ?]|[E _]] _]; congruence.
    + eexists. split; [done|]. simpl. rewrite HF. intros [[[E _]|[E _]] _]; congruence.
Qed.

(** A reference without a group makes the validator panic, if no other error comes first. *)
Lemma egressMatches_panics before m after count :
  Forall egress_ref_ok before → ref_APIGroup m = None → egressMatches (before ++ m :: after) count = Panic.
Proof.
  intros Hb Hm. revert count. induction Hb as [|x l Hx Hl IH]; intros count; simpl; [by rewrite Hm|].
  destruct Hx as [[-> ->]|[-> ->]]; simpl; apply IH.
Qed.

(** ** Theorems: the answers of the server *)

Section server.
Context `{RangeOrder} (c : PolicyInformers) (ctl : Controller) (flags : FeatureFlags) (StatusCode_name : Z → bool) (dec : Decoders).
Abbreviation server := (handleValidation (policy_client c ctl) flags StatusCode_name dec).

(** The answer when a validator returns an error or none. *)
Lemma handleValidation_validator req v err :
  validators (policy_client c ctl) flags StatusCode_name dec !! req_Kind req = Some v → v req = Ret (None, err) →
  server req = Ret (mkAdmissionResponse (req_UID req) (bool_decide (err = None)) err).
Proof. unfold handleValidation. intros -> ->. simpl. by destruct err. Qed.

Lemma handleValidation_panics req v :
  validators (policy_client c ctl) flags StatusCode_name dec !! req_Kind req = Some v →
  server req = Panic ↔ v req = Panic.
Proof. unfold handleValidation. intros ->. by destruct (v req) as [[[] []]|]. Qed.

Lemma handleValidation_check {T} (decode : string → result string T) check req obj err :
  validators (policy_client c ctl) flags StatusCode_name dec !! req_Kind req = Some (validate decode check) →
  decode (req_Object req) = Ok obj → check obj = Ret err →
  server req = Ret (mkAdmissionResponse (req_UID req) (bool_decide (err = None)) err).
Proof. intros Hv Hd Hc. eapply handleValidation_validator; [done|]. unfold validate. by rewrite Hd, Hc. Qed.

(** The validators of three kinds. *)
Abbreviation table := (validators (policy_client c ctl) flags StatusCode_name dec).
Lemma validators_IngressBackend :
  table !! policy_gvk "IngressBackend" = Some (ingressBackendValidator (policy_client c ctl) dec).
Proof. done. Qed.
Lemma validators_AccessControl :
  table !! policy_gvk "AccessControl" = Some (accessControlValidator (policy_client c ctl) dec).
Proof. done. Qed.
Lemma validators_Egress : table !! policy_gvk "Egress" = Some (egressValidator dec).
Proof. done. Qed.

(** The webhook admits an IngressBackend exactly when its backends are distinct, their
    protocols are http, https or grpc, a gRPC backend that skips the validation of client
    certificates comes with an authenticated principal, and its sources are complete.  The
    resources that are stored do not matter: a conflict with one of them, which the
    validator looks for, is never found, because it asks for a service without a
    namespace. *)
Theorem ingressBackend_admitted (req : AdmissionRequest) (ib : IngressBackend) :
  (∀ x, x ∈ List (pi_IngressBackend c) → om_Namespace (ib_Meta x) ≠ "") →
  req_Kind req = policy_gvk "IngressBackend" → dec_IngressBackend dec (req_Object req) = Ok ib →
  ∃ resp, server req = Ret resp ∧ resp_UID resp = req_UID req ∧ (resp_Allowed resp = true ↔ ingress_ok ib).
Proof.
  intros Hns Hk Hd. eexists. split; [eapply handleValidation_check; [rewrite Hk; apply validators_IngressBackend|exact Hd|reflexivity]|].
  split; [done|]. simpl. by rewrite bool_decide_eq_true, ingressBackendCheck_None.
Qed.

(** The same for an AccessControl. *)
Theorem accessControl_admitted (req : AdmissionRequest) (acl : AccessControl) :
  (∀ x, x ∈ List (pi_AccessControl c) → om_Namespace (ac_Meta x) ≠ "") →
  req_Kind req = policy_gvk "AccessControl" → dec_AccessControl dec (req_Object req) = Ok acl →
  ∃ resp, server req = Ret resp ∧ resp_UID resp = req_UID req ∧ (resp_Allowed resp = true ↔ acl_ok acl).
Proof.
  intros Hns Hk Hd. eexists. split; [eapply handleValidation_check; [rewrite Hk; apply validators_AccessControl|exact Hd|reflexivity]|].
  split; [done|]. simpl. by rewrite bool_decide_eq_true, accessControlCheck_None.
Qed.

(** The webhook panics on an UpstreamTrafficSetting whose host has a dot exactly when the
    first setting that the store lists is for another host: from the second host on, no
    setting can be created or changed in most orders of the store. *)
Theorem upstreamTrafficSetting_panics (req : AdmissionRequest) (u : UpstreamTrafficSetting) :
  req_Kind req = policy_gvk "UpstreamTrafficSetting" → dec_UpstreamTrafficSetting dec (req_Object req) = Ok u →
  has_char "." (utss_Host (uts_Spec u)) = true →
  server req = Panic ↔
  ∃ other settings, List (pi_UpstreamTrafficSetting c) = other :: settings ∧
    utss_Host (uts_Spec other) ≠ utss_Host (uts_Spec u).
Proof.
  intros Hk Hd Hdot. rewrite (handleValidation_panics req (upstreamTrafficSettingValidator (policy_client c ctl) StatusCode_name dec))
    by (by rewrite Hk).
  assert (utss_Host (uts_Spec u) ≠ "") as Hne by (intros E; by rewrite E in Hdot).
  rewrite <-(GetUpstreamTrafficSetting_by_host_panics c _ Hne).
  unfold upstreamTrafficSettingValidator, validate. rewrite Hd. unfold upstreamTrafficSettingCheck.
  rewrite decide_False; [by simpl; destruct (GetUpstreamTrafficSetting c _)|].
  destruct (split "." (utss_Host (uts_Spec u))) as [|a [|b l]] eqn:E; simpl; [by apply split_ne_nil in E| |lia].
  pose proof (join_split "." (utss_Host (uts_Spec u))) as Ej. pose proof (split_parts_free "." (utss_Host (uts_Spec u))) as Hf.
  rewrite E in Ej, Hf. simpl in Ej. subst a. apply Forall_cons in Hf as [Hf _]. congruence.
Qed.

(** An Egress whose references all have a group is admitted exactly when they are to HTTP
    route groups or traffic settings, and to at most one setting. *)
Theorem egress_admitted (req : AdmissionRequest) (e : Egress) :
  req_Kind req = policy_gvk "Egress" → dec_Egress dec (req_Object req) = Ok e →
  Forall (λ m, is_Some (ref_APIGroup m)) (egs_Matches (eg_Spec e)) →
  ∃ resp, server req = Ret resp ∧ (resp_Allowed resp = true ↔
    Forall egress_ref_ok (egs_Matches (eg_Spec e)) ∧
    (length (filter (λ m, ref_APIGroup m = Some policySchemeGroupVersion) (egs_Matches (eg_Spec e))) ≤ 1)%nat).
Proof.
  intros Hk Hd Hm. destruct (egressMatches_spec _ 0 Hm) as (r & Hr & Hspec).
  eexists. split; [eapply handleValidation_check; [rewrite Hk; apply validators_Egress|exact Hd|unfold egressCheck; rewrite Hr; reflexivity]|].
  simpl. rewrite bool_decide_eq_true. destruct r as [n|err]; [|naive_solver]. destruct Hspec as [Hf ->].
  case_decide; split; try done; intros; [lia|split; [done|lia]].
Qed.

(** A body that cannot be decoded makes the server panic after it has made an answer. *)
Lemma undecodable_body_panics e : getAdmissionReqResp (policy_client c ctl) flags StatusCode_name dec (Err (e, None)) = Panic.
Proof. done. Qed.
End server.

(** ** Theorems: one resource with global egress gateways *)

Definition is_global (g : EgressGateway) : Prop := elems (egws_GlobalEgressGateways (egw_Spec g)) ≠ [].

(** The names of Kubernetes have no upper case letters. *)
Definition lower_case (g : EgressGateway) : Prop :=
  to_lower (om_Name (egw_Meta g)) = om_Name (egw_Meta g) ∧ to_lower (om_Namespace (egw_Meta g)) = om_Namespace (egw_Meta g).

Section gateways.
(** A policy client that lists the given resources. *)
Context (client : list EgressGateway → PolicyController).
Hypothesis client_lists : ∀ l, pol_ListEgressGateways (client l) = l.

(** Changes of the stored resources: the API server stores what is admitted, in place of
    the resource of that name, and deletes. *)
Inductive gateway_step : list EgressGateway → list EgressGateway → Prop :=
| gateway_put l g :
  lower_case g → egressGatewayCheck (client l) g = None →
  gateway_step l (g :: filter (λ p, egw_Meta p ≠ egw_Meta g) l)
| gateway_delete l meta : gateway_step l (filter (λ p, egw_Meta p ≠ meta) l).

Record gateways_ok (l : list EgressGateway) : Prop := {
  go_lower : Forall lower_case l;
  go_unique : NoDup (egw_Meta <$> l);
  go_global : ∀ x y, x ∈ l → y ∈ l → is_global x → is_global y → x = y;
}.

Lemma gateways_filter meta l : gateways_ok l → gateways_ok (filter (λ p, egw_Meta p ≠ meta) l).
Proof.
  intros [Hl Hu Hg]. split.
  - rewrite Forall_forall in *. intros x [_ ?]%list_elem_of_filter. auto.
  - by apply NoDup_fmap_filter.
  - intros x y [_ ?]%list_elem_of_filter [_ ?]%list_elem_of_filter. auto.
Qed.

Lemma egressGatewayCheck_None l g :
  Forall lower_case l → lower_case g → egressGatewayCheck (client l) g = None → is_global g →
  ∀ p, p ∈ l → is_global p → egw_Meta p = egw_Meta g.
Proof using client_lists.
  intros Hl [Hn Hns] Hc Hg p Hp Hgp. unfold egressGatewayCheck in Hc. rewrite decide_False, first_some_None, client_lists in Hc by done.
  specialize (Hc p Hp). simpl in Hc. destruct (equal_fold _ _ && equal_fold _ _) eqn:E; [|by rewrite decide_False in Hc].
  rewrite Forall_forall in Hl. destruct (Hl p Hp) as [Hpn Hpns].
  apply andb_true_iff in E as [E1%bool_decide_eq_true_1 E2%bool_decide_eq_true_1].
  rewrite Hn, Hpn in E1. rewrite Hns, Hpns in E2. destruct (egw_Meta p), (egw_Meta g); simpl in *; congruence.
Qed.

(** Whatever is created, changed and deleted through the webhook, at most one
    EgressGateway of the cluster has global gateways. *)
Theorem global_gateway_unique (l : list EgressGateway) :
  rtc gateway_step [] l → ∀ x y, x ∈ l → y ∈ l → is_global x → is_global y → x = y.
Proof using client_lists.
  cut (∀ l0, rtc gateway_step l0 l → gateways_ok l0 → gateways_ok l).
  { intros H Hl. apply go_global, (H [] Hl). split; [constructor|constructor|set_solver]. }
  intros l0 Hr. induction Hr as [|l0 l1 l2 Hst _ IH]; [done|]. intros Hok. apply IH. destruct Hst as [l g Hlc Hc|l meta].
  - pose proof (gateways_filter (egw_Meta g) l Hok) as [Hl Hu Hg]. split.
    + by constructor.
    + csimpl. constructor; [|done]. intros (p & E & [Hp _]%list_elem_of_filter)%list_elem_of_fmap. congruence.
    + assert (∀ p, p ∈ filter (λ p, egw_Meta p ≠ egw_Meta g) l → is_global g → ¬ is_global p) as Hno.
      { intros p [Hne Hp]%list_elem_of_filter Hgg Hgp. apply Hne.
        eapply egressGatewayCheck_None; [apply Hok|done..]. }
      intros x y [->|Hx]%elem_of_cons [->|Hy]%elem_of_cons ??; [done|by edestruct Hno|by edestruct Hno|by apply Hg].
  - by apply gateways_filter.
Qed.
End gateways.

(** ** Examples *)

Module WebhookWitness.
#[local] Existing Instance stdpp_order.

Definition backend (name : string) : BackendSpec := mkBackendSpec name (mkPortSpec 80 "HTTP") None.
Definition ingress (name : string) : IngressBackend := {|
  ib_Meta := mkObjectMeta "shop" name;
  ib_Spec := mkIngressBackendSpec [backend "web"] [mkIngressSourceSpec KindIPRange "10.0.0.0/8" ""] [];
  ib_Status := mkIngressBackendStatus "" "" |}.
Definition setting (name host : string) : UpstreamTrafficSetting := {|
  uts_Meta := mkObjectMeta "shop" name;
  uts_Spec := mkUpstreamTrafficSettingSpec host None None [];
  uts_Status := mkUpstreamTrafficSettingStatus "" "" |}.
Definition gateway (name : string) (global : bool) : EgressGateway := {|
  egw_Meta := mkObjectMeta "shop" name;
  egw_Spec := mkEgressGatewaySpec (if global then Some [mkGatewayBindingSubject "g" "gw" (Some 80)] else None) None [] |}.

(** A store with an IngressBackend and a setting. *)
Definition informers : PolicyInformers := {|
  pi_Egress := store_of ∅; pi_EgressGateway := store_of ∅;
  pi_IngressBackend := store_of {[ "shop/first" := ingress "first" ]};
  pi_Retry := store_of ∅; pi_AccessControl := store_of ∅;
  pi_UpstreamTrafficSetting := store_of {[ "shop/web" := setting "web" "web.shop.svc" ]} |}.

Definition ctl : Controller := client (λ _ _, false) {|
  inf_Namespace := store_of ∅; inf_Service := store_of ∅; inf_ServiceAccount := store_of ∅;
  inf_Pod := store_of ∅; inf_Endpoints := store_of ∅ |}.
Definition flags : FeatureFlags := mcs_FeatureFlags zero_MeshConfigSpec.

(** Decoders that read one object of each kind, and no other. *)
Definition fails {A} (_ : string) : result string A := Err "unexpected".
Definition decoders : Decoders := {|
  dec_TrafficTarget := fails; dec_AccessCert := fails; dec_AccessControl := fails;
  dec_IngressBackend := λ o, Ok (ingress o); dec_Egress := fails;
  dec_UpstreamTrafficSetting := λ o, Ok (setting o (o +:+ ".shop.svc"));
  dec_EgressGateway := λ o, Ok (gateway o true);
  dec_Plugin := fails; dec_PluginConfig := fails; dec_PluginChain := fails |}.

Definition request (kind name : string) : AdmissionRequest := mkAdmissionRequest "uid" (policy_gvk kind) "shop" name.

(** A second IngressBackend of the same backend is admitted. *)
Lemma ingressBackend_admitted_witness :
  ∃ resp, handleValidation (policy_client informers ctl) flags (λ _, true) decoders (request "IngressBackend" "second") = Ret resp ∧
    resp_UID resp = "uid" ∧ (resp_Allowed resp = true ↔ ingress_ok (ingress "second")).
Proof.
  apply (ingressBackend_admitted informers ctl flags (λ _, true) decoders (request "IngressBackend" "second")).
  - intros x Hx. assert (x = ingress "first") as -> by (apply list_elem_of_singleton; exact Hx).
    apply (bool_decide_unpack _). vm_compute. exact I.
  - reflexivity.
  - reflexivity.
Defined.

Example conflict_admitted :
  handleValidation (policy_client informers ctl) flags (λ _, true) decoders (request "IngressBackend" "second") =
    Ret (mkAdmissionResponse "uid" true None) ∧
  DetectIngressBackendConflicts (ingress "second") (ingress "first") ≠ [].
Proof. by vm_compute. Qed.

(** The setting of another host makes the webhook panic. *)
Lemma upstreamTrafficSetting_panics_witness :
  handleValidation (policy_client informers ctl) flags (λ _, true) decoders (request "UpstreamTrafficSetting" "api") = Panic.
Proof.
  apply (upstreamTrafficSetting_panics informers ctl flags (λ _, true) decoders (request "UpstreamTrafficSetting" "api")
           (setting "api" "api.shop.svc")).
  - reflexivity.
  - reflexivity.
  - reflexivity.
  - exists (setting "web" "web.shop.svc"), []. split; [reflexivity|]. apply (bool_decide_unpack _). vm_compute. exact I.
Defined.

(** Two resources are stored, and one has global gateways. *)
Definition gateway_client (l : list EgressGateway) : PolicyController :=
  policy_client {| pi_Egress := store_of ∅; pi_EgressGateway := {| List := l; GetByKey := λ _, Ok None |};
    pi_IngressBackend := store_of ∅; pi_Retry := store_of ∅; pi_AccessControl := store_of ∅;
    pi_UpstreamTrafficSetting := store_of ∅ |} ctl.

Lemma global_gateway_unique_witness :
  let l := [gateway "b" false; gateway "a" true] in
  rtc (gateway_step gateway_client) [] l ∧ ∀ x y, x ∈ l → y ∈ l → is_global x → is_global y → x = y.
Proof.
  assert (rtc (gateway_step gateway_client) [] [gateway "b" false; gateway "a" true]) as Hr.
  { eapply rtc_l; [apply (gateway_put gateway_client [] (gateway "a" true)); [split; reflexivity|reflexivity]|].
    eapply rtc_once. apply (gateway_put gateway_client [gateway "a" true] (gateway "b" false)); [split; reflexivity|reflexivity]. }
  split; [exact Hr|]. apply (global_gateway_unique gateway_client (λ l, eq_refl)), Hr.
Defined.
End WebhookWitness.
