(* ===== verification/PipyServer.v ===== *)
(** * pkg/sidecar/providers/pipy: the sessions of the sidecars

    registry/registry.go, registry/services.go, repo/broadcast.go and repo/inform.go: which
    sidecars are connected, and the goroutines that serve them.  [broadcastListener] looks
    at the pods whenever its timer fires; for a pod it does not know it starts a session,
    a goroutine that runs [informTrafficPolicies], and waits on a wait group; for the
    proxies whose pod is gone it starts a goroutine that calls [UnregisterProxy].  The
    goroutines are a step relation: a step is one access to what they share, a send and
    its receive on the unbuffered channel [Quit] are one step.  What a session does with
    an update, a run of the job of [PipyJob], changes nothing here and is left out, and
    so are the timers, which only decide when the listener looks.

    The parser of UUIDs is a third-party package: [parseUUID s] is the canonical form of
    [s], if it is a UUID.  Label selectors are a parameter as in [K8sClient]. *)

From S2P Require Import Prelude GoStrings Identity Service K8s K8sClient KubeProvider.

(** ** Proxies *)

Record PodMetadata := mkPodMetadata {
  pm_UID : string;
  pm_Name : string;
  pm_Namespace : string;
  pm_ServiceAccount : K8sServiceAccount;
}.

Record PipyProxy := mkPipyProxy {
  pxy_UUID : string;
  pxy_Identity : ServiceIdentity;
  pxy_Addr : option string;
  pxy_PodMetadata : option PodMetadata;
}.

Definition GetAddr (p : PipyProxy) : string := default "" (pxy_Addr p).

Definition models_Proxy (p : PipyProxy) : Proxy := mkProxy (pxy_UUID p) (pxy_Identity p).

(** A certificate name of the form <account>.<namespace>.<trust domain> is for the proxy
    with this identity. *)
Definition isCNforProxy (p : PipyProxy) (cn : string) : outcome bool :=
  match split "." cn with
  | name :: namespace :: _ :: _ =>
    sa ← ToK8sServiceAccount (pxy_Identity p);
    Ret (bool_decide (mkK8sServiceAccount namespace name = sa))
  | _ => Ret false
  end.

(** The metadata of the pod are recorded once; the second component is the error
    [errServiceAccountMismatch].  A pod that is not found is no error. *)
Definition recordPodMetadata (ctl : Controller) (p : PipyProxy) : outcome (PipyProxy * bool) :=
  let verify p (md : PodMetadata) :=
    sa ← ToK8sServiceAccount (pxy_Identity p);
    Ret (p, bool_decide (sa ≠ pm_ServiceAccount md)) in
  match pxy_PodMetadata p with
  | Some md => verify p md
  | None =>
    r ← ctl_GetPodForProxy ctl (models_Proxy p);
    match r with
    | Err _ => Ret (p, false)
    | Ok pod =>
      let md := mkPodMetadata (pod_UID pod) (pod_Name pod) (pod_Namespace pod)
                  (mkK8sServiceAccount (pod_Namespace pod) (pod_ServiceAccountName pod)) in
      verify {| pxy_UUID := pxy_UUID p; pxy_Identity := pxy_Identity p;
                pxy_Addr := if decide (pod_PodIP pod = "") then pxy_Addr p else Some (pod_PodIP pod);
                pxy_PodMetadata := Some md |} md
    end
  end.

(** ** The services of a proxy (registry/services.go) *)

Section services.
Context (Matches : labels → labels → bool) (ctl : Controller).

Definition kubernetesServicesToMeshServices (svcs : list K8sService) (subdomainFilter : string) :
    list MeshService :=
  filter (λ ms, Subdomain ms = subdomainFilter ∨ Subdomain ms = "") (svcs ≫= ServiceToMeshServices ctl).

(** The test on namespace, selector and labels is that of [getServicesByLabels]. *)
Definition listServicesForPod (pod : Pod) : list MeshService :=
  kubernetesServicesToMeshServices
    (filter (selects Matches (pod_Labels pod) (pod_Namespace pod)) (ctl_ListServices ctl)) (pod_Name pod).

Definition ListProxyServices (p : PipyProxy) : outcome (result K8sError (list MeshService)) :=
  r ← ctl_GetPodForProxy ctl (models_Proxy p);
  Ret match r with Err e => Err e | Ok pod => Ok (listServicesForPod pod) end.

Definition ListProxyPods : list Pod :=
  filter (λ pod, is_Some (pod_Labels pod !! SidecarUniqueIDLabelName)) (ctl_ListPods ctl).
End services.

(** ** The registry *)

(** A proxy is an object that the goroutines share: an object has a number, that of
    [proxy.ID], and the registry has the numbers. *)
Abbreviation Registry := (gmap string nat).

(** [LoadOrStore]: the object that is registered. *)
Definition RegisterProxy (reg : Registry) (uuid : string) (o : nat) : nat * Registry :=
  match reg !! uuid with
  | Some o' => (o', reg)
  | None => (o, <[uuid := o]> reg)
  end.

Definition GetConnectedProxyCount (reg : Registry) : Z := Z.of_nat (size reg).

Section sessions.
Context (parseUUID : string → option string).

Definition GetProxyUUIDFromPod (pod : Pod) : option string :=
  uuidString ← pod_Labels pod !! SidecarUniqueIDLabelName; parseUUID uuidString.

Definition GetProxyFromPod (pod : Pod) : option PipyProxy :=
  proxyUUID ← GetProxyUUIDFromPod pod;
  Some (mkPipyProxy proxyUUID (New (pod_ServiceAccountName pod) (pod_Namespace pod)) None None).

(** ** The goroutines *)

(** Where a session is: before the check of the limit; between it and
    [recordPodMetadata]; in its loop, with the wait group done and [Quit] ready to
    receive; in the deferred [UnregisterProxy], which sends on [Quit] before it deletes;
    about to delete; or done, with an error before [wg.Done()] or in the end. *)
Inductive Session :=
  | Checking
  | Recording
  | Looping (o : nat)
  | Quitting (o : nat)
  | Removing (o : nat)
  | Failed
  | Finished (o : nat).

(** The object that a session serves, once its wait group is done. *)
Definition serves (x : Session) : option nat :=
  match x with
  | Looping o | Quitting o | Removing o | Finished o => Some o
  | Checking | Recording | Failed => None
  end.

(** A goroutine that unregisters the proxies that are gone. *)
Inductive Unregister :=
  | Sending (os : list nat)
  | Deleting (o : nat) (os : list nat).

(** Where the listener is: at its [select]; in [fireExistProxies], with the pods to come
    and the proxies so far; or waiting for session [s]. *)
Inductive Listener :=
  | Waiting
  | Scanning (pods : list Pod) (seen : list nat)
  | Informing (s : nat) (pods : list Pod) (seen : list nat).

Record World := mkWorld {
  w_listener : Listener;
  w_registry : Registry;
  w_objects : gmap nat PipyProxy;
  w_sessions : gmap nat Session;
  w_unregister : list Unregister;
  w_next : nat;
}.

Definition init : World := mkWorld Waiting ∅ ∅ ∅ [] 0.

Definition with_listener (w : World) (l : Listener) : World :=
  mkWorld l (w_registry w) (w_objects w) (w_sessions w) (w_unregister w) (w_next w).
Definition with_registry (w : World) (reg : Registry) : World :=
  mkWorld (w_listener w) reg (w_objects w) (w_sessions w) (w_unregister w) (w_next w).
Definition with_objects (w : World) (objects : gmap nat PipyProxy) : World :=
  mkWorld (w_listener w) (w_registry w) objects (w_sessions w) (w_unregister w) (w_next w).
Definition with_session (w : World) (s : nat) (x : Session) : World :=
  mkWorld (w_listener w) (w_registry w) (w_objects w) (<[s := x]> (w_sessions w)) (w_unregister w) (w_next w).
Definition with_unregister (w : World) (gs : list Unregister) : World :=
  mkWorld (w_listener w) (w_registry w) (w_objects w) (w_sessions w) gs (w_next w).
Definition with_next (w : World) : World :=
  mkWorld (w_listener w) (w_registry w) (w_objects w) (w_sessions w) (w_unregister w) (S (w_next w)).

(** [connectedProxies.Delete(p.UUID.String())] *)
Definition deleteProxy (w : World) (o : nat) : Registry :=
  match w_objects w !! o with
  | Some p => delete (pxy_UUID p) (w_registry w)
  | None => w_registry w
  end.

(** The loop over the proxies of the pods: their metadata, and the UUIDs of
    [connectedProxies], those with metadata and an address. *)
Definition confirm (ctl : Controller) (acc : gmap nat PipyProxy * gset string) (o : nat) :
    outcome (gmap nat PipyProxy * gset string) :=
  match acc.1 !! o with
  | None => Ret acc
  | Some p =>
    '(p, mismatch) ← match pxy_PodMetadata p with
                     | None => recordPodMetadata ctl p
                     | Some _ => Ret (p, false)
                     end;
    let ready := bool_decide (is_Some (pxy_PodMetadata p)) && bool_decide (GetAddr p ≠ "") in
    Ret (<[o := p]> acc.1,
         if negb mismatch && ready then {[pxy_UUID p]} ∪ acc.2 else acc.2)
  end.

(** [disconnectedProxies] *)
Definition disconnected (reg : Registry) (connected : gset string) : list nat :=
  (map_to_list (filter (λ e, e.1 ∉ connected) reg)).*2.

Context (maxDataPlaneConnections : Z).

Definition full (reg : Registry) : bool :=
  bool_decide (maxDataPlaneConnections ≠ 0%Z) &&
  bool_decide (maxDataPlaneConnections ≤ GetConnectedProxyCount reg)%Z.

Inductive step (w : World) : World → Prop :=
  (** the timer fires; [kubeController.ListPods()] *)
  | step_fire pods :
    w_listener w = Waiting → step w (with_listener w (Scanning pods []))
  | step_skip pod pods seen :
    w_listener w = Scanning (pod :: pods) seen → GetProxyFromPod pod = None →
    step w (with_listener w (Scanning pods seen))
  | step_known pod pods seen p o :
    w_listener w = Scanning (pod :: pods) seen → GetProxyFromPod pod = Some p →
    w_registry w !! pxy_UUID p = Some o →
    step w (with_next (with_listener w (Scanning pods (seen ++ [o]))))
  (** [informProxy]: the session and its wait group *)
  | step_inform pod pods seen p :
    w_listener w = Scanning (pod :: pods) seen → GetProxyFromPod pod = Some p →
    w_registry w !! pxy_UUID p = None →
    step w (with_next (with_session (with_objects
              (with_listener w (Informing (w_next w) pods seen))
              (<[w_next w := p]> (w_objects w))) (w_next w) Checking))
  (** [errTooManyConnections] *)
  | step_full s :
    w_sessions w !! s = Some Checking → full (w_registry w) = true →
    step w (with_session w s Failed)
  | step_room s :
    w_sessions w !! s = Some Checking → full (w_registry w) = false →
    step w (with_session w s Recording)
  | step_mismatch s ctl p p' :
    w_sessions w !! s = Some Recording → w_objects w !! s = Some p →
    recordPodMetadata ctl p = Ret (p', true) →
    step w (with_session (with_objects w (<[s := p']> (w_objects w))) s Failed)
  (** [RegisterProxy], [Quit] and [wg.Done()] *)
  | step_register s ctl p p' o reg :
    w_sessions w !! s = Some Recording → w_objects w !! s = Some p →
    recordPodMetadata ctl p = Ret (p', false) →
    RegisterProxy (w_registry w) (pxy_UUID p') s = (o, reg) →
    step w (with_session (with_registry (with_objects w (<[s := p']> (w_objects w))) reg) s (Looping o))
  (** [wg.Wait()] returns *)
  | step_informed s pods seen x o :
    w_listener w = Informing s pods seen → w_sessions w !! s = Some x →
    serves x = Some o →
    step w (with_listener w (Scanning pods (seen ++ [o])))
  (** the end of a scan *)
  | step_scanned seen ctl objects connected :
    w_listener w = Scanning [] seen →
    foldO (confirm ctl) (w_objects w, ∅) seen = Ret (objects, connected) →
    step w (with_unregister (with_objects (with_listener w Waiting) objects)
              (Sending (disconnected (w_registry w) connected) :: w_unregister w))
  (** a goroutine sends on [Quit], and the loop of a session receives *)
  | step_quit gs gs' o os s :
    w_unregister w = gs ++ Sending (o :: os) :: gs' → w_sessions w !! s = Some (Looping o) →
    step w (with_session (with_unregister w (gs ++ Deleting o os :: gs')) s (Quitting o))
  | step_delete gs gs' o os :
    w_unregister w = gs ++ Deleting o os :: gs' →
    step w (with_registry (with_unregister w (gs ++ Sending os :: gs')) (deleteProxy w o))
  (** the deferred call of a session sends, and the loop of a session receives *)
  | step_deferred s s' o :
    s ≠ s' → w_sessions w !! s = Some (Quitting o) → w_sessions w !! s' = Some (Looping o) →
    step w (with_session (with_session w s (Removing o)) s' (Quitting o))
  | step_removed s o :
    w_sessions w !! s = Some (Removing o) →
    step w (with_session (with_registry w (deleteProxy w o)) s (Finished o)).

Abbreviation steps := (rtc step).
End sessions.

(** ** Theorems *)

Lemma recordPodMetadata_UUID ctl p p' b : recordPodMetadata ctl p = Ret (p', b) → pxy_UUID p' = pxy_UUID p.
Proof.
  unfold recordPodMetadata. destruct (pxy_PodMetadata p) as [md|].
  { intros (sa & _ & [= <- _])%bind_Ret. done. }
  intros ([pod|e] & _ & Hr)%bind_Ret; [|by injection Hr as <- _].
  apply bind_Ret in Hr as (sa & _ & [= <- _]). done.
Qed.

Lemma confirm_UUID ctl acc seen acc' o :
  foldO (confirm ctl) acc seen = Ret acc' → pxy_UUID <$> acc'.1 !! o = pxy_UUID <$> acc.1 !! o.
Proof.
  apply (foldO_inv _ (λ a, pxy_UUID <$> a.1 !! o = pxy_UUID <$> acc.1 !! o)); [|done].
  intros a o' a' _ <-. unfold confirm. destruct (a.1 !! o') as [p|] eqn:Ep; [|by intros [= <-]].
  intros ([p' b] & Hp & [= <-])%bind_Ret. simpl. destruct (decide (o' = o)) as [->|Hne].
  - rewrite lookup_insert_eq, Ep. simpl. f_equal. destruct (pxy_PodMetadata p); [by injection Hp as <- _|].
    by eapply recordPodMetadata_UUID.
  - by rewrite lookup_insert_ne.
Qed.

Section session_theorems.
Context (maxDataPlaneConnections : Z).
Abbreviation full := (full maxDataPlaneConnections).

Definition uuidOf (w : World) (o : nat) : option string := pxy_UUID <$> w_objects w !! o.

Definition starting (w : World) (s : nat) : Prop :=
  w_sessions w !! s = Some Checking ∨ w_sessions w !! s = Some Recording.

(** What holds in every state: a session that is starting is the one the listener waits
    for, and its proxy is not registered; it serves its own object; it is never past the
    deferred call; a registered proxy has a session; a session that passed the limit
    finds room; and the limit holds. *)
Record inv (w : World) : Prop := {
  inv_start s : starting w s → ∃ pods seen u, w_listener w = Informing s pods seen ∧
    uuidOf w s = Some u ∧ w_registry w !! u = None;
  inv_own s x o : w_sessions w !! s = Some x → serves x = Some o → x = Looping s ∨ x = Quitting s;
  inv_reg u o : w_registry w !! u = Some o → uuidOf w o = Some u ∧
    ∃ x, w_sessions w !! o = Some x ∧ serves x = Some o;
  inv_dom s : is_Some (w_sessions w !! s) → s < w_next w;
  inv_room s : w_sessions w !! s = Some Recording → full (w_registry w) = false;
  inv_bound : (0 < maxDataPlaneConnections → GetConnectedProxyCount (w_registry w) ≤ maxDataPlaneConnections)%Z;
}.

Lemma full_false reg : full reg = false →
  (0 < maxDataPlaneConnections → GetConnectedProxyCount reg < maxDataPlaneConnections)%Z.
Proof.
  unfold PipyServer.full. rewrite andb_false_iff, !bool_decide_eq_false. lia.
Qed.

Lemma full_mono (reg reg' : Registry) : size reg' ≤ size reg → full reg = false → full reg' = false.
Proof.
  unfold PipyServer.full, GetConnectedProxyCount. rewrite !andb_false_iff, !bool_decide_eq_false. intros Hs [?|?]; [by left|right]. lia.
Qed.

Lemma size_delete_le u (reg : Registry) : size (delete u reg) ≤ size reg.
Proof. apply map_subseteq_size, delete_subseteq. Qed.

Lemma deleteProxy_sub w o u o' : deleteProxy w o !! u = Some o' → w_registry w !! u = Some o'.
Proof. unfold deleteProxy. destruct (w_objects w !! o); [|done]. by intros [_ ?]%lookup_delete_Some. Qed.

Lemma deleteProxy_size w o : size (deleteProxy w o) ≤ size (w_registry w).
Proof. unfold deleteProxy. destruct (w_objects w !! o); [apply size_delete_le|done]. Qed.

Lemma inv_init : inv init.
Proof.
  split; unfold starting; simpl; try (intros; rewrite ?lookup_empty in *; naive_solver).
  unfold GetConnectedProxyCount. simpl. rewrite map_size_empty. lia.
Qed.
Lemma starting_unique w s s' : inv w → starting w s → starting w s' → s = s'.
Proof.
  intros I Hs Hs'. destruct (inv_start _ I _ Hs) as (? & ? & ? & E & _).
  destruct (inv_start _ I _ Hs') as (? & ? & ? & E' & _). congruence.
Qed.

(** A step that leaves the sessions alone, keeps the UUIDs, does not add to the registry
    and moves the listener only when no session is starting. *)
Lemma inv_frame w w' :
  inv w → w_sessions w' = w_sessions w → (∀ o, uuidOf w' o = uuidOf w o) →
  w_registry w' ⊆ w_registry w → w_next w ≤ w_next w' →
  (w_listener w' = w_listener w ∨ ∀ s, ¬ starting w s) → inv w'.
Proof.
  intros I Hs Hu Hr Hn Hl. assert (size (w_registry w') ≤ size (w_registry w)) as Hsize by by apply map_subseteq_size.
  split; unfold starting; rewrite ?Hs.
  - intros s Hst. destruct Hl as [->|Hl]; [|by destruct (Hl s)].
    destruct (inv_start _ I s Hst) as (pods & seen & u & ? & ? & ?). exists pods, seen, u.
    rewrite Hu. split_and!; [done..|]. by eapply lookup_weaken_None.
  - apply inv_own, I.
  - intros u o Ho. rewrite Hu. eapply inv_reg; [done|]. by eapply lookup_weaken.
  - intros s Hin. pose proof (inv_dom _ I s Hin). lia.
  - intros s Hrec. eapply full_mono; [done|]. by eapply inv_room.
  - intros Hpos. pose proof (inv_bound _ I Hpos). unfold GetConnectedProxyCount in *. lia.
Qed.

(** A step that moves one session [s], from a place where it is not starting or to the
    next place of its start, and leaves everything else alone. *)
Lemma inv_session w s x y :
  inv w → w_sessions w !! s = Some x →
  (y = Checking ∨ y = Recording → starting w s) →
  (∀ o, serves y = Some o → y = Looping s ∨ y = Quitting s) →
  (∀ o, serves x = Some o → serves y = Some o) →
  (y = Recording → full (w_registry w) = false) →
  inv (with_session w s y).
Proof.
  intros I Hx Hstart Hown Hserves Hroom. split; simpl.
  - intros s' Hs'. change (uuidOf (with_session w s y) s') with (uuidOf w s'). apply (inv_start _ I).
    unfold starting in *. simpl in Hs'. destruct (decide (s = s')) as [<-|Hne].
    + rewrite lookup_insert_eq in Hs'. apply Hstart. naive_solver.
    + by rewrite lookup_insert_ne in Hs'.
  - intros s' x' o [[<- <-]|[Hne Hx']]%lookup_insert_Some Ho; [by eapply Hown|]. by eapply inv_own.
  - intros u o Ho. destruct (inv_reg _ I _ _ Ho) as (Hu & x' & Hx' & Hsv). split; [done|].
    destruct (decide (s = o)) as [<-|Hne].
    + exists y. rewrite lookup_insert_eq. split; [done|]. apply Hserves. congruence.
    + exists x'. by rewrite lookup_insert_ne.
  - intros s' [z Hz]. apply (inv_dom _ I). destruct (decide (s = s')) as [<-|]; [by exists x|].
    rewrite lookup_insert_ne in Hz by done. by exists z.
  - intros s' [[<- Hy]|[Hne Hx']]%lookup_insert_Some; [by apply Hroom|]. by eapply inv_room.
  - apply inv_bound, I.
Qed.

Lemma inv_not_starting w : inv w →
  w_listener w = Waiting ∨ (∃ pods seen, w_listener w = Scanning pods seen) ∨
  (∃ s pods seen x o, w_listener w = Informing s pods seen ∧ w_sessions w !! s = Some x ∧ serves x = Some o) →
  ∀ s, ¬ starting w s.
Proof.
  intros I Hl s Hs. destruct (inv_start _ I s Hs) as (pods & seen & u & El & _).
  destruct Hl as [?|[(? & ? & ?)|(s' & ? & ? & x & o & ? & Hx & Ho)]]; [congruence..|].
  assert (s' = s) as -> by congruence. destruct Hs as [Hs|Hs]; rewrite Hs in Hx; by injection Hx as <-.
Qed.

Lemma inv_inform w pods seen p :
  inv w → (∃ l, w_listener w = Scanning l seen) → w_registry w !! pxy_UUID p = None →
  inv (with_next (with_session (with_objects (with_listener w (Informing (w_next w) pods seen))
        (<[w_next w := p]> (w_objects w))) (w_next w) Checking)).
Proof.
  intros I [l Hl] Hp. assert (∀ s, ¬ starting w s) as Hn by (apply inv_not_starting; eauto).
  assert (w_sessions w !! w_next w = None) as Hnew.
  { apply eq_None_not_Some. intros Hin%(inv_dom _ I). lia. }
  assert (∀ s, w_sessions w !! s = Some Recording → False) as Hrec by (intros s ?; by apply (Hn s); right).
  split; unfold uuidOf; simpl.
  - intros s Hs. destruct (decide (w_next w = s)) as [<-|Hne].
    { exists pods, seen, (pxy_UUID p). by rewrite lookup_insert_eq. }
    unfold starting in Hs. simpl in Hs. rewrite lookup_insert_ne in Hs by done. by destruct (Hn s).
  - intros s x o [[<- <-]|[Hne Hx]]%lookup_insert_Some Ho; [done|]. by eapply inv_own.
  - intros u o Ho. destruct (inv_reg _ I _ _ Ho) as (Hu & x & Hx & Hsv).
    assert (w_next w ≠ o) by congruence. rewrite !lookup_insert_ne by done. eauto.
  - intros s [x [[<- <-]|[Hne Hx]]%lookup_insert_Some]; [lia|]. pose proof (inv_dom _ I s ltac:(by exists x)). lia.
  - intros s [[<- ?]|[Hne Hx]]%lookup_insert_Some; [done|]. by destruct (Hrec s).
  - apply inv_bound, I.
Qed.

Lemma inv_register w s p' u :
  inv w → w_sessions w !! s = Some Recording → uuidOf w s = Some u → pxy_UUID p' = u →
  w_registry w !! u = None →
  inv (with_session (with_registry (with_objects w (<[s := p']> (w_objects w)))
        (<[u := s]> (w_registry w))) s (Looping s)).
Proof.
  intros I Hs Hu Hp Hnone. assert (∀ s', s' ≠ s → ¬ starting w s') as Hothers.
  { intros s' Hne Hst. apply Hne. eapply starting_unique; [done..|]. by right. }
  split; unfold uuidOf; simpl.
  - intros s' Hst. unfold starting in Hst. simpl in Hst. destruct (decide (s = s')) as [<-|Hne].
    { rewrite lookup_insert_eq in Hst. naive_solver. }
    rewrite lookup_insert_ne in Hst by done. by destruct (Hothers s').
  - intros s' x o [[<- <-]|[Hne Hx]]%lookup_insert_Some Ho; [by left|]. by eapply inv_own.
  - intros u' o [[<- <-]|[Hne Ho]]%lookup_insert_Some.
    { rewrite !lookup_insert_eq. simpl. rewrite Hp. split; [done|]. by exists (Looping s). }
    destruct (inv_reg _ I _ _ Ho) as (Hu' & x & Hx & Hsv).
    assert (s ≠ o) by (intros <-; congruence). rewrite !lookup_insert_ne by done. eauto.
  - intros s' [x [[<- <-]|[Hne Hx]]%lookup_insert_Some]; apply (inv_dom _ I); eauto.
  - intros s' [[_ ?]|[Hne Hx]]%lookup_insert_Some; [done|]. destruct (Hothers s'); [done|]. by right.
  - intros Hpos. pose proof (full_false _ (inv_room _ I _ Hs) Hpos). unfold GetConnectedProxyCount in *.
    rewrite map_size_insert_None by done. lia.
Qed.

(** Objects keep their UUID, whatever is recorded in them. *)
Lemma uuidOf_insert w s p p' o :
  w_objects w !! s = Some p → pxy_UUID p' = pxy_UUID p →
  uuidOf (with_objects w (<[s := p']> (w_objects w))) o = uuidOf w o.
Proof.
  intros Hp E. unfold uuidOf. simpl. destruct (decide (s = o)) as [<-|]; [|by rewrite lookup_insert_ne].
  rewrite lookup_insert_eq, Hp. simpl. by rewrite E.
Qed.

Lemma deleteProxy_subseteq w o : deleteProxy w o ⊆ w_registry w.
Proof. unfold deleteProxy. destruct (w_objects w !! o); [apply delete_subseteq|done]. Qed.

Context (parseUUID : string → option string).
Abbreviation step := (step parseUUID maxDataPlaneConnections).

Lemma world_inv_step w w' : inv w → step w w' → inv w'.
Proof.
  intros I. destruct 1 as [pods Hl|pod pods seen Hl _|pod pods seen p o Hl _ _|pod pods seen p Hl _ Hp
    |s Hs Hf|s Hs Hf|s ctl p p' Hs Hp Hr|s ctl p p' o reg Hs Hp Hr Hreg|s pods seen x o Hl Hx Ho
    |seen ctl objects connected Hl Hc|gs gs' o os s Hg Hs|gs gs' o os Hg|s s' o Hne Hs Hs'|s o Hs].
  - eapply inv_frame; [done..|simpl; lia|right]. apply inv_not_starting; auto.
  - eapply inv_frame; [done..|simpl; lia|right]. apply inv_not_starting; eauto.
  - eapply inv_frame; [done..|simpl; lia|right]. apply inv_not_starting; eauto.
  - apply inv_inform; eauto.
  - eapply inv_session; [done..| | | |]; naive_solver.
  - eapply inv_session; [done..| | | |]; unfold starting; naive_solver.
  - assert (inv (with_objects w (<[s := p']> (w_objects w)))) as I'.
    { eapply inv_frame; [done..| |done|done|by left]. intros o. eapply uuidOf_insert; [done|]. by eapply recordPodMetadata_UUID. }
    eapply inv_session; [exact I'|done| | | |]; naive_solver.
  - destruct (inv_start _ I s) as (? & ? & u & _ & Hu & Hnone); [by right|].
    assert (pxy_UUID p' = u) as Eu.
    { apply recordPodMetadata_UUID in Hr. unfold uuidOf in Hu. rewrite Hp in Hu. simpl in Hu. congruence. }
    unfold RegisterProxy in Hreg. rewrite Eu, Hnone in Hreg. injection Hreg as <- <-. by eapply inv_register.
  - eapply inv_frame; [done..|simpl; lia|right]. apply inv_not_starting; [done|]. right; right. eauto 10.
  - eapply inv_frame; [done|done| |done|simpl; lia|right; apply inv_not_starting; eauto].
    intros o. by apply (confirm_UUID _ _ _ _ o Hc).
  - destruct (inv_own _ I _ _ _ Hs eq_refl) as [[= ->]|?]; [|done].
    apply (inv_session (with_unregister w _)) with (x := Looping s); [|done|naive_solver..].
    eapply inv_frame; [done..|simpl; lia|by left].
  - eapply inv_frame; [done|done|done| |simpl; lia|by left]. apply deleteProxy_subseteq.
  - destruct (inv_own _ I _ _ _ Hs eq_refl) as [?|[= ->]]; [done|].
    by destruct (inv_own _ I _ _ _ Hs' eq_refl) as [[= <-]|?].
  - by destruct (inv_own _ I _ _ _ Hs eq_refl).
Qed.

Lemma world_inv_reachable w : rtc step init w → inv w.
Proof.
  intros Hr. pattern w. revert Hr. generalize inv_init. generalize init as w0. intros w0 I Hr.
  induction Hr as [|w0 w1 w2 Hs _ IH]; [done|]. apply IH. by eapply world_inv_step.
Qed.

(** C16. The registry stays within the limit and in step with the sessions: in every
    reachable state at most [maxDataPlaneConnections] proxies are registered, if there is
    a limit, although the check and the registration are two steps; a proxy is registered
    under its own UUID, and it has a session, which still serves it or is in its deferred
    call; and at most one session is starting. *)
Theorem registry_invariant (w : World) :
  rtc step init w →
  (0 < maxDataPlaneConnections → GetConnectedProxyCount (w_registry w) ≤ maxDataPlaneConnections)%Z ∧
  (∀ u o, w_registry w !! u = Some o → uuidOf w o = Some u ∧
     (w_sessions w !! o = Some (Looping o) ∨ w_sessions w !! o = Some (Quitting o))) ∧
  (∀ s s', starting w s → starting w s' → s = s').
Proof.
  intros I%world_inv_reachable. split_and!.
  - apply inv_bound, I.
  - intros u o (Hu & x & Hx & Ho)%(inv_reg _ I). split; [done|].
    destruct (inv_own _ I _ _ _ Hx Ho) as [->| ->]; auto.
  - intros s s'. by apply starting_unique.
Qed.

Lemma failed_blocks w w' s pods seen :
  w_listener w = Informing s pods seen → w_sessions w !! s = Some Failed → step w w' →
  w_listener w' = Informing s pods seen ∧ w_sessions w' !! s = Some Failed.
Proof.
  intros Hl Hs Hst. destruct Hst; simpl; try congruence; try (split; [done|]);
    try done; try (rewrite lookup_insert_ne; [done|congruence]).
  - match goal with Hl' : w_listener w = Informing ?s' _ _ |- _ => assert (s' = s) as -> by congruence end. by simplify_eq.
  - rewrite !lookup_insert_ne; [done|congruence..].
Qed.

(** C39. A proxy that is refused stops the control plane: [informTrafficPolicies] returns
    before [wg.Done()] when there are too many connections or the service account does not
    match, and from then on the listener waits on the wait group in every later state, so
    that no pod is looked at and no configuration is generated by it any more. *)
Theorem refused_proxy_blocks (w w' : World) (s : nat) (pods : list Pod) (seen : list nat) :
  w_listener w = Informing s pods seen → w_sessions w !! s = Some Failed → rtc step w w' →
  w_listener w' = Informing s pods seen.
Proof.
  intros Hl Hs Hr. induction Hr as [|w w1 w2 Hst _ IH]; [done|].
  destruct (failed_blocks _ _ _ _ _ Hl Hs Hst). by apply IH.
Qed.

Lemma quitting_step w w' s o :
  inv w → step w w' → w_sessions w !! s = Some (Quitting o) → w_sessions w' !! s = Some (Quitting o).
Proof.
  intros I Hst Hs. assert (s < w_next w) by (apply (inv_dom _ I); eauto).
  destruct Hst; simpl; try done; try (rewrite lookup_insert_ne; [done|congruence || lia]).
  match goal with
  | Hq : w_sessions w !! ?a = Some (Quitting ?o'), Hd : w_sessions w !! ?b = Some (Looping ?o'), Hne : ?a ≠ ?b |- _ =>
    destruct (inv_own _ I _ _ _ Hq eq_refl) as [?|[= ->]]; [done|];
    by destruct (inv_own _ I _ _ _ Hd eq_refl) as [[= <-]|?]
  end.
Qed.

(** A session never returns: its loop ends when it receives from [Quit], and then the
    deferred [UnregisterProxy] sends on the same unbuffered channel, which nobody receives
    from; so in no reachable state has a session that registered its proxy returned, and
    one that has left its loop stays in the deferred call for ever. *)
Theorem session_never_returns (w w' : World) (s o : nat) :
  rtc step init w → rtc step w w' →
  w_sessions w' !! s ≠ Some (Finished o) ∧
  (w_sessions w !! s = Some (Quitting o) → w_sessions w' !! s = Some (Quitting o)).
Proof.
  intros Hw Hr. split.
  - intros Hs. assert (inv w') as I by (apply world_inv_reachable; by etrans).
    by destruct (inv_own _ I _ _ _ Hs eq_refl).
  - apply world_inv_reachable in Hw. induction Hr as [|w w1 w2 Hst _ IH]; [done|]. intros Hs.
    apply IH; [by eapply world_inv_step|]. by eapply quitting_step.
Qed.
End session_theorems.

(** ** A run: a limit of one proxy, two pods, and no metadata for the first *)

Module ServerWitness.

Definition nopod : Controller :=
  mkController [] [] (λ _, None) (λ _, true) [] (λ _, None) [] (λ _, Err errServiceNotFound)
    (λ _, Err "") (λ _, Ret (Err errDidNotFindPodForUUID)) (λ _ _, Err errServiceNotFound).

Definition pod (uuid : string) : Pod :=
  mkPod "demo" uuid uuid {[SidecarUniqueIDLabelName := uuid]} ∅ "bookstore" [] "".

Abbreviation run := (rtc (step Some 1)).

Definition proxy (uuid : string) : PipyProxy := mkPipyProxy uuid "bookstore.demo" None None.

(** After the first pod. *)
Definition first (pods : list Pod) : World :=
  mkWorld (Scanning pods [0]) {["a" := 0]} {[0 := proxy "a"]} {[0 := Looping 0]} [] 1.

Lemma run_first pods : run init (first pods).
Proof.
  eapply rtc_l; [eapply (step_fire _ _ _ (pod "a" :: pods)); reflexivity|].
  eapply rtc_l; [eapply step_inform; reflexivity|].
  eapply rtc_l; [eapply (step_room _ _ _ 0); reflexivity|].
  eapply rtc_l; [eapply (step_register _ _ _ 0 nopod); reflexivity|].
  eapply rtc_l; [eapply step_informed; reflexivity|].
  match goal with |- rtc _ ?w _ => replace w with (first pods) by reflexivity end. apply rtc_refl.
Qed.

(** The second pod is refused. *)
Definition refused : World :=
  mkWorld (Informing 1 [] [0]) {["a" := 0]} {[0 := proxy "a"; 1 := proxy "b"]}
    {[0 := Looping 0; 1 := Failed]} [] 2.

Lemma run_refused : run init refused.
Proof.
  etrans; [apply (run_first [pod "b"])|].
  eapply rtc_l; [eapply step_inform; reflexivity|].
  eapply rtc_l; [eapply (step_full _ _ _ 1); reflexivity|].
  match goal with |- rtc _ ?w _ => replace w with refused by reflexivity end. apply rtc_refl.
Qed.

(** The first pod has no address yet, so that its proxy is unregistered. *)
Definition quitting : World :=
  mkWorld Waiting {["a" := 0]} {[0 := proxy "a"]} {[0 := Quitting 0]} [Deleting 0 []] 1.

Lemma run_quitting : run init quitting.
Proof.
  etrans; [apply (run_first [])|].
  eapply rtc_l; [eapply (step_scanned _ _ _ [0] nopod); reflexivity|].
  eapply rtc_l; [eapply (step_quit _ _ _ [] [] 0 [] 0); reflexivity|].
  match goal with |- rtc _ ?w _ => replace w with quitting by reflexivity end. apply rtc_refl.
Qed.

Lemma registry_invariant_witness :
  (GetConnectedProxyCount (w_registry refused) ≤ 1)%Z ∧ w_sessions refused !! 0 = Some (Looping 0).
Proof.
  destruct (registry_invariant 1 Some refused run_refused) as (Hb & Hreg & _). split; [by apply Hb|].
  destruct (Hreg "a" 0) as (_ & [?|?]); done.
Defined.

Lemma refused_proxy_blocks_witness :
  run init refused ∧ ∀ w', run refused w' → w_listener w' = Informing 1 [] [0].
Proof.
  split; [exact run_refused|]. intros w'. by apply (refused_proxy_blocks 1 Some refused w' 1 [] [0]).
Defined.

Lemma session_never_returns_witness :
  run init quitting ∧ ∀ w', run quitting w' → w_sessions w' !! 0 = Some (Quitting 0).
Proof.
  split; [exact run_quitting|]. intros w' Hr.
  by apply (session_never_returns 1 Some quitting w' 0 0 run_quitting Hr).
Defined.
End ServerWitness.
