(* ===== verification/PipyInbound.v ===== *)
(** * pkg/sidecar/providers/pipy/repo: the inbound side of a sidecar

    The part of util.go that turns the inbound, ingress, access control and export
    policies of the catalog into the inbound configuration of a pipy sidecar, and the
    step of jobs.go that calls it.  The theorems say whom the configuration admits. *)

From S2P Require Import Prelude GoStrings Net Identity Service PolicyApi TrafficPolicy K8s.
From S2P Require Import K8sClient KubeProvider Smi PolicyClient Catalog CatalogEgress CatalogInbound.
From S2P Require Import CatalogIngress MeshConfig Pipy PipyPlugin.

(** ** Lookups *)

Definition getInboundHTTPRouteConfigs
    (httpRouteConfigsPerPort : gmap Z (list TrafficPolicy.InboundTrafficPolicy)) (targetPort : Z)
    (upstreamSvcFQDN : string) : option TrafficPolicy.InboundTrafficPolicy :=
  configs ← httpRouteConfigsPerPort !! targetPort;
  first_some (λ c, if decide (itp_Name c = upstreamSvcFQDN) then Some c else None) configs.

Definition getMeshClusterConfigs (clustersConfigs : list MeshClusterConfig) (clusterName : string) :
    option MeshClusterConfig :=
  first_some (λ c, if decide (clusterName = mcc_Name c) then Some c else None) clustersConfigs.

(** Nil when the name does not have the form [xxx_<namespace>/<name>_<port>_<protocol>]. *)
Definition trafficMatchToMeshSvc (trafficMatch : TrafficMatch) : option MeshService :=
  match FieldsFunc (tm_Name trafficMatch) (λ r, bool_decide (r = "_"%char)) with
  | [_; chunk; _; _] =>
    match NamespacedNameFrom chunk with
    | Err _ => None
    | Ok namespacedName => Some {|
        ms_Namespace := nn_Namespace namespacedName;
        ms_Name := nn_Name namespacedName;
        ms_Port := 0;
        ms_TargetPort := uint16 (tm_DestinationPort trafficMatch);
        ms_Protocol := to_lower (tm_DestinationProtocol trafficMatch);
        ms_ServiceImportUID := "" |}
    end
  | _ => None
  end.

Section generators.
Context `{RangeOrder} (mc : MeshCatalog).

(** The catalog of the server is a [*catalog.MeshCatalog]. *)
Definition getEndpointsForProxyIdentity (proxyIdentity : ServiceIdentity) : outcome (list Endpoint) :=
  listEndpointsForServiceIdentity mc proxyIdentity.

(** ** Rules *)

Definition addClusters (clusters : gset Service.WeightedCluster) (r : InboundHTTPRouteRule) :
    InboundHTTPRouteRule :=
  foldl (λ r wc, on_rule (λ hrr, addWeightedCluster hrr (wc_ClusterName wc) (uint32 (wc_Weight wc))) r)
    r (range_set clusters).

(** What a rule of the catalog does to [hsrr]: a new rule gets the rate limit and the
    clusters, and every rule the allowed services. *)
Definition applyRule (trustDomain : string) (rule : Rule) (duplicate : bool) (hsrr : InboundHTTPRouteRule) :
    InboundHTTPRouteRule :=
  let hsrr := if duplicate then hsrr
              else addClusters (rwc_WeightedClusters (rule_Route rule))
                     (setRateLimit hsrr (rwc_RateLimit (rule_Route rule))) in
  foldl (λ r p, on_rule (λ hrr, addAllowedService hrr (FromPrincipal p trustDomain)) r)
    hsrr (range_set (rule_AllowedPrincipals rule)).

(** The endpoints of the workloads of an allowed principal; none for the wildcard, nor in
    permissive mode. *)
Definition principalEndpoints (permissive : bool) (trustDomain : string) (hsrrs : InboundHTTPRouteRules)
    (principal : string) : outcome InboundHTTPRouteRules :=
  if bool_decide (WildcardPrincipal = principal) || permissive then Ret hsrrs
  else
    let serviceIdentity := FromPrincipal principal trustDomain in
    endpoints ← getEndpointsForProxyIdentity serviceIdentity;
    Ret (foldl (λ h ep, addAllowedEndpoint h (IP_String (ep_IP ep)) serviceIdentity) hsrrs endpoints).

Definition inboundRule (permissive : bool) (trustDomain : string) (hsrrs : InboundHTTPRouteRules)
    (rule : Rule) : outcome InboundHTTPRouteRules :=
  if decide (hrm_Path (rwc_HTTPRouteMatch (rule_Route rule)) = "") then Ret hsrrs
  else
    let httpMatch := newHTTPMatch (rwc_HTTPRouteMatch (rule_Route rule)) in
    let hsrrs := setRules hsrrs
      (newHTTPServiceRouteRule (λ r, hrr_Match (ihrr_Rule r)) newInboundRule httpMatch
         (applyRule trustDomain rule) (ihrs_RouteRules hsrrs)) in
    foldO (principalEndpoints permissive trustDomain) hsrrs (range_set (rule_AllowedPrincipals rule)).

(** ** Mesh traffic *)

Definition is_http_match (trafficMatch : TrafficMatch) : bool :=
  bool_decide (to_lower (tm_DestinationProtocol trafficMatch) = ProtocolHTTP) ||
  bool_decide (tm_DestinationProtocol trafficMatch = ProtocolGRPC).

Definition is_tcp_match (trafficMatch : TrafficMatch) : bool :=
  bool_decide (to_lower (tm_DestinationProtocol trafficMatch) = ProtocolTCP) ||
  bool_decide (to_lower (tm_DestinationProtocol trafficMatch) = ProtocolTCPServerFirst).

(** The HTTP branch: the routes of the service, under the name of its policy. *)
Definition inboundHTTP (permissive : bool) (trustDomain : string) (pp : PluginPolicies)
    (httpRouteConfig : TrafficPolicy.InboundTrafficPolicy) (trafficMatch : TrafficMatch)
    (tm : InboundTrafficMatch) : outcome InboundTrafficMatch :=
  let ruleName := itp_Name httpRouteConfig in
  match newHTTPServiceRouteRules tm ruleName with
  | None => Panic
  | Some hsrrs =>
    plugins ← getTrafficMatchPluginConfigs pp (tm_Name trafficMatch);
    let hsrrs := setPlugins (setHTTPServiceRateLimit hsrrs (tm_RateLimit trafficMatch)) plugins in
    hsrrs ← foldO (inboundRule permissive trustDomain) hsrrs (itp_Rules httpRouteConfig);
    Ret (foldl (λ tm hostname, addHTTPHostPort2Service tm hostname ruleName)
           (putRouteRules tm ruleName hsrrs) (itp_Hostnames httpRouteConfig))
  end.

(** One turn of the loop over the traffic matches.  A name that cannot be parsed, and a
    cluster that is not found, are nil pointers that are dereferenced. *)
Definition inboundTurn (permissive : bool) (trustDomain : string) (pp : PluginPolicies)
    (inboundPolicy : InboundMeshTrafficPolicy) (itp : InboundTrafficPolicy) (trafficMatch : TrafficMatch) :
    outcome InboundTrafficPolicy :=
  match trafficMatchToMeshSvc trafficMatch with
  | None => Panic
  | Some upstreamSvc =>
    match getMeshClusterConfigs (imtp_ClustersConfigs inboundPolicy) (SidecarLocalClusterName upstreamSvc) with
    | None => Panic
    | Some cluster =>
      let port := ms_Port (mcc_Service cluster) in
      let tm := setMatch (newTrafficMatch itp port) (tm_DestinationProtocol trafficMatch)
                  (tm_DestinationPort trafficMatch) (tm_RateLimit trafficMatch) in
      tm ←
        (if is_http_match trafficMatch then
           match getInboundHTTPRouteConfigs (imtp_HTTPRouteConfigsPerPort inboundPolicy)
                   (ms_TargetPort upstreamSvc) (FQDN upstreamSvc) with
           | None => Ret tm
           | Some httpRouteConfig => inboundHTTP permissive trustDomain pp httpRouteConfig trafficMatch tm
           end
         else if is_tcp_match trafficMatch then
           plugins ← getTrafficMatchPluginConfigs pp (tm_Name trafficMatch);
           Ret (addTCPCluster tm (mcc_Name cluster) ClusterWeightAcceptAll plugins)
         else Ret tm);
      Ret (putTrafficMatch itp port tm)
    end
  end.

Definition generatePipyInboundTrafficPolicy (permissive : bool) (trustDomain : string) (pp : PluginPolicies)
    (inbound : option InboundTrafficPolicy) (inboundPolicy : InboundMeshTrafficPolicy) :
    outcome InboundTrafficPolicy :=
  itp ← foldO (inboundTurn permissive trustDomain pp inboundPolicy)
          (default zero_InboundTrafficPolicy inbound) (imtp_TrafficMatches inboundPolicy);
  Ret (foldl (λ itp cluster,
         addClusterEndpoint itp (mcc_Name cluster) (mcc_Address cluster) (uint16 (mcc_Port cluster))
           ClusterWeightAcceptAll) itp (imtp_ClustersConfigs inboundPolicy)).

(** ** Traffic that enters the mesh

    The three generators have one loop over their own match types, which the record
    holds the common fields of.  A match of an export has no rate limit, and its
    generator sets none. *)
Record EntryMatch := mkEntryMatch {
  em_Name : string;
  em_Port : Z;
  em_Protocol : string;
  em_SourceIPRanges : list string;
  em_TLS : option TLSSpec;
  em_RateLimit : option (option RateLimitSpec);
}.

Definition ingressEntry (m : IngressTrafficMatch) : EntryMatch :=
  mkEntryMatch (igm_Name m) (igm_Port m) (igm_Protocol m) (igm_SourceIPRanges m) (igm_TLS m)
    (Some (igm_RateLimit m)).
Definition aclEntry (m : AccessControlTrafficMatch) : EntryMatch :=
  mkEntryMatch (acm_Name m) (acm_Port m) (acm_Protocol m) (acm_SourceIPRanges m) (acm_TLS m)
    (Some (acm_RateLimit m)).
Definition exportEntry (m : ServiceExportTrafficMatch) : EntryMatch :=
  mkEntryMatch (sem_Name m) (sem_Port m) (sem_Protocol m) (sem_SourceIPRanges m) (sem_TLS m) None.

(** [tm.setProtocol(protocol); tm.setPort(port)], and the TCP rate limit. *)
Definition newEntryMatch (m : EntryMatch) : InboundTrafficMatch :=
  setMatch zero_InboundTrafficMatch (em_Protocol m) (em_Port m) (default None (em_RateLimit m)).

Definition isHTTPEntry (m : EntryMatch) : bool :=
  bool_decide (to_lower (em_Protocol m) ∈ [ProtocolHTTP; ProtocolHTTPS; ProtocolGRPC]).

(** Only a new rule is filled in. *)
Definition entryRule (limited : bool) (hsrrs : InboundHTTPRouteRules) (rule : Rule) : InboundHTTPRouteRules :=
  if decide (hrm_Path (rwc_HTTPRouteMatch (rule_Route rule)) = "") then hsrrs
  else
    setRules hsrrs
      (newHTTPServiceRouteRule (λ r, hrr_Match (ihrr_Rule r)) newInboundRule
         (newHTTPMatch (rwc_HTTPRouteMatch (rule_Route rule)))
         (λ (duplicate : bool) hsrr,
            if duplicate then hsrr
            else addClusters (rwc_WeightedClusters (rule_Route rule))
                   (if limited then setRateLimit hsrr (rwc_RateLimit (rule_Route rule)) else hsrr))
         (ihrs_RouteRules hsrrs)).

(** One hostname of a policy. *)
Definition entryHost (pp : PluginPolicies) (m : EntryMatch) (rules : list Rule) (tm : InboundTrafficMatch)
    (hostname : string) : outcome InboundTrafficMatch :=
  let ruleName := hostname in
  let tm := addHTTPHostPort2Service tm hostname ruleName in
  match newHTTPServiceRouteRules tm ruleName with
  | None => Panic
  | Some hsrrs =>
    let hsrrs := match em_RateLimit m with
                 | Some rateLimit => setHTTPServiceRateLimit hsrrs rateLimit
                 | None => hsrrs
                 end in
    plugins ← getTrafficMatchPluginConfigs pp (em_Name m);
    Ret (putRouteRules tm ruleName
           (foldl (entryRule (bool_decide (is_Some (em_RateLimit m)))) (setPlugins hsrrs plugins) rules))
  end.

(** One policy; a nil one is dereferenced. *)
Definition entryPolicy (pp : PluginPolicies) (m : EntryMatch) (tm : InboundTrafficMatch)
    (httpRouteConfig : option TrafficPolicy.InboundTrafficPolicy) : outcome InboundTrafficMatch :=
  match httpRouteConfig with
  | None => Panic
  | Some config =>
    match itp_Rules config with
    | [] => Ret tm
    | rules => foldO (entryHost pp m rules) tm (itp_Hostnames config)
    end
  end.

(** [authenticatedPrincipals]: those of every rule with a path, once per hostname. *)
Definition entryPrincipals (policies : list (option TrafficPolicy.InboundTrafficPolicy)) : list string :=
  config ← omap id policies;
  _ ← itp_Hostnames config;
  rule ← itp_Rules config;
  if decide (hrm_Path (rwc_HTTPRouteMatch (rule_Route rule)) = "") then []
  else range_set (rule_AllowedPrincipals rule).

(** The specification that the new source ranges of the match point to; its principals
    are assigned last, and only for an HTTP match. *)
Definition entrySecurity (m : EntryMatch) (policies : list (option TrafficPolicy.InboundTrafficPolicy)) :
    option SourceSecuritySpec :=
  tls ← em_TLS m;
  Some {| sss_MTLS := true;
          sss_SkipClientCertValidation := tls_SkipClientCertValidation tls;
          sss_AuthenticatedPrincipals := if isHTTPEntry m then entryPrincipals policies else [] |}.

Definition entryTurn (pp : PluginPolicies) (policies : list (option TrafficPolicy.InboundTrafficPolicy))
    (itp : InboundTrafficPolicy) (m : EntryMatch) : outcome InboundTrafficPolicy :=
  let port := uint16 (em_Port m) in
  let tm := default (newEntryMatch m) (getTrafficMatch itp port) in
  let tm := foldl (λ tm ipRange, addSourceIPRange tm ipRange (entrySecurity m policies))
              tm (em_SourceIPRanges m) in
  tm ← (if isHTTPEntry m then foldO (entryPolicy pp m) tm policies else Ret tm);
  Ret (putTrafficMatch itp port tm).

(** Nothing is added to a sidecar without inbound clusters. *)
Definition entryPolicies (pp : PluginPolicies) (inbound : option InboundTrafficPolicy)
    (matches : list EntryMatch) (policies : list (option TrafficPolicy.InboundTrafficPolicy)) :
    outcome (option InboundTrafficPolicy) :=
  match matches, inbound with
  | [], _ => Ret inbound
  | _, None => Ret None
  | _, Some itp =>
    if decide (pitp_ClustersConfigs itp = ∅) then Ret inbound
    else itp ← foldO (entryTurn pp policies) itp matches; Ret (Some itp)
  end.

Definition generatePipyIngressTrafficRoutePolicy (pp : PluginPolicies) (inbound : option InboundTrafficPolicy)
    (ingressPolicy : IngressTrafficPolicy) : outcome (option InboundTrafficPolicy) :=
  entryPolicies pp inbound (ingressEntry <$> igp_TrafficMatches ingressPolicy)
    (Some <$> igp_HTTPRoutePolicies ingressPolicy).

Definition generatePipyAccessControlTrafficRoutePolicy (pp : PluginPolicies)
    (inbound : option InboundTrafficPolicy) (aclPolicy : AccessControlTrafficPolicy) :
    outcome (option InboundTrafficPolicy) :=
  entryPolicies pp inbound (aclEntry <$> acp_TrafficMatches aclPolicy) (acp_HTTPRoutePolicies aclPolicy).

Definition generatePipyServiceExportTrafficRoutePolicy (pp : PluginPolicies)
    (inbound : option InboundTrafficPolicy) (expPolicy : ServiceExportTrafficPolicy) :
    outcome (option InboundTrafficPolicy) :=
  entryPolicies pp inbound (exportEntry <$> sep_TrafficMatches expPolicy) (sep_HTTPRoutePolicies expPolicy).

(** ** The step of the job (jobs.go) *)

Definition with_Inbound (pipyConf : PipyConf) (inbound : option InboundTrafficPolicy) : PipyConf := {|
  pc_Spec := pc_Spec pipyConf; pc_Inbound := inbound; pc_Outbound := pc_Outbound pipyConf;
  pc_Forward := pc_Forward pipyConf; pc_AllowedEndpoints := pc_AllowedEndpoints pipyConf;
  pc_Chains := pc_Chains pipyConf; pc_DNSResolveDB := pc_DNSResolveDB pipyConf;
  pc_pluginPolicies := pc_pluginPolicies pipyConf |}.

(** The policy of a service, when there is one and no error. *)
Definition on_policy {E A B} (policy : result E (option A)) (f : B → A → outcome B) (b : B) : outcome B :=
  match policy with Ok (Some p) => f b p | _ => Ret b end.

(** The policies of one service for traffic that enters the mesh; the resources whose
    status the catalog updates are dropped here. *)
Definition entryTraffic (pp : PluginPolicies) (inbound : option InboundTrafficPolicy) (svc : MeshService) :
    outcome (option InboundTrafficPolicy) :=
  ingress ← GetIngressTrafficPolicy mc svc;
  inbound ← on_policy ingress.2 (generatePipyIngressTrafficRoutePolicy pp) inbound;
  acl ← GetAccessControlTrafficPolicy mc svc;
  inbound ← on_policy acl.2 (generatePipyAccessControlTrafficRoutePolicy pp) inbound;
  on_policy (GetExportTrafficPolicy mc svc) (generatePipyServiceExportTrafficRoutePolicy pp) inbound.

Definition jobInbound (domain : string) (serviceIdentity : ServiceIdentity)
    (proxyServices : list MeshService) (pipyConf : PipyConf) : outcome PipyConf :=
  let pp := pc_pluginPolicies pipyConf in
  inboundTrafficPolicy ← GetInboundMeshTrafficPolicy mc domain serviceIdentity proxyServices;
  itp ← generatePipyInboundTrafficPolicy (psp_enablePermissiveTrafficPolicyMode (pc_Spec pipyConf))
          (mc_GetTrustDomain mc) pp (pc_Inbound pipyConf) inboundTrafficPolicy;
  inbound ← foldO (entryTraffic pp) (Some itp) proxyServices;
  Ret (with_Inbound pipyConf inbound).
End generators.

(** ** Lemmas: route rules *)

(** What a rule matches, as the sidecar sees it: the flags are not part of the JSON. *)
Definition matchCore (m : HTTPMatchRule) : string * URIMatchType * gmap string string * list string :=
  (hmr_Path m, hmr_Type m, hmr_Headers m, hmr_Methods m).
Definition ruleCore (r : InboundHTTPRouteRule) := matchCore (hrr_Match (ihrr_Rule r)).
Definition openRule (r : InboundHTTPRouteRule) : bool := hmr_allowedAnyService (hrr_Match (ihrr_Rule r)).
Definition allowedServices (r : InboundHTTPRouteRule) : list string := hrr_AllowedServices (ihrr_Rule r).
Definition targetClusters (r : InboundHTTPRouteRule) : gmap string Z := hrr_TargetClusters (ihrr_Rule r).

(** Whom the sidecar lets through: without a list it does not look at the identity. *)
Definition admits (r : InboundHTTPRouteRule) (s : ServiceIdentity) : Prop :=
  allowedServices r = [] ∨ s ∈ allowedServices r.

Definition allow (ids : list ServiceIdentity) (r : InboundHTTPRouteRule) : InboundHTTPRouteRule :=
  foldl (λ r s, on_rule (λ hrr, addAllowedService hrr s) r) r ids.

Lemma allow_spec ids r :
  ruleCore (allow ids r) = ruleCore r ∧ targetClusters (allow ids r) = targetClusters r ∧
  (openRule r = true → allow ids r = r) ∧
  (openRule r = false → "*" ∈ ids → openRule (allow ids r) = true ∧ allowedServices (allow ids r) = []) ∧
  (openRule r = false → "*" ∉ ids →
     openRule (allow ids r) = false ∧ allowedServices (allow ids r) = allowedServices r ++ ids).
Proof.
  revert r. induction ids as [|s ids IH]; intros r; simpl.
  { split_and!; [done..|set_solver|]. by rewrite app_nil_r. }
  destruct (IH (on_rule (λ hrr, addAllowedService hrr s) r)) as (-> & -> & Ho & Hs & Hn).
  destruct r as [[[p t h ms any anyM] cl svcs] rl]; unfold openRule, allowedServices, ruleCore, targetClusters,
    on_rule, addAllowedService in *; simpl in *.
  destruct any; simpl in *; [by rewrite Ho|]. split_and!; [done..| |].
  - intros _ Hin. case_bool_decide as Hs'; simpl in *; [by rewrite Ho|]. apply Hs; [done|]. set_solver.
  - intros _ Hin. rewrite bool_decide_false in * by set_solver. simpl in *.
    destruct Hn as [-> ->]; [done|set_solver|]. by rewrite <-(assoc_L (++)).
Qed.

Lemma addClusters_spec `{RangeOrder} clusters r :
  ruleCore (addClusters clusters r) = ruleCore r ∧ openRule (addClusters clusters r) = openRule r ∧
  allowedServices (addClusters clusters r) = allowedServices r ∧
  ∀ c w, targetClusters (addClusters clusters r) !! c = Some w →
    targetClusters r !! c = Some w ∨ ∃ wc, wc ∈ clusters ∧ c = wc_ClusterName wc ∧ w = uint32 (wc_Weight wc).
Proof.
  unfold addClusters. setoid_rewrite <-elem_of_range_set. generalize (range_set clusters) as l.
  intros l. revert r. induction l as [|wc l IH]; intros r; simpl; [by split_and!; auto|].
  destruct (IH (on_rule (λ hrr, addWeightedCluster hrr (wc_ClusterName wc) (uint32 (wc_Weight wc))) r))
    as (-> & -> & -> & Hc).
  split_and!; [by destruct r..|]. intros c w [Hw|Hw]%Hc; [|set_solver].
  unfold targetClusters in Hw. simpl in Hw. apply lookup_insert_Some in Hw as [[<- <-]|[_ ?]]; [|auto].
  right. exists wc. set_solver.
Qed.

(** The two ways to reach a rule, read off the result and off the arguments. *)
Section find_rule.
Context {R : Type} (matchOf : R → HTTPMatchRule) (new : HTTPMatchRule → R).

Lemma elem_of_newHTTPServiceRouteRule m f rules r' :
  r' ∈ newHTTPServiceRouteRule matchOf new m f rules →
  r' ∈ rules ∨ (∃ r, r ∈ rules ∧ matchOf r = m ∧ r' = f true r) ∨ r' = f false (new m).
Proof.
  induction rules as [|r rules IH]; simpl; [intros ->%list_elem_of_singleton; auto|].
  setoid_rewrite elem_of_cons. destruct (decide (matchOf r = m)); rewrite elem_of_cons; naive_solver.
Qed.

Lemma newHTTPServiceRouteRule_keeps m f rules r :
  r ∈ rules → r ∈ newHTTPServiceRouteRule matchOf new m f rules ∨
    matchOf r = m ∧ f true r ∈ newHTTPServiceRouteRule matchOf new m f rules.
Proof.
  induction rules as [|r' rules IH]; simpl; [set_solver|].
  destruct (decide (matchOf r' = m)); rewrite !elem_of_cons; naive_solver.
Qed.

Lemma newHTTPServiceRouteRule_found m f rules :
  ∃ b r, f b r ∈ newHTTPServiceRouteRule matchOf new m f rules ∧
    (b = true ∧ r ∈ rules ∧ matchOf r = m ∨ b = false ∧ r = new m).
Proof.
  induction rules as [|r rules IH]; simpl; [exists false, (new m); set_solver|].
  destruct (decide (matchOf r = m)); [exists true, r; set_solver|]. destruct IH as (b & r' & ? & ?).
  exists b, r'. set_solver.
Qed.
End find_rule.

(** ** Lemmas: one rule of the catalog *)

Section admission.
Context `{RangeOrder} (trustDomain : string).

Definition catalogCore (d : Rule) := matchCore (newHTTPMatch (rwc_HTTPRouteMatch (rule_Route d))).
Definition hasPath (d : Rule) : Prop := hrm_Path (rwc_HTTPRouteMatch (rule_Route d)) ≠ "".
Definition identities (d : Rule) : list ServiceIdentity :=
  (λ p, FromPrincipal p trustDomain) <$> range_set (rule_AllowedPrincipals d).

Lemma elem_of_identities d s :
  s ∈ identities d ↔ ∃ p, p ∈ rule_AllowedPrincipals d ∧ FromPrincipal p trustDomain = s.
Proof.
  unfold identities. rewrite list_elem_of_fmap. setoid_rewrite elem_of_range_set. naive_solver.
Qed.

Lemma identities_nil d : identities d = [] ↔ rule_AllowedPrincipals d = ∅.
Proof.
  unfold identities. rewrite fmap_nil_iff. split; [|intros ->; apply range_set_empty].
  intros E. apply set_eq. intros x. rewrite <-elem_of_range_set, E. set_solver.
Qed.

Lemma newHTTPMatch_closed (m : HTTPRouteMatch) : hmr_allowedAnyService (newHTTPMatch m) = false.
Proof.
  unfold newHTTPMatch.
  assert (∀ l h, hmr_allowedAnyService (foldl addMethodMatch h l) = hmr_allowedAnyService h) as Hm.
  { induction l as [|a l IH]; intros h; simpl; [done|]. rewrite IH. unfold addMethodMatch. by destruct (hmr_allowedAnyMethod h). }
  assert (∀ (l : list (string * string)) h, hmr_allowedAnyService (foldl (λ h kv, addHeaderMatch h kv.1 kv.2) h l) =
    hmr_allowedAnyService h) as Hh.
  { induction l as [|a l IH]; intros h; simpl; [done|]. by rewrite IH. }
  destruct (elems (hrm_Methods m)) as [|a l].
  - unfold addMethodMatch. destruct (hmr_allowedAnyMethod _); simpl; by rewrite Hh.
  - by rewrite Hm, Hh.
Qed.

(** A rule of the sidecar that rules of the catalog account for. *)
Record justified (D : Rule → Prop) (r : InboundHTTPRouteRule) : Prop := {
  j_open : allowedServices r = [] →
    ∃ d, D d ∧ ruleCore r = catalogCore d ∧ (rule_AllowedPrincipals d = ∅ ∨ "*" ∈ identities d);
  j_services (s : ServiceIdentity) : s ∈ allowedServices r → ∃ d, D d ∧ ruleCore r = catalogCore d ∧ s ∈ identities d;
  j_clusters (c : string) (w : Z) : targetClusters r !! c = Some w →
    ∃ d wc, D d ∧ ruleCore r = catalogCore d ∧ wc ∈ rwc_WeightedClusters (rule_Route d) ∧
      c = wc_ClusterName wc ∧ w = uint32 (wc_Weight wc);
  j_flag : openRule r = true → allowedServices r = [];
}.

(** What the generator has granted, which it does not take back. *)
Definition granted (rules : list InboundHTTPRouteRule)
    (c : string * URIMatchType * gmap string string * list string) (s : ServiceIdentity) : Prop :=
  ∃ r, r ∈ rules ∧ ruleCore r = c ∧ (openRule r = true ∨ s ∈ allowedServices r).

Lemma applyRule_allow d (b : bool) r :
  applyRule trustDomain d b r = allow (identities d)
    (if b then r else addClusters (rwc_WeightedClusters (rule_Route d))
                        (setRateLimit r (rwc_RateLimit (rule_Route d)))).
Proof. unfold applyRule, allow, identities. by rewrite foldl_fmap. Qed.

Lemma applyRule_justified (D : Rule → Prop) d (b : bool) r :
  D d → openRule r = false → ruleCore r = catalogCore d →
  (if b then justified D r else allowedServices r = [] ∧ targetClusters r = ∅) →
  justified D (applyRule trustDomain d b r).
Proof.
  intros HD Hopen Hcore Hr. rewrite applyRule_allow.
  set (r1 := if b then r else _).
  assert (ruleCore r1 = catalogCore d ∧ openRule r1 = false ∧
    (∀ s, s ∈ allowedServices r1 → ∃ d, D d ∧ ruleCore r1 = catalogCore d ∧ s ∈ identities d) ∧
    ∀ c w, targetClusters r1 !! c = Some w →
      ∃ d wc, D d ∧ ruleCore r1 = catalogCore d ∧ wc ∈ rwc_WeightedClusters (rule_Route d) ∧
        c = wc_ClusterName wc ∧ w = uint32 (wc_Weight wc)) as (Hc1 & Ho1 & Hs1 & Hcl1).
  { subst r1. destruct b; [by destruct Hr; split_and!|]. destruct Hr as [Hsv Hcl].
    destruct (addClusters_spec (rwc_WeightedClusters (rule_Route d))
      (setRateLimit r (rwc_RateLimit (rule_Route d)))) as (Ec & Eo & Es & Ecl).
    unfold ruleCore, openRule, allowedServices, targetClusters in *. simpl in *.
    rewrite Ec, Eo, Es, Hsv. split_and!; [done..|set_solver|].
    intros c w [Hw|(wc & ? & ? & ?)]%Ecl; [by rewrite Hcl, lookup_empty in Hw|]. by exists d, wc. }
  destruct (allow_spec (identities d) r1) as (Ec & Ecl & _ & Hstar & Hnostar).
  destruct (decide ("*" ∈ identities d)) as [Hin|Hin].
  - destruct (Hstar Ho1 Hin) as [Eo Es]. split; rewrite ?Ec, ?Ecl, ?Es, ?Eo; [..|done]; [|set_solver|exact Hcl1].
    intros _. exists d. auto.
  - destruct (Hnostar Ho1 Hin) as [Eo Es]. split; rewrite ?Ec, ?Ecl, ?Es, ?Eo; [..|done]; [| |exact Hcl1].
    + intros [Hn1 Hn2]%app_nil. rewrite identities_nil in Hn2. exists d. auto.
    + intros s [?|?]%elem_of_app; [auto|]. by exists d.
Qed.

Lemma newInboundRule_core d :
  ruleCore (newInboundRule (newHTTPMatch (rwc_HTTPRouteMatch (rule_Route d)))) = catalogCore d ∧
  openRule (newInboundRule (newHTTPMatch (rwc_HTTPRouteMatch (rule_Route d)))) = false.
Proof. split; [done|]. apply newHTTPMatch_closed. Qed.

(** A rule that is found is closed, and has the core of the rule that finds it. *)
Lemma found_rule d r :
  hrr_Match (ihrr_Rule r) = newHTTPMatch (rwc_HTTPRouteMatch (rule_Route d)) →
  ruleCore r = catalogCore d ∧ openRule r = false.
Proof. unfold ruleCore, openRule. intros ->. split; [done|]. apply newHTTPMatch_closed. Qed.

Lemma applyRule_grants d b r s :
  openRule r = false → s ∈ allowedServices r ∨ s ∈ identities d →
  (b = false → allowedServices r = []) →
  let r' := applyRule trustDomain d b r in openRule r' = true ∨ s ∈ allowedServices r'.
Proof.
  intros Ho Hs Hb. rewrite applyRule_allow. set (r1 := if b then r else _).
  assert (openRule r1 = false ∧ allowedServices r1 = allowedServices r) as [Ho1 Hs1].
  { subst r1. destruct b; [done|]. destruct (addClusters_spec (rwc_WeightedClusters (rule_Route d))
      (setRateLimit r (rwc_RateLimit (rule_Route d)))) as (_ & -> & -> & _). done. }
  destruct (allow_spec (identities d) r1) as (_ & _ & _ & Hstar & Hno).
  destruct (decide ("*" ∈ identities d)) as [Hin|Hin]; [left; by apply Hstar|right].
  destruct (Hno Ho1 Hin) as [_ ->]. rewrite Hs1. set_solver.
Qed.

Section one_rule.
Context (mc : MeshCatalog) (permissive : bool).

(** An address that may connect is that of a workload of an admitted identity. *)
Definition endpoints_ok (D : Rule → Prop) (h : InboundHTTPRouteRules) : Prop :=
  ∀ address s, ihrs_AllowedEndpoints h !! address = Some s →
    permissive = false ∧ ∃ d eps ep, D d ∧ s ∈ identities d ∧
      getEndpointsForProxyIdentity mc s = Ret eps ∧ ep ∈ eps ∧ address = IP_String (ep_IP ep).

Lemma principalEndpoints_spec (D : Rule → Prop) d h p h' :
  D d → p ∈ rule_AllowedPrincipals d →
  endpoints_ok D h → principalEndpoints mc permissive trustDomain h p = Ret h' →
  ihrs_RouteRules h' = ihrs_RouteRules h ∧ endpoints_ok D h'.
Proof.
  intros HD Hp Hok. unfold principalEndpoints. destruct (_ || permissive) eqn:E; [by intros [= <-]|].
  apply orb_false_iff in E as [_ Hperm]. intros (eps & Heps & [= <-])%bind_Ret.
  assert (∀ l, l ⊆ eps → ihrs_RouteRules (foldl (λ h ep, addAllowedEndpoint h (IP_String (ep_IP ep))
    (FromPrincipal p trustDomain)) h l) = ihrs_RouteRules h ∧ endpoints_ok D (foldl (λ h ep,
    addAllowedEndpoint h (IP_String (ep_IP ep)) (FromPrincipal p trustDomain)) h l)) as Hl; [|by apply Hl].
  induction l as [|ep l IH] using rev_ind; intros Hl; [done|]. rewrite foldl_app. simpl.
  destruct IH as [-> IH]; [intros x ?; apply Hl; set_solver|]. split; [done|].
  intros address s. simpl. destruct (_ !! IP_String (ep_IP ep)); [apply IH|].
  intros [[<- <-]|[_ ?]]%lookup_insert_Some; [|by apply IH]. split; [done|]. exists d, eps, ep.
  split_and!; [done| |done|apply Hl; set_solver|done]. apply elem_of_identities. by exists p.
Qed.

Definition rules_ok (D : Rule → Prop) (h : InboundHTTPRouteRules) : Prop :=
  (∀ r, r ∈ ihrs_RouteRules h → justified D r) ∧ endpoints_ok D h.

(** The rules, before the loop over the principals touches the endpoints. *)
Definition placed (d : Rule) (h : InboundHTTPRouteRules) : list InboundHTTPRouteRule :=
  newHTTPServiceRouteRule (λ r, hrr_Match (ihrr_Rule r)) newInboundRule
    (newHTTPMatch (rwc_HTTPRouteMatch (rule_Route d))) (applyRule trustDomain d) (ihrs_RouteRules h).

Lemma inboundRule_inv (D : Rule → Prop) h d h' :
  D d → endpoints_ok D h → inboundRule mc permissive trustDomain h d = Ret h' →
  endpoints_ok D h' ∧ ihrs_RouteRules h' =
    (if decide (hrm_Path (rwc_HTTPRouteMatch (rule_Route d)) = "") then ihrs_RouteRules h else placed d h).
Proof.
  intros HD Hok. unfold inboundRule. case_decide; [by intros [= <-]|].
  intros Hf. revert Hf. apply (foldO_inv _ (λ h', endpoints_ok D h' ∧ ihrs_RouteRules h' = placed d h)); [|done].
  intros h1 p h2 Hp%elem_of_range_set [Hok1 Hr1] Hs.
  destruct (principalEndpoints_spec D d _ _ _ HD Hp Hok1 Hs) as [-> ?]. done.
Qed.

Lemma inboundRule_justified (D : Rule → Prop) h d h' :
  D d → rules_ok D h → inboundRule mc permissive trustDomain h d = Ret h' → rules_ok D h'.
Proof.
  intros HD [Hj Hok] [Hok' Hr]%(inboundRule_inv D); [|done..]. split; [|done]. rewrite Hr.
  case_decide; [done|]. intros r [?|[(r0 & Hr0 & Hm & ->)| ->]]%elem_of_newHTTPServiceRouteRule; [auto| |].
  - destruct (found_rule _ _ Hm). apply applyRule_justified; [done..|]. auto.
  - destruct (newInboundRule_core d). by apply applyRule_justified.
Qed.

Lemma inboundRule_keeps (D : Rule → Prop) h d h' c s :
  D d → rules_ok D h → inboundRule mc permissive trustDomain h d = Ret h' →
  granted (ihrs_RouteRules h) c s → granted (ihrs_RouteRules h') c s.
Proof.
  intros HD [Hj Hok] [_ Hr]%(inboundRule_inv D) (r & Hin & Hc & Hg); [|done..]. rewrite Hr.
  case_decide; [by exists r|].
  destruct (newHTTPServiceRouteRule_keeps (λ r, hrr_Match (ihrr_Rule r)) newInboundRule
    (newHTTPMatch (rwc_HTTPRouteMatch (rule_Route d))) (applyRule trustDomain d) _ _ Hin) as [?|[Hm Hin']];
    [by exists r|].
  destruct (found_rule _ _ Hm) as [_ Ho]. exists (applyRule trustDomain d true r). split_and!; [done| |].
  - rewrite applyRule_allow. by destruct (allow_spec (identities d) r) as [-> _].
  - apply applyRule_grants; [done| |done]. destruct Hg; [congruence|auto].
Qed.

Lemma inboundRule_grants (D : Rule → Prop) h d h' s :
  D d → rules_ok D h → hasPath d → s ∈ identities d → inboundRule mc permissive trustDomain h d = Ret h' →
  granted (ihrs_RouteRules h') (catalogCore d) s.
Proof.
  intros HD [Hj Hok] Hpath Hs [_ Hr]%(inboundRule_inv D); [|done..]. rewrite Hr, decide_False by done.
  destruct (newHTTPServiceRouteRule_found (λ r, hrr_Match (ihrr_Rule r)) newInboundRule
    (newHTTPMatch (rwc_HTTPRouteMatch (rule_Route d))) (applyRule trustDomain d) (ihrs_RouteRules h))
    as (b & r & Hin & Hb).
  exists (applyRule trustDomain d b r). assert (ruleCore r = catalogCore d ∧ openRule r = false ∧
    (b = false → allowedServices r = [])) as (Hc & Ho & Hn).
  { destruct Hb as [(-> & _ & Hm)|(-> & ->)]; [by destruct (found_rule _ _ Hm)|].
    destruct (newInboundRule_core d). done. }
  split_and!; [done| |apply applyRule_grants; auto]. rewrite applyRule_allow.
  destruct (allow_spec (identities d) (if b then r else addClusters (rwc_WeightedClusters (rule_Route d))
    (setRateLimit r (rwc_RateLimit (rule_Route d))))) as [-> _].
  destruct b; [done|]. by destruct (addClusters_spec (rwc_WeightedClusters (rule_Route d))
    (setRateLimit r (rwc_RateLimit (rule_Route d)))) as [-> _].
Qed.

Lemma inboundRules_spec (D : Rule → Prop) h rules h' :
  (∀ d, d ∈ rules → D d) → rules_ok D h → foldO (inboundRule mc permissive trustDomain) h rules = Ret h' →
  rules_ok D h' ∧
  (∀ c s, granted (ihrs_RouteRules h) c s → granted (ihrs_RouteRules h') c s) ∧
  (∀ d s, d ∈ rules → hasPath d → s ∈ identities d → granted (ihrs_RouteRules h') (catalogCore d) s).
Proof.
  revert h. induction rules as [|d rules IH]; intros h HD Hok; simpl; [by intros [= <-]; set_solver|].
  intros (h1 & Hh1 & Hrest)%bind_Ret. assert (D d) as Hd by (apply HD; left).
  pose proof (inboundRule_justified D _ _ _ Hd Hok Hh1) as Hok1.
  destruct (IH h1) as (Hok' & Hkeep & Hgrant); [intros; apply HD; by right|done..|]. split_and!; [done| |].
  - intros c s Hg. apply Hkeep. by apply (inboundRule_keeps D h d h1).
  - intros d' s [->|?]%elem_of_cons ??; [|by apply Hgrant].
    apply Hkeep. by apply (inboundRule_grants D h d h1).
Qed.
End one_rule.
End admission.

(** ** Lemmas: the loop over the traffic matches *)

Section mesh_loop.
Context `{RangeOrder} (mc : MeshCatalog) (permissive : bool) (trustDomain : string) (pp : PluginPolicies).

(** The rules of a service on a port. *)
Definition routeRulesAt (itp : InboundTrafficPolicy) (port : Z) (name : string) :
    option InboundHTTPRouteRules :=
  tm ← pitp_TrafficMatches itp !! port; itm_HTTPServiceRouteRules tm !! name.

(** The rules of the catalog's policies of a name. *)
Definition named (pol : InboundMeshTrafficPolicy) (name : string) (d : Rule) : Prop :=
  ∃ port configs c, imtp_HTTPRouteConfigsPerPort pol !! port = Some configs ∧ c ∈ configs ∧
    itp_Name c = name ∧ d ∈ itp_Rules c.

(** The port of the sidecar and the policy that a traffic match writes to. *)
Definition turnTarget (pol : InboundMeshTrafficPolicy) (m : TrafficMatch) :
    option (Z * TrafficPolicy.InboundTrafficPolicy) :=
  svc ← trafficMatchToMeshSvc m;
  cluster ← getMeshClusterConfigs (imtp_ClustersConfigs pol) (SidecarLocalClusterName svc);
  if is_http_match m then
    c ← getInboundHTTPRouteConfigs (imtp_HTTPRouteConfigsPerPort pol) (ms_TargetPort svc) (FQDN svc);
    Some (ms_Port (mcc_Service cluster), c)
  else None.

Lemma turnTarget_named pol m port c d :
  turnTarget pol m = Some (port, c) → d ∈ itp_Rules c → named pol (itp_Name c) d.
Proof.
  unfold turnTarget, getInboundHTTPRouteConfigs.
  intros (svc & _ & (cluster & _ & Hc)%bind_Some)%bind_Some Hd.
  destruct (is_http_match m); [|done]. apply bind_Some in Hc as (c' & (cs & Hcs & Hf)%bind_Some & [= _ ->]).
  apply first_some_elem in Hf as (c' & ? & Hc'). case_decide; [|done]. injection Hc' as ->.
  by exists (ms_TargetPort svc), cs, c.
Qed.

Lemma addHosts_rules tm hosts name :
  itm_HTTPServiceRouteRules (foldl (λ tm hostname, addHTTPHostPort2Service tm hostname name) tm hosts) =
  itm_HTTPServiceRouteRules tm.
Proof. revert tm. induction hosts as [|x l IH]; intros tm; simpl; [done|]. by rewrite IH. Qed.

Lemma putTrafficMatch_at itp port tm p n :
  routeRulesAt (putTrafficMatch itp port tm) p n =
  if decide (p = port) then itm_HTTPServiceRouteRules tm !! n else routeRulesAt itp p n.
Proof.
  unfold routeRulesAt. simpl. case_decide as E; [subst; by rewrite lookup_insert_eq|by rewrite lookup_insert_ne].
Qed.

Lemma newTrafficMatch_at itp port n :
  itm_HTTPServiceRouteRules (newTrafficMatch itp port) !! n = routeRulesAt itp port n.
Proof. unfold newTrafficMatch, routeRulesAt. by destruct (pitp_TrafficMatches itp !! port). Qed.

(** One turn changes the rules of its target only, and folds the rules of the catalog
    into them. *)
Lemma inboundTurn_spec pol itp m itp' :
  inboundTurn mc permissive trustDomain pp pol itp m = Ret itp' →
  match turnTarget pol m with
  | None => ∀ p n, routeRulesAt itp' p n = routeRulesAt itp p n
  | Some (port, c) => ∃ h h',
      ihrs_RouteRules h = ihrs_RouteRules (default zero_InboundHTTPRouteRules (routeRulesAt itp port (itp_Name c))) ∧
      ihrs_AllowedEndpoints h =
        ihrs_AllowedEndpoints (default zero_InboundHTTPRouteRules (routeRulesAt itp port (itp_Name c))) ∧
      foldO (inboundRule mc permissive trustDomain) h (itp_Rules c) = Ret h' ∧
      ∀ p n, routeRulesAt itp' p n =
        if decide (p = port ∧ n = itp_Name c) then Some h' else routeRulesAt itp p n
  end.
Proof.
  unfold inboundTurn, turnTarget. destruct (trafficMatchToMeshSvc m) as [svc|]; [|done]. simpl.
  destruct (getMeshClusterConfigs _ _) as [cluster|]; [|done]. simpl.
  set (port := ms_Port _). set (tm := setMatch _ _ _ _).
  assert (∀ n, itm_HTTPServiceRouteRules tm !! n = routeRulesAt itp port n) as Htm.
  { intros n. apply newTrafficMatch_at. }
  intros (tm' & Htm' & [= <-])%bind_Ret.
  assert ((∀ n, itm_HTTPServiceRouteRules tm' !! n = routeRulesAt itp port n) →
    ∀ p n, routeRulesAt (putTrafficMatch itp port tm') p n = routeRulesAt itp p n) as Hsame.
  { intros Hn p n. rewrite putTrafficMatch_at. by case_decide as E; [subst|]. }
  destruct (is_http_match m).
  2: { destruct (is_tcp_match m); [|injection Htm' as <-; by apply Hsame].
       apply bind_Ret in Htm' as (plugins & _ & [= <-]). by apply Hsame. }
  destruct (getInboundHTTPRouteConfigs _ _ _) as [c|]; simpl; [|injection Htm' as <-; by apply Hsame].
  unfold inboundHTTP, newHTTPServiceRouteRules in Htm'. case_bool_decide; [done|].
  apply bind_Ret in Htm' as (plugins & _ & (h' & Hh' & [= <-])%bind_Ret).
  eexists _, h'. split_and!; [| |exact Hh'|]; [by rewrite <-Htm..|].
  intros p n. rewrite putTrafficMatch_at, addHosts_rules. simpl.
  destruct (decide (p = port)) as [->|?]; [|by rewrite decide_False by naive_solver].
  destruct (decide (n = itp_Name c)) as [->|?].
  - by rewrite lookup_insert_eq, decide_True.
  - rewrite lookup_insert_ne, decide_False by naive_solver. apply Htm.
Qed.

(** Every rule the sidecar has for a service is accounted for. *)
Definition mesh_ok (pol : InboundMeshTrafficPolicy) (itp : InboundTrafficPolicy) : Prop :=
  ∀ p n h, routeRulesAt itp p n = Some h → rules_ok trustDomain mc permissive (named pol n) h.

Definition grantedAt (itp : InboundTrafficPolicy) (port : Z) (name : string)
    (c : string * URIMatchType * gmap string string * list string) (s : ServiceIdentity) : Prop :=
  ∃ h, routeRulesAt itp port name = Some h ∧ granted (ihrs_RouteRules h) c s.

Lemma rules_ok_zero D : rules_ok trustDomain mc permissive D zero_InboundHTTPRouteRules.
Proof. split; [intros r; set_solver|]. intros a s. simpl. by rewrite lookup_empty. Qed.

Lemma inboundTurn_ok pol itp m itp' :
  inboundTurn mc permissive trustDomain pp pol itp m = Ret itp' → mesh_ok pol itp →
  mesh_ok pol itp' ∧
  (∀ p n c s, grantedAt itp p n c s → grantedAt itp' p n c s) ∧
  (∀ port cfg d s, turnTarget pol m = Some (port, cfg) → d ∈ itp_Rules cfg → hasPath d →
     s ∈ identities trustDomain d → grantedAt itp' port (itp_Name cfg) (catalogCore d) s).
Proof.
  intros Hturn Hok. apply inboundTurn_spec in Hturn. unfold mesh_ok, grantedAt in *.
  destruct (turnTarget pol m) as [[port cfg]|] eqn:Et.
  2: { split_and!; [|by setoid_rewrite Hturn|done]. intros p n h. rewrite Hturn. apply Hok. }
  destruct Hturn as (h & h' & Hr & He & Hfold & Hat).
  assert (rules_ok trustDomain mc permissive (named pol (itp_Name cfg))
    (default zero_InboundHTTPRouteRules (routeRulesAt itp port (itp_Name cfg)))) as Hold.
  { destruct (routeRulesAt itp port (itp_Name cfg)) eqn:E; [by eapply Hok|apply rules_ok_zero]. }
  destruct (inboundRules_spec trustDomain mc permissive (named pol (itp_Name cfg)) h (itp_Rules cfg) h')
    as (Hok' & Hkeep & Hgrant); [by intros d; eapply turnTarget_named| |done|].
  { unfold rules_ok, endpoints_ok in *. by rewrite Hr, He. }
  rewrite Hr in Hkeep. split_and!.
  - intros p n h1. rewrite Hat. case_decide as E; [|apply Hok]. destruct E as [-> ->]. by intros [= <-].
  - intros p n c s (h1 & Hh1 & Hg). setoid_rewrite Hat. case_decide as E; [|by exists h1].
    destruct E as [-> ->]. exists h'. split; [done|]. apply Hkeep. by rewrite Hh1.
  - intros port' cfg' d s [= <- <-] ???. setoid_rewrite Hat. rewrite decide_True by done.
    exists h'. split; [done|]. by apply Hgrant.
Qed.

Lemma inboundLoop_ok pol itp ms itp' :
  foldO (inboundTurn mc permissive trustDomain pp pol) itp ms = Ret itp' → mesh_ok pol itp →
  mesh_ok pol itp' ∧
  (∀ p n c s, grantedAt itp p n c s → grantedAt itp' p n c s) ∧
  (∀ m port cfg d s, m ∈ ms → turnTarget pol m = Some (port, cfg) → d ∈ itp_Rules cfg → hasPath d →
     s ∈ identities trustDomain d → grantedAt itp' port (itp_Name cfg) (catalogCore d) s).
Proof.
  revert itp. induction ms as [|m ms IH]; intros itp; simpl; [by intros [= <-]; set_solver|].
  intros (itp1 & Hturn & Hloop)%bind_Ret Hok.
  destruct (inboundTurn_ok _ _ _ _ Hturn Hok) as (Hok1 & Hkeep1 & Hgrant1).
  destruct (IH itp1 Hloop Hok1) as (Hok' & Hkeep & Hgrant). split_and!; [done|by auto|].
  intros m' port cfg d s [->|?]%elem_of_cons; [|by apply Hgrant]. eauto.
Qed.

Lemma addClusterEndpoints_at {A} (f : A → string * string * Z * Z) itp l p n :
  routeRulesAt (foldl (λ itp x, let '(name, address, port, weight) := f x in
    addClusterEndpoint itp name address port weight) itp l) p n = routeRulesAt itp p n.
Proof. revert itp. induction l as [|x l IH]; intros itp; simpl; [done|]. rewrite IH. by destruct (f x) as [[[??]?]?]. Qed.

Lemma generatePipyInbound_at inbound pol itp :
  generatePipyInboundTrafficPolicy mc permissive trustDomain pp inbound pol = Ret itp →
  ∃ itp', foldO (inboundTurn mc permissive trustDomain pp pol) (default zero_InboundTrafficPolicy inbound)
            (imtp_TrafficMatches pol) = Ret itp' ∧ ∀ p n, routeRulesAt itp p n = routeRulesAt itp' p n.
Proof.
  intros (itp' & Hf & [= <-])%bind_Ret. exists itp'. split; [done|]. intros p n.
  apply (addClusterEndpoints_at (λ cluster : MeshClusterConfig, (mcc_Name cluster, mcc_Address cluster,
    uint16 (mcc_Port cluster), ClusterWeightAcceptAll))).
Qed.

(** C5. The inbound configuration of a sidecar admits whom the policy of the catalog
    admits: every rule it has for a service, and every address that may connect to it,
    comes from a rule of the catalog's policy of that name for the same requests that
    allows the identity (or allows everyone, or has no principals at all); it sends to
    clusters of such rules only; and every identity that a rule allows is let through
    on the port of its service. *)
Theorem generatePipyInbound_exact (pol : InboundMeshTrafficPolicy) (itp : InboundTrafficPolicy) :
  generatePipyInboundTrafficPolicy mc permissive trustDomain pp None pol = Ret itp →
  (∀ port name h, routeRulesAt itp port name = Some h →
     endpoints_ok trustDomain mc permissive (named pol name) h ∧
     ∀ r, r ∈ ihrs_RouteRules h →
       (∀ s, admits r s → ∃ d, named pol name d ∧ ruleCore r = catalogCore d ∧
          (rule_AllowedPrincipals d = ∅ ∨ "*" ∈ identities trustDomain d ∨ s ∈ identities trustDomain d)) ∧
       (∀ c w, targetClusters r !! c = Some w → ∃ d wc, named pol name d ∧ ruleCore r = catalogCore d ∧
          wc ∈ rwc_WeightedClusters (rule_Route d) ∧ c = wc_ClusterName wc ∧ w = uint32 (wc_Weight wc))) ∧
  (∀ m port cfg d s, m ∈ imtp_TrafficMatches pol → turnTarget pol m = Some (port, cfg) →
     d ∈ itp_Rules cfg → hasPath d → s ∈ identities trustDomain d →
     ∃ h r, routeRulesAt itp port (itp_Name cfg) = Some h ∧ r ∈ ihrs_RouteRules h ∧
       ruleCore r = catalogCore d ∧ admits r s).
Proof.
  intros (itp' & Hloop & Hat)%generatePipyInbound_at.
  destruct (inboundLoop_ok _ _ _ _ Hloop) as (Hok & _ & Hgrant); [by intros p n h|]. split.
  - intros port name h. rewrite Hat. intros Hh. destruct (Hok _ _ _ Hh) as [Hj He]. split; [done|].
    intros r Hr. destruct (Hj r Hr) as [Hopen Hs Hc _]. split; [|done].
    intros s [Hn|Hin]; [destruct (Hopen Hn) as (d & ? & ? & [?|?])|destruct (Hs _ Hin) as (d & ? & ? & ?)];
      exists d; auto.
  - intros m port cfg d s Hm Ht Hd Hp Hs. destruct (Hgrant m port cfg d s Hm Ht Hd Hp Hs) as (h & Hh & r & ? & ? & Hg).
    exists h, r. rewrite Hat. split_and!; [done..|]. destruct Hg as [Ho|?]; [left|by right].
    destruct (Hok _ _ _ Hh) as [Hj _]. by apply (Hj r).
Qed.
End mesh_loop.

(** ** Lemmas: traffic that enters the mesh *)

Section entry.
Context `{RangeOrder} (pp : PluginPolicies).

Lemma addSourceIPRanges_rules tm ranges spec :
  itm_HTTPServiceRouteRules (foldl (λ tm ipRange, addSourceIPRange tm ipRange spec) tm ranges) =
  itm_HTTPServiceRouteRules tm.
Proof. revert tm. induction ranges as [|x l IH]; intros tm; simpl; [done|]. by rewrite IH. Qed.

Lemma entryHost_frame m rules tm host tm' n :
  entryHost pp m rules tm host = Ret tm' → n ≠ host →
  itm_HTTPServiceRouteRules tm' !! n = itm_HTTPServiceRouteRules tm !! n.
Proof.
  unfold entryHost, newHTTPServiceRouteRules. case_bool_decide; [done|].
  intros (plugins & _ & [= <-])%bind_Ret Hn. simpl. by rewrite lookup_insert_ne.
Qed.

Lemma entryPolicy_frame m tm c tm' n :
  entryPolicy pp m tm c = Ret tm' → (∀ cfg, c = Some cfg → n ∉ itp_Hostnames cfg) →
  itm_HTTPServiceRouteRules tm' !! n = itm_HTTPServiceRouteRules tm !! n.
Proof.
  unfold entryPolicy. destruct c as [cfg|]; [|done]. destruct (itp_Rules cfg) as [|d l]; [by intros [= <-]|].
  intros Hf Hn. specialize (Hn cfg eq_refl). revert Hf.
  apply (foldO_inv _ (λ tm', itm_HTTPServiceRouteRules tm' !! n = itm_HTTPServiceRouteRules tm !! n)); [|done].
  intros tm1 host tm2 Hin <- Hh. eapply entryHost_frame; [done|]. by intros ->.
Qed.

(** An entry changes the rules named after the hosts of its policies only. *)
Lemma entryTurn_frame policies itp m itp' p n :
  entryTurn pp policies itp m = Ret itp' → (∀ cfg, Some cfg ∈ policies → n ∉ itp_Hostnames cfg) →
  routeRulesAt itp' p n = routeRulesAt itp p n.
Proof.
  unfold entryTurn. set (tm0 := foldl _ _ _). intros (tm & Htm & [= <-])%bind_Ret Hn.
  assert (itm_HTTPServiceRouteRules tm !! n = routeRulesAt itp (uint16 (em_Port m)) n) as E.
  { assert (itm_HTTPServiceRouteRules tm0 !! n = routeRulesAt itp (uint16 (em_Port m)) n) as E0.
    { subst tm0. rewrite addSourceIPRanges_rules. unfold getTrafficMatch, routeRulesAt.
      by destruct (pitp_TrafficMatches itp !! uint16 (em_Port m)). }
    destruct (isHTTPEntry m); [|by injection Htm as <-]. revert Htm. rewrite <-E0.
    apply (foldO_inv _ (λ tm', itm_HTTPServiceRouteRules tm' !! n = itm_HTTPServiceRouteRules tm0 !! n)); [|done].
    intros tm1 c tm2 Hin <- Hc. eapply entryPolicy_frame; [done|]. intros cfg ->. by apply Hn. }
  rewrite putTrafficMatch_at. by case_decide as Ep; [subst p|].
Qed.

Lemma entryPolicies_frame inbound ms policies inbound' p n :
  entryPolicies pp inbound ms policies = Ret inbound' →
  (∀ cfg, Some cfg ∈ policies → n ∉ itp_Hostnames cfg) →
  (inbound' ≫= λ itp, routeRulesAt itp p n) = (inbound ≫= λ itp, routeRulesAt itp p n).
Proof.
  unfold entryPolicies. destruct ms as [|m ms]; [by intros [= <-]|]. destruct inbound as [itp|]; [|by intros [= <-]].
  case_decide; [by intros [= <-]|]. intros (itp' & Hf & [= <-])%bind_Ret Hn. simpl. revert Hf.
  apply (foldO_inv _ (λ itp', routeRulesAt itp' p n = routeRulesAt itp p n)); [|done].
  intros itp1 m1 itp2 _ <- Hm. by eapply entryTurn_frame.
Qed.

(** The policies of the catalog for such traffic have one host, the wildcard. *)
Lemma entryTraffic_frame mc inbound svc inbound' p n :
  entryTraffic mc pp inbound svc = Ret inbound' → n ≠ "*" →
  (inbound' ≫= λ itp, routeRulesAt itp p n) = (inbound ≫= λ itp, routeRulesAt itp p n).
Proof.
  unfold entryTraffic. intros (ingress & Hi & (i1 & Hi1 & (acl & Ha & (i2 & Hi2 & Hi3)%bind_Ret)%bind_Ret)%bind_Ret)%bind_Ret Hn.
  assert (∀ name rules cfg, Some cfg ∈ [routePolicy name rules] → n ∉ itp_Hostnames cfg) as Hroute.
  { intros name rules cfg Hc%list_elem_of_singleton. unfold routePolicy in Hc.
    destruct rules; [done|]. injection Hc as ->. simpl. by intros ?%list_elem_of_singleton. }
  trans (i2 ≫= λ itp, routeRulesAt itp p n); [|trans (i1 ≫= λ itp, routeRulesAt itp p n)].
  - unfold GetExportTrafficPolicy in Hi3. destruct (mcl_GetExportedRule _ _) as [[rule|]|]; simpl in Hi3;
      [|by injection Hi3 as <-..]. eapply entryPolicies_frame; [exact Hi3|]. simpl. apply Hroute.
  - unfold GetAccessControlTrafficPolicy in Ha.
    destruct (cfg_EnableAccessControlPolicy _); [|injection Ha as <-; by injection Hi2 as <-].
    destruct (pol_GetAccessControlPolicy _ _) as [ac|]; [|injection Ha as <-; by injection Hi2 as <-].
    apply bind_Ret in Ha as (r & _ & [= <-]).
    destruct r as [[[|m ms] ps]|[ns nm]]; simpl in Hi2; [by injection Hi2 as <-| |by injection Hi2 as <-].
    eapply entryPolicies_frame; [exact Hi2|]. apply Hroute.
  - unfold GetIngressTrafficPolicy in Hi.
    destruct (cfg_EnableIngressBackendPolicy _); [|injection Hi as <-; by injection Hi1 as <-].
    destruct (pol_GetIngressBackendPolicy _ _) as [ib|]; [|injection Hi as <-; by injection Hi1 as <-].
    apply bind_Ret in Hi as (r & _ & [= <-]).
    destruct r as [[[|m ms] ps]|[ns nm]]; simpl in Hi1; [by injection Hi1 as <-| |by injection Hi1 as <-].
    eapply entryPolicies_frame; [exact Hi1|]. simpl. intros cfg [= ->]%list_elem_of_singleton.
    simpl. by intros ?%list_elem_of_singleton.
Qed.
End entry.

(** ** The inbound step, from the resources to the sidecar *)

(** The names the API server admits, for a service of the mesh. *)
Record service_ok (svc : MeshService) : Prop := {
  so_ns : free_of "_" (ms_Namespace svc) ∧ free_of "/" (ms_Namespace svc) ∧ free_of "." (ms_Namespace svc);
  so_name : free_of "_" (ms_Name svc) ∧ free_of "/" (ms_Name svc) ∧ free_of "|" (ms_Name svc);
  so_protocol : free_of "_" (ms_Protocol svc) ∧ ms_Protocol svc ≠ "";
  so_port : is_uint16 (ms_TargetPort svc);
}.

(** The service is read back from the name of its match. *)
Lemma trafficMatchToMeshSvc_inbound svc uts :
  service_ok svc →
  trafficMatchToMeshSvc (inboundMatch svc uts) =
  Some (mkMeshService (ms_Namespace svc) (ms_Name svc) 0 (ms_TargetPort svc) (to_lower (ms_Protocol svc)) "").
Proof.
  intros [(Hns & Hns' & _) (Hn & Hn' & _) [Hp Hpne] Hport]. unfold trafficMatchToMeshSvc.
  cbn [inboundMatch tm_Name tm_DestinationPort tm_DestinationProtocol].
  assert (InboundTrafficMatchName svc = join "_" ["inbound"; MeshService_String svc;
    itoa (ms_TargetPort svc); ms_Protocol svc]) as -> by done.
  assert (MeshService_String svc = NamespacedName_String (mkNamespacedName (ms_Namespace svc) (ms_Name svc)))
    as Hs by done.
  rewrite FieldsFunc_join; [cbv iota; rewrite Hs, NamespacedNameFrom_String, uint16_id by done; done|].
  repeat apply Forall_cons_2; [done|split|split|done|constructor].
  - unfold MeshService_String. intros E%(f_equal (has_char "/")). rewrite !has_char_app in E.
    simpl in E. by rewrite orb_true_r in E.
  - unfold MeshService_String. rewrite !free_of_app. done.
  - apply itoa_ne.
  - by apply itoa_free.
Qed.

Section job_theorems.
Context `{RangeOrder} (mc : MeshCatalog) (domain : string).
Context `{!MeshSpecOk (mc_kubeController mc) (mc_meshSpec mc)}.
Context (sa : K8sServiceAccount) (svcs : list MeshService) (conf conf' : PipyConf).
Context (Hsmi : cfg_IsPermissiveTrafficPolicyMode (mc_configurator mc) = false).
Context (Hsa : sa_dotless sa) (Hname : sa_Name sa ≠ "") (Hnew : pc_Inbound conf = None).
Context (Hjob : jobInbound mc domain (ToServiceIdentity sa) svcs conf = Ret conf').

Definition sidecarRules (port : Z) (name : string) : option InboundHTTPRouteRules :=
  itp ← pc_Inbound conf'; routeRulesAt itp port name.

(** The rules of a service are those of the mesh policy. *)
Lemma jobInbound_rules :
  ∃ pol itp, GetInboundMeshTrafficPolicy mc domain (ToServiceIdentity sa) svcs = Ret pol ∧
    generatePipyInboundTrafficPolicy mc (psp_enablePermissiveTrafficPolicyMode (pc_Spec conf))
      (mc_GetTrustDomain mc) (pc_pluginPolicies conf) None pol = Ret itp ∧
    ∀ port name, name ≠ "*" → sidecarRules port name = routeRulesAt itp port name.
Proof using Hjob Hnew.
  unfold jobInbound in Hjob. apply bind_Ret in Hjob as (pol & Hpol & (itp & Hitp & (i & Hi & Hc)%bind_Ret)%bind_Ret).
  injection Hc as Hc. rewrite Hnew in Hitp. exists pol, itp. split_and!; [done..|].
  intros port name Hn. unfold sidecarRules. rewrite <-Hc. simpl. revert Hi.
  apply (foldO_inv _ (λ i, (i ≫= λ itp, routeRulesAt itp port name) = routeRulesAt itp port name)); [|done].
  intros i1 svc i2 _ <- Hs. by eapply entryTraffic_frame.
Qed.

(** The rules of the catalog that a name stands for come from TrafficTargets. *)
Lemma named_authorised pol name d :
  GetInboundMeshTrafficPolicy mc domain (ToServiceIdentity sa) svcs = Ret pol → named pol name d →
  ∃ m, rwc_HTTPRouteMatch (rule_Route d) = m ∧
    (∀ s, s ∈ identities (mc_GetTrustDomain mc) d → ∃ t src, authorises mc sa t m ∧ src ∈ tt_Sources t ∧
       s = ToServiceIdentity (trafficTargetIdentityToSvcAccount src)) ∧
    (rule_AllowedPrincipals d = ∅ → ∃ t, authorises mc sa t m ∧ tt_Sources t = []).
Proof using Hsmi Hsa Hname MeshSpecOk0.
  intros Hpol (port & configs & c & Hport & Hc & _ & Hd).
  destruct (inbound_rule_authorised mc domain sa svcs pol port configs c d Hsmi Hsa Hname Hpol Hport Hc Hd) as [Hp He].
  eexists. split; [done|]. split; [|done]. intros s (p & Hin & <-)%elem_of_identities.
  destruct (Hp p Hin) as (t & src & ? & ? & ->). exists t, src. split_and!; [done..|].
  unfold sa_AsPrincipal. by rewrite FromPrincipal_AsPrincipal_id.
Qed.

Lemma ToServiceIdentity_not_star a : ToServiceIdentity a ≠ "*".
Proof.
  unfold ToServiceIdentity, New. intros E%(f_equal (has_char ".")). rewrite !has_char_app in E. simpl in E.
  by rewrite orb_true_r in E.
Qed.

(** Zero trust, from the resources to the sidecar: in SMI mode, a rule that the
    sidecar of a workload has for a service admits an identity only if a TrafficTarget
    of a monitored namespace names the workload's account as destination, selects the
    route the rule matches, and has the identity among its sources, or has no sources;
    the policies for traffic that enters the mesh do not touch these rules. *)
Lemma jobInbound_authorised (port : Z) (name : string) (h : InboundHTTPRouteRules)
    (r : InboundHTTPRouteRule) (s : ServiceIdentity) :
  sidecarRules port name = Some h → name ≠ "*" → r ∈ ihrs_RouteRules h → admits r s →
  ∃ t m, authorises mc sa t m ∧ ruleCore r = matchCore (newHTTPMatch m) ∧
    (tt_Sources t = [] ∨ ∃ src, src ∈ tt_Sources t ∧ s = ToServiceIdentity (trafficTargetIdentityToSvcAccount src)).
Proof using Hsmi Hsa Hname Hnew Hjob MeshSpecOk0.
  destruct jobInbound_rules as (pol & itp & Hpol & Hitp & Hat). intros Hh Hn Hr Hs.
  rewrite Hat in Hh by done. apply generatePipyInbound_at in Hitp as (itp' & Hloop & Hat').
  rewrite Hat' in Hh. destruct (inboundLoop_ok _ _ _ _ _ _ _ _ Hloop) as (Hok & _); [by intros p n h'|].
  destruct (Hok _ _ _ Hh) as [Hj _]. destruct (Hj r Hr) as [Hopen Hserv _ _].
  destruct Hs as [Hnil|Hin].
  - destruct (Hopen Hnil) as (d & Hd & Hc & Hp). destruct (named_authorised _ _ _ Hpol Hd) as (m & Hm & Hid & He).
    unfold catalogCore in Hc. rewrite Hm in Hc. destruct Hp as [Hp|Hp].
    + destruct (He Hp) as (t & ? & ?). exists t, m. auto.
    + destruct (Hid _ Hp) as (t & src & _ & _ & E). by destruct (ToServiceIdentity_not_star _ (eq_sym E)).
  - destruct (Hserv _ Hin) as (d & Hd & Hc & Hp). destruct (named_authorised _ _ _ Hpol Hd) as (m & Hm & Hid & _).
    unfold catalogCore in Hc. rewrite Hm in Hc. destruct (Hid _ Hp) as (t & src & ? & ? & ->). exists t, m. eauto 6.
Qed.

(** The HTTP services: those with routes in the sidecar. *)
Definition isHTTPService (svc : MeshService) : Prop :=
  to_lower (ms_Protocol svc) = ProtocolHTTP ∨ ms_Protocol svc = ProtocolGRPC.

Lemma isHTTPService_not_tcp svc : isHTTPService svc → is_tcp svc = false.
Proof.
  intros Hs. unfold is_tcp. apply orb_false_iff. rewrite !bool_decide_eq_false.
  destruct Hs as [E|E]; split; intros E'; rewrite E' in E; done.
Qed.

(** The policy that the match of an HTTP service finds. *)
Lemma turnTarget_http pol svc uts :
  GetInboundMeshTrafficPolicy mc domain (ToServiceIdentity sa) svcs = Ret pol →
  svc ∈ svcs → service_ok svc → isHTTPService svc →
  ∃ svc0 svc' uts' cfg, turnTarget pol (inboundMatch svc uts) = Some (ms_Port svc0, cfg) ∧
    svc0 ∈ getUpstreamServicesIncludeApex mc svcs ∧
    SidecarLocalClusterName svc0 = SidecarLocalClusterName svc ∧ itp_Name cfg = FQDN svc ∧
    cfg = buildInboundHTTPPolicyFromTrafficTarget mc domain svc'
      (spec_ListTrafficTargets (mc_meshSpec mc) [WithTrafficTargetDestination sa]) uts'.
Proof using Hsmi Hsa Hname Hnew Hjob MeshSpecOk0.
  intros Hpol Hsvc Hok Hhttp. unfold turnTarget. rewrite trafficMatchToMeshSvc_inbound by done. cbn [option_bind mbind].
  destruct (GetInbound_closed _ _ _ _ _ Hpol) as (ts & utss & Hts & Hutss & Hc & _ & Hr).
  unfold targetsFor in Hts. rewrite Hsmi, ToK8s_dotless in Hts by done. injection Hts as <-.
  assert (svc ∈ getUpstreamServicesIncludeApex mc svcs) as Hall by (apply elem_of_includeApex; eauto).
  unfold getMeshClusterConfigs. rewrite Hc.
  destruct (first_some _ (inboundCluster <$> _)) as [cl|] eqn:Ecl.
  2: { rewrite first_some_None in Ecl. specialize (Ecl (inboundCluster svc)). simpl in Ecl.
       rewrite decide_True in Ecl by done. discriminate Ecl. apply list_elem_of_fmap. by exists svc. }
  apply first_some_elem in Ecl as (cl' & (svc0 & -> & Hsvc0)%list_elem_of_fmap & Hcl).
  simpl in Hcl. case_decide as Ename; [|done]. injection Hcl as <-. simpl.
  assert (is_http_match (inboundMatch svc uts) = true) as -> by (apply orb_true_iff; by rewrite !bool_decide_eq_true).
  destruct (elem_of_zip_setting_2 mc _ _ svc Hutss Hall) as (u & Hz & _).
  specialize (Hr (ms_TargetPort svc)). rewrite Hsmi in Hr. unfold getInboundHTTPRouteConfigs.
  assert (buildInboundHTTPPolicyFromTrafficTarget mc domain svc
    (spec_ListTrafficTargets (mc_meshSpec mc) [WithTrafficTargetDestination sa]) u ∈
    default [] (imtp_HTTPRouteConfigsPerPort pol !! ms_TargetPort svc)) as Hin.
  { rewrite Hr. apply list_elem_of_bind. exists (svc, u). split; [|done]. simpl.
    rewrite isHTTPService_not_tcp, bool_decide_true by done. by apply list_elem_of_singleton. }
  destruct (imtp_HTTPRouteConfigsPerPort pol !! ms_TargetPort svc) as [cfgs|] eqn:Ecfgs; simpl in *; [|set_solver].
  destruct (first_some _ cfgs) as [cfg|] eqn:Ecfg.
  2: { rewrite first_some_None in Ecfg. specialize (Ecfg _ Hin). simpl in Ecfg.
       by rewrite decide_True in Ecfg. }
  apply first_some_elem in Ecfg as (cfg' & Hcfg & Ecfg). case_decide as EN; [|done]. injection Ecfg as <-.
  rewrite Hr in Hcfg. apply list_elem_of_bind in Hcfg as ([svc' uts'] & Hcfg & _). simpl in Hcfg.
  destruct (_ && _); [|set_solver]. apply list_elem_of_singleton in Hcfg.
  exists svc0, svc', uts', cfg'. split_and!; try done.
Qed.

(** Whatever a TrafficTarget authorises, the sidecar lets through: in SMI mode, an
    identity among the sources of a TrafficTarget for the workload's account is admitted
    by a rule for each route the target selects, for every HTTP service of the
    workload, on the port of the first service with the same local cluster. *)
Lemma jobInbound_complete (svc : MeshService) (t : TrafficTarget) (m : HTTPRouteMatch)
    (src : IdentityBindingSubject) :
  svc ∈ svcs → service_ok svc → isHTTPService svc → authorises mc sa t m → hrm_Path m ≠ "" → src ∈ tt_Sources t →
  ∃ svc0 h r, svc0 ∈ getUpstreamServicesIncludeApex mc svcs ∧
    SidecarLocalClusterName svc0 = SidecarLocalClusterName svc ∧
    sidecarRules (ms_Port svc0) (FQDN svc) = Some h ∧ r ∈ ihrs_RouteRules h ∧
    ruleCore r = matchCore (newHTTPMatch m) ∧
    admits r (ToServiceIdentity (trafficTargetIdentityToSvcAccount src)).
Proof using Hsmi Hsa Hname Hnew Hjob MeshSpecOk0.
  intros Hsvc Hok Hhttp (Ht & Hns & Hdst & Hm) Hpath Hsrc.
  destruct jobInbound_rules as (pol & itp & Hpol & Hitp & Hat).
  destruct (GetInbound_closed _ _ _ _ _ Hpol) as (_ & utss & _ & Hutss & _ & Hms & _).
  destruct (elem_of_zip_setting_2 mc _ _ svc Hutss) as (u & Hz & _); [apply elem_of_includeApex; eauto|].
  destruct (turnTarget_http pol svc u Hpol Hsvc Hok Hhttp) as (svc0 & svc' & uts' & cfg & Htt & H0 & Hcn & HN & Hcfg).
  destruct (buildInboundHTTPPolicy_authorised mc domain svc'
    (spec_ListTrafficTargets (mc_meshSpec mc) [WithTrafficTargetDestination sa]) uts') as [_ Hp].
  rewrite <-Hcfg in Hp.
  destruct (proj2 (Hp (NewRouteWeightedCluster m [localCluster svc'] uts')
    (sa_AsPrincipal (trafficTargetIdentityToSvcAccount src) (mc_GetTrustDomain mc)))) as (d & Hd & Er & Hin).
  { exists t, m, src. split_and!; try done. by apply destination_targets. }
  apply generatePipyInbound_at in Hitp as (itp' & Hloop & Hat').
  destruct (inboundLoop_ok _ _ _ _ _ _ _ _ Hloop) as (Hmesh & _ & Hgrant); [by intros p n h'|].
  destruct (Hgrant (inboundMatch svc u) (ms_Port svc0) cfg d
    (ToServiceIdentity (trafficTargetIdentityToSvcAccount src))) as (h & Hh & r & Hr & Hc & Hg); [|done|done| | |].
  { rewrite Hms. apply list_elem_of_bind. exists (svc, u). split; [|done]. simpl.
    rewrite bool_decide_true by (by apply elem_of_list_to_set). by apply list_elem_of_singleton. }
  { unfold hasPath. by rewrite Er. }
  { apply elem_of_identities. eexists. split; [exact Hin|]. apply FromPrincipal_AsPrincipal_id. }
  exists svc0, h, r. rewrite <-Hat', HN in Hh. unfold catalogCore in Hc. rewrite Er in Hc.
  split_and!; try done.
  - rewrite Hat; [done|]. intros E%(f_equal (has_char ".")). unfold FQDN in E. rewrite !has_char_app in E.
    simpl in E. by rewrite orb_true_r in E.
  - rewrite Hat', <-HN in Hh. destruct (Hmesh _ _ _ Hh) as [Hj _]. destruct Hg; [left; by apply (Hj r)|by right].
Qed.
End job_theorems.
