(* ===== verification/PipyOutbound.v ===== *)
(** * pkg/sidecar/providers/pipy/repo: the outbound side of a sidecar

    The part of util.go that turns the outbound, egress and egress gateway policies of
    the catalog into the outbound and forward configuration of a pipy sidecar, with the
    endpoints of the clusters it needs, and the steps of jobs.go that call it. *)

From S2P Require Import Prelude GoStrings Net Identity Service PolicyApi TrafficPolicy K8s.
From S2P Require Import K8sClient KubeProvider Smi PolicyClient Catalog CatalogEgress CatalogInbound.
From S2P Require Import CatalogOutbound Pipy PipyPlugin PipyInbound.

(** ** Names read back *)

(** [<namespace>/<name>|<port>] *)
Definition clusterToMeshSvc (cluster : string) : option MeshService :=
  match FieldsFunc cluster (λ r, bool_decide (r = "/"%char) || bool_decide (r = "|"%char)) with
  | [namespace; name; port] =>
    port ← ParseUint port 16;
    Some (mkMeshService namespace name 0 port "" "")
  | _ => None
  end.

(** The host is split at dots and colons.  The last chunk and the first two are read
    whatever their number is, and an index out of range panics.  The error is [None]. *)
Definition hostToMeshSvc (cluster : string) : outcome (option MeshService) :=
  let chunks := FieldsFunc cluster (λ r, bool_decide (r = "."%char) || bool_decide (r = ":"%char)) in
  if bool_decide (4 < Z.of_nat (length chunks))%Z && equal_fold "svc" (default "" (chunks !! 3%nat)) then Ret None
  else
    match last chunks with
    | None => Panic
    | Some port =>
      match ParseUint port 16 with
      | None => Ret None
      | Some port =>
        match chunks with
        | name :: namespace :: _ => Ret (Some (mkMeshService namespace name 0 port "" ""))
        | _ => Panic
        end
      end
    end.

Section outbound.
Context `{RangeOrder} (mc : MeshCatalog).

(** [arrayEqual]: as many clusters, and each in the other. *)
Definition arrayEqual (a : list Service.WeightedCluster) (set : gset Service.WeightedCluster) : bool :=
  let b := range_set set in
  bool_decide (length a = length b) &&
  forallb (λ ca, bool_decide (ca ∈ b)) a && forallb (λ cb, bool_decide (cb ∈ a)) b.

Definition getOutboundHTTPRouteConfigs
    (httpRouteConfigsPerPort : gmap Z (list TrafficPolicy.OutboundTrafficPolicy)) (targetPort : Z)
    (upstreamSvcFQDN : string) (weightedClusters : list Service.WeightedCluster) :
    list TrafficPolicy.OutboundTrafficPolicy :=
  filter (λ p, bool_decide (otp_Name p = upstreamSvcFQDN) &&
               existsb (λ route, arrayEqual weightedClusters (rwc_WeightedClusters route)) (otp_Routes p))
    (default [] (httpRouteConfigsPerPort !! targetPort)).

Definition getUpstreamEndpoints (proxyIdentity : ServiceIdentity) (clusterName : string) :
    outcome (list Endpoint) :=
  match clusterToMeshSvc clusterName with
  | Some dstSvc => ListAllowedUpstreamEndpointsForService mc proxyIdentity dstSvc
  | None => Ret []
  end.

(** ** Routes *)

(** The first weighted cluster of a name is kept. *)
Definition addDepend (retryPolicy : option RetryPolicySpec) (dependClusters : gmap string WeightedCluster)
    (cluster : Service.WeightedCluster) : gmap string WeightedCluster :=
  match dependClusters !! wc_ClusterName cluster with
  | Some _ => dependClusters
  | None => <[wc_ClusterName cluster := mkWeightedCluster cluster retryPolicy]> dependClusters
  end.

(** The rule of a route: its clusters are added to a rule with the same match. *)
Definition outboundRoute (rules : list HTTPRouteRule) (route : RouteWeightedClusters) : list HTTPRouteRule :=
  newHTTPServiceRouteRule hrr_Match newRouteRule (newHTTPMatch (rwc_HTTPRouteMatch route))
    (λ _ hsrr, foldl (λ hrr wc, addWeightedCluster hrr (wc_ClusterName wc) (uint32 (wc_Weight wc)))
                 hsrr (range_set (rwc_WeightedClusters route))) rules.

Definition dependOn (dependClusters : gmap string WeightedCluster) (route : RouteWeightedClusters) :
    gmap string WeightedCluster :=
  foldl (addDepend (rwc_RetryPolicy route)) dependClusters (range_set (rwc_WeightedClusters route)).

(** [destinationProtocol == http || destinationProtocol == grpc], in lower case. *)
Definition isHTTPProtocol (protocol : string) : bool :=
  bool_decide (to_lower protocol = ProtocolHTTP) || bool_decide (to_lower protocol = ProtocolGRPC).
Definition isTCPProtocol (protocol : string) : bool :=
  bool_decide (to_lower protocol = ProtocolTCP) || bool_decide (to_lower protocol = ProtocolTCPServerFirst).
Definition isHTTPSProtocol (protocol : string) : bool := bool_decide (to_lower protocol = ProtocolHTTPS).

(** [tm, exist := otp.newTrafficMatch(port, name)], and the protocol and port of a new
    match. *)
Definition openTrafficMatch (otp : OutboundTrafficPolicy) (m : TrafficMatch) (name : string) :
    OutboundTrafficMatch * OutboundTrafficPolicy :=
  let '(tm, found, otp) := o_newTrafficMatch otp (uint16 (tm_DestinationPort m)) name in
  (if (found : bool) then tm else o_setMatch tm (tm_DestinationProtocol m) (tm_DestinationPort m), otp).

(** ** Mesh traffic *)

Definition outboundHTTPConfig (proxyIdentity : ServiceIdentity) (plugins : Plugins)
    (acc : OutboundTrafficMatch * gmap string WeightedCluster) (config : TrafficPolicy.OutboundTrafficPolicy) :
    outcome (OutboundTrafficMatch * gmap string WeightedCluster) :=
  let '(tm, depend) := acc in
  let ruleName := otp_Name config in
  match o_newHTTPServiceRouteRules tm ruleName with
  | None => Panic
  | Some hsrrs =>
    let hsrrs := o_setPlugins (setServiceIdentity hsrrs proxyIdentity) plugins in
    let hsrrs := o_setRules hsrrs (foldl outboundRoute (ohrs_RouteRules hsrrs) (otp_Routes config)) in
    Ret (foldl (λ tm hostname, o_addHTTPHostPort2Service tm hostname ruleName)
           (o_putRouteRules tm ruleName hsrrs) (otp_Hostnames config),
         foldl dependOn depend (otp_Routes config))
  end.

(** The clusters of a list, on the TCP rules of the match. *)
Definition addTCPClusters (clusters : list Service.WeightedCluster) (tsrr : OutboundTCPServiceRouteRules) :
    OutboundTCPServiceRouteRules :=
  foldl (λ tsrr wc, t_addWeightedCluster tsrr (wc_ClusterName wc) (uint32 (wc_Weight wc))) tsrr clusters.

(** The three branches on the protocol. *)
Definition outboundHTTP (proxyIdentity : ServiceIdentity) (pp : PluginPolicies)
    (pol : OutboundMeshTrafficPolicy) (m : TrafficMatch)
    (acc : OutboundTrafficMatch * gmap string WeightedCluster) :
    outcome (OutboundTrafficMatch * gmap string WeightedCluster) :=
  match trafficMatchToMeshSvc m with
  | None => Panic
  | Some upstreamSvc =>
    match getOutboundHTTPRouteConfigs (omtp_HTTPRouteConfigsPerPort pol) (ms_TargetPort upstreamSvc)
            (FQDN upstreamSvc) (tm_WeightedClusters m) with
    | [] => Ret acc
    | configs =>
      plugins ← getTrafficMatchPluginConfigs pp (tm_Name m);
      foldO (outboundHTTPConfig proxyIdentity plugins) acc configs
    end
  end.

Definition outboundTCP (pp : PluginPolicies) (m : TrafficMatch)
    (acc : OutboundTrafficMatch * gmap string WeightedCluster) :
    outcome (OutboundTrafficMatch * gmap string WeightedCluster) :=
  let '(tm, depend) := acc in
  plugins ← getTrafficMatchPluginConfigs pp (tm_Name m);
  let tsrr := t_setPlugins (o_newTCPServiceRouteRules tm) plugins in
  Ret (o_putTCPRouteRules tm (addTCPClusters (tm_WeightedClusters m) tsrr),
       foldl (addDepend None) depend (tm_WeightedClusters m)).

Definition outboundHTTPS (pp : PluginPolicies) (pol : OutboundMeshTrafficPolicy) (m : TrafficMatch)
    (acc : OutboundTrafficMatch * gmap string WeightedCluster) :
    outcome (OutboundTrafficMatch * gmap string WeightedCluster) :=
  let '(tm, depend) := acc in
  match trafficMatchToMeshSvc m with
  | None => Panic
  | Some upstreamSvc =>
    match getOutboundHTTPRouteConfigs (omtp_HTTPRouteConfigsPerPort pol) (ms_TargetPort upstreamSvc)
            (FQDN upstreamSvc) (tm_WeightedClusters m) with
    | [] => Ret acc
    | configs =>
      plugins ← getTrafficMatchPluginConfigs pp (tm_Name m);
      let routes := configs ≫= otp_Routes in
      let tsrr := t_setPlugins (o_newTCPServiceRouteRules tm) plugins in
      Ret (o_putTCPRouteRules tm (addTCPClusters (routes ≫= λ r, range_set (rwc_WeightedClusters r)) tsrr),
           foldl dependOn depend routes)
    end
  end.

Definition outboundTurn (proxyIdentity : ServiceIdentity) (pp : PluginPolicies)
    (pol : OutboundMeshTrafficPolicy) (acc : OutboundTrafficPolicy * gmap string WeightedCluster)
    (m : TrafficMatch) : outcome (OutboundTrafficPolicy * gmap string WeightedCluster) :=
  let '(otp, depend) := acc in
  let name := if isHTTPProtocol (tm_DestinationProtocol m) then ProtocolHTTP else tm_Name m in
  let '(tm, otp) := openTrafficMatch otp m name in
  let tm := foldl (addDestinationIPRange None) tm (tm_DestinationIPRanges m) in
  '(tm, depend) ←
    (if isHTTPProtocol (tm_DestinationProtocol m) then outboundHTTP proxyIdentity pp pol m (tm, depend)
     else if isTCPProtocol (tm_DestinationProtocol m) then outboundTCP pp m (tm, depend)
     else if isHTTPSProtocol (tm_DestinationProtocol m) then outboundHTTPS pp pol m (tm, depend)
     else Ret (tm, depend));
  Ret (o_putTrafficMatch otp (uint16 (tm_DestinationPort m)) name tm, depend).

(** The policy, and the clusters it depends on. *)
Definition generatePipyOutboundTrafficRoutePolicy (proxyIdentity : ServiceIdentity) (pp : PluginPolicies)
    (outbound : option OutboundTrafficPolicy) (pol : OutboundMeshTrafficPolicy) :
    outcome (option OutboundTrafficPolicy * gmap string WeightedCluster) :=
  match omtp_TrafficMatches pol with
  | [] => Ret (outbound, ∅)
  | matches =>
    '(otp, depend) ← foldO (outboundTurn proxyIdentity pp pol)
                       (default zero_OutboundTrafficPolicy outbound, ∅) matches;
    Ret (Some otp, depend)
  end.

(** The balance step: the endpoints of the clusters that the routes depend on, visited in
    no specified order.  Not ready when a cluster is not configured or has no endpoint. *)
Definition zonePort (svc : MeshService) (ep : Endpoint) : Z :=
  if bool_decide (ep_ClusterKey ep ≠ "") && bool_decide (0 < uint16 (ms_TargetPort svc))%Z
  then uint16 (ms_TargetPort svc) else uint16 (ms_Port svc).

(** One endpoint, with the settings of the cluster. *)
Definition balanceEndpoint (config : MeshClusterConfig) (retryPolicy : option RetryPolicySpec)
    (cc : ClusterConfigs) (ep : Endpoint) : outcome ClusterConfigs :=
  let cc := addWeightedZoneEndpoint cc (IP_String (ep_IP ep)) (zonePort (mcc_Service config) ep)
              (uint32 (ep_Weight ep)) (ep_ClusterKey ep) (ep_LBType ep) (ep_Path ep) in
  let cc :=
    match uts ← mcc_UpstreamTrafficSetting config; utss_ConnectionSettings (uts_Spec uts) with
    | Some settings => setConnectionSettings cc (Some settings)
    | None => cc
    end in
  match retryPolicy with
  | Some _ => setRetryPolicy cc retryPolicy
  | None => Ret cc
  end.

Definition balanceCluster (proxyIdentity : ServiceIdentity) (pol : OutboundMeshTrafficPolicy)
    (acc : OutboundTrafficPolicy * bool) (cluster : string * WeightedCluster) :
    outcome (OutboundTrafficPolicy * bool) :=
  let '(otp, ready) := acc in
  let clusterName := wc_ClusterName (pwc_WeightedCluster cluster.2) in
  match getMeshClusterConfigs (omtp_ClustersConfigs pol) clusterName with
  | None => Ret (otp, false)
  | Some config =>
    let cc := newClusterConfigs otp clusterName in
    endpoints ← getUpstreamEndpoints proxyIdentity clusterName;
    if decide (endpoints = []) then Ret (putClusterConfigs otp clusterName cc, false)
    else
      cc ← foldO (balanceEndpoint config (pwc_RetryPolicy cluster.2)) cc endpoints;
      Ret (putClusterConfigs otp clusterName cc, ready)
  end.

Definition generatePipyOutboundTrafficBalancePolicy (proxyIdentity : ServiceIdentity)
    (outbound : option OutboundTrafficPolicy) (pol : OutboundMeshTrafficPolicy)
    (dependClusters : gmap string WeightedCluster) : outcome (option OutboundTrafficPolicy * bool) :=
  '(otp, ready) ← foldO (balanceCluster proxyIdentity pol)
                    (default zero_OutboundTrafficPolicy outbound, true) (range_map dependClusters);
  Ret (Some otp, ready).

(** ** Egress traffic *)

(** The secrets of the API server: the data of a secret, by namespace and name. *)
Context (secrets : string → string → option (gmap string string)).

Definition getEgressClusterConfigs (clustersConfigs : list EgressClusterConfig) (clusterName : string) :
    option EgressClusterConfig :=
  first_some (λ c, if decide (clusterName = ecc_Name c) then Some c else None) clustersConfigs.

Definition getEgressHTTPRouteConfigs (httpRouteConfigsPerPort : gmap Z (list EgressHTTPRouteConfig))
    (targetPort : Z) : list EgressHTTPRouteConfig :=
  default [] (httpRouteConfigsPerPort !! targetPort).

(** The certificate of the source, from the mesh or from a secret. *)
Definition sourceCert (mtls : EgressSourceMTLSSpec) : Certificate :=
  let osmIssued := equal_fold "osm" (esm_Issuer mtls) in
  match esm_Cert mtls with
  | Some cert =>
    match (if osmIssued then None else secrets (sr_Namespace (esc_Secret cert)) (sr_Name (esc_Secret cert))) with
    | Some data => {|
        crt_OsmIssued := Some osmIssued; crt_CommonName := None;
        crt_SubjectAltNames := esc_SubjectAltNames cert; crt_Expiration := esc_Expiration cert;
        crt_CertChain := default "" (data !! "tls.crt"); crt_PrivateKey := default "" (data !! "tls.key");
        crt_IssuingCA := default "" (data !! "ca.crt") |}
    | None => mkCertificate (Some osmIssued) None [] "" "" "" ""
    end
  | None => mkCertificate (Some osmIssued) None [] "" "" "" ""
  end.

Definition getEgressClusterDestinationSpec (pol : EgressTrafficPolicy) (m : TrafficMatch) :
    option DestinationSecuritySpec :=
  config ← getEgressClusterConfigs (etp_ClustersConfigs pol) (tm_Cluster m);
  mtls ← ecc_SourceMTLS config;
  Some (mkDestinationSecuritySpec (Some (sourceCert mtls))).

(** The routes of one HTTP configuration, and the destinations its rules allow. *)
Definition egressHTTPConfig (spec : option DestinationSecuritySpec) (gateway : option string)
    (acc : OutboundTrafficMatch * gmap string WeightedCluster) (config : EgressHTTPRouteConfig) :
    outcome (OutboundTrafficMatch * gmap string WeightedCluster) :=
  let '(tm, depend) := acc in
  let ruleName := ehc_Name config in
  let routes := ehr_Route <$> ehc_RoutingRules config in
  match o_newHTTPServiceRouteRules tm ruleName with
  | None => Panic
  | Some hsrrs =>
    let hsrrs := setEgressForwardGateway hsrrs gateway in
    let hsrrs := o_setRules hsrrs (foldl outboundRoute (ohrs_RouteRules hsrrs) routes) in
    let tm := foldl (λ tm hostname, o_addHTTPHostPort2Service tm hostname ruleName)
                (o_putRouteRules tm ruleName hsrrs) (ehc_Hostnames config) in
    Ret (foldl (addDestinationIPRange spec) tm (ehc_RoutingRules config ≫= ehr_AllowedDestinationIPRanges),
         foldl dependOn depend routes)
  end.

(** The cluster of an HTTPS match: the server names are its endpoints. *)
Definition egressServers (otp : OutboundTrafficPolicy) (m : TrafficMatch) : OutboundTrafficPolicy :=
  putClusterConfigs otp (tm_Cluster m)
    (foldl (λ cc serverName,
       addWeightedEndpoint cc serverName (uint16 (tm_DestinationPort m)) ClusterWeightAcceptAll)
       (newClusterConfigs otp (tm_Cluster m)) (tm_ServerNames m)).

Definition egressTurn (pol : EgressTrafficPolicy) (acc : OutboundTrafficPolicy * gmap string WeightedCluster)
    (m : TrafficMatch) : outcome (OutboundTrafficPolicy * gmap string WeightedCluster) :=
  let '(otp, depend) := acc in
  let port := uint16 (tm_DestinationPort m) in
  let '(tm, otp) := openTrafficMatch otp m (tm_Name m) in
  let spec := getEgressClusterDestinationSpec pol m in
  let tm := foldl (addDestinationIPRange spec) tm (tm_DestinationIPRanges m) in
  if isHTTPProtocol (tm_DestinationProtocol m) then
    '(tm, depend) ← foldO (egressHTTPConfig spec (tm_EgressGateWay m)) (tm, depend)
                      (getEgressHTTPRouteConfigs (etp_HTTPRouteConfigsPerPort pol) (tm_DestinationPort m));
    Ret (o_putTrafficMatch otp port (tm_Name m) tm, depend)
  else if isHTTPSProtocol (tm_DestinationProtocol m) then
    let tsrr := t_setEgressForwardGateway (o_newTCPServiceRouteRules tm) (tm_EgressGateWay m) in
    let tm := o_putTCPRouteRules tm (t_addWeightedCluster tsrr (tm_Cluster m) ClusterWeightAcceptAll) in
    Ret (egressServers (o_putTrafficMatch otp port (tm_Name m) tm) m, depend)
  else if isTCPProtocol (tm_DestinationProtocol m) then
    let tsrr := setAllowedEgressTraffic (o_newTCPServiceRouteRules tm) true in
    let tm := o_putTCPRouteRules tm (t_setEgressForwardGateway tsrr (tm_EgressGateWay m)) in
    Ret (o_putTrafficMatch otp port (tm_Name m) tm, depend)
  else Ret (o_putTrafficMatch otp port (tm_Name m) tm, depend).

Definition generatePipyEgressTrafficRoutePolicy (outbound : option OutboundTrafficPolicy)
    (pol : EgressTrafficPolicy) : outcome (option OutboundTrafficPolicy * gmap string WeightedCluster) :=
  match etp_TrafficMatches pol with
  | [] => Ret (outbound, ∅)
  | matches =>
    '(otp, depend) ← foldO (egressTurn pol) (default zero_OutboundTrafficPolicy outbound, ∅) matches;
    Ret (Some otp, depend)
  end.

(** The retry policy of the route, or that of the service the host names. *)
Definition egressRetryPolicy (serviceIdentity : ServiceIdentity) (cluster : WeightedCluster) (cc : ClusterConfigs) :
    outcome ClusterConfigs :=
  match pwc_RetryPolicy cluster with
  | Some rp => setRetryPolicy cc (Some rp)
  | None =>
    upstreamSvc ← hostToMeshSvc (wc_ClusterName (pwc_WeightedCluster cluster));
    match upstreamSvc with
    | None => Ret cc
    | Some upstreamSvc =>
      retryPolicy ← GetRetryPolicy mc serviceIdentity upstreamSvc;
      match retryPolicy with Some rp => setRetryPolicy cc (Some rp) | None => Ret cc end
    end
  end.

Definition with_SourceCert (cc : ClusterConfigs) (cert : Certificate) : ClusterConfigs :=
  mkClusterConfigs (cc_Endpoints cc) (cc_ConnectionSettings cc) (cc_RetryPolicy cc) (Some cert).

Definition egressBalanceCluster (serviceIdentity : ServiceIdentity) (pol : EgressTrafficPolicy)
    (acc : OutboundTrafficPolicy * bool) (cluster : string * WeightedCluster) :
    outcome (OutboundTrafficPolicy * bool) :=
  let '(otp, ready) := acc in
  let clusterName := wc_ClusterName (pwc_WeightedCluster cluster.2) in
  match getEgressClusterConfigs (etp_ClustersConfigs pol) clusterName with
  | None => Ret (otp, false)
  | Some config =>
    let cc := addWeightedEndpoint (newClusterConfigs otp clusterName) (ecc_Name config)
                (uint16 (ecc_Port config)) ClusterWeightAcceptAll in
    let cc := match ecc_UpstreamTrafficSetting config with
              | Some uts => setConnectionSettings cc (utss_ConnectionSettings (uts_Spec uts))
              | None => cc
              end in
    let cc := match ecc_SourceMTLS config with
              | Some mtls => with_SourceCert cc (sourceCert mtls)
              | None => cc
              end in
    cc ← egressRetryPolicy serviceIdentity cluster.2 cc;
    Ret (putClusterConfigs otp clusterName cc, ready)
  end.

Definition generatePipyEgressTrafficBalancePolicy (serviceIdentity : ServiceIdentity)
    (outbound : option OutboundTrafficPolicy) (pol : EgressTrafficPolicy)
    (dependClusters : gmap string WeightedCluster) : outcome (option OutboundTrafficPolicy * bool) :=
  '(otp, ready) ← foldO (egressBalanceCluster serviceIdentity pol)
                    (default zero_OutboundTrafficPolicy outbound, true) (range_map dependClusters);
  Ret (Some otp, ready).

(** ** Egress gateways *)

(** One gateway of a forward rule; [weight] is the weight of a gateway without one. *)
Definition forwardGateway (rule : string) (weight : Z) (ftp : ForwardTrafficPolicy)
    (gateway : EgressGatewayConfig) : ForwardTrafficPolicy :=
  let clusterName := egc_Service gateway +:+ "." +:+ egc_Namespace gateway in
  let ftp := setForwardWeight ftp rule clusterName (from_option uint32 weight (egc_Weight gateway)) in
  match egc_Endpoints gateway with
  | [] => ftp
  | endpoints =>
    let g := newEgressGateway ftp clusterName (egc_Mode gateway) in
    putEgressGateway ftp clusterName
      (mkEgressGatewayClusterConfigs
         (foldl (λ cc ep, addWeightedEndpoint cc (IP_String (ep_IP ep)) (ep_Port ep) 0)
            (egcc_ClusterConfigs g) endpoints) (egcc_Mode g))
  end.

Definition forwardRule (ftp : ForwardTrafficPolicy) (rule : nat * EgressGatewayRule) : ForwardTrafficPolicy :=
  let ruleName := egr_Namespace rule.2 +:+ "." +:+ egr_Name rule.2 +:+ "." +:+ itoa (Z.of_nat rule.1) in
  foldl (forwardGateway ruleName ClusterWeightAcceptAll) (newForwardMatch ftp ruleName)
    (egr_EgressGateways rule.2).

(** Not successful when a gateway of a rule has no endpoint. *)
Definition generatePipyEgressTrafficForwardPolicy (forward : option ForwardTrafficPolicy)
    (pol : EgressGatewayPolicy) : option ForwardTrafficPolicy * bool :=
  match egp_Global pol, egp_Rules pol with
  | [], [] => (forward, true)
  | global, rules =>
    let ftp := default zero_ForwardTrafficPolicy forward in
    let ftp := match global with
               | [] => ftp
               | _ => foldl (forwardGateway "*" 0) (newForwardMatch ftp "*") global
               end in
    (Some (foldl forwardRule ftp (imap pair rules)),
     forallb (λ rule, forallb (λ g, bool_decide (egc_Endpoints g ≠ [])) (egr_EgressGateways rule)) rules)
  end.

(** ** The steps of the job (jobs.go)

    Each returns the configuration and whether it was complete; when not, the job asks
    for the proxies to be retried. *)

Definition with_Outbound (pipyConf : PipyConf) (outbound : option OutboundTrafficPolicy)
    (dns : gmap string (list string)) : PipyConf := {|
  pc_Spec := pc_Spec pipyConf; pc_Inbound := pc_Inbound pipyConf; pc_Outbound := outbound;
  pc_Forward := pc_Forward pipyConf; pc_AllowedEndpoints := pc_AllowedEndpoints pipyConf;
  pc_Chains := pc_Chains pipyConf; pc_DNSResolveDB := dns;
  pc_pluginPolicies := pc_pluginPolicies pipyConf |}.

Definition with_Forward (pipyConf : PipyConf) (forward : option ForwardTrafficPolicy) : PipyConf := {|
  pc_Spec := pc_Spec pipyConf; pc_Inbound := pc_Inbound pipyConf; pc_Outbound := pc_Outbound pipyConf;
  pc_Forward := forward; pc_AllowedEndpoints := pc_AllowedEndpoints pipyConf;
  pc_Chains := pc_Chains pipyConf; pc_DNSResolveDB := pc_DNSResolveDB pipyConf;
  pc_pluginPolicies := pc_pluginPolicies pipyConf |}.

Context (domain : string).
Context (hashMatch : TrafficMatch → result string Z) (hashCluster : EgressClusterConfig → result string Z).

Definition jobOutbound (serviceIdentity : ServiceIdentity) (pipyConf : PipyConf) : outcome (PipyConf * bool) :=
  policy ← GetOutboundMeshTrafficPolicy mc domain hashMatch hashCluster serviceIdentity;
  let dns := if decide (omtp_ServicesResolvableSet policy = ∅) then pc_DNSResolveDB pipyConf
             else omtp_ServicesResolvableSet policy in
  '(otp, depend) ← generatePipyOutboundTrafficRoutePolicy serviceIdentity (pc_pluginPolicies pipyConf)
                          (pc_Outbound pipyConf) policy;
  '(otp, ready) ←
    (if decide (depend = ∅) then Ret (otp, true)
     else generatePipyOutboundTrafficBalancePolicy serviceIdentity otp policy depend);
  Ret (with_Outbound pipyConf otp dns, ready).

Definition jobEgress (serviceIdentity : ServiceIdentity) (pipyConf : PipyConf) : outcome (PipyConf * bool) :=
  r ← GetEgressTrafficPolicy mc hashMatch hashCluster serviceIdentity;
  match r with
  | Err _ => Ret (pipyConf, false)
  | Ok None => Ret (pipyConf, true)
  | Ok (Some policy) =>
    '(otp, depend) ← generatePipyEgressTrafficRoutePolicy (pc_Outbound pipyConf) policy;
    '(otp, ready) ←
      (if decide (depend = ∅) then Ret (otp, true)
       else generatePipyEgressTrafficBalancePolicy serviceIdentity otp policy depend);
    Ret (with_Outbound pipyConf otp (pc_DNSResolveDB pipyConf), ready)
  end.

Definition jobForward (pipyConf : PipyConf) : PipyConf * bool :=
  match GetEgressGatewayPolicy mc with
  | None => (pipyConf, true)
  | Some policy =>
    let '(forward, ready) := generatePipyEgressTrafficForwardPolicy (pc_Forward pipyConf) policy in
    (with_Forward pipyConf forward, ready)
  end.
End outbound.

(** ** Theorems: names *)

(** The name of a mesh cluster leads back to its service: the endpoints of a cluster
    are looked up for the namespace, name and target port it was named after. *)
Theorem clusterToMeshSvc_roundtrip (svc : MeshService) :
  service_ok svc → ms_Namespace svc ≠ "" → ms_Name svc ≠ "" → free_of "|" (ms_Namespace svc) →
  clusterToMeshSvc (SidecarClusterName svc) =
  Some (mkMeshService (ms_Namespace svc) (ms_Name svc) 0 (ms_TargetPort svc) "" "").
Proof.
  intros [(_ & Hns & _) (_ & Hn & Hn') _ Hport] Hne Hne' Hns'. unfold clusterToMeshSvc.
  rewrite SidecarClusterName_fields by done. rewrite ParseUint_itoa; [done|]. exact Hport.
Qed.

Lemma clusterToMeshSvc_roundtrip_witness :
  clusterToMeshSvc "demo/bookstore|8080" = Some (mkMeshService "demo" "bookstore" 0 8080 "" "").
Proof.
  apply (clusterToMeshSvc_roundtrip (mkMeshService "demo" "bookstore" 80 8080 "http" "")); [|done..].
  split; [by split_and!..|]. unfold is_uint16. simpl. lia.
Defined.

(** An egress host is taken for a service of the mesh whatever its domain: the
    retry policy of the service that the first two labels name applies to it, and a
    cluster name that is only a port number panics. *)
Theorem hostToMeshSvc_any_host (name namespace domain : string) (port : Z) :
  label_ok name → label_ok namespace → label_ok domain →
  name ≠ "" → namespace ≠ "" → domain ≠ "" → is_uint16 port →
  hostToMeshSvc (name +:+ "." +:+ namespace +:+ "." +:+ domain +:+ ":" +:+ itoa port) =
    Ret (Some (mkMeshService namespace name 0 port "" "")) ∧
  hostToMeshSvc (itoa port) = Panic.
Proof.
  intros [Hn Hn'] [Hs Hs'] [Hd Hd'] ??? Hport. unfold hostToMeshSvc. set (p := λ r : ascii, _).
  assert (∀ s, free_of "." s → free_of ":" s → all_chars (λ a, negb (p a)) s = true) as Hfree.
  { subst p. induction s as [|a s IH]; [done|]. rewrite !free_of_cons. intros [??] [??]. cbn [all_chars].
    rewrite !bool_decide_false, IH by done. done. }
  assert (all_chars (λ a, negb (p a)) (itoa port) = true) as Hi by (apply Hfree; by apply itoa_free).
  split.
  - change (name +:+ "." +:+ namespace +:+ "." +:+ domain +:+ ":" +:+ itoa port)
      with (name +:+ String "." (namespace +:+ String "." (domain +:+ String ":" (itoa port)))).
    rewrite !FieldsFunc_sep, FieldsFunc_end by (try apply itoa_ne; auto). simpl.
    by rewrite ParseUint_itoa.
  - rewrite FieldsFunc_end by (try apply itoa_ne; done). simpl. by rewrite ParseUint_itoa.
Qed.

Lemma hostToMeshSvc_any_host_witness :
  hostToMeshSvc "www.httpbin.org:80" = Ret (Some (mkMeshService "httpbin" "www" 0 80 "" "")).
Proof.
  apply (hostToMeshSvc_any_host "www" "httpbin" "org" 80); done.
Defined.

(** ** Lemmas: what the routes depend on *)

Section targets.
Context `{RangeOrder}.

Definition usesCluster (routes : list RouteWeightedClusters) (c : string) : Prop :=
  ∃ route wc, route ∈ routes ∧ wc ∈ rwc_WeightedClusters route ∧ wc_ClusterName wc = c.

Definition targetsIn (rules : list HTTPRouteRule) (c : string) : Prop :=
  ∃ r, r ∈ rules ∧ is_Some (hrr_TargetClusters r !! c).

Lemma addClusters_targets l hrr c :
  is_Some (hrr_TargetClusters (foldl (λ hrr wc, addWeightedCluster hrr (wc_ClusterName wc)
    (uint32 (wc_Weight wc))) hrr l) !! c) →
  is_Some (hrr_TargetClusters hrr !! c) ∨ ∃ wc, wc ∈ l ∧ wc_ClusterName wc = c.
Proof.
  revert hrr. induction l as [|wc l IH]; intros hrr; simpl; [auto|]. intros [Hs|(wc' & ? & ?)]%IH.
  - simpl in Hs. rewrite lookup_insert_is_Some in Hs. destruct Hs as [<-|[_ ?]]; [|auto].
    right. exists wc. set_solver.
  - right. exists wc'. set_solver.
Qed.

Lemma outboundRoute_targets rules route c :
  targetsIn (outboundRoute rules route) c → targetsIn rules c ∨ usesCluster [route] c.
Proof.
  intros (r & Hr & Hc). assert (∀ r0, is_Some (hrr_TargetClusters (foldl (λ hrr wc, addWeightedCluster hrr
    (wc_ClusterName wc) (uint32 (wc_Weight wc))) r0 (range_set (rwc_WeightedClusters route))) !! c) →
    is_Some (hrr_TargetClusters r0 !! c) ∨ usesCluster [route] c) as Hadd.
  { intros r0 [?|(wc & Hwc%elem_of_range_set & ?)]%addClusters_targets; [auto|]. right.
    exists route, wc. set_solver. }
  apply elem_of_newHTTPServiceRouteRule in Hr as [?|[(r0 & ? & _ & ->)| ->]]; [left; by exists r|..].
  - apply Hadd in Hc as [?|?]; [left; by exists r0|auto].
  - apply Hadd in Hc as [Hs|?]; [simpl in Hs; rewrite lookup_empty in Hs; by destruct Hs|auto].
Qed.

Lemma outboundRoutes_targets rules routes c :
  targetsIn (foldl outboundRoute rules routes) c → targetsIn rules c ∨ usesCluster routes c.
Proof.
  revert rules. induction routes as [|route routes IH]; intros rules; simpl; [auto|].
  intros [Hc|(r & wc & ? & ? & ?)]%IH.
  - apply outboundRoute_targets in Hc as [?|(r & wc & Hr & ? & ?)]; [auto|]. right.
    apply list_elem_of_singleton in Hr as ->. exists route, wc. set_solver.
  - right. exists r, wc. set_solver.
Qed.

(** The clusters collected so far, each under its own name. *)
Definition keyed (depend : gmap string WeightedCluster) : Prop :=
  ∀ k w, depend !! k = Some w → wc_ClusterName (pwc_WeightedCluster w) = k.

Lemma addDepends_spec retry l depend :
  let depend' := foldl (addDepend retry) depend l in
  (keyed depend → keyed depend') ∧ ∀ c, is_Some (depend' !! c) ↔
    is_Some (depend !! c) ∨ ∃ wc, wc ∈ l ∧ wc_ClusterName wc = c.
Proof.
  revert depend. induction l as [|wc l IH]; intros depend; simpl; [split; [done|set_solver]|].
  assert ((keyed depend → keyed (addDepend retry depend wc)) ∧ ∀ c,
    is_Some (addDepend retry depend wc !! c) ↔ is_Some (depend !! c) ∨ wc_ClusterName wc = c) as [Hk Hs].
  { unfold addDepend. destruct (depend !! wc_ClusterName wc) eqn:E.
    - split; [done|]. intros c. split; [auto|]. intros [?|<-]; [done|by rewrite E].
    - split; [|intros c; rewrite lookup_insert_is_Some; destruct (decide (wc_ClusterName wc = c)); tauto].
      intros Hd k w [[<- <-]|[_ ?]]%lookup_insert_Some; [done|auto]. }
  destruct (IH (addDepend retry depend wc)) as [Hk' Hs']. split; [auto|]. intros c. rewrite Hs', Hs.
  setoid_rewrite elem_of_cons. naive_solver.
Qed.

Lemma dependOns_spec routes depend :
  let depend' := foldl dependOn depend routes in
  (keyed depend → keyed depend') ∧
  ∀ c, is_Some (depend' !! c) ↔ is_Some (depend !! c) ∨ usesCluster routes c.
Proof.
  revert depend. induction routes as [|route routes IH]; intros depend; simpl.
  { split; [done|]. intros c. split; [auto|]. intros [?|(r & ? & ? & _)]; [done|set_solver]. }
  destruct (addDepends_spec (rwc_RetryPolicy route) (range_set (rwc_WeightedClusters route)) depend) as [Hk Hs].
  destruct (IH (dependOn depend route)) as [Hk' Hs']. split; [auto|]. intros c. rewrite Hs'.
  unfold dependOn. rewrite Hs. unfold usesCluster. setoid_rewrite elem_of_range_set.
  setoid_rewrite elem_of_cons. naive_solver.
Qed.

(** The clusters that a traffic match sends to. *)
Definition sendsTo (tm : OutboundTrafficMatch) (c : string) : Prop :=
  (∃ name h, otm_HTTPServiceRouteRules tm !! name = Some h ∧ targetsIn (ohrs_RouteRules h) c) ∨
  (∃ t, otm_TCPServiceRouteRules tm = Some t ∧ is_Some (otsr_TargetClusters t !! c)).

Definition covered (depend : gmap string WeightedCluster) (tm : OutboundTrafficMatch) : Prop :=
  ∀ c, sendsTo tm c → is_Some (depend !! c).

Lemma sendsTo_same tm tm' c :
  otm_HTTPServiceRouteRules tm' = otm_HTTPServiceRouteRules tm →
  otm_TCPServiceRouteRules tm' = otm_TCPServiceRouteRules tm → sendsTo tm' c ↔ sendsTo tm c.
Proof. unfold sendsTo. by intros -> ->. Qed.

Lemma addRanges_same spec tm ranges :
  let tm' := foldl (addDestinationIPRange spec) tm ranges in
  otm_HTTPServiceRouteRules tm' = otm_HTTPServiceRouteRules tm ∧
  otm_TCPServiceRouteRules tm' = otm_TCPServiceRouteRules tm.
Proof.
  revert tm. induction ranges as [|x l IH]; intros tm; simpl; [done|].
  by destruct (IH (addDestinationIPRange spec tm x)) as [-> ->].
Qed.

Lemma addHostnames_same name tm hosts :
  let tm' := foldl (λ tm hostname, o_addHTTPHostPort2Service tm hostname name) tm hosts in
  otm_HTTPServiceRouteRules tm' = otm_HTTPServiceRouteRules tm ∧
  otm_TCPServiceRouteRules tm' = otm_TCPServiceRouteRules tm.
Proof.
  revert tm. induction hosts as [|x l IH]; intros tm; simpl; [done|].
  by destruct (IH (o_addHTTPHostPort2Service tm x name)) as [-> ->].
Qed.

Lemma o_putRouteRules_sendsTo tm name h c :
  sendsTo (o_putRouteRules tm name h) c → targetsIn (ohrs_RouteRules h) c ∨ sendsTo tm c.
Proof.
  intros [(n & h' & Hn & Ht)|Ht]; [|right; by right]. simpl in Hn.
  apply lookup_insert_Some in Hn as [[<- <-]|[_ ?]]; [auto|]. right. left. by exists n, h'.
Qed.

Lemma addTCPClusters_targets l tsrr c :
  is_Some (otsr_TargetClusters (addTCPClusters l tsrr) !! c) →
  is_Some (otsr_TargetClusters tsrr !! c) ∨ ∃ wc, wc ∈ l ∧ wc_ClusterName wc = c.
Proof.
  unfold addTCPClusters. revert tsrr. induction l as [|wc l IH]; intros tsrr; simpl; [auto|].
  intros [Hs|(wc' & ? & ?)]%IH.
  - simpl in Hs. rewrite lookup_insert_is_Some in Hs. destruct Hs as [<-|[_ ?]]; [|auto].
    right. exists wc. set_solver.
  - right. exists wc'. set_solver.
Qed.

Lemma o_newTCP_targets tm c :
  is_Some (otsr_TargetClusters (o_newTCPServiceRouteRules tm) !! c) → sendsTo tm c.
Proof.
  unfold o_newTCPServiceRouteRules. destruct (otm_TCPServiceRouteRules tm) as [t|] eqn:E; simpl.
  - intros ?. right. by exists t.
  - rewrite lookup_empty. by intros [].
Qed.

(** *** The branches *)

Definition good (acc : OutboundTrafficMatch * gmap string WeightedCluster) : Prop :=
  keyed acc.2 ∧ covered acc.2 acc.1.
Definition grows (depend depend' : gmap string WeightedCluster) : Prop :=
  ∀ c, is_Some (depend !! c) → is_Some (depend' !! c).

Lemma outboundHTTPConfig_good id plugins acc config acc' :
  good acc → outboundHTTPConfig id plugins acc config = Ret acc' → good acc' ∧ grows acc.2 acc'.2.
Proof.
  destruct acc as [tm depend]. intros [Hk Hc]. unfold outboundHTTPConfig, o_newHTTPServiceRouteRules.
  case_bool_decide; [done|]. intros [= <-]. simpl in *.
  destruct (dependOns_spec (otp_Routes config) depend) as [Hk' Hs'].
  split; [split; [by apply Hk'|]|intros c ?; apply Hs'; auto]. intros c Hsend. simpl in Hsend. apply Hs'.
  destruct (addHostnames_same (otp_Name config) (o_putRouteRules tm (otp_Name config)
    (o_setRules (o_setPlugins (setServiceIdentity (default zero_OutboundHTTPRouteRules
       (otm_HTTPServiceRouteRules tm !! otp_Name config)) id) plugins)
       (foldl outboundRoute (ohrs_RouteRules (default zero_OutboundHTTPRouteRules
         (otm_HTTPServiceRouteRules tm !! otp_Name config))) (otp_Routes config))))
    (otp_Hostnames config)) as [E1 E2].
  rewrite (sendsTo_same _ _ c E1 E2) in Hsend. apply o_putRouteRules_sendsTo in Hsend as [Ht|?]; [|auto].
  simpl in Ht. apply outboundRoutes_targets in Ht as [Ht|?]; [left|auto]. apply Hc. left.
  destruct (otm_HTTPServiceRouteRules tm !! otp_Name config) as [h|] eqn:E; [by exists (otp_Name config), h|].
  destruct Ht as (r & Hr & _). set_solver.
Qed.

Lemma outboundHTTP_good id pp pol m acc acc' :
  good acc → outboundHTTP id pp pol m acc = Ret acc' → good acc' ∧ grows acc.2 acc'.2.
Proof.
  intros Hg. unfold outboundHTTP. destruct (trafficMatchToMeshSvc m) as [svc|]; [|done].
  destruct (getOutboundHTTPRouteConfigs _ _ _ _) as [|c cs]; [intros [= <-]; by split; [|intros c ?]|].
  intros (plugins & _ & Hf)%bind_Ret. revert Hf.
  apply (foldO_inv _ (λ acc', good acc' ∧ grows acc.2 acc'.2)); [|by split; [|intros c' ?]].
  intros acc1 cfg acc2 _ [Hg1 Hgr1] Hcfg.
  destruct (outboundHTTPConfig_good _ _ _ _ _ Hg1 Hcfg) as [? Hgr]. split; [done|]. intros c' ?. auto.
Qed.

Lemma putTCP_good tm depend depend' l tsrr :
  good (tm, depend) → keyed depend' → grows depend depend' →
  (∀ wc, wc ∈ l → is_Some (depend' !! wc_ClusterName wc)) →
  (∀ c, is_Some (otsr_TargetClusters tsrr !! c) → sendsTo tm c) →
  good (o_putTCPRouteRules tm (addTCPClusters l tsrr), depend').
Proof.
  intros [_ Hc] Hk Hgr Hl Ht. split; [done|]. simpl. intros c [(n & h & Hn & Hin)|(t & [= <-] & Hs)].
  - apply Hgr, Hc. left. by exists n, h.
  - apply addTCPClusters_targets in Hs as [Hs|(wc & Hwc & <-)]; [by apply Hgr, Hc, Ht|auto].
Qed.

Lemma outboundTCP_good pp m acc acc' :
  good acc → outboundTCP pp m acc = Ret acc' → good acc' ∧ grows acc.2 acc'.2.
Proof.
  destruct acc as [tm depend]. intros Hg (plugins & _ & [= <-])%bind_Ret.
  destruct (addDepends_spec None (tm_WeightedClusters m) depend) as [Hk' Hs']. destruct Hg as [Hk Hc].
  assert (grows depend (foldl (addDepend None) depend (tm_WeightedClusters m))) as Hgr by (intros c ?; apply Hs'; auto).
  split; [|done]. apply (putTCP_good tm depend); [done|by apply Hk'|done| |].
  - intros wc Hwc. apply Hs'. right. by exists wc.
  - intros c Hs. by apply o_newTCP_targets.
Qed.

Lemma outboundHTTPS_good pp pol m acc acc' :
  good acc → outboundHTTPS pp pol m acc = Ret acc' → good acc' ∧ grows acc.2 acc'.2.
Proof.
  destruct acc as [tm depend]. intros Hg. unfold outboundHTTPS.
  destruct (trafficMatchToMeshSvc m) as [svc|]; [|done].
  destruct (getOutboundHTTPRouteConfigs _ _ _ _) as [|cfg cs] eqn:Ecs;
    [intros [= <-]; by split; [|intros c ?]|].
  rewrite <-Ecs. set (configs := getOutboundHTTPRouteConfigs _ _ _ _).
  intros (plugins & _ & [= <-])%bind_Ret.
  destruct (dependOns_spec (configs ≫= otp_Routes) depend) as [Hk' Hs']. destruct Hg as [Hk Hc].
  assert (grows depend (foldl dependOn depend (configs ≫= otp_Routes))) as Hgr by (intros c ?; apply Hs'; auto).
  split; [|done]. apply (putTCP_good tm depend); [done|by apply Hk'|done| |].
  - intros wc (route & Hwc%elem_of_range_set & Hr)%list_elem_of_bind. apply Hs'. right. by exists route, wc.
  - intros c Hs. by apply o_newTCP_targets.
Qed.

(** *** The loop *)

Definition route_ok (acc : OutboundTrafficPolicy * gmap string WeightedCluster) : Prop :=
  keyed acc.2 ∧ ∀ key tm, potp_namedTrafficMatches acc.1 !! key = Some tm → covered acc.2 tm.

Lemma sendsTo_zero c : ¬ sendsTo zero_OutboundTrafficMatch c.
Proof. intros [(n & h & Hn & _)|(t & Ht & _)]; [|done]. simpl in Hn. by rewrite lookup_empty in Hn. Qed.

Lemma openTrafficMatch_ok otp depend m name tm otp' :
  route_ok (otp, depend) → openTrafficMatch otp m name = (tm, otp') →
  good (tm, depend) ∧ route_ok (otp', depend) ∧ potp_ClustersConfigs otp' = potp_ClustersConfigs otp.
Proof.
  intros [Hk Hc]. unfold openTrafficMatch, o_newTrafficMatch. simpl in *.
  destruct (potp_namedTrafficMatches otp !! namedPort (uint16 (tm_DestinationPort m)) name) as [tm0|] eqn:E;
    intros [= <- <-].
  - split_and!; [|done|done]. split; [done|]. simpl. by eapply Hc.
  - split_and!; [|split; [done|]|done].
    + split; [done|]. intros c Hs. exfalso. by eapply sendsTo_zero, sendsTo_same.
    + intros key tm Hl. simpl in Hl. apply lookup_insert_Some in Hl as [[_ <-]|[_ ?]]; [|by eapply Hc].
      intros c Hs. by destruct (sendsTo_zero c).
Qed.

Lemma outboundTurn_ok id pp pol acc m acc' :
  route_ok acc → outboundTurn id pp pol acc m = Ret acc' →
  route_ok acc' ∧ potp_ClustersConfigs acc'.1 = potp_ClustersConfigs acc.1.
Proof.
  destruct acc as [otp depend]. intros Hok. unfold outboundTurn. set (name := if isHTTPProtocol _ then _ else _).
  destruct (openTrafficMatch otp m name) as [tm0 otp0] eqn:Eo.
  destruct (openTrafficMatch_ok _ _ _ _ _ _ Hok Eo) as (Hg0 & Hok0 & Hcc).
  set (tm1 := foldl _ tm0 _). assert (good (tm1, depend)) as Hg1.
  { destruct Hg0 as [Hk Hc]. split; [done|]. destruct (addRanges_same None tm0 (tm_DestinationIPRanges m)) as [E1 E2].
    intros c Hs. by apply Hc, (sendsTo_same _ _ c E1 E2). }
  intros ([tm2 depend'] & Hb & [= <-])%bind_Ret.
  assert (good (tm2, depend') ∧ grows depend depend') as [[Hk2 Hc2] Hgr].
  { destruct (isHTTPProtocol _); [by apply (outboundHTTP_good _ _ _ _ _ _ Hg1 Hb)|].
    destruct (isTCPProtocol _); [by apply (outboundTCP_good _ _ _ _ Hg1 Hb)|].
    destruct (isHTTPSProtocol _); [by apply (outboundHTTPS_good _ _ _ _ _ Hg1 Hb)|]. injection Hb as <- <-. by split; [|intros c ?]. }
  split; [|done]. split; [done|]. intros key tm Hl. simpl in Hl.
  apply lookup_insert_Some in Hl as [[_ <-]|[_ Hl]]; [done|].
  destruct Hok0 as [_ Hall]. intros c Hs. by eapply Hgr, Hall.
Qed.

Lemma generatePipyOutbound_ok id pp pol otp depend :
  generatePipyOutboundTrafficRoutePolicy id pp None pol = Ret (Some otp, depend) →
  route_ok (otp, depend) ∧ potp_ClustersConfigs otp = ∅.
Proof.
  unfold generatePipyOutboundTrafficRoutePolicy. destruct (omtp_TrafficMatches pol) as [|m ms]; [done|].
  intros ([otp' depend'] & Hf & [= <- <-])%bind_Ret. revert Hf.
  apply (foldO_inv _ (λ acc, route_ok acc ∧ potp_ClustersConfigs acc.1 = ∅)).
  - intros acc m' acc' _ [Hok Hcc] Hturn. destruct (outboundTurn_ok _ _ _ _ _ _ Hok Hturn) as [? ->]. done.
  - split; [|done]. split; intros ???; simpl in *; by rewrite lookup_empty in *.
Qed.
End targets.

(** ** Lemmas: endpoints *)

Section balance.
Context `{RangeOrder} (mc : MeshCatalog) (id : ServiceIdentity) (pol : OutboundMeshTrafficPolicy).

Definition zoneAddress (config : MeshClusterConfig) (ep : Endpoint) : string :=
  httpHostPort (IP_String (ep_IP ep)) (zonePort (mcc_Service config) ep).
Definition zoneEndpoint (ep : Endpoint) : WeightedZoneEndpoint :=
  mkWeightedZoneEndpoint (uint32 (ep_Weight ep)) (ep_ClusterKey ep) (ep_LBType ep) (ep_Path ep).

Lemma setRetryPolicy_endpoints cc rp cc' :
  setRetryPolicy cc rp = Ret cc' → cc_Endpoints cc' = cc_Endpoints cc.
Proof.
  unfold setRetryPolicy. destruct rp as [rp|]; [|by intros [= <-]].
  destruct (rps_PerTryTimeout rp), (rps_RetryBackoffBaseInterval rp); try done. by intros [= <-].
Qed.

Lemma balanceEndpoint_endpoints config rp cc ep cc' :
  balanceEndpoint config rp cc ep = Ret cc' →
  cc_Endpoints cc' = <[zoneAddress config ep := zoneEndpoint ep]> (cc_Endpoints cc).
Proof.
  unfold balanceEndpoint.
  destruct (mcc_UpstreamTrafficSetting config ≫= λ uts, utss_ConnectionSettings (uts_Spec uts)); simpl;
    (destruct rp as [rp|]; [intros E%setRetryPolicy_endpoints; exact E|by intros [= <-]]).
Qed.

Lemma balanceEndpoints_spec config rp eps cc cc' :
  foldO (balanceEndpoint config rp) cc eps = Ret cc' →
  (∀ addr we, cc_Endpoints cc' !! addr = Some we → cc_Endpoints cc !! addr = Some we ∨
     ∃ ep, ep ∈ eps ∧ addr = zoneAddress config ep ∧ we = zoneEndpoint ep) ∧
  (eps ≠ [] ∨ cc_Endpoints cc ≠ ∅ → cc_Endpoints cc' ≠ ∅).
Proof.
  revert cc. induction eps as [|ep eps IH]; intros cc; simpl; [intros [= <-]; naive_solver|].
  intros (cc1 & Hcc1%balanceEndpoint_endpoints & Hrest)%bind_Ret.
  destruct (IH cc1 Hrest) as [Hin Hne]. split.
  - intros addr we [Hl|(ep' & ? & ? & ?)]%Hin; [|right; exists ep'; set_solver].
    rewrite Hcc1 in Hl. apply lookup_insert_Some in Hl as [[<- <-]|[_ ?]]; [|auto].
    right. exists ep. set_solver.
  - intros _. apply Hne. right. rewrite Hcc1. apply insert_non_empty.
Qed.

Definition servedBy (otp : OutboundTrafficPolicy) (c : string) : Prop :=
  ∃ cc, potp_ClustersConfigs otp !! c = Some cc ∧ cc_Endpoints cc ≠ ∅.

(** Every endpoint is one that the catalog allows for the service of the cluster. *)
Definition endpoints_allowed (otp : OutboundTrafficPolicy) : Prop :=
  ∀ c cc addr we, potp_ClustersConfigs otp !! c = Some cc → cc_Endpoints cc !! addr = Some we →
    ∃ svc eps ep config, clusterToMeshSvc c = Some svc ∧
      ListAllowedUpstreamEndpointsForService mc id svc = Ret eps ∧ ep ∈ eps ∧
      config ∈ omtp_ClustersConfigs pol ∧ mcc_Name config = c ∧
      addr = zoneAddress config ep ∧ we = zoneEndpoint ep.

Lemma getMeshClusterConfigs_Some configs name config :
  getMeshClusterConfigs configs name = Some config → config ∈ configs ∧ mcc_Name config = name.
Proof.
  unfold getMeshClusterConfigs. intros (c & Hc & E)%first_some_elem. case_decide; [|done].
  by injection E as <-.
Qed.

Lemma putClusterConfigs_served otp name cc c :
  servedBy otp c → cc_Endpoints cc ≠ ∅ ∨ (cc_Endpoints cc = cc_Endpoints (newClusterConfigs otp name)) →
  servedBy (putClusterConfigs otp name cc) c.
Proof.
  intros (cc0 & Hc & Hne) Hcc. unfold servedBy. simpl. destruct (decide (name = c)) as [->|?].
  - exists cc. rewrite lookup_insert_eq. split; [done|]. destruct Hcc as [?|E]; [done|].
    rewrite E. unfold newClusterConfigs. by rewrite Hc.
  - exists cc0. by rewrite lookup_insert_ne.
Qed.

Lemma putClusterConfigs_allowed otp name cc :
  endpoints_allowed otp →
  (∀ addr we, cc_Endpoints cc !! addr = Some we →
     cc_Endpoints (newClusterConfigs otp name) !! addr = Some we ∨
     ∃ svc eps ep config, clusterToMeshSvc name = Some svc ∧
      ListAllowedUpstreamEndpointsForService mc id svc = Ret eps ∧ ep ∈ eps ∧
      config ∈ omtp_ClustersConfigs pol ∧ mcc_Name config = name ∧
      addr = zoneAddress config ep ∧ we = zoneEndpoint ep) →
  endpoints_allowed (putClusterConfigs otp name cc).
Proof.
  intros Hall Hcc c cc' addr we Hl Ha. simpl in Hl.
  apply lookup_insert_Some in Hl as [[<- <-]|[_ Hl]]; [|by eapply Hall].
  destruct (Hcc _ _ Ha) as [Hold|?]; [|done]. unfold newClusterConfigs in Hold.
  destruct (potp_ClustersConfigs otp !! name) as [cc0|] eqn:E; [by eapply Hall|].
  simpl in Hold. by rewrite lookup_empty in Hold.
Qed.

Lemma balanceCluster_spec acc kw acc' :
  balanceCluster mc id pol acc kw = Ret acc' →
  potp_namedTrafficMatches acc'.1 = potp_namedTrafficMatches acc.1 ∧
  (endpoints_allowed acc.1 → endpoints_allowed acc'.1) ∧
  (∀ c, servedBy acc.1 c → servedBy acc'.1 c) ∧
  (acc'.2 = true → acc.2 = true ∧ servedBy acc'.1 (wc_ClusterName (pwc_WeightedCluster kw.2))).
Proof.
  destruct acc as [otp ready]. unfold balanceCluster. set (name := wc_ClusterName _). simpl.
  destruct (getMeshClusterConfigs _ _) as [config|] eqn:Ec; [|by intros [= <-]].
  apply getMeshClusterConfigs_Some in Ec as [Hconfig Hname].
  intros (eps & Heps & Hrest)%bind_Ret. case_decide as Hnil.
  - injection Hrest as <-. simpl. split_and!; [done| | |done].
    + intros ?. by apply putClusterConfigs_allowed; auto.
    + intros c ?. by apply putClusterConfigs_served; auto.
  - apply bind_Ret in Hrest as (cc' & Hcc' & [= <-]). simpl.
    destruct (balanceEndpoints_spec _ _ _ _ _ Hcc') as [Hin Hne]. split_and!; [done| | |].
    + intros ?. apply putClusterConfigs_allowed; [done|]. intros addr we [?|(ep & ? & ? & ?)]%Hin; [by left|right].
      unfold getUpstreamEndpoints in Heps. destruct (clusterToMeshSvc name) as [svc|]; [|by injection Heps as <-].
      by exists svc, eps, ep, config.
    + intros c ?. apply putClusterConfigs_served; auto.
    + intros ->. split; [done|]. exists cc'. simpl. rewrite lookup_insert_eq. auto.
Qed.

Lemma balanceClusters_spec l acc acc' :
  foldO (balanceCluster mc id pol) acc l = Ret acc' →
  potp_namedTrafficMatches acc'.1 = potp_namedTrafficMatches acc.1 ∧
  (endpoints_allowed acc.1 → endpoints_allowed acc'.1) ∧
  (∀ c, servedBy acc.1 c → servedBy acc'.1 c) ∧
  (acc'.2 = true → acc.2 = true ∧ ∀ kw, kw ∈ l →
     servedBy acc'.1 (wc_ClusterName (pwc_WeightedCluster kw.2))).
Proof.
  revert acc. induction l as [|kw l IH]; intros acc; simpl; [intros [= <-]; set_solver|].
  intros (acc1 & Hacc1 & Hrest)%bind_Ret.
  destruct (balanceCluster_spec _ _ _ Hacc1) as (En & Ha & Hs & Hr).
  destruct (IH _ Hrest) as (En' & Ha' & Hs' & Hr'). split_and!; [congruence|auto|auto|].
  intros Ht. destruct (Hr' Ht) as [Ht1 Hall]. destruct (Hr Ht1) as [? Hsv]. split; [done|].
  intros kw' [->|?]%elem_of_cons; auto.
Qed.

End balance.

Section outbound_theorems.
Context `{RangeOrder} (mc : MeshCatalog) (domain : string).
Context (hashMatch : TrafficMatch → result string Z) (hashCluster : EgressClusterConfig → result string Z).

(** C4. Outbound traffic is routed where it is allowed to go, and nowhere else: every
    endpoint that the sidecar of an identity is configured with is one that the catalog
    lists as allowed upstream for that identity and the service the cluster is named
    after, with its weight and zone; and when the step reports that it is ready, every
    cluster that some rule sends to is configured with at least one endpoint. *)
Theorem jobOutbound_served (id : ServiceIdentity) (conf conf' : PipyConf) (ready : bool)
    (otp : OutboundTrafficPolicy) :
  pc_Outbound conf = None →
  jobOutbound mc domain hashMatch hashCluster id conf = Ret (conf', ready) →
  pc_Outbound conf' = Some otp →
  (∃ pol, GetOutboundMeshTrafficPolicy mc domain hashMatch hashCluster id = Ret pol ∧
     endpoints_allowed mc id pol otp) ∧
  (ready = true → ∀ key tm c, potp_namedTrafficMatches otp !! key = Some tm → sendsTo tm c → servedBy otp c).
Proof.
  intros Hnew (pol & Hpol & Hjob)%bind_Ret Hotp. apply bind_Ret in Hjob as ([o depend] & Hroute & Hjob).
  rewrite Hnew in Hroute. apply bind_Ret in Hjob as ([o' r] & Hbal & [= <- <-]). simpl in Hotp. subst o'.
  assert (∃ otp0, o = Some otp0 ∧ route_ok (otp0, depend) ∧ potp_ClustersConfigs otp0 = ∅) as (otp0 & -> & [Hk Hc] & Hcc).
  { destruct o as [otp0|].
    - exists otp0. split; [done|]. by eapply generatePipyOutbound_ok.
    - unfold generatePipyOutboundTrafficRoutePolicy in Hroute.
      destruct (omtp_TrafficMatches pol) as [|m ms]; [|by apply bind_Ret in Hroute as ([??] & _ & ?)].
      injection Hroute as <-. by rewrite decide_True in Hbal. }
  assert (endpoints_allowed mc id pol otp0) as Hall0.
  { intros c cc addr we Hl. by rewrite Hcc, lookup_empty in Hl. }
  case_decide as Hd.
  - injection Hbal as <- <-. split; [by exists pol|]. intros _ key tm c Htm Hs.
    destruct (Hc key tm Htm c Hs) as [w Hw]. subst depend. simpl in Hw. by rewrite lookup_empty in Hw.
  - apply bind_Ret in Hbal as ([otp1 ready1] & Hf & [= <- <-]).
    destruct (balanceClusters_spec _ _ _ _ _ _ Hf) as (En & Ha & _ & Hr). simpl in *.
    split; [exists pol; auto|]. intros Ht key tm c Htm Hs. destruct (Hr Ht) as [_ Hserved].
    rewrite En in Htm. destruct (Hc key tm Htm c Hs) as [w Hw]. rewrite <-(Hk c w Hw).
    apply (Hserved (c, w)). by apply elem_of_range_map.
Qed.
End outbound_theorems.
