(* ===== verification/PipySidecar.v ===== *)
(** * pkg/sidecar/providers/pipy/repo/codebase: the scripts that run in the sidecar

    inbound-main.js, inbound-tls-termination.js, inbound-http-routing.js, outbound-main.js
    and outbound-http-routing.js: what a pipy sidecar does with the configuration.  A script reads a missing field as [undefined], which is
    the empty value here.  The regular expressions, network masks and load balancers are
    pipy's own and are parameters: [RegExp p] is the test of a pattern, or an exception
    when the pattern does not compile, [contains] tells whether an address is in a
    range, and [balance] is the target that a balancer gives to the request. *)

From S2P Require Import Prelude GoStrings Net Identity Service PolicyApi TrafficPolicy K8s.
From S2P Require Import K8sClient KubeProvider Smi PolicyClient Catalog CatalogEgress CatalogInbound.
From S2P Require Import CatalogIngress MeshConfig Pipy PipyPlugin PipyInbound.

Record Request := mkRequest {
  req_method : string;
  req_path : string;
  req_headers : gmap string string;
}.

Definition allMethods : list string := ["GET"; "HEAD"; "POST"; "PUT"; "DELETE"; "PATCH"; "OPTIONS"].

(** A rule of the tree: its configuration, and the closure that matches a request. *)
Record JsRule (C : Type) := mkJsRule {
  jr_config : C;
  jr_match : string → gmap string string → outcome bool;
}.
Arguments mkJsRule {C}.
Arguments jr_config {C}.
Arguments jr_match {C}.

Abbreviation Methods C := (gmap string (list (JsRule C))).
Abbreviation Tree := (gmap string (gmap string (list (JsRule InboundHTTPRouteRule)))).

Section sidecar.
Context (RegExp : string → option (string → bool)).
Context (contains : string → string → bool).
Context (balance : gmap string Z → option string).

(** ** Inbound HTTP routing *)

(** [matchPath]: [new RegExp] throws on a pattern it cannot compile; for a type that is
    none of the three, [matchPath] is [false], and the call throws. *)
Definition matchPath (m : HTTPMatchRule) : outcome (string → outcome bool) :=
  if decide (hmr_Type m = PathMatchRegex) then
    match RegExp (hmr_Path m) with Some test => Ret (λ path, Ret (test path)) | None => Panic end
  else if decide (hmr_Type m = PathMatchExact) then Ret (λ path, Ret (bool_decide (path = hmr_Path m)))
  else if decide (hmr_Type m = PathMatchPrefix) then Ret (λ path, Ret (String.prefix (hmr_Path m) path))
  else Ret (λ _, Panic).

(** [headerRules]: every header has to match, a missing one is empty. *)
Definition headerRules (m : HTTPMatchRule) : outcome (list (string * (string → bool))) :=
  mapO (λ kv, match RegExp kv.2 with Some test => Ret (kv.1, test) | None => Panic end)
    (map_to_list (hmr_Headers m)).

Definition jsRule {C} (config : C) (m : HTTPMatchRule) : outcome (JsRule C) :=
  path ← matchPath m;
  hs ← headerRules m;
  Ret {| jr_config := config;
         jr_match := λ p headers,
           matches ← path p;
           Ret (matches && forallb (λ '(k, test), test (default "" (headers !! k))) hs) |}.

(** Without a list of services the rule is under the empty identity. *)
Definition allowedIdentities (config : InboundHTTPRouteRule) : list string :=
  match allowedServices config with [] => [""] | services => unique services end.

Definition allowedMethods (m : HTTPMatchRule) : list string :=
  match hmr_Methods m with [] => allMethods | methods => methods end.

(** [(methods[method] || (methods[method] = [])).push(rule)] *)
Definition push {C} (rule : JsRule C) (methods : Methods C) (method : string) : Methods C :=
  <[method := default [] (methods !! method) ++ [rule]]> methods.

Definition addToTree (tree : Tree) (config : InboundHTTPRouteRule) : outcome Tree :=
  let m := hrr_Match (ihrr_Rule config) in
  rule ← jsRule config m;
  Ret (foldl (λ tree identity,
         <[identity := foldl (push rule) (default ∅ (tree !! identity)) (allowedMethods m)]> tree)
       tree (allowedIdentities config)).

Definition makeTree (rules : list InboundHTTPRouteRule) : outcome Tree := foldO addToTree ∅ rules.

(** The first rule that matches. *)
Fixpoint findRule {C} (rules : list (JsRule C)) (path : string) (headers : gmap string string) :
    outcome (option C) :=
  match rules with
  | [] => Ret None
  | rule :: rules =>
    matches ← jr_match rule path headers;
    if (matches : bool) then Ret (Some (jr_config rule)) else findRule rules path headers
  end.

Definition serviceidentity (r : Request) : string := default "" (req_headers r !! "serviceidentity").

(** The rules of the identity for the method, or else those of the empty identity. *)
Definition candidates (tree : Tree) (r : Request) : list (JsRule InboundHTTPRouteRule) :=
  let rulesOf identity := tree !! identity ≫= (.!! req_method r) in
  let own := if decide (serviceidentity r = "") then None else rulesOf (serviceidentity r) in
  default [] (match own with Some l => Some l | None => rulesOf "" end).

(** [makeServiceHandler]: the route of the request ([__route]), if there is one. *)
Definition serviceHandler (rules : list InboundHTTPRouteRule) (r : Request) :
    outcome (option InboundHTTPRouteRule) :=
  tree ← makeTree rules;
  findRule (candidates tree r) (req_path r) (req_headers r).

(** [makePortHandler]: a request from one of the source ranges is for the host [*],
    whatever its host header; [__isIngress] is the second component. *)
Definition portHandler (tm : InboundTrafficMatch) (remoteAddress : string) (r : Request) :
    outcome (option InboundHTTPRouteRule * bool) :=
  let isIngress := bool_decide (map_Exists (λ range _, contains range remoteAddress = true) (itm_SourceIPRanges tm)) in
  let host := if isIngress then "*" else default "" (req_headers r !! "host") in
  let rules := name ← itm_HTTPHostPort2Service tm !! host; itm_HTTPServiceRouteRules tm !! name in
  route ← serviceHandler (from_option ihrs_RouteRules [] rules) r;
  Ret (route, isIngress).

(** [__cluster]: the endpoints of the target that the balancer of the route gives. *)
Definition routeCluster (itp : InboundTrafficPolicy) (route : InboundHTTPRouteRule) : option (gmap string Z) :=
  id ← balance (targetClusters route); pitp_ClustersConfigs itp !! id.

(** ** Who may connect (inbound-main.js) *)

(** [k.indexOf('/') > 0] *)
Definition isRange (k : string) : bool :=
  match k with
  | EmptyString => false
  | String c s => bool_decide (c ≠ "/"%char) && has_char "/" s
  end.

(** [allow]: the address is listed, or in a listed range.  The script looks for
    [AllowedEndpoints] in the configuration of the port, which has none, and takes those
    of the whole configuration. *)
Definition allowAddress (conf : PipyConf) (ip : string) : bool :=
  let allowedEndpoints := (map_to_list (pc_AllowedEndpoints conf)).*1 in
  bool_decide (ip ∈ filter (λ k, has_char "/" k = false) allowedEndpoints) ||
  existsb (λ k, contains k ip) (filter (λ k, isRange k = true) allowedEndpoints).

(** [__port] and [__protocol] of a connection; without a protocol it is reset.  [quota]
    tells whether the rate limit of the port has a connection left. *)
Definition acceptInbound (conf : PipyConf) (quota : bool) (destinationPort : Z) (remoteAddress : string) :
    option (InboundTrafficMatch * string) :=
  tm ← (itp ← pc_Inbound conf; pitp_TrafficMatches itp !! destinationPort);
  let limited := bool_decide (is_Some (rl ← itm_TCPRateLimit tm; trl_Local rl)) in
  if allowAddress conf remoteAddress && (quota || negb limited) then
    if decide (itm_Protocol tm = "") then None
    else Some (tm, if decide (itm_Protocol tm = ProtocolHTTP ∨ itm_Protocol tm = ProtocolGRPC)
                   then "http" else "tcp")
  else None.

(** ** TLS (inbound-tls-termination.js)

    What the handshake gives: [peer_ok] is whether pipy accepts the chain of the peer for
    the CA of the mesh, and the names are those of its certificate.  A peer is taken to
    present one certificate; the script's callback decides whether the handshake goes on. *)

Record Peer := mkPeer {
  peer_ok : bool;
  peer_commonName : string;
  peer_subjectAltNames : list string;
}.

(** The entries of an object that was a Go map, in the order of its keys. *)
Definition sourceEntries (tm : InboundTrafficMatch) : list (string * option SourceSecuritySpec) :=
  insertion_sort (λ a b, String.ltb a.1 b.1) (map_to_list (itm_SourceIPRanges tm)).

(** [_tlsConfig]: the settings of the first range that has the address. *)
Definition tlsConfig (tm : InboundTrafficMatch) (remoteAddress : string) : option (option SourceSecuritySpec) :=
  first_some (λ e, if contains e.1 remoteAddress then Some e.2 else None) (sourceEntries tm).

Definition is_mTLS (config : option (option SourceSecuritySpec)) : bool :=
  match config with Some (Some spec) => sss_MTLS spec | _ => false end.

(** [verify]: whether the handshake goes on, and [_forbiddenTLS].  Without principals the
    field is [null]. *)
Definition verify (config : option (option SourceSecuritySpec)) (protocol : string) (peer : Peer) : bool * bool :=
  match config with
  | Some (Some spec) =>
    if sss_MTLS spec && negb (sss_SkipClientCertValidation spec) then
      let principals := sss_AuthenticatedPrincipals spec in
      let authenticated := existsb (λ name, bool_decide (name ∈ principals))
                             (peer_commonName peer :: peer_subjectAltNames peer) in
      let forbiddenTLS := bool_decide (principals ≠ []) && negb authenticated in
      (if forbiddenTLS && bool_decide (protocol ≠ "http") then false else peer_ok peer, forbiddenTLS)
    else (peer_ok peer, false)
  | _ => (peer_ok peer, false)
  end.

Inductive Admission := Plaintext | HandshakeFailed | AccessDenied | Secured.

(** The branches of the pipeline; without a certificate of its own the sidecar takes the
    connection as it is. *)
Definition tlsTermination (certChain : string) (tm : InboundTrafficMatch) (protocol remoteAddress : string)
    (peer : Peer) : Admission :=
  let config := tlsConfig tm remoteAddress in
  if bool_decide (certChain ≠ "") && (bool_decide (config = None) || is_mTLS config) then
    let '(ok, forbiddenTLS) := verify config protocol peer in
    if negb ok then HandshakeFailed else if forbiddenTLS then AccessDenied else Secured
  else Plaintext.

(** The chain of inbound-main.js up to the routing, with the modules of the default chains
    (charts/osm/values.yaml) in their order, for a request that the connection carries: it
    is reset, denied, handed to the TCP modules, or routed. *)
Inductive Inbound :=
  | Reset
  | Denied
  | Stream (tm : InboundTrafficMatch)
  | Routed (route : option InboundHTTPRouteRule) (isIngress : bool).

Definition inbound (conf : PipyConf) (certChain : string) (quota : bool) (destinationPort : Z)
    (remoteAddress : string) (peer : Peer) (r : Request) : outcome Inbound :=
  match acceptInbound conf quota destinationPort remoteAddress with
  | None => Ret Reset
  | Some (tm, protocol) =>
    match tlsTermination certChain tm protocol remoteAddress peer with
    | HandshakeFailed => Ret Reset
    | AccessDenied => Ret Denied
    | Plaintext | Secured =>
      if decide (protocol = "http") then
        '(route, isIngress) ← portHandler tm remoteAddress r;
        Ret (Routed route isIngress)
      else Ret (Stream tm)
    end
  end.

(** ** Outbound *)

(** [makeServiceHandler] of outbound-http-routing.js: the route, and the request with
    the identity of the service as header. *)
Definition addMethods (methods : Methods HTTPRouteRule) (config : HTTPRouteRule) :
    outcome (Methods HTTPRouteRule) :=
  rule ← jsRule config (hrr_Match config);
  Ret (foldl (push rule) methods (allowedMethods (hrr_Match config))).

Definition outboundServiceHandler (service : OutboundHTTPRouteRules) (r : Request) :
    outcome (option HTTPRouteRule * Request) :=
  methods ← foldO addMethods ∅ (ohrs_RouteRules service);
  route ← findRule (default [] (methods !! req_method r)) (req_path r) (req_headers r);
  Ret (route,
       match route with
       | Some _ => mkRequest (req_method r) (req_path r)
                     (<["serviceidentity" := ohrs_ServiceIdentity service]> (req_headers r))
       | None => r
       end).

(** [makePortHandler]: the rules are those of the service that the host header names.  A
    request without a route is answered 403 by outbound-http-default.js. *)
Definition outboundPortHandler (tm : OutboundTrafficMatch) (r : Request) :
    outcome (option HTTPRouteRule * Request) :=
  let service := name ← otm_HTTPHostPort2Service tm !! default "" (req_headers r !! "host");
                 otm_HTTPServiceRouteRules tm !! name in
  match service with
  | Some service => outboundServiceHandler service r
  | None => Ret (None, r)
  end.

(** [destinationHandlers] of outbound-main.js: the match of a destination address, and
    whether it is egress.  A match without ranges is taken when [dst.Protocol] is not
    tcp or egress is allowed; [dst] has no field [Protocol], so it always is. *)
Definition hasRanges (tm : OutboundTrafficMatch) : bool := bool_decide (otm_DestinationIPRanges tm ≠ ∅).

Definition destination (matches : list OutboundTrafficMatch) (address : string) :
    option (OutboundTrafficMatch * bool) :=
  match first_some (λ tm, if bool_decide (map_Exists (λ range _, contains range address = true)
                                            (otm_DestinationIPRanges tm))
                          then Some tm else None) matches with
  | Some tm => Some (tm, false)
  | None => first_some (λ tm, if hasRanges tm then None else Some (tm, true)) matches
  end.

(** [protocol], empty when the connection is closed. *)
Definition outboundProtocol (enableEgress : bool) (dst : option OutboundTrafficMatch) : string :=
  match dst with
  | Some tm =>
    if decide (otm_Protocol tm = "") then if enableEgress then "tcp" else ""
    else if decide (otm_Protocol tm = ProtocolHTTP ∨ otm_Protocol tm = ProtocolGRPC) then "http" else "tcp"
  | None => if enableEgress then "tcp" else ""
  end.
End sidecar.

(** ** Theorems: inbound routing *)

(** *** Lookups in what the loops build *)

Lemma push_lookup {C} (rule : JsRule C) methods ms method :
  foldl (push rule) methods ms !! method =
  match length (filter (.= method) ms) with
  | O => methods !! method
  | S n => Some (default [] (methods !! method) ++ replicate (S n) rule)
  end.
Proof.
  induction ms as [|x ms IH] using rev_ind; [done|]. rewrite foldl_app, filter_app, length_app. simpl.
  unfold push in *. destruct (decide (x = method)) as [->|Hx].
  - rewrite filter_cons_True, filter_nil by done. rewrite lookup_insert_eq, IH. simpl.
    destruct (length _) as [|n]; simpl; [done|].
    rewrite Nat.add_1_r. simpl. rewrite <-(assoc_L (++)). f_equal. f_equal.
    change (rule :: replicate n rule) with (replicate (S n) rule).
    by rewrite <-replicate_cons_app.
  - rewrite filter_cons_False, filter_nil by done. rewrite lookup_insert_ne, IH by done. simpl.
    by rewrite Nat.add_0_r.
Qed.

Lemma identities_lookup {V} (f : V → V) (v0 : V) (tree : gmap string V) ids id :
  NoDup ids →
  foldl (λ t i, <[i := f (default v0 (t !! i))]> t) tree ids !! id =
  if decide (id ∈ ids) then Some (f (default v0 (tree !! id))) else tree !! id.
Proof.
  revert tree. induction ids as [|i ids IH]; intros tree Hnd; [done|]. cbn [foldl].
  apply NoDup_cons in Hnd as [Hi Hnd]. rewrite IH by done.
  destruct (decide (id = i)) as [->|Hne].
  - rewrite decide_False, lookup_insert_eq, decide_True by set_solver. done.
  - rewrite lookup_insert_ne by done. destruct (decide (id ∈ ids)).
    + rewrite decide_True by set_solver. done.
    + rewrite decide_False by set_solver. done.
Qed.

Lemma allowedIdentities_NoDup c : NoDup (allowedIdentities c).
Proof. unfold allowedIdentities. destruct (allowedServices c); [apply NoDup_singleton|apply unique_NoDup]. Qed.

Abbreviation matchOf c := (hrr_Match (ihrr_Rule c)).

(** How often a rule is under an identity and a method. *)
Definition occurrences (identity method : string) (c : InboundHTTPRouteRule) : nat :=
  if decide (identity ∈ allowedIdentities c)
  then length (filter (.= method) (allowedMethods (matchOf c))) else O.

(** A rule is under an identity and a method. *)
Definition under (identity method : string) (c : InboundHTTPRouteRule) : Prop :=
  identity ∈ allowedIdentities c ∧ method ∈ allowedMethods (matchOf c).

#[global] Instance under_dec identity method c : Decision (under identity method c).
Proof. unfold under. apply _. Defined.

Lemma occurrences_under identity method c : occurrences identity method c = O ↔ ¬ under identity method c.
Proof.
  unfold occurrences, under. case_decide; [|tauto]. rewrite length_zero_iff_nil, filter_nil_iff.
  split; [intros Hf [_ Hm]; by apply (Hf method)|]. intros Hn x Hx ->. tauto.
Qed.

Section routing.
Context (RegExp : string → option (string → bool)).

(** Whether a rule matches the path and the headers of a request. *)
Definition requestMatches (m : HTTPMatchRule) (r : Request) : outcome bool :=
  rule ← jsRule RegExp () m; jr_match rule (req_path r) (req_headers r).

(** *** The tree *)

Definition at_tree (tree : Tree) (identity method : string) : option (list (JsRule InboundHTTPRouteRule)) :=
  tree !! identity ≫= (.!! method).

Lemma addToTree_at tree c tree' identity method :
  addToTree RegExp tree c = Ret tree' →
  ∃ rule, jsRule RegExp c (matchOf c) = Ret rule ∧
    at_tree tree' identity method =
      match occurrences identity method c with
      | O => at_tree tree identity method
      | S n => Some (default [] (at_tree tree identity method) ++ replicate (S n) rule)
      end.
Proof.
  unfold addToTree. intros (rule & Hrule & [= <-])%bind_Ret. exists rule. split; [done|].
  unfold at_tree, occurrences.
  rewrite (identities_lookup (λ methods, foldl (push rule) methods (allowedMethods (matchOf c))) ∅)
    by apply allowedIdentities_NoDup.
  case_decide; [|done]. simpl. rewrite push_lookup.
  destruct (tree !! identity) as [methods|]; simpl; [done|]. by rewrite lookup_empty.
Qed.

(** The rules under an identity and a method, in their order. *)
Definition row (identity method : string) (js : list (JsRule InboundHTTPRouteRule)) :
    list (JsRule InboundHTTPRouteRule) :=
  js ≫= λ j, replicate (occurrences identity method (jr_config j)) j.

Lemma jsRule_config {C} (c : C) m rule : jsRule RegExp c m = Ret rule → jr_config rule = c.
Proof. unfold jsRule. by intros (? & _ & (? & _ & [= <-])%bind_Ret)%bind_Ret. Qed.

Lemma makeTree_spec rules tree :
  makeTree RegExp rules = Ret tree →
  ∃ js, mapO (λ c, jsRule RegExp c (matchOf c)) rules = Ret js ∧ ∀ identity method,
    at_tree tree identity method = match row identity method js with [] => None | l => Some l end.
Proof.
  unfold makeTree. revert tree. induction rules as [|c rules IH] using rev_ind; intros tree.
  { intros [= <-]. exists []. split; [done|]. done. }
  rewrite foldO_app. intros (tree0 & Ht0 & (tree1 & Hadd & [= <-])%bind_Ret)%bind_Ret. destruct (IH _ Ht0) as (js & Hjs & Hat).
  destruct (addToTree_at _ _ _ "" "" Hadd) as (rule & Hrule & _). exists (js ++ [rule]). split.
  { rewrite mapO_app, Hjs. simpl. by rewrite Hrule. }
  intros identity method. destruct (addToTree_at _ _ _ identity method Hadd) as (rule' & Hrule' & ->).
  rewrite Hrule in Hrule'. injection Hrule' as <-. unfold row. rewrite bind_app. csimpl.
  rewrite app_nil_r, (jsRule_config _ _ _ Hrule), Hat. fold (row identity method js).
  destruct (occurrences identity method c) as [|n]; simpl; [by rewrite app_nil_r|].
  destruct (row identity method js); simpl; [done|]. done.
Qed.

Lemma makeTree_returns rules :
  (∀ c, c ∈ rules → returns (jsRule RegExp c (matchOf c))) → returns (makeTree RegExp rules).
Proof.
  unfold makeTree. generalize (∅ : Tree) as tree. induction rules as [|c rules IH]; intros tree Hr.
  { by exists tree. }
  simpl. destruct (Hr c) as [rule Hrule]; [by left|].
  destruct (addToTree RegExp tree c) as [tree'|] eqn:E; [|unfold addToTree in E; by rewrite Hrule in E].
  apply IH. intros c' ?. apply Hr. by right.
Qed.

(** *** The first rule that matches *)

Fixpoint firstMatch (rules : list InboundHTTPRouteRule) (r : Request) : outcome (option InboundHTTPRouteRule) :=
  match rules with
  | [] => Ret None
  | c :: rules =>
    matches ← requestMatches (matchOf c) r;
    if (matches : bool) then Ret (Some c) else firstMatch rules r
  end.

Lemma jsRule_match {C} (c : C) m rule r :
  jsRule RegExp c m = Ret rule → jr_match rule (req_path r) (req_headers r) = requestMatches m r.
Proof.
  unfold requestMatches, jsRule. destruct (matchPath RegExp m) as [path|]; [|done]. simpl.
  destruct (headerRules RegExp m) as [hs|]; [|done]. simpl. by intros [= <-].
Qed.

Lemma findRule_replicate {C} n (j : JsRule C) l path headers :
  findRule (replicate (S n) j ++ l) path headers = findRule (j :: l) path headers.
Proof.
  induction n as [|n IH]; [done|]. simpl in *. rewrite IH. by destruct (jr_match j path headers) as [[]|].
Qed.

Lemma findRule_row rules js identity r :
  Forall2 (λ c j, jsRule RegExp c (matchOf c) = Ret j) rules js →
  findRule (row identity (req_method r) js) (req_path r) (req_headers r) =
  firstMatch (filter (under identity (req_method r)) rules) r.
Proof.
  induction 1 as [|c j rules js Hj _ IH]; [done|]. unfold row. csimpl.
  fold (row identity (req_method r) js). rewrite (jsRule_config _ _ _ Hj).
  destruct (decide (under identity (req_method r) c)) as [Hu|Hu].
  - rewrite filter_cons_True by done. destruct (occurrences identity (req_method r) c) as [|n] eqn:E.
    { by apply occurrences_under in E. }
    rewrite findRule_replicate. simpl. by rewrite (jsRule_match _ _ _ _ Hj), (jsRule_config _ _ _ Hj), IH.
  - rewrite filter_cons_False by done. apply occurrences_under in Hu. by rewrite Hu.
Qed.

Lemma row_nil rules js identity method :
  Forall2 (λ c j, jsRule RegExp c (matchOf c) = Ret j) rules js →
  row identity method js = [] ↔ filter (under identity method) rules = [].
Proof.
  induction 1 as [|c j rules js Hj _ IH]; [done|]. unfold row. csimpl.
  fold (row identity method js). rewrite (jsRule_config _ _ _ Hj).
  destruct (decide (under identity method c)) as [Hu|Hu].
  - rewrite filter_cons_True by done. destruct (occurrences identity method c) eqn:E; [|done].
    by apply occurrences_under in E.
  - rewrite filter_cons_False by done. apply occurrences_under in Hu. by rewrite Hu.
Qed.

(** What the handler computes, without the tree: the rules of the identity of the
    request for its method when there are any, or else the rules for everyone, and of
    these the first that matches. *)
Definition routeOf (rules : list InboundHTTPRouteRule) (r : Request) : outcome (option InboundHTTPRouteRule) :=
  let own := filter (under (serviceidentity r) (req_method r)) rules in
  let open := filter (under "" (req_method r)) rules in
  firstMatch (if decide (serviceidentity r = "" ∨ own = []) then open else own) r.

Lemma serviceHandler_routeOf rules r tree :
  makeTree RegExp rules = Ret tree → serviceHandler RegExp rules r = routeOf rules r.
Proof.
  intros Ht. unfold serviceHandler, routeOf. rewrite Ht. cbn [mbind outcome_bind].
  destruct (makeTree_spec _ _ Ht) as (js & Hjs%mapO_Forall2 & Hat). unfold candidates.
  fold (at_tree tree (serviceidentity r) (req_method r)) (at_tree tree "" (req_method r)). rewrite !Hat.
  assert (findRule (default [] (match row "" (req_method r) js with [] => None | l => Some l end))
    (req_path r) (req_headers r) = firstMatch (filter (under "" (req_method r)) rules) r) as Hopen.
  { rewrite <-(findRule_row _ _ _ _ Hjs). by destruct (row "" (req_method r) js). }
  destruct (decide (serviceidentity r = "")) as [He|Hne].
  { by rewrite decide_True by auto. }
  destruct (row (serviceidentity r) (req_method r) js) as [|j l] eqn:Erow.
  - rewrite decide_True; [done|]. right. by apply (row_nil _ _ _ _ Hjs).
  - rewrite decide_False, <-(findRule_row _ _ _ _ Hjs), Erow; [done|]. intros [?|Hn]; [done|].
    apply (row_nil _ _ _ _ Hjs) in Hn. by rewrite Erow in Hn.
Qed.

(** C17. The routing table of the sidecar decides as a scan of the rules would: the
    handler that is built once per service, a tree of identities and methods, gives
    every request the first rule that matches among those for its identity and method,
    or, only when there is none of these, among those that are open to everyone. *)
Theorem serviceHandler_reference (rules : list InboundHTTPRouteRule) (r : Request) :
  (∀ c, c ∈ rules → returns (jsRule RegExp c (matchOf c))) →
  serviceHandler RegExp rules r = routeOf rules r.
Proof.
  intros [tree Ht]%makeTree_returns. by eapply serviceHandler_routeOf.
Qed.

Lemma firstMatch_Some rules r c :
  firstMatch rules r = Ret (Some c) → c ∈ rules ∧ requestMatches (matchOf c) r = Ret true.
Proof.
  induction rules as [|c' rules IH]; simpl; [done|]. intros ([] & Hm & Hc)%bind_Ret.
  - injection Hc as ->. split; [by left|done].
  - destruct (IH Hc). split; [by right|done].
Qed.

Lemma allowedIdentities_admits c s : s ∈ allowedIdentities c → s ≠ "" → admits c s.
Proof.
  unfold allowedIdentities, admits. destruct (allowedServices c) as [|x l] eqn:E; [auto|].
  rewrite elem_of_unique. auto.
Qed.

(** The route of a request is a rule that matches it and admits its identity. *)
Lemma serviceHandler_sound rules r c :
  serviceHandler RegExp rules r = Ret (Some c) →
  c ∈ rules ∧ req_method r ∈ allowedMethods (matchOf c) ∧ requestMatches (matchOf c) r = Ret true ∧
  (admits c (serviceidentity r) ∨ "" ∈ allowedServices c).
Proof.
  intros Hh. destruct (makeTree RegExp rules) as [tree|] eqn:Ht.
  2: { unfold serviceHandler in Hh. by rewrite Ht in Hh. }
  rewrite (serviceHandler_routeOf _ _ _ Ht) in Hh. unfold routeOf in Hh.
  apply firstMatch_Some in Hh as [Hc Hm]. case_decide as Hd.
  - apply list_elem_of_filter in Hc as [[Hi Hme] Hc]. split_and!; [done..|].
    unfold allowedIdentities, admits in *. destruct (allowedServices c); [auto|].
    rewrite elem_of_unique in Hi. auto.
  - assert (serviceidentity r ≠ "") as Hne by tauto. apply list_elem_of_filter in Hc as [[Hi Hme] Hc].
    split_and!; [done..|]. left. by apply allowedIdentities_admits.
Qed.
End routing.
