(* ===== verification/PipyJob.v ===== *)
(** * pkg/sidecar/providers/pipy/repo: the job that generates a configuration

    jobs.go: [Run] builds the configuration of one sidecar from the settings of the mesh,
    the plugins, and the policies of the catalog, and orders the rules for the sidecar.
    The steps that need the certificate manager and the repository ([certs] and
    [publishSidecarConf]) and the probes of the pod are not part of the configuration
    here.  The theorems at the end follow a request through all of it: from the
    TrafficTargets of the cluster to the route that the scripts of the sidecar give. *)

From S2P Require Import Prelude GoStrings Net Cidr Identity Service PolicyApi TrafficPolicy K8s.
From S2P Require Import K8sClient KubeProvider Smi PolicyClient Catalog CatalogEgress CatalogInbound.
From S2P Require Import CatalogOutbound CatalogIngress MeshConfig Pipy PipyPlugin PipyServer.
From S2P Require Import PipyInbound PipyOutbound PipySidecar.

(** ** Settings ([features]) *)

Definition localDNSProxy (enable : bool) (primary secondary : string) : option (option UpstreamDNSServers) :=
  let nonempty s := if decide (s = "") then None else Some s in
  if enable then
    Some (match nonempty primary, nonempty secondary with
          | None, None => None
          | p, s => Some (mkUpstreamDNSServers p s)
          end)
  else None.

Definition zero_PipySpec : PipySpec := mkPipySpec "" 0 0 false false false false false ∅ None.

(** [new(PipyConf)] *)
Definition zero_PipyConf : PipyConf := {|
  pc_Spec := zero_PipySpec; pc_Inbound := None; pc_Outbound := None; pc_Forward := None;
  pc_AllowedEndpoints := ∅; pc_Chains := None; pc_DNSResolveDB := ∅;
  pc_pluginPolicies := mkPluginPolicies ∅ ∅ |}.

Definition with_Spec (c : PipyConf) (spec : PipySpec) : PipyConf := {|
  pc_Spec := spec; pc_Inbound := pc_Inbound c; pc_Outbound := pc_Outbound c; pc_Forward := pc_Forward c;
  pc_AllowedEndpoints := pc_AllowedEndpoints c; pc_Chains := pc_Chains c;
  pc_DNSResolveDB := pc_DNSResolveDB c; pc_pluginPolicies := pc_pluginPolicies c |}.

Definition with_plugins (c : PipyConf) (policies : PluginPolicies) (chains : gmap string (list string)) :
    PipyConf := {|
  pc_Spec := pc_Spec c; pc_Inbound := pc_Inbound c; pc_Outbound := pc_Outbound c; pc_Forward := pc_Forward c;
  pc_AllowedEndpoints := pc_AllowedEndpoints c; pc_Chains := Some chains;
  pc_DNSResolveDB := pc_DNSResolveDB c; pc_pluginPolicies := policies |}.

Definition with_AllowedEndpoints (c : PipyConf) (endpoints : gmap string string) : PipyConf := {|
  pc_Spec := pc_Spec c; pc_Inbound := pc_Inbound c; pc_Outbound := pc_Outbound c; pc_Forward := pc_Forward c;
  pc_AllowedEndpoints := endpoints; pc_Chains := pc_Chains c;
  pc_DNSResolveDB := pc_DNSResolveDB c; pc_pluginPolicies := pc_pluginPolicies c |}.

(** The setters, which assign what differs from the MeshConfig. *)
Definition features (mesh : MeshConfigSpec) (conf : PipyConf) : PipyConf :=
  let spec := pc_Spec conf in
  let sidecar := mcs_Sidecar mesh in
  let traffic := mcs_Traffic mesh in
  let dns := sc_LocalDNSProxy sidecar in
  let level := sc_LogLevel sidecar in
  with_Spec conf {|
    psp_SidecarLogLevel := if equal_fold (psp_SidecarLogLevel spec) level
                           then psp_SidecarLogLevel spec else level;
    psp_SidecarTimeout := sc_SidecarTimeout sidecar;
    psp_RemoteLoggingLevel := rlog_Level (ob_RemoteLogging (mcs_Observability mesh));
    psp_EnableEgress := tf_EnableEgress traffic;
    psp_enablePermissiveTrafficPolicyMode := tf_EnablePermissiveTrafficPolicyMode traffic;
    psp_HTTP1PerRequestLoadBalancing := tf_HTTP1PerRequestLoadBalancing traffic;
    psp_HTTP2PerRequestLoadBalancing := tf_HTTP2PerRequestLoadBalancing traffic;
    psp_EnableSidecarActiveHealthChecks := ff_EnableSidecarActiveHealthChecks (mcs_FeatureFlags mesh);
    psp_ClusterSet :=
      match elems (cset_Properties (mcs_ClusterSet mesh)) with
      | [] => psp_ClusterSet spec
      | props => foldl (λ m p, <[cp_Name p := cp_Value p]> m) ∅ props
      end;
    psp_LocalDNSProxy := localDNSProxy (ldp_Enable dns) (ldp_PrimaryUpstreamDNSServerIPAddr dns)
                           (ldp_SecondaryUpstreamDNSServerIPAddr dns) |}.

(** ** Order ([reorder]) *)

(** [Less] of inbound and of outbound HTTP route rules. *)
Definition path_less (a b : string) : bool :=
  if decide (a = RegexMatchAll) then false else String.ltb a b.
Definition inbound_less (a b : InboundHTTPRouteRule) : bool :=
  path_less (hmr_Path (hrr_Match (ihrr_Rule a))) (hmr_Path (hrr_Match (ihrr_Rule b))).
Definition outbound_less (a b : HTTPRouteRule) : bool :=
  path_less (hmr_Path (hrr_Match a)) (hmr_Path (hrr_Match b)).

Section reorder.
Context `{RangeOrder, SortOrder}.

Definition sort_rules {R} (less : R → R → bool) (rules : list R) : list R :=
  if decide (1 < length rules)%nat then go_sort less rules else rules.

Definition reorderInboundMatch (tm : InboundTrafficMatch) : InboundTrafficMatch := {|
  itm_Port := itm_Port tm; itm_Protocol := itm_Protocol tm;
  itm_SourceIPRanges := itm_SourceIPRanges tm;
  itm_HTTPHostPort2Service := itm_HTTPHostPort2Service tm;
  itm_HTTPServiceRouteRules :=
    (λ hrrs, setRules hrrs (sort_rules inbound_less (ihrs_RouteRules hrrs))) <$> itm_HTTPServiceRouteRules tm;
  itm_TCPServiceRouteRules := itm_TCPServiceRouteRules tm;
  itm_TCPRateLimit := itm_TCPRateLimit tm |}.

Definition reorderInbound (itp : InboundTrafficPolicy) : InboundTrafficPolicy :=
  mkInboundTrafficPolicy (reorderInboundMatch <$> pitp_TrafficMatches itp) (pitp_ClustersConfigs itp).

Definition reorderOutboundMatch (tm : OutboundTrafficMatch) : OutboundTrafficMatch := {|
  otm_DestinationIPRanges := otm_DestinationIPRanges tm;
  otm_Port := otm_Port tm; otm_Protocol := otm_Protocol tm;
  otm_HTTPHostPort2Service := otm_HTTPHostPort2Service tm;
  otm_HTTPServiceRouteRules :=
    (λ hrrs, o_setRules hrrs (sort_rules outbound_less (ohrs_RouteRules hrrs))) <$> otm_HTTPServiceRouteRules tm;
  otm_TCPServiceRouteRules := otm_TCPServiceRouteRules tm |}.

(** The ranges of a match in descending order.  A range that cannot be parsed is a nil
    pointer, which the sort or the comparison dereferences. *)
Definition sortedRanges (tm : OutboundTrafficMatch) : outcome (list CIDR) :=
  cidrs ← mapO (λ range, match newCIDR range with Some c => Ret c | None => Panic end)
            (range_map (otm_DestinationIPRanges tm)).*1;
  Ret (DescSortCIDRs cidrs).

(** [Less] of outbound matches. *)
Definition match_less (a b : OutboundTrafficMatch) : outcome bool :=
  let aLen := size (otm_DestinationIPRanges a) in
  let bLen := size (otm_DestinationIPRanges b) in
  if decide (aLen = 0)%nat then Ret (bool_decide (bLen ≠ 0)%nat)
  else if decide (bLen = 0)%nat then Ret false
  else
    aCidrs ← sortedRanges a;
    bCidrs ← sortedRanges b;
    Ret (existsb (λ p, bool_decide (CompareCIDR p.1 p.2 = 1%Z)) (zip aCidrs bCidrs) ||
         bool_decide (bLen < aLen)%nat).

Definition is_less (o : outcome bool) : bool := match o with Ret b => b | Panic => false end.

(** The matches of a port.  The sort panics with a comparison; any two matches are taken
    to be compared. *)
Definition sort_matches (matchOf : string → OutboundTrafficMatch) (names : list string) : outcome (list string) :=
  if decide (1 < length names)%nat then
    _ ← mapO (λ '(a, b), match_less (matchOf a) (matchOf b)) (list_prod names names);
    Ret (go_sort (λ a b, is_less (match_less (matchOf a) (matchOf b))) names)
  else Ret names.

(** The rules of every match, in place, and then the matches of every port. *)
Definition reorderOutbound (otp : OutboundTrafficPolicy) : outcome OutboundTrafficPolicy :=
  let ports := map_to_list (potp_TrafficMatches otp) in
  let named := foldl (λ named name, alter reorderOutboundMatch name named)
                 (potp_namedTrafficMatches otp) (ports ≫= snd) in
  let matchOf name := default zero_OutboundTrafficMatch (named !! name) in
  ports ← mapO (λ '(port, names), names ← sort_matches matchOf names; Ret (port, names)) ports;
  Ret (mkOutboundTrafficPolicy named (list_to_map ports) (potp_ClustersConfigs otp)).

Definition reorder (conf : PipyConf) : outcome PipyConf :=
  out ← match pc_Outbound conf with
        | None => Ret None
        | Some otp => otp ← reorderOutbound otp; Ret (Some otp)
        end;
  Ret (with_Inbound (with_Outbound conf out (pc_DNSResolveDB conf)) (reorderInbound <$> pc_Inbound conf)).
End reorder.

(** ** Weights and addresses *)

Definition balance (conf : PipyConf) : PipyConf :=
  with_Forward (with_Outbound conf (rebalancedOutboundClusters (pc_Outbound conf)) (pc_DNSResolveDB conf))
    (rebalancedForwardClusters (pc_Forward conf)).

Section endpoints.
Context `{RangeOrder} (parseUUID : string → option string).

(** The addresses of the connected proxies, and the source ranges of the ingresses, may
    connect; [connected] gives the registered proxies.  The second component is [ready]. *)
Definition copyAllowedEndpoints (pods : list Pod) (connected : string → option PipyProxy) (conf : PipyConf) :
    PipyConf * bool :=
  let '(endpoints, ready) := foldl (λ '(endpoints, ready) pod,
    match GetProxyUUIDFromPod parseUUID pod with
    | None => (endpoints, ready)
    | Some proxyUUID =>
      match connected proxyUUID with
      | None => (endpoints, false)
      | Some proxy =>
        (<[GetAddr proxy := pod_Namespace pod +:+ "." +:+ pod_Name pod]> endpoints,
         ready && bool_decide (GetAddr proxy ≠ ""))
      end
    end) (∅ : gmap string string, true) pods in
  let ranges :=
    match pc_Inbound conf with
    | None => []
    | Some itp => tm ← (map_to_list (pitp_TrafficMatches itp)).*2; (map_to_list (itm_SourceIPRanges tm)).*1
    end in
  let endpoints :=
    foldl (λ endpoints range, <[trim_suffix range "/32" := "Ingress Controller"]> endpoints) endpoints ranges in
  (with_AllowedEndpoints conf endpoints, ready).
End endpoints.

(** ** The job *)

Section job.
Context `{RangeOrder, SortOrder} (mc : MeshCatalog) (domain : string).
Context (Matches : labels → labels → bool).
Context {LabelSelector : Type} (LabelSelectorAsSelector : LabelSelector → option (labels → bool)).
Context (secrets : string → string → option (gmap string string)).
Context (hashMatch : TrafficMatch → result string Z) (hashCluster : EgressClusterConfig → result string Z).
Context (parseUUID : string → option string).

(** What the server of the repository has besides the catalog: the MeshConfig, the
    chains of the configurator, the plugin resources, and the connected proxies. *)
Record Server := mkServer {
  srv_mesh : MeshConfigSpec;
  srv_globalChains : gmap string (list Plugin);
  srv_pluginChains : list (PluginChain LabelSelector);
  srv_plugins : list Plugin;
  srv_pluginConfigs : list PluginConfig;
  srv_connected : string → option PipyProxy;
}.

(** The names and the priorities of [updatePlugins]. *)
Definition pluginSet (plugins : list Plugin) : gset string := list_to_set (pl_Name <$> plugins).
Definition pluginPri (plugins : list Plugin) : gmap string Z :=
  foldl (λ m p, <[pl_Name p := pl_Priority p]> m) ∅ plugins.

(** [plugin]; the second component is whether the job is to be retried. *)
Definition jobPlugin (s : Server) (proxy : PipyProxy) (conf : PipyConf) : outcome (PipyConf * bool) :=
  let global := with_plugins conf (pc_pluginPolicies conf) (setSidecarChain (srv_globalChains s) ∅ ∅) in
  if negb (ff_EnablePluginPolicy (mcs_FeatureFlags (srv_mesh s))) then Ret (global, false)
  else if decide (srv_pluginChains s = []) then Ret (global, false)
  else
    r ← ctl_GetPodForProxy (mc_kubeController mc) (models_Proxy proxy);
    match r with
    | Err _ => Ret (global, false)
    | Ok pod =>
      let ns := ctl_GetNamespace (mc_kubeController mc) (pod_Namespace pod) in
      acc ← walkPluginChain LabelSelectorAsSelector (srv_pluginChains s) ns pod (pluginSet (srv_plugins s));
      Ret (with_plugins conf (walkPluginConfig (srv_pluginConfigs s) (ca_mountPoints acc))
             (setSidecarChain (srv_globalChains s) (pluginPri (srv_plugins s)) (ca_plugins acc)),
           ca_retry acc)
    end.

(** [Run], up to the publication: nothing without the services of the proxy, or else the
    configuration, and whether a retry was asked for. *)
Definition Run (s : Server) (proxy : PipyProxy) : outcome (option (PipyConf * bool)) :=
  r ← ListProxyServices Matches (mc_kubeController mc) proxy;
  match r with
  | Err _ => Ret None
  | Ok proxyServices =>
    let identity := pxy_Identity proxy in
    let conf := features (srv_mesh s) zero_PipyConf in
    '(conf, retry) ← jobPlugin s proxy conf;
    conf ← jobInbound mc domain identity proxyServices conf;
    '(conf, outboundReady) ← jobOutbound mc domain hashMatch hashCluster identity conf;
    '(conf, egressReady) ← jobEgress mc secrets hashMatch hashCluster identity conf;
    let '(conf, forwardReady) := jobForward mc conf in
    conf ← reorder (balance conf);
    let '(conf, ready) := copyAllowedEndpoints parseUUID (ctl_ListPods (mc_kubeController mc))
                            (srv_connected s) conf in
    Ret (Some (conf, retry || negb (outboundReady && egressReady && forwardReady && ready)))
  end.
End job.

(** ** Theorems: hosts *)

(** The rules named [*], those for traffic that enters the mesh, are those of the host
    [*] only. *)
Definition star_host (tm : InboundTrafficMatch) : Prop :=
  ∀ host, itm_HTTPHostPort2Service tm !! host = Some "*" → host = "*".
Definition hosts_ok (itp : InboundTrafficPolicy) : Prop :=
  ∀ port tm, pitp_TrafficMatches itp !! port = Some tm → star_host tm.

Lemma hosts_ok_put itp port tm : hosts_ok itp → star_host tm → hosts_ok (putTrafficMatch itp port tm).
Proof. intros Hok Htm p tm'. simpl. intros [[<- <-]|[_ Hp]]%lookup_insert_Some; [done|]. by eapply Hok. Qed.

Lemma star_host_add tm host name : star_host tm → (name = "*" → host = "*") →
  star_host (addHTTPHostPort2Service tm host name).
Proof. intros Htm Hn h. simpl. intros [[<- E]|[_ Hh]]%lookup_insert_Some; [by apply Hn|]. by apply Htm. Qed.

Lemma star_host_hosts tm hosts name : star_host tm → name ≠ "*" →
  star_host (foldl (λ tm h, addHTTPHostPort2Service tm h name) tm hosts).
Proof.
  intros Htm Hn. revert tm Htm. induction hosts as [|h hosts IH]; intros tm Htm; [done|].
  apply IH. by apply star_host_add.
Qed.

Lemma FQDN_not_star svc : FQDN svc ≠ "*".
Proof. unfold FQDN. intros E%(f_equal (has_char ".")). rewrite !has_char_app in E. simpl in E. by rewrite orb_true_r in E. Qed.

Section hosts.
Context `{RangeOrder} (mc : MeshCatalog).

Lemma inboundTurn_hosts permissive td pp pol itp m itp' :
  inboundTurn mc permissive td pp pol itp m = Ret itp' → hosts_ok itp → hosts_ok itp'.
Proof.
  unfold inboundTurn. destruct (trafficMatchToMeshSvc m) as [svc|]; [|done].
  destruct (getMeshClusterConfigs _ _) as [cluster|]; [|done].
  intros (tm & Htm & [= <-])%bind_Ret Hok. apply hosts_ok_put; [done|]. revert Htm.
  set (tm0 := setMatch _ _ _ _). assert (star_host tm0) as H0.
  { subst tm0. unfold star_host, newTrafficMatch. simpl.
    destruct (pitp_TrafficMatches itp !! _) as [tm1|] eqn:E; simpl; [by apply (Hok _ _ E)|].
    intros host Hh. by rewrite lookup_empty in Hh. }
  destruct (is_http_match m).
  - destruct (getInboundHTTPRouteConfigs _ _ _) as [cfg|] eqn:Ecfg; [|by intros [= <-]].
    unfold inboundHTTP, newHTTPServiceRouteRules. case_bool_decide; [done|].
    intros (plugins & _ & (hsrrs & _ & [= <-])%bind_Ret)%bind_Ret. apply star_host_hosts; [exact H0|].
    unfold getInboundHTTPRouteConfigs in Ecfg.
    destruct (imtp_HTTPRouteConfigsPerPort pol !! ms_TargetPort svc) as [cfgs|]; [|done].
    apply first_some_elem in Ecfg as (cfg' & _ & Ec). case_decide as EN; [|done]. injection Ec as <-.
    rewrite EN. apply FQDN_not_star.
  - destruct (is_tcp_match m); [|by intros [= <-]]. by intros (plugins & _ & [= <-])%bind_Ret.
Qed.

Lemma addSourceIPRanges_hosts tm ranges spec :
  itm_HTTPHostPort2Service (foldl (λ tm ipRange, addSourceIPRange tm ipRange spec) tm ranges) =
  itm_HTTPHostPort2Service tm.
Proof. revert tm. induction ranges as [|x l IH]; intros tm; simpl; [done|]. by rewrite IH. Qed.

Lemma entryTurn_hosts pp policies itp m itp' :
  entryTurn pp policies itp m = Ret itp' → hosts_ok itp → hosts_ok itp'.
Proof.
  unfold entryTurn. set (tm0 := foldl _ _ _). intros (tm & Htm & [= <-])%bind_Ret Hok.
  apply hosts_ok_put; [done|]. assert (star_host tm0) as H0.
  { unfold star_host. subst tm0. rewrite addSourceIPRanges_hosts. unfold getTrafficMatch.
    destruct (pitp_TrafficMatches itp !! _) as [tm1|] eqn:E; simpl; [by apply (Hok _ _ E)|].
    intros host Hh. by rewrite lookup_empty in Hh. }
  destruct (isHTTPEntry m); [|by injection Htm as <-]. revert Htm.
  apply (foldO_inv _ star_host); [|done]. intros tm1 c tm2 _ H1. unfold entryPolicy.
  destruct c as [cfg|]; [|done]. destruct (itp_Rules cfg) as [|d l]; [by intros [= <-]|].
  apply (foldO_inv _ star_host); [|done]. intros tm3 host tm4 _ H3. unfold entryHost, newHTTPServiceRouteRules.
  case_bool_decide; [done|]. intros (plugins & _ & [= <-])%bind_Ret. by apply (star_host_add _ host host).
Qed.

Lemma entryPolicies_hosts pp i ms policies i' :
  entryPolicies pp i ms policies = Ret i' → from_option hosts_ok True i → from_option hosts_ok True i'.
Proof.
  unfold entryPolicies. destruct ms as [|m ms]; [by intros [= <-]|]. destruct i as [itp|]; [|by intros [= <-]].
  case_decide; [by intros [= <-]|]. intros (itp' & Hf & [= <-])%bind_Ret Hok. simpl in Hok. cbn [from_option]. revert Hf.
  apply (foldO_inv _ hosts_ok); [|done]. intros itp1 m1 itp2 _ ? Hm. by eapply entryTurn_hosts.
Qed.

Lemma entryTraffic_hosts pp i svc i' :
  entryTraffic mc pp i svc = Ret i' → from_option hosts_ok True i → from_option hosts_ok True i'.
Proof.
  unfold entryTraffic, on_policy.
  intros (ingress & _ & (i1 & Hi1 & (acl & _ & (i2 & Hi2 & Hi3)%bind_Ret)%bind_Ret)%bind_Ret)%bind_Ret Hok.
  assert (from_option hosts_ok True i1) as H1.
  { destruct ingress.2 as [[p|]|]; [by eapply entryPolicies_hosts|by injection Hi1 as <-..]. }
  assert (from_option hosts_ok True i2) as H2.
  { destruct acl.2 as [[p|]|]; [by eapply entryPolicies_hosts|by injection Hi2 as <-..]. }
  destruct (GetExportTrafficPolicy mc svc) as [[p|]|]; [by eapply entryPolicies_hosts|by injection Hi3 as <-..].
Qed.

Lemma jobInbound_hosts domain id svcs conf conf' :
  pc_Inbound conf = None → jobInbound mc domain id svcs conf = Ret conf' →
  from_option hosts_ok True (pc_Inbound conf').
Proof.
  unfold jobInbound. intros -> (pol & _ & (itp & Hitp & (i & Hi & [= <-])%bind_Ret)%bind_Ret)%bind_Ret. simpl.
  assert (hosts_ok itp) as Hok.
  { unfold generatePipyInboundTrafficPolicy in Hitp. apply bind_Ret in Hitp as (itp1 & Hloop & [= Eitp]).
    assert (hosts_ok itp1) as H1.
    { revert Hloop. apply (foldO_inv _ hosts_ok); [|intros p tm; simpl; by rewrite lookup_empty].
      intros itp2 m itp3 _ ? Hm. by eapply inboundTurn_hosts. }
    rewrite <-Eitp. clear Hloop Eitp. revert itp1 H1. induction (imtp_ClustersConfigs pol) as [|c l IH]; intros itp1 H1; [done|].
    by apply IH. }
  revert Hi. apply (foldO_inv _ (from_option hosts_ok True)); [|done].
  intros i1 svc i2 _ ? Hs. by eapply entryTraffic_hosts.
Qed.
End hosts.

(** ** Theorems: what the later steps keep *)

Lemma elem_of_sort_rules `{SortOrder} {R} (less : R → R → bool) rules r :
  r ∈ sort_rules less rules ↔ r ∈ rules.
Proof. unfold sort_rules. case_decide; [|done]. by rewrite go_sort_perm. Qed.

Section outbound_frame.
Context `{RangeOrder} (mc : MeshCatalog).

Lemma jobOutbound_inbound domain hm hc id conf conf' ready :
  jobOutbound mc domain hm hc id conf = Ret (conf', ready) → pc_Inbound conf' = pc_Inbound conf.
Proof.
  unfold jobOutbound. intros (pol & _ & ([otp dep] & _ & ([otp' rdy] & _ & E)%bind_Ret)%bind_Ret)%bind_Ret.
  by injection E as <- _.
Qed.

Lemma jobEgress_inbound secrets hm hc id conf conf' ready :
  jobEgress mc secrets hm hc id conf = Ret (conf', ready) → pc_Inbound conf' = pc_Inbound conf.
Proof.
  unfold jobEgress. intros ([[pol|]|] & _ & E)%bind_Ret; [|by injection E as <- _..].
  apply bind_Ret in E as ([otp dep] & _ & ([otp' rdy] & _ & E)%bind_Ret). by injection E as <- _.
Qed.

Lemma jobForward_inbound conf : pc_Inbound (jobForward mc conf).1 = pc_Inbound conf.
Proof.
  unfold jobForward. destruct (GetEgressGatewayPolicy mc); [|done].
  by destruct (generatePipyEgressTrafficForwardPolicy _ _).
Qed.

Lemma copyAllowedEndpoints_inbound parseUUID pods connected conf :
  pc_Inbound (copyAllowedEndpoints parseUUID pods connected conf).1 = pc_Inbound conf.
Proof. unfold copyAllowedEndpoints. by destruct (foldl _ _ pods). Qed.

Lemma reorder_inbound `{SortOrder} conf conf' :
  reorder conf = Ret conf' → pc_Inbound conf' = reorderInbound <$> pc_Inbound conf.
Proof. unfold reorder. by intros (o & _ & [= <-])%bind_Ret. Qed.
End outbound_frame.

(** ** Theorems: requests *)

Lemma ToServiceIdentity_not_empty a : ToServiceIdentity a ≠ "".
Proof. unfold ToServiceIdentity, New. by destruct (sa_Name a). Qed.

(** Whether a rule matches depends on its path, type, headers and methods. *)
Lemma requestMatches_core RegExp m m' r :
  matchCore m = matchCore m' →
  requestMatches RegExp m r = requestMatches RegExp m' r ∧ allowedMethods m = allowedMethods m'.
Proof.
  unfold matchCore. intros [= Hp Ht Hh Hm]. unfold requestMatches, jsRule, matchPath, headerRules, allowedMethods.
  by rewrite Hp, Ht, Hh, Hm.
Qed.

Lemma jsRule_core {C D} RegExp (c : C) (d : D) m m' :
  matchCore m = matchCore m' → returns (jsRule RegExp d m') → returns (jsRule RegExp c m).
Proof.
  unfold matchCore. intros [= Hp Ht Hh Hm] [rule Hr]. unfold jsRule, matchPath, headerRules in *.
  rewrite Hp, Ht, Hh. apply bind_Ret in Hr as (path & -> & (hs & -> & _)%bind_Ret). eexists. reflexivity.
Qed.

Lemma firstMatch_total RegExp rules r c :
  (∀ c, c ∈ rules → returns (requestMatches RegExp (matchOf c) r)) →
  c ∈ rules → requestMatches RegExp (matchOf c) r = Ret true →
  ∃ route, firstMatch RegExp rules r = Ret (Some route).
Proof.
  intros Hr Hc Hm. induction rules as [|c' rules IH]; [by apply elem_of_nil in Hc|]. simpl.
  destruct (Hr c') as [b Hb]; [by left|]. rewrite Hb. simpl. destruct b; [by exists c'|].
  apply IH; [intros c0 ?; apply Hr; by right|]. apply elem_of_cons in Hc as [->|Hc]; [congruence|done].
Qed.

(** The type of a route is one of the three, so that only a pattern can throw. *)
Lemma newHTTPMatch_type `{RangeOrder} m :
  hmr_Type (newHTTPMatch m) ∈ [PathMatchRegex; PathMatchExact; PathMatchPrefix].
Proof.
  unfold newHTTPMatch. set (h0 := {| hmr_Path := _ |}).
  assert (hmr_Type h0 ∈ [PathMatchRegex; PathMatchExact; PathMatchPrefix]) as H0.
  { subst h0. simpl. destruct (hrm_PathMatchType m); simpl; set_solver. }
  assert (∀ hs h, hmr_Type (foldl (λ h kv, addHeaderMatch h kv.1 kv.2) h hs) = hmr_Type h) as Hh.
  { induction hs as [|kv hs IH]; intros h; [done|]. simpl. by rewrite IH. }
  assert (∀ ms h, hmr_Type (foldl addMethodMatch h ms) = hmr_Type h) as Hms.
  { induction ms as [|x ms IH]; intros h; [done|]. simpl. rewrite IH. unfold addMethodMatch. by destruct (hmr_allowedAnyMethod h). }
  destruct (elems (hrm_Methods m)) as [|x ms]; [pose proof (Hms ["*"]) as E; simpl in E|]; by rewrite ?E, ?Hms, Hh.
Qed.

Lemma requestMatches_returns `{RangeOrder} RegExp m r :
  returns (jsRule RegExp () (newHTTPMatch m)) → returns (requestMatches RegExp (newHTTPMatch m) r).
Proof.
  intros [rule Hrule]. unfold requestMatches. rewrite Hrule. simpl. unfold jsRule in Hrule.
  apply bind_Ret in Hrule as (path & Hpath & (hs & _ & [= <-])%bind_Ret). simpl.
  assert (∀ p, returns (path p)) as Hp.
  { pose proof (newHTTPMatch_type m) as Ht. revert Hpath. unfold matchPath.
    case_decide; [destruct (RegExp _); [|done]; intros [= <-] p; eexists; reflexivity|].
    case_decide; [intros [= <-] p; eexists; reflexivity|]. case_decide; [intros [= <-] p; eexists; reflexivity|].
    set_solver. }
  destruct (Hp (req_path r)) as [b ->]. simpl. eexists. reflexivity.
Qed.

Section run_theorems.
Context `{RangeOrder, SortOrder} (mc : MeshCatalog) (domain : string).
Context (Matches : labels → labels → bool).
Context {LabelSelector : Type} (LabelSelectorAsSelector : LabelSelector → option (labels → bool)).
Context (secrets : string → string → option (gmap string string)).
Context (hashMatch : TrafficMatch → result string Z) (hashCluster : EgressClusterConfig → result string Z).
Context (parseUUID : string → option string).
Abbreviation Run := (Run mc domain Matches LabelSelectorAsSelector secrets hashMatch hashCluster parseUUID).

(** The inbound part of a configuration is that of [inbound], in order. *)
Lemma Run_inbound s proxy conf retry :
  Run s proxy = Ret (Some (conf, retry)) →
  ∃ svcs conf0 conf1, ListProxyServices Matches (mc_kubeController mc) proxy = Ret (Ok svcs) ∧
    pc_Inbound conf0 = None ∧
    jobInbound mc domain (pxy_Identity proxy) svcs conf0 = Ret conf1 ∧
    pc_Inbound conf = reorderInbound <$> pc_Inbound conf1.
Proof.
  unfold PipyJob.Run. intros ([svcs|e] & Hsvcs & E)%bind_Ret; [|done].
  apply bind_Ret in E as ([conf0 r0] & Hp & (conf1 & Hi & ([conf2 r2] & Ho & ([conf3 r3] & He & E)%bind_Ret)%bind_Ret)%bind_Ret).
  destruct (jobForward mc conf3) as [conf4 r4] eqn:Hf. apply bind_Ret in E as (conf5 & Hr & E).
  destruct (copyAllowedEndpoints _ _ _ conf5) as [conf6 r6] eqn:Hc. injection E as <- _.
  exists svcs, conf0, conf1. split_and!; [done| |done|].
  - revert Hp. unfold jobPlugin. destruct (negb _); [by intros [= <- _]|]. destruct (decide _); [by intros [= <- _]|].
    intros ([pod|e] & _ & E)%bind_Ret; [|by injection E as <- _].
    apply bind_Ret in E as (acc & _ & E). by injection E as <- _.
  - pose proof (copyAllowedEndpoints_inbound parseUUID (ctl_ListPods (mc_kubeController mc)) (srv_connected s) conf5) as E6.
    rewrite Hc in E6. simpl in E6. rewrite E6, (reorder_inbound _ _ Hr). simpl. f_equal.
    pose proof (jobForward_inbound mc conf3) as E4. rewrite Hf in E4. simpl in E4.
    by rewrite E4, (jobEgress_inbound _ _ _ _ _ _ _ _ He), (jobOutbound_inbound _ _ _ _ _ _ _ _ Ho).
Qed.

Context `{!MeshSpecOk (mc_kubeController mc) (mc_meshSpec mc)}.
Context (sa : K8sServiceAccount) (s : @Server LabelSelector) (proxy : PipyProxy) (conf : PipyConf) (retry : bool).
Context (Hsmi : cfg_IsPermissiveTrafficPolicyMode (mc_configurator mc) = false).
Context (Hsa : sa_dotless sa) (Hname : sa_Name sa ≠ "").
Context (Hid : pxy_Identity proxy = ToServiceIdentity sa).
Context (Hrun : Run s proxy = Ret (Some (conf, retry))).

(** The traffic match that the sidecar has for a port. *)
Definition portMatch (port : Z) : option InboundTrafficMatch :=
  pc_Inbound conf ≫= λ itp, pitp_TrafficMatches itp !! port.

(** The rules of the match for a service admit only what TrafficTargets authorise. *)
Lemma portMatch_authorised port tm name h c id :
  portMatch port = Some tm → itm_HTTPServiceRouteRules tm !! name = Some h → name ≠ "*" →
  c ∈ ihrs_RouteRules h → admits c id →
  ∃ t m, authorises mc sa t m ∧ ruleCore c = matchCore (newHTTPMatch m) ∧
    (tt_Sources t = [] ∨ ∃ src, src ∈ tt_Sources t ∧ id = ToServiceIdentity (trafficTargetIdentityToSvcAccount src)).
Proof using Hsmi Hsa Hname Hid Hrun MeshSpecOk0.
  intros Htm Hh Hn Hc Ha. destruct (Run_inbound _ _ _ _ Hrun) as (svcs & conf0 & conf1 & _ & Hnew & Hjob & E).
  rewrite Hid in Hjob. unfold portMatch in Htm. rewrite E in Htm.
  destruct (pc_Inbound conf1) as [itp|] eqn:E1; [|done]. simpl in Htm. rewrite lookup_fmap in Htm.
  destruct (pitp_TrafficMatches itp !! port) as [tm1|] eqn:Etm; [|done]. injection Htm as <-.
  simpl in Hh. rewrite lookup_fmap in Hh.
  destruct (itm_HTTPServiceRouteRules tm1 !! name) as [h1|] eqn:Eh; [|done]. injection Hh as <-.
  simpl in Hc. rewrite elem_of_sort_rules in Hc.
  eapply (jobInbound_authorised mc domain sa svcs conf0 conf1 Hsmi Hsa Hname Hnew Hjob port name h1 c id); [|done..].
  unfold sidecarRules, routeRulesAt. rewrite E1. simpl. by rewrite Etm.
Qed.

Lemma portMatch_star port tm : portMatch port = Some tm → star_host tm.
Proof using Hrun.
  intros Htm. destruct (Run_inbound _ _ _ _ Hrun) as (svcs & conf0 & conf1 & _ & Hnew & Hjob & E).
  unfold portMatch in Htm. rewrite E in Htm. apply (jobInbound_hosts mc) in Hjob; [|done].
  destruct (pc_Inbound conf1) as [itp|]; [|done]. simpl in Htm, Hjob. rewrite lookup_fmap in Htm.
  destruct (pitp_TrafficMatches itp !! port) as [tm1|] eqn:Etm; [|done]. injection Htm as <-.
  intros host. simpl. by apply (Hjob _ _ Etm).
Qed.

Context (RegExp : string → option (string → bool)) (contains : string → string → bool).

(** Who a request has to say it is from: in SMI mode, the scripts of a sidecar give a
    route to a request that does not come from a source range of an ingress, and is not
    for the host [*], only if a TrafficTarget of a monitored namespace has the workload's
    service account as destination, selects an HTTP route that matches the method, the
    path and the headers of the request, and has the identity that the request names in
    its header [serviceidentity] among its sources, or has no sources at all. *)
Theorem request_authorised (port : Z) (tm : InboundTrafficMatch) (remoteAddress : string) (r : Request)
    (route : InboundHTTPRouteRule) :
  portMatch port = Some tm → portHandler RegExp contains tm remoteAddress r = Ret (Some route, false) →
  req_headers r !! "host" ≠ Some "*" →
  ∃ t m, authorises mc sa t m ∧ req_method r ∈ allowedMethods (newHTTPMatch m) ∧
    requestMatches RegExp (newHTTPMatch m) r = Ret true ∧
    (tt_Sources t = [] ∨ ∃ src, src ∈ tt_Sources t ∧
       serviceidentity r = ToServiceIdentity (trafficTargetIdentityToSvcAccount src)).
Proof using Hsmi Hsa Hname Hid Hrun MeshSpecOk0.
  intros Htm (route' & Hroute & [= -> Hing])%bind_Ret Hhost. rewrite Hing in Hroute. clear Hing.
  set (host := default "" (req_headers r !! "host")) in Hroute.
  assert (∀ c, serviceHandler RegExp [] r ≠ Ret (Some c)) as Hnil.
  { intros c (Hc & _)%serviceHandler_sound. by apply elem_of_nil in Hc. }
  destruct (itm_HTTPHostPort2Service tm !! host) as [name|] eqn:Ename; simpl in Hroute; [|by destruct (Hnil route)].
  destruct (itm_HTTPServiceRouteRules tm !! name) as [h|] eqn:Eh; simpl in Hroute; [|by destruct (Hnil route)].
  assert (name ≠ "*") as Hn.
  { intros ->. apply (portMatch_star _ _ Htm) in Ename. subst host. apply Hhost.
    destruct (req_headers r !! "host"); simpl in Ename; congruence. }
  apply serviceHandler_sound in Hroute as (Hc & Hme & Hma & Had).
  assert (∃ id, admits route id ∧ (id = serviceidentity r ∨ id = "")) as (id & Hadm & Eid).
  { destruct Had as [?|?]; [eauto|]. exists "". split; [by right|]. by right. }
  destruct (portMatch_authorised _ _ _ _ _ id Htm Eh Hn Hc Hadm) as (t & m & Ht & Ecore & Hsrc).
  destruct (requestMatches_core RegExp _ _ r Ecore) as [Er Em]. exists t, m. rewrite <-Er, <-Em.
  split_and!; [done..|]. destruct Hsrc as [?|(src & ? & Es)]; [by left|]. right. exists src. split; [done|].
  destruct Eid as [->| ->]; [done|]. by destruct (ToServiceIdentity_not_empty (trafficTargetIdentityToSvcAccount src)).
Qed.

(** A rule for a service, when every TrafficTarget of the workload has sources and its
    patterns compile: it names its clients, and it is matched without an exception. *)
Lemma portMatch_rule port tm name h c r :
  (∀ t m, authorises mc sa t m → tt_Sources t ≠ [] ∧ returns (jsRule RegExp () (newHTTPMatch m))) →
  portMatch port = Some tm → itm_HTTPServiceRouteRules tm !! name = Some h → name ≠ "*" →
  c ∈ ihrs_RouteRules h →
  allowedServices c ≠ [] ∧ returns (jsRule RegExp c (matchOf c)) ∧ returns (requestMatches RegExp (matchOf c) r).
Proof using Hsmi Hsa Hname Hid Hrun MeshSpecOk0.
  intros Hall Htm Hh Hn Hc. assert (allowedServices c ≠ []) as Hne.
  { intros E. destruct (portMatch_authorised _ _ _ _ _ "" Htm Hh Hn Hc) as (t & m & Ht & _ & Hsrc); [by left|].
    destruct (Hall _ _ Ht). destruct Hsrc as [?|(src & _ & Es)]; [done|].
    by destruct (ToServiceIdentity_not_empty (trafficTargetIdentityToSvcAccount src)). }
  assert (∃ id, admits c id) as [id Hadm].
  { destruct (allowedServices c) as [|x l] eqn:E; [done|]. exists x. right. rewrite E. by left. }
  destruct (portMatch_authorised _ _ _ _ _ id Htm Hh Hn Hc Hadm) as (t & m & Ht & Ecore & _).
  destruct (Hall _ _ Ht) as [_ Hjs]. destruct (requestMatches_core RegExp _ _ r Ecore) as [Er _].
  split_and!; [done|by eapply jsRule_core|]. rewrite Er. by apply requestMatches_returns.
Qed.

(** C2. What is authorised is served: in SMI mode, when a TrafficTarget lets the
    identity that the request names use a route that matches the request, and every TrafficTarget for the workload has
    sources and patterns that compile, the sidecar has a match for each HTTP service of
    the workload, on the port of the first service with the same local cluster, that gives
    the request a route, whatever other rules there are, for every host that the match
    maps to the service. *)
Theorem request_served (svcs : list MeshService) (svc : MeshService) (t : TrafficTarget) (m : HTTPRouteMatch)
    (src : IdentityBindingSubject) (r : Request) :
  ListProxyServices Matches (mc_kubeController mc) proxy = Ret (Ok svcs) →
  svc ∈ svcs → service_ok svc → isHTTPService svc →
  authorises mc sa t m → hrm_Path m ≠ "" → src ∈ tt_Sources t →
  serviceidentity r = ToServiceIdentity (trafficTargetIdentityToSvcAccount src) →
  req_method r ∈ allowedMethods (newHTTPMatch m) → requestMatches RegExp (newHTTPMatch m) r = Ret true →
  (∀ t m, authorises mc sa t m → tt_Sources t ≠ [] ∧ returns (jsRule RegExp () (newHTTPMatch m))) →
  ∃ svc0 tm, svc0 ∈ getUpstreamServicesIncludeApex mc svcs ∧
    SidecarLocalClusterName svc0 = SidecarLocalClusterName svc ∧ portMatch (ms_Port svc0) = Some tm ∧
    ∀ remoteAddress,
      ¬ map_Exists (λ range _, contains range remoteAddress = true) (itm_SourceIPRanges tm) →
      itm_HTTPHostPort2Service tm !! default "" (req_headers r !! "host") = Some (FQDN svc) →
      ∃ route, portHandler RegExp contains tm remoteAddress r = Ret (Some route, false).
Proof using Hsmi Hsa Hname Hid Hrun MeshSpecOk0.
  intros Hsvcs Hsvc Hok Hhttp Ht Hpath Hsrc Hsi Hme Hma Hall.
  destruct (Run_inbound _ _ _ _ Hrun) as (svcs' & conf0 & conf1 & Hsvcs' & Hnew & Hjob & E).
  rewrite Hsvcs in Hsvcs'. injection Hsvcs' as <-. rewrite Hid in Hjob.
  destruct (jobInbound_complete mc domain sa svcs conf0 conf1 Hsmi Hsa Hname Hnew Hjob svc t m src)
    as (svc0 & h & c & Hin0 & Ecl & Hh & Hc & Ecore & Hadm); [done..|].
  unfold sidecarRules, routeRulesAt in Hh. destruct (pc_Inbound conf1) as [itp|] eqn:E1; [|done]. simpl in Hh.
  destruct (pitp_TrafficMatches itp !! ms_Port svc0) as [tm1|] eqn:Etm; [|done]. simpl in Hh.
  exists svc0, (reorderInboundMatch tm1). assert (portMatch (ms_Port svc0) = Some (reorderInboundMatch tm1)) as Hport.
  { unfold portMatch. rewrite E. simpl. by rewrite lookup_fmap, Etm. }
  split_and!; [done..|]. intros addr Hno Hhost. unfold portHandler. rewrite bool_decide_false by done. rewrite Hhost.
  simpl. rewrite lookup_fmap, Hh. simpl. set (rules := sort_rules _ _).
  assert (itm_HTTPServiceRouteRules (reorderInboundMatch tm1) !! FQDN svc = Some (setRules h rules)) as Hh'.
  { simpl. by rewrite lookup_fmap, Hh. }
  assert (∀ c', c' ∈ rules → allowedServices c' ≠ [] ∧ returns (jsRule RegExp c' (matchOf c')) ∧
    returns (requestMatches RegExp (matchOf c') r)) as Hrules.
  { intros c' Hc'. by eapply (portMatch_rule _ _ _ _ c' r Hall Hport Hh' (FQDN_not_star svc)). }
  assert (c ∈ rules) as Hc' by by apply elem_of_sort_rules.
  destruct (makeTree_returns RegExp rules) as [tree Htree]; [intros c' ?; by apply Hrules|].
  rewrite (serviceHandler_routeOf _ _ _ _ Htree). unfold routeOf. destruct (requestMatches_core RegExp _ _ r Ecore) as [Er Em].
  assert (under (serviceidentity r) (req_method r) c) as Hu.
  { split; [|by rewrite Em]. rewrite Hsi. unfold allowedIdentities. destruct (Hrules c Hc') as [Hne _].
    destruct Hadm as [?|Hin]; [done|]. destruct (allowedServices c) as [|x l]; [done|]. by apply elem_of_unique. }
  rewrite decide_False.
  - destruct (firstMatch_total RegExp (filter (under (serviceidentity r) (req_method r)) rules) r c) as [route ->];
      [|by apply list_elem_of_filter|by rewrite Er|by eexists].
    intros c' [_ ?]%list_elem_of_filter. by apply Hrules.
  - intros [Hs|Hnil]; [rewrite Hsi in Hs; by eapply ToServiceIdentity_not_empty|].
    assert (c ∈ filter (under (serviceidentity r) (req_method r)) rules) as Hf by by apply list_elem_of_filter.
    rewrite Hnil in Hf. by apply elem_of_nil in Hf.
Qed.
End run_theorems.

(** ** Theorems: the order of the matches *)

#[local] Open Scope nat_scope.

Section longest_prefix.
Context `{RangeOrder, SortOrder} (contains : string → string → bool).

(** The range of a match that has one. *)
Definition rangeKey (tm : OutboundTrafficMatch) : option CIDR :=
  match map_to_list (otm_DestinationIPRanges tm) with
  | [(range, _)] => newCIDR range
  | _ => None
  end.

(** Matches without a range come first, then those with the longest masks. *)
Definition key_less (a b : option CIDR) : bool :=
  match a, b with
  | None, k => bool_decide (is_Some k)
  | Some _, None => false
  | Some a, Some b => asc_less b a
  end.

Lemma CompareCIDR_asc a b : CompareCIDR a b = 1%Z ↔ asc_less b a = true.
Proof.
  unfold CompareCIDR, asc_less. destruct (Compare_spec (networkIP a) (networkIP b)) as (Ha & _ & Hb).
  destruct (decide (maskOnes a = maskOnes b)) as [E|E], (decide (maskOnes b = maskOnes a)) as [E'|E'];
    [|congruence..|]; rewrite bool_decide_eq_true; [lia|]. case_decide; lia.
Qed.

Lemma key_less_weak_order l : weak_order key_less l.
Proof.
  pose proof (asc_less_weak_order) as Hasc. split.
  - intros [c|] _; simpl; [|done]. apply (wo_irreflexive _ _ (Hasc [c])). by left.
  - intros [x|] [y|] [z|] _ _ _; simpl; try done. intros Hyx Hzy.
    apply (wo_transitive _ _ (Hasc [x; y; z]) z y x); set_solver.
  - intros [x|] [y|] [z|] _ _ _; simpl; auto. intros Hyx.
    destruct (wo_incomparable _ _ (Hasc [x; y; z]) y x z) as [?|?]; set_solver.
Qed.

(** A match with at most one range, as a comparison sees it. *)
Lemma sortedRanges_one tm cs :
  size (otm_DestinationIPRanges tm) ≤ 1 → size (otm_DestinationIPRanges tm) ≠ 0 → sortedRanges tm = Ret cs →
  ∃ range spec c, otm_DestinationIPRanges tm = {[range := spec]} ∧ newCIDR range = Some c ∧ cs = [c] ∧
    rangeKey tm = Some c.
Proof.
  intros Hle Hne (cidrs & Hc & [= <-])%bind_Ret.
  destruct (map_to_list (otm_DestinationIPRanges tm)) as [|[range spec] [|]] eqn:E;
    try (apply (f_equal length) in E; rewrite length_map_to_list in E; simpl in E; lia).
  assert (otm_DestinationIPRanges tm = {[range := spec]}) as Em.
  { rewrite <-(list_to_map_to_list (otm_DestinationIPRanges tm)), E. simpl. by rewrite insert_empty. }
  assert (range_map (otm_DestinationIPRanges tm) = [(range, spec)]) as Er.
  { apply Permutation_singleton_r. by rewrite range_map_perm, E. }
  rewrite Er in Hc. simpl in Hc. exists range, spec. unfold rangeKey. rewrite E.
  destruct (newCIDR range) as [c|]; [|done]. injection Hc as <-. exists c. split_and!; try done.
  apply Permutation_singleton_r. apply go_sort_perm.
Qed.

Lemma one_entry {V} (m : gmap string V) k v k' v' : size m ≤ 1 → m !! k = Some v → m !! k' = Some v' → k = k'.
Proof.
  intros Hs Hk Hk'. destruct (decide (k = k')) as [|Hne]; [done|].
  assert (size (delete k m) = 0) as E%map_size_empty_inv by (rewrite map_size_delete_Some; [lia|by exists v]).
  assert (delete k m !! k' = Some v') as E' by by rewrite lookup_delete_ne. by rewrite E in E'.
Qed.

Lemma rangeKey_one tm range spec :
  size (otm_DestinationIPRanges tm) ≤ 1 → otm_DestinationIPRanges tm !! range = Some spec →
  rangeKey tm = newCIDR range.
Proof.
  intros Hs Hr. unfold rangeKey. destruct (map_to_list (otm_DestinationIPRanges tm)) as [|[range' spec'] l] eqn:E.
  { apply map_to_list_empty_iff in E. by rewrite E in Hr. }
  assert (otm_DestinationIPRanges tm !! range' = Some spec') as Hr'.
  { apply elem_of_map_to_list. rewrite E. by left. }
  destruct l as [|e l].
  - by rewrite (one_entry _ _ _ _ _ Hs Hr Hr').
  - apply (f_equal length) in E. rewrite length_map_to_list in E. simpl in E. lia.
Qed.

Lemma rangeKey_zero tm : size (otm_DestinationIPRanges tm) = 0 → rangeKey tm = None.
Proof. intros E%map_size_empty_inv. unfold rangeKey. by rewrite E, map_to_list_empty. Qed.

Lemma match_less_key a b x :
  size (otm_DestinationIPRanges a) ≤ 1 → size (otm_DestinationIPRanges b) ≤ 1 →
  match_less a b = Ret x → (size (otm_DestinationIPRanges b) ≠ 0 → is_Some (rangeKey b)) →
  x = key_less (rangeKey a) (rangeKey b).
Proof.
  intros Ha Hb. unfold match_less. destruct (decide (size (otm_DestinationIPRanges a) = 0)) as [Ea|Ea].
  { intros [= <-] Hs. rewrite (rangeKey_zero a Ea). simpl.
    destruct (decide (size (otm_DestinationIPRanges b) = 0)) as [Eb|Eb].
    - rewrite (rangeKey_zero b Eb), !bool_decide_false; [done|by intros [? ?]|auto].
    - by rewrite !bool_decide_true by auto. }
  destruct (decide (size (otm_DestinationIPRanges b) = 0)) as [Eb|Eb].
  { intros [= <-] _. rewrite (rangeKey_zero b Eb). by destruct (rangeKey a); [|simpl]. }
  intros (ca & Hca & (cb & Hcb & [= <-])%bind_Ret)%bind_Ret _.
  destruct (sortedRanges_one _ _ Ha Ea Hca) as (ra & sa & c & _ & _ & -> & ->).
  destruct (sortedRanges_one _ _ Hb Eb Hcb) as (rb & sb & d & _ & _ & -> & ->). simpl.
  rewrite orb_false_r, (bool_decide_false (size _ < size _)), orb_false_r by lia.
  apply eq_true_iff_eq. by rewrite bool_decide_eq_true, CompareCIDR_asc.
Qed.

Lemma sort_matches_sorted matchOf names names' :
  sort_matches matchOf names = Ret names' →
  (∀ n, n ∈ names → size (otm_DestinationIPRanges (matchOf n)) ≤ 1) →
  names' ≡ₚ names ∧
  StronglySorted (λ x y, key_less (rangeKey (matchOf y)) (rangeKey (matchOf x)) = false) names' ∧
  (1 < length names → ∀ n, n ∈ names → size (otm_DestinationIPRanges (matchOf n)) ≠ 0 →
     is_Some (rangeKey (matchOf n))).
Proof.
  intros Hs Hone. unfold sort_matches in Hs. destruct (decide (1 < length names)) as [Hlen|Hlen].
  2: { injection Hs as <-. split_and!; [done| |done]. destruct names as [|x [|]]; [constructor|repeat constructor|simpl in Hlen; lia]. }
  apply bind_Ret in Hs as (bs & Hbs & [= <-]). split; [apply go_sort_perm|].
  assert (∀ a b, a ∈ names → b ∈ names → ∃ x, match_less (matchOf a) (matchOf b) = Ret x) as Hret.
  { intros a b Ha Hb. destruct (mapO_elem _ _ _ (a, b) Hbs) as (x & Hx & _); [|by exists x].
    apply list_elem_of_In, in_prod_iff. by rewrite <-!list_elem_of_In. }
  assert (∀ b, b ∈ names → size (otm_DestinationIPRanges (matchOf b)) ≠ 0 → is_Some (rangeKey (matchOf b))) as Hkey.
  { intros b Hb Hne. destruct (Hret b b Hb Hb) as [x Hx]. unfold match_less in Hx.
    rewrite !decide_False in Hx by done. apply bind_Ret in Hx as (cs & Hcs & _).
    destruct (sortedRanges_one _ _ (Hone b Hb) Hne Hcs) as (? & ? & c & _ & _ & _ & ->). by exists c. }
  assert (∀ a b, a ∈ names → b ∈ names →
    is_less (match_less (matchOf a) (matchOf b)) = key_less (rangeKey (matchOf a)) (rangeKey (matchOf b))) as Heq.
  { intros a b Ha Hb. destruct (Hret a b Ha Hb) as [x Hx]. rewrite Hx. simpl. eapply match_less_key; eauto. }
  split; [|done]. eapply StronglySorted_elem; [|apply go_sort_sorted].
  - intros x y. rewrite !go_sort_perm. intros Hx Hy. by rewrite Heq.
  - eapply weak_order_map; [|apply key_less_weak_order]. exact Heq.
Qed.

(** C38. The most specific destination wins: among the matches of a port that have at most
    one range each, the order that [reorder] gives them makes the scripts of the sidecar
    take, for an address that some range contains, a match whose range contains it too
    and has the longest mask of those that do. *)
Theorem destination_longest_prefix (matchOf : string → OutboundTrafficMatch) (names names' : list string)
    (address n range : string) (spec : option DestinationSecuritySpec) (c : CIDR) :
  sort_matches matchOf names = Ret names' →
  (∀ n, n ∈ names → size (otm_DestinationIPRanges (matchOf n)) ≤ 1) →
  n ∈ names → otm_DestinationIPRanges (matchOf n) !! range = Some spec → contains range address = true →
  newCIDR range = Some c →
  ∃ tm range' c', destination contains (matchOf <$> names') address = Some (tm, false) ∧
    is_Some (otm_DestinationIPRanges tm !! range') ∧ contains range' address = true ∧
    newCIDR range' = Some c' ∧ (maskOnes c ≤ maskOnes c')%Z.
Proof.
  intros Hs Hone Hn Hr Hcon Hc. destruct (sort_matches_sorted _ _ _ Hs Hone) as (Hperm & Hsorted & Hparse).
  unfold destination. set (f := λ tm, if bool_decide _ then Some tm else None).
  assert (is_Some (first_some f (matchOf <$> names'))) as [tm Htm].
  { apply not_eq_None_Some. intros Hno. rewrite first_some_None in Hno. specialize (Hno (matchOf n)). subst f. simpl in Hno.
    rewrite bool_decide_true in Hno; [|by exists range, spec]. discriminate Hno.
    apply list_elem_of_fmap. exists n. split; [done|]. by rewrite Hperm. }
  rewrite Htm. apply first_some_Some in Htm as (before & tm' & after & E & Hf & Hbefore). subst f. simpl in *.
  case_bool_decide as Hex; [|done]. injection Hf as ->. destruct Hex as (range' & spec' & Hr' & Hcon').
  apply fmap_app_inv in E as (bs & xs & -> & Eb & ->). destruct xs as [|x as']; [done|]. injection Eb as -> ->.
  exists (matchOf x), range'. assert (x ∈ names) as Hx by (rewrite <-Hperm; set_solver).
  destruct (decide (x = n)) as [->|Hne].
  { assert (range' = range) as -> by by eapply one_entry; [apply (Hone n Hn)|..]. exists c. split_and!; eauto. lia. }
  assert (1 < length names) as Hlen.
  { destruct names as [|y [|z l]]; simpl; [set_solver|set_solver|lia]. }
  assert (size (otm_DestinationIPRanges (matchOf x)) ≠ 0) as Hsz.
  { intros E%map_size_empty_inv. by rewrite E in Hr'. }
  destruct (Hparse Hlen x Hx Hsz) as [c' Hc']. pose proof Hc' as Ec'.
  rewrite (rangeKey_one _ _ _ (Hone x Hx) Hr') in Ec'. exists c'. split_and!; eauto.
  assert (n ∈ bs ++ x :: as') as [Hin|[Heq|Hin]%elem_of_cons]%elem_of_app by by rewrite Hperm.
  - specialize (Hbefore (matchOf n)). rewrite bool_decide_true in Hbefore; [|by exists range, spec].
    discriminate Hbefore. apply list_elem_of_fmap. eauto.
  - by rewrite Heq in Hne.
  - pose proof (StronglySorted_after _ _ _ _ _ Hsorted Hin) as Hless. simpl in Hless.
    rewrite (rangeKey_one _ _ _ (Hone n Hn) Hr), Hc, Hc' in Hless. simpl in Hless. unfold asc_less in Hless.
    case_decide; [lia|]. apply bool_decide_eq_false in Hless. lia.
Qed.
End longest_prefix.

(** Two networks, the wider one first. *)
Module PrefixWitness.
Definition range (r : string) : OutboundTrafficMatch := mkOutboundTrafficMatch {[r := None]} 80 "http" ∅ ∅ None.
Definition matchOf (n : string) : OutboundTrafficMatch :=
  if decide (n = "wide") then range "10.0.0.0/8" else range "10.1.0.0/16".
(** Both contain the address. *)
Definition contains (r address : string) : bool := bool_decide (address = "10.1.2.3").

Lemma destination_longest_prefix_witness :
  ∃ tm range' c', destination contains [range "10.1.0.0/16"; range "10.0.0.0/8"] "10.1.2.3" = Some (tm, false) ∧
    is_Some (otm_DestinationIPRanges tm !! range') ∧ contains range' "10.1.2.3" = true ∧
    newCIDR range' = Some c' ∧ (16 ≤ maskOnes c')%Z.
Proof.
  refine (destination_longest_prefix (H := stdpp_order) (H0 := insertion_order) contains matchOf
    ["wide"; "narrow"] ["narrow"; "wide"] "10.1.2.3" "narrow" "10.1.0.0/16" None
    (default (mkCIDR [] (mkIPNet [] [])) (newCIDR "10.1.0.0/16")) _ _ _ _ _ _).
  - vm_compute. reflexivity.
  - intros n Hn. unfold matchOf, range. destruct (decide (n = "wide")); simpl; by rewrite map_size_singleton.
  - right. by left.
  - vm_compute. reflexivity.
  - vm_compute. reflexivity.
  - vm_compute. reflexivity.
Defined.
End PrefixWitness.

(** ** Theorems: the order of the rules *)

(** A path is not less than [.*] when it starts with a slash, and [.*] is less than
    nothing. *)
Lemma path_less_catch_all p : path_less (String "/" p) RegexMatchAll = false ∧
  path_less RegexMatchAll (String "/" p) = false.
Proof. done. Qed.

Lemma insert_sorted_head {A} (less : A → A → bool) x y l :
  less x y = false → ∃ l', insert_sorted less x (y :: l) = y :: l'.
Proof. intros E. cbn [insert_sorted forallb]. rewrite E. eauto. Qed.

(** A rule for every path is not moved behind the others: with the sort that the
    library uses on short lists, an inbound rule with the path [.*] stays in front of rules
    whose paths start with a slash, so that a request that it matches for the same client
    and method never reaches them. *)
Theorem catch_all_stays_first (c : InboundHTTPRouteRule) (rules : list InboundHTTPRouteRule) :
  hmr_Path (matchOf c) = RegexMatchAll → (∀ r, r ∈ rules → ∃ p, hmr_Path (matchOf r) = String "/" p) →
  ∃ rules', sort_rules (H0 := insertion_order) inbound_less (c :: rules) = c :: rules'.
Proof.
  intros Hc Hrules. unfold sort_rules. case_decide as Hlen; [clear Hlen|by eexists]. simpl. unfold insertion_sort. simpl.
  assert (∀ l, ∃ l', foldl (λ l x, insert_sorted inbound_less x l) (c :: l) rules = c :: l') as Hf; [|apply Hf].
  induction rules as [|r rules IH]; intros l; [by eexists|]. cbn [foldl].
  destruct (Hrules r) as [p Hp]; [by left|].
  destruct (insert_sorted_head inbound_less r c l) as [l' ->].
  { unfold inbound_less. rewrite Hp, Hc. apply path_less_catch_all. }
  apply IH. intros r' ?. apply Hrules. by right.
Qed.

(** ** Theorems: weights *)

Definition inMesh (e : WeightedZoneEndpoint) : Prop :=
  wze_Cluster e = "" ∨ wze_LBType e = FailOverLbType ∨ wze_LBType e = ActiveActiveLbType.

Lemma accept_all_nonzero e : wze_Weight (accept_all_if_zero e) ≠ 0%Z.
Proof. unfold accept_all_if_zero. case_decide; [done|done]. Qed.

Lemma rebalanced_nonzero (local : bool) e :
  inMesh e → (wze_Cluster e = "" ∨ local = false) → wze_Weight (rebalancedEndpoint local e) ≠ 0%Z.
Proof.
  intros He Hl. unfold rebalancedEndpoint. destruct (decide (wze_Cluster e ≠ "")) as [Hc|Hc]; [|apply accept_all_nonzero].
  destruct Hl as [?| ->]; [done|]. destruct (decide (wze_LBType e = FailOverLbType)); [done|].
  rewrite decide_True; [apply accept_all_nonzero|]. by destruct He as [?|[?|?]].
Qed.

(** Weights serve: after [balance], a cluster of local, fail-over and active-active
    endpoints that had any endpoint has one that gets traffic; and the fail-over endpoints
    of other clusters get none exactly when there is an endpoint of this cluster. *)
Theorem balance_serves (conf : PipyConf) (otp : OutboundTrafficPolicy) (name : string) (cc : ClusterConfigs) :
  pc_Outbound conf = Some otp → potp_ClustersConfigs otp !! name = Some cc →
  cc_Endpoints cc ≠ ∅ → map_Forall (λ _, inMesh) (cc_Endpoints cc) →
  ∃ otp' cc', pc_Outbound (balance conf) = Some otp' ∧ potp_ClustersConfigs otp' !! name = Some cc' ∧
    map_Exists (λ _ e, wze_Weight e ≠ 0%Z) (cc_Endpoints cc') ∧
    map_Forall (λ _ e, wze_Cluster e ≠ "" → wze_LBType e = FailOverLbType →
      (wze_Weight e = 0%Z ↔ map_Exists (λ _ e, wze_Cluster e = "") (cc_Endpoints cc))) (cc_Endpoints cc').
Proof.
  intros Ho Hcc Hne Hall. unfold balance. simpl. rewrite Ho. simpl.
  eexists _, _. split; [done|]. simpl. rewrite lookup_fmap, Hcc. split; [done|]. simpl. split.
  - destruct (decide (map_Exists (λ _ e, wze_Cluster e = "") (cc_Endpoints cc))) as [(a & e & He & Hl)|Hno].
    + exists a, (rebalancedEndpoint (hasLocal (cc_Endpoints cc)) e). rewrite lookup_fmap, He. split; [done|].
      apply rebalanced_nonzero; [by eapply (Hall a)|by left].
    + destruct (map_choose _ Hne) as (a & e & He).
      exists a, (rebalancedEndpoint (hasLocal (cc_Endpoints cc)) e). rewrite lookup_fmap, He. split; [done|].
      apply rebalanced_nonzero; [by eapply (Hall a)|]. right. by apply bool_decide_false.
  - intros a e'. rewrite lookup_fmap. destruct (cc_Endpoints cc !! a) as [e|] eqn:He; [|done]. intros [= <-].
    unfold rebalancedEndpoint, hasLocal. intros Hc Hlb.
    destruct (decide (wze_Cluster e ≠ "")) as [Hc'|Hc']; [|by unfold accept_all_if_zero in Hc; case_decide].
    destruct (decide (wze_LBType e = FailOverLbType)) as [Hf|Hf].
    + case_bool_decide as Hex; simpl; [|split; [done|by intros ?]]. split; [done|done].
    + destruct (decide (wze_LBType e = ActiveActiveLbType)); [unfold accept_all_if_zero in Hlb; by case_decide|done].
Qed.
