(* ===== verification/PipyMesh.v ===== *)
(** * Two sidecars of the pipy driver

    What the server's sidecar learns about a client, and what it takes from the request.
    The certificate of the peer decides whether a connection is taken at all
    (inbound-tls-termination.js); the identity that the rules are chosen by is the header
    [serviceidentity] of the request (inbound-http-routing.js), which the sidecar of the
    client writes (outbound-http-routing.js) with the identity that the controller put
    into its configuration.  The theorems compose the two sides, and show what is not
    checked between them. *)

From S2P Require Import Prelude GoStrings Net Cidr Identity Service PolicyApi TrafficPolicy K8s.
From S2P Require Import K8sClient KubeProvider Smi PolicyClient Catalog CatalogEgress CatalogInbound.
From S2P Require Import CatalogOutbound CatalogIngress MeshConfig Pipy PipyPlugin PipyServer.
From S2P Require Import PipyInbound PipyOutbound PipySidecar PipyJob.

(** ** Theorems: the certificate of the peer *)

Section tls.
Context (RegExp : string → option (string → bool)) (contains : string → string → bool).

(** The address is in one of the source ranges of the ingresses. *)
Definition fromIngress (tm : InboundTrafficMatch) (remoteAddress : string) : Prop :=
  map_Exists (λ range _, contains range remoteAddress = true) (itm_SourceIPRanges tm).

Lemma elem_of_sourceEntries tm range spec :
  (range, spec) ∈ sourceEntries tm ↔ itm_SourceIPRanges tm !! range = Some spec.
Proof. unfold sourceEntries. by rewrite insertion_sort_perm, elem_of_map_to_list. Qed.

Lemma tlsConfig_None tm remoteAddress : ¬ fromIngress tm remoteAddress → tlsConfig contains tm remoteAddress = None.
Proof.
  intros Hno. unfold tlsConfig. apply first_some_None. intros [range spec] Hin. simpl.
  destruct (contains range remoteAddress) eqn:E; [|done]. destruct Hno. exists range, spec.
  by rewrite elem_of_sourceEntries in Hin.
Qed.

(** Outside the source ranges, a sidecar that has a certificate takes a connection exactly
    from a peer whose certificate is accepted, whatever the names in it. *)
Lemma tlsTermination_mesh certChain tm protocol remoteAddress peer :
  ¬ fromIngress tm remoteAddress → certChain ≠ "" →
  tlsTermination contains certChain tm protocol remoteAddress peer = if peer_ok peer then Secured else HandshakeFailed.
Proof.
  intros Hno Hcert. unfold tlsTermination. rewrite (tlsConfig_None _ _ Hno), bool_decide_true by done. simpl.
  by destruct (peer_ok peer).
Qed.

Lemma inbound_Routed conf certChain quota port remoteAddress peer r route ingress :
  inbound RegExp contains conf certChain quota port remoteAddress peer r = Ret (Routed route ingress) →
  ∃ tm, acceptInbound contains conf quota port remoteAddress = Some (tm, "http") ∧
    portHandler RegExp contains tm remoteAddress r = Ret (route, ingress) ∧
    ingress = bool_decide (fromIngress tm remoteAddress) ∧
    (tlsTermination contains certChain tm "http" remoteAddress peer = Plaintext ∨
     tlsTermination contains certChain tm "http" remoteAddress peer = Secured).
Proof.
  unfold inbound. destruct (acceptInbound _ _ _ _ _) as [[tm protocol]|]; [|done].
  intros Hrest. exists tm. assert (protocol = "http" ∧ portHandler RegExp contains tm remoteAddress r = Ret (route, ingress) ∧
    (tlsTermination contains certChain tm protocol remoteAddress peer = Plaintext ∨
     tlsTermination contains certChain tm protocol remoteAddress peer = Secured)) as (-> & Hp & Ht).
  { revert Hrest. destruct (tlsTermination _ _ _ _ _ _); try done; (case_decide; [|done]);
      intros ([route' ingress'] & Hp & [= <- <-])%bind_Ret; auto. }
  split_and!; [done..| |done]. apply bind_Ret in Hp as (? & _ & [= _ <-]). by apply bool_decide_ext.
Qed.

Lemma acceptInbound_Some conf quota port remoteAddress tm protocol :
  acceptInbound contains conf quota port remoteAddress = Some (tm, protocol) →
  portMatch conf port = Some tm ∧ allowAddress contains conf remoteAddress = true.
Proof.
  unfold acceptInbound, portMatch. intros (tm' & -> & E)%bind_Some. revert E.
  destruct (allowAddress contains conf remoteAddress); [|done]. simpl. destruct (quota || _); [|done].
  case_decide; [done|]. by intros [= <- _].
Qed.

(** The names in a certificate do not matter outside the source ranges: two peers that
    the CA of the mesh accepts get the same for the same request.  So a peer that writes
    the identity of another into the request is given the routes of that other. *)
Theorem peer_names_unused (conf : PipyConf) (certChain : string) (quota : bool) (port : Z) (remoteAddress : string)
    (peer peer' : Peer) (r : Request) :
  (∀ tm protocol, acceptInbound contains conf quota port remoteAddress = Some (tm, protocol) →
    ¬ fromIngress tm remoteAddress) →
  peer_ok peer = peer_ok peer' →
  inbound RegExp contains conf certChain quota port remoteAddress peer r =
    inbound RegExp contains conf certChain quota port remoteAddress peer' r.
Proof.
  intros Hno Hok. unfold inbound. destruct (acceptInbound _ _ _ _ _) as [[tm protocol]|]; [|done].
  specialize (Hno _ _ eq_refl). destruct (decide (certChain = "")) as [->|Hc]; [done|].
  by rewrite !tlsTermination_mesh, Hok by done.
Qed.

(** In a source range with mTLS, and with client validation, a request is routed only when
    a name of the peer is among the principals of the range, if it has any. *)
Theorem ingress_principals_enforced (conf : PipyConf) (certChain : string) (quota : bool) (port : Z)
    (remoteAddress : string) (peer : Peer) (r : Request) (route : option InboundHTTPRouteRule) (ingress : bool)
    (tm : InboundTrafficMatch) (spec : SourceSecuritySpec) :
  inbound RegExp contains conf certChain quota port remoteAddress peer r = Ret (Routed route ingress) →
  acceptInbound contains conf quota port remoteAddress = Some (tm, "http") → certChain ≠ "" →
  tlsConfig contains tm remoteAddress = Some (Some spec) →
  sss_MTLS spec = true → sss_SkipClientCertValidation spec = false → sss_AuthenticatedPrincipals spec ≠ [] →
  peer_ok peer = true ∧
    ∃ name, name ∈ peer_commonName peer :: peer_subjectAltNames peer ∧ name ∈ sss_AuthenticatedPrincipals spec.
Proof.
  intros (tm' & Hacc & _ & _ & Ht)%inbound_Routed Hacc' Hc Hcfg Hm Hs Hp. rewrite Hacc in Hacc'. injection Hacc' as <-.
  revert Ht. unfold tlsTermination. rewrite Hcfg. unfold verify, is_mTLS. rewrite Hm, Hs.
  rewrite !(bool_decide_true (_ ≠ _)) by done. rewrite orb_true_r. rewrite andb_false_r. cbn [andb negb].
  destruct (existsb _ (peer_commonName peer :: _)) eqn:E; cbn [negb]; [|by destruct (peer_ok peer); intros [?|?]].
  apply existsb_exists in E as (name & Hin & Hn%bool_decide_eq_true).
  destruct (peer_ok peer); [|by intros [?|?]]. intros _. split; [done|]. exists name. by rewrite list_elem_of_In.
Qed.
End tls.

(** ** Theorems: the identity in the configuration of a client *)

Section identity.
Context `{RangeOrder}.

(** The rules for a service name the identity of the proxy; those of an egress policy
    name none. *)
Definition names (id : ServiceIdentity) (h : OutboundHTTPRouteRules) : Prop :=
  ohrs_ServiceIdentity h = id ∨ ohrs_ServiceIdentity h = "".
Definition rules_name (id : ServiceIdentity) (tm : OutboundTrafficMatch) : Prop :=
  map_Forall (λ _, names id) (otm_HTTPServiceRouteRules tm).
Definition policy_names (id : ServiceIdentity) (otp : OutboundTrafficPolicy) : Prop :=
  map_Forall (λ _, rules_name id) (potp_namedTrafficMatches otp).
Definition conf_names (id : ServiceIdentity) (conf : PipyConf) : Prop :=
  ∀ otp, pc_Outbound conf = Some otp → policy_names id otp.

Lemma rules_name_same id tm tm' :
  otm_HTTPServiceRouteRules tm' = otm_HTTPServiceRouteRules tm → rules_name id tm → rules_name id tm'.
Proof. unfold rules_name. by intros ->. Qed.

Lemma rules_name_zero id tm : otm_HTTPServiceRouteRules tm = ∅ → rules_name id tm.
Proof. unfold rules_name. intros ->. apply map_Forall_empty. Qed.

Lemma rules_name_put id tm name h : rules_name id tm → names id h → rules_name id (o_putRouteRules tm name h).
Proof. intros. by apply map_Forall_insert_2. Qed.

Lemma policy_names_zero id : policy_names id zero_OutboundTrafficPolicy.
Proof. apply map_Forall_empty. Qed.

Lemma policy_names_put id otp port name tm :
  policy_names id otp → rules_name id tm → policy_names id (o_putTrafficMatch otp port name tm).
Proof. intros. by apply map_Forall_insert_2. Qed.

Lemma new_names id tm name h :
  rules_name id tm → o_newHTTPServiceRouteRules tm name = Some h → names id h.
Proof.
  intros Htm. unfold o_newHTTPServiceRouteRules. case_bool_decide; [done|]. intros [= <-].
  destruct (otm_HTTPServiceRouteRules tm !! name) as [h|] eqn:E; [by apply (Htm name)|]. by right.
Qed.

Lemma open_names id otp m name tm otp' :
  policy_names id otp → openTrafficMatch otp m name = (tm, otp') → rules_name id tm ∧ policy_names id otp'.
Proof.
  intros Hotp. unfold openTrafficMatch, o_newTrafficMatch.
  destruct (potp_namedTrafficMatches otp !! _) as [tm0|] eqn:E; intros [= <- <-]; [split; [by eapply Hotp|done]|].
  split; [by apply rules_name_zero|]. apply map_Forall_insert_2; [by apply rules_name_zero|done].
Qed.

Lemma outboundHTTPConfig_names id plugins acc config acc' :
  rules_name id acc.1 → outboundHTTPConfig id plugins acc config = Ret acc' → rules_name id acc'.1.
Proof.
  destruct acc as [tm depend]. simpl. intros Htm. unfold outboundHTTPConfig.
  destruct (o_newHTTPServiceRouteRules _ _) as [h|] eqn:E; [|done]. intros [= <-]. simpl.
  eapply rules_name_same; [apply addHostnames_same|]. apply rules_name_put; [done|]. by left.
Qed.

Lemma outboundTurn_names id pp pol acc m acc' :
  policy_names id acc.1 → outboundTurn id pp pol acc m = Ret acc' → policy_names id acc'.1.
Proof.
  destruct acc as [otp depend]. simpl. intros Hotp. unfold outboundTurn. set (name := if isHTTPProtocol _ then _ else _).
  destruct (openTrafficMatch otp m name) as [tm0 otp0] eqn:Eo. destruct (open_names _ _ _ _ _ _ Hotp Eo) as [H0 Hotp0].
  set (tm1 := foldl _ tm0 _). assert (rules_name id tm1) as H1 by (eapply rules_name_same; [apply addRanges_same|done]).
  intros ([tm2 depend'] & Hb & [= <-])%bind_Ret. apply policy_names_put; [done|]. revert Hb. clearbody tm1. clear Eo H0.
  destruct (isHTTPProtocol _).
  { unfold outboundHTTP. destruct (trafficMatchToMeshSvc m); [|done].
    destruct (getOutboundHTTPRouteConfigs _ _ _ _); [by intros [= <- _]|]. intros (plugins & _ & Hf)%bind_Ret.
    change tm2 with (tm2, depend').1. revert Hf. apply (foldO_inv _ (λ acc, rules_name id acc.1)); [|done].
    intros acc config acc' _. apply outboundHTTPConfig_names. }
  destruct (isTCPProtocol _).
  { unfold outboundTCP. intros (plugins & _ & [= <- _])%bind_Ret. by eapply rules_name_same. }
  destruct (isHTTPSProtocol _); [|by intros [= <- _]].
  unfold outboundHTTPS. destruct (trafficMatchToMeshSvc m); [|done].
  destruct (getOutboundHTTPRouteConfigs _ _ _ _); [by intros [= <- _]|].
  intros (plugins & _ & [= <- _])%bind_Ret. by eapply rules_name_same.
Qed.

Lemma egressHTTPConfig_names id spec gateway acc config acc' :
  rules_name id acc.1 → egressHTTPConfig spec gateway acc config = Ret acc' → rules_name id acc'.1.
Proof.
  destruct acc as [tm depend]. simpl. intros Htm. unfold egressHTTPConfig.
  destruct (o_newHTTPServiceRouteRules _ _) as [h|] eqn:E; [|done]. intros [= <-]. simpl.
  eapply rules_name_same; [apply addRanges_same|]. eapply rules_name_same; [apply addHostnames_same|].
  apply rules_name_put; [done|]. apply (new_names _ _ _ _ Htm E).
Qed.

Lemma egressTurn_names secrets id pol acc m acc' :
  policy_names id acc.1 → egressTurn secrets pol acc m = Ret acc' → policy_names id acc'.1.
Proof.
  destruct acc as [otp depend]. simpl. intros Hotp. unfold egressTurn.
  destruct (openTrafficMatch otp m (tm_Name m)) as [tm0 otp0] eqn:Eo.
  destruct (open_names _ _ _ _ _ _ Hotp Eo) as [H0 Hotp0]. set (spec := getEgressClusterDestinationSpec _ _ _).
  set (tm1 := foldl _ tm0 _). assert (rules_name id tm1) as H1 by (eapply rules_name_same; [apply addRanges_same|done]).
  clearbody tm1. clear Eo H0. destruct (isHTTPProtocol _).
  { intros ([tm2 depend'] & Hf & [= <-])%bind_Ret. apply policy_names_put; [done|].
    change tm2 with (tm2, depend').1. revert Hf. apply (foldO_inv _ (λ acc, rules_name id acc.1)); [|done].
    intros acc config acc' _. apply egressHTTPConfig_names. }
  destruct (isHTTPSProtocol _); [|destruct (isTCPProtocol _)]; intros [= <-];
    (apply policy_names_put; [done|]); by eapply rules_name_same.
Qed.

(** The balance steps change clusters only. *)
Lemma balanceClusters_names mc id id' pol dep otp acc' :
  policy_names id otp → foldO (balanceCluster mc id' pol) (otp, true) dep = Ret acc' → policy_names id acc'.1.
Proof.
  intros Hotp. apply (foldO_inv _ (λ acc, policy_names id acc.1)); [|done].
  intros [otp0 rdy] c acc1 _ H0. unfold balanceCluster. destruct (getMeshClusterConfigs _ _); [|by intros [= <-]].
  intros (eps & _ & E)%bind_Ret. case_decide; [by injection E as <-|]. by apply bind_Ret in E as (cc & _ & [= <-]).
Qed.

Lemma egressBalanceClusters_names mc secrets id id' pol dep otp acc' :
  policy_names id otp → foldO (egressBalanceCluster mc secrets id' pol) (otp, true) dep = Ret acc' →
  policy_names id acc'.1.
Proof.
  intros Hotp. apply (foldO_inv _ (λ acc, policy_names id acc.1)); [|done].
  intros [otp0 rdy] c acc1 _ H0. unfold egressBalanceCluster. destruct (getEgressClusterConfigs _ _); [|by intros [= <-]].
  by intros (cc & _ & [= <-])%bind_Ret.
Qed.

Lemma policy_names_default id (o : option OutboundTrafficPolicy) :
  (∀ otp, o = Some otp → policy_names id otp) → policy_names id (default zero_OutboundTrafficPolicy o).
Proof. destruct o; simpl; [auto|]. intros _. apply policy_names_zero. Qed.

Lemma jobOutbound_names mc domain hm hc id conf conf' ready :
  conf_names id conf → jobOutbound mc domain hm hc id conf = Ret (conf', ready) → conf_names id conf'.
Proof.
  intros Hconf. unfold jobOutbound.
  intros (pol & _ & ([otp dep] & Hg & ([otp' rdy] & Hb & [= <- _])%bind_Ret)%bind_Ret)%bind_Ret.
  assert (∀ o, otp = Some o → policy_names id o) as Hotp.
  { revert Hg. unfold generatePipyOutboundTrafficRoutePolicy.
    destruct (omtp_TrafficMatches pol) as [|m ms]; [intros [= <- _]; exact Hconf|].
    intros ([o d] & Hf & [= <- _])%bind_Ret o' [= <-]. change o with (o, d).1. revert Hf.
    apply (foldO_inv _ (λ acc, policy_names id acc.1)); [|by apply policy_names_default].
    intros acc m' acc' _. apply outboundTurn_names. }
  intros o Ho. simpl in Ho. case_decide; [injection Hb as <- _; auto|].
  apply bind_Ret in Hb as ([o' r] & Hf & [= <- _]). injection Ho as <-.
  apply (balanceClusters_names mc id id pol _ _ (o', r)) in Hf; [done|]. by apply policy_names_default.
Qed.

Lemma jobEgress_names mc secrets hm hc id conf conf' ready :
  conf_names id conf → jobEgress mc secrets hm hc id conf = Ret (conf', ready) → conf_names id conf'.
Proof.
  intros Hconf. unfold jobEgress. intros ([[pol|]|] & _ & E)%bind_Ret; [|by injection E as <- _..].
  apply bind_Ret in E as ([otp dep] & Hg & ([otp' rdy] & Hb & [= <- _])%bind_Ret).
  assert (∀ o, otp = Some o → policy_names id o) as Hotp.
  { revert Hg. unfold generatePipyEgressTrafficRoutePolicy.
    destruct (etp_TrafficMatches pol) as [|m ms]; [intros [= <- _]; exact Hconf|].
    intros ([o d] & Hf & [= <- _])%bind_Ret o' [= <-]. change o with (o, d).1. revert Hf.
    apply (foldO_inv _ (λ acc, policy_names id acc.1)); [|by apply policy_names_default].
    intros acc m' acc' _. apply egressTurn_names. }
  intros o Ho. simpl in Ho. case_decide; [injection Hb as <- _; auto|].
  apply bind_Ret in Hb as ([o' r] & Hf & [= <- _]). injection Ho as <-.
  apply (egressBalanceClusters_names mc secrets id id pol _ _ (o', r)) in Hf; [done|]. by apply policy_names_default.
Qed.

Lemma reorder_names `{SortOrder} id conf conf' : conf_names id conf → reorder conf = Ret conf' → conf_names id conf'.
Proof.
  intros Hconf. unfold reorder. intros (out & Ho & [= <-])%bind_Ret otp' E. simpl in E. subst out.
  destruct (pc_Outbound conf) as [otp|] eqn:Eo; [|done]. apply bind_Ret in Ho as (o & Hr & [= <-]).
  apply bind_Ret in Hr as (ports & _ & [= <-]). unfold policy_names. simpl.
  apply (foldl_inv _ (map_Forall (λ _, rules_name id))); [|by apply Hconf].
  intros named name Hn k tm Hl. apply lookup_alter_Some in Hl as [(<- & tm0 & Hl & ->)|[_ Hl]]; [|by eapply Hn].
  intros n h Hh. simpl in Hh. rewrite lookup_fmap in Hh.
  destruct (otm_HTTPServiceRouteRules tm0 !! n) as [h0|] eqn:E; [|done]. injection Hh as <-. exact (Hn _ _ Hl n h0 E).
Qed.
End identity.

(** ** Theorems: a request between two sidecars *)

Section run_names.
Context `{RangeOrder, SortOrder} (mc : MeshCatalog) (domain : string).
Context (Matches : labels → labels → bool).
Context {LabelSelector : Type} (LabelSelectorAsSelector : LabelSelector → option (labels → bool)).
Context (secrets : string → string → option (gmap string string)).
Context (hashMatch : TrafficMatch → result string Z) (hashCluster : EgressClusterConfig → result string Z).
Context (parseUUID : string → option string).
Abbreviation Run := (Run mc domain Matches LabelSelectorAsSelector secrets hashMatch hashCluster parseUUID).

(** Every rule for outgoing requests of a configuration names the identity of its proxy,
    or none. *)
Lemma Run_names s proxy conf retry : Run s proxy = Ret (Some (conf, retry)) → conf_names (pxy_Identity proxy) conf.
Proof.
  unfold PipyJob.Run. intros ([svcs|e] & Hsvcs & E)%bind_Ret; [|done].
  apply bind_Ret in E as ([conf0 r0] & Hp & (conf1 & Hi & ([conf2 r2] & Ho & ([conf3 r3] & He & E)%bind_Ret)%bind_Ret)%bind_Ret).
  destruct (jobForward mc conf3) as [conf4 r4] eqn:Hf. apply bind_Ret in E as (conf5 & Hr & E).
  destruct (copyAllowedEndpoints _ _ _ conf5) as [conf6 r6] eqn:Hc. injection E as <- _.
  assert (pc_Outbound conf1 = None) as H1.
  { transitivity (pc_Outbound conf0); [|]; [by apply bind_Ret in Hi as (? & _ & (? & _ & (? & _ & [= <-])%bind_Ret)%bind_Ret)|]. revert Hp. unfold jobPlugin.
    destruct (negb _); [by intros [= <- _]|]. destruct (decide _); [by intros [= <- _]|].
    intros ([pod|e] & _ & E)%bind_Ret; [|by injection E as <- _].
    apply bind_Ret in E as (acc & _ & E). by injection E as <- _. }
  apply jobOutbound_names in Ho; [|intros otp; by rewrite H1].
  apply jobEgress_names in He; [|done].
  assert (pc_Outbound conf4 = pc_Outbound conf3) as H4.
  { revert Hf. unfold jobForward. destruct (GetEgressGatewayPolicy mc); [|by intros [= <- _]].
    destruct (generatePipyEgressTrafficForwardPolicy _ _). by intros [= <- _]. }
  apply (reorder_names (pxy_Identity proxy)) in Hr.
  - revert Hc. unfold copyAllowedEndpoints. destruct (foldl _ _ (ctl_ListPods _)). by intros [= <- _].
  - intros otp. simpl. rewrite H4. intros (otp0 & E & ->)%fmap_Some. exact (He otp0 E).
Qed.
End run_names.

(** The header that a client's sidecar writes on a request it sends on. *)
Lemma outboundPortHandler_identity RegExp id tm r route r' :
  rules_name id tm → outboundPortHandler RegExp tm r = Ret (Some route, r') →
  serviceidentity r' = id ∨ serviceidentity r' = "".
Proof.
  intros Htm. unfold outboundPortHandler.
  destruct (otm_HTTPHostPort2Service tm !! _) as [name|]; [simpl|done].
  destruct (otm_HTTPServiceRouteRules tm !! name) as [service|] eqn:E; [|done].
  intros (methods & _ & (route' & _ & [= -> <-])%bind_Ret)%bind_Ret. unfold serviceidentity. simpl.
  rewrite lookup_insert_eq. apply (Htm _ _ E).
Qed.

Section client.
Context `{RangeOrder, SortOrder} (mc mc' : MeshCatalog) (domain domain' : string).
Context (Matches : labels → labels → bool).
Context {LabelSelector : Type} (LabelSelectorAsSelector : LabelSelector → option (labels → bool)).
Context (secrets secrets' : string → string → option (gmap string string)).
Context (hashMatch hashMatch' : TrafficMatch → result string Z).
Context (hashCluster hashCluster' : EgressClusterConfig → result string Z).
Context (parseUUID : string → option string).
Context `{!MeshSpecOk (mc_kubeController mc) (mc_meshSpec mc)}.
Context (RegExp : string → option (string → bool)) (contains : string → string → bool).

(** C1. Zero trust, from the resources of the cluster to a request between two sidecars: in
    SMI mode, take a request of an application, with whatever headers, that the sidecar of
    a client routes by its configuration, and that reaches the sidecar of a workload from
    outside the source ranges of the ingresses, for a host other than [*], with the
    identity header that the client's sidecar wrote.  The sidecar of the workload gives
    it a route only if the address of the connection is allowed and, when the sidecar has a
    certificate, the certificate of the peer is accepted for the CA of the mesh; and only
    if a TrafficTarget of a monitored namespace has the workload's service account as
    destination, selects an HTTP route that matches the method, the path and the headers
    of the request, and has the identity of the client's proxy among its sources, or has
    no sources at all.  The configuration of the client may be from an earlier state of
    the cluster.  The identity is that of the header: that the client's sidecar wrote it
    is a hypothesis, the scripts do not compare it with the certificate
    ([peer_names_unused]). *)
Theorem client_request_authorised (sa : K8sServiceAccount) (s s' : @Server LabelSelector)
    (server client : PipyProxy) (conf conf' : PipyConf) (retry retry' : bool)
    (key : string) (otp : OutboundTrafficPolicy) (otm : OutboundTrafficMatch) (sent routed received : Request)
    (oroute : HTTPRouteRule) (certChain : string) (quota : bool) (port : Z) (remoteAddress : string) (peer : Peer)
    (route : InboundHTTPRouteRule) :
  cfg_IsPermissiveTrafficPolicyMode (mc_configurator mc) = false → sa_dotless sa → sa_Name sa ≠ "" →
  pxy_Identity server = ToServiceIdentity sa →
  Run mc domain Matches LabelSelectorAsSelector secrets hashMatch hashCluster parseUUID s server = Ret (Some (conf, retry)) →
  Run mc' domain' Matches LabelSelectorAsSelector secrets' hashMatch' hashCluster' parseUUID s' client = Ret (Some (conf', retry')) →
  pc_Outbound conf' = Some otp → potp_namedTrafficMatches otp !! key = Some otm →
  outboundPortHandler RegExp otm sent = Ret (Some oroute, routed) →
  serviceidentity received = serviceidentity routed →
  inbound RegExp contains conf certChain quota port remoteAddress peer received = Ret (Routed (Some route) false) →
  req_headers received !! "host" ≠ Some "*" →
  allowAddress contains conf remoteAddress = true ∧ (certChain ≠ "" → peer_ok peer = true) ∧
  ∃ t m, authorises mc sa t m ∧ req_method received ∈ allowedMethods (newHTTPMatch m) ∧
    requestMatches RegExp (newHTTPMatch m) received = Ret true ∧
    (tt_Sources t = [] ∨ ∃ src, src ∈ tt_Sources t ∧
       pxy_Identity client = ToServiceIdentity (trafficTargetIdentityToSvcAccount src)).
Proof using MeshSpecOk0.
  intros Hsmi Hsa Hname Hid Hrun Hrun' Hotp Hotm Hout Hsi Hin Hhost.
  apply inbound_Routed in Hin as (tm & Hacc & Hport & Hing & Htls).
  symmetry in Hing. apply bool_decide_eq_false in Hing.
  apply acceptInbound_Some in Hacc as [Htm Hallow]. split_and!; [done| |].
  { intros Hcert. rewrite tlsTermination_mesh in Htls by done. by destruct (peer_ok peer), Htls. }
  destruct (request_authorised mc domain Matches LabelSelectorAsSelector secrets hashMatch hashCluster parseUUID
    sa s server conf retry Hsmi Hsa Hname Hid Hrun RegExp contains port tm remoteAddress received route Htm Hport Hhost)
    as (t & m & Ht & Hme & Hma & Hsrc).
  exists t, m. split_and!; [done..|]. destruct Hsrc as [?|(src & Hsrc & Es)]; [by left|]. right. exists src.
  split; [done|]. rewrite Hsi in Es.
  destruct (outboundPortHandler_identity RegExp (pxy_Identity client) otm sent oroute routed) as [E|E]; [|done|congruence|].
  - by apply (Run_names _ _ _ _ _ _ _ _ _ _ _ _ Hrun' otp Hotp key).
  - rewrite E in Es. by destruct (ToServiceIdentity_not_empty (trafficTargetIdentityToSvcAccount src)).
Qed.
End client.
