(* ===== verification/PipyCert.v ===== *)
(** * pkg/sidecar/providers/pipy/repo: the certificate and the publication

    [certs] and [publishSidecarConf] of jobs.go, with pkg/utils/stringhash.go: a job gets a
    certificate for the identity of its sidecar, for which it waits, and puts the
    configuration in the repository if it differs from what is there.

    The loop of [certs] has no bound; [certLoop] runs a given number of its turns.  Its
    turns are not interleaved with other calls of the manager.  The JSON of a
    configuration, the layout of a date, and the answers of the client of the repository
    are parameters. *)

From S2P Require Import Prelude GoStrings Identity Service K8s Certificate CertIssuers Pipy PipyServer.

#[local] Open Scope Z_scope.

(** ** certs *)

(** What a turn of the loop reads: the call that issues, and the clock and the noise of
    [ShouldRotate] after it. *)
Record turn := mkTurn {
  turn_issue : moment;
  turn_now : Z;
  turn_noise : Z;
}.

Definition certOptions (sans : list string) (certValidityPeriod : Z) : list IssueOption :=
  [SubjectAlternativeNames sans; ValidityDurationProvided (Some certValidityPeriod)].

(** The certificate, or none if the loop has not ended in [fuel] turns. *)
Fixpoint certLoop (fuel : nat) (turns : nat → turn) (n : nat) (m : Manager) (cnPrefix : string) (sans : list string)
    (certValidityPeriod : Z) : outcome (Manager * option MeshCertificate) :=
  match fuel with
  | O => Ret (m, None)
  | S fuel =>
    '(m, r, _) ← issueCertificate m (turn_issue (turns n)) cnPrefix CertType_Service (certOptions sans certValidityPeriod);
    match r with
    | Err _ => certLoop fuel turns (S n) m cnPrefix sans certValidityPeriod
    | Ok sidecarCert =>
      rotate ← ShouldRotate m (turn_now (turns n)) (turn_noise (turns n)) sidecarCert;
      if rotate : bool then certLoop fuel turns (S n) m cnPrefix sans certValidityPeriod
      else Ret (m, Some sidecarCert)
    end
  end.

(** The alternative names: the host names of the services of the proxy. *)
Definition certSANs (trustDomain : string) (proxyServices : list MeshService) : list string :=
  proxyServices ≫= λ proxySvc, GetHostnamesForService trustDomain proxySvc true.

(** [certs]: the second component is the new [proxy.SidecarCert], or none if the job is
    still in the loop. *)
Definition certs (fuel : nat) (turns : nat → turn) (now noise : Z) (disabledMTLS : bool) (validity : Z) (trustDomain : string)
    (m : Manager) (identity : ServiceIdentity) (SidecarCert : option MeshCertificate) (proxyServices : list MeshService) :
    outcome (Manager * option (option MeshCertificate)) :=
  if disabledMTLS then Ret (m, Some None)
  else
    let cnPrefix := identity in
    let SidecarCert := match SidecarCert with None => getFromCache m cnPrefix | Some c => Some c end in
    rotate ← match SidecarCert with None => Ret true | Some c => ShouldRotate m now noise c end;
    if (rotate : bool) then
      let certExpiration := now + validity in
      let certValidityPeriod := Until certExpiration now in
      '(m, c) ← certLoop fuel turns 0 m cnPrefix (certSANs trustDomain proxyServices) certValidityPeriod;
      Ret (m, match c with Some c => Some (Some c) | None => None end)
    else Ret (m, Some SidecarCert).

(** ** publishSidecarConf *)

(** [HashFromString]: FNV-1 on 64 bits. *)
Definition fnv_offset : Z := 14695981039346656037.
Definition fnv_prime : Z := 1099511628211.

Fixpoint fnv (h : Z) (s : string) : Z :=
  match s with
  | EmptyString => h
  | String c s => fnv (Z.lxor ((h * fnv_prime) `mod` 2 ^ 64) (Z.of_nat (nat_of_ascii c))) s
  end.

Definition HashFromString (s : string) : Z := fnv fnv_offset s.

(** The certificate of a configuration. *)
Definition confCertificate (format : Z → string) (c : MeshCertificate) : Certificate :=
  mkCertificate None (Some (cert_CommonName c)) [] (format (cert_Expiration c)) (cert_CertChain c) (cert_PrivateKey c)
    (cert_IssuingCA c).

(** A configuration with the fields that only the publication sets. *)
Record PublishedConf := mkPublishedConf {
  pub_Ts : option Z;
  pub_Version : option string;
  pub_Certificate : option Certificate;
  pub_conf : PipyConf;
}.

(** The calls of the client of the repository. *)
Inductive RepoCall :=
| DeriveCodebase (codebase base : string) (version : Z)
| Batch (version basepath filename : string) (content : PublishedConf)
| DeleteCodebase (codebase : string).

Section publish.
Context (format : Z → string).
(** The JSON of a configuration, if it has one. *)
Context (Marshal : PublishedConf → option string).
Context (osmSidecarCodebase osmCodebaseRepo : string).

Definition osmCodebaseConfig : string := "config.json".

(** [derive] and [batch] are the answers of the client: success and whether there is an
    error.  The new [proxy.ETag], and the calls. *)
Definition publishSidecarConf (derive : bool * bool) (batch : bool) (ts : Z) (cnPrefix : string) (ETag : Z)
    (SidecarCert : option MeshCertificate) (pipyConf : PipyConf) (pluginSetV : string) : Z * list RepoCall :=
  let certificate := confCertificate format <$> SidecarCert in
  match Marshal (mkPublishedConf None None certificate pipyConf) with
  | None => (ETag, [])
  | Some bytes =>
    let codebaseCurV := HashFromString (bytes +:+ pluginSetV) in
    if decide (codebaseCurV = ETag) then (ETag, [])
    else
      let codebase := osmSidecarCodebase +:+ "/" +:+ cnPrefix in
      let '(success, err) := derive in
      let derived := [DeriveCodebase codebase osmCodebaseRepo (uint64 (codebaseCurV - 2))] in
      let '(err, calls) :=
        if success : bool
        then (batch, derived ++ [Batch (itoa (uint64 (codebaseCurV - 1))) codebase osmCodebaseConfig
                                   (mkPublishedConf (Some ts) (Some (itoa codebaseCurV)) certificate pipyConf)])
        else (err, derived) in
      if err || negb success then (ETag, calls ++ [DeleteCodebase codebase])
      else (codebaseCurV, calls)
  end.
End publish.

(** ** Theorems: waiting for a certificate *)

(** The turns of the loop, from the turn [n] on: the readings of the clock do not
    decrease, a turn comes at least five seconds after the one before, the noise is in its
    range, and a call of the issuer takes at most [d]. *)
Definition turns_ok (turns : nat → turn) (d : Z) : Prop :=
  ∀ n, let t := turns n in
    at_now (turn_issue t) ≤ at_issue (turn_issue t) ≤ turn_now t ∧
    turn_now t ≤ at_issue (turn_issue t) + d ∧
    0 ≤ at_noise (turn_issue t) < noiseSeconds ∧ 0 ≤ turn_noise t < noiseSeconds ∧
    turn_now t + 5 * second ≤ at_now (turn_issue (turns (S n))).

(** A turn that has to issue: the certificate is that of the issuer. *)
Lemma issue_new_cert m at_ cnPrefix sans v m' c pub :
  issuers_are good m → mgr_cache m !! cnPrefix = None ∨
    (∃ c0, mgr_cache m !! cnPrefix = Some c0 ∧ ShouldRotate m (at_now at_) (at_noise at_) c0 = Ret true) →
  issueCertificate m at_ cnPrefix CertType_Service (certOptions sans v) = Ret (m', Ok c, pub) →
  issuers_are good m' ∧ mgr_cache m' !! cnPrefix = Some c ∧ cert_Expiration c = at_issue at_ + v ∧
  ∃ s w, mgr_signingIssuer m' = Some s ∧ mgr_validatingIssuer m' = Some w ∧
    cert_signingIssuerID c = iss_ID s ∧ cert_validatingIssuerID c = iss_ID w.
Proof.
  intros Hg Hc E%issueCertificate_result.
  inversion E as [c1 Hc1 Hrot1| |s w sans' newCert Hs Hw _ _ o Hiss]; subst; [destruct Hc as [?|(? & ? & ?)]; congruence|].
  destruct Hg as (s' & w' & Hs' & Hw' & [L A] & G). assert (s' = s) as -> by congruence. assert (w' = w) as -> by congruence.
  unfold lawful in L. rewrite issued_as_Expiration, (issued_expiration _ _ _ _ _ _ Hiss).
  split_and!; [by exists s, w|apply lookup_insert_eq|done|]. by exists s, w.
Qed.

(** Issued in a turn, it ends the loop if it lasts long enough. *)
Lemma fresh_ShouldRotate m c now noise s w :
  mgr_signingIssuer m = Some s → mgr_validatingIssuer m = Some w →
  cert_signingIssuerID c = iss_ID s → cert_validatingIssuerID c = iss_ID w →
  0 ≤ noise < noiseSeconds → now + RenewBeforeCertExpires + (noiseSeconds - 1) * second < cert_Expiration c →
  ShouldRotate m now noise c = Ret false.
Proof.
  intros Hs Hw Es Ew Hn Hexp. destruct (ShouldRotate_returns m now noise c) as [[] E]; [by exists s, w| |done]. exfalso.
  revert E. unfold ShouldRotate. rewrite Hs, Hw, Es, Ew. case_bool_decide as Hu.
  - apply Until_le in Hu; unfold RenewBeforeCertExpires, noiseSeconds, second in *; lia.
  - rewrite decide_False by tauto. intros [= E%bool_decide_eq_true_1]. done.
Qed.

Section wait.
Context (turns : nat → turn) (d v : Z) (cnPrefix : string) (sans : list string).
Hypothesis Hturns : turns_ok turns d.

(** Longer than the renewal period with its greatest noise and the time of a call. *)
Hypothesis Hlong : RenewBeforeCertExpires + (noiseSeconds - 1) * second + d < v.

(** A turn that has to issue is the last one. *)
Lemma turn_issues n m fuel :
  issuers_are good m → mgr_cache m !! cnPrefix = None ∨
    (∃ c0, mgr_cache m !! cnPrefix = Some c0 ∧
      ShouldRotate m (at_now (turn_issue (turns n))) (at_noise (turn_issue (turns n))) c0 = Ret true) →
  ∃ m' c, certLoop (S fuel) turns n m cnPrefix sans v = Ret (m', Some c) ∧
    mgr_cache m' !! cnPrefix = Some c ∧ turn_now (turns n) + RenewBeforeCertExpires < cert_Expiration c.
Proof using Hturns Hlong.
  intros Hg Hc. destruct (Hturns n) as (Ht & Hd & Hn & Hn' & _).
  destruct (issueCertificate_returns m (turn_issue (turns n)) cnPrefix CertType_Service (certOptions sans v)) as (m1 & c & pub & E).
  { by eapply issuers_are_mono, Hg; intros ? []. }
  destruct (issue_new_cert _ _ _ _ _ _ _ _ Hg Hc E) as (Hg1 & Hc1 & Hexp & s & w & Hs & Hw & Es & Ew).
  exists m1, c. cbn [certLoop]. rewrite E. simpl.
  rewrite (fresh_ShouldRotate m1 c (turn_now (turns n)) (turn_noise (turns n)) s w); [|done..|lia].
  simpl. split_and!; [done..|]. unfold noiseSeconds, second in *. lia.
Qed.

(** Two turns are enough: a certificate that the first one finds in the cache, and that is
    to be rotated a moment later, is replaced by the second. *)
Lemma certLoop_returns n m :
  issuers_are good m →
  ∃ m' c, certLoop 2 turns n m cnPrefix sans v = Ret (m', Some c) ∧
    mgr_cache m' !! cnPrefix = Some c ∧ turn_now (turns n) + RenewBeforeCertExpires < cert_Expiration c.
Proof using Hturns Hlong.
  intros Hg. pose proof Hg as (s & w & Hs & Hw & _). destruct (Hturns n) as (Ht & Hd & Hn & Hn' & Hnext).
  destruct (mgr_cache m !! cnPrefix) as [c0|] eqn:Ec; [|by apply turn_issues; auto].
  destruct (ShouldRotate_returns m (at_now (turn_issue (turns n))) (at_noise (turn_issue (turns n))) c0) as [[] E];
    [by exists s, w|apply turn_issues; eauto|].
  assert (issueCertificate m (turn_issue (turns n)) cnPrefix CertType_Service (certOptions sans v) = Ret (m, Ok c0, [])) as Ei.
  { unfold issueCertificate, getFromCache. by rewrite Ec, E. }
  pose proof E as (_ & s' & w' & Hs' & Hw' & Es & Ew)%ShouldRotate_false; [|done].
  destruct (ShouldRotate_returns m (turn_now (turns n)) (turn_noise (turns n)) c0) as [[] E']; [by exists s, w| |].
  - destruct (turn_issues (S n) m 0) as (m' & c & El & Hc' & Hexp); [done| |].
    + right. exists c0. split; [done|]. destruct (Hturns (S n)) as (_ & _ & Hn2 & _).
      apply (ShouldRotate_true m s w); [done..|]. left.
      destruct (decide (turn_now (turns n) + RenewBeforeCertExpires + (noiseSeconds - 1) * second < cert_Expiration c0)) as [Hgt|].
      * rewrite (fresh_ShouldRotate m c0 _ _ s' w') in E'; done.
      * unfold noiseSeconds, second in *. lia.
    + exists m', c. cbn [certLoop]. rewrite Ei. simpl. rewrite E'. simpl. split_and!; [exact El|done|].
      destruct (Hturns (S n)) as (? & _). unfold second in *. lia.
  - exists m, c0. cbn [certLoop]. rewrite Ei. simpl. rewrite E'. split_and!; [done..|].
    apply ShouldRotate_false in E' as [Hexp _]; [|done]. unfold second in *. lia.
Qed.
End wait.

Lemma Until_add now v : is_int64 v → Until (now + v) now = v.
Proof. unfold Until, is_int64. lia. Qed.

(** C21. A job gets the certificate of its sidecar in at most two turns of its loop, when the
    issuers do not fail and the validity period is longer than 34 seconds plus the time of
    a call.  Unless mTLS is disabled it ends with a certificate that expires after the
    renewal period. *)
Theorem certs_returns (turns : nat → turn) (d now noise v : Z) (trustDomain : string) (m : Manager)
    (identity : ServiceIdentity) (SidecarCert : option MeshCertificate) (proxyServices : list MeshService) :
  issuers_are good m → turns_ok turns d → now ≤ turn_now (turns 0%nat) → 0 ≤ noise < noiseSeconds →
  is_int64 v → RenewBeforeCertExpires + (noiseSeconds - 1) * second + d < v →
  ∃ m' c, certs 2 turns now noise false v trustDomain m identity SidecarCert proxyServices = Ret (m', Some (Some c)) ∧
    now + RenewBeforeCertExpires < cert_Expiration c.
Proof.
  intros Hg Hturns Hnow Hn Hv Hlong. unfold certs. rewrite Until_add by done.
  set (cert0 := match SidecarCert with None => _ | Some _ => _ end).
  assert (∃ m' c, ('(m, c) ← certLoop 2 turns 0 m identity (certSANs trustDomain proxyServices) v;
      Ret (m, match c with Some c => Some (Some c) | None => None end)) = Ret (m', Some (Some c)) ∧
    now + RenewBeforeCertExpires < cert_Expiration c) as Hloop.
  { destruct (certLoop_returns turns d v identity (certSANs trustDomain proxyServices) Hturns Hlong 0 m Hg)
      as (m' & c & -> & _ & Hexp). exists m', c. split; [done|]. lia. }
  destruct cert0 as [c|]; [|exact Hloop].
  destruct (ShouldRotate_returns m now noise c) as [[] E]; [by eapply issuers_are_mono, Hg| |]; rewrite E; [exact Hloop|].
  exists m, c. split; [done|]. apply ShouldRotate_false in E as [Hexp _]; [|done]. unfold second in *. lia.
Qed.

(** A certificate that lasts no longer than the renewal period is to be rotated at once. *)
Lemma certLoop_spins turns d v cnPrefix sans fuel n m :
  turns_ok turns d → v ≤ RenewBeforeCertExpires → issuers_are good m →
  (∀ c, mgr_cache m !! cnPrefix = Some c → cert_Expiration c ≤ at_now (turn_issue (turns n)) + RenewBeforeCertExpires) →
  ∃ m', certLoop fuel turns n m cnPrefix sans v = Ret (m', None).
Proof.
  intros Hturns Hv. revert n m. induction fuel as [|fuel IH]; intros n m Hg Hc; [by exists m|].
  destruct (Hturns n) as (Ht & Hd & Hn & Hn' & Hnext). pose proof Hg as (s & w & Hs & Hw & _).
  destruct (issueCertificate_returns m (turn_issue (turns n)) cnPrefix CertType_Service (certOptions sans v)) as (m1 & c & pub & E).
  { by eapply issuers_are_mono, Hg; intros ? []. }
  assert (mgr_cache m !! cnPrefix = None ∨ ∃ c0, mgr_cache m !! cnPrefix = Some c0 ∧
    ShouldRotate m (at_now (turn_issue (turns n))) (at_noise (turn_issue (turns n))) c0 = Ret true) as Hissue.
  { destruct (mgr_cache m !! cnPrefix) as [c0|] eqn:Ec; [right|by left]. exists c0. split; [done|].
    apply (ShouldRotate_true m s w); [done..|]. left. pose proof (Hc c0 eq_refl). unfold second in *. lia. }
  destruct (issue_new_cert _ _ _ _ _ _ _ _ Hg Hissue E) as (Hg1 & Hc1 & Hexp & s1 & w1 & Hs1 & Hw1 & _).
  cbn [certLoop]. rewrite E. simpl. rewrite (ShouldRotate_true m1 s1 w1); [|done..|left; unfold second in *; lia]. simpl.
  apply IH; [done|]. intros c' Hc'. assert (c' = c) as -> by congruence. unfold second in *. lia.
Qed.

Lemma certs_spin (turns : nat → turn) (d now noise v : Z) (trustDomain : string) (m : Manager)
    (identity : ServiceIdentity) (proxyServices : list MeshService) (fuel : nat) :
  issuers_are good m → turns_ok turns d → is_int64 v → v ≤ RenewBeforeCertExpires → mgr_cache m !! identity = None →
  ∃ m', certs fuel turns now noise false v trustDomain m identity None proxyServices = Ret (m', None).
Proof.
  intros Hg Hturns Hv Hle Hc. unfold certs, getFromCache. rewrite Until_add, Hc by done. simpl.
  destruct (certLoop_spins turns d v identity (certSANs trustDomain proxyServices) fuel 0 m) as (m' & ->); [done..| |by exists m'].
  intros c. by rewrite Hc.
Qed.

(** With a validity period of at most 30 seconds a job never gets the certificate of a
    new sidecar: no number of turns ends its loop, although no call of the issuer fails. *)
Theorem certs_never_return (turns : nat → turn) (d now noise v : Z) (trustDomain : string) (m : Manager)
    (identity : ServiceIdentity) (proxyServices : list MeshService) (fuel : nat) :
  issuers_are good m → turns_ok turns d → is_int64 v → v ≤ RenewBeforeCertExpires → mgr_cache m !! identity = None →
  ∃ m', certs fuel turns now noise false v trustDomain m identity None proxyServices = Ret (m', None).
Proof. apply certs_spin. Qed.

(** ** Theorems: the announcement of a rotation *)

Lemma isCNforProxy_identity p td :
  returns (ToK8sServiceAccount (pxy_Identity p)) → isCNforProxy p (pxy_Identity p +:+ "." +:+ td) = Ret true.
Proof.
  unfold isCNforProxy, ToK8sServiceAccount. destruct (split "." (pxy_Identity p)) as [|a [|b l]] eqn:E; [by intros []..|]. intros _.
  change ("." +:+ td) with (String "." td). rewrite split_app, E. simpl. destruct (l ++ split "." td) as [|x k] eqn:Ek.
  - apply app_eq_nil in Ek as [_ Ek]. by apply split_ne_nil in Ek.
  - simpl. by rewrite bool_decide_eq_true_2.
Qed.

(** C23. A rotation reaches the sidecars it concerns: when a check replaces the certificate
    that the jobs of an identity use, which has the identity as its key, the new
    certificate is announced, and every session of that identity takes the announcement
    to be for it. *)
Theorem rotation_reaches_proxy `{RangeOrder} (m : Manager) (ats : nat → moment) (p : PipyProxy) (c : MeshCertificate) :
  issuers_are good m → returns (ToK8sServiceAccount (pxy_Identity p)) →
  mgr_cache m !! pxy_Identity p = Some c → cert_CommonName c ≠ pxy_Identity p →
  ∃ m' pub c', checkAndRotate m ats = Ret (m', pub) ∧ mgr_cache m' !! pxy_Identity p = Some c' ∧
    (c' = c ∨ (c, c') ∈ pub ∧ isCNforProxy p (cert_CommonName c') = Ret true).
Proof.
  intros Hg Hsa Hc Hne.
  destruct (rotateAll_spec ats (range_map (mgr_cache m)) m 0 Hg) as (m' & pub & E & _ & _ & _ & Ht & _);
    [apply NoDup_fst_range_map|by intros k c' ?%elem_of_range_map|].
  destruct (Ht (pxy_Identity p) c) as (i & c' & Hc' & Hturn); [by apply elem_of_range_map|].
  exists m', pub, c'. split_and!; [done..|].
  destruct Hturn as [[_ ->]|(_ & Hp & s & v & _ & _ & Hcn & _)]; [by left|right]. split; [done|].
  rewrite Hcn, decide_False by done. by apply isCNforProxy_identity.
Qed.

(** ** Theorems: the publication *)

(** The trust context of the certificate, which has both roots while the root of the mesh
    is rotated, is not part of what a sidecar gets. *)
Lemma confCertificate_one_root format c root : confCertificate format (newMergedWithRoot c root) = confCertificate format c.
Proof. done. Qed.

(** A configuration that was published is not published again: the next job makes no call.
    When the publication fails the code base is deleted and the next job tries again. *)
Theorem publishSidecarConf_settles format Marshal sidecars repo derive batch derive' batch' ts ts' cn ETag cert conf v :
  let r := publishSidecarConf format Marshal sidecars repo derive batch ts cn ETag cert conf v in
  let again := publishSidecarConf format Marshal sidecars repo derive' batch' ts' cn r.1 cert conf v in
  r.2 ≠ [] →
  if derive.1 && negb batch then again = (r.1, [])
  else r.1 = ETag ∧ last r.2 = Some (DeleteCodebase (sidecars +:+ "/" +:+ cn)) ∧ again.2 ≠ [].
Proof.
  cbn zeta. destruct derive as [success err], derive' as [success' err']. unfold publishSidecarConf.
  destruct (Marshal _) as [bytes|]; [|done]. set (h := HashFromString _). destruct (decide (h = ETag)) as [|Hne]; [done|].
  intros _. destruct success, batch; simpl; rewrite ?orb_true_r; simpl.
  - rewrite decide_False by done. split_and!; [done..|]. by destruct success', batch', err'.
  - by rewrite decide_True.
  - rewrite decide_False by done. split_and!; [done..|]. by destruct success', batch', err'.
  - rewrite decide_False by done. split_and!; [done..|]. by destruct success', batch', err'.
Qed.

(** ** Examples *)

Module PipyCertWitness.
Import CertWitness.
#[local] Existing Instance stdpp_order.

(** A turn every six seconds, in which the issuer takes a second. *)
Definition turns (n : nat) : turn :=
  let s := 6 * Z.of_nat n in
  mkTurn (mkMoment (s * second) 4 (s * second) (60 * second) (60 * second) n) ((s + 1) * second) 4.

Lemma turns_are_ok : turns_ok turns second.
Proof.
  intros n. unfold turns, noiseSeconds. cbn [turn_issue turn_now turn_noise at_now at_issue at_noise].
  unfold second. lia.
Qed.

Lemma manager_good : issuers_are good manager.
Proof.
  exists (tresor_issuer "a"), (tresor_issuer "a"). split_and!; [reflexivity|reflexivity|apply tresor_good|apply tresor_good].
Qed.

Lemma certs_returns_witness :
  ∃ m' c, certs 2 turns 0 0 false (60 * second) "cluster.local" manager "web.shop" None [] = Ret (m', Some (Some c)) ∧
    0 + RenewBeforeCertExpires < cert_Expiration c.
Proof.
  apply (certs_returns turns second 0 0 (60 * second) "cluster.local" manager "web.shop" None []);
    [exact manager_good|exact turns_are_ok|vm_compute; discriminate|split; [lia|reflexivity]|split; [vm_compute; discriminate|reflexivity]|reflexivity].
Defined.

Lemma certs_never_return_witness :
  ∃ m', certs 20 turns 0 0 false (30 * second) "cluster.local" manager "web.shop" None [] = Ret (m', None).
Proof.
  apply (certs_never_return turns second 0 0 (30 * second) "cluster.local" manager "web.shop" [] 20);
    [exact manager_good|exact turns_are_ok|split; [vm_compute; discriminate|reflexivity]|reflexivity|reflexivity].
Defined.

Definition proxy : PipyProxy := mkPipyProxy "u" "web.shop" None None.
Definition web_cert : MeshCertificate := default (root "") (mgr_cache stocked !! "web.shop").

Lemma rotation_reaches_proxy_witness :
  let ats i := at_second (40 + Z.of_nat i) 1 (10 + i) in
  ∃ m' pub c', checkAndRotate stocked ats = Ret (m', pub) ∧ mgr_cache m' !! pxy_Identity proxy = Some c' ∧
    (c' = web_cert ∨ (web_cert, c') ∈ pub ∧ isCNforProxy proxy (cert_CommonName c') = Ret true).
Proof.
  intros ats. apply (rotation_reaches_proxy stocked ats proxy web_cert).
  - exists (tresor_issuer "a"), (tresor_issuer "a"). split_and!; [reflexivity|reflexivity|apply tresor_good|apply tresor_good].
  - by eexists.
  - reflexivity.
  - apply (bool_decide_unpack _). vm_compute. exact I.
Defined.
End PipyCertWitness.
