(* ===== verification/Scheduling.v ===== *)
(** * pkg/workerpool and pkg/ticker: the scheduling of work

    workerpool.go, the pool of goroutines that runs the jobs of the sidecars, and
    ticker.go, which triggers a periodic update of all of them.  Both are step relations on
    the state of their goroutines: a step is what a goroutine does up to the next operation
    on a channel or a shared field. *)

From S2P Require Import Prelude GoStrings GoTime Identity Service K8s MeshConfig.
From S2P Require Import Certificate CertIssuers PipyCert.

#[local] Open Scope Z_scope.

(** ** The worker pool *)

Section pool.
Context {Job : Type}.

Inductive Worker :=
| Waiting
| Working (j : Job)
| Returned.

(** [jobs] is a buffered channel with place for [nWorkers] jobs, [stop] whether that channel
    is closed, and [workers] what [wg] counts.  The last fields record what was added,
    started and finished, in that order. *)
Record WorkerPool := mkWorkerPool {
  wp_nWorkers : Z;
  wp_jobs : list Job;
  wp_stop : bool;
  wp_workers : list Worker;
  wp_added : list Job;
  wp_started : list Job;
  wp_finished : list Job;
}.

(** [make] panics for a negative number of workers. *)
Definition NewWorkerPool (GOMAXPROCS nWorkers : Z) : outcome WorkerPool :=
  let nWorkers := if decide (nWorkers = 0) then GOMAXPROCS else nWorkers in
  if decide (nWorkers < 0) then Panic
  else Ret (mkWorkerPool (uint64 nWorkers) [] false (replicate (Z.to_nat nWorkers) Waiting) [] [] []).

Definition GetWorkerNumber (wp : WorkerPool) : Z := int64 (wp_nWorkers wp).

(** The send of [AddJob]; it blocks while the channel is full. *)
Definition AddJob (wp : WorkerPool) (job : Job) : option WorkerPool :=
  if decide (Z.of_nat (length (wp_jobs wp)) < wp_nWorkers wp) then
    Some (mkWorkerPool (wp_nWorkers wp) (wp_jobs wp ++ [job]) (wp_stop wp) (wp_workers wp)
            (wp_added wp ++ [job]) (wp_started wp) (wp_finished wp))
  else None.

(** [Stop] closes the channel, which panics the second time, and returns when all workers
    have returned. *)
Definition Stop (wp : WorkerPool) : outcome WorkerPool :=
  if wp_stop wp then Panic
  else Ret (mkWorkerPool (wp_nWorkers wp) (wp_jobs wp) true (wp_workers wp) (wp_added wp) (wp_started wp) (wp_finished wp)).
Definition stopReturns (wp : WorkerPool) : Prop := Forall (eq Returned) (wp_workers wp).

(** The select of [work], for worker [i]: both cases can be ready. *)
Inductive work (ends : Job → Prop) (i : nat) (wp : WorkerPool) : WorkerPool → Prop :=
| work_start j jobs :
  wp_workers wp !! i = Some Waiting → wp_jobs wp = j :: jobs →
  work ends i wp (mkWorkerPool (wp_nWorkers wp) jobs (wp_stop wp) (<[i := Working j]> (wp_workers wp))
                    (wp_added wp) (wp_started wp ++ [j]) (wp_finished wp))
| work_finish j :
  wp_workers wp !! i = Some (Working j) → ends j →
  work ends i wp (mkWorkerPool (wp_nWorkers wp) (wp_jobs wp) (wp_stop wp) (<[i := Waiting]> (wp_workers wp))
                    (wp_added wp) (wp_started wp) (wp_finished wp ++ [j]))
| work_stop :
  wp_workers wp !! i = Some Waiting → wp_stop wp = true →
  work ends i wp (mkWorkerPool (wp_nWorkers wp) (wp_jobs wp) (wp_stop wp) (<[i := Returned]> (wp_workers wp))
                    (wp_added wp) (wp_started wp) (wp_finished wp)).

(** A step of the pool or of a caller. *)
Inductive pool_step (ends : Job → Prop) (wp : WorkerPool) : WorkerPool → Prop :=
| pool_add job wp' : AddJob wp job = Some wp' → pool_step ends wp wp'
| pool_stop wp' : Stop wp = Ret wp' → pool_step ends wp wp'
| pool_work i wp' : work ends i wp wp' → pool_step ends wp wp'.

(** ** Theorems on the pool *)

Definition working (wp : WorkerPool) : list Job :=
  omap (λ w, match w with Working j => Some j | _ => None end) (wp_workers wp).

(** Jobs start in the order of [AddJob], each once; those that started are finished or at a
    worker; and neither the channel nor the workers hold more than [nWorkers]. *)
Record pool_ok (wp : WorkerPool) : Prop := {
  po_fifo : wp_added wp = wp_started wp ++ wp_jobs wp;
  po_started : wp_started wp ≡ₚ wp_finished wp ++ working wp;
  po_queue : Z.of_nat (length (wp_jobs wp)) ≤ wp_nWorkers wp;
  po_workers : Z.of_nat (length (wp_workers wp)) = wp_nWorkers wp;
  po_returned : wp_stop wp = false → Returned ∉ wp_workers wp;
}.

Lemma working_insert wp i w w' :
  wp_workers wp !! i = Some w →
  omap (λ w, match w with Working j => Some j | _ => None end) (<[i := w']> (wp_workers wp)) ++
    omap (λ w, match w with Working j => Some j | _ => None end) [w] ≡ₚ
  working wp ++ omap (λ w, match w with Working j => Some j | _ => None end) [w'].
Proof.
  intros Hw. unfold working. rewrite <-(take_drop_middle _ i w Hw) at 2.
  rewrite insert_take_drop by (by eapply lookup_lt_Some). rewrite !omap_app. destruct w, w'; csimpl; solve_Permutation.
Qed.

Lemma working_length wp : (length (working wp) ≤ length (wp_workers wp))%nat.
Proof. unfold working. induction (wp_workers wp) as [|[] l IH]; csimpl; lia. Qed.

Lemma work_ok ends i wp wp' : work ends i wp wp' → pool_ok wp → pool_ok wp'.
Proof.
  intros Hs [Hf Hst Hq Hw Hr]. destruct Hs as [j jobs Hi Hj|j Hi He|Hi Hs];
    (split; simpl; [|unfold working; simpl| |by rewrite length_insert|
      try (intros Hstop [k Hk]%list_elem_of_lookup; apply list_lookup_insert_Some in Hk as [(_ & ? & _)|[_ Hk]];
           [done|by eapply (Hr Hstop), list_elem_of_lookup_2])]).
  - by rewrite Hf, Hj, <-app_assoc.
  - pose proof (working_insert wp i _ (Working j) Hi) as Hp. csimpl in Hp. rewrite app_nil_r in Hp. rewrite Hp, Hst. solve_Permutation.
  - rewrite Hj in Hq. simpl in Hq. lia.
  - done.
  - pose proof (working_insert wp i _ Waiting Hi) as Hp. csimpl in Hp. rewrite app_nil_r in Hp. rewrite Hst, <-Hp. solve_Permutation.
  - done.
  - done.
  - pose proof (working_insert wp i _ Returned Hi) as Hp. csimpl in Hp. rewrite !app_nil_r in Hp. by rewrite Hp.
  - done.
  - by rewrite Hs.
Qed.

Lemma pool_step_ok ends wp wp' : pool_step ends wp wp' → pool_ok wp → pool_ok wp'.
Proof.
  intros [job ? Ha|? Hs|i ? Hw] Hok; [|unfold Stop in Hs; destruct (wp_stop wp); [done|]; injection Hs as <-; by destruct Hok|by eapply work_ok].
  unfold AddJob in Ha. case_decide; [|done]. injection Ha as <-. destruct Hok as [Hf Hst Hq Hw Hr]. split; simpl; try done.
  - by rewrite Hf, <-app_assoc.
  - rewrite length_app. simpl. lia.
Qed.

(** A pool at work: made for a number of workers, after any steps. *)
Definition pool_reachable (ends : Job → Prop) (wp : WorkerPool) : Prop :=
  ∃ GOMAXPROCS nWorkers wp0, 0 < GOMAXPROCS < 2 ^ 63 ∧ is_int64 nWorkers ∧
    NewWorkerPool GOMAXPROCS nWorkers = Ret wp0 ∧ rtc (pool_step ends) wp0 wp.

Lemma NewWorkerPool_ok GOMAXPROCS nWorkers wp :
  0 < GOMAXPROCS < 2 ^ 63 → is_int64 nWorkers → NewWorkerPool GOMAXPROCS nWorkers = Ret wp →
  pool_ok wp ∧ 0 < wp_nWorkers wp.
Proof.
  intros Hg Hn. unfold NewWorkerPool, is_int64 in *.
  set (n := if decide (nWorkers = 0) then GOMAXPROCS else nWorkers).
  assert (n < 2 ^ 63 ∧ n ≠ 0) as [Hlt Hne] by (unfold n; case_decide; lia).
  case_decide; [done|]. intros [= <-]. unfold uint64. rewrite Z.mod_small by lia.
  split; [|simpl; lia]. split; simpl; [done| |lia|rewrite length_replicate; lia|].
  - unfold working. simpl. by induction (Z.to_nat n).
  - intros _ Hin. by apply elem_of_replicate in Hin as [? _].
Qed.

Lemma pool_step_nWorkers ends wp wp' : pool_step ends wp wp' → wp_nWorkers wp' = wp_nWorkers wp.
Proof.
  intros [job ? Ha|? Hs|i ? Hw].
  - unfold AddJob in Ha. case_decide; by simplify_eq.
  - unfold Stop in Hs. destruct (wp_stop wp); by simplify_eq.
  - by destruct Hw.
Qed.

Lemma pool_reachable_ok ends wp : pool_reachable ends wp → pool_ok wp ∧ 0 < wp_nWorkers wp.
Proof.
  intros (g & n & wp0 & Hg & Hn & Hnew & Hr). pose proof (NewWorkerPool_ok _ _ _ Hg Hn Hnew) as Hok. clear Hnew.
  induction Hr as [|wp0 wp1 wp2 Hs Hr IH]; [done|]. apply IH. destruct Hok as [Hok Hpos].
  split; [by eapply pool_step_ok|]. by rewrite (pool_step_nWorkers _ _ _ Hs).
Qed.

(** A pool starts its jobs in the order in which they were added, each once, and never
    runs more of them at a time than it has workers. *)
Theorem pool_order (ends : Job → Prop) (wp : WorkerPool) :
  pool_reachable ends wp →
  wp_added wp = wp_started wp ++ wp_jobs wp ∧ wp_started wp ≡ₚ wp_finished wp ++ working wp ∧
  Z.of_nat (length (working wp)) ≤ wp_nWorkers wp ∧ Z.of_nat (length (wp_jobs wp)) ≤ wp_nWorkers wp.
Proof.
  intros [[Hf Hs Hq Hw _] _]%pool_reachable_ok. pose proof (working_length wp). do 2 (split; [done|]). lia.
Qed.

(** What the workers do. *)
Abbreviation works ends := (λ wp wp', ∃ i, work ends i wp wp').

Definition load (wp : WorkerPool) : nat := 2 * length (wp_jobs wp) + length (working wp).

Lemma work_running ends i wp wp' :
  work ends i wp wp' → wp_stop wp = false →
  wp_stop wp' = false ∧ wp_added wp' = wp_added wp ∧ wp_nWorkers wp' = wp_nWorkers wp ∧ (load wp' < load wp)%nat.
Proof.
  intros Hs Hstop. unfold load, working. destruct Hs as [j jobs Hi Hj|j Hi He|Hi Hs]; [| |congruence]; simpl.
  - pose proof (Permutation_length (working_insert wp i _ (Working j) Hi)) as Hp. unfold working in Hp. csimpl in Hp.
    rewrite !length_app in Hp. simpl in Hp. rewrite Hj. simpl. do 3 (split; [done|]). lia.
  - pose proof (Permutation_length (working_insert wp i _ Waiting Hi)) as Hp. unfold working in Hp. csimpl in Hp.
    rewrite !length_app in Hp. simpl in Hp. do 3 (split; [done|]). lia.
Qed.

Lemma works_sn ends wp : wp_stop wp = false → sn (works ends) wp.
Proof.
  remember (load wp) as n eqn:En. revert wp En. induction (lt_wf n) as [n _ IH]. intros wp -> Hstop.
  constructor. intros wp' [i Hs]. destruct (work_running _ _ _ _ Hs Hstop) as (Hstop' & _ & _ & Hlt). by eapply IH.
Qed.

Lemma works_end ends wp :
  (∀ j, ends j) → pool_ok wp → 0 < wp_nWorkers wp → wp_stop wp = false → nf (works ends) wp →
  wp_jobs wp = [] ∧ working wp = [].
Proof.
  intros He [_ _ _ Hw Hr] Hpos Hstop Hnf.
  assert (∀ w, w ∈ wp_workers wp → w = Waiting) as Hall.
  { intros w [i Hi]%list_elem_of_lookup. destruct w as [|j|]; [done| |].
    - destruct Hnf. eexists _, i. by eapply work_finish.
    - by destruct (Hr Hstop (list_elem_of_lookup_2 _ _ _ Hi)). }
  split.
  - destruct (wp_jobs wp) as [|j jobs] eqn:Ej; [done|]. destruct (wp_workers wp) as [|w ws] eqn:Ew; [simpl in Hw; lia|].
    destruct Hnf. eexists _, 0%nat. eapply (work_start ends 0 wp j jobs); [|done]. rewrite Ew. simpl. by rewrite (Hall w) by left.
  - unfold working. clear -Hall. induction (wp_workers wp) as [|w ws IH]; [done|].
    csimpl. rewrite (Hall w) by left. apply IH. intros w' Hw'. apply Hall. by right.
Qed.

(** When every job ends, the workers of a pool that is not stopped run out of work, in
    whatever order they go on, and then all jobs that were added are finished. *)
Theorem pool_drains (ends : Job → Prop) (wp : WorkerPool) :
  (∀ j, ends j) → pool_reachable ends wp → wp_stop wp = false →
  sn (works ends) wp ∧
  ∀ wp', rtc (works ends) wp wp' → nf (works ends) wp' → wp_jobs wp' = [] ∧ wp_finished wp' ≡ₚ wp_added wp.
Proof.
  intros He [Hok Hpos]%pool_reachable_ok Hstop. split; [by apply works_sn|].
  intros wp' Hr. induction Hr as [wp|wp wp1 wp' [i Hs] Hr IH]; intros Hnf.
  - destruct (works_end ends wp) as [Hj Hw]; [done..|]. destruct Hok as [Hf Hst _ _ _].
    by rewrite Hf, Hst, Hj, Hw, !app_nil_r.
  - destruct (work_running _ _ _ _ Hs Hstop) as (Hstop' & <- & Hn & _). apply IH; [by eapply work_ok|congruence|done..].
Qed.

(** When all workers are at jobs that do not end, no job starts any more. *)
Lemma pool_starves ends wp wp' :
  Forall (λ w, ∃ j, w = Working j ∧ ¬ ends j) (wp_workers wp) → rtc (pool_step ends) wp wp' →
  wp_workers wp' = wp_workers wp ∧ wp_started wp' = wp_started wp.
Proof.
  intros Hw Hr. induction Hr as [|wp wp1 wp2 Hs Hr IH]; [done|].
  assert (wp_workers wp1 = wp_workers wp ∧ wp_started wp1 = wp_started wp) as [E1 E2].
  { destruct Hs as [job ? Ha|? Hs|i ? Hs].
    - unfold AddJob in Ha. case_decide; by simplify_eq.
    - unfold Stop in Hs. destruct (wp_stop wp); by simplify_eq.
    - rewrite Forall_forall in Hw. destruct Hs as [j jobs Hi _|j Hi He|Hi _];
        destruct (Hw _ (list_elem_of_lookup_2 _ _ _ Hi)) as (j' & ? & ?); by simplify_eq. }
  rewrite E1, E2 in *. by apply IH.
Qed.
End pool.
Arguments Worker : clear implicits.
Arguments WorkerPool : clear implicits.

(** ** The pool at work for sidecars *)

(** A job for a sidecar, as far as its certificate goes: the moments of its turns and what
    it finds. *)
Record CertJob := mkCertJob {
  cj_turns : nat → turn;
  cj_duration : Z;
  cj_now : Z;
  cj_noise : Z;
  cj_trustDomain : string;
  cj_manager : Manager;
  cj_identity : ServiceIdentity;
  cj_services : list MeshService;
}.

(** Some number of turns ends the loop of [certs]. *)
Definition certJob_ends (validity : Z) (j : CertJob) : Prop :=
  ∃ fuel, ¬ ∃ m, certs fuel (cj_turns j) (cj_now j) (cj_noise j) false validity (cj_trustDomain j) (cj_manager j)
                   (cj_identity j) None (cj_services j) = Ret (m, None).

(** A job for a sidecar without a certificate, with issuers that do not fail. *)
Definition newSidecar (j : CertJob) : Prop :=
  issuers_are good (cj_manager j) ∧ turns_ok (cj_turns j) (cj_duration j) ∧ mgr_cache (cj_manager j) !! cj_identity j = None.

Lemma durationOr_int64 d s : is_int64 d → is_int64 (durationOr d s).
Proof. unfold durationOr. intros Hd. destruct (ParseDuration s) eqn:E; [by eapply ParseDuration_int64|done]. Qed.

(** C22. When the MeshConfig has a validity period for service certificates of at most 30
    seconds, a pool whose workers are all at jobs of new sidecars starts no other job ever
    after, and its [Stop] does not return. *)
Theorem short_validity_starves (store : InformerStore MeshConfigSpec) (osmNamespace meshConfigName : string)
    (wp wp' : WorkerPool CertJob) :
  let validity := GetServiceCertValidityPeriod store osmNamespace meshConfigName in
  validity ≤ RenewBeforeCertExpires → wp_workers wp ≠ [] →
  Forall (λ w, ∃ j, w = Working j ∧ newSidecar j) (wp_workers wp) →
  rtc (pool_step (certJob_ends validity)) wp wp' →
  wp_workers wp' = wp_workers wp ∧ wp_started wp' = wp_started wp ∧ ¬ stopReturns wp'.
Proof.
  intros validity Hle Hne Hw Hr.
  assert (wp_workers wp' = wp_workers wp ∧ wp_started wp' = wp_started wp) as [E1 E2].
  { eapply pool_starves, Hr. eapply Forall_impl; [exact Hw|]. intros w (j & -> & Hi & Ht & Hc). exists j. split; [done|].
    intros [fuel []]. eapply certs_spin; [done..| |done|done]. by apply durationOr_int64. }
  do 2 (split; [done|]). unfold stopReturns. rewrite E1.
  destruct (wp_workers wp) as [|w ws]; [done|]. intros [<- _]%Forall_cons. apply Forall_cons in Hw as [(j & ? & _) _]. done.
Qed.

(** ** The resync ticker *)

(** What the watcher does after it has stopped a ticker. *)
Inductive Next :=
| ThenStart (interval : Z)
| ThenSelect
| ThenReturn.

(** The goroutine of [watchConfig]: at its select, at the send of [stopTicker], after the
    send, or gone. *)
Inductive Watcher :=
| Selecting
| Sending (next : Next)
| Sent (next : Next)
| Gone.

(** A goroutine of [startTicker] that has not returned: before it sets [running], or at its
    select. *)
Inductive TickerRoutine :=
| Starting (interval : Z)
| Ticking (interval : Z).

Definition routineInterval (t : TickerRoutine) : Z := match t with Starting d | Ticking d => d end.

(** The fields, how many messages were put on the queue of the broker, and the goroutines. *)
Record ResyncTicker := mkResyncTicker {
  rt_running : bool;
  rt_minTickInterval : Z;
  rt_invalidIntervalCounter : Z;
  rt_queued : nat;
  rt_tickers : list TickerRoutine;
  rt_watcher : Watcher;
}.

Definition with_watcher (r : ResyncTicker) (w : Watcher) : ResyncTicker :=
  mkResyncTicker (rt_running r) (rt_minTickInterval r) (rt_invalidIntervalCounter r) (rt_queued r) (rt_tickers r) w.
Definition with_tickers (r : ResyncTicker) (l : list TickerRoutine) : ResyncTicker :=
  mkResyncTicker (rt_running r) (rt_minTickInterval r) (rt_invalidIntervalCounter r) (rt_queued r) l (rt_watcher r).
Definition with_running (r : ResyncTicker) (b : bool) : ResyncTicker :=
  mkResyncTicker b (rt_minTickInterval r) (rt_invalidIntervalCounter r) (rt_queued r) (rt_tickers r) (rt_watcher r).

Definition NewResyncTicker (minTickInterval : Z) : ResyncTicker := mkResyncTicker false minTickInterval 0 0 [] Gone.

(** [go r.startTicker(interval)]. *)
Definition goStartTicker (r : ResyncTicker) (interval : Z) : ResyncTicker := with_tickers r (rt_tickers r ++ [Starting interval]).

(** [Start] on a ticker that is not running, as the catalog calls it. *)
Definition startResync (r : ResyncTicker) (resyncInterval : Z) : ResyncTicker :=
  let r := if decide (rt_minTickInterval r ≤ resyncInterval) then goStartTicker r resyncInterval else r in
  with_watcher r Selecting.

(** A message of the subscription: the channel is closed, the message or an object in it is
    of another type, or a MeshConfig was updated. *)
Inductive ConfigMessage :=
| ChannelClosed
| UnexpectedMessage
| ConfigUpdated (oldMeshSpec newMeshSpec : MeshConfigSpec).

Abbreviation resyncInterval c := (sc_ConfigResyncInterval (mcs_Sidecar c)).

Definition handleConfig (r : ResyncTicker) (m : ConfigMessage) : ResyncTicker :=
  match m with
  | ChannelClosed | UnexpectedMessage => r
  | ConfigUpdated old new =>
    if decide (resyncInterval old = resyncInterval new) then r
    else if decide (resyncInterval new = "") then r
    else match ParseDuration (resyncInterval new) with
         | Err _ => r
         | Ok newResyncInterval =>
           if decide (rt_minTickInterval r ≤ newResyncInterval) then
             if rt_running r then with_watcher r (Sending (ThenStart newResyncInterval))
             else goStartTicker r newResyncInterval
           else if decide (newResyncInterval = 0) then with_watcher r (Sending ThenSelect)
           else mkResyncTicker (rt_running r) (rt_minTickInterval r) (uint64 (rt_invalidIntervalCounter r + 1))
                  (rt_queued r) (rt_tickers r) (rt_watcher r)
         end
  end.

(** After [stopTicker]. *)
Definition afterStop (r : ResyncTicker) (next : Next) : ResyncTicker :=
  let r := with_running r false in
  match next with
  | ThenStart d => with_watcher (goStartTicker r d) Selecting
  | ThenSelect => with_watcher r Selecting
  | ThenReturn => with_watcher r Gone
  end.

(** The steps, with the message that is handled.  [time.NewTicker] panics for an interval
    that is not positive. *)
Inductive ticker_step (r : ResyncTicker) : option ConfigMessage → ResyncTicker → Prop :=
| ticker_message m : rt_watcher r = Selecting → ticker_step r (Some m) (handleConfig r m)
| ticker_quit : rt_watcher r = Selecting → ticker_step r None (with_watcher r (Sending ThenReturn))
| ticker_begin l1 d l2 :
  rt_tickers r = l1 ++ Starting d :: l2 → 0 < d →
  ticker_step r None (with_running (with_tickers r (l1 ++ Ticking d :: l2)) true)
| ticker_tick d :
  Ticking d ∈ rt_tickers r →
  ticker_step r None (mkResyncTicker (rt_running r) (rt_minTickInterval r) (rt_invalidIntervalCounter r)
                        (S (rt_queued r)) (rt_tickers r) (rt_watcher r))
| ticker_stopped next l1 d l2 :
  rt_watcher r = Sending next → rt_tickers r = l1 ++ Ticking d :: l2 →
  ticker_step r None (with_watcher (with_tickers r (l1 ++ l2)) (Sent next))
| ticker_sent next : rt_watcher r = Sent next → ticker_step r None (afterStop r next).

(** Runs, with the messages that were handled, each in a state with [ok]. *)
Inductive ticker_run (ok : ResyncTicker → Prop) (r : ResyncTicker) : list ConfigMessage → ResyncTicker → Prop :=
| ticker_refl : ticker_run ok r [] r
| ticker_next ms r1 m r2 :
  ticker_run ok r ms r1 → (is_Some m → ok r1) → ticker_step r1 m r2 →
  ticker_run ok r (ms ++ option_list m) r2.

(** ** Theorems on the ticker *)

(** What the configuration asks for: the interval of the ticker, if there is to be one. *)
Definition wanted (minTickInterval : Z) (w : option Z) (m : ConfigMessage) : option Z :=
  match m with
  | ConfigUpdated old new =>
    if decide (resyncInterval old = resyncInterval new) then w
    else match ParseDuration (resyncInterval new) with
         | Err _ => w
         | Ok d => if decide (minTickInterval ≤ d) then Some d else if decide (d = 0) then None else w
         end
  | _ => w
  end.

(** No goroutine is about to start ticking. *)
Definition settled (r : ResyncTicker) : Prop := ∀ d, Starting d ∉ rt_tickers r.

Definition follows (next : Next) (w : option Z) : Prop :=
  match next with
  | ThenStart d => w = Some d
  | ThenSelect => w = None
  | ThenReturn => True
  end.

(** The states of a run in which messages come when the ticker has settled. *)
Inductive serves (w : option Z) (r : ResyncTicker) : Prop :=
| serves_off : rt_watcher r = Selecting → rt_tickers r = [] → rt_running r = false → w = None → serves w r
| serves_starting d :
  rt_watcher r = Selecting ∨ rt_watcher r = Sending ThenReturn →
  rt_tickers r = [Starting d] → rt_running r = false → w = Some d → serves w r
| serves_ticking d : rt_watcher r = Selecting → rt_tickers r = [Ticking d] → rt_running r = true → w = Some d → serves w r
| serves_stopping next d :
  rt_watcher r = Sending next → rt_tickers r = [Ticking d] → follows next w → serves w r
| serves_blocked next :
  rt_watcher r = Sending next → rt_tickers r = [] → next = ThenSelect ∨ next = ThenReturn → serves w r
| serves_stopped next : rt_watcher r = Sent next → rt_tickers r = [] → follows next w → serves w r
| serves_gone : rt_watcher r = Gone → rt_tickers r = [] → serves w r.

Lemma singleton_middle {A} (x y : A) l1 l2 : [x] = l1 ++ y :: l2 → l1 = [] ∧ l2 = [] ∧ x = y.
Proof. destruct l1 as [|? [|]]; simpl; intros [=]; by subst. Qed.

Lemma handleConfig_serves w r m :
  rt_watcher r = Selecting → settled r → serves w r → serves (wanted (rt_minTickInterval r) w m) (handleConfig r m).
Proof.
  intros Hw Hset Hs. destruct m as [| |old new]; [done|done|]. unfold handleConfig, wanted.
  case_decide; [done|]. case_decide as Hempty; [by rewrite Hempty|]. destruct (ParseDuration _) as [d|]; [|done].
  inversion Hs as [? Ht Hr Hwant|d0 ? Ht Hr Hwant|d0 ? Ht Hr Hwant|next d0 Hw'|next Hw'|next Hw'|Hw']; try congruence.
  - rewrite Hr. case_decide; [|case_decide].
    + eapply serves_starting; simpl; [by left|by rewrite Ht|done..].
    + eapply serves_blocked; [done..|by left].
    + by apply serves_off.
  - by destruct (Hset d0); rewrite Ht; left.
  - rewrite Hr. case_decide; [|case_decide].
    + by eapply serves_stopping.
    + by eapply serves_stopping.
    + by eapply serves_ticking.
Qed.

Lemma ticker_step_serves w r m r' :
  ticker_step r m r' → (is_Some m → settled r) → serves w r →
  serves (foldl (wanted (rt_minTickInterval r)) w (option_list m)) r' ∧ rt_minTickInterval r' = rt_minTickInterval r.
Proof.
  intros Hst Hok Hs. destruct Hst as [m Hw|Hw|l1 d l2 Ht Hd|d Ht|next l1 d l2 Hw Ht|next Hw]; simpl.
  - split; [apply handleConfig_serves; [done|by apply Hok|done]|].
    unfold handleConfig. destruct m; [done..|]. by repeat case_match.
  - split; [|done]. inversion Hs as [? Ht Hr Hwant|d0 ? Ht Hr Hwant|d0 ? Ht Hr Hwant|next d0 Hw'|next Hw'|next Hw'|Hw']; try congruence.
    + eapply serves_blocked; [done..|by right].
    + eapply serves_starting; [by right|done..].
    + by eapply serves_stopping.
  - split; [|done]. inversion Hs as [? Ht' Hr Hwant|d0 Hw Ht' Hr Hwant|d0 ? Ht' Hr Hwant|next d0 Hw' Ht'|next Hw' Ht'|next Hw' Ht'|Hw' Ht'];
      rewrite Ht' in Ht; try (by destruct l1); apply singleton_middle in Ht as (-> & -> & E); try done.
    injection E as ->. destruct Hw as [Hw|Hw]; [by eapply serves_ticking|by eapply serves_stopping].
  - split; [|done]. inversion Hs as [? Ht' Hr Hwant|d0 Hw Ht' Hr Hwant|d0 ? Ht' Hr Hwant|next d0 Hw' Ht'|next Hw' Ht'|next Hw' Ht'|Hw' Ht'].
    + by apply serves_off.
    + by eapply serves_starting.
    + by eapply serves_ticking.
    + by eapply serves_stopping.
    + by eapply serves_blocked.
    + by eapply serves_stopped.
    + by apply serves_gone.
  - split; [|done]. inversion Hs as [? Ht' Hr Hwant|d0 ? Ht' Hr Hwant|d0 ? Ht' Hr Hwant|next' d0 Hw' Ht'|next' Hw' Ht'|next' Hw' Ht'|Hw' Ht'];
      rewrite Ht' in Ht; try (by destruct l1); apply singleton_middle in Ht as (-> & -> & E); try congruence.
    eapply serves_stopped; simpl; [done..|]. congruence.
  - inversion Hs as [? Ht Hr Hwant|d0 [?|?] Ht Hr Hwant|d0 ? Ht Hr Hwant|next' d0 Hw' Ht|next' Hw' Ht|next' Hw' Ht Hf|Hw' Ht]; try congruence.
    assert (next' = next) as -> by congruence. unfold afterStop. destruct next as [d| |]; simpl in *; (split; [|done]).
    + eapply serves_starting; simpl; [by left|by rewrite Ht|done..].
    + by apply serves_off.
    + by apply serves_gone.
Qed.

(** When every update of the MeshConfig comes after the ticker has settled, there is at
    most one ticker at any time, and whenever the watcher is ready for the next update, the
    ticker is the one that the updates so far ask for. *)
Theorem ticker_refines (minTickInterval interval : Z) (ms : list ConfigMessage) (r : ResyncTicker) :
  ticker_run settled (startResync (NewResyncTicker minTickInterval) interval) ms r →
  (length (rt_tickers r) ≤ 1)%nat ∧
  (rt_watcher r = Selecting →
   routineInterval <$> rt_tickers r =
   option_list (foldl (wanted minTickInterval) (if decide (minTickInterval ≤ interval) then Some interval else None) ms)).
Proof.
  set (w0 := if decide _ then _ else _). intros Hrun.
  assert (serves (foldl (wanted minTickInterval) w0 ms) r ∧ rt_minTickInterval r = minTickInterval) as [Hs _].
  { induction Hrun as [|ms r1 m r2 Hrun [IH Hmin] Hok Hst].
    - unfold w0, startResync. simpl. case_decide; (split; [|done]); [|by apply serves_off].
      eapply serves_starting; [by left|done..].
    - destruct (ticker_step_serves _ _ _ _ Hst Hok IH) as [Hs Hmin']. rewrite foldl_app. split; congruence. }
  inversion Hs as [? Ht Hr Hw|d0 ? Ht Hr Hw|d0 ? Ht Hr Hw|next' d0 Hw' Ht|next' Hw' Ht|next' Hw' Ht|Hw' Ht];
    rewrite Ht, ?Hw; (split; [simpl; lia|]); intros ?; first [done|congruence].
Qed.

(** When no ticker runs and the resync interval is changed to zero, the watcher waits
    for ever for somebody to receive from [stopTickerCh]: it handles no other update, and
    the ticker is never started again. *)
Theorem zero_interval_blocks (r0 r : ResyncTicker) (old new : MeshConfigSpec) (ms : list ConfigMessage) :
  rt_watcher r0 = Selecting → rt_tickers r0 = [] → 0 < rt_minTickInterval r0 →
  resyncInterval old ≠ resyncInterval new → ParseDuration (resyncInterval new) = Ok 0 →
  ticker_run (λ _, True) (handleConfig r0 (ConfigUpdated old new)) ms r →
  ms = [] ∧ rt_tickers r = [] ∧ rt_watcher r = Sending ThenSelect.
Proof.
  intros Hw Ht Hmin Hne Hz Hrun. unfold handleConfig in Hrun. rewrite decide_False in Hrun by done.
  rewrite decide_False in Hrun by (intros E; by rewrite E in Hz). rewrite Hz, decide_False, decide_True in Hrun by lia.
  induction Hrun as [|ms r1 m r2 Hrun (-> & Ht1 & Hw1) _ Hst]; [done|].
  inversion Hst as [? Hs|Hs|l1 d l2 Hl|d Hl|next l1 d l2 ? Hl|next Hs]; subst; try congruence; rewrite Ht1 in Hl.
  - by destruct l1.
  - by apply elem_of_nil in Hl.
  - by destruct l1.
Qed.

(** ** Examples *)

Module SchedulingWitness.
Import CertWitness PipyCertWitness.
#[local] Existing Instance stdpp_order.

(** A pool of two workers. *)
Definition pool {Job} (jobs : list Job) (workers : list (Worker Job)) (added started finished : list Job) : WorkerPool Job :=
  mkWorkerPool 2 jobs false workers added started finished.
Definition new {Job} : WorkerPool Job := pool [] [Waiting; Waiting] [] [] [].

Lemma add_step {Job} ends (wp wp' : WorkerPool Job) job : AddJob wp job = Some wp' → pool_step ends wp wp'.
Proof. apply pool_add. Qed.

(** Two jobs are added, and the second finishes first. *)
Definition pool_late : WorkerPool nat := pool [] [Working 1; Waiting]%nat [1; 2]%nat [1; 2]%nat [2]%nat.

Lemma pool_late_run ends : ends 2%nat → rtc (pool_step ends) new pool_late.
Proof.
  intros He. eapply rtc_l; [apply (pool_add _ _ 1%nat); reflexivity|]. eapply rtc_l; [apply (pool_add _ _ 2%nat); reflexivity|].
  eapply rtc_l; [eapply pool_work, (work_start _ 0); reflexivity|]. eapply rtc_l; [eapply pool_work, (work_start _ 1); reflexivity|].
  eapply rtc_l; [eapply pool_work, (work_finish _ 1); [reflexivity|exact He]|]. apply rtc_refl.
Qed.

Lemma pool_late_reachable ends : ends 2%nat → pool_reachable ends pool_late.
Proof.
  intros He. exists 2, 0, new. split; [lia|]. split; [split; lia|]. split; [reflexivity|]. by apply pool_late_run.
Qed.

Lemma pool_order_witness :
  wp_added pool_late = wp_started pool_late ++ wp_jobs pool_late ∧ wp_started pool_late ≡ₚ wp_finished pool_late ++ working pool_late ∧
  Z.of_nat (length (working pool_late)) ≤ wp_nWorkers pool_late ∧ Z.of_nat (length (wp_jobs pool_late)) ≤ wp_nWorkers pool_late.
Proof. apply (pool_order (λ _, True) pool_late). apply pool_late_reachable. exact I. Defined.

Lemma pool_drains_witness :
  sn (λ wp wp', ∃ i, work (λ _, True) i wp wp') pool_late ∧
  ∀ wp', rtc (λ wp wp', ∃ i, work (λ _, True) i wp wp') pool_late wp' → nf (λ wp wp', ∃ i, work (λ _, True) i wp wp') wp' →
    wp_jobs wp' = [] ∧ wp_finished wp' ≡ₚ [1; 2]%nat.
Proof. apply (pool_drains (λ _, True) pool_late); [intros _; exact I|apply pool_late_reachable; exact I|reflexivity]. Defined.

(** [Stop] leaves a job that was added before it: nobody closes its channel. *)
Example stop_leaves_jobs :
  ∃ wp : WorkerPool nat, rtc (pool_step (λ _, True)) new wp ∧ stopReturns wp ∧ wp_jobs wp = [1%nat] ∧ wp_finished wp = [].
Proof.
  eexists. split; [|split; [|split]].
  - eapply rtc_l; [apply (pool_add _ _ 1%nat); reflexivity|]. eapply rtc_l; [apply pool_stop; reflexivity|].
    eapply rtc_l; [eapply pool_work, (work_stop _ 0); reflexivity|]. eapply rtc_l; [eapply pool_work, (work_stop _ 1); reflexivity|]. apply rtc_refl.
  - repeat constructor.
  - reflexivity.
  - reflexivity.
Qed.

(** A MeshConfig whose certificates are valid for half a minute, and two new sidecars. *)
Definition config (validity interval : string) : MeshConfigSpec :=
  let z := zero_MeshConfigSpec in {|
    mcs_ClusterSet := mcs_ClusterSet z;
    mcs_Sidecar := mkSidecarSpec false "" "" "" "" "" [] 0 interval 0 (mkResourceRequirements None None) "" "" [] [] "" (mkLocalDNSProxy false "" "");
    mcs_RepoServer := mcs_RepoServer z; mcs_Traffic := mcs_Traffic z; mcs_Observability := mcs_Observability z;
    mcs_Certificate := mkCertificateSpec validity 2048 None;
    mcs_FeatureFlags := mcs_FeatureFlags z; mcs_PluginChains := mcs_PluginChains z |}.
Definition configs : InformerStore MeshConfigSpec := store_of {["osm/osm-mesh-config" := config "0.5m" ""]}.
Definition newcomer (identity : string) : CertJob := mkCertJob turns second 0 0 "cluster.local" manager identity [].
Definition pool_busy : WorkerPool CertJob :=
  pool [] [Working (newcomer "web.shop"); Working (newcomer "api.shop")] [] [newcomer "web.shop"; newcomer "api.shop"] [].

Lemma newcomer_new identity : identity = "web.shop" ∨ identity = "api.shop" → newSidecar (newcomer identity).
Proof. intros [-> | ->]; (split; [exact manager_good|split; [exact turns_are_ok|reflexivity]]). Qed.

Lemma short_validity_starves_witness :
  let wp' := pool [newcomer "db.shop"] (wp_workers pool_busy) [newcomer "db.shop"] (wp_started pool_busy) [] in
  wp_workers wp' = wp_workers pool_busy ∧ wp_started wp' = wp_started pool_busy ∧ ¬ stopReturns wp'.
Proof.
  intros wp'. apply (short_validity_starves configs "osm" "osm-mesh-config" pool_busy wp').
  - apply (bool_decide_unpack _). vm_compute. exact I.
  - intros E. inversion E.
  - constructor; [eexists; split; [reflexivity|apply newcomer_new; by left]|].
    constructor; [eexists; split; [reflexivity|apply newcomer_new; by right]|constructor].
  - apply rtc_once, (pool_add _ _ (newcomer "db.shop")). reflexivity.
Defined.

(** A ticker of one minute that is changed to two minutes. *)
Definition minTick : Z := 30 * second.
Definition changed (old new : string) : ConfigMessage := ConfigUpdated (config "24h" old) (config "24h" new).
Definition ticking (d : Z) (w : Watcher) : ResyncTicker := mkResyncTicker true minTick 0 0 [Ticking d] w.

Lemma ticker_refines_witness :
  let r := mkResyncTicker false minTick 0 0 [Starting (120 * second)] Selecting in
  (length (rt_tickers r) ≤ 1)%nat ∧
  (rt_watcher r = Selecting →
   routineInterval <$> rt_tickers r =
   option_list (foldl (wanted minTick) (if decide (minTick ≤ 60 * second) then Some (60 * second) else None) [changed "1m" "2m"])).
Proof.
  intros r. apply (ticker_refines minTick (60 * second) [changed "1m" "2m"] r).
  pose (start := startResync (NewResyncTicker minTick) (60 * second)).
  pose (sending := ticking (60 * second) (Sending (ThenStart (120 * second)))).
  pose (sent := mkResyncTicker true minTick 0 0 [] (Sent (ThenStart (120 * second)))).
  assert (∀ r, is_Some (@None ConfigMessage) → settled r) as Hnone by by intros ? []%is_Some_None.
  assert (ticker_run settled start [] (ticking (60 * second) Selecting)) as H1.
  { apply (ticker_next settled start [] start None); [apply ticker_refl|apply Hnone|].
    apply (ticker_begin start [] (60 * second) []); reflexivity. }
  assert (ticker_run settled start [changed "1m" "2m"] sending) as H2.
  { apply (ticker_next settled start [] _ (Some (changed "1m" "2m")) sending H1).
    - intros _ d [E|[]%elem_of_nil]%elem_of_cons. inversion E.
    - apply (ticker_message (ticking (60 * second) Selecting)). reflexivity. }
  assert (ticker_run settled start [changed "1m" "2m"] sent) as H3.
  { apply (ticker_next settled start [changed "1m" "2m"] sending None sent H2); [apply Hnone|].
    apply (ticker_stopped sending (ThenStart (120 * second)) [] (60 * second) []); reflexivity. }
  apply (ticker_next settled start [changed "1m" "2m"] sent None r H3); [apply Hnone|].
  apply (ticker_sent sent (ThenStart (120 * second))). reflexivity.
Defined.

(** The interval is changed from an invalid one to zero: a later change is not handled. *)
Lemma zero_interval_blocks_witness :
  [] = @nil ConfigMessage ∧ rt_tickers (handleConfig (startResync (NewResyncTicker minTick) 0) (changed "" "0s")) = [] ∧
  rt_watcher (handleConfig (startResync (NewResyncTicker minTick) 0) (changed "" "0s")) = Sending ThenSelect.
Proof.
  apply (zero_interval_blocks (startResync (NewResyncTicker minTick) 0) _ (config "24h" "") (config "24h" "0s") []).
  - reflexivity.
  - reflexivity.
  - reflexivity.
  - apply (bool_decide_unpack _). vm_compute. exact I.
  - reflexivity.
  - constructor.
Defined.

(** An update that comes before the goroutine has set [running] starts a second ticker. *)
Example two_tickers :
  ∃ ms r, ticker_run (λ _, True) (startResync (NewResyncTicker minTick) (60 * second)) ms r ∧
    rt_tickers r = [Ticking (60 * second); Ticking (120 * second)].
Proof.
  pose (start := startResync (NewResyncTicker minTick) (60 * second)).
  pose (r1 := handleConfig start (changed "1m" "2m")).
  pose (r2 := mkResyncTicker true minTick 0 0 [Ticking (60 * second); Starting (120 * second)] Selecting).
  pose (r3 := mkResyncTicker true minTick 0 0 [Ticking (60 * second); Ticking (120 * second)] Selecting).
  exists [changed "1m" "2m"], r3. split; [|reflexivity].
  apply (ticker_next _ start [changed "1m" "2m"] r2 None r3);
    [|done|by apply (ticker_begin r2 [Ticking (60 * second)] (120 * second) [])].
  apply (ticker_next _ start [changed "1m" "2m"] r1 None r2);
    [|done|by apply (ticker_begin r1 [] (60 * second) [Starting (120 * second)])].
  apply (ticker_next _ start [] start (Some (changed "1m" "2m")) r1); [apply ticker_refl|done|by apply (ticker_message start)].
Qed.
End SchedulingWitness.
