(* ===== verification/Iptables.v ===== *)
(** * pkg/injector: the interception of traffic

    exclusions.go and iptables.go: the commands that the init container of a pod runs, as
    text, and what they do with a packet.  The rules are kept as data and printed as the code
    prints them.  iptables is the class [Netfilter]: what its manual says of the commands, of
    the matches and of the traversal of chains. *)

From S2P Require Import Prelude GoStrings Net.

#[local] Open Scope Z_scope.

(** ** Exclusions (exclusions.go) *)

Definition OutboundPortExclusionListAnnotation : string := "openservicemesh.io/outbound-port-exclusion-list".
Definition InboundPortExclusionListAnnotation : string := "openservicemesh.io/inbound-port-exclusion-list".
Definition OutboundIPRangeExclusionListAnnotation : string := "openservicemesh.io/outbound-ip-range-exclusion-list".
Definition OutboundIPRangeInclusionListAnnotation : string := "openservicemesh.io/outbound-ip-range-inclusion-list".

(** The error names what is not valid, the value and the annotation. *)
Definition invalidExclusion (what value annotation : string) : string :=
  "Invalid " +:+ what +:+ " '" +:+ value +:+ "' specified for annotation '" +:+ annotation +:+ "'".

Definition GetPortExclusionListForPod (annotations : gmap string string) (annotation : string) : result string (list Z) :=
  match annotations !! annotation with
  | None => Ok []
  | Some portsToExcludeStr =>
    foldE (λ ports portStr,
      let portStr := TrimSpace portStr in
      match Atoi portStr with
      | Some portVal => if decide (portVal ≤ 0) then Err (invalidExclusion "port value" portStr annotation) else Ok (ports ++ [portVal])
      | None => Err (invalidExclusion "port value" portStr annotation)
      end) [] (split "," portsToExcludeStr)
  end.

Definition MergePortExclusionLists (podSpecificPortExclusionList globalPortExclusionList : list Z) : list Z :=
  unique (globalPortExclusionList ++ podSpecificPortExclusionList).

Definition GetOutboundIPRangeListForPod (annotations : gmap string string) (annotation : string) : result string (list string) :=
  match annotations !! annotation with
  | None => Ok []
  | Some ipRangeExclusionsStr =>
    foldE (λ ipRanges ip,
      let ip := TrimSpace ip in
      match ParseCIDR ip with
      | Some _ => Ok (ipRanges ++ [ip])
      | None => Err (invalidExclusion "IP range" ip annotation)
      end) [] (split "," ipRangeExclusionsStr)
  end.

Definition MergeIPRangeLists (podSpecific global : list string) : list string := unique (podSpecific ++ global).

(** ** Rules *)

Inductive Match :=
| Proto (protocol : string)
| InInterface (iface : string)
| OutInterface (iface : string)
| Destination (negated : bool) (range : string)
| Dport (port : Z)
| Owner (negated : bool) (uid : Z)
| Multiport (ports : list Z).

Inductive Target :=
| RETURN
| ACCEPT
| REDIRECT (port : Z)
| DNAT (destination : string)
| JUMP (chain : string).

Record IptRule := mkIptRule {
  ir_Matches : list Match;
  ir_Target : Target;
}.

(** [-A] appends, [-I] inserts in front. *)
Record Command := mkCommand {
  ic_Insert : bool;
  ic_Chain : string;
  ic_Rule : IptRule;
}.

Definition negation (negated : bool) : string := if negated then "! " else "".

Definition Match_String (m : Match) : string :=
  match m with
  | Proto p => "-p " +:+ p
  | InInterface i => "-i " +:+ i
  | OutInterface i => "-o " +:+ i
  | Destination n r => negation n +:+ "-d " +:+ r
  | Dport p => "--dport " +:+ itoa p
  | Owner n u => "-m owner " +:+ negation n +:+ "--uid-owner " +:+ itoa u
  | Multiport ps => "--match multiport --dports " +:+ join "," (itoa <$> ps)
  end.

Definition Target_String (t : Target) : string :=
  match t with
  | RETURN => "RETURN"
  | ACCEPT => "ACCEPT"
  | REDIRECT p => "REDIRECT --to-port " +:+ itoa p
  | DNAT d => "DNAT --to-destination " +:+ d
  | JUMP c => c
  end.

Definition Command_String (c : Command) : string :=
  (if ic_Insert c then "-I " else "-A ") +:+ ic_Chain c +:+
  foldr (λ m s, " " +:+ Match_String m +:+ s) "" (ir_Matches (ic_Rule c)) +:+ " -j " +:+ Target_String (ir_Target (ic_Rule c)).

Definition append (chain : string) (ms : list Match) (t : Target) : Command := mkCommand false chain (mkIptRule ms t).
Definition insert_front (chain : string) (ms : list Match) (t : Target) : Command := mkCommand true chain (mkIptRule ms t).

(** ** The rules of a sidecar (iptables.go) *)

Definition SidecarOutboundListenerPort : Z := 15001.
Definition SidecarInboundListenerPort : Z := 15003.
Definition SidecarAdminPort : Z := 15000.
Definition SidecarPrometheusInboundListenerPort : Z := 15010.
Definition LivenessProbePort : Z := 15901.
Definition ReadinessProbePort : Z := 15902.
Definition StartupProbePort : Z := 15903.
Definition HealthcheckPort : Z := 15904.
Definition SidecarUID : Z := 1500.

Definition INBOUND : string := "OSM_PROXY_INBOUND".
Definition IN_REDIRECT : string := "OSM_PROXY_IN_REDIRECT".
Definition OUTBOUND : string := "OSM_PROXY_OUTBOUND".
Definition OUT_REDIRECT : string := "OSM_PROXY_OUT_REDIRECT".

Definition iptablesOutboundStaticRules : list Command := [
  append OUT_REDIRECT [Proto "tcp"] (REDIRECT SidecarOutboundListenerPort);
  append OUT_REDIRECT [Proto "tcp"; Dport SidecarAdminPort] ACCEPT;
  append "OUTPUT" [Proto "tcp"] (JUMP OUTBOUND);
  append OUTBOUND [OutInterface "lo"; Destination true "127.0.0.1/32"; Owner false SidecarUID] (JUMP IN_REDIRECT);
  append OUTBOUND [OutInterface "lo"; Owner true SidecarUID] RETURN;
  append OUTBOUND [Owner false SidecarUID] RETURN;
  append OUTBOUND [Destination false "127.0.0.1/32"] RETURN].

Definition iptablesDNSOutboundStaticRules : list Command := [
  append "OUTPUT" [Proto "udp"; Destination false "127.0.0.153"; Dport 53] (DNAT "127.0.0.153:5300")].

Definition iptablesInboundStaticRules : list Command := [
  append IN_REDIRECT [Proto "tcp"] (REDIRECT SidecarInboundListenerPort);
  append "PREROUTING" [Proto "tcp"] (JUMP INBOUND);
  append INBOUND [Proto "tcp"; Dport SidecarPrometheusInboundListenerPort] RETURN;
  append INBOUND [Proto "tcp"; Dport LivenessProbePort] RETURN;
  append INBOUND [Proto "tcp"; Dport ReadinessProbePort] RETURN;
  append INBOUND [Proto "tcp"; Dport StartupProbePort] RETURN;
  append INBOUND [Proto "tcp"; Dport HealthcheckPort] RETURN;
  append INBOUND [Proto "tcp"] (JUMP IN_REDIRECT)].

Section commands.
Context (proxyModePodIP enabledDNSProxy : bool) (outboundIPRangeExclusionList outboundIPRangeInclusionList : list string).
Context (outboundPortExclusionList inboundPortExclusionList : list Z) (networkInterfaceExclusionList : list string).

(** The commands in the order of the text. *)
Definition iptablesCommands : list Command :=
  iptablesInboundStaticRules ++
  ((λ iface, insert_front INBOUND [InInterface iface] RETURN) <$> networkInterfaceExclusionList) ++
  (if decide (inboundPortExclusionList = []) then []
   else [insert_front INBOUND [Proto "tcp"; Multiport inboundPortExclusionList] RETURN]) ++
  iptablesOutboundStaticRules ++
  (if enabledDNSProxy then iptablesDNSOutboundStaticRules else []) ++
  (if proxyModePodIP then
     [insert_front "OUTPUT" [Proto "tcp"; OutInterface "lo"; Destination false "127.0.0.1/32"; Owner false SidecarUID] (DNAT "$POD_IP")]
   else []) ++
  ((λ iface, append OUTBOUND [OutInterface iface] RETURN) <$> networkInterfaceExclusionList) ++
  ((λ cidr, append OUTBOUND [Destination false cidr] RETURN) <$> outboundIPRangeExclusionList) ++
  (if decide (outboundPortExclusionList = []) then []
   else [append OUTBOUND [Proto "tcp"; Multiport outboundPortExclusionList] RETURN]) ++
  (if decide (outboundIPRangeInclusionList = []) then [append OUTBOUND [] (JUMP OUT_REDIRECT)]
   else ((λ cidr, append OUTBOUND [Destination false cidr] (JUMP OUT_REDIRECT)) <$> outboundIPRangeInclusionList) ++
        [append OUTBOUND [] RETURN]).

Definition newline : string := String "010" "".

Definition chainDeclarations : list string := [
  "# OSM sidecar interception rules"; "*nat"; ":OSM_PROXY_INBOUND - [0:0]"; ":OSM_PROXY_IN_REDIRECT - [0:0]";
  ":OSM_PROXY_OUTBOUND - [0:0]"; ":OSM_PROXY_OUT_REDIRECT - [0:0]"].

Definition GenerateIptablesCommands : string :=
  "iptables-restore --noflush <<EOF" +:+ newline +:+
  foldr (λ line s, line +:+ newline +:+ s) "" (chainDeclarations ++ (Command_String <$> iptablesCommands)) +:+
  "COMMIT" +:+ newline +:+ "EOF" +:+ newline.
End commands.

(** ** iptables *)

Record Packet := mkPacket {
  pk_Proto : string;
  pk_In : option string;
  pk_Out : option string;
  pk_Dst : IP;
  pk_Dport : Z;
  pk_Owner : option Z;
}.

Inductive Verdict :=
| Accepted
| Redirected (port : Z)
| Translated (destination : string).

(** An interface name of a rule that ends in "+" stands for every name it begins. *)
Fixpoint iface_matches (pattern name : string) : bool :=
  match pattern, name with
  | String "+" EmptyString, _ => true
  | String c p, String d n => bool_decide (c = d) && iface_matches p n
  | EmptyString, EmptyString => true
  | _, _ => false
  end.

Definition on_iface (pattern : string) (name : option string) : bool := from_option (iface_matches pattern) false name.

(** A destination is a network or one address. *)
Definition in_range (range : string) (ip : IP) : bool :=
  match ParseCIDR range with
  | Some (_, n) => Contains n ip
  | None => bool_decide (ParseIP range = Some ip)
  end.

Definition token (s : string) : bool := bool_decide (s ≠ EmptyString) && all_chars (λ c, negb (is_space c)) s.

Definition ipv4_range (range : string) : bool :=
  match ParseCIDR range with
  | Some (_, n) => bool_decide (length (net_IP n) = 4%nat)
  | None => bool_decide (is_Some (parseIPv4 range))
  end.

Definition is_port (p : Z) : bool := bool_decide (0 ≤ p ≤ 65535).

Definition match_accepted (m : Match) : bool :=
  match m with
  | Proto p => bool_decide (p ∈ ["tcp"; "udp"])
  | InInterface i | OutInterface i => token i && bool_decide (String.length i ≤ 15)%nat
  | Destination _ r => token r && ipv4_range r
  | Dport p => is_port p
  | Owner _ u => bool_decide (0 ≤ u < 2 ^ 32 - 1)
  | Multiport ps => bool_decide (1 ≤ length ps ≤ 15)%nat && forallb is_port ps
  end.

Definition command_accepted (c : Command) : bool := forallb match_accepted (ir_Matches (ic_Rule c)).

Abbreviation Table := (string → list IptRule).

Definition load (before : Table) (cmds : list Command) : Table := λ chain,
  foldl (λ rules c,
    if decide (ic_Chain c = chain) then if ic_Insert c then ic_Rule c :: rules else rules ++ [ic_Rule c] else rules)
    (before chain) cmds.

(** What iptables refuses: more than fifteen ports or no port number in a multiport match,
    an IPv6 network as a destination. *)
Definition match_refused (m : Match) : bool :=
  match m with
  | Multiport ps => bool_decide (15 < length ps)%nat || existsb (λ q, bool_decide (65535 < q)) ps
  | Destination _ r => from_option (λ '(_, n), bool_decide (length (net_IP n) = 16%nat)) false (ParseCIDR r)
  | _ => false
  end.

(** [restore cmds] is the table after "iptables-restore --noflush" in a new network
    namespace, which has no rules; it changes nothing when it refuses one command.
    [decides t rules p o]: the packet leaves the rest [rules] of a chain with a verdict, or
    returns to the caller of the chain, where the policy of a built-in chain accepts it. *)
Class Netfilter (restore : list Command → option Table) (matches : Match → Packet → bool)
    (decides : Table → list IptRule → Packet → option Verdict → Prop) := {
  nf_restore cmds : Forall command_accepted cmds → restore cmds = Some (load (λ _, []) cmds);
  nf_refuse cmds c m : c ∈ cmds → m ∈ ir_Matches (ic_Rule c) → match_refused m → restore cmds = None;
  nf_proto s p : matches (Proto s) p = bool_decide (pk_Proto p = s);
  nf_in i p : matches (InInterface i) p = on_iface i (pk_In p);
  nf_out i p : matches (OutInterface i) p = on_iface i (pk_Out p);
  nf_destination n r p : matches (Destination n r) p = xorb n (in_range r (pk_Dst p));
  nf_dport q p : matches (Dport q) p = bool_decide (pk_Dport p = q);
  nf_owner n u p : matches (Owner n u) p = xorb n (bool_decide (pk_Owner p = Some u));
  nf_multiport ps p : matches (Multiport ps) p = bool_decide (pk_Dport p ∈ ps);
  nf_end t p : decides t [] p None;
  nf_skip t ms a rules p o :
    forallb (λ m, matches m p) ms = false → decides t rules p o → decides t (mkIptRule ms a :: rules) p o;
  nf_return t ms rules p : forallb (λ m, matches m p) ms → decides t (mkIptRule ms RETURN :: rules) p None;
  nf_accept t ms rules p : forallb (λ m, matches m p) ms → decides t (mkIptRule ms ACCEPT :: rules) p (Some Accepted);
  nf_redirect t ms q rules p :
    forallb (λ m, matches m p) ms → decides t (mkIptRule ms (REDIRECT q) :: rules) p (Some (Redirected q));
  nf_dnat t ms d rules p :
    forallb (λ m, matches m p) ms → decides t (mkIptRule ms (DNAT d) :: rules) p (Some (Translated d));
  nf_jump t ms c rules p v :
    forallb (λ m, matches m p) ms → decides t (t c) p (Some v) → decides t (mkIptRule ms (JUMP c) :: rules) p (Some v);
  nf_back t ms c rules p o :
    forallb (λ m, matches m p) ms → decides t (t c) p None → decides t rules p o →
    decides t (mkIptRule ms (JUMP c) :: rules) p o;
  nf_unique t rules p o o' : decides t rules p o → decides t rules p o' → o = o';
}.

(** ** What the rules are for *)

Definition reservedPorts : list Z :=
  [SidecarPrometheusInboundListenerPort; LivenessProbePort; ReadinessProbePort; StartupProbePort; HealthcheckPort].

Definition localhost (p : Packet) : bool := in_range "127.0.0.1/32" (pk_Dst p).
Definition of_sidecar (p : Packet) : bool := bool_decide (pk_Owner p = Some SidecarUID).

Definition inbound_reference (inboundPorts : list Z) (ifaces : list string) (p : Packet) : option Verdict :=
  if bool_decide (pk_Proto p = "tcp") && negb (existsb (λ i, on_iface i (pk_In p)) ifaces) &&
     bool_decide (pk_Dport p ∉ inboundPorts ++ reservedPorts)
  then Some (Redirected SidecarInboundListenerPort) else None.

(** What of the sidecar is not redirected, except what it sends to its own pod. *)
Definition sidecar_reference (proxyModePodIP : bool) (p : Packet) : option Verdict :=
  if on_iface "lo" (pk_Out p) then
    if localhost p then if proxyModePodIP then Some (Translated "$POD_IP") else None
    else Some (Redirected SidecarInboundListenerPort)
  else None.

Definition application_reference (excluded included : list string) (outboundPorts : list Z) (ifaces : list string) (p : Packet) :
    option Verdict :=
  if on_iface "lo" (pk_Out p) || localhost p || existsb (λ i, on_iface i (pk_Out p)) ifaces ||
     existsb (λ r, in_range r (pk_Dst p)) excluded || bool_decide (pk_Dport p ∈ outboundPorts) then None
  else if bool_decide (included = []) || existsb (λ r, in_range r (pk_Dst p)) included
  then Some (Redirected SidecarOutboundListenerPort) else None.

Definition dns_reference (enabledDNSProxy : bool) (p : Packet) : option Verdict :=
  if enabledDNSProxy && bool_decide (pk_Proto p = "udp") && in_range "127.0.0.153" (pk_Dst p) && bool_decide (pk_Dport p = 53)
  then Some (Translated "127.0.0.153:5300") else None.

Definition outbound_reference (proxyModePodIP enabledDNSProxy : bool) (excluded included : list string) (outboundPorts : list Z)
    (ifaces : list string) (p : Packet) : option Verdict :=
  if bool_decide (pk_Proto p = "tcp") then
    if of_sidecar p then sidecar_reference proxyModePodIP p else application_reference excluded included outboundPorts ifaces p
  else dns_reference enabledDNSProxy p.

(** ** The rules of each chain *)

Definition fronts (chain : string) (cmds : list Command) : list IptRule :=
  omap (λ c, if String.eqb (ic_Chain c) chain && ic_Insert c then Some (ic_Rule c) else None) cmds.
Definition backs (chain : string) (cmds : list Command) : list IptRule :=
  omap (λ c, if String.eqb (ic_Chain c) chain && negb (ic_Insert c) then Some (ic_Rule c) else None) cmds.

(** The walk of one chain, given what the chains it jumps to do: [None] past its end. *)
Fixpoint walk (matches : Match → Packet → bool) (sub : string → option Verdict) (rules : list IptRule) (p : Packet) :
    option (option Verdict) :=
  match rules with
  | [] => None
  | r :: rules =>
    if forallb (λ m, matches m p) (ir_Matches r) then
      match ir_Target r with
      | RETURN => Some None
      | ACCEPT => Some (Some Accepted)
      | REDIRECT q => Some (Some (Redirected q))
      | DNAT d => Some (Some (Translated d))
      | JUMP c => match sub c with Some v => Some (Some v) | None => walk matches sub rules p end
      end
    else walk matches sub rules p
  end.

(** Every chain that the rules that match a packet jump to satisfies [P]. *)
Definition jumps (matches : Match → Packet → bool) (p : Packet) (P : string → Prop) (rules : list IptRule) : Prop :=
  Forall (λ r, forallb (λ m, matches m p) (ir_Matches r) → ∀ c, ir_Target r = JUMP c → P c) rules.

Lemma elem_of_cons_bool (x y : Z) l : bool_decide (x ∈ y :: l) = bool_decide (x = y) || bool_decide (x ∈ l).
Proof. rewrite <-bool_decide_or. apply bool_decide_ext, elem_of_cons. Qed.

Lemma not_elem_of_app_bool (x : Z) l l' : bool_decide (x ∉ l ++ l') = negb (bool_decide (x ∈ l)) && negb (bool_decide (x ∈ l')).
Proof. rewrite <-!bool_decide_not, <-bool_decide_and. apply bool_decide_ext, not_elem_of_app. Qed.

Lemma existsb_ext {A} (f g : A → bool) l : (∀ x, f x = g x) → existsb f l = existsb g l.
Proof. intros Hfg. induction l as [|x l IH]; simpl; [done|]. by rewrite Hfg, IH. Qed.

Lemma load_spec before cmds chain : load before cmds chain = rev (fronts chain cmds) ++ before chain ++ backs chain cmds.
Proof.
  unfold load. generalize (before chain) as rs.
  induction cmds as [|[[] ch r] cmds IH]; intros rs; simpl; [by rewrite app_nil_r|..];
    rewrite IH; unfold fronts, backs; simpl; destruct (String.eqb_spec ch chain); case_decide; try done;
    simpl; by rewrite <-?app_assoc.
Qed.

Section chains.
Context (chain : string).

Lemma fronts_app l l' : fronts chain (l ++ l') = fronts chain l ++ fronts chain l'.
Proof. apply omap_app. Qed.

Lemma backs_app l l' : backs chain (l ++ l') = backs chain l ++ backs chain l'.
Proof. apply omap_app. Qed.

Lemma fronts_each {A} ch ins (f : A → IptRule) l :
  fronts chain ((λ x, mkCommand ins ch (f x)) <$> l) = if String.eqb ch chain && ins then f <$> l else [].
Proof. unfold fronts. induction l as [|x l IH]; csimpl; [by case_match|]. rewrite IH. by case_match. Qed.

Lemma backs_each {A} ch ins (f : A → IptRule) l :
  backs chain ((λ x, mkCommand ins ch (f x)) <$> l) = if String.eqb ch chain && negb ins then f <$> l else [].
Proof. unfold backs. induction l as [|x l IH]; csimpl; [by case_match|]. rewrite IH. by case_match. Qed.
End chains.

Section walks.
Context `{NF : Netfilter restore matches decides}.

Lemma walk_app sub l l' p :
  walk matches sub (l ++ l') p = match walk matches sub l p with Some o => Some o | None => walk matches sub l' p end.
Proof. induction l as [|[ms []] l IH]; simpl; repeat case_match; naive_solver. Qed.

(** A walk that goes past [l] has the result of the rest. *)
Lemma walk_app_default sub l l' p :
  default None (walk matches sub (l ++ l') p) =
    match walk matches sub l p with Some o => o | None => default None (walk matches sub l' p) end.
Proof. rewrite walk_app. by case_match. Qed.

Lemma walk_returns {A} sub (f : A → Match) l p :
  walk matches sub ((λ x, mkIptRule [f x] RETURN) <$> l) p = if existsb (λ x, matches (f x) p) l then Some None else None.
Proof. induction l as [|x l IH]; simpl; [done|]. rewrite andb_true_r. by destruct (matches (f x) p). Qed.

Lemma walk_returns_rev {A} sub (f : A → Match) l p :
  walk matches sub (rev ((λ x, mkIptRule [f x] RETURN) <$> l)) p = if existsb (λ x, matches (f x) p) l then Some None else None.
Proof.
  induction l as [|x l IH]; csimpl; [done|]. rewrite walk_app, IH. simpl. rewrite andb_true_r.
  by destruct (matches (f x) p), (existsb _ l).
Qed.

Lemma walk_jumps {A} sub (f : A → Match) c v l p :
  sub c = Some v →
  walk matches sub ((λ x, mkIptRule [f x] (JUMP c)) <$> l) p = if existsb (λ x, matches (f x) p) l then Some (Some v) else None.
Proof.
  intros Hc. induction l as [|x l IH]; simpl; [done|]. rewrite andb_true_r, Hc. by destruct (matches (f x) p).
Qed.

(** A walk with the right results of the chains it jumps to is the decision of the table. *)
Lemma walk_decides t sub rules p :
  jumps matches p (λ c, decides t (t c) p (sub c)) rules → decides t rules p (default None (walk matches sub rules p)).
Proof using NF.
  induction 1 as [|[ms a] rules Hsub Hrules Hrest]; simpl; [apply nf_end|].
  destruct (forallb _ ms) eqn:Hm; [|by apply nf_skip].
  destruct a as [| |q|d|c]; simpl.
  - apply nf_return. by rewrite Hm.
  - apply nf_accept. by rewrite Hm.
  - apply nf_redirect. by rewrite Hm.
  - apply nf_dnat. by rewrite Hm.
  - specialize (Hsub ltac:(simpl; by rewrite Hm) c eq_refl). destruct (sub c); [apply nf_jump|apply nf_back]; by rewrite ?Hm.
Qed.
End walks.

(** ** The decisions of the table *)

Section tables.
Context (podIP dns : bool) (excluded included : list string) (outboundPorts inboundPorts : list Z) (ifaces : list string).

#[local] Abbreviation table := (load (λ _, []) (iptablesCommands podIP dns excluded included outboundPorts inboundPorts ifaces)).

#[local] Ltac chain_rules :=
  unfold iptablesCommands, append, insert_front; rewrite load_spec, !fronts_app, !backs_app, !fronts_each, !backs_each;
  destruct (decide (included = [])), (decide (outboundPorts = [])), (decide (inboundPorts = []));
  rewrite ?fronts_app, ?backs_app, ?fronts_each, ?backs_each; destruct podIP, dns; simpl;
  rewrite ?app_nil_r, <-?app_assoc, ?rev_app_distr; reflexivity.

Lemma table_in_redirect : table IN_REDIRECT = [mkIptRule [Proto "tcp"] (REDIRECT SidecarInboundListenerPort)].
Proof. chain_rules. Qed.

Lemma table_out_redirect :
  table OUT_REDIRECT = [mkIptRule [Proto "tcp"] (REDIRECT SidecarOutboundListenerPort); mkIptRule [Proto "tcp"; Dport SidecarAdminPort] ACCEPT].
Proof. chain_rules. Qed.

Lemma table_prerouting : table "PREROUTING" = [mkIptRule [Proto "tcp"] (JUMP INBOUND)].
Proof. chain_rules. Qed.

Lemma table_output :
  table "OUTPUT" =
    (if podIP then [mkIptRule [Proto "tcp"; OutInterface "lo"; Destination false "127.0.0.1/32"; Owner false SidecarUID] (DNAT "$POD_IP")] else []) ++
    [mkIptRule [Proto "tcp"] (JUMP OUTBOUND)] ++
    (if dns then [mkIptRule [Proto "udp"; Destination false "127.0.0.153"; Dport 53] (DNAT "127.0.0.153:5300")] else []).
Proof. chain_rules. Qed.

Lemma table_inbound :
  table INBOUND =
    (if decide (inboundPorts = []) then [] else [mkIptRule [Proto "tcp"; Multiport inboundPorts] RETURN]) ++
    rev ((λ i, mkIptRule [InInterface i] RETURN) <$> ifaces) ++
    ((λ q, mkIptRule [Proto "tcp"; Dport q] RETURN) <$> reservedPorts) ++
    [mkIptRule [Proto "tcp"] (JUMP IN_REDIRECT)].
Proof. chain_rules. Qed.

Lemma table_outbound :
  table OUTBOUND =
    [mkIptRule [OutInterface "lo"; Destination true "127.0.0.1/32"; Owner false SidecarUID] (JUMP IN_REDIRECT);
     mkIptRule [OutInterface "lo"; Owner true SidecarUID] RETURN;
     mkIptRule [Owner false SidecarUID] RETURN;
     mkIptRule [Destination false "127.0.0.1/32"] RETURN] ++
    ((λ i, mkIptRule [OutInterface i] RETURN) <$> ifaces) ++
    ((λ r, mkIptRule [Destination false r] RETURN) <$> excluded) ++
    (if decide (outboundPorts = []) then [] else [mkIptRule [Proto "tcp"; Multiport outboundPorts] RETURN]) ++
    (if decide (included = []) then [mkIptRule [] (JUMP OUT_REDIRECT)]
     else ((λ r, mkIptRule [Destination false r] (JUMP OUT_REDIRECT)) <$> included) ++ [mkIptRule [] RETURN]).
Proof. chain_rules. Qed.
End tables.

Section settings.
Context (podIP dns : bool) (excluded included : list string) (outboundPorts inboundPorts : list Z) (ifaces : list string).

(** The settings of a pod that iptables takes. *)
Definition settings_accepted : Prop :=
  Forall (λ i, match_accepted (InInterface i)) ifaces ∧
  Forall (λ r, match_accepted (Destination false r)) (excluded ++ included) ∧
  Forall is_port (outboundPorts ++ inboundPorts) ∧ (length outboundPorts ≤ 15 ∧ length inboundPorts ≤ 15)%nat.

Lemma multiport_accepted chain ins ports :
  Forall is_port ports → (length ports ≤ 15)%nat → ports ≠ [] →
  command_accepted (mkCommand ins chain (mkIptRule [Proto "tcp"; Multiport ports] RETURN)).
Proof.
  intros Hp Hl Hne. unfold command_accepted. cbn -[bool_decide]. rewrite andb_true_r, bool_decide_true by set_solver. cbn -[bool_decide].
  rewrite bool_decide_true by (destruct ports; cbn in *; [done|lia]). cbn. by rewrite forallb_True.
Qed.

Lemma static_accepted cmds : forallb command_accepted cmds = true → Forall command_accepted cmds.
Proof. intros E. apply forallb_True. by rewrite E. Qed.

Lemma commands_accepted : settings_accepted → Forall command_accepted (iptablesCommands podIP dns excluded included outboundPorts inboundPorts ifaces).
Proof.
  intros (Hi & Hr & Hp & Ho & Hin). apply Forall_app in Hr as [Hex Hinc]. apply Forall_app in Hp as [Hpo Hpi].
  assert (∀ ins chain a (f : string → Match) l, Forall (λ x, match_accepted (f x)) l →
    Forall command_accepted ((λ x, mkCommand ins chain (mkIptRule [f x] a)) <$> l)) as Heach.
  { intros ins chain a f l Hl. apply Forall_fmap. eapply Forall_impl; [exact Hl|]. intros x Hx.
    unfold compose, command_accepted. cbn. by rewrite andb_true_r. }
  assert (∀ ins chain ports, Forall is_port ports → (length ports ≤ 15)%nat →
    Forall command_accepted
      (if decide (ports = []) then [] else [mkCommand ins chain (mkIptRule [Proto "tcp"; Multiport ports] RETURN)])) as Hports.
  { intros ins chain ports ? ?. case_decide; [by apply Forall_nil|]. by apply Forall_singleton, multiport_accepted. }
  unfold iptablesCommands. apply Forall_app_2; [by apply static_accepted|].
  apply Forall_app_2; [by apply Heach|]. apply Forall_app_2; [by apply Hports|].
  apply Forall_app_2; [by apply static_accepted|].
  apply Forall_app_2; [destruct dns; by apply static_accepted|].
  apply Forall_app_2; [destruct podIP; by apply static_accepted|].
  apply Forall_app_2; [by apply Heach|]. apply Forall_app_2; [by apply Heach|].
  apply Forall_app_2; [by apply Hports|].
  case_decide; [by apply static_accepted|].
  apply Forall_app_2; [by apply Heach|by apply static_accepted].
Qed.

End settings.

Section decisions.
Context `{NF : Netfilter restore matches decides}.
Context (podIP dns : bool) (excluded included : list string) (outboundPorts inboundPorts : list Z) (ifaces : list string).

#[local] Abbreviation cmds := (iptablesCommands podIP dns excluded included outboundPorts inboundPorts ifaces).
#[local] Abbreviation table := (load (λ _, []) cmds).

#[local] Ltac matching := rewrite ?nf_proto, ?nf_in, ?nf_out, ?nf_destination, ?nf_dport, ?nf_owner, ?nf_multiport.

#[local] Ltac jumping :=
  unfold jumps;
  repeat lazymatch goal with
  | |- Forall _ (_ ++ _) => apply Forall_app_2
  | |- Forall _ (rev _) => apply List.Forall_rev
  | |- Forall _ (_ <$> _) => apply Forall_fmap, Forall_true; intros ? ? ? [=]
  | |- Forall _ (_ :: _) => apply Forall_cons_2; [intros ? ? [=]; subst|]
  | |- Forall _ [] => apply Forall_nil_2
  | |- Forall _ (if decide _ then _ else _) => case_decide
  | |- Forall _ (if _ then _ else _) => case_match
  end; subst.

(** One chain, decided from those it jumps to. *)
Lemma chain_decides sub chain p o :
  jumps matches p (λ c, decides table (table c) p (sub c)) (table chain) →
  default None (walk matches sub (table chain) p) = o → decides table (table chain) p o.
Proof using NF. intros Hsub <-. by apply walk_decides. Qed.

Definition to_tcp (p : Packet) (v : Verdict) : option Verdict := if bool_decide (pk_Proto p = "tcp") then Some v else None.

Lemma in_redirect_decides p : decides table (table IN_REDIRECT) p (to_tcp p (Redirected SidecarInboundListenerPort)).
Proof using NF.
  apply chain_decides with (λ _, None); rewrite table_in_redirect; [jumping|].
  unfold to_tcp. simpl. rewrite nf_proto. by case_bool_decide.
Qed.

Lemma out_redirect_decides p : decides table (table OUT_REDIRECT) p (to_tcp p (Redirected SidecarOutboundListenerPort)).
Proof using NF.
  apply chain_decides with (λ _, None); rewrite table_out_redirect; [jumping|].
  unfold to_tcp. simpl. rewrite nf_proto. by case_bool_decide.
Qed.

(** The exclusion rule of a list of ports, which is missing for the empty list. *)
Lemma walk_ports sub ports p :
  walk matches sub (if decide (ports = []) then [] else [mkIptRule [Proto "tcp"; Multiport ports] RETURN]) p =
    if bool_decide (pk_Proto p = "tcp") && bool_decide (pk_Dport p ∈ ports) then Some None else None.
Proof using NF.
  case_decide as Hp; simpl.
  - subst. rewrite (bool_decide_false (_ ∈ [])) by set_solver. by rewrite andb_false_r.
  - matching. by rewrite andb_true_r.
Qed.

Lemma walk_included sub v p :
  sub OUT_REDIRECT = Some v →
  default None (walk matches sub
    (if decide (included = []) then [mkIptRule [] (JUMP OUT_REDIRECT)]
     else ((λ r, mkIptRule [Destination false r] (JUMP OUT_REDIRECT)) <$> included) ++ [mkIptRule [] RETURN]) p) =
  if bool_decide (included = []) || existsb (λ r, in_range r (pk_Dst p)) included then Some v else None.
Proof using NF.
  intros Hv. case_decide as Hi; simpl.
  - rewrite Hv, bool_decide_true by done. done.
  - rewrite walk_app, (walk_jumps _ _ _ v) by done. rewrite bool_decide_false by done.
    rewrite (existsb_ext _ (λ r, in_range r (pk_Dst p)) included) by (intros; by rewrite nf_destination).
    by destruct (existsb _ _).
Qed.

Lemma walk_reserved sub p :
  walk matches sub ((λ q, mkIptRule [Proto "tcp"; Dport q] RETURN) <$> reservedPorts) p =
    if bool_decide (pk_Proto p = "tcp") && bool_decide (pk_Dport p ∈ reservedPorts) then Some None else None.
Proof using NF.
  generalize reservedPorts as ports. intros ports. induction ports as [|q l IH]; csimpl; [by rewrite andb_false_r|].
  rewrite IH, elem_of_cons_bool. matching.
  by destruct (bool_decide (pk_Proto p = "tcp")), (bool_decide (pk_Dport p = q)), (bool_decide (_ ∈ l)).
Qed.

Lemma inbound_decides p : decides table (table INBOUND) p (inbound_reference inboundPorts ifaces p).
Proof using NF.
  apply chain_decides with (λ _, to_tcp p (Redirected SidecarInboundListenerPort)); rewrite table_inbound.
  - jumping. apply in_redirect_decides.
  - rewrite !walk_app, walk_returns_rev, walk_ports, walk_reserved. unfold inbound_reference, to_tcp. cbn [walk forallb ir_Matches ir_Target]. matching.
    rewrite (existsb_ext _ (λ i, on_iface i (pk_In p)) ifaces) by (intros; apply nf_in).
    rewrite not_elem_of_app_bool.
    by destruct (bool_decide (pk_Proto p = "tcp")), (existsb _ ifaces), (bool_decide (_ ∈ inboundPorts)), (bool_decide (_ ∈ reservedPorts)).
Qed.

Lemma outbound_chain_decides p :
  pk_Proto p = "tcp" →
  decides table (table OUTBOUND) p
    (if of_sidecar p then sidecar_reference false p else application_reference excluded included outboundPorts ifaces p).
Proof using NF.
  intros Htcp.
  apply chain_decides with
    (λ c, Some (Redirected (if String.eqb c IN_REDIRECT then SidecarInboundListenerPort else SidecarOutboundListenerPort)));
    rewrite table_outbound.
  - pose proof (in_redirect_decides p) as Hin. pose proof (out_redirect_decides p) as Hout.
    unfold to_tcp in Hin, Hout. rewrite bool_decide_true in Hin, Hout by done. jumping; assumption.
  - rewrite !walk_app_default, !walk_returns, walk_ports, (walk_included _ (Redirected SidecarOutboundListenerPort)) by done.
    rewrite (existsb_ext _ (λ i, on_iface i (pk_Out p)) ifaces) by (intros; apply nf_out).
    rewrite (existsb_ext _ (λ r, in_range r (pk_Dst p)) excluded) by (intros; by rewrite nf_destination).
    unfold application_reference, sidecar_reference, of_sidecar, localhost.
    cbn [walk forallb ir_Matches ir_Target]. matching. rewrite (bool_decide_true (_ = "tcp")) by done.
    destruct (on_iface "lo" _), (in_range "127.0.0.1/32" _), (bool_decide (pk_Owner p = _)); cbn; try reflexivity;
    destruct (existsb _ ifaces), (existsb _ excluded), (bool_decide (_ ∈ outboundPorts)); cbn; try reflexivity;
    by destruct (_ || _).
Qed.

Lemma output_decides p :
  decides table (table "OUTPUT") p (outbound_reference podIP dns excluded included outboundPorts ifaces p).
Proof using NF.
  apply chain_decides with
    (λ _, if of_sidecar p then sidecar_reference false p else application_reference excluded included outboundPorts ifaces p);
    rewrite table_output.
  - jumping. apply outbound_chain_decides. revert select (Is_true _). cbn. matching. by rewrite andb_true_r, bool_decide_spec.
  - rewrite !walk_app_default. unfold outbound_reference, dns_reference, sidecar_reference, of_sidecar, localhost.
    destruct podIP, dns; cbn [walk forallb ir_Matches ir_Target]; matching.
    all: destruct (decide (pk_Proto p = "tcp")) as [E|E];
      [rewrite !(bool_decide_true (_ = "tcp")), ?(bool_decide_false (_ = "udp")) by (done || by rewrite E)
      |rewrite !(bool_decide_false (_ = "tcp")) by done]; cbn.
    all: try reflexivity.
    all: try (by destruct (bool_decide (pk_Proto p = "udp")), (in_range "127.0.0.153" _), (bool_decide (pk_Dport p = 53))).
    all: destruct (bool_decide (pk_Owner p = _)); cbn;
      [by destruct (on_iface "lo" (pk_Out p)), (in_range "127.0.0.1/32" (pk_Dst p))|].
    all: destruct (on_iface "lo" (pk_Out p)), (in_range "127.0.0.1/32" (pk_Dst p)); cbn; try done; by destruct (application_reference _ _ _ _ _).
Qed.

Lemma prerouting_decides p : decides table (table "PREROUTING") p (inbound_reference inboundPorts ifaces p).
Proof using NF.
  apply chain_decides with (λ _, inbound_reference inboundPorts ifaces p); rewrite table_prerouting.
  - jumping. apply inbound_decides.
  - cbn. matching. unfold inbound_reference.
    by destruct (bool_decide (pk_Proto p = "tcp")), (negb _), (bool_decide (_ ∉ _)).
Qed.

(** C10. The interception of a pod: when iptables takes the settings, the commands leave a
    table in which an inbound TCP packet is redirected to the inbound listener of the
    sidecar exactly when neither its interface nor its port is excluded and its port is not
    one of the sidecar's own, and an outbound packet is decided as the table of cases
    [outbound_reference] says, by its owner, its interface, its destination and its port. *)
Theorem interception_exact :
  settings_accepted excluded included outboundPorts inboundPorts ifaces →
  ∃ t, restore cmds = Some t ∧
    (∀ p o, decides t (t "PREROUTING") p o ↔ o = inbound_reference inboundPorts ifaces p) ∧
    (∀ p o, decides t (t "OUTPUT") p o ↔ o = outbound_reference podIP dns excluded included outboundPorts ifaces p).
Proof using NF.
  intros Hs. exists table. split; [by apply nf_restore, commands_accepted|].
  split; intros p o; (split; [intros Ho; eapply nf_unique; [exact Ho|]|intros ->]).
  all: first [apply prerouting_decides | apply output_decides].
Qed.
End decisions.

(** ** Annotations *)

(** The list that an annotation prints is read back. *)
Lemma port_annotation_roundtrip annotations annotation ports :
  ports ≠ [] → Forall (λ q, 0 < q < 2 ^ 63) ports →
  annotations !! annotation = Some (join "," (itoa <$> ports)) →
  GetPortExclusionListForPod annotations annotation = Ok ports.
Proof.
  intros Hne Hp Ha. unfold GetPortExclusionListForPod. rewrite Ha, split_join.
  2: by destruct ports. 2: { apply Forall_fmap, Forall_true. intros q. by apply itoa_free. }
  match goal with |- foldE ?f [] _ = _ => cut (∀ l, foldE f l (itoa <$> ports) = Ok (l ++ ports)) end; [intros E; exact (E [])|].
  clear Hne Ha. induction Hp as [|q ports Hq Hp IH]; intros l; csimpl; [by rewrite app_nil_r|].
  rewrite TrimSpace_itoa, Atoi_itoa, decide_False by lia. rewrite IH. by rewrite <-app_assoc.
Qed.

Section refused.
Context `{NF : Netfilter restore matches decides}.
Context (podIP dns : bool) (excluded included : list string) (outboundPorts global : list Z) (ifaces : list string).

(** More than fifteen ports: an annotation with distinct port numbers is read without
    an error however many there are, but with more than fifteen of them iptables refuses
    the commands whatever the other settings are, and the init container sets up nothing. *)
Theorem long_exclusions_refused (annotations : gmap string string) (ports : list Z) :
  NoDup ports → (15 < length ports)%nat → Forall (λ q, 0 < q ≤ 65535) ports →
  annotations !! InboundPortExclusionListAnnotation = Some (join "," (itoa <$> ports)) →
  ∃ l, GetPortExclusionListForPod annotations InboundPortExclusionListAnnotation = Ok l ∧
    restore (iptablesCommands podIP dns excluded included outboundPorts (MergePortExclusionLists l global) ifaces) = None.
Proof using NF.
  intros Hnd Hlen Hp Ha. exists ports. split.
  - apply port_annotation_roundtrip; [by intros ->; cbn in Hlen; lia|eapply Forall_impl; [done|]; simpl; lia|done].
  - set (inbound := MergePortExclusionLists ports global).
    assert (15 < length inbound)%nat as Hin.
    { apply (Nat.lt_le_trans _ _ _ Hlen), submseteq_length, NoDup_submseteq; [done|]. intros q Hq.
      unfold inbound, MergePortExclusionLists. rewrite elem_of_unique, elem_of_app. by right. }
    apply (nf_refuse _ (insert_front INBOUND [Proto "tcp"; Multiport inbound] RETURN) (Multiport inbound)).
    + unfold iptablesCommands. rewrite (decide_False (P:=inbound = [])) by (by intros E; rewrite E in Hin; cbn in Hin; lia).
      rewrite !elem_of_app. do 2 right. left. by apply list_elem_of_singleton.
    + right. left.
    + cbn -[bool_decide]. by rewrite bool_decide_true.
Qed.
End refused.

(** ** Witnesses *)

Module IptablesWitness.
Definition matching (m : Match) (p : Packet) : bool :=
  match m with
  | Proto s => bool_decide (pk_Proto p = s)
  | InInterface i => on_iface i (pk_In p)
  | OutInterface i => on_iface i (pk_Out p)
  | Destination n r => xorb n (in_range r (pk_Dst p))
  | Dport q => bool_decide (pk_Dport p = q)
  | Owner n u => xorb n (bool_decide (pk_Owner p = Some u))
  | Multiport ps => bool_decide (pk_Dport p ∈ ps)
  end.

Inductive runs (t : Table) (p : Packet) : list IptRule → option Verdict → Prop :=
| runs_end : runs t p [] None
| runs_skip ms a rules o : forallb (λ m, matching m p) ms = false → runs t p rules o → runs t p (mkIptRule ms a :: rules) o
| runs_return ms rules : forallb (λ m, matching m p) ms = true → runs t p (mkIptRule ms RETURN :: rules) None
| runs_accept ms rules : forallb (λ m, matching m p) ms = true → runs t p (mkIptRule ms ACCEPT :: rules) (Some Accepted)
| runs_redirect ms q rules :
    forallb (λ m, matching m p) ms = true → runs t p (mkIptRule ms (REDIRECT q) :: rules) (Some (Redirected q))
| runs_dnat ms d rules :
    forallb (λ m, matching m p) ms = true → runs t p (mkIptRule ms (DNAT d) :: rules) (Some (Translated d))
| runs_jump ms c rules v :
    forallb (λ m, matching m p) ms = true → runs t p (t c) (Some v) → runs t p (mkIptRule ms (JUMP c) :: rules) (Some v)
| runs_back ms c rules o :
    forallb (λ m, matching m p) ms = true → runs t p (t c) None → runs t p rules o → runs t p (mkIptRule ms (JUMP c) :: rules) o.

Definition restoring (cmds : list Command) : option Table :=
  if decide (Forall command_accepted cmds) then Some (load (λ _, []) cmds) else None.

Lemma runs_unique t p rules o o' : runs t p rules o → runs t p rules o' → o = o'.
Proof.
  intros Ho. revert o'. induction Ho; intros o' Ho'; inversion Ho'; subst; try congruence; auto.
  - revert select (runs t p (t c) None). intros Hn. by specialize (IHHo _ Hn).
  - revert select (runs t p (t c) (Some _)). intros Hn. by specialize (IHHo1 _ Hn).
Qed.

Lemma refused_not_accepted m : match_refused m → ¬ match_accepted m.
Proof.
  destruct m as [| | |n r| | |ps]; try done; cbn -[bool_decide].
  - unfold ipv4_range. destruct (ParseCIDR r) as [[ip net]|]; [|done]. cbn. rewrite bool_decide_spec. intros E.
    rewrite andb_True, bool_decide_spec. intros [_ E']. congruence.
  - rewrite orb_True, andb_True, !bool_decide_spec, existb_True, forallb_True, Exists_exists, Forall_forall.
    intros [|(q & Hq & Hlt)] [? Hall]; [lia|]. specialize (Hall q Hq). unfold is_port in Hall.
    rewrite bool_decide_spec in Hlt, Hall. lia.
Qed.

#[global] Instance runs_Netfilter : Netfilter restoring matching (λ t rules p o, runs t p rules o).
Proof.
  split; try done; try (intros; by constructor; try apply Is_true_true).
  - intros cmds ?. unfold restoring. by rewrite decide_True.
  - intros cmds c m Hc Hm Hr. unfold restoring. apply decide_False. rewrite Forall_forall. intros Hall.
    specialize (Hall c Hc). unfold command_accepted in Hall. rewrite forallb_True, Forall_forall in Hall.
    by apply (refused_not_accepted m), Hall.
  - intros. by eapply runs_unique.
Qed.

Lemma interception_exact_witness :
  ∃ t, restoring (iptablesCommands true true ["10.1.0.0/16"] [] [5432] [2222; 9000] ["eth1"]) = Some t ∧
    (∀ p o, runs t p (t "PREROUTING") o ↔ o = inbound_reference [2222; 9000] ["eth1"] p) ∧
    (∀ p o, runs t p (t "OUTPUT") o ↔ o = outbound_reference true true ["10.1.0.0/16"] [] [5432] ["eth1"] p).
Proof.
  apply (interception_exact (NF:=runs_Netfilter) true true ["10.1.0.0/16"] [] [5432] [2222; 9000] ["eth1"]).
  apply (bool_decide_unpack _). vm_compute. exact I.
Defined.

Definition ports : list Z := seqZ 8000 16.

Lemma long_exclusions_refused_witness :
  ∃ l, GetPortExclusionListForPod {[ InboundPortExclusionListAnnotation := join "," (itoa <$> ports) ]} InboundPortExclusionListAnnotation = Ok l ∧
    restoring (iptablesCommands false false [] [] [] (MergePortExclusionLists l [22]) []) = None.
Proof.
  apply (long_exclusions_refused (NF:=runs_Netfilter) false false [] [] [] [22] [] _ ports).
  - apply (bool_decide_unpack _). vm_compute. exact I.
  - vm_compute. lia.
  - apply (bool_decide_unpack _). vm_compute. exact I.
  - reflexivity.
Defined.
End IptablesWitness.

(** ** Examples *)

Module IptablesExamples.
#[local] Open Scope string_scope.

Example no_exclusions : GenerateIptablesCommands false false [] [] [] [] [] = String.concat newline [
  "iptables-restore --noflush <<EOF";
  "# OSM sidecar interception rules";
  "*nat";
  ":OSM_PROXY_INBOUND - [0:0]";
  ":OSM_PROXY_IN_REDIRECT - [0:0]";
  ":OSM_PROXY_OUTBOUND - [0:0]";
  ":OSM_PROXY_OUT_REDIRECT - [0:0]";
  "-A OSM_PROXY_IN_REDIRECT -p tcp -j REDIRECT --to-port 15003";
  "-A PREROUTING -p tcp -j OSM_PROXY_INBOUND";
  "-A OSM_PROXY_INBOUND -p tcp --dport 15010 -j RETURN";
  "-A OSM_PROXY_INBOUND -p tcp --dport 15901 -j RETURN";
  "-A OSM_PROXY_INBOUND -p tcp --dport 15902 -j RETURN";
  "-A OSM_PROXY_INBOUND -p tcp --dport 15903 -j RETURN";
  "-A OSM_PROXY_INBOUND -p tcp --dport 15904 -j RETURN";
  "-A OSM_PROXY_INBOUND -p tcp -j OSM_PROXY_IN_REDIRECT";
  "-A OSM_PROXY_OUT_REDIRECT -p tcp -j REDIRECT --to-port 15001";
  "-A OSM_PROXY_OUT_REDIRECT -p tcp --dport 15000 -j ACCEPT";
  "-A OUTPUT -p tcp -j OSM_PROXY_OUTBOUND";
  "-A OSM_PROXY_OUTBOUND -o lo ! -d 127.0.0.1/32 -m owner --uid-owner 1500 -j OSM_PROXY_IN_REDIRECT";
  "-A OSM_PROXY_OUTBOUND -o lo -m owner ! --uid-owner 1500 -j RETURN";
  "-A OSM_PROXY_OUTBOUND -m owner --uid-owner 1500 -j RETURN";
  "-A OSM_PROXY_OUTBOUND -d 127.0.0.1/32 -j RETURN";
  "-A OSM_PROXY_OUTBOUND -j OSM_PROXY_OUT_REDIRECT";
  "COMMIT";
  "EOF";
  ""].
Proof. reflexivity. Qed.

Example exclusions_and_inclusions : GenerateIptablesCommands false false ["1.1.1.1/32"; "2.2.2.2/32"] ["3.3.3.3/32"; "4.4.4.4/32"] [10; 20] [30; 40] ["eth0"; "eth1"] = String.concat newline [
  "iptables-restore --noflush <<EOF";
  "# OSM sidecar interception rules";
  "*nat";
  ":OSM_PROXY_INBOUND - [0:0]";
  ":OSM_PROXY_IN_REDIRECT - [0:0]";
  ":OSM_PROXY_OUTBOUND - [0:0]";
  ":OSM_PROXY_OUT_REDIRECT - [0:0]";
  "-A OSM_PROXY_IN_REDIRECT -p tcp -j REDIRECT --to-port 15003";
  "-A PREROUTING -p tcp -j OSM_PROXY_INBOUND";
  "-A OSM_PROXY_INBOUND -p tcp --dport 15010 -j RETURN";
  "-A OSM_PROXY_INBOUND -p tcp --dport 15901 -j RETURN";
  "-A OSM_PROXY_INBOUND -p tcp --dport 15902 -j RETURN";
  "-A OSM_PROXY_INBOUND -p tcp --dport 15903 -j RETURN";
  "-A OSM_PROXY_INBOUND -p tcp --dport 15904 -j RETURN";
  "-A OSM_PROXY_INBOUND -p tcp -j OSM_PROXY_IN_REDIRECT";
  "-I OSM_PROXY_INBOUND -i eth0 -j RETURN";
  "-I OSM_PROXY_INBOUND -i eth1 -j RETURN";
  "-I OSM_PROXY_INBOUND -p tcp --match multiport --dports 30,40 -j RETURN";
  "-A OSM_PROXY_OUT_REDIRECT -p tcp -j REDIRECT --to-port 15001";
  "-A OSM_PROXY_OUT_REDIRECT -p tcp --dport 15000 -j ACCEPT";
  "-A OUTPUT -p tcp -j OSM_PROXY_OUTBOUND";
  "-A OSM_PROXY_OUTBOUND -o lo ! -d 127.0.0.1/32 -m owner --uid-owner 1500 -j OSM_PROXY_IN_REDIRECT";
  "-A OSM_PROXY_OUTBOUND -o lo -m owner ! --uid-owner 1500 -j RETURN";
  "-A OSM_PROXY_OUTBOUND -m owner --uid-owner 1500 -j RETURN";
  "-A OSM_PROXY_OUTBOUND -d 127.0.0.1/32 -j RETURN";
  "-A OSM_PROXY_OUTBOUND -o eth0 -j RETURN";
  "-A OSM_PROXY_OUTBOUND -o eth1 -j RETURN";
  "-A OSM_PROXY_OUTBOUND -d 1.1.1.1/32 -j RETURN";
  "-A OSM_PROXY_OUTBOUND -d 2.2.2.2/32 -j RETURN";
  "-A OSM_PROXY_OUTBOUND -p tcp --match multiport --dports 10,20 -j RETURN";
  "-A OSM_PROXY_OUTBOUND -d 3.3.3.3/32 -j OSM_PROXY_OUT_REDIRECT";
  "-A OSM_PROXY_OUTBOUND -d 4.4.4.4/32 -j OSM_PROXY_OUT_REDIRECT";
  "-A OSM_PROXY_OUTBOUND -j RETURN";
  "COMMIT";
  "EOF";
  ""].
Proof. reflexivity. Qed.

Example proxy_mode_pod_ip : GenerateIptablesCommands true false [] [] [] [] [] = String.concat newline [
  "iptables-restore --noflush <<EOF";
  "# OSM sidecar interception rules";
  "*nat";
  ":OSM_PROXY_INBOUND - [0:0]";
  ":OSM_PROXY_IN_REDIRECT - [0:0]";
  ":OSM_PROXY_OUTBOUND - [0:0]";
  ":OSM_PROXY_OUT_REDIRECT - [0:0]";
  "-A OSM_PROXY_IN_REDIRECT -p tcp -j REDIRECT --to-port 15003";
  "-A PREROUTING -p tcp -j OSM_PROXY_INBOUND";
  "-A OSM_PROXY_INBOUND -p tcp --dport 15010 -j RETURN";
  "-A OSM_PROXY_INBOUND -p tcp --dport 15901 -j RETURN";
  "-A OSM_PROXY_INBOUND -p tcp --dport 15902 -j RETURN";
  "-A OSM_PROXY_INBOUND -p tcp --dport 15903 -j RETURN";
  "-A OSM_PROXY_INBOUND -p tcp --dport 15904 -j RETURN";
  "-A OSM_PROXY_INBOUND -p tcp -j OSM_PROXY_IN_REDIRECT";
  "-A OSM_PROXY_OUT_REDIRECT -p tcp -j REDIRECT --to-port 15001";
  "-A OSM_PROXY_OUT_REDIRECT -p tcp --dport 15000 -j ACCEPT";
  "-A OUTPUT -p tcp -j OSM_PROXY_OUTBOUND";
  "-A OSM_PROXY_OUTBOUND -o lo ! -d 127.0.0.1/32 -m owner --uid-owner 1500 -j OSM_PROXY_IN_REDIRECT";
  "-A OSM_PROXY_OUTBOUND -o lo -m owner ! --uid-owner 1500 -j RETURN";
  "-A OSM_PROXY_OUTBOUND -m owner --uid-owner 1500 -j RETURN";
  "-A OSM_PROXY_OUTBOUND -d 127.0.0.1/32 -j RETURN";
  "-I OUTPUT -p tcp -o lo -d 127.0.0.1/32 -m owner --uid-owner 1500 -j DNAT --to-destination $POD_IP";
  "-A OSM_PROXY_OUTBOUND -j OSM_PROXY_OUT_REDIRECT";
  "COMMIT";
  "EOF";
  ""].
Proof. reflexivity. Qed.
End IptablesExamples.
