(* ===== verification/Probes.v ===== *)
(** * Health probes of injected pods

    The rewriting of probes (pkg/injector/health_probes.go, pkg/models/healthprobe.go), the
    script that answers them in the sidecar (repo/codebase/probes.js and the listeners of
    main.js) and the program osm-healthcheck (cmd/osm-healthcheck), together with what the
    kubelet documents of probes.  [IntValue] is the conversion of apimachinery for ports
    that are names; [app] is what the containers of a pod listen on. *)

From S2P Require Import Prelude GoStrings Net Iptables.

#[local] Open Scope Z_scope.

(** ** Probes of containers *)

Inductive IntOrString :=
| IntPort (n : Z)
| StrPort (s : string).

#[export] Instance IntOrString_eq_dec : EqDecision IntOrString.
Proof. solve_decision. Defined.

(** [intstr.IntOrString.String]. *)
Definition IntOrString_String (p : IntOrString) : string := match p with IntPort n => itoa n | StrPort s => s end.

Abbreviation HTTPHeader := (string * string)%type.

Record HTTPGetAction := mkHTTPGetAction {
  hg_Path : string;
  hg_Port : IntOrString;
  hg_Host : string;
  hg_Scheme : string;
  hg_HTTPHeaders : list HTTPHeader;
}.

Record TCPSocketAction := mkTCPSocketAction {
  ts_Port : IntOrString;
  ts_Host : string;
}.

Record Probe := mkProbe {
  pr_Exec : option (list string);
  pr_HTTPGet : option HTTPGetAction;
  pr_TCPSocket : option TCPSocketAction;
  pr_TimeoutSeconds : Z;
}.

Record ContainerPort := mkContainerPort {
  cp_Name : string;
  cp_ContainerPort : Z;
}.

(** The probes of a container, by kind. *)
Inductive ProbeKind := Liveness | Readiness | Startup.

Record ProbedContainer := mkProbedContainer {
  pc_Ports : list ContainerPort;
  pc_Probe : ProbeKind → option Probe;
}.

(** ** Rewriting (pkg/injector/health_probes.go) *)

Record HealthProbe := mkHealthProbe {
  hp_Path : string;
  hp_Port : Z;
  hp_Timeout : Z;
  hp_IsHTTP : bool;
  hp_IsTCPSocket : bool;
}.

Abbreviation HealthProbes := (ProbeKind → option HealthProbe).

Definition UsesTCP (probes : HealthProbes) : bool :=
  let tcp k := from_option hp_IsTCPSocket false (probes k) in
  tcp Liveness || tcp Readiness || tcp Startup.

Definition HealthcheckPath : string := "/osm-healthcheck".

Definition probePortOf (k : ProbeKind) : Z :=
  match k with Liveness => LivenessProbePort | Readiness => ReadinessProbePort | Startup => StartupProbePort end.

Section rewriting.
Context (IntValue : IntOrString → Z).

(** [None] is errNoMatchingPort, with the port 0. *)
Definition getPort (namedPort : IntOrString) (containerPorts : list ContainerPort) : option Z :=
  let intPort := int32 (IntValue namedPort) in
  if decide (intPort ≠ 0) then Some intPort
  else
    let portName := IntOrString_String namedPort in
    first_some (λ p, if decide (cp_Name p ≠ "" ∧ cp_Name p = portName) then Some (cp_ContainerPort p) else None) containerPorts.

(** The headers that [rewriteProbe] appends. *)
Definition originalHeaders (isHTTP isTCPSocket isHTTPS : bool) (port : Z) (path : string) : list HTTPHeader :=
  if isTCPSocket then
    [("Original-Tcp-Port", itoa (if decide (port = 0) then if isHTTPS then 443 else port else port))]
  else if isHTTP then
    [("Original-Http-Port", itoa (if decide (port = 0) then 80 else port)); ("Original-Http-Path", path)]
  else [].

(** The probe after the rewriting, and the original. *)
Definition rewriteProbe (probe : option Probe) (port : Z) (containerPorts : list ContainerPort) : option Probe * option HealthProbe :=
  match probe with
  | None => (None, None)
  | Some p =>
    match pr_HTTPGet p, pr_TCPSocket p with
    | Some g, _ =>
      let isHTTP := bool_decide (hg_Scheme g = "") || bool_decide (hg_Scheme g = "HTTP") in
      let isTCPSocket := bool_decide (hg_Scheme g = "HTTPS") in
      let isHTTPS := negb isHTTP && isTCPSocket in
      let originalPort := default 0 (getPort (hg_Port g) containerPorts) in
      let headers := hg_HTTPHeaders g ++ originalHeaders isHTTP isTCPSocket isHTTPS originalPort (hg_Path g) in
      let scheme := if isHTTPS then "HTTP" else hg_Scheme g in
      (Some (mkProbe (pr_Exec p) (Some (mkHTTPGetAction HealthcheckPath (IntPort port) (hg_Host g) scheme headers))
               (pr_TCPSocket p) (pr_TimeoutSeconds p)),
       Some (mkHealthProbe (hg_Path g) originalPort (pr_TimeoutSeconds p * 1000000000) isHTTP isTCPSocket))
    | None, Some t =>
      let originalPort := default 0 (getPort (ts_Port t) containerPorts) in
      let headers := originalHeaders false true false originalPort "" in
      (Some (mkProbe (pr_Exec p) (Some (mkHTTPGetAction HealthcheckPath (IntPort HealthcheckPort) "" "" headers))
               None (pr_TimeoutSeconds p)),
       Some (mkHealthProbe "" originalPort (pr_TimeoutSeconds p * 1000000000) false true))
    | None, None => (Some p, None)
    end
  end.

Definition rewriteContainer (c : ProbedContainer) : ProbedContainer * HealthProbes :=
  let r k := rewriteProbe (pc_Probe c k) (probePortOf k) (pc_Ports c) in
  (mkProbedContainer (pc_Ports c) (λ k, (r k).1), λ k, (r k).2).

(** A later container replaces the probe of a kind that an earlier one recorded. *)
Definition RewriteHealthProbes (cs : list ProbedContainer) : list ProbedContainer * HealthProbes :=
  foldl (λ '(done, probes) c,
    let '(c', ps) := rewriteContainer c in
    (done ++ [c'], λ k, match ps k with Some p => Some p | None => probes k end))
    ([], λ _, None) cs.
End rewriting.

(** ** The metadata of the pod and the configuration (repo/inform.go, repo/jobs.go) *)

(** The probes of a kind in the configuration: those of the containers, in order. *)
Definition configProbes (k : ProbeKind) (cs : list ProbedContainer) : list Probe := omap (λ c, pc_Probe c k) cs.

(** ** probes.js *)

(** The traffic matches of the configuration: port, protocol, and whether
    [SourceIPRanges] is there. *)
Definition inboundTarget (matches : list (Z * string * bool)) : option string :=
  foldl (λ target '(port, protocol, ranges),
    if bool_decide (protocol = "http") && (bool_decide (target = None) || negb ranges)
    then Some ("127.0.0.1:" +:+ itoa port) else target) None matches.

Record JsProbe := mkJsProbe {
  jp_path : option string;
  jp_target : option string;
  jp_scheme : option string;
}.

(** A string that is not set and the empty string are both false. *)
Definition truthy (s : option string) : bool := match s with None | Some "" => false | Some _ => true end.

Definition parseHeader (p : JsProbe) (h : HTTPHeader) : JsProbe :=
  let p := if decide (h.1 = "Original-Http-Port") then mkJsProbe (jp_path p) (Some ("127.0.0.1:" +:+ h.2)) (jp_scheme p) else p in
  let p := if decide (h.1 = "Original-Tcp-Port") then mkJsProbe (jp_path p) (Some "127.0.0.1:15904") (Some "TCP") else p in
  if decide (h.1 = "Original-Http-Path") then mkJsProbe (Some h.2) (jp_target p) (jp_scheme p) else p.

(** The scheme is missing in the JSON of a probe that has none. *)
Definition parseProbe (inbound : option string) (config : option Probe) (port : Z) : JsProbe :=
  match config ≫= pr_HTTPGet with
  | Some g =>
    if decide (hg_Port g = IntPort port) then
      let scheme := if decide (hg_Scheme g = "") then None else Some (hg_Scheme g) in
      let p := foldl parseHeader (mkJsProbe None inbound scheme) (hg_HTTPHeaders g) in
      let target :=
        if truthy (jp_target p) then jp_target p
        else if decide (jp_scheme p = Some "HTTP") then Some "127.0.0.1:80"
        else if decide (jp_scheme p = Some "HTTPS") then Some "127.0.0.1:443" else jp_target p in
      mkJsProbe (if truthy (jp_path p) then jp_path p else Some "/") target (jp_scheme p)
    else mkJsProbe None inbound None
  | None => mkJsProbe None inbound None
  end.

(** ** The network of a pod *)

Record Request := mkRequest {
  rq_path : string;
  rq_headers : list HTTPHeader;
}.

(** What answers on a port: the status of a request, or a connection that is reset. *)
Abbreviation Server := (Request → option Z).

Section network.
Context (app : Z → option Server).

(** A connection to an address of the pod. *)
Definition dial {A} (listening : Z → option A) (target : string) : option A :=
  '(host, port) ← cut ":"%char target;
  if decide (host = "127.0.0.1") then Atoi port ≫= listening else None.

(** [http.Header.Get]. *)
Definition header_Get (hs : list HTTPHeader) (name : string) : string :=
  default "" (first_some (λ h, if equal_fold h.1 name then Some h.2 else None) hs).

Definition healthcheckHandler (rq : Request) : Z :=
  let port := header_Get (rq_headers rq) "Original-Tcp-Port" in
  if decide (port = "") then 400
  else match dial app ("127.0.0.1:" +:+ port) with
       | None => 404
       | Some _ => 200
       end.

(** The server of osm-healthcheck knows one path. *)
Definition osm_healthcheck (rq : Request) : option Z :=
  Some (if decide (rq_path rq = "/osm-healthcheck") then healthcheckHandler rq else 404).

(** What the containers listen on, with osm-healthcheck when it is there. *)
Definition local (healthcheck : bool) (port : Z) : option Server :=
  if decide (port = HealthcheckPort ∧ healthcheck) then Some osm_healthcheck else app port.

(** A pipeline of probes.js: HTTP with the path replaced, or the bytes as they come. *)
Definition probePipeline (healthcheck : bool) (p : JsProbe) : Server := λ rq,
  if decide (jp_scheme p = Some "HTTP") then
    dial (local healthcheck) (default "" (jp_target p)) ≫= λ s, s (mkRequest (default "" (jp_path p)) (rq_headers rq))
  else if truthy (jp_target p) then dial (local healthcheck) (default "" (jp_target p)) ≫= λ s, s rq
  else None.

(** The listener of a kind of probe (main.js), if there is one. *)
Definition probeListener (healthcheck : bool) (inbound : option string) (k : ProbeKind) (cs : list ProbedContainer) : option Server :=
  match head (configProbes k cs) ≫= pr_HTTPGet with
  | Some g =>
    if decide (hg_Port g = IntPort (probePortOf k))
    then Some (probePipeline healthcheck (parseProbe inbound (head (configProbes k cs)) (probePortOf k))) else None
  | None => None
  end.

(** The ports of an injected pod that are not redirected to the sidecar. *)
Definition injected (healthcheck : bool) (inbound : option string) (cs : list ProbedContainer) (port : Z) : option Server :=
  if decide (port = LivenessProbePort) then probeListener healthcheck inbound Liveness cs
  else if decide (port = ReadinessProbePort) then probeListener healthcheck inbound Readiness cs
  else if decide (port = StartupProbePort) then probeListener healthcheck inbound Startup cs
  else local healthcheck port.
End network.

(** The kubelet: a command, a request with a status from 200 to 399 as its answer, or a
    connection; over HTTPS the certificate is not verified.  Ports are looked up as
    [getPort] does. *)
Section kubelet.
Context (IntValue : IntOrString → Z) (exec : list string → bool).

Definition success (status : option Z) : bool := from_option (λ s, bool_decide (200 ≤ s < 400)) false status.

Definition probe_result (listening : Z → option Server) (ports : list ContainerPort) (p : Probe) : bool :=
  let server port := getPort IntValue port ports ≫= listening in
  match pr_Exec p, pr_HTTPGet p, pr_TCPSocket p with
  | Some cmd, _, _ => exec cmd
  | None, Some g, _ =>
    success (server (hg_Port g) ≫= λ s, s (mkRequest (if decide (hg_Path g = "") then "/" else hg_Path g) (hg_HTTPHeaders g)))
  | None, None, Some t => bool_decide (is_Some (server (ts_Port t)))
  | None, None, None => false
  end.
End kubelet.

(** ** Lemmas *)

Lemma dial_local {A} (listening : Z → option A) n :
  0 ≤ n < 2 ^ 63 → dial listening ("127.0.0.1:" +:+ itoa n) = listening n.
Proof.
  intros Hn. unfold dial, cut. change ("127.0.0.1:" +:+ itoa n) with ("127.0.0.1" +:+ String ":" (itoa n)).
  rewrite split_app_sep, split_free by (by apply itoa_free || done). simpl. by rewrite Atoi_itoa.
Qed.

(** The names that the rewriting adds. *)
Definition is_original (h : HTTPHeader) : Prop :=
  h.1 = "Original-Http-Port" ∨ h.1 = "Original-Tcp-Port" ∨ h.1 = "Original-Http-Path".

Lemma parseHeader_other p hs : Forall (λ h, ¬ is_original h) hs → foldl parseHeader p hs = p.
Proof.
  intros Hhs. revert p. induction Hhs as [|h hs Hh _ IH]; intros p; simpl; [done|].
  rewrite IH. unfold parseHeader, is_original in *. rewrite !decide_False by tauto. done.
Qed.

Section rewriting_lemmas.
Context (IntValue : IntOrString → Z).

(** Containers are rewritten one by one. *)
Lemma RewriteHealthProbes_containers cs :
  (RewriteHealthProbes IntValue cs).1 = (λ c, (rewriteContainer IntValue c).1) <$> cs.
Proof.
  unfold RewriteHealthProbes.
  match goal with |- (foldl ?f _ cs).1 = _ => cut (∀ l d p, (foldl f (d, p) l).1 = d ++ ((λ c, (rewriteContainer IntValue c).1) <$> l)) end.
  { intros E. by rewrite E. }
  intros l. induction l as [|c l IH]; intros d p; simpl; [by rewrite app_nil_r|].
  rewrite IH, <-app_assoc. done.
Qed.

Lemma rewriteProbe_None p port ports : (rewriteProbe IntValue p port ports).1 = None ↔ p = None.
Proof. destruct p as [[? [?|] [?|] ?]|]; simpl; naive_solver. Qed.

(** The first container with a probe of a kind gives the first probe of the
    configuration. *)
Lemma configProbes_first k pre c post :
  Forall (λ c, pc_Probe c k = None) pre →
  head (configProbes k (RewriteHealthProbes IntValue (pre ++ c :: post)).1) =
    match (rewriteProbe IntValue (pc_Probe c k) (probePortOf k) (pc_Ports c)).1 with
    | Some p => Some p
    | None => head (configProbes k (RewriteHealthProbes IntValue post).1)
    end.
Proof.
  intros Hpre. rewrite !RewriteHealthProbes_containers. unfold configProbes.
  induction Hpre as [|c' pre Hc' _ IH]; csimpl; [by case_match|]. by rewrite Hc'.
Qed.
End rewriting_lemmas.

Lemma probePort_injected app healthcheck inbound cs k :
  injected app healthcheck inbound cs (probePortOf k) = probeListener app healthcheck inbound k cs.
Proof. by destruct k. Qed.

Section kubelet_lemmas.
Context (IntValue : IntOrString → Z) (Hint : ∀ n, IntValue (IntPort n) = n).

Lemma getPort_number n ports : 0 < n < 2 ^ 31 → getPort IntValue (IntPort n) ports = Some n.
Proof using Hint.
  intros Hn. unfold getPort. rewrite Hint. unfold int32. rewrite Z.mod_small by lia.
  rewrite decide_True by lia. f_equal. lia.
Qed.

Lemma probePort_range k : 0 < probePortOf k < 2 ^ 31.
Proof. by destruct k. Qed.

(** What a connection of the kubelet to the port of a kind of probe meets. *)
Lemma sidecar_port app healthcheck inbound cs k ports :
  getPort IntValue (IntPort (probePortOf k)) ports ≫= injected app healthcheck inbound cs =
    probeListener app healthcheck inbound k cs.
Proof using Hint. rewrite getPort_number by apply probePort_range. apply probePort_injected. Qed.
End kubelet_lemmas.

(** The script on an HTTP probe that was rewritten. *)
Lemma parseProbe_http inbound exec tcp timeout k g n path :
  0 ≤ n < 2 ^ 63 → Forall (λ h, ¬ is_original h) (hg_HTTPHeaders g) →
  parseProbe inbound
    (Some (mkProbe exec (Some (mkHTTPGetAction HealthcheckPath (IntPort (probePortOf k)) (hg_Host g) "HTTP"
      (hg_HTTPHeaders g ++ [("Original-Http-Port", itoa n); ("Original-Http-Path", path)]))) tcp timeout)) (probePortOf k) =
  mkJsProbe (Some (if decide (path = "") then "/" else path)) (Some ("127.0.0.1:" +:+ itoa n)) (Some "HTTP").
Proof.
  intros Hn Hhs. unfold parseProbe. cbn [mbind option_bind pr_HTTPGet hg_Port hg_Scheme hg_HTTPHeaders].
  rewrite decide_True by done.
  rewrite foldl_app, (parseHeader_other _ (hg_HTTPHeaders g)) by done. simpl. f_equal. by destruct path.
Qed.

(** ** Theorems *)

Section preserved.
Context (IntValue : IntOrString → Z) (Hint : ∀ n, IntValue (IntPort n) = n).
Context (exec : list string → bool) (app : Z → option Server).

(** Probes that the pod's containers can have: an HTTP probe without headers of the names
    that the rewriting uses, of an application that does not look at them; a TCP probe. *)
Definition http_probe (p : Probe) (n : Z) : Prop :=
  ∃ g, pr_HTTPGet p = Some g ∧ hg_Scheme g = "HTTP" ∧ Forall (λ h, ¬ is_original h) (hg_HTTPHeaders g) ∧
    (∀ s path hs hs', app n = Some s → Forall is_original hs' → s (mkRequest path (hs ++ hs')) = s (mkRequest path hs)).
Definition tcp_probe (p : Probe) : Prop := pr_HTTPGet p = None ∧ is_Some (pr_TCPSocket p).
Definition port_of (p : Probe) : option IntOrString :=
  match pr_HTTPGet p with Some g => Some (hg_Port g) | None => ts_Port <$> pr_TCPSocket p end.

Lemma tcp_probe_preserved p p' ports n inbound k cs' :
  pr_Exec p = None → tcp_probe p → port_of p ≫= (λ q, getPort IntValue q ports) = Some n → 0 < n < 2 ^ 16 →
  (rewriteProbe IntValue (Some p) (probePortOf k) ports).1 = Some p' →
  probe_result IntValue exec (injected app true inbound cs') ports p' = probe_result IntValue exec app ports p.
Proof using Hint.
  destruct p as [ex g t tm]. intros Hexec [Hg [t' Ht]] Hn Hrange Hp'. simpl in *. subst. simpl in *.
  rewrite Hn in Hp'. injection Hp' as <-. unfold probe_result. simpl. rewrite (getPort_number IntValue Hint) by (unfold HealthcheckPort; lia).
  rewrite Hn. cbn [mbind option_bind]. replace (injected app true inbound cs' HealthcheckPort) with (Some (osm_healthcheck app)) by reflexivity.
  cbn [mbind option_bind]. unfold osm_healthcheck. simpl rq_path. rewrite decide_True by done. unfold healthcheckHandler.
  assert (∀ v, header_Get [("Original-Tcp-Port", v)] "Original-Tcp-Port" = v) as Hget by done.
  simpl rq_headers. rewrite Hget. replace (match decide (n = 0) with left _ | _ => n end) with n by by case_match.
  rewrite decide_False by apply itoa_ne. rewrite dial_local by lia. by destruct (app n).
Qed.

(** The first container with an HTTP probe of a kind decides for all: what the listener
    of the kind does with a request. *)
Lemma sidecar_answers_first k pre c post p n inbound cs' probes rq :
  Forall (λ c, pc_Probe c k = None) pre → pc_Probe c k = Some p → http_probe p n →
  port_of p ≫= (λ q, getPort IntValue q (pc_Ports c)) = Some n → 0 < n < 2 ^ 16 → n ≠ HealthcheckPort →
  RewriteHealthProbes IntValue (pre ++ c :: post) = (cs', probes) →
  injected app (UsesTCP probes) inbound cs' (probePortOf k) ≫= (λ s, s rq) =
    app n ≫= λ s, s (mkRequest (from_option (λ g, if decide (hg_Path g = "") then "/" else hg_Path g) "" (pr_HTTPGet p)) (rq_headers rq)).
Proof.
  intros Hpre Hp (g & Hg & Hs & Hhs & _) Hn Hrange Hnh E.
  pose proof (configProbes_first IntValue k pre c post Hpre) as Hfirst. rewrite Hp, E in Hfirst.
  destruct p as [ex g' t tm]. simpl in Hg. subst g'. simpl in Hn, Hfirst. rewrite Hn, Hs in Hfirst. simpl in Hfirst.
  unfold originalHeaders in Hfirst. rewrite decide_False in Hfirst by lia.
  rewrite probePort_injected. unfold probeListener. rewrite Hfirst. cbn [mbind option_bind pr_HTTPGet hg_Port].
  rewrite decide_True by done. cbn [mbind option_bind].
  rewrite parseProbe_http by (done || lia). unfold probePipeline.
  cbn [jp_scheme jp_target jp_path default from_option id]. rewrite (decide_True (P:=Some "HTTP" = _)) by done.
  rewrite dial_local by lia. unfold local. by rewrite (decide_False (P:=n = HealthcheckPort ∧ _)) by tauto.
Qed.

Lemma http_probe_preserved k pre c post p p' n inbound :
  Forall (λ c, pc_Probe c k = None) pre → pc_Probe c k = Some p → pr_Exec p = None → http_probe p n →
  port_of p ≫= (λ q, getPort IntValue q (pc_Ports c)) = Some n → 0 < n < 2 ^ 16 → n ≠ HealthcheckPort →
  (rewriteProbe IntValue (Some p) (probePortOf k) (pc_Ports c)).1 = Some p' →
  let '(cs', probes) := RewriteHealthProbes IntValue (pre ++ c :: post) in
  probe_result IntValue exec (injected app (UsesTCP probes) inbound cs') (pc_Ports c) p' = probe_result IntValue exec app (pc_Ports c) p.
Proof using Hint.
  intros Hpre Hp Hexec Hhttp Hn Hrange Hnh Hp'.
  destruct (RewriteHealthProbes IntValue (pre ++ c :: post)) as [cs' probes] eqn:E.
  pose proof (λ rq, sidecar_answers_first k pre c post p n inbound cs' probes rq Hpre Hp Hhttp Hn Hrange Hnh E) as Hrq.
  destruct Hhttp as (g & Hg & Hs & Hhs & Happ), p as [ex g' t tm]. simpl in Hg, Hexec. subst ex g'.
  simpl in Hn, Hp'. rewrite Hn, Hs in Hp'. simpl in Hp'. injection Hp' as <-.
  unfold probe_result. simpl. rewrite (getPort_number IntValue Hint), Hn by apply probePort_range.
  cbn [mbind option_bind]. rewrite Hrq. simpl. destruct (app n) as [s|] eqn:Es; [|done]. cbn [mbind option_bind].
  rewrite Happ; [done..|]. repeat constructor; unfold is_original; simpl; tauto.
Qed.

End preserved.

(** ** Witnesses *)

Module ProbesWitness.
Definition IntValue (p : IntOrString) : Z := match p with IntPort n => n | StrPort s => default 0 (Atoi s) end.
Definition exec (cmd : list string) : bool := true.
Definition healthz (rq : Request) : option Z := Some (if decide (rq_path rq = "/healthz") then 200 else 404).
Definition database (rq : Request) : option Z := None.
Definition app (port : Z) : option Server :=
  if decide (port = 8080) then Some healthz else if decide (port = 5432) then Some database else None.

Definition http (path : string) (port : IntOrString) : Probe := mkProbe None (Some (mkHTTPGetAction path port "" "HTTP" [])) None 1.
Definition tcp (port : Z) : Probe := mkProbe None None (Some (mkTCPSocketAction (IntPort port) "")) 1.
Definition container (ports : list ContainerPort) (liveness : Probe) : ProbedContainer :=
  mkProbedContainer ports (λ k, match k with Liveness => Some liveness | _ => None end).
Definition web : ProbedContainer := container [mkContainerPort "web" 8080] (http "/healthz" (StrPort "web")).
Definition db : ProbedContainer := container [] (tcp 5432).


(** Two containers with a liveness probe: the TCP probe of the first is lost when the
    second has an HTTP probe, since only the last probe of a kind tells whether
    osm-healthcheck is needed. *)
Example healthcheck_missing :
  let '(cs', probes) := RewriteHealthProbes IntValue [db; web] in
  UsesTCP probes = false ∧
  probe_result IntValue exec app [] (tcp 5432) = true ∧
  (λ p, probe_result IntValue exec (injected app (UsesTCP probes) None cs') [] p) <$> (head cs' ≫= λ c, pc_Probe c Liveness) = Some false.
Proof. vm_compute. done. Qed.

(** Two containers with an HTTP liveness probe: the second is reported healthy although
    nothing listens at its port, since the sidecar asks the first. *)
Example second_probe_misdirected :
  let '(cs', probes) := RewriteHealthProbes IntValue [web; container [] (http "/" (IntPort 9090))] in
  probe_result IntValue exec app [] (http "/" (IntPort 9090)) = false ∧
  (λ p, probe_result IntValue exec (injected app (UsesTCP probes) None cs') [] p) <$> (cs' !! 1%nat ≫= λ c, pc_Probe c Liveness) = Some true.
Proof. vm_compute. done. Qed.
End ProbesWitness.
