(* ===== verification/EnvoyRbac.v ===== *)
(** * pkg/sidecar/providers/envoy: access control in Envoy

    rbac/policy.go, lds/rbac.go and rds/route/rbac.go: the RBAC policies that Envoy
    sidecars enforce on connections and on requests.  The messages are those of Envoy's
    API, as far as they are filled in; the engine that evaluates them is Envoy's, a
    parameter with its documented behaviour ([RbacEngine]). *)

From S2P Require Import Prelude GoStrings Identity Service TrafficPolicy K8s K8sClient Smi Catalog.

#[local] Open Scope Z_scope.

(** ** Messages *)

#[warnings="-register-all"]
Inductive Permission :=
| PermissionAny
| PermissionDestinationPort (port : Z)
| PermissionAndRules (rules : list Permission).

(** [Authenticated] has an exact matcher. *)
Inductive Principal :=
| PrincipalAny
| PrincipalAuthenticated (name : string).

Record RbacPolicy := mkRbacPolicy {
  rp_Permissions : list Permission;
  rp_Principals : list Principal;
}.

(** The action is always ALLOW: deny, unless a policy matches. *)
Record RBAC := mkRBAC {
  rbac_StatPrefix : string;
  rbac_Policies : gmap string RbacPolicy;
}.

(** ** PolicyBuilder *)

Record PolicyBuilder := mkPolicyBuilder {
  pb_allowedPorts : list Z;
  pb_allowedPrincipals : list string;
  pb_allowAllPrincipals : bool;
  pb_applyPermissionsAsAnd : bool;
}.

Definition newPolicyBuilder : PolicyBuilder := mkPolicyBuilder [] [] false false.

Definition GetAuthenticatedPrincipal (principalName : string) : Principal := PrincipalAuthenticated principalName.
Definition getAnyPrincipal : Principal := PrincipalAny.
Definition getAnyPermission : Permission := PermissionAny.
Definition andPermission (permissions : list Permission) : Permission := PermissionAndRules permissions.
Definition GetDestinationPortPermission (port : Z) : Permission := PermissionDestinationPort port.

Definition Build (p : PolicyBuilder) : RbacPolicy :=
  let principals := GetAuthenticatedPrincipal <$> pb_allowedPrincipals p in
  let principals := if decide (principals = []) then [getAnyPrincipal] else principals in
  let permissions := GetDestinationPortPermission <$> pb_allowedPorts p in
  let permissions := if decide (permissions = []) then [getAnyPermission] else permissions in
  mkRbacPolicy (if pb_applyPermissionsAsAnd p then [andPermission permissions] else permissions) principals.

Definition UseANDForPermissions (p : PolicyBuilder) (val : bool) : PolicyBuilder :=
  mkPolicyBuilder (pb_allowedPorts p) (pb_allowedPrincipals p) (pb_allowAllPrincipals p) val.

Definition AllowAnyPrincipal (p : PolicyBuilder) : PolicyBuilder :=
  mkPolicyBuilder (pb_allowedPorts p) [] true (pb_applyPermissionsAsAnd p).

Definition AddPrincipal (p : PolicyBuilder) (principal : string) : PolicyBuilder :=
  let p := if decide (principal = WildcardPrincipal) then AllowAnyPrincipal p else p in
  if pb_allowAllPrincipals p then p
  else mkPolicyBuilder (pb_allowedPorts p) (pb_allowedPrincipals p ++ [principal]) (pb_allowAllPrincipals p)
         (pb_applyPermissionsAsAnd p).

Definition AddAllowedDestinationPort (p : PolicyBuilder) (port : Z) : PolicyBuilder :=
  mkPolicyBuilder (pb_allowedPorts p ++ [uint32 port]) (pb_allowedPrincipals p) (pb_allowAllPrincipals p)
    (pb_applyPermissionsAsAnd p).

(** ** The network filter (lds/rbac.go) *)

Definition buildRBACPolicyFromTrafficTarget (trafficTarget : TrafficTargetWithRoutes) (trustDomain : string) : RbacPolicy :=
  let pb := foldl (λ pb s, AddPrincipal pb (AsPrincipal s trustDomain)) newPolicyBuilder (ttr_Sources trafficTarget) in
  Build (foldl (λ pb m, foldl AddAllowedDestinationPort pb (trm_Ports m)) pb (ttr_TCPRouteMatches trafficTarget)).

(** The catalog returns no error. *)
Definition buildInboundRBACPolicies (mc : MeshCatalog) (serviceIdentity : ServiceIdentity) (trustDomain : string) : RBAC := {|
  rbac_StatPrefix := "network-";
  rbac_Policies := foldl (λ m t, <[ttr_Name t := buildRBACPolicyFromTrafficTarget t trustDomain]> m) ∅
                     (ListInboundTrafficTargetsWithRoutes mc serviceIdentity);
|}.

(** ** The filter of a route (rds/route/rbac.go) *)

Definition rbacPerRoutePolicyName : string := "rbac-for-route".

(** The set of principals of a rule is never nil in the catalog. *)
Definition buildInboundRBACFilterForRule `{RangeOrder} (rule : Rule) : RBAC := {|
  rbac_StatPrefix := "";
  rbac_Policies := {[rbacPerRoutePolicyName := Build (foldl AddPrincipal newPolicyBuilder (range_set (rule_AllowedPrincipals rule)))]};
|}.

(** ** Envoy's engine *)

(** A connection: the principal of the certificate of the peer, if it has one, and the
    destination port. *)
Record Connection := mkConnection {
  conn_principal : option string;
  conn_port : Z;
}.

(** What Envoy documents of the messages. *)
Fixpoint permission_matches (p : Permission) (c : Connection) : bool :=
  match p with
  | PermissionAny => true
  | PermissionDestinationPort port => bool_decide (conn_port c = port)
  | PermissionAndRules rules => forallb (λ p, permission_matches p c) rules
  end.

Definition principal_matches (p : Principal) (c : Connection) : bool :=
  match p with
  | PrincipalAny => true
  | PrincipalAuthenticated name => bool_decide (conn_principal c = Some name)
  end.

(** A policy matches when one of its permissions and one of its principals match, and a
    filter lets through what some policy matches. *)
Class RbacEngine (allows : RBAC → Connection → bool) : Prop :=
  engine_allows : ∀ rbac c, allows rbac c = true ↔
    ∃ name policy, rbac_Policies rbac !! name = Some policy ∧
      Exists (λ p, permission_matches p c = true) (rp_Permissions policy) ∧
      Exists (λ p, principal_matches p c = true) (rp_Principals policy).

(** ** Theorems *)

(** A list of principals that lets a connection through: none, a wildcard, or its own. *)
Definition admits_principal (principals : list string) (c : Connection) : Prop :=
  principals = [] ∨ WildcardPrincipal ∈ principals ∨ ∃ p, conn_principal c = Some p ∧ p ∈ principals.

(** The builder after [AddPrincipal] for each of a list. *)
Record added (principals : list string) (pb : PolicyBuilder) : Prop := {
  added_all : pb_allowAllPrincipals pb = bool_decide (WildcardPrincipal ∈ principals);
  added_some : WildcardPrincipal ∉ principals → pb_allowedPrincipals pb = principals;
  added_none : WildcardPrincipal ∈ principals → pb_allowedPrincipals pb = [];
  added_ports : pb_allowedPorts pb = [];
  added_and : pb_applyPermissionsAsAnd pb = false;
}.

Lemma AddPrincipal_added l p pb : added l pb → added (l ++ [p]) (AddPrincipal pb p).
Proof.
  intros [Ha Hs Hn Hp Hand]. unfold AddPrincipal. destruct (decide (p = WildcardPrincipal)) as [->|Hne]; simpl.
  - split; simpl; try done; [rewrite bool_decide_true; set_solver|set_solver].
  - rewrite Ha. case_bool_decide as Hw.
    + split; try done; [rewrite Ha, !bool_decide_true; set_solver|set_solver|by intros _; apply Hn].
    + split; simpl; try done; [rewrite !bool_decide_false; set_solver|intros _; by rewrite Hs|set_solver].
Qed.

Lemma foldl_AddPrincipal l l0 pb : added l0 pb → added (l0 ++ l) (foldl AddPrincipal pb l).
Proof.
  revert l0 pb. induction l as [|p l IH]; intros l0 pb Hadd; [by rewrite app_nil_r|].
  rewrite cons_middle, app_assoc. by apply IH, AddPrincipal_added.
Qed.

Lemma AddPrincipal_list l : added l (foldl AddPrincipal newPolicyBuilder l).
Proof. apply (foldl_AddPrincipal l []). by split. Qed.

Lemma foldl_AddPort ports pb :
  let pb' := foldl AddAllowedDestinationPort pb ports in
  pb_allowedPorts pb' = pb_allowedPorts pb ++ (uint32 <$> ports) ∧ pb_allowedPrincipals pb' = pb_allowedPrincipals pb ∧
  pb_applyPermissionsAsAnd pb' = pb_applyPermissionsAsAnd pb.
Proof.
  revert pb. induction ports as [|port ports IH]; intros pb; simpl; [by rewrite app_nil_r|].
  destruct (IH (AddAllowedDestinationPort pb port)) as (-> & -> & ->). simpl. by rewrite <-app_assoc.
Qed.

Lemma foldl_AddPorts matches pb :
  let pb' := foldl (λ pb m, foldl AddAllowedDestinationPort pb (trm_Ports m)) pb matches in
  pb_allowedPorts pb' = pb_allowedPorts pb ++ (uint32 <$> (matches ≫= trm_Ports)) ∧
  pb_allowedPrincipals pb' = pb_allowedPrincipals pb ∧ pb_applyPermissionsAsAnd pb' = pb_applyPermissionsAsAnd pb.
Proof.
  revert pb. induction matches as [|m matches IH]; intros pb; simpl; [by rewrite app_nil_r|].
  destruct (IH (foldl AddAllowedDestinationPort pb (trm_Ports m))) as (-> & -> & ->).
  destruct (foldl_AddPort (trm_Ports m) pb) as (-> & -> & ->). by rewrite fmap_app, <-app_assoc.
Qed.

Lemma Exists_fmap_eq {A B} (f : A → B) (P : B → Prop) l : Exists P (f <$> l) ↔ ∃ x, x ∈ l ∧ P (f x).
Proof. rewrite Exists_exists. setoid_rewrite list_elem_of_fmap. naive_solver. Qed.

(** The principals of a policy that was built from a list. *)
Lemma Build_principals pb l c :
  (WildcardPrincipal ∉ l → pb_allowedPrincipals pb = l) → (WildcardPrincipal ∈ l → pb_allowedPrincipals pb = []) →
  Exists (λ p, principal_matches p c = true) (rp_Principals (Build pb)) ↔ admits_principal l c.
Proof.
  intros Hs Hn. unfold admits_principal, Build. cbn [rp_Principals].
  destruct (decide (WildcardPrincipal ∈ l)) as [Hw|Hw].
  - rewrite Hn by done. simpl. rewrite Exists_cons. naive_solver.
  - rewrite Hs by done. destruct l as [|p l]; [simpl; rewrite Exists_cons; naive_solver|].
    rewrite decide_False by done. rewrite Exists_fmap_eq. simpl. setoid_rewrite bool_decide_eq_true. naive_solver.
Qed.

Lemma Build_permissions pb ports c :
  pb_allowedPorts pb = uint32 <$> ports → pb_applyPermissionsAsAnd pb = false →
  Exists (λ p, permission_matches p c = true) (rp_Permissions (Build pb)) ↔
  ports = [] ∨ ∃ port, port ∈ ports ∧ conn_port c = uint32 port.
Proof.
  intros Hp Hand. unfold Build. cbn [rp_Permissions]. rewrite Hand, Hp.
  destruct ports as [|p ports]; [simpl; rewrite Exists_cons; naive_solver|].
  rewrite decide_False by done. rewrite <-list_fmap_compose, Exists_fmap_eq. simpl. setoid_rewrite bool_decide_eq_true. naive_solver.
Qed.

(** The policy of a TrafficTarget matches a connection of its sources to its ports. *)
Lemma target_policy t td c :
  let policy := buildRBACPolicyFromTrafficTarget t td in
  Exists (λ p, permission_matches p c = true) (rp_Permissions policy) ∧
  Exists (λ p, principal_matches p c = true) (rp_Principals policy) ↔
  ((ttr_TCPRouteMatches t ≫= trm_Ports) = [] ∨ ∃ port, port ∈ ttr_TCPRouteMatches t ≫= trm_Ports ∧ conn_port c = uint32 port) ∧
  admits_principal ((λ s, AsPrincipal s td) <$> ttr_Sources t) c.
Proof.
  intros policy. unfold policy, buildRBACPolicyFromTrafficTarget.
  set (pb := foldl (λ pb s, AddPrincipal pb (AsPrincipal s td)) newPolicyBuilder (ttr_Sources t)).
  assert (added ((λ s, AsPrincipal s td) <$> ttr_Sources t) pb) as Hadd.
  { unfold pb. rewrite <-(foldl_fmap AddPrincipal newPolicyBuilder (ttr_Sources t) (λ s, AsPrincipal s td)). apply AddPrincipal_list. }
  destruct Hadd as [_ Hs Hn Hp Hand]. destruct (foldl_AddPorts (ttr_TCPRouteMatches t) pb) as (Hports & Hprin & Hand').
  rewrite (Build_permissions _ (ttr_TCPRouteMatches t ≫= trm_Ports)); [|by rewrite Hports, Hp|congruence].
  rewrite (Build_principals _ ((λ s, AsPrincipal s td) <$> ttr_Sources t)); [done|by rewrite Hprin|by rewrite Hprin].
Qed.

Lemma foldl_insert_lookup {A B} (key : A → string) (f : A → B) (l : list A) k v :
  NoDup (key <$> l) →
  foldl (λ m x, <[key x := f x]> m) (∅ : gmap string B) l !! k = Some v ↔ ∃ x, x ∈ l ∧ key x = k ∧ f x = v.
Proof.
  induction l as [|x l IH] using rev_ind; [simpl; set_solver|].
  rewrite fmap_app, NoDup_app. intros (Hnd & Hnew & _). rewrite foldl_app. simpl.
  rewrite lookup_insert_Some, IH by done. setoid_rewrite elem_of_app. setoid_rewrite list_elem_of_singleton. split.
  - intros [[<- <-]|(Hne & y & Hy & <- & <-)]; eauto.
  - intros (y & [Hy| ->] & <- & <-); [|by left]. right. split; [|eauto].
    intros E. apply (Hnew (key y)); [by apply list_elem_of_fmap; eauto|]. rewrite <-E. csimpl. left.
Qed.

Section network.
Context (mc : MeshCatalog).

Lemma tcp_ports_uint16 ns rules ms port :
  tcpRouteMatches mc ns rules = Ok ms → port ∈ ms ≫= trm_Ports → uint32 port = port.
Proof.
  revert ms. induction rules as [|r rules IH]; intros ms; cbn [tcpRouteMatches]; [intros [= <-]; set_solver|].
  case_decide; [|apply IH]. destruct (spec_GetTCPRoute _ _) as [tcp|]; [|done].
  destruct (tcpRouteMatches mc ns rules) as [ms'|]; [|done]. intros [= <-]. csimpl. rewrite elem_of_app. intros [Hp|Hp]; [|by eapply IH].
  apply list_elem_of_fmap in Hp as (p & -> & _). unfold uint16, uint32. apply Z.mod_small.
  pose proof (Z.mod_pos_bound p (2 ^ 16)). lia.
Qed.

Lemma source_principal s td : AsPrincipal (trafficTargetIdentityToServiceIdentity s) td ≠ WildcardPrincipal.
Proof.
  unfold AsPrincipal, IsWildcard. case_bool_decide as Hw.
  - exfalso. revert Hw. unfold trafficTargetIdentityToServiceIdentity, ToServiceIdentity. simpl.
    destruct (ibsub_Name s) as [|a [|b n]]; intros [=].
  - destruct (trafficTargetIdentityToServiceIdentity s) as [|a [|b n]]; intros [=].
Qed.

Lemma admits_sources sources td c :
  admits_principal ((λ s, AsPrincipal s td) <$> (trafficTargetIdentityToServiceIdentity <$> sources)) c ↔
  sources = [] ∨ ∃ s, s ∈ sources ∧ conn_principal c = Some (AsPrincipal (trafficTargetIdentityToServiceIdentity s) td).
Proof.
  unfold admits_principal. rewrite <-list_fmap_compose. split.
  - intros [E|[(s & E & Hs)%list_elem_of_fmap|(p & E & (s & -> & Hs)%list_elem_of_fmap)]].
    + left. by destruct sources.
    + by destruct (source_principal s td).
    + right. eauto.
  - intros [->|(s & Hs & E)]; [by left|]. right. right. eexists. split; [exact E|]. apply list_elem_of_fmap. eauto.
Qed.

(** What the catalog lists for a TrafficTarget. *)
Definition withRoutes (t : TrafficTarget) (ms : list TCPRouteMatch) : TrafficTargetWithRoutes := {|
  ttr_Name := tt_Namespace t +:+ "/" +:+ tt_Name t;
  ttr_Destination := trafficTargetIdentityToServiceIdentity (tt_Destination t);
  ttr_Sources := trafficTargetIdentityToServiceIdentity <$> tt_Sources t;
  ttr_TCPRouteMatches := ms |}.

Lemma elem_of_inbound_targets si r :
  cfg_IsPermissiveTrafficPolicyMode (mc_configurator mc) = false →
  r ∈ ListInboundTrafficTargetsWithRoutes mc si ↔
  ∃ t ms, t ∈ spec_ListTrafficTargets (mc_meshSpec mc) [] ∧
    ToServiceIdentity (trafficTargetIdentityToSvcAccount (tt_Destination t)) = si ∧
    getTCPRouteMatchesFromTrafficTarget mc t = Ok ms ∧ r = withRoutes t ms.
Proof.
  intros Hperm. unfold ListInboundTrafficTargetsWithRoutes. rewrite Hperm, list_elem_of_bind. split.
  - intros (t & Hr & Ht). case_decide; [|by apply elem_of_nil in Hr].
    destruct (getTCPRouteMatchesFromTrafficTarget mc t) as [ms|] eqn:E; [|by apply elem_of_nil in Hr].
    apply list_elem_of_singleton in Hr as ->. by exists t, ms.
  - intros (t & ms & Ht & Hd & E & ->). exists t. split; [|done]. rewrite decide_True, E by done. by left.
Qed.

Lemma inbound_targets_NoDup si :
  NoDup ((λ t, tt_Namespace t +:+ "/" +:+ tt_Name t) <$> spec_ListTrafficTargets (mc_meshSpec mc) []) →
  NoDup (ttr_Name <$> ListInboundTrafficTargetsWithRoutes mc si).
Proof.
  unfold ListInboundTrafficTargetsWithRoutes. destruct (cfg_IsPermissiveTrafficPolicyMode _); [constructor|].
  induction (spec_ListTrafficTargets (mc_meshSpec mc) []) as [|t l IH]; [constructor|].
  csimpl in *. intros [Hnot Hnd]%NoDup_cons. specialize (IH Hnd).
  assert (tt_Namespace t +:+ "/" +:+ tt_Name t ∉ ttr_Name <$> (l ≫= λ t,
    if decide (ToServiceIdentity (trafficTargetIdentityToSvcAccount (tt_Destination t)) = si) then
      match getTCPRouteMatchesFromTrafficTarget mc t with Err _ => [] | Ok matches => [withRoutes t matches] end else [])) as Hnew.
  { intros (r & E & (t' & Hr & Ht')%list_elem_of_bind)%list_elem_of_fmap. apply Hnot, list_elem_of_fmap. exists t'. split; [|done].
    case_decide; [|by apply elem_of_nil in Hr]. destruct (getTCPRouteMatchesFromTrafficTarget mc t'); [|by apply elem_of_nil in Hr].
    by apply list_elem_of_singleton in Hr as ->. }
  case_decide; [|done]. destruct (getTCPRouteMatchesFromTrafficTarget mc t); [|done]. csimpl. by constructor.
Qed.

Context (allows : RBAC → Connection → bool) `{!RbacEngine allows}.

(** C28. The network filter of an Envoy sidecar lets a connection through exactly when a
    TrafficTarget for the identity of the sidecar has the peer among its sources, or has no
    sources, and has the port among its TCP routes, or has no TCP routes.  So a TrafficTarget
    with HTTP routes only opens every TCP port of the workload to its sources. *)
Theorem network_rbac_exact (si : ServiceIdentity) (td : string) (c : Connection) :
  cfg_IsPermissiveTrafficPolicyMode (mc_configurator mc) = false →
  NoDup ((λ t, tt_Namespace t +:+ "/" +:+ tt_Name t) <$> spec_ListTrafficTargets (mc_meshSpec mc) []) →
  allows (buildInboundRBACPolicies mc si td) c = true ↔
  ∃ t ms, t ∈ spec_ListTrafficTargets (mc_meshSpec mc) [] ∧
    ToServiceIdentity (trafficTargetIdentityToSvcAccount (tt_Destination t)) = si ∧
    getTCPRouteMatchesFromTrafficTarget mc t = Ok ms ∧
    (tt_Sources t = [] ∨ ∃ s, s ∈ tt_Sources t ∧ conn_principal c = Some (AsPrincipal (trafficTargetIdentityToServiceIdentity s) td)) ∧
    ((ms ≫= trm_Ports) = [] ∨ conn_port c ∈ ms ≫= trm_Ports).
Proof using RbacEngine0.
  intros Hperm Hnd. rewrite engine_allows. unfold buildInboundRBACPolicies. cbn [rbac_Policies].
  setoid_rewrite (foldl_insert_lookup ttr_Name (λ t, buildRBACPolicyFromTrafficTarget t td)); [|by apply inbound_targets_NoDup].
  transitivity (∃ r, r ∈ ListInboundTrafficTargetsWithRoutes mc si ∧
    ((ttr_TCPRouteMatches r ≫= trm_Ports) = [] ∨ ∃ port, port ∈ ttr_TCPRouteMatches r ≫= trm_Ports ∧ conn_port c = uint32 port) ∧
    admits_principal ((λ s, AsPrincipal s td) <$> ttr_Sources r) c).
  { split.
    - intros (n & p & (r & Hr & <- & <-) & Hm). exists r. split; [done|]. by apply target_policy.
    - intros (r & Hr & Hm%target_policy). eauto 10. }
  setoid_rewrite elem_of_inbound_targets; [|done]. split.
  - intros (r & (t & ms & Ht & Hd & E & ->) & Hports & Hsrc). exists t, ms. do 3 (split; [done|]).
    split; [by apply admits_sources|]. destruct Hports as [?|(port & Hp & ->)]; [by left|right]. by rewrite (tcp_ports_uint16 _ _ _ _ E Hp).
  - intros (t & ms & Ht & Hd & E & Hsrc & Hports). exists (withRoutes t ms). split; [by exists t, ms|].
    split; [|by apply admits_sources]. destruct Hports as [?|Hp]; [by left|right].
    eexists. split; [done|]. by rewrite (tcp_ports_uint16 _ _ _ _ E Hp).
Qed.
End network.

(** The filter of a route lets through the principals of its rule; a rule with none is
    open to everyone. *)
Lemma route_rbac_exact `{RangeOrder} (allows : RBAC → Connection → bool) `{!RbacEngine allows} (rule : Rule) (c : Connection) :
  allows (buildInboundRBACFilterForRule rule) c = true ↔
  rule_AllowedPrincipals rule = ∅ ∨ WildcardPrincipal ∈ rule_AllowedPrincipals rule ∨
  ∃ p, conn_principal c = Some p ∧ p ∈ rule_AllowedPrincipals rule.
Proof.
  rewrite engine_allows. unfold buildInboundRBACFilterForRule. cbn [rbac_Policies].
  pose proof (AddPrincipal_list (range_set (rule_AllowedPrincipals rule))) as [_ Hs Hn Hp Hand].
  setoid_rewrite lookup_singleton_Some.
  transitivity (admits_principal (range_set (rule_AllowedPrincipals rule)) c).
  - rewrite <-(Build_principals _ _ c Hs Hn). split; [by intros (n & pol & [_ Ep] & _ & Hx); subst pol|].
    intros Hpr. eexists _, _. split; [done|]. split; [|done].
    apply (Build_permissions _ []); [by rewrite Hp|done|by left].
  - unfold admits_principal. setoid_rewrite elem_of_range_set.
    assert (range_set (rule_AllowedPrincipals rule) = [] ↔ rule_AllowedPrincipals rule = ∅) as ->; [|done].
    split; [intros E; apply elem_of_equiv_empty_L; intros x Hx%elem_of_range_set; by rewrite E in Hx; apply elem_of_nil in Hx|].
    intros ->. apply range_set_empty.
Qed.
