(* ===== verification/EnvoyProxy.v ===== *)
(** * pkg/sidecar/providers/envoy: proxies

    proxy.go and types.go: what the control plane keeps of an Envoy proxy that is
    connected to it, with the versions and nonces of the discovery protocol.  UUIDs are
    strings; times are nanoseconds. *)

From S2P Require Import Prelude GoStrings Identity.

#[local] Open Scope Z_scope.

(** ** Types of resources *)

Abbreviation TypeURI := string.

Definition TypeEmptyURI : TypeURI := "".
Definition TypeSDS : TypeURI := "type.googleapis.com/envoy.extensions.transport_sockets.tls.v3.Secret".
Definition TypeCDS : TypeURI := "type.googleapis.com/envoy.config.cluster.v3.Cluster".
Definition TypeLDS : TypeURI := "type.googleapis.com/envoy.config.listener.v3.Listener".
Definition TypeRDS : TypeURI := "type.googleapis.com/envoy.config.route.v3.RouteConfiguration".
Definition TypeEDS : TypeURI := "type.googleapis.com/envoy.config.endpoint.v3.ClusterLoadAssignment".
Definition TypeUpstreamTLSContext : TypeURI :=
  "type.googleapis.com/envoy.extensions.transport_sockets.tls.v3.UpstreamTlsContext".
Definition TypeZipkinConfig : TypeURI := "type.googleapis.com/envoy.config.trace.v3.ZipkinConfig".

Definition XDSResponseOrder : list TypeURI := [TypeCDS; TypeEDS; TypeLDS; TypeRDS; TypeSDS].

Definition IsWildcardTypeURI (t : TypeURI) : bool := bool_decide (t = TypeCDS) || bool_decide (t = TypeLDS).

(** The keys of [ValidURI], each of which is its own value. *)
Definition ValidURI (url : string) : option TypeURI :=
  if decide (url ∈ [TypeEmptyURI; TypeSDS; TypeCDS; TypeLDS; TypeRDS; TypeEDS; TypeUpstreamTLSContext; TypeZipkinConfig])
  then Some url else None.

(** ** Proxies *)

Record PodMetadata := mkPodMetadata {
  pm_UID : string;
  pm_Name : string;
  pm_Namespace : string;
  pm_ServiceAccount : K8sServiceAccount;
  pm_WorkloadKind : string;
  pm_WorkloadName : string;
}.

Record Proxy := mkProxy {
  p_UUID : string;
  p_Identity : ServiceIdentity;
  p_kind : string;
  p_connectedAt : Z;
  p_lastSentVersion : gmap TypeURI Z;
  p_lastAppliedVersion : gmap TypeURI Z;
  p_lastNonce : gmap TypeURI string;
  p_lastxDSResourcesSent : gmap TypeURI (gset string);
  p_subscribedResources : gmap TypeURI (gset string);
  p_PodMetadata : option PodMetadata;
}.

Definition NewProxy (kind uuid : string) (svcIdentity : ServiceIdentity) (now : Z) : Proxy :=
  mkProxy uuid svcIdentity kind now ∅ ∅ ∅ ∅ ∅ None.

Definition GetLastAppliedVersion (p : Proxy) (t : TypeURI) : Z := default 0 (p_lastAppliedVersion p !! t).
Definition GetLastSentVersion (p : Proxy) (t : TypeURI) : Z := default 0 (p_lastSentVersion p !! t).
Definition GetLastResourcesSent (p : Proxy) (t : TypeURI) : gset string := default ∅ (p_lastxDSResourcesSent p !! t).
Definition GetSubscribedResources (p : Proxy) (t : TypeURI) : gset string := default ∅ (p_subscribedResources p !! t).

Definition SetLastAppliedVersion (p : Proxy) (t : TypeURI) (version : Z) : Proxy :=
  mkProxy (p_UUID p) (p_Identity p) (p_kind p) (p_connectedAt p) (p_lastSentVersion p) (<[t := version]> (p_lastAppliedVersion p))
    (p_lastNonce p) (p_lastxDSResourcesSent p) (p_subscribedResources p) (p_PodMetadata p).
Definition SetLastSentVersion (p : Proxy) (t : TypeURI) (ver : Z) : Proxy :=
  mkProxy (p_UUID p) (p_Identity p) (p_kind p) (p_connectedAt p) (<[t := ver]> (p_lastSentVersion p)) (p_lastAppliedVersion p)
    (p_lastNonce p) (p_lastxDSResourcesSent p) (p_subscribedResources p) (p_PodMetadata p).
Definition setNonce (p : Proxy) (t : TypeURI) (nonce : string) : Proxy :=
  mkProxy (p_UUID p) (p_Identity p) (p_kind p) (p_connectedAt p) (p_lastSentVersion p) (p_lastAppliedVersion p)
    (<[t := nonce]> (p_lastNonce p)) (p_lastxDSResourcesSent p) (p_subscribedResources p) (p_PodMetadata p).
Definition SetLastResourcesSent (p : Proxy) (t : TypeURI) (resourcesSet : gset string) : Proxy :=
  mkProxy (p_UUID p) (p_Identity p) (p_kind p) (p_connectedAt p) (p_lastSentVersion p) (p_lastAppliedVersion p)
    (p_lastNonce p) (<[t := resourcesSet]> (p_lastxDSResourcesSent p)) (p_subscribedResources p) (p_PodMetadata p).
Definition SetSubscribedResources (p : Proxy) (t : TypeURI) (resourcesSet : gset string) : Proxy :=
  mkProxy (p_UUID p) (p_Identity p) (p_kind p) (p_connectedAt p) (p_lastSentVersion p) (p_lastAppliedVersion p)
    (p_lastNonce p) (p_lastxDSResourcesSent p) (<[t := resourcesSet]> (p_subscribedResources p)) (p_PodMetadata p).

(** [IncrementLastSentVersion] wraps around. *)
Definition IncrementLastSentVersion (p : Proxy) (t : TypeURI) : Proxy * Z :=
  let p := SetLastSentVersion p t (uint64 (GetLastSentVersion p t + 1)) in (p, GetLastSentVersion p t).

(** A lookup of a nonce that is not there stores the empty one. *)
Definition GetLastSentNonce (p : Proxy) (t : TypeURI) : Proxy * string :=
  match p_lastNonce p !! t with
  | None => (setNonce p t "", "")
  | Some nonce => (p, nonce)
  end.

Definition SetNewNonce (p : Proxy) (t : TypeURI) (nowUnixNano : Z) : Proxy * string :=
  let nonce := itoa nowUnixNano in (setNonce p t nonce, nonce).

Definition GetName (p : Proxy) : string := p_Identity p +:+ ":" +:+ p_UUID p.

(** [strings.LastIndex(s, "-")]: what is in front of the last hyphen. *)
Fixpoint beforeLastHyphen (s : string) : option string :=
  match s with
  | EmptyString => None
  | String c s =>
    match beforeLastHyphen s with
    | Some r => Some (String c r)
    | None => if decide (c = "-"%char) then Some "" else None
    end
  end.

Definition StatsHeaders (p : Proxy) : gmap string string :=
  let unknown := "unknown" in
  let or_unknown s := if decide (s = "") then unknown else s in
  let '(podName, podNamespace, kind, name) :=
    match p_PodMetadata p with
    | None => (unknown, unknown, unknown, unknown)
    | Some m => (or_unknown (pm_Name m), or_unknown (pm_Namespace m), or_unknown (pm_WorkloadKind m), or_unknown (pm_WorkloadName m))
    end in
  let '(kind, name) :=
    if decide (kind = "ReplicaSet") then
      match beforeLastHyphen name with Some deployment => ("Deployment", deployment) | None => (kind, name) end
    else (kind, name) in
  list_to_map [("osm-stats-pod", podName); ("osm-stats-namespace", podNamespace); ("osm-stats-kind", kind); ("osm-stats-name", name)].

(** ** Lemmas *)

(** The nonce of a type, whether it is stored or not. *)
Definition nonceOf (p : Proxy) (t : TypeURI) : string := default "" (p_lastNonce p !! t).

Lemma GetLastSentNonce_nonceOf p t : (GetLastSentNonce p t).2 = nonceOf p t.
Proof. unfold GetLastSentNonce, nonceOf. by destruct (p_lastNonce p !! t). Qed.

(** Two states that differ in empty nonces only. *)
Record same_proxy (p q : Proxy) : Prop := {
  sp_UUID : p_UUID p = p_UUID q;
  sp_Identity : p_Identity p = p_Identity q;
  sp_sent : p_lastSentVersion p = p_lastSentVersion q;
  sp_applied : p_lastAppliedVersion p = p_lastAppliedVersion q;
  sp_nonce : ∀ t, nonceOf p t = nonceOf q t;
  sp_resources : p_lastxDSResourcesSent p = p_lastxDSResourcesSent q;
  sp_subscribed : p_subscribedResources p = p_subscribedResources q;
}.

#[global] Instance same_proxy_equivalence : Equivalence same_proxy.
Proof.
  split.
  - by split.
  - intros p q []. split; naive_solver.
  - intros p q r [] []. split; congruence.
Qed.

Lemma GetLastSentNonce_same p t : same_proxy (GetLastSentNonce p t).1 p.
Proof.
  unfold GetLastSentNonce. destruct (p_lastNonce p !! t) eqn:E; [done|]. split; try done.
  intros u. unfold nonceOf. simpl. destruct (decide (u = t)) as [->|Hne]; [by rewrite lookup_insert_eq, E|by rewrite lookup_insert_ne].
Qed.
