(* ===== verification/EnvoyAds.v ===== *)
(** * pkg/sidecar/providers/envoy/ads: the aggregated discovery service

    stream.go, response.go and profile.go: the dialog of the control plane with an Envoy
    proxy on one stream, as a function on the state of the proxy and the responses sent so
    far.  A stream waits for its jobs, so that the dialog is sequential.  The resources are
    those of Envoy's API, with their names and whether they can be marshalled as parameters;
    [clock] and [sends] give, for the n-th response of the stream, the time of its nonce and
    whether the send succeeds.  The mode with a snapshot cache is not modelled. *)

From S2P Require Import Prelude GoStrings Identity EnvoyProxy.

#[local] Open Scope Z_scope.

Record DiscoveryRequest := mkDiscoveryRequest {
  dr_TypeUrl : string;
  dr_VersionInfo : string;
  dr_ResponseNonce : string;
  dr_ResourceNames : list string;
  dr_ErrorDetail : option string;
}.

(** ** The protocol *)

Definition parseRequestVersion (discoveryRequest : DiscoveryRequest) : option Z :=
  if decide (dr_VersionInfo discoveryRequest = "") then Some 0 else ParseUint (dr_VersionInfo discoveryRequest) 64.

Definition getRequestedResourceNamesSet (discoveryRequest : DiscoveryRequest) : gset string :=
  list_to_set (dr_ResourceNames discoveryRequest).

(** The state of the proxy after a request, and whether it is to be answered. *)
Definition respondToRequest (proxy : Proxy) (discoveryRequest : DiscoveryRequest) : Proxy * bool :=
  let proxy := (GetLastSentNonce proxy (dr_TypeUrl discoveryRequest)).1 in
  match ValidURI (dr_TypeUrl discoveryRequest) with
  | None => (proxy, false)
  | Some typeURL =>
    if decide (typeURL = TypeEmptyURI) then (proxy, false)
    else
      match parseRequestVersion discoveryRequest with
      | None => (proxy, false)
      | Some requestVersion =>
        match dr_ErrorDetail discoveryRequest with
        | Some _ => (proxy, false)
        | None =>
          let requestNonce := dr_ResponseNonce discoveryRequest in
          let requested := getRequestedResourceNamesSet discoveryRequest in
          if decide (requestNonce = "") then (SetSubscribedResources proxy typeURL requested, true)
          else
            let '(proxy, lastNonce) := GetLastSentNonce proxy typeURL in
            if decide (lastNonce = "") then
              let proxy := SetLastSentVersion proxy typeURL requestVersion in
              let proxy := SetLastAppliedVersion proxy typeURL requestVersion in
              (SetSubscribedResources proxy typeURL requested, true)
            else if decide (requestNonce ≠ lastNonce) then (proxy, false)
            else
              let proxy := SetLastAppliedVersion proxy typeURL requestVersion in
              if IsWildcardTypeURI typeURL then (proxy, false)
              else
                let proxy := SetSubscribedResources proxy typeURL requested in
                (proxy, bool_decide (requested ≠ GetLastResourcesSent proxy typeURL))
        end
      end
  end.

Definition shouldPushUpdate (proxy : Proxy) : Proxy * bool :=
  let '(proxy, lds) := GetLastSentNonce proxy TypeLDS in
  if decide (lds = "") then
    let '(proxy, cds) := GetLastSentNonce proxy TypeCDS in (proxy, bool_decide (cds ≠ ""))
  else (proxy, true).

Definition isCNforProxy (proxy : Proxy) (cn : string) : outcome bool :=
  match split "." cn with
  | name :: namespace :: _ :: _ =>
    sa ← ToK8sServiceAccount (p_Identity proxy);
    Ret (bool_decide (mkK8sServiceAccount namespace name = sa))
  | _ => Ret false
  end.

(** ** Responses *)

Section responses.
Context `{SortOrder} {Resource : Type} (GetResourceName : Resource → string) (marshals : Resource → bool).
Context (clock : nat → Z) (sends : nat → bool).

Record DiscoveryResponse := mkDiscoveryResponse {
  dresp_TypeUrl : string;
  dresp_VersionInfo : string;
  dresp_Nonce : string;
  dresp_Resources : list Resource;
}.

(** A stream: its proxy, and the responses that were made. *)
Record Stream := mkStream {
  st_proxy : Proxy;
  st_responses : list DiscoveryResponse;
}.

Definition validateRequestResponse (request : DiscoveryRequest) (respResources : list Resource) : Z :=
  Z.of_nat (size ((list_to_set (dr_ResourceNames request) : gset string) ∖ list_to_set (GetResourceName <$> respResources))).

(** The response counts as made also when the send fails. *)
Definition SendDiscoveryResponse (s : Stream) (request : DiscoveryRequest) (resourcesToSend : list Resource) : Stream :=
  let n := length (st_responses s) in
  let typeURI := dr_TypeUrl request in
  let '(proxy, version) := IncrementLastSentVersion (st_proxy s) typeURI in
  let '(proxy, nonce) := SetNewNonce proxy typeURI (clock n) in
  let marshalled := filter (λ r, marshals r = true) resourcesToSend in
  let response := mkDiscoveryResponse typeURI (itoa version) nonce marshalled in
  let resourcesSent :=
    if IsWildcardTypeURI typeURI then ∅
    else list_to_set (filter (λ name, name ∈ GetSubscribedResources proxy typeURI) (GetResourceName <$> marshalled)) in
  mkStream (if sends n then SetLastResourcesSent proxy typeURI resourcesSent else proxy) (st_responses s ++ [response]).

Abbreviation Handler := (Proxy → DiscoveryRequest → result string (list Resource)).
Context (xdsHandlers : gmap TypeURI Handler).

Definition getTypeResources (proxy : Proxy) (request : DiscoveryRequest) : result string (list Resource) :=
  match xdsHandlers !! dr_TypeUrl request with
  | None => Err "errUnknownTypeURL"
  | Some handler =>
    match handler proxy request with
    | Err _ => Err "errCreatingResponse"
    | Ok resources => Ok resources
    end
  end.

(** The names in alphabetical order. *)
Definition getResourceSliceFromMapset `{RangeOrder} (resourceMap : gset string) : list string :=
  go_sort String.ltb (range_set resourceMap).

Definition sendResponse `{RangeOrder} (s : Stream) (request : option DiscoveryRequest) (typeURIsToSend : list TypeURI) : Stream :=
  foldl (λ s typeURI,
    let finalReq :=
      match request with
      | Some request => request
      | None => mkDiscoveryRequest typeURI "" "" (getResourceSliceFromMapset (GetSubscribedResources (st_proxy s) typeURI)) None
      end in
    match getTypeResources (st_proxy s) finalReq with
    | Err _ => s
    | Ok resources => SendDiscoveryResponse s finalReq resources
    end) s typeURIsToSend.

(** ** The stream *)

Inductive StreamEvent :=
| StreamQuit
| RequestsClosed
| Request (discoveryRequest : DiscoveryRequest)
| ProxyUpdate
| CertificateRotated (commonName : string).

Definition with_proxy (s : Stream) (p : Proxy) : Stream := mkStream p (st_responses s).

Definition handleRequest `{RangeOrder} (s : Stream) (discoveryRequest : DiscoveryRequest) : Stream :=
  let '(proxy, respond) := respondToRequest (st_proxy s) discoveryRequest in
  let s := with_proxy s proxy in
  if respond : bool then sendResponse s (Some discoveryRequest) [dr_TypeUrl discoveryRequest] else s.

Definition handlePush `{RangeOrder} (s : Stream) : Stream :=
  let '(proxy, push) := shouldPushUpdate (st_proxy s) in
  let s := with_proxy s proxy in
  if push : bool then sendResponse s None [TypeCDS; TypeEDS; TypeLDS; TypeRDS] else s.

(** A turn of the loop of StreamAggregatedResources: the stream, and whether it goes on. *)
Definition streamTurn `{RangeOrder} (s : Stream) (e : StreamEvent) : outcome (Stream * bool) :=
  match e with
  | StreamQuit | RequestsClosed => Ret (s, false)
  | Request discoveryRequest => Ret (handleRequest s discoveryRequest, true)
  | ProxyUpdate => Ret (handlePush s, true)
  | CertificateRotated cn =>
    mine ← isCNforProxy (st_proxy s) cn;
    Ret (if mine : bool then sendResponse s None [TypeSDS] else s, true)
  end.
End responses.
Arguments DiscoveryResponse : clear implicits.
Arguments Stream : clear implicits.

(** ** Theorems: versions and nonces *)

Lemma nonceOf_setNonce p t n u : nonceOf (setNonce p t n) u = if decide (u = t) then n else nonceOf p u.
Proof. unfold nonceOf. simpl. case_decide; [subst; by rewrite lookup_insert_eq|by rewrite lookup_insert_ne]. Qed.

Lemma GetLastSentNonce_eq p t p' n : GetLastSentNonce p t = (p', n) → same_proxy p' p ∧ n = nonceOf p t.
Proof.
  intros E. pose proof (GetLastSentNonce_same p t) as Hs. pose proof (GetLastSentNonce_nonceOf p t) as Hn. by rewrite E in Hs, Hn.
Qed.

(** A request changes no nonce, and a version only of a type without responses. *)
Lemma respondToRequest_frame p req p' b :
  respondToRequest p req = (p', b) →
  (∀ t, nonceOf p' t = nonceOf p t) ∧ ∀ t, nonceOf p t ≠ "" → GetLastSentVersion p' t = GetLastSentVersion p t.
Proof.
  unfold respondToRequest. destruct (GetLastSentNonce p (dr_TypeUrl req)) as [p0 n0] eqn:E0.
  apply GetLastSentNonce_eq in E0 as [Hs0 _]. cbn [fst].
  assert (∀ q, same_proxy q p0 → (∀ t, nonceOf q t = nonceOf p t) ∧
    ∀ t, nonceOf p t ≠ "" → GetLastSentVersion q t = GetLastSentVersion p t) as Hsame.
  { intros q Hq. assert (same_proxy q p) as [] by by transitivity p0. split; [done|]. intros t _. unfold GetLastSentVersion. congruence. }
  assert (∀ q : Proxy, (p0, false) = (q, b) → same_proxy q p0) as Hret by (by intros q [= <- _]).
  destruct (ValidURI _) as [t|]; [|intros Er%Hret; by apply Hsame].
  case_decide; [intros Er%Hret; by apply Hsame|].
  destruct (parseRequestVersion req) as [v|]; [|intros Er%Hret; by apply Hsame].
  destruct (dr_ErrorDetail req); [intros Er%Hret; by apply Hsame|]. clear Hret.
  case_decide; [intros [= <- _]; exact (Hsame p0 (reflexivity _))|].
  destruct (GetLastSentNonce p0 t) as [p1 n1] eqn:E1. apply GetLastSentNonce_eq in E1 as [Hs1 Hn1].
  destruct (Hsame p1 Hs1) as [Hn Hv]. case_decide as Hempty.
  - intros [= <- _]. split; [exact Hn|]. intros u Hu. rewrite <-(Hv u Hu). unfold GetLastSentVersion. simpl.
    rewrite lookup_insert_ne; [done|]. intros <-. destruct (Hsame p0 (reflexivity _)) as [Hn0 _]. rewrite <-Hn0 in Hu. congruence.
  - case_decide; [intros [= <- _]; by split|]. destruct (IsWildcardTypeURI t); intros [= <- _]; by split.
Qed.

Lemma valid_type t : t ∈ XDSResponseOrder → ValidURI t = Some t ∧ t ≠ TypeEmptyURI.
Proof. unfold XDSResponseOrder. rewrite !elem_of_cons, elem_of_nil. intros [->|[->|[->|[->|[->|[]]]]]]; by vm_compute. Qed.

Section theorems.
Context `{RangeOrder, SortOrder} {Resource : Type} (GetResourceName : Resource → string) (marshals : Resource → bool).
Context (clock : nat → Z) (sends : nat → bool) (xdsHandlers : gmap TypeURI (Proxy → DiscoveryRequest → result string (list Resource))).

Abbreviation turn := (streamTurn GetResourceName marshals clock sends xdsHandlers).
Abbreviation send := (sendResponse GetResourceName marshals clock sends xdsHandlers).
Abbreviation request := (handleRequest GetResourceName marshals clock sends xdsHandlers).

Definition responsesOf (t : TypeURI) (s : Stream Resource) : list (DiscoveryResponse Resource) :=
  filter (λ r, dresp_TypeUrl r = t) (st_responses s).

(** The versions of the responses of a type count up from some version, and the proxy has
    the version and the nonce of the last one. *)
Definition in_order (t : TypeURI) (s : Stream Resource) : Prop :=
  ∃ v0, dresp_VersionInfo <$> responsesOf t s = (λ i, itoa (uint64 (v0 + Z.of_nat i))) <$> seq 1 (length (responsesOf t s)) ∧
    nonceOf (st_proxy s) t = default "" (dresp_Nonce <$> last (responsesOf t s)) ∧
    (nonceOf (st_proxy s) t ≠ "" ↔ responsesOf t s ≠ []) ∧
    (responsesOf t s ≠ [] → GetLastSentVersion (st_proxy s) t = uint64 (v0 + Z.of_nat (length (responsesOf t s)))).

Lemma in_order_proxy t s p :
  in_order t s → (∀ t, nonceOf p t = nonceOf (st_proxy s) t) →
  (∀ t, nonceOf (st_proxy s) t ≠ "" → GetLastSentVersion p t = GetLastSentVersion (st_proxy s) t) →
  in_order t (with_proxy s p).
Proof.
  intros (v0 & Hv & Hl & Hiff & Hlast) Hn Hver. exists v0. unfold responsesOf in *. simpl. rewrite Hn. do 3 (split; [done|]).
  intros Hne. rewrite Hver by by apply Hiff. auto.
Qed.

Lemma send_in_order t s req rs :
  in_order t s → in_order t (SendDiscoveryResponse GetResourceName marshals clock sends s req rs).
Proof.
  intros (v0 & Hv & Hl & Hiff & Hlast). unfold SendDiscoveryResponse, IncrementLastSentVersion, SetNewNonce.
  set (u := dr_TypeUrl req). set (n := length (st_responses s)). set (v := uint64 (GetLastSentVersion (st_proxy s) u + 1)).
  set (resp := mkDiscoveryResponse u _ _ _). set (p := if sends n then _ else _).
  assert (∀ w, nonceOf p w = if decide (w = u) then itoa (clock n) else nonceOf (st_proxy s) w) as Hnonce.
  { intros w. rewrite <-(nonceOf_setNonce (st_proxy s)). unfold p. by destruct (sends n). }
  assert (∀ w, GetLastSentVersion p w = if decide (w = u) then v else GetLastSentVersion (st_proxy s) w) as Hver.
  { intros w. unfold p, GetLastSentVersion. destruct (sends n); simpl;
      (case_decide; [subst w; by rewrite lookup_insert_eq|by rewrite lookup_insert_ne]). }
  assert (dresp_VersionInfo resp = itoa v) as Hvr by (unfold resp, GetLastSentVersion; simpl; by rewrite lookup_insert_eq).
  destruct (decide (t = u)) as [->|Hne].
  - assert (responsesOf u (mkStream p (st_responses s ++ [resp])) = responsesOf u s ++ [resp]) as Er.
    { unfold responsesOf. cbn [st_responses]. by rewrite filter_app, filter_cons_True. }
    set (v0' := if decide (responsesOf u s = []) then GetLastSentVersion (st_proxy s) u else v0).
    assert (v = uint64 (v0' + Z.of_nat (length (responsesOf u s) + 1))) as Hv'.
    { unfold v, v0'. case_decide as Hempty; [by rewrite Hempty|]. rewrite Hlast by done. unfold uint64. rewrite Nat2Z.inj_add, Z.add_assoc.
      by rewrite Zplus_mod_idemp_l. }
    exists v0'. rewrite Er. cbn [st_proxy]. rewrite Hnonce, Hver, decide_True by done. split_and!.
    + rewrite fmap_app, length_app, seq_app, fmap_app. cbn [fmap list_fmap length seq]. rewrite Hvr, Hv'. f_equal.
      * unfold v0'. case_decide as Hempty; [by rewrite Hempty|]. done.
      * do 3 f_equal. lia.
    + rewrite last_snoc. done.
    + split; [intros _; by destruct (responsesOf u s)|]. intros _. apply itoa_ne.
    + intros _. rewrite decide_True, length_app by done. done.
  - assert (responsesOf t (mkStream p (st_responses s ++ [resp])) = responsesOf t s) as Er.
    { unfold responsesOf. cbn [st_responses]. rewrite filter_app, filter_cons_False, app_nil_r; [done|]. simpl. congruence. }
    exists v0. rewrite Er. cbn [st_proxy]. rewrite Hnonce, Hver, !decide_False by done. done.
Qed.

Lemma sendResponse_in_order t s req l : in_order t s → in_order t (send s req l).
Proof.
  revert s. induction l as [|u l IH]; intros s Hs; [done|]. cbn [sendResponse foldl]. apply IH.
  destruct (getTypeResources _ _); [by apply send_in_order|done].
Qed.

Lemma turn_in_order t s e s' b : streamTurn GetResourceName marshals clock sends xdsHandlers s e = Ret (s', b) → in_order t s → in_order t s'.
Proof.
  intros E Hs. destruct e as [| |req| |cn]; cbn [streamTurn] in E.
  - by injection E as <- _.
  - by injection E as <- _.
  - injection E as <- _. unfold handleRequest. destruct (respondToRequest (st_proxy s) req) as [p r] eqn:Er.
    apply respondToRequest_frame in Er as [Hn Hv]. destruct r; [apply sendResponse_in_order|]; by apply in_order_proxy.
  - injection E as <- _. unfold handlePush, shouldPushUpdate.
    destruct (GetLastSentNonce (st_proxy s) TypeLDS) as [p1 n1] eqn:E1. apply GetLastSentNonce_eq in E1 as [[] _].
    assert (in_order t (with_proxy s p1)) as Hin1 by (apply in_order_proxy; [done..|intros; unfold GetLastSentVersion; congruence]).
    case_decide; [|by apply sendResponse_in_order].
    destruct (GetLastSentNonce p1 TypeCDS) as [p2 n2] eqn:E2. apply GetLastSentNonce_eq in E2 as [[] _].
    assert (in_order t (with_proxy s p2)) as Hin2.
    { apply in_order_proxy; [done|congruence|intros; unfold GetLastSentVersion; congruence]. }
    destruct (bool_decide _); [by apply sendResponse_in_order|done].
  - destruct (isCNforProxy _ _) as [[]|]; [|by injection E as <- _|done].
    pose proof (sendResponse_in_order t s None [TypeSDS] Hs) as Hsds. injection E as <- _. exact Hsds.
Qed.

(** C26. On every stream, whatever the proxy requests and whatever is pushed to it, the
    versions of the responses of one type are consecutive, and the control plane knows the
    version and the nonce of the last of them. *)
Theorem versions_consecutive (kind uuid : string) (si : ServiceIdentity) (now : Z) (s : Stream Resource) :
  rtc (λ s s', ∃ e, turn s e = Ret (s', true)) (mkStream (NewProxy kind uuid si now) []) s →
  ∀ t, ∃ v0, dresp_VersionInfo <$> responsesOf t s = (λ i, itoa (uint64 (v0 + Z.of_nat i))) <$> seq 1 (length (responsesOf t s)) ∧
    nonceOf (st_proxy s) t = default "" (dresp_Nonce <$> last (responsesOf t s)) ∧
    (responsesOf t s ≠ [] → GetLastSentVersion (st_proxy s) t = uint64 (v0 + Z.of_nat (length (responsesOf t s)))).
Proof.
  intros Hr t. assert (in_order t s) as (v0 & Hv & Hl & _ & Hlast); [|by exists v0].
  assert (in_order t (mkStream (NewProxy kind uuid si now) [] : Stream Resource)) as Hin by by exists 0.
  revert Hr Hin. generalize (mkStream (NewProxy kind uuid si now) [] : Stream Resource). intros s0 Hr Hin.
  induction Hr as [|s0 s1 s2 [e Hst] Hr IH]; [done|]. apply IH. by eapply turn_in_order.
Qed.

(** ** Theorems: the dialog with a proxy *)

(** The acknowledgement of a response by a proxy that asks for the same resources. *)
Definition ack (resp : DiscoveryResponse Resource) (names : list string) : DiscoveryRequest :=
  mkDiscoveryRequest (dresp_TypeUrl resp) (dresp_VersionInfo resp) (dresp_Nonce resp) names None.

(** A request, and the acknowledgements of the responses to it, one after the other. *)
Fixpoint dialog (fuel : nat) (s : Stream Resource) (req : DiscoveryRequest) : Stream Resource :=
  match fuel with
  | O => s
  | S fuel =>
    let s' := request s req in
    match st_responses s' !! length (st_responses s) with
    | None => s'
    | Some resp => dialog fuel s' (ack resp (dr_ResourceNames req))
    end
  end.

Lemma respond_true_subscribed p req p' :
  respondToRequest p req = (p', true) → GetSubscribedResources p' (dr_TypeUrl req) = getRequestedResourceNamesSet req.
Proof.
  unfold respondToRequest. destruct (GetLastSentNonce p (dr_TypeUrl req)) as [p0 n0]. cbn [fst].
  destruct (ValidURI _) as [t|] eqn:Et; [|done]. assert (t = dr_TypeUrl req) as -> by (unfold ValidURI in Et; case_decide; congruence).
  case_decide; [done|]. destruct (parseRequestVersion req) as [v|]; [|done]. destruct (dr_ErrorDetail req); [done|].
  assert (∀ q, GetSubscribedResources (SetSubscribedResources q (dr_TypeUrl req) (getRequestedResourceNamesSet req)) (dr_TypeUrl req) =
    getRequestedResourceNamesSet req) as Hset by (intros q; unfold GetSubscribedResources; simpl; by rewrite lookup_insert_eq).
  case_decide; [intros [= <-]; apply Hset|]. destruct (GetLastSentNonce p0 (dr_TypeUrl req)) as [p1 n1].
  case_decide; [intros [= <-]; apply Hset|]. case_decide; [done|]. destruct (IsWildcardTypeURI _); [done|]. intros [= <- _]. apply Hset.
Qed.

Lemma respondToRequest_identity p req : p_Identity (respondToRequest p req).1 = p_Identity p.
Proof.
  unfold respondToRequest. destruct (GetLastSentNonce p (dr_TypeUrl req)) as [p0 n0] eqn:E0.
  apply GetLastSentNonce_eq in E0 as [[_ Hid _ _ _ _ _] _]. cbn [fst].
  destruct (ValidURI _) as [t|]; [|done]. case_decide; [done|]. destruct (parseRequestVersion req); [|done].
  destruct (dr_ErrorDetail req); [done|]. case_decide; [done|].
  destruct (GetLastSentNonce p0 t) as [p1 n1] eqn:E1. apply GetLastSentNonce_eq in E1 as [[_ Hid1 _ _ _ _ _] _].
  rewrite <-Hid, <-Hid1. do 2 (case_decide; [done|]). by destruct (IsWildcardTypeURI t).
Qed.

Section dialog.
Context (t : TypeURI) (names : list string) (handler : Proxy → DiscoveryRequest → result string (list Resource)).
Hypothesis Ht : t ∈ XDSResponseOrder.
Hypothesis Hhandler : xdsHandlers !! t = Some handler.
Hypothesis Hsends : ∀ n, sends n = true.

(** The names of the resources of a response. *)
Definition named (rs : list Resource) : gset string := list_to_set (GetResourceName <$> filter (λ r, marshals r = true) rs).

(** What the control plane knows after a response to a request for the names. *)
Record answered (s s' : Stream Resource) (resp : DiscoveryResponse Resource) (rs : list Resource) : Prop := {
  an_responses : st_responses s' = st_responses s ++ [resp];
  an_type : dresp_TypeUrl resp = t;
  an_resources : dresp_Resources resp = filter (λ r, marshals r = true) rs;
  an_version : ∃ v, 0 ≤ v < 2 ^ 64 ∧ dresp_VersionInfo resp = itoa v;
  an_nonce : nonceOf (st_proxy s') t = dresp_Nonce resp;
  an_some : dresp_Nonce resp ≠ "";
  an_sent : IsWildcardTypeURI t = false → GetLastResourcesSent (st_proxy s') t = named rs ∩ list_to_set names;
  an_identity : p_Identity (st_proxy s') = p_Identity (st_proxy s);
}.

Lemma request_answered s req p' rs :
  dr_TypeUrl req = t → dr_ResourceNames req = names → respondToRequest (st_proxy s) req = (p', true) → handler p' req = Ok rs →
  ∃ resp, answered s (request s req) resp rs.
Proof using Hhandler Hsends.
  intros Et En Hr Hh. pose proof (respond_true_subscribed _ _ _ Hr) as Hsub. unfold getRequestedResourceNamesSet in Hsub.
  rewrite Et, En in Hsub. pose proof (respondToRequest_identity (st_proxy s) req) as Hid. rewrite Hr in Hid.
  unfold handleRequest. rewrite Hr. cbn [sendResponse foldl]. unfold getTypeResources.
  rewrite Et, Hhandler. simpl. rewrite Hh. unfold SendDiscoveryResponse, IncrementLastSentVersion, SetNewNonce. rewrite Et, Hsends. simpl.
  eexists. split; simpl; [done|done|done| | | | |done].
  - unfold GetLastSentVersion. simpl. rewrite lookup_insert_eq. simpl. eexists. split; [|done]. unfold uint64. apply Z.mod_pos_bound. lia.
  - unfold nonceOf. simpl. by rewrite lookup_insert_eq.
  - apply itoa_ne.
  - intros ->. unfold GetLastResourcesSent. simpl. rewrite lookup_insert_eq. simpl.
    change (GetSubscribedResources _ t) with (GetSubscribedResources p' t). rewrite Hsub.
    unfold named. apply set_eq. intros x. rewrite elem_of_intersection, !elem_of_list_to_set, list_elem_of_filter, elem_of_list_to_set. tauto.
Qed.

(** An acknowledgement is answered exactly when the response lacked a resource. *)
Lemma ack_answer s s' resp rs :
  answered s s' resp rs →
  ∃ p', respondToRequest (st_proxy s') (ack resp names) =
    (p', negb (IsWildcardTypeURI t) && bool_decide (¬ list_to_set names ⊆ named rs)).
Proof using Ht Hhandler Hsends.
  intros [Hresp Htype _ (v & Hv & Ev) Hn Hne Hsent _]. unfold respondToRequest, ack. cbn [dr_TypeUrl dr_VersionInfo dr_ResponseNonce dr_ResourceNames dr_ErrorDetail].
  rewrite Htype. destruct (GetLastSentNonce (st_proxy s') t) as [p0 n0] eqn:E0. apply GetLastSentNonce_eq in E0 as [Hs0 _]. cbn [fst].
  destruct (valid_type t Ht) as [-> Hempty]. rewrite decide_False by done. unfold parseRequestVersion. cbn [dr_VersionInfo].
  rewrite Ev, decide_False, ParseUint_itoa by (done || apply itoa_ne). rewrite decide_False by done.
  destruct (GetLastSentNonce p0 t) as [p1 n1] eqn:E1. apply GetLastSentNonce_eq in E1 as [Hs1 Hn1].
  rewrite (sp_nonce _ _ Hs0), Hn in Hn1. subst n1. rewrite decide_False by done. rewrite decide_False by (intros []; done).
  destruct (IsWildcardTypeURI t) eqn:Ew; [by eexists|]. eexists. f_equal. cbn [negb andb]. apply bool_decide_ext.
  change (GetLastResourcesSent _ t) with (GetLastResourcesSent p1 t). unfold getRequestedResourceNamesSet. cbn [dr_ResourceNames].
  assert (GetLastResourcesSent p1 t = named rs ∩ list_to_set names) as ->.
  { rewrite <-Hsent by done. unfold GetLastResourcesSent. by rewrite (sp_resources _ _ Hs1), (sp_resources _ _ Hs0). }
  split; intros Hx Hy; apply Hx; [|rewrite Hy; set_solver]. apply set_eq. set_solver.
Qed.

Lemma no_answer s req p' : respondToRequest (st_proxy s) req = (p', false) → st_responses (request s req) = st_responses s.
Proof. intros Hr. unfold handleRequest. by rewrite Hr. Qed.

(** When the resources that are requested of a type are all in the response, the dialog
    about them ends: the request is answered once, and its acknowledgement is not answered. *)
Lemma dialog_settles (s : Stream Resource) (req : DiscoveryRequest) p' rs :
  dr_TypeUrl req = t → dr_ResourceNames req = names → respondToRequest (st_proxy s) req = (p', true) →
  handler p' req = Ok rs → list_to_set names ⊆ named rs →
  ∃ resp, dresp_Resources resp = filter (λ r, marshals r = true) rs ∧
    ∀ fuel, st_responses (dialog (S fuel) s req) = st_responses s ++ [resp].
Proof using Ht Hhandler Hsends.
  intros Et En Hr Hrs Hsub. destruct (request_answered s req p' rs) as [resp Han]; [done..|].
  exists resp. split; [apply (an_resources _ _ _ _ Han)|]. intros fuel. cbn [dialog].
  rewrite (an_responses _ _ _ _ Han), lookup_app_r, Nat.sub_diag by lia. cbn [lookup list_lookup].
  destruct fuel as [|fuel]; cbn [dialog]; [apply Han|]. destruct (ack_answer _ _ _ _ Han) as [p2 Ea].
  rewrite (bool_decide_false (¬ _)), andb_false_r in Ea by tauto. rewrite En, (no_answer _ _ _ Ea), lookup_ge_None_2 by lia.
  rewrite (no_answer _ _ _ Ea). apply Han.
Qed.

(** When a resource that is requested of a type other than listeners and clusters is in no
    response, the dialog about it never ends: every acknowledgement is answered. *)
Lemma dialog_loops (s : Stream Resource) (req : DiscoveryRequest) (missing : string) :
  dr_TypeUrl req = t → dr_ResourceNames req = names → (respondToRequest (st_proxy s) req).2 = true →
  IsWildcardTypeURI t = false → missing ∈ names →
  (∀ p req, p_Identity p = p_Identity (st_proxy s) → dr_ResourceNames req = names → ∃ rs, handler p req = Ok rs ∧ missing ∉ named rs) →
  ∀ fuel, length (st_responses (dialog fuel s req)) = (length (st_responses s) + fuel)%nat.
Proof using Ht Hhandler Hsends.
  intros Et En Hr Hw Hm Hh fuel. revert s req Et En Hr Hh. induction fuel as [|fuel IH]; intros s req Et En Hr Hh; cbn [dialog]; [lia|].
  pose proof (respondToRequest_identity (st_proxy s) req) as Hid.
  destruct (respondToRequest (st_proxy s) req) as [p' b] eqn:E. simpl in Hr, Hid. subst b.
  destruct (Hh p' req Hid En) as (rs & Hrs & Hmiss). destruct (request_answered s req p' rs) as [resp Han]; [done..|].
  rewrite (an_responses _ _ _ _ Han), lookup_app_r, Nat.sub_diag by lia. cbn [lookup list_lookup].
  destruct (ack_answer _ _ _ _ Han) as [p2 Ea]. rewrite En, IH; [rewrite (an_responses _ _ _ _ Han), length_app; simpl; lia|apply Han|done| |].
  - rewrite Ea, Hw. simpl. apply bool_decide_true. set_solver.
  - intros p req' Hp. apply Hh. rewrite Hp. by apply (an_identity _ _ _ _ Han).
Qed.
End dialog.

(** A request with a nonce that is not the last one, while there is one, is ignored. *)
Lemma stale_request_ignored p req :
  dr_ResponseNonce req ≠ "" → nonceOf p (dr_TypeUrl req) ≠ "" → dr_ResponseNonce req ≠ nonceOf p (dr_TypeUrl req) →
  (respondToRequest p req).2 = false ∧ same_proxy (respondToRequest p req).1 p.
Proof.
  intros Hne Hsome Hdiff. unfold respondToRequest. destruct (GetLastSentNonce p (dr_TypeUrl req)) as [p0 n0] eqn:E0.
  apply GetLastSentNonce_eq in E0 as [Hs0 _]. cbn [fst]. destruct (ValidURI _) as [t|] eqn:Et; [|done].
  assert (t = dr_TypeUrl req) as -> by (unfold ValidURI in Et; case_decide; congruence).
  case_decide; [done|]. destruct (parseRequestVersion req) as [v|]; [|done]. destruct (dr_ErrorDetail req); [done|].
  rewrite decide_False by done. destruct (GetLastSentNonce p0 (dr_TypeUrl req)) as [p1 n1] eqn:E1.
  apply GetLastSentNonce_eq in E1 as [Hs1 ->]. rewrite (sp_nonce _ _ Hs0). rewrite decide_False by done.
  rewrite decide_True by done. split; [done|]. simpl. by transitivity p0.
Qed.
End theorems.

(** ** Examples *)

Module EnvoyAdsWitness.
#[local] Existing Instance stdpp_order.
#[local] Existing Instance insertion_order.

(** Resources that are their names; the handler of routes sends all that is requested. *)
Definition handlers : gmap TypeURI (Proxy → DiscoveryRequest → result string (list string)) := list_to_map [
  (TypeRDS, λ _ req, Ok (dr_ResourceNames req))].
Definition clock (n : nat) : Z := 1000 + Z.of_nat n.
Definition start : Stream string := mkStream (NewProxy "sidecar" "u" "web.shop" 0) [].
Definition first (t : TypeURI) (names : list string) : DiscoveryRequest := mkDiscoveryRequest t "" "" names None.

Definition served : Stream string :=
  handleRequest id (λ _, true) clock (λ _, true) handlers start (first TypeRDS ["rds-inbound.80"]).

Lemma versions_consecutive_witness :
  ∃ v0, ["1"] = (λ i, itoa (uint64 (v0 + Z.of_nat i))) <$> seq 1 1 ∧ GetLastSentVersion (st_proxy served) TypeRDS = uint64 (v0 + 1).
Proof.
  destruct (versions_consecutive id (λ _, true) clock (λ _, true) handlers "sidecar" "u" "web.shop" 0 served) with (t := TypeRDS)
    as (v0 & Hv & _ & Hlast).
  - apply rtc_once. exists (Request (first TypeRDS ["rds-inbound.80"])). reflexivity.
  - exists v0. split; [exact Hv|]. apply Hlast. vm_compute. discriminate.
Defined.
End EnvoyAdsWitness.
