(* ===== verification/EnvoyServer.v ===== *)
(** * pkg/sidecar/providers/envoy: connections of proxies

    The start of StreamAggregatedResources and its helpers in ads/stream.go, the registry
    (registry/registry.go) and the names of certificates (pkg/sidecar/adapter.go).  The
    streams of the proxies are goroutines of their own: a step relation on the registry and
    on what each stream has done.  [parseUUID] is uuid.Parse, which returns the UUID in its
    standard form, and [ownerOf] the kind and name of the owner reference of a pod that is
    a controller. *)

From S2P Require Import Prelude GoStrings Identity K8s K8sClient EnvoyProxy.

#[local] Open Scope Z_scope.

(** ** Names of certificates *)

Definition NewCertCNPrefix (proxyUUID kind : string) (si : ServiceIdentity) : string :=
  proxyUUID +:+ "." +:+ kind +:+ "." +:+ si.

Inductive CNError := errInvalidCertificateCN | errUUID.

Section connect.
Context (parseUUID : string → option string) (ownerOf : Pod → option (string * string)).

(** The fifth chunk is the rest of the name. *)
Definition getCertificateCommonNameMeta (cn : string) : result CNError (string * string * ServiceIdentity) :=
  match split "." cn with
  | uuid :: kind :: name :: namespace :: _ =>
    match parseUUID uuid with
    | None => Err errUUID
    | Some proxyUUID =>
      if decide (kind = "") then Err errInvalidCertificateCN
      else if decide (name = "") then Err errInvalidCertificateCN
      else if decide (namespace = "") then Err errInvalidCertificateCN
      else Ok (kind, proxyUUID, ToServiceIdentity (mkK8sServiceAccount namespace name))
    end
  | _ => Err errInvalidCertificateCN
  end.

Definition with_PodMetadata (p : Proxy) (m : PodMetadata) : Proxy :=
  mkProxy (p_UUID p) (p_Identity p) (p_kind p) (p_connectedAt p) (p_lastSentVersion p) (p_lastAppliedVersion p)
    (p_lastNonce p) (p_lastxDSResourcesSent p) (p_subscribedResources p) (Some m).

(** The proxy, and whether the error errServiceAccountMismatch is returned. *)
Definition recordPodMetadata (ctl : Controller) (p : Proxy) : outcome (Proxy * bool) :=
  r ← ctl_GetPodForProxy ctl (K8s.mkProxy (p_UUID p) (p_Identity p));
  match r with
  | Err _ => Ret (p, false)
  | Ok pod =>
    let '(workloadKind, workloadName) := default ("", "") (ownerOf pod) in
    let m := mkPodMetadata (pod_UID pod) (pod_Name pod) (pod_Namespace pod)
               (mkK8sServiceAccount (pod_Namespace pod) (pod_ServiceAccountName pod)) workloadKind workloadName in
    sa ← ToK8sServiceAccount (p_Identity p);
    Ret (with_PodMetadata p m, bool_decide (sa ≠ pm_ServiceAccount m))
  end.

(** ** The registry *)

(** [connectedProxies]: the stream whose proxy is registered under a UUID. *)
Abbreviation Registry := (gmap string nat).

Definition RegisterProxy (r : Registry) (uuid : string) (stream : nat) : Registry := <[uuid := stream]> r.
Definition UnregisterProxy (r : Registry) (uuid : string) : Registry := delete uuid r.
Definition GetConnectedProxyCount (r : Registry) : Z := Z.of_nat (size r).

(** The check of the number of connections, which can be disabled with 0. *)
Definition tooManyConnections (maxDataPlaneConnections : Z) (r : Registry) : bool :=
  bool_decide (0 < maxDataPlaneConnections) && bool_decide (maxDataPlaneConnections ≤ GetConnectedProxyCount r).

(** A stream that has passed that check, or has registered its proxy. *)
Inductive StreamPhase := Checked | Registered.

Record Server := mkServer {
  srv_registry : Registry;
  srv_streams : gmap nat (string * StreamPhase);
}.

(** The steps of the streams: a new one that passes the check, with the UUID of its
    certificate; its registration; its refusal or its end before that; and its end, with the
    deferred UnregisterProxy. *)
Inductive server_step (maxDataPlaneConnections : Z) (s : Server) : Server → Prop :=
| stream_check id uuid :
  srv_streams s !! id = None → tooManyConnections maxDataPlaneConnections (srv_registry s) = false →
  server_step maxDataPlaneConnections s (mkServer (srv_registry s) (<[id := (uuid, Checked)]> (srv_streams s)))
| stream_register id uuid :
  srv_streams s !! id = Some (uuid, Checked) →
  server_step maxDataPlaneConnections s
    (mkServer (RegisterProxy (srv_registry s) uuid id) (<[id := (uuid, Registered)]> (srv_streams s)))
| stream_refuse id uuid :
  srv_streams s !! id = Some (uuid, Checked) →
  server_step maxDataPlaneConnections s (mkServer (srv_registry s) (delete id (srv_streams s)))
| stream_end id uuid :
  srv_streams s !! id = Some (uuid, Registered) →
  server_step maxDataPlaneConnections s
    (mkServer (UnregisterProxy (srv_registry s) uuid) (delete id (srv_streams s))).
End connect.

(** ** Theorems: certificates *)

(** The name of a certificate leads back to the kind, the UUID and the identity of the
    proxy, when the kind and the parts of the identity are not empty and have no dots. *)
Lemma certificate_name_roundtrip (parseUUID : string → option string) (uuid kind trustDomain : string) (sa : K8sServiceAccount) :
  free_of "." uuid → parseUUID uuid = Some uuid → free_of "." kind → kind ≠ "" →
  sa_dotless sa → sa_Name sa ≠ "" → sa_Namespace sa ≠ "" →
  getCertificateCommonNameMeta parseUUID (NewCertCNPrefix uuid kind (ToServiceIdentity sa) +:+ "." +:+ trustDomain) =
  Ok (kind, uuid, ToServiceIdentity sa).
Proof.
  intros Hu Hp Hk Hkne [Hn Hns] Hnne Hnsne. unfold NewCertCNPrefix, ToServiceIdentity.
  unfold New. rewrite !app_assoc'. unfold getCertificateCommonNameMeta. rewrite !split_app_lit by done.
  rewrite Hp, !decide_False by done. by destruct sa.
Qed.

(** No proxy is refused because of its service account: [recordPodMetadata] returns no
    mismatch, because the lookup of the pod fails when the accounts differ, and a failed
    lookup is no error.  Such a proxy joins without the metadata of its pod. *)
Theorem mismatch_never_refused `{RangeOrder} (ownerOf : Pod → option (string * string)) (Matches : labels → labels → bool) (inf : Informers)
    (p : Proxy) (sa : K8sServiceAccount) :
  ToK8sServiceAccount (p_Identity p) = Ret sa →
  ∃ p', recordPodMetadata ownerOf (client Matches inf) p = Ret (p', false) ∧
    ((∀ pod, pod_Labels pod !! SidecarUniqueIDLabelName = Some (p_UUID p) → pod ∈ ListPods inf →
       mkK8sServiceAccount (pod_Namespace pod) (pod_ServiceAccountName pod) ≠ sa) → p' = p).
Proof.
  intros Hsa. unfold recordPodMetadata. simpl. unfold GetPodForProxy. simpl. rewrite Hsa. simpl.
  set (labelled := filter _ _). assert (∀ pod, pod ∈ labelled → pod_Labels pod !! SidecarUniqueIDLabelName = Some (p_UUID p) ∧ pod ∈ ListPods inf) as Hl.
  { intros pod. unfold labelled. by rewrite list_elem_of_filter. }
  destruct labelled as [|pod [|pod' l]]; [by exists p| |by exists p]. destruct (Hl pod) as [Hlab Hpod]; [by left|].
  case_decide as Hns; [|by exists p]. case_decide as Hname; [|by exists p].
  assert (sa = mkK8sServiceAccount (pod_Namespace pod) (pod_ServiceAccountName pod)) as -> by (destruct sa; simpl in *; congruence).
  destruct (default _ _) as [wk wn]. rewrite bool_decide_false by (intros Hne; by apply Hne). eexists. split; [done|].
  intros Hno. by destruct (Hno pod Hlab Hpod).
Qed.

(** ** Theorems: the registry *)

(** A UUID that is registered belongs to a stream that is connected. *)
Definition registry_ok (s : Server) : Prop :=
  ∀ uuid id, srv_registry s !! uuid = Some id → srv_streams s !! id = Some (uuid, Registered).

Lemma server_step_ok max s s' : server_step max s s' → registry_ok s → registry_ok s'.
Proof.
  intros Hs Hok. destruct Hs as [id uuid Hn Hc|id uuid Hc|id uuid Hc|id uuid Hc]; intros u i; simpl.
  - intros Hu. rewrite lookup_insert_ne by (intros <-; by rewrite (Hok _ _ Hu) in Hn). by apply Hok.
  - unfold RegisterProxy. rewrite lookup_insert_Some. intros [[<- <-]|[Hne Hu]]; [by rewrite lookup_insert_eq|].
    rewrite lookup_insert_ne; [by apply Hok|]. intros <-. by rewrite (Hok _ _ Hu) in Hc.
  - intros Hu. rewrite lookup_delete_ne by (intros <-; by rewrite (Hok _ _ Hu) in Hc). by apply Hok.
  - unfold UnregisterProxy. rewrite lookup_delete_Some. intros [Hne Hu].
    rewrite lookup_delete_ne; [by apply Hok|]. intros <-. rewrite (Hok _ _ Hu) in Hc. congruence.
Qed.

(** C35. The end of a stream takes the registration of its UUID with it, also when it is that
    of a newer stream: a proxy that reconnects before its old stream has ended stays
    connected, but is not in the registry, and does not count for the limit. *)
Theorem reconnected_proxy_lost (max : Z) (s : Server) (old new : nat) (uuid : string) :
  srv_streams s !! old = Some (uuid, Registered) → srv_streams s !! new = Some (uuid, Checked) →
  ∃ s', rtc (server_step max) s s' ∧ srv_streams s' !! new = Some (uuid, Registered) ∧ srv_registry s' !! uuid = None ∧
    GetConnectedProxyCount (srv_registry s') = Z.of_nat (size (delete uuid (srv_registry s))).
Proof.
  intros Ho Hn. assert (old ≠ new) as Hne by (intros ->; congruence).
  eexists. split; [|split; [|split]].
  - eapply rtc_l; [by apply (stream_register _ _ new)|]. eapply rtc_once, (stream_end _ _ old). simpl. by rewrite lookup_insert_ne.
  - simpl. by rewrite lookup_delete_ne, lookup_insert_eq.
  - simpl. unfold UnregisterProxy. by rewrite lookup_delete_eq.
  - simpl. unfold GetConnectedProxyCount, UnregisterProxy, RegisterProxy. by rewrite delete_insert_eq.
Qed.

(** ** Examples *)

Module EnvoyServerWitness.
#[local] Existing Instance stdpp_order.

Definition web : K8sServiceAccount := mkK8sServiceAccount "shop" "web".

Lemma certificate_name_roundtrip_witness :
  getCertificateCommonNameMeta Some (NewCertCNPrefix "6e7c-11" "sidecar" (ToServiceIdentity web) +:+ "." +:+ "cluster.local") =
  Ok ("sidecar", "6e7c-11", ToServiceIdentity web).
Proof.
  apply (certificate_name_roundtrip Some "6e7c-11" "sidecar" "cluster.local" web); try reflexivity; try done.
Defined.

(** The pod of the proxy runs as another service account than its certificate says. *)
Definition pods : Informers := {|
  inf_Namespace := store_of {["shop" := mkNamespace "shop" ∅ ∅]}; inf_Service := store_of ∅; inf_ServiceAccount := store_of ∅;
  inf_Pod := store_of {["shop/api-0" := mkPod "shop" "api-0" "1" {["osm-proxy-uuid" := "6e7c-11"]} ∅ "api" [] ""]};
  inf_Endpoints := store_of ∅ |}.
Definition proxy : Proxy := NewProxy "sidecar" "6e7c-11" (ToServiceIdentity web) 0.

Lemma mismatch_never_refused_witness :
  ∃ p', recordPodMetadata (λ _, None) (client (λ _ _, false) pods) proxy = Ret (p', false) ∧
    ((∀ pod, pod_Labels pod !! SidecarUniqueIDLabelName = Some (p_UUID proxy) → pod ∈ ListPods pods →
       mkK8sServiceAccount (pod_Namespace pod) (pod_ServiceAccountName pod) ≠ web) → p' = proxy).
Proof. apply (mismatch_never_refused (λ _, None) (λ _ _, false) pods proxy web). reflexivity. Defined.

Example mismatch_joins : recordPodMetadata (λ _, None) (client (λ _ _, false) pods) proxy = Ret (proxy, false).
Proof. reflexivity. Qed.

(** A proxy that reconnects. *)
Definition reconnecting : Server := mkServer {["u" := 0%nat]} {[0%nat := ("u", Registered); 1%nat := ("u", Checked)]}.

Lemma reconnected_proxy_lost_witness :
  rtc (server_step 10) (mkServer ∅ ∅) reconnecting ∧
  ∃ s', rtc (server_step 10) reconnecting s' ∧ srv_streams s' !! 1%nat = Some ("u", Registered) ∧ srv_registry s' !! "u" = None ∧
    GetConnectedProxyCount (srv_registry s') = Z.of_nat (size (delete "u" (srv_registry reconnecting))).
Proof.
  split; [|apply (reconnected_proxy_lost 10 reconnecting 0 1 "u"); reflexivity].
  eapply rtc_l; [apply (stream_check _ _ 0 "u"); reflexivity|]. eapply rtc_l; [apply (stream_register _ _ 0 "u"); reflexivity|].
  eapply rtc_l; [apply (stream_check _ _ 1 "u"); reflexivity|]. apply rtc_refl.
Defined.

(** Two streams that are checked before one of them registers exceed a limit of one. *)
Example limit_exceeded :
  ∃ s, rtc (server_step 1) (mkServer ∅ ∅) s ∧ GetConnectedProxyCount (srv_registry s) = 2.
Proof.
  eexists. split.
  - eapply rtc_l; [apply (stream_check _ _ 0 "u"); reflexivity|]. eapply rtc_l; [apply (stream_check _ _ 1 "v"); reflexivity|].
    eapply rtc_l; [apply (stream_register _ _ 0 "u"); reflexivity|]. eapply rtc_l; [apply (stream_register _ _ 1 "v"); reflexivity|].
    apply rtc_refl.
  - reflexivity.
Qed.
End EnvoyServerWitness.
