(* ===== verification/Injector.v ===== *)
(** * pkg/injector: the injection of sidecars

    The decision (webhook.go), the patch (patch.go, metrics.go, init_container.go,
    volumes.go) and what the pipy driver adds to a pod (pkg/sidecar/providers/pipy/driver:
    sidecar.go, pipy_container.go, injector_bootstrap.go).  The API server is a parameter:
    [getSecret], [createSecret], [getLiveNamespace], [getServiceIP]; so are the conversion of ports
    [IntValue], [ParseQuantity] of apimachinery and the printing of fractions.  What a
    secret holds as JSON is kept as the value that is encoded, and the patch of a response
    as the pod that it makes. *)

From S2P Require Import Prelude GoStrings Identity K8s K8sClient MeshConfig Certificate CertIssuers EnvoyProxy EnvoyServer Iptables Probes.

#[local] Open Scope Z_scope.

(** ** Pods *)

Record SecurityContext := mkSecurityContext {
  sec_Privileged : option bool;
  sec_AddCapabilities : list string;
  sec_RunAsNonRoot : option bool;
  sec_RunAsUser : option Z;
  sec_AllowPrivilegeEscalation : option bool;
  sec_WindowsUser : option string;
}.

Inductive EnvValue :=
| EnvLiteral (v : string)
| EnvField (path : string).

Record Container := mkContainer {
  ct_Name : string;
  ct_Image : string;
  ct_ImagePullPolicy : string;
  ct_SecurityContext : option SecurityContext;
  ct_Command : list string;
  ct_Args : list string;
  ct_Env : list (string * EnvValue);
  ct_Ports : list ContainerPort;
  ct_VolumeMounts : list (string * string);
  ct_Resources : ResourceRequirements;
  ct_Probe : ProbeKind → option Probe;
}.

Record Volume := mkVolume {
  vol_Name : string;
  vol_SecretName : option string;
}.

Record OwnerReference := mkOwnerReference {
  or_Kind : string;
  or_Name : string;
  or_Controller : option bool;
}.

Record DNSConfig := mkDNSConfig {
  dns_Nameservers : list string;
  dns_Searches : list string;
  dns_Options : list (string * string);
}.

Record PodSpec := mkPodSpec {
  ps_HostNetwork : bool;
  ps_NodeSelector : labels;
  ps_ServiceAccountName : string;
  ps_InitContainers : list Container;
  ps_Containers : list Container;
  ps_Volumes : list Volume;
  ps_HostAliases : list (string * list string);
  ps_DNSPolicy : string;
  ps_DNSConfig : option DNSConfig;
}.

Record PodObject := mkPodObject {
  po_Labels : labels;
  po_Annotations : labels;
  po_OwnerReferences : list OwnerReference;
  po_Spec : PodSpec;
}.

Definition with_spec (pod : PodObject) (s : PodSpec) : PodObject := mkPodObject (po_Labels pod) (po_Annotations pod) (po_OwnerReferences pod) s.

Definition with_containers (s : PodSpec) (cs : list Container) : PodSpec :=
  mkPodSpec (ps_HostNetwork s) (ps_NodeSelector s) (ps_ServiceAccountName s) (ps_InitContainers s) cs (ps_Volumes s)
    (ps_HostAliases s) (ps_DNSPolicy s) (ps_DNSConfig s).
Definition with_initContainers (s : PodSpec) (cs : list Container) : PodSpec :=
  mkPodSpec (ps_HostNetwork s) (ps_NodeSelector s) (ps_ServiceAccountName s) cs (ps_Containers s) (ps_Volumes s)
    (ps_HostAliases s) (ps_DNSPolicy s) (ps_DNSConfig s).
Definition with_volumes (s : PodSpec) (vs : list Volume) : PodSpec :=
  mkPodSpec (ps_HostNetwork s) (ps_NodeSelector s) (ps_ServiceAccountName s) (ps_InitContainers s) (ps_Containers s) vs
    (ps_HostAliases s) (ps_DNSPolicy s) (ps_DNSConfig s).

(** ** Whether to inject (webhook.go, metrics.go) *)

Definition SidecarInjectionAnnotation : string := "openservicemesh.io/sidecar-injection".
Definition MetricsAnnotation : string := "openservicemesh.io/metrics".

(** The values of an annotation that enable, and those that disable. *)
Definition annotationValue (s : string) : option bool :=
  if decide (to_lower s ∈ ["enabled"; "yes"; "true"]) then Some true
  else if decide (to_lower s ∈ ["disabled"; "no"; "false"]) then Some false
  else None.

(** Whether the annotation exists, and whether it enables. *)
Definition isAnnotatedForInjection (annotations : labels) : result string (bool * bool) :=
  match annotations !! SidecarInjectionAnnotation with
  | None => Ok (false, false)
  | Some inject =>
    match annotationValue inject with
    | Some enabled => Ok (true, enabled)
    | None => Err ("Invalid annotation value for key: " +:+ inject)
    end
  end.

Definition errNamespaceNotFound : string := "namespace not found".

Section webhook.
Context (ctl_IsMonitoredNamespace : string → bool) (ctl_GetNamespace : string → option Namespace).
Context (osmNamespace : string).

Definition nonInjectNamespaces : gset string := {["kube-system"; "kube-public"; osmNamespace]}.

Definition isNamespaceInjectable (namespace : string) : bool :=
  negb (bool_decide (namespace ∈ nonInjectNamespaces)) && ctl_IsMonitoredNamespace namespace.

Definition mustInject (pod : PodObject) (namespace : string) : result string bool :=
  if ps_HostNetwork (po_Spec pod) then Ok false
  else if negb (isNamespaceInjectable namespace) then Ok false
  else match isAnnotatedForInjection (po_Annotations pod) with
       | Err e => Err e
       | Ok (podExists, podInject) =>
         match ctl_GetNamespace namespace with
         | None => Err errNamespaceNotFound
         | Some ns =>
           match isAnnotatedForInjection (ns_Annotations ns) with
           | Err e => Err e
           | Ok (nsExists, nsInject) =>
             if podExists && podInject then Ok true
             else if nsExists && nsInject then Ok (negb podExists || podInject)
             else Ok false
           end
         end
       end.

Definition injector_IsMetricsEnabled (namespace : string) : result string bool :=
  match ctl_GetNamespace namespace with
  | None => Err errNamespaceNotFound
  | Some ns =>
    match ns_Annotations ns !! MetricsAnnotation with
    | None => Ok false
    | Some metrics =>
      if decide (to_lower metrics = "") then Ok false
      else match annotationValue metrics with
           | Some enabled => Ok enabled
           | None => Err ("Invalid value specified for annotation: " +:+ to_lower metrics)
           end
    end
  end.
End webhook.

(** ** The init container and the volume *)

Definition SidecarBootstrapConfigVolume : string := "sidecar-bootstrap-config-volume".
Definition BootstrapSecretPrefix : string := "sidecar-bootstrap-config-".
Definition no_resources : ResourceRequirements := mkResourceRequirements None None.
Definition no_probes (k : ProbeKind) : option Probe := None.

Definition GetVolumeSpec (sidecarBootstrapConfigName : string) : Volume :=
  mkVolume SidecarBootstrapConfigVolume (Some sidecarBootstrapConfigName).

(** [strings.TrimPrefix]. *)
Fixpoint strip_prefix (s p : string) : option string :=
  match p, s with
  | EmptyString, _ => Some s
  | String c p, String d s => if decide (c = d) then strip_prefix s p else None
  | String _ _, EmptyString => None
  end.
Definition TrimPrefix (s p : string) : string := default s (strip_prefix s p).

(** A volume with the name that is not a secret is a nil pointer. *)
Definition GetProxyUUID (pod : PodObject) : outcome (option string) :=
  match List.find (λ v, bool_decide (vol_Name v = SidecarBootstrapConfigVolume)) (ps_Volumes (po_Spec pod)) with
  | None => Ret None
  | Some v =>
    match vol_SecretName v with
    | None => Panic
    | Some s => Ret (Some (TrimPrefix s BootstrapSecretPrefix))
    end
  end.

Section patch.
Context (store : InformerStore MeshConfigSpec) (osmNamespace meshConfigName : string) (Getenv : string → string).
Context (meshName version pullPolicy logLevel : string).
Context (IntValue : IntOrString → Z).

#[local] Abbreviation spec := (getMeshConfig store osmNamespace meshConfigName).

Definition GetInitContainerSpec (containerName : string) (outboundIPRangeExclusionList outboundIPRangeInclusionList : list string)
    (outboundPortExclusionList inboundPortExclusionList : list Z) (enablePrivilegedInitContainer : bool)
    (networkInterfaceExclusionList : list string) : Container :=
  let podIP := bool_decide (sc_LocalProxyMode (mcs_Sidecar spec) = "PodIP") in
  let iptablesInitCommand := GenerateIptablesCommands podIP (IsLocalDNSProxyEnabled store osmNamespace meshConfigName)
    outboundIPRangeExclusionList outboundIPRangeInclusionList outboundPortExclusionList inboundPortExclusionList
    networkInterfaceExclusionList in
  {| ct_Name := containerName;
     ct_Image := GetInitContainerImage store osmNamespace meshConfigName Getenv;
     ct_ImagePullPolicy := pullPolicy;
     ct_SecurityContext := Some (mkSecurityContext (Some enablePrivilegedInitContainer) ["NET_ADMIN"] (Some false) (Some 0) None None);
     ct_Command := ["/bin/sh"];
     ct_Args := ["-c"; iptablesInitCommand];
     ct_Env := [("POD_IP", EnvField "status.podIP")];
     ct_Ports := []; ct_VolumeMounts := []; ct_Resources := no_resources; ct_Probe := no_probes |}.

Definition OSWindows : string := "windows".

Definition ConfigurePodInit (podOS : string) (pod : PodObject) : result string PodObject :=
  let traffic := mcs_Traffic spec in
  let annotations := po_Annotations pod in
  if equal_fold podOS OSWindows then Ok pod
  else
    match GetPortExclusionListForPod annotations OutboundPortExclusionListAnnotation with
    | Err e => Err e
    | Ok podOutboundPorts =>
    match GetPortExclusionListForPod annotations InboundPortExclusionListAnnotation with
    | Err e => Err e
    | Ok podInboundPorts =>
    match GetOutboundIPRangeListForPod annotations OutboundIPRangeExclusionListAnnotation with
    | Err e => Err e
    | Ok podExclusions =>
    match GetOutboundIPRangeListForPod annotations OutboundIPRangeInclusionListAnnotation with
    | Err e => Err e
    | Ok podInclusions =>
      let initContainer := GetInitContainerSpec "osm-init"
        (MergeIPRangeLists podExclusions (tf_OutboundIPRangeExclusionList traffic))
        (MergeIPRangeLists podInclusions (tf_OutboundIPRangeInclusionList traffic))
        (MergePortExclusionLists podOutboundPorts (tf_OutboundPortExclusionList traffic))
        (MergePortExclusionLists podInboundPorts (tf_InboundPortExclusionList traffic))
        (IsPrivilegedInitContainer store osmNamespace meshConfigName) (tf_NetworkInterfaceExclusionList traffic) in
      Ok (with_spec pod (with_initContainers (po_Spec pod) (ps_InitContainers (po_Spec pod) ++ [initContainer])))
    end end end end.

(** ** The bootstrap configuration (injector_bootstrap.go) *)

Record Builder := mkBuilder {
  bb_RepoHost : string;
  bb_RepoPort : Z;
  bb_NodeID : string;
  bb_TLSMinProtocolVersion : string;
  bb_TLSMaxProtocolVersion : string;
  bb_CipherSuites : list string;
  bb_ECDHCurves : list string;
  bb_OriginalHealthProbes : HealthProbes;
}.

(** The bootstrap configuration is missing when the bytes are no JSON of a [Builder]. *)
Record Secret := mkSecret {
  sct_Namespace : string;
  sct_Name : string;
  sct_Labels : labels;
  sct_Bootstrap : option Builder;
  sct_CA : string;
  sct_Cert : string;
  sct_Key : string;
}.

Context (getSecret : string → string → result string Secret) (createSecret : Secret → result string unit).

(** The secret that is created. *)
Definition marshalAndSaveBootstrap (name namespace : string) (config : Builder) (cert : MeshCertificate) : result string Secret :=
  let secret := {|
    sct_Namespace := namespace; sct_Name := name;
    sct_Labels := list_to_map [("app.kubernetes.io/name", "openservicemesh.io"); ("app.kubernetes.io/instance", meshName);
                               ("app.kubernetes.io/version", version)];
    sct_Bootstrap := Some config; sct_CA := cert_TrustedCAs cert; sct_Cert := cert_CertChain cert; sct_Key := cert_PrivateKey cert |} in
  match createSecret secret with Ok _ => Ok secret | Err e => Err e end.

Definition createPipyBootstrapFromExisting (newName oldName namespace : string) (cert : MeshCertificate) : result string Secret :=
  match getSecret namespace oldName with
  | Err e => Err e
  | Ok existing =>
    match sct_Bootstrap existing with
    | None => Err "error unmarshalling pipy bootstrap config"
    | Some c =>
      marshalAndSaveBootstrap newName namespace
        (mkBuilder (bb_RepoHost c) (bb_RepoPort c) (cert_CommonName cert) (bb_TLSMinProtocolVersion c) (bb_TLSMaxProtocolVersion c)
           (bb_CipherSuites c) (bb_ECDHCurves c) (bb_OriginalHealthProbes c)) cert
    end
  end.

Definition createPipyBootstrapConfig (name namespace : string) (cert : MeshCertificate) (probes : HealthProbes) : result string Secret :=
  let sidecar := mcs_Sidecar spec in
  marshalAndSaveBootstrap name namespace
    (mkBuilder ("osm-controller." +:+ osmNamespace +:+ ".svc.cluster.local") (GetProxyServerPort store osmNamespace meshConfigName)
       (cert_CommonName cert) (sc_TLSMinProtocolVersion sidecar) (sc_TLSMaxProtocolVersion sidecar) (sc_CipherSuites sidecar)
       (sc_ECDHCurves sidecar) probes) cert.

(** ** The sidecar container (pipy_container.go) *)

Context (ParseQuantity : string → option string) (formatFraction : option (pointer string) → string).
Context (getLiveNamespace : string → option Namespace) (getServiceIP : string → string → option string).

Definition getPlatformSpecificSpecComponents (podOS : string) : SecurityContext * string :=
  if equal_fold podOS OSWindows
  then (mkSecurityContext None [] None None None (Some "SidecarUser"), GetSidecarWindowsImage store osmNamespace meshConfigName Getenv)
  else (mkSecurityContext None [] None (Some SidecarUID) (Some false) None, GetSidecarImage store osmNamespace meshConfigName Getenv).

Definition getPipyContainerPorts (probes : HealthProbes) : list ContainerPort :=
  [mkContainerPort "proxy-admin" SidecarAdminPort; mkContainerPort "proxy-inbound" SidecarInboundListenerPort;
   mkContainerPort "proxy-metrics" SidecarPrometheusInboundListenerPort] ++
  (if probes Liveness is Some _ then [mkContainerPort "liveness-port" LivenessProbePort] else []) ++
  (if probes Readiness is Some _ then [mkContainerPort "readiness-port" ReadinessProbePort] else []) ++
  (if probes Startup is Some _ then [mkContainerPort "startup-port" StartupProbePort] else []).

(** One of the loops over the names of resources: an annotation of the pod, else of the
    namespace, replaces a quantity. *)
Definition annotatedResource (prefix : string) (podAnnotations nsAnnotations : labels)
    (resources : option (gmap string string)) (name : string) : option (gmap string string) :=
  let annotation := prefix +:+ "-" +:+ name in
  let override (resources : option (gmap string string)) (a : labels) : option (gmap string string) * bool :=
    match a !! annotation with
    | None => (resources, false)
    | Some q =>
      let made := default ∅ resources in
      match ParseQuantity q with
      | Some quantity => (Some (<[name := quantity]> made), true)
      | None => (Some made, false)
      end
    end in
  let '(resources, podExists) := override resources podAnnotations in
  if podExists then resources else (override resources nsAnnotations).1.

Definition getPipySidecarResourceSpec (pod : PodObject) (namespace : string) : ResourceRequirements :=
  let cfg := sc_Resources (mcs_Sidecar spec) in
  let nsAnnotations := from_option ns_Annotations ∅ (getLiveNamespace namespace) in
  let names := ["cpu"; "memory"; "storage"; "ephemeral-storage"] in
  mkResourceRequirements
    (foldl (annotatedResource "openservicemesh.io/sidecar-resource-limits" (po_Annotations pod) nsAnnotations) (rr_Limits cfg) names)
    (foldl (annotatedResource "openservicemesh.io/sidecar-resource-requests" (po_Annotations pod) nsAnnotations) (rr_Requests cfg) names).

(** The kind and name of the controller of the pod; a ReplicaSet stands for its
    Deployment. *)
Definition podController (refs : list OwnerReference) : string * string :=
  match List.find (λ r, bool_decide (or_Controller r = Some true)) refs with
  | None => ("", "")
  | Some r =>
    if decide (or_Kind r = "ReplicaSet") then
      match beforeLastHyphen (or_Name r) with Some d => ("Deployment", d) | None => (or_Kind r, or_Name r) end
    else (or_Kind r, or_Name r)
  end.

(** The address of the repository with the codebase of one sidecar. *)
Definition repoServer (cnPrefix : string) : string :=
  let ip := GetRepoServerIPAddr store osmNamespace meshConfigName Getenv in
  let ip := if has_prefix ip "127." || equal_fold (to_lower ip) "localhost" then "osm-controller." +:+ osmNamespace else ip in
  let codebase := GetRepoServerCodebase store osmNamespace meshConfigName Getenv in
  "http://" +:+ ip +:+ ":" +:+ itoa (GetProxyServerPort store osmNamespace meshConfigName) +:+ "/repo/" +:+
  (if decide (codebase = "") then "" else codebase +:+ "/") +:+ "osm-edge-sidecar/" +:+ cnPrefix +:+ "/".

Definition envIf (b : bool) (name value : string) : list (string * EnvValue) := if b then [(name, EnvLiteral value)] else [].

Definition tracingEnv : list (string * EnvValue) :=
  let host := GetTracingHost store osmNamespace meshConfigName in
  let port := GetTracingPort store osmNamespace meshConfigName in
  let endpoint := GetTracingEndpoint store osmNamespace meshConfigName in
  if IsTracingEnabled store osmNamespace meshConfigName then
    envIf (bool_decide (host ≠ "") && bool_decide (0 < port)) "TRACING_ADDRESS" (host +:+ ":" +:+ itoa port) ++
    envIf (bool_decide (endpoint ≠ "")) "TRACING_ENDPOINT" endpoint ++
    [("TRACING_SAMPLED_FRACTION", EnvLiteral (formatFraction (tr_SampledFraction (ob_Tracing (mcs_Observability spec)))))]
  else [].

Definition remoteLoggingEnv : list (string * EnvValue) :=
  let host := GetRemoteLoggingHost store osmNamespace meshConfigName in
  let port := GetRemoteLoggingPort store osmNamespace meshConfigName in
  let endpoint := GetRemoteLoggingEndpoint store osmNamespace meshConfigName in
  let authorization := GetRemoteLoggingAuthorization store osmNamespace meshConfigName in
  if IsRemoteLoggingEnabled store osmNamespace meshConfigName then
    [("REMOTE_LOGGING_LEVEL", EnvLiteral (itoa (GetRemoteLoggingLevel store osmNamespace meshConfigName)))] ++
    envIf (bool_decide (host ≠ "") && bool_decide (0 < port)) "REMOTE_LOGGING_ADDRESS" (host +:+ ":" +:+ itoa port) ++
    envIf (bool_decide (endpoint ≠ "")) "REMOTE_LOGGING_ENDPOINT" endpoint ++
    envIf (bool_decide (authorization ≠ "")) "REMOTE_LOGGING_AUTHORIZATION" authorization ++
    [("REMOTE_LOGGING_SAMPLED_FRACTION", EnvLiteral (formatFraction (rlog_SampledFraction (ob_RemoteLogging (mcs_Observability spec)))))]
  else [].

Definition localDNSEnv : list (string * EnvValue) :=
  let primary := GetLocalDNSProxyPrimaryUpstream store osmNamespace meshConfigName in
  let secondary := GetLocalDNSProxySecondaryUpstream store osmNamespace meshConfigName in
  if IsLocalDNSProxyEnabled store osmNamespace meshConfigName then
    [("LOCAL_DNS_PROXY", EnvLiteral "true")] ++
    envIf (bool_decide (primary ≠ "")) "LOCAL_DNS_PROXY_PRIMARY_UPSTREAM" primary ++
    envIf (bool_decide (secondary ≠ "")) "LOCAL_DNS_PROXY_SECONDARY_UPSTREAM" secondary
  else [].

Definition getOSMControllerSvc : option string :=
  let svcName := Getenv "CONTROLLER_SVC_NAME" in
  if decide (svcName = "") then None else getServiceIP osmNamespace svcName.

(** The pod with the resolver of the sidecar. *)
Definition withLocalDNS (m : Manager) (pod : PodObject) : outcome PodObject :=
  if IsLocalDNSProxyEnabled store osmNamespace meshConfigName then
    trustDomain ← GetTrustDomain m;
    let s := po_Spec pod in
    let aliases := match getOSMControllerSvc with
                   | Some ip => [(ip, ["osm-controller." +:+ osmNamespace])]
                   | None => []
                   end in
    Ret (with_spec pod
      (mkPodSpec (ps_HostNetwork s) (ps_NodeSelector s) (ps_ServiceAccountName s) (ps_InitContainers s) (ps_Containers s) (ps_Volumes s)
         (ps_HostAliases s ++ aliases) "None"
         (Some (mkDNSConfig ["127.0.0.153"] ["svc." +:+ trustDomain; trustDomain] [("ndots", "5")]))))
  else Ret pod.

Definition getPipySidecarContainerSpec (m : Manager) (pod : PodObject) (namespace cnPrefix : string) (probes : HealthProbes) (podOS : string) :
    outcome (PodObject * Container) :=
  let '(securityContext, containerImage) := getPlatformSpecificSpecComponents podOS in
  let '(podControllerKind, podControllerName) := podController (po_OwnerReferences pod) in
  let container := {|
    ct_Name := "sidecar"; ct_Image := containerImage; ct_ImagePullPolicy := "IfNotPresent";
    ct_SecurityContext := Some securityContext; ct_Command := [];
    ct_Args := ["pipy"; "--log-level=" +:+ GetSidecarLogLevel store osmNamespace meshConfigName;
                "--admin-port=" +:+ itoa (GetProxyServerPort store osmNamespace meshConfigName); repoServer cnPrefix];
    ct_Env := [("MESH_NAME", EnvLiteral meshName); ("POD_UID", EnvField "metadata.uid"); ("POD_NAME", EnvField "metadata.name");
               ("POD_NAMESPACE", EnvField "metadata.namespace"); ("POD_IP", EnvField "status.podIP");
               ("SERVICE_ACCOUNT", EnvField "spec.serviceAccountName");
               ("POD_CONTROLLER_KIND", EnvLiteral podControllerKind); ("POD_CONTROLLER_NAME", EnvLiteral podControllerName)] ++
              tracingEnv ++ remoteLoggingEnv ++ localDNSEnv;
    ct_Ports := getPipyContainerPorts probes;
    ct_VolumeMounts := [(SidecarBootstrapConfigVolume, "/etc/pipy")];
    ct_Resources := getPipySidecarResourceSpec pod namespace; ct_Probe := no_probes |} in
  pod ← withLocalDNS m pod;
  Ret (pod, container).

(** ** The driver (sidecar.go) *)

Definition probed (c : Container) : ProbedContainer := mkProbedContainer (ct_Ports c) (ct_Probe c).
Definition with_probes (c : Container) (p : ProbedContainer) : Container :=
  {| ct_Name := ct_Name c; ct_Image := ct_Image c; ct_ImagePullPolicy := ct_ImagePullPolicy c;
     ct_SecurityContext := ct_SecurityContext c; ct_Command := ct_Command c; ct_Args := ct_Args c; ct_Env := ct_Env c;
     ct_Ports := ct_Ports c; ct_VolumeMounts := ct_VolumeMounts c; ct_Resources := ct_Resources c; ct_Probe := pc_Probe p |}.

Definition rewritePod (pod : PodObject) : PodObject * HealthProbes :=
  let cs := ps_Containers (po_Spec pod) in
  let '(pcs, probes) := RewriteHealthProbes IntValue (probed <$> cs) in
  (with_spec pod (with_containers (po_Spec pod) (zip_with with_probes cs pcs)), probes).

(** The first volume with the name is replaced. *)
Fixpoint replaceVolume (name : string) (vs : list Volume) : list Volume :=
  match vs with
  | [] => []
  | v :: vs => if decide (vol_Name v = SidecarBootstrapConfigVolume) then GetVolumeSpec name :: vs else v :: replaceVolume name vs
  end.

Definition healthcheckContainer : Container :=
  {| ct_Name := "osm-healthcheck"; ct_Image := Getenv "OSM_DEFAULT_HEALTHCHECK_CONTAINER_IMAGE"; ct_ImagePullPolicy := pullPolicy;
     ct_SecurityContext := None; ct_Command := ["/osm-healthcheck"]; ct_Args := ["--verbosity"; logLevel]; ct_Env := [];
     ct_Ports := [mkContainerPort "" HealthcheckPort]; ct_VolumeMounts := []; ct_Resources := no_resources; ct_Probe := no_probes |}.

(** The pod, and the secrets that were created. *)
Definition Patch (m : Manager) (pod : PodObject) (podOS namespace proxyUUID cnPrefix : string) (cert : MeshCertificate) (dryRun : bool) :
    outcome (list Secret * result string PodObject) :=
  let '(pod, probes) := rewritePod pod in
  let name := BootstrapSecretPrefix +:+ proxyUUID in
  original ← GetProxyUUID pod;
  let created : result string (list Secret) :=
    if dryRun then Ok []
    else match (match original with
                | Some originalUUID => createPipyBootstrapFromExisting name (BootstrapSecretPrefix +:+ originalUUID) namespace cert
                | None => createPipyBootstrapConfig name namespace cert probes
                end) with
         | Ok s => Ok [s]
         | Err e => Err e
         end in
  match created with
  | Err e => Ret ([], Err e)
  | Ok secrets =>
    if original is Some _
    then Ret (secrets, Ok (with_spec pod (with_volumes (po_Spec pod) (replaceVolume name (ps_Volumes (po_Spec pod))))))
    else
      let pod := with_spec pod (with_volumes (po_Spec pod) (ps_Volumes (po_Spec pod) ++ [GetVolumeSpec name])) in
      match (if decide (GetTrafficInterceptionMode store osmNamespace meshConfigName = "iptables") then ConfigurePodInit podOS pod else Ok pod) with
      | Err e => Ret (secrets, Err e)
      | Ok pod =>
        let pod := if UsesTCP probes
                   then with_spec pod (with_containers (po_Spec pod) (ps_Containers (po_Spec pod) ++ [healthcheckContainer])) else pod in
        '(pod, sidecar) ← getPipySidecarContainerSpec m pod namespace cnPrefix probes podOS;
        Ret (secrets, Ok (with_spec pod (with_containers (po_Spec pod) (ps_Containers (po_Spec pod) ++ [sidecar]))))
      end
  end.

(** ** The patch (patch.go) *)

Definition verifyPrerequisites (podOS : string) : result string unit :=
  let isWindows := equal_fold podOS OSWindows in
  if negb isWindows && bool_decide (GetSidecarImage store osmNamespace meshConfigName Getenv = "")
  then Err "MeshConfig sidecar.sidecarImage not set"
  else if isWindows && bool_decide (GetSidecarWindowsImage store osmNamespace meshConfigName Getenv = "")
  then Err "MeshConfig sidecar.sidecarWindowsImage not set"
  else if negb isWindows && bool_decide (GetInitContainerImage store osmNamespace meshConfigName Getenv = "")
  then Err "MeshConfig sidecar.initContainerImage not set"
  else Ok tt.

Definition prometheusAnnotations : labels :=
  list_to_map [("prometheus.io/scrape", "true"); ("prometheus.io/port", itoa SidecarPrometheusInboundListenerPort);
               ("prometheus.io/path", "/stats/prometheus")].

Context (ctl_IsMonitoredNamespace : string → bool) (ctl_GetNamespace : string → option Namespace).
Context (m : Manager) (at_ : moment).

Record AdmissionRequest := mkAdmissionRequest {
  ar_UID : string;
  ar_Namespace : string;
  ar_Object : option PodObject;
  ar_DryRun : option bool;
}.

Record AdmissionResponse := mkAdmissionResponse {
  resp_Allowed : bool;
  resp_UID : string;
  resp_Message : string;
  resp_Patch : option PodObject;
}.

Definition AdmissionError (e : string) : AdmissionResponse := mkAdmissionResponse false "" e None.

(** The pod with its annotations and its label. *)
Definition labelPod (pod : PodObject) (enableMetrics : bool) (proxyUUID : string) : PodObject :=
  mkPodObject (<[SidecarUniqueIDLabelName := proxyUUID]> (po_Labels pod))
    (if enableMetrics then prometheusAnnotations ∪ po_Annotations pod else po_Annotations pod) (po_OwnerReferences pod) (po_Spec pod).

Definition createPatch (pod : PodObject) (req : AdmissionRequest) (proxyUUID : string) :
    outcome (Manager * list Secret * result string PodObject) :=
  let namespace := ar_Namespace req in
  let podOS := default "" (ps_NodeSelector (po_Spec pod) !! "kubernetes.io/os") in
  match verifyPrerequisites podOS with
  | Err e => Ret (m, [], Err e)
  | Ok _ =>
    match injector_IsMetricsEnabled ctl_GetNamespace namespace with
    | Err e => Ret (m, [], Err e)
    | Ok enableMetrics =>
      let pod := labelPod pod enableMetrics proxyUUID in
      let cnPrefix := NewCertCNPrefix proxyUUID "sidecar" (New (ps_ServiceAccountName (po_Spec pod)) namespace) in
      '(m', r, _) ← issueCertificate m at_ cnPrefix CertType_Internal [];
      match r with
      | Err e => Ret (m', [], Err e)
      | Ok cert =>
        '(secrets, r) ← Patch m' pod podOS namespace proxyUUID cnPrefix cert (default false (ar_DryRun req));
        Ret (m', secrets, r)
      end
    end
  end.

(** The request is missing, its object is no pod, or the pod is decided on. *)
Definition mutate (req : option AdmissionRequest) (proxyUUID : string) : outcome (Manager * list Secret * AdmissionResponse) :=
  match req with
  | None => Ret (m, [], AdmissionError "nil admission request")
  | Some req =>
    match ar_Object req with
    | None => Ret (m, [], AdmissionError "object is not a pod")
    | Some pod =>
      match mustInject ctl_IsMonitoredNamespace ctl_GetNamespace osmNamespace pod (ar_Namespace req) with
      | Err e => Ret (m, [], AdmissionError e)
      | Ok false => Ret (m, [], mkAdmissionResponse true (ar_UID req) "" None)
      | Ok true =>
        '(m', secrets, r) ← createPatch pod req proxyUUID;
        Ret (m', secrets, match r with
                          | Err e => AdmissionError e
                          | Ok pod' => mkAdmissionResponse true (ar_UID req) "" (Some pod')
                          end)
      end
    end
  end.
End patch.

(** ** Theorems: the decision *)

(** C13. A sidecar is injected exactly into the pods that are not on the host's network, in
    a monitored namespace that is neither the control plane's nor Kubernetes' own, when
    the annotations of the pod and of the namespace are readable and the pod enables the
    injection, or the namespace does and the pod says nothing. *)
Theorem mustInject_exact (ctl_IsMonitoredNamespace : string → bool) (ctl_GetNamespace : string → option Namespace)
    (osmNamespace : string) (pod : PodObject) (namespace : string) :
  let annotation (a : labels) := a !! SidecarInjectionAnnotation in
  let value (a : labels) := annotation a ≫= annotationValue in
  let readable a := annotation a = None ∨ is_Some (value a) in
  mustInject ctl_IsMonitoredNamespace ctl_GetNamespace osmNamespace pod namespace = Ok true ↔
    ps_HostNetwork (po_Spec pod) = false ∧ (namespace ∉ ["kube-system"; "kube-public"; osmNamespace]) ∧
    ctl_IsMonitoredNamespace namespace = true ∧
    ∃ ns, ctl_GetNamespace namespace = Some ns ∧ readable (po_Annotations pod) ∧ readable (ns_Annotations ns) ∧
      (value (po_Annotations pod) = Some true ∨
       value (ns_Annotations ns) = Some true ∧ annotation (po_Annotations pod) = None).
Proof.
  intros annotation value readable. unfold mustInject, isNamespaceInjectable.
  destruct (ps_HostNetwork (po_Spec pod)); [by split; [|intros []]|].
  assert (namespace ∈ nonInjectNamespaces osmNamespace ↔ namespace ∈ ["kube-system"; "kube-public"; osmNamespace]) as Hns
    by (unfold nonInjectNamespaces; set_solver).
  case_bool_decide as Hin; simpl; [split; [done|naive_solver]|].
  destruct (ctl_IsMonitoredNamespace namespace); simpl; [|split; [done|naive_solver]].
  unfold readable, value, annotation, isAnnotatedForInjection.
  destruct (ctl_GetNamespace namespace) as [ns|]; [|split; [by repeat case_match|intros (_ & _ & _ & ? & [=] & _)]].
  destruct (po_Annotations pod !! SidecarInjectionAnnotation) as [a|]; simpl; [destruct (annotationValue a) as [[]|]|];
    (destruct (ns_Annotations ns !! SidecarInjectionAnnotation) as [b|] eqn:Eb; simpl; [destruct (annotationValue b) as [[]|] eqn:Ev|]); simpl.
  all: split; [intros [=]; split_and!; try tauto; exists ns; rewrite ?Eb; simpl; rewrite ?Ev; eauto 8
              |intros (_ & _ & _ & ns' & [= <-] & Hr); rewrite ?Eb in Hr; simpl in Hr; rewrite ?Ev in Hr; try done;
               naive_solver eauto using is_Some_None].
Qed.

(** ** Theorems: the patch *)

Lemma find_app_none {A} (f : A → bool) l x : List.find f l = None → f x = true → List.find f (l ++ [x]) = Some x.
Proof. induction l as [|y l IH]; simpl; [by intros _ ->|]. by destruct (f y). Qed.

Lemma replaceVolume_spec name vs v :
  List.find (λ v, bool_decide (vol_Name v = SidecarBootstrapConfigVolume)) vs = Some v →
  List.find (λ v, bool_decide (vol_Name v = SidecarBootstrapConfigVolume)) (replaceVolume name vs) = Some (GetVolumeSpec name).
Proof.
  induction vs as [|v' vs IH]; simpl; [done|]. case_bool_decide as Hv; [by rewrite decide_True|].
  rewrite decide_False by done. simpl. by rewrite bool_decide_false.
Qed.

Lemma TrimPrefix_app p s : TrimPrefix (p +:+ s) p = s.
Proof.
  unfold TrimPrefix. cut (strip_prefix (p +:+ s) p = Some s); [by intros ->|].
  induction p as [|c p IH]; [by destruct s|]. rewrite app_cons. simpl. by rewrite decide_True.
Qed.

Section patched.
Context (store : InformerStore MeshConfigSpec) (osmNamespace meshConfigName : string) (Getenv : string → string).
Context (meshName version pullPolicy logLevel : string) (IntValue : IntOrString → Z).
Context (getSecret : string → string → result string Secret) (createSecret : Secret → result string unit).
Context (ParseQuantity : string → option string) (formatFraction : option (pointer string) → string).
Context (getLiveNamespace : string → option Namespace) (getServiceIP : string → string → option string).

#[local] Abbreviation patch :=
  (Patch store osmNamespace meshConfigName Getenv meshName version pullPolicy logLevel IntValue getSecret createSecret
     ParseQuantity formatFraction getLiveNamespace getServiceIP).

(** What is kept of the pod. *)
Lemma ConfigurePodInit_keeps podOS pod pod' :
  ConfigurePodInit store osmNamespace meshConfigName Getenv pullPolicy podOS pod = Ok pod' →
  po_Labels pod' = po_Labels pod ∧ ps_ServiceAccountName (po_Spec pod') = ps_ServiceAccountName (po_Spec pod) ∧
  ps_Volumes (po_Spec pod') = ps_Volumes (po_Spec pod) ∧ ps_Containers (po_Spec pod') = ps_Containers (po_Spec pod).
Proof. unfold ConfigurePodInit. intros E. repeat case_match; simplify_eq; done. Qed.

Lemma withLocalDNS_keeps m pod pod' :
  withLocalDNS store osmNamespace meshConfigName Getenv getServiceIP m pod = Ret pod' →
  po_Labels pod' = po_Labels pod ∧ ps_ServiceAccountName (po_Spec pod') = ps_ServiceAccountName (po_Spec pod) ∧
  ps_Volumes (po_Spec pod') = ps_Volumes (po_Spec pod) ∧ ps_Containers (po_Spec pod') = ps_Containers (po_Spec pod).
Proof.
  unfold withLocalDNS. case_match; [|by intros [= <-]]. intros (td & _ & [= <-])%bind_Ret. done.
Qed.

(** The secret of a sidecar. *)
Definition bootstrapOf (s : Secret) (namespace uuid : string) (cert : MeshCertificate) : Prop :=
  ∃ b, sct_Namespace s = namespace ∧ sct_Name s = BootstrapSecretPrefix +:+ uuid ∧ sct_Bootstrap s = Some b ∧
    bb_NodeID b = cert_CommonName cert ∧ sct_Cert s = cert_CertChain cert.

Lemma marshalAndSaveBootstrap_spec uuid namespace config cert s :
  bb_NodeID config = cert_CommonName cert →
  marshalAndSaveBootstrap meshName version createSecret (BootstrapSecretPrefix +:+ uuid) namespace config cert = Ok s →
  bootstrapOf s namespace uuid cert.
Proof. unfold marshalAndSaveBootstrap. intros Hid. case_match; [|done]. intros [= <-]. by exists config. Qed.

Lemma GetProxyUUID_volume pod uuid :
  List.find (λ v, bool_decide (vol_Name v = SidecarBootstrapConfigVolume)) (ps_Volumes (po_Spec pod)) =
    Some (GetVolumeSpec (BootstrapSecretPrefix +:+ uuid)) →
  GetProxyUUID pod = Ret (Some uuid).
Proof. unfold GetProxyUUID. intros ->. simpl. by rewrite TrimPrefix_app. Qed.

(** A pod that is patched keeps its labels and its account, mounts the bootstrap
    configuration of the UUID, which is created unless the request is a dry run, and, when it
    had no sidecar, has its containers with their probes rewritten, osm-healthcheck when a
    probe needs it, and the sidecar, which runs as the user whose traffic is not redirected
    and fetches the codebase of its name. *)
Lemma Patch_spec m pod podOS namespace uuid cnPrefix cert dryRun secrets pod' :
  patch m pod podOS namespace uuid cnPrefix cert dryRun = Ret (secrets, Ok pod') →
  po_Labels pod' = po_Labels pod ∧ ps_ServiceAccountName (po_Spec pod') = ps_ServiceAccountName (po_Spec pod) ∧
  GetProxyUUID pod' = Ret (Some uuid) ∧
  (if dryRun then secrets = []
   else ∃ s, secrets = [s] ∧ bootstrapOf s namespace uuid cert) ∧
  let '(pcs, probes) := RewriteHealthProbes IntValue (probed <$> ps_Containers (po_Spec pod)) in
  let rewritten := zip_with with_probes (ps_Containers (po_Spec pod)) pcs in
  (if decide (GetProxyUUID pod = Ret None) then
     ∃ sidecar, ps_Containers (po_Spec pod') =
       rewritten ++ (if UsesTCP probes then [healthcheckContainer Getenv pullPolicy logLevel] else []) ++ [sidecar] ∧
       last (ct_Args sidecar) = Some (repoServer store osmNamespace meshConfigName Getenv cnPrefix) ∧
       ct_Probe sidecar = no_probes ∧
       (equal_fold podOS OSWindows = false → ct_SecurityContext sidecar ≫= sec_RunAsUser = Some SidecarUID)
   else ps_Containers (po_Spec pod') = rewritten).
Proof.
  unfold Patch, rewritePod.
  destruct (RewriteHealthProbes IntValue _) as [pcs probes]. intros (original & Horig & E)%bind_Ret.
  assert (GetProxyUUID pod = Ret original) as Hpod by exact Horig. clear Horig.
  match type of E with match ?c with _ => _ end = _ => destruct c as [created|e] eqn:Hcreated end; [|done].
  assert (if dryRun then created = [] else ∃ s, created = [s] ∧ bootstrapOf s namespace uuid cert) as Hsecrets.
  { destruct dryRun; [by injection Hcreated as <-|].
    match type of Hcreated with match ?c with _ => _ end = _ => destruct c as [s|e] eqn:Hs end; [|done].
    injection Hcreated as <-. exists s. split; [done|]. destruct original as [u|].
    - unfold createPipyBootstrapFromExisting in Hs. repeat case_match; try done. by eapply marshalAndSaveBootstrap_spec; [|exact Hs].
    - by eapply marshalAndSaveBootstrap_spec; [|exact Hs]. }
  clear Hcreated. rewrite Hpod. destruct original as [u|].
  - injection E as <- <-. split_and!; [done..| |done|by rewrite decide_False].
    apply GetProxyUUID_volume. simpl. unfold GetProxyUUID in Hpod.
    destruct (List.find _ (ps_Volumes (po_Spec pod))) as [v|] eqn:Hv; [|done]. by eapply replaceVolume_spec.
  - rewrite decide_True by done. unfold GetProxyUUID in Hpod.
    destruct (List.find _ (ps_Volumes (po_Spec pod))) as [v|] eqn:Hv; [by destruct (vol_SecretName v)|]. clear Hpod.
    match type of E with match ?c with _ => _ end = _ => destruct c as [pod1|e] eqn:Hinit end; [|done].
    assert (po_Labels pod1 = po_Labels pod ∧ ps_ServiceAccountName (po_Spec pod1) = ps_ServiceAccountName (po_Spec pod) ∧
      ps_Volumes (po_Spec pod1) = ps_Volumes (po_Spec pod) ++ [GetVolumeSpec (BootstrapSecretPrefix +:+ uuid)] ∧
      ps_Containers (po_Spec pod1) = zip_with with_probes (ps_Containers (po_Spec pod)) pcs) as (Hl & Hsa & Hvol & Hct).
    { case_decide; [by apply ConfigurePodInit_keeps in Hinit|by injection Hinit as <-]. }
    apply bind_Ret in E as ([pod2 sidecar] & Hside & E). injection E as <- <-.
    unfold getPipySidecarContainerSpec in Hside. destruct (getPlatformSpecificSpecComponents _ _ _ _ _) as [sc img] eqn:Hplat.
    destruct (podController _) as [kind name]. apply bind_Ret in Hside as (pod3 & Hdns & E). injection E as <- <-.
    apply withLocalDNS_keeps in Hdns as (Hl' & Hsa' & Hvol' & Hct').
    split_and!; simpl.
    + rewrite Hl'. by destruct (UsesTCP probes).
    + rewrite Hsa'. by destruct (UsesTCP probes).
    + apply GetProxyUUID_volume. simpl. rewrite Hvol'.
      replace (ps_Volumes _) with (ps_Volumes (po_Spec pod1)) by by destruct (UsesTCP probes).
      rewrite Hvol. by apply find_app_none.
    + done.
    + match goal with |- ∃ _, _ ++ [?c] = _ ∧ _ => exists c end. split_and!; [|reflexivity|reflexivity|].
      * rewrite Hct'. destruct (UsesTCP probes); simpl; rewrite Hct; by rewrite <-?app_assoc.
      * intros Hwin. simpl. unfold getPlatformSpecificSpecComponents in Hplat. rewrite Hwin in Hplat. by injection Hplat as <- _.
Qed.

Context (IsMonitored : string → bool) (GetNs : string → option Namespace).

#[local] Abbreviation admit_pod m at_ :=
  (mutate store osmNamespace meshConfigName Getenv meshName version pullPolicy logLevel IntValue getSecret createSecret
     ParseQuantity formatFraction getLiveNamespace getServiceIP IsMonitored GetNs m at_).

(** The certificate of a sidecar with a new UUID. *)
Lemma new_certificate_name m at_ prefix ct m' cert pub :
  issuers_are lawful m → mgr_cache m !! prefix = None →
  issueCertificate m at_ prefix ct [] = Ret (m', Ok cert, pub) →
  ∃ trustDomain, cert_CommonName cert = prefix +:+ "." +:+ trustDomain.
Proof.
  intros (s & v & Hs & Hv & Ls & _) Hnew Hi%issueCertificate_result.
  inversion Hi as [? Hc| |s' v' sans newCert Hs' Hv' _ _ o Hiss]; subst; [congruence|].
  assert (s' = s) as -> by congruence. exists (iss_TrustDomain s).
  rewrite issued_as_CommonName, (issued_name (IssuerLaws:=Ls) _ _ _ _ _ _ Hiss). done.
Qed.

(** The pod as the API server stores it. *)
Definition stored (pod : PodObject) (namespace : string) (p : Pod) : Prop :=
  pod_Namespace p = namespace ∧ pod_Labels p = po_Labels pod ∧ pod_ServiceAccountName p = ps_ServiceAccountName (po_Spec pod).

(** C11. A pod that is admitted with a sidecar is found when its sidecar connects: the name
    of the certificate in its bootstrap secret gives back the UUID and the identity of the
    pod, the secret is the one that the pod mounts, and the lookup of the pod of a proxy
    with this UUID and identity finds the pod, when no other pod has the UUID. *)
Theorem injected_pod_joins `{RangeOrder} m at_ req pod uuid m' secrets resp pod' (parseUUID : string → option string) (inf : Informers) (p : Pod) :
  let sa := mkK8sServiceAccount (ar_Namespace req) (ps_ServiceAccountName (po_Spec pod)) in
  ar_Object req = Some pod → admit_pod m at_ (Some req) uuid = Ret (m', secrets, resp) → resp_Patch resp = Some pod' →
  issuers_are lawful m → mgr_cache m !! NewCertCNPrefix uuid "sidecar" (ToServiceIdentity sa) = None →
  free_of "." uuid → parseUUID uuid = Some uuid → sa_dotless sa → sa_Name sa ≠ "" → sa_Namespace sa ≠ "" →
  store_ok pod_key (inf_Pod inf) → stored pod' (ar_Namespace req) p → p ∈ List (inf_Pod inf) →
  IsMonitoredNamespace inf (ar_Namespace req) = true →
  (∀ q, q ∈ ListPods inf → pod_Labels q !! SidecarUniqueIDLabelName = Some uuid → q = p) →
  GetProxyUUID pod' = Ret (Some uuid) ∧
  (default false (ar_DryRun req) = false → ∃ s b, secrets = [s] ∧ sct_Name s = BootstrapSecretPrefix +:+ uuid ∧ sct_Bootstrap s = Some b ∧
     getCertificateCommonNameMeta parseUUID (bb_NodeID b) = Ok ("sidecar", uuid, ToServiceIdentity sa)) ∧
  GetPodForProxy inf (K8s.mkProxy uuid (ToServiceIdentity sa)) = Ret (Ok p).
Proof.
  intros sa Hobj Hm Hpatch Hlaw Hnew Hu Hp Hdot Hname Hns Hstore (Hpn & Hpl & Hps) Hin Hmon Huniq.
  unfold mutate in Hm. rewrite Hobj in Hm. case_match; [|by injection Hm as <- <- <-]. case_match; [|by injection Hm as <- <- <-].
  apply bind_Ret in Hm as ([[m1 secrets1] r] & Hc & Hm). injection Hm as <- <- <-. destruct r as [pod1|e]; [|done].
  simpl in Hpatch. injection Hpatch as ->.
  unfold createPatch in Hc. case_match; [|by injection Hc]. case_match; [|by injection Hc].
  apply bind_Ret in Hc as ([[m2 r] pub] & Hi & Hc). destruct r as [cert|e]; [|by injection Hc].
  apply bind_Ret in Hc as ([secrets2 r] & Hpt & Hc). injection Hc as <- <- ->.
  apply Patch_spec in Hpt as (Hl & Hsa & Huuid & Hsec & _).
  destruct (new_certificate_name _ _ _ _ _ _ _ Hlaw Hnew Hi) as [td Htd].
  split_and!; [done| |].
  - intros Hdry. rewrite Hdry in Hsec. destruct Hsec as (s & -> & b & _ & Hn & Hb & Hid & _).
    exists s, b. split_and!; [done..|]. rewrite Hid, Htd. by apply certificate_name_roundtrip.
  - apply (GetPodForProxy_Ok inf (K8s.mkProxy uuid (ToServiceIdentity sa)) sa p); [done|by apply ToK8s_dotless|].
    split_and!; [done|by rewrite Hpn|by rewrite Hpl, Hl; apply lookup_insert_eq|done|done|by rewrite Hps, Hsa].
Qed.

(** An annotation that cannot be read is found after the secret was created: the pod is
    refused, and the secret with the key of its certificate stays. *)
Lemma Patch_leaks m pod podOS namespace uuid cnPrefix cert e s :
  GetProxyUUID pod = Ret None → GetTrafficInterceptionMode store osmNamespace meshConfigName = "iptables" →
  equal_fold podOS OSWindows = false →
  createPipyBootstrapConfig store osmNamespace meshConfigName meshName version createSecret (BootstrapSecretPrefix +:+ uuid) namespace cert
    (rewritePod IntValue pod).2 = Ok s →
  GetPortExclusionListForPod (po_Annotations pod) OutboundPortExclusionListAnnotation = Err e →
  patch m pod podOS namespace uuid cnPrefix cert false = Ret ([s], Err e).
Proof.
  intros Huuid Hmode Hwin Hs He. unfold Patch, rewritePod in *.
  destruct (RewriteHealthProbes IntValue _) as [pcs probes]. simpl in Hs.
  assert (GetProxyUUID (with_spec pod (with_containers (po_Spec pod) (zip_with with_probes (ps_Containers (po_Spec pod)) pcs))) = Ret None) as Hu by exact Huuid.
  rewrite Hu. simpl. rewrite Hs, decide_True by done. unfold ConfigurePodInit. rewrite Hwin. simpl. by rewrite He.
Qed.
End patched.

(** ** Pods that have a sidecar already *)

(** A second rewriting, of a pod that was copied with its sidecar, makes the sidecar ask
    itself: the listener of an HTTP probe forwards to its own port. *)
Lemma rewritten_twice_asks_itself (IntValue : IntOrString → Z) inbound k p g ports :
  (∀ n, IntValue (IntPort n) = n) → pr_HTTPGet p = Some g → hg_Scheme g = "HTTP" →
  Forall (λ h, ¬ is_original h) (hg_HTTPHeaders g) →
  let once := (rewriteProbe IntValue (Some p) (probePortOf k) ports).1 in
  let twice := (rewriteProbe IntValue once (probePortOf k) ports).1 in
  parseProbe inbound twice (probePortOf k) =
    mkJsProbe (Some HealthcheckPath) (Some ("127.0.0.1:" +:+ itoa (probePortOf k))) (Some "HTTP").
Proof.
  intros Hint Hg Hs Hhs. destruct p as [ex g' t tm]. simpl in Hg. subst g'.
  unfold rewriteProbe. simpl. rewrite Hs. cbn [bool_decide]. simpl.
  rewrite (getPort_number IntValue Hint) by apply probePort_range.
  unfold parseProbe. cbn [mbind option_bind pr_HTTPGet hg_Port hg_Scheme hg_HTTPHeaders]. rewrite decide_True by done.
  unfold originalHeaders. simpl orb. cbn iota. rewrite <-app_assoc, foldl_app, (parseHeader_other _ (hg_HTTPHeaders g)) by done.
  pose proof (probePort_range k). rewrite (decide_False (P:=probePortOf k = 0)) by lia. simpl. done.
Qed.

(** ** Witnesses *)

Module InjectorWitness.
#[local] Existing Instance stdpp_order.

Definition config : MeshConfigSpec :=
  let z := zero_MeshConfigSpec in {|
    mcs_ClusterSet := mcs_ClusterSet z; mcs_Sidecar := mcs_Sidecar z; mcs_RepoServer := mcs_RepoServer z;
    mcs_Traffic := mkTrafficSpec "iptables" false ["10.96.0.0/12"] [] [] [6060] false (mkExternalAuthzSpec false "" 0 "" "" false) [] false false;
    mcs_Observability := mcs_Observability z; mcs_Certificate := mcs_Certificate z; mcs_FeatureFlags := mcs_FeatureFlags z;
    mcs_PluginChains := mcs_PluginChains z |}.
Definition configs : InformerStore MeshConfigSpec := store_of {["osm-system/osm-mesh-config" := config]}.
Definition Getenv (name : string) : string := if decide (name = "OSM_REPO_SERVER_IPADDR") then "" else "image".
Definition shop : Namespace := mkNamespace "shop" ∅ {[SidecarInjectionAnnotation := "enabled"; MetricsAnnotation := "Yes"]}.
Definition GetNs (ns : string) : option Namespace := if decide (ns = "shop") then Some shop else None.
Definition IsMonitored (ns : string) : bool := bool_decide (ns = "shop").

Definition app : Container :=
  {| ct_Name := "web"; ct_Image := "web:1"; ct_ImagePullPolicy := ""; ct_SecurityContext := None; ct_Command := []; ct_Args := [];
     ct_Env := []; ct_Ports := pc_Ports ProbesWitness.web; ct_VolumeMounts := []; ct_Resources := no_resources;
     ct_Probe := pc_Probe ProbesWitness.web |}.
Definition pod (annotations : labels) : PodObject :=
  mkPodObject {["app" := "web"]} annotations [] (mkPodSpec false ∅ "web" [] [app] [] [] "" None).
Definition request (annotations : labels) : AdmissionRequest := mkAdmissionRequest "r1" "shop" (Some (pod annotations)) None.

Definition webhook (annotations : labels) : outcome (Manager * list Secret * AdmissionResponse) :=
  mutate configs "osm-system" "osm-mesh-config" Getenv "osm" "v1" "Always" "info" ProbesWitness.IntValue (λ _ _, Err "not found") (λ _, Ok tt)
    (λ _, None) (λ _, "1.00") (λ _, None) (λ _ _, None) IsMonitored GetNs CertWitness.manager (CertWitness.at_second 0 0 0)
    (Some (request annotations)) "6e7c-11".

Definition result_of (annotations : labels) : Manager * list Secret * AdmissionResponse :=
  match webhook annotations with Ret r => r | Panic => (CertWitness.manager, [], AdmissionError "") end.
Definition web_pod : PodObject := default (pod ∅) (resp_Patch (result_of ∅).2).
Definition web_stored : Pod := mkPod "shop" "web-0" "1" (po_Labels web_pod) (po_Annotations web_pod) "web" ["10.0.0.7"] "10.0.0.7".
Definition informers : Informers := {|
  inf_Namespace := store_of {["shop" := shop]}; inf_Service := store_of ∅; inf_ServiceAccount := store_of ∅;
  inf_Pod := store_of {["shop/web-0" := web_stored]}; inf_Endpoints := store_of ∅ |}.

Example web_containers :
  (resp_Allowed (result_of ∅).2, ct_Name <$> ps_InitContainers (po_Spec web_pod), ct_Name <$> ps_Containers (po_Spec web_pod),
   ps_Containers (po_Spec web_pod) ≫= λ c, ct_Args c) =
  (true, ["osm-init"], ["web"; "sidecar"],
   ["pipy"; "--log-level=error"; "--admin-port=15128";
    "http://osm-controller.osm-system:15128/repo/image/osm-edge-sidecar/6e7c-11.sidecar.web.shop/"]).
Proof. vm_compute. reflexivity. Qed.

Lemma web_result : webhook ∅ = Ret ((result_of ∅).1.1, (result_of ∅).1.2, (result_of ∅).2).
Proof.
  assert (bool_decide (is_Some (match webhook ∅ with Ret _ => Some () | Panic => None end)) = true) as Hr by (vm_compute; reflexivity).
  unfold result_of. destruct (webhook ∅) as [[[m s] r]|]; [done|]. by apply bool_decide_eq_true in Hr as [? ?].
Qed.

Lemma injected_pod_joins_witness :
  let sa := mkK8sServiceAccount "shop" "web" in
  GetProxyUUID web_pod = Ret (Some "6e7c-11") ∧
  (default false (ar_DryRun (request ∅)) = false →
     ∃ s b, (result_of ∅).1.2 = [s] ∧ sct_Name s = BootstrapSecretPrefix +:+ "6e7c-11" ∧ sct_Bootstrap s = Some b ∧
     getCertificateCommonNameMeta Some (bb_NodeID b) = Ok ("sidecar", "6e7c-11", ToServiceIdentity sa)) ∧
  GetPodForProxy informers (K8s.mkProxy "6e7c-11" (ToServiceIdentity sa)) = Ret (Ok web_stored).
Proof.
  apply (injected_pod_joins configs "osm-system" "osm-mesh-config" Getenv "osm" "v1" "Always" "info" ProbesWitness.IntValue (λ _ _, Err "not found")
    (λ _, Ok tt) (λ _, None) (λ _, "1.00") (λ _, None) (λ _ _, None) IsMonitored GetNs CertWitness.manager (CertWitness.at_second 0 0 0)
    (request ∅) (pod ∅) "6e7c-11" (result_of ∅).1.1 (result_of ∅).1.2 (result_of ∅).2 web_pod Some informers web_stored).
  - reflexivity.
  - exact web_result.
  - unfold web_pod. destruct (resp_Patch (result_of ∅).2) as [p|] eqn:E; [done|].
    assert (bool_decide (is_Some (match resp_Patch (result_of ∅).2 with Some _ => Some () | None => None end)) = true) as Hr by (vm_compute; reflexivity).
    rewrite E in Hr. done.
  - exists (CertWitness.tresor_issuer "a"), (CertWitness.tresor_issuer "a"). split_and!; [reflexivity|reflexivity|apply CertWitness.tresor_lawful..].
  - reflexivity.
  - by vm_compute.
  - reflexivity.
  - split; by vm_compute.
  - done.
  - done.
  - apply store_of_ok. by apply map_Forall_singleton.
  - split_and!; vm_compute; reflexivity.
  - assert (List (inf_Pod informers) = [web_stored]) as -> by (vm_compute; reflexivity). by left.
  - vm_compute. reflexivity.
  - assert (ListPods informers = [web_stored]) as -> by (vm_compute; reflexivity). intros q Hq _. by apply list_elem_of_singleton in Hq.
Defined.

(** A pod with an annotation that cannot be read is refused, and its secret stays. *)
Example refused_pod_leaves_secret :
  let '(_, secrets, resp) := result_of {[OutboundPortExclusionListAnnotation := "80, x"]} in
  resp_Allowed resp = false ∧ resp_Message resp = invalidExclusion "port value" "x" OutboundPortExclusionListAnnotation ∧
  sct_Name <$> secrets = ["sidecar-bootstrap-config-6e7c-11"].
Proof. vm_compute. done. Qed.
End InjectorWitness.
