(* ===== verification/EnvoyRoute.v ===== *)
(** * pkg/sidecar/providers/envoy/rds/route: route configurations for Envoy

    route_config.go: the route configurations that are made of the policies of the catalog.
    The messages are those of Envoy's API, as far as they are filled in.  How Envoy chooses a
    route is a parameter with its documented behaviour. *)

From S2P Require Import Prelude GoStrings Identity Service PolicyApi TrafficPolicy MeshConfig EnvoyRbac EnvoyProxy.

#[local] Open Scope Z_scope.

(** ** Messages *)

Inductive PathSpecifier :=
| SafeRegex (regex : string)
| PathExact (path : string)
| PathPrefix (prefix : string).

(** A matcher of a header with a regular expression. *)
Record HeaderMatcher := mkHeaderMatcher {
  hm_Name : string;
  hm_Regex : string;
}.

Record RouteMatch := mkRouteMatch {
  xm_PathSpecifier : PathSpecifier;
  xm_Headers : list HeaderMatcher;
}.

Record ClusterWeight := mkClusterWeight {
  cw_Name : string;
  cw_Weight : Z;
}.

Record WeightedClusterAction := mkWeightedClusterAction {
  wca_Clusters : list ClusterWeight;
  wca_TotalWeight : Z;
}.

Record RouteRetryPolicy := mkRouteRetryPolicy {
  rrp_RetryOn : string;
  rrp_NumRetries : option Z;
  rrp_PerTryTimeout : option Z;
  rrp_BaseInterval : option Z;
}.

(** The token bucket and the answer; the filter is always enabled and enforced. *)
Record LocalRateLimit := mkLocalRateLimit {
  lrf_MaxTokens : Z;
  lrf_TokensPerFill : Z;
  lrf_FillInterval : Z;
  lrf_ResponseHeadersToAdd : list (string * string);
  lrf_Status : option Z;
}.

(** [TypedPerFilterConfig] has an RBAC filter and a rate limit. *)
Record Route := mkRoute {
  xr_Match : RouteMatch;
  xr_WeightedClusters : option WeightedClusterAction;
  xr_RetryPolicy : option RouteRetryPolicy;
  xr_RBAC : option RBAC;
  xr_RateLimit : option LocalRateLimit;
}.

Record VirtualHost := mkVirtualHost {
  vh_Name : string;
  vh_Domains : list string;
  vh_Routes : list Route;
  vh_RateLimit : option LocalRateLimit;
}.

Record RouteConfiguration := mkRouteConfiguration {
  rc_Name : string;
  rc_VirtualHosts : list VirtualHost;
  rc_ResponseHeadersToAdd : list (string * string);
}.

(** ** Names *)

Definition InboundRouteConfigName : string := "rds-inbound".
Definition OutboundRouteConfigName : string := "rds-outbound".
Definition IngressRouteConfigName : string := "rds-ingress".
Definition egressRouteConfigNamePrefix : string := "rds-egress".
Definition inboundVirtualHost : string := "inbound_virtual-host".
Definition outboundVirtualHost : string := "outbound_virtual-host".
Definition egressVirtualHost : string := "egress_virtual-host".
Definition ingressVirtualHost : string := "ingress_virtual-host".
Definition methodHeaderKey : string := ":method".
Definition httpHostHeaderKey : string := "host".
Definition authorityHeaderKey : string := ":authority".

Definition GetEgressRouteConfigNameForPort (port : Z) : string := egressRouteConfigNamePrefix +:+ "." +:+ itoa port.
Definition GetOutboundMeshRouteConfigNameForPort (port : Z) : string := OutboundRouteConfigName +:+ "." +:+ itoa port.
Definition GetInboundMeshRouteConfigNameForPort (port : Z) : string := InboundRouteConfigName +:+ "." +:+ itoa port.

(** ** Parts of a route *)

Definition NewRouteConfigurationStub (routeConfigName : string) : RouteConfiguration := mkRouteConfiguration routeConfigName [] [].
Definition buildVirtualHostStub (namePrefix host : string) (domains : list string) : VirtualHost :=
  mkVirtualHost (namePrefix +:+ "|" +:+ host) domains [] None.

Definition getRegexForMethod (httpMethod : string) : string :=
  if decide (httpMethod = WildcardHTTPMethod) then RegexMatchAll else httpMethod.

(** The loop of sanitizeHTTPMethods, with the methods seen so far. *)
Fixpoint sanitizeLoop (methods newAllowedMethods : list string) : list string :=
  match methods with
  | [] => newAllowedMethods
  | method :: methods =>
    if decide (method = "") then sanitizeLoop methods newAllowedMethods
    else if decide (method = WildcardHTTPMethod) then [WildcardHTTPMethod]
    else if decide (method ∈ newAllowedMethods) then sanitizeLoop methods newAllowedMethods
    else sanitizeLoop methods (newAllowedMethods ++ [method])
  end.
Definition sanitizeHTTPMethods (allowedMethods : list string) : list string := sanitizeLoop allowedMethods [].

(** Rate limits; the sum of requests and burst is a 32-bit one.  An invalid unit is an
    error. *)
Definition getLocalRateLimitFilterConfig (config : HTTPLocalRateLimitSpec) : option LocalRateLimit :=
  fillInterval ← (if decide (hlr_Unit config = "second") then Some second
                  else if decide (hlr_Unit config = "minute") then Some (60 * second)
                  else if decide (hlr_Unit config = "hour") then Some (3600 * second)
                  else None);
  Some {| lrf_MaxTokens := uint32 (hlr_Requests config + hlr_Burst config);
          lrf_TokensPerFill := hlr_Requests config;
          lrf_FillInterval := fillInterval;
          lrf_ResponseHeadersToAdd := (λ hv, (hhv_Name hv, hhv_Value hv)) <$> elems (hlr_ResponseHeadersToAdd config);
          lrf_Status := if decide (0 < hlr_ResponseStatusCode config) then Some (int32 (hlr_ResponseStatusCode config)) else None |}.

Definition buildRetryPolicy (retry : option RetryPolicySpec) : option RouteRetryPolicy :=
  retry ← retry;
  Some (mkRouteRetryPolicy (rps_RetryOn retry) (rps_NumRetries retry) (rps_PerTryTimeout retry) (rps_RetryBackoffBaseInterval retry)).

Definition clusterWeightLess (a b : ClusterWeight) : bool :=
  if decide (cw_Name a = cw_Name b) then bool_decide (cw_Weight a < cw_Weight b) else String.ltb (cw_Name a) (cw_Name b).

Section routes.
Context `{RangeOrder}.

(** The sort is stable. *)
Definition buildWeightedCluster (weightedClusters : gset WeightedCluster) : option WeightedClusterAction :=
  let clusters := range_set weightedClusters in
  let total := foldl (λ total c, int64 (total + wc_Weight c)) 0 clusters in
  if decide (total < 1) then None
  else Some (mkWeightedClusterAction
               (insertion_sort clusterWeightLess ((λ c, mkClusterWeight (wc_ClusterName c) (uint32 (wc_Weight c))) <$> clusters))
               (uint32 total)).

Definition getHeadersForRoute (method : string) (headersMap : gmap string string) : list HeaderMatcher :=
  [mkHeaderMatcher methodHeaderKey (getRegexForMethod method)] ++
  match headersMap !! httpHostHeaderKey with Some host => [mkHeaderMatcher authorityHeaderKey host] | None => [] end ++
  ((λ kv, mkHeaderMatcher kv.1 kv.2) <$> filter (λ kv, kv.1 ≠ httpHostHeaderKey) (range_map headersMap)).

Definition buildRoute (weightedClusters : RouteWeightedClusters) (method : string) : Route :=
  let m := rwc_HTTPRouteMatch weightedClusters in {|
    xr_Match := {|
      xm_PathSpecifier :=
        match hrm_PathMatchType m with
        | PathMatchRegex => SafeRegex (hrm_Path m)
        | PathMatchExact => PathExact (hrm_Path m)
        | PathMatchPrefix => PathPrefix (hrm_Path m)
        end;
      xm_Headers := getHeadersForRoute method (default ∅ (hrm_Headers m)) |};
    xr_WeightedClusters := buildWeightedCluster (rwc_WeightedClusters weightedClusters);
    xr_RetryPolicy := buildRetryPolicy (rwc_RetryPolicy weightedClusters);
    xr_RBAC := None;
    xr_RateLimit := None |}.

Definition applyInboundRouteConfig (route : Route) (rbacConfig : RBAC) (rateLimit : option HTTPPerRouteRateLimitSpec) : Route := {|
  xr_Match := xr_Match route;
  xr_WeightedClusters := xr_WeightedClusters route;
  xr_RetryPolicy := xr_RetryPolicy route;
  xr_RBAC := Some rbacConfig;
  xr_RateLimit := rl ← rateLimit; l ← prl_Local rl; getLocalRateLimitFilterConfig l |}.

Definition applyInboundVirtualHostConfig (vhost : VirtualHost) (policy : InboundTrafficPolicy) : VirtualHost :=
  mkVirtualHost (vh_Name vhost) (vh_Domains vhost) (vh_Routes vhost)
    (rl ← itp_RateLimit policy; l ← rl_Local rl; h ← lrl_HTTP l; getLocalRateLimitFilterConfig h).

(** ** Routes *)

Definition buildInboundRoutes (rules : list Rule) : list Route :=
  rule ← rules;
  (λ method, applyInboundRouteConfig (buildRoute (rule_Route rule) method) (buildInboundRBACFilterForRule rule)
               (rwc_RateLimit (rule_Route rule))) <$>
    sanitizeHTTPMethods (elems (hrm_Methods (rwc_HTTPRouteMatch (rule_Route rule)))).

(** An outbound route matches every request. *)
Definition buildOutboundRoutes (outRoutes : list RouteWeightedClusters) : list Route :=
  (λ outRoute,
     let m := rwc_HTTPRouteMatch outRoute in
     buildRoute (mkRouteWeightedClusters (mkHTTPRouteMatch RegexMatchAll PathMatchRegex (hrm_Methods m) (Some ∅))
                   (rwc_WeightedClusters outRoute) (rwc_RetryPolicy outRoute) (rwc_RateLimit outRoute)) WildcardHTTPMethod) <$> outRoutes.

Definition buildEgressRoutes (routingRules : list EgressHTTPRoutingRule) : list Route :=
  rule ← routingRules;
  buildRoute (ehr_Route rule) <$> sanitizeHTTPMethods (elems (hrm_Methods (rwc_HTTPRouteMatch (ehr_Route rule)))).

(** ** Route configurations *)

Definition with_Routes (vh : VirtualHost) (routes : list Route) : VirtualHost :=
  mkVirtualHost (vh_Name vh) (vh_Domains vh) routes (vh_RateLimit vh).

Definition BuildInboundMeshRouteConfiguration (portSpecificRouteConfigs : gmap Z (list InboundTrafficPolicy)) (proxy : Proxy)
    (featureFlags : FeatureFlags) : list RouteConfiguration :=
  (λ pc : Z * list InboundTrafficPolicy,
     let vhosts := (λ config, applyInboundVirtualHostConfig
                       (with_Routes (buildVirtualHostStub inboundVirtualHost (itp_Name config) (itp_Hostnames config))
                          (buildInboundRoutes (itp_Rules config))) config) <$> pc.2 in
     mkRouteConfiguration (rc_Name (NewRouteConfigurationStub (GetInboundMeshRouteConfigNameForPort pc.1))) vhosts
       (if ff_EnableWASMStats featureFlags then range_map (StatsHeaders proxy) else [])) <$>
    range_map portSpecificRouteConfigs.

Definition BuildIngressConfiguration (ingress : list InboundTrafficPolicy) : option RouteConfiguration :=
  if decide (ingress = []) then None
  else Some (mkRouteConfiguration IngressRouteConfigName
    ((λ i, with_Routes (buildVirtualHostStub ingressVirtualHost (itp_Name i) (itp_Hostnames i)) (buildInboundRoutes (itp_Rules i))) <$> ingress) []).

Definition BuildOutboundMeshRouteConfiguration (portSpecificRouteConfigs : gmap Z (list OutboundTrafficPolicy)) : list RouteConfiguration :=
  (λ pc : Z * list OutboundTrafficPolicy, mkRouteConfiguration (GetOutboundMeshRouteConfigNameForPort pc.1)
     ((λ config, with_Routes (buildVirtualHostStub outboundVirtualHost (otp_Name config) (otp_Hostnames config))
                   (buildOutboundRoutes (otp_Routes config))) <$> pc.2) []) <$>
    range_map portSpecificRouteConfigs.

Definition BuildEgressRouteConfiguration (portSpecificRouteConfigs : gmap Z (list EgressHTTPRouteConfig)) : list RouteConfiguration :=
  (λ pc : Z * list EgressHTTPRouteConfig, mkRouteConfiguration (GetEgressRouteConfigNameForPort pc.1)
     ((λ config, with_Routes (buildVirtualHostStub egressVirtualHost (ehc_Name config) (ehc_Hostnames config))
                   (buildEgressRoutes (ehc_RoutingRules config))) <$> pc.2) []) <$>
    range_map portSpecificRouteConfigs.
End routes.

(** ** Envoy's choice of a route *)

Record HttpRequest := mkHttpRequest {
  hq_method : string;
  hq_path : string;
  hq_authority : string;
  hq_headers : gmap string string;
}.

Definition requestHeader (q : HttpRequest) (name : string) : option string :=
  if decide (name = methodHeaderKey) then Some (hq_method q)
  else if decide (name = authorityHeaderKey) then Some (hq_authority q)
  else hq_headers q !! name.

Section engine.
(** [regex r s]: the whole string matches the regular expression. *)
Context (regex : string → string → bool).

Definition path_matches (spec : PathSpecifier) (path : string) : bool :=
  match spec with
  | SafeRegex r => regex r path
  | PathExact p => bool_decide (path = p)
  | PathPrefix p => String.prefix p path
  end.

Definition header_matches (q : HttpRequest) (h : HeaderMatcher) : bool :=
  match requestHeader q (hm_Name h) with Some v => regex (hm_Regex h) v | None => false end.

Definition route_matches (m : RouteMatch) (q : HttpRequest) : bool :=
  path_matches (xm_PathSpecifier m) (hq_path q) && forallb (header_matches q) (xm_Headers m).

(** Of the routes of a virtual host, Envoy takes the first that matches. *)
Class RouteEngine (choose : list Route → HttpRequest → option Route) : Prop :=
  engine_first : ∀ routes q, choose routes q = first_some (λ r, if route_matches (xr_Match r) q then Some r else None) routes.

(** What is relied on of regular expressions: the one for everything, and words. *)
Definition word (s : string) : Prop := s ≠ "" ∧ all_chars (λ c, bool_decide (65 ≤ nat_of_ascii c ≤ 90)%nat) s = true.
Record RegexLaws : Prop := {
  regex_all : ∀ s, free_of "010" s → regex RegexMatchAll s = true;
  regex_word : ∀ w s, word w → regex w s = bool_decide (s = w);
}.

(** ** The rules of a policy, without routes *)

(** A rule matches a request by its path, its methods and its headers. *)
Definition rule_headers_match (headers : gmap string string) (q : HttpRequest) : Prop :=
  ∀ k v, headers !! k = Some v →
    header_matches q (mkHeaderMatcher (if decide (k = httpHostHeaderKey) then authorityHeaderKey else k) v) = true.

Definition match_request (m : HTTPRouteMatch) (q : HttpRequest) : Prop :=
  path_matches match hrm_PathMatchType m with
               | PathMatchRegex => SafeRegex (hrm_Path m)
               | PathMatchExact => PathExact (hrm_Path m)
               | PathMatchPrefix => PathPrefix (hrm_Path m)
               end (hq_path q) = true ∧
  (WildcardHTTPMethod ∈ elems (hrm_Methods m) ∨ hq_method q ∈ elems (hrm_Methods m)) ∧
  rule_headers_match (default ∅ (hrm_Headers m)) q.

(** The methods of a rule are words or the wildcard. *)
Definition methods_ok (m : HTTPRouteMatch) : Prop :=
  ∀ w, w ∈ elems (hrm_Methods m) → w = WildcardHTTPMethod ∨ word w.

End engine.

(** ** Theorems *)

Lemma sanitizeLoop_spec methods acc w :
  WildcardHTTPMethod ∉ acc →
  w ∈ sanitizeLoop methods acc ↔
  (WildcardHTTPMethod ∈ methods ∧ w = WildcardHTTPMethod) ∨
  ((WildcardHTTPMethod ∉ methods) ∧ (w ∈ acc ∨ w ∈ methods ∧ w ≠ "")).
Proof.
  revert acc. induction methods as [|m methods IH]; intros acc Hacc; cbn [sanitizeLoop]; [set_solver|].
  case_decide as Hm; [subst m; rewrite IH by done; set_solver|].
  case_decide as Hw; [subst m; set_solver|]. case_decide as Hin; rewrite IH by set_solver; set_solver.
Qed.

Lemma elem_of_sanitize methods w :
  w ∈ sanitizeHTTPMethods methods ↔
  (WildcardHTTPMethod ∈ methods ∧ w = WildcardHTTPMethod) ∨ ((WildcardHTTPMethod ∉ methods) ∧ w ∈ methods ∧ w ≠ "").
Proof. unfold sanitizeHTTPMethods. rewrite sanitizeLoop_spec; set_solver. Qed.

(** Who a rule lets through. *)
Definition rule_admits (rule : Rule) (c : Connection) : Prop :=
  rule_AllowedPrincipals rule = ∅ ∨ WildcardPrincipal ∈ rule_AllowedPrincipals rule ∨
  ∃ p, conn_principal c = Some p ∧ p ∈ rule_AllowedPrincipals rule.

(** What Envoy does with a request: it chooses a route, applies its RBAC filter, and sends
    the request to the clusters of the route. *)
Definition envoy_routes (choose : list Route → HttpRequest → option Route) (allows : RBAC → Connection → bool)
    (routes : list Route) (q : HttpRequest) (c : Connection) : option (option WeightedClusterAction) :=
  route ← choose routes q;
  match xr_RBAC route with
  | Some rbac => if allows rbac c then Some (xr_WeightedClusters route) else None
  | None => Some (xr_WeightedClusters route)
  end.

Lemma first_some_app {A B} (f : A → option B) l1 l2 :
  first_some f (l1 ++ l2) = match first_some f l1 with Some b => Some b | None => first_some f l2 end.
Proof. induction l1 as [|a l1 IH]; [done|]. simpl. by destruct (f a). Qed.

Section routing.
Context `{RangeOrder} (regex : string → string → bool) (choose : list Route → HttpRequest → option Route).
Context (allows : RBAC → Connection → bool) `{!RouteEngine regex choose, !RbacEngine allows}.
Hypothesis Hregex : RegexLaws regex.

Lemma headers_match w headers q :
  forallb (header_matches regex q) (getHeadersForRoute w headers) = true ↔
  regex (getRegexForMethod w) (hq_method q) = true ∧ rule_headers_match regex headers q.
Proof.
  unfold getHeadersForRoute. rewrite !forallb_app, !andb_true_iff. cbn [forallb]. rewrite andb_true_r.
  change (header_matches regex q (mkHeaderMatcher methodHeaderKey (getRegexForMethod w))) with (regex (getRegexForMethod w) (hq_method q)).
  rewrite (forallb_forall _ (_ <$> _)). split.
  - intros (Hm & Hh & Hr). split; [done|]. intros k v Hk. case_decide as Hhost.
    + subst k. rewrite Hk in Hh. cbn [forallb] in Hh. by rewrite andb_true_r in Hh.
    + apply Hr, list_elem_of_In, list_elem_of_fmap. exists (k, v). split; [done|]. apply list_elem_of_filter. split; [done|]. by apply elem_of_range_map.
  - intros (Hm & Hh). split; [done|]. split.
    + destruct (headers !! httpHostHeaderKey) as [host|] eqn:E; [|done]. cbn [forallb]. rewrite andb_true_r.
      specialize (Hh _ _ E). by rewrite decide_True in Hh.
    + intros h Hin. apply list_elem_of_In, list_elem_of_fmap in Hin as ([k v] & -> & [Hk Hkv%elem_of_range_map]%list_elem_of_filter).
      specialize (Hh _ _ Hkv). by rewrite decide_False in Hh.
Qed.

Lemma method_regex w method :
  w = WildcardHTTPMethod ∨ word w → free_of "010" method → regex (getRegexForMethod w) method = true ↔ w = WildcardHTTPMethod ∨ method = w.
Proof using Hregex.
  intros Hw Hm. unfold getRegexForMethod. case_decide as Hwild.
  - rewrite regex_all by done. naive_solver.
  - destruct Hw as [?|Hw]; [done|]. rewrite regex_word, bool_decide_eq_true by done. naive_solver.
Qed.

(** The routes of a rule match what the rule matches. *)
Lemma rule_route_matches rw q :
  methods_ok (rwc_HTTPRouteMatch rw) → free_of "010" (hq_method q) → hq_method q ≠ "" →
  (∃ w, w ∈ sanitizeHTTPMethods (elems (hrm_Methods (rwc_HTTPRouteMatch rw))) ∧ route_matches regex (xr_Match (buildRoute rw w)) q = true) ↔
  match_request regex (rwc_HTTPRouteMatch rw) q.
Proof using Hregex.
  intros Hok Hm Hne. unfold route_matches, match_request. cbn [buildRoute xr_Match xm_PathSpecifier xm_Headers].
  setoid_rewrite andb_true_iff. setoid_rewrite headers_match. split.
  - intros (w & Hw & Hp & Hr & Hh). split; [done|]. split; [|done].
    assert (w = WildcardHTTPMethod ∨ word w) as Hword by (apply elem_of_sanitize in Hw as [[_ ?]|(_ & ? & _)]; [by left|by apply Hok]).
    apply method_regex in Hr; [|done|done]. apply elem_of_sanitize in Hw as [[? _]|(_ & ? & _)]; [by left|].
    destruct Hr as [-> | ->]; [by left|by right].
  - intros (Hp & Hms & Hh). destruct (decide (WildcardHTTPMethod ∈ elems (hrm_Methods (rwc_HTTPRouteMatch rw)))) as [Hwild|Hwild].
    + exists WildcardHTTPMethod. split; [by apply elem_of_sanitize; left|]. split; [done|]. split; [|done].
      apply method_regex; [by left|done|by left].
    + exists (hq_method q). destruct Hms as [?|Hin]; [done|]. split; [apply elem_of_sanitize; by right|].
      split; [done|]. split; [|done]. apply method_regex; [by apply Hok|done|by right].
Qed.

Lemma rule_chosen rule q :
  methods_ok (rwc_HTTPRouteMatch (rule_Route rule)) → free_of "010" (hq_method q) → hq_method q ≠ "" →
  match first_some (λ r, if route_matches regex (xr_Match r) q then Some r else None) (buildInboundRoutes [rule]) with
  | Some r => match_request regex (rwc_HTTPRouteMatch (rule_Route rule)) q ∧
      xr_RBAC r = Some (buildInboundRBACFilterForRule rule) ∧ xr_WeightedClusters r = buildWeightedCluster (rwc_WeightedClusters (rule_Route rule))
  | None => ¬ match_request regex (rwc_HTTPRouteMatch (rule_Route rule)) q
  end.
Proof using Hregex.
  intros Hok Hm Hne. pose proof (rule_route_matches (rule_Route rule) q Hok Hm Hne) as Hiff.
  unfold buildInboundRoutes. cbn [mbind list_bind]. rewrite app_nil_r. set (ms := sanitizeHTTPMethods _) in *.
  assert (match first_some (λ r, if route_matches regex (xr_Match r) q then Some r else None)
      ((λ method, applyInboundRouteConfig (buildRoute (rule_Route rule) method) (buildInboundRBACFilterForRule rule)
                    (rwc_RateLimit (rule_Route rule))) <$> ms) with
    | Some r => (∃ w, w ∈ ms ∧ route_matches regex (xr_Match (buildRoute (rule_Route rule) w)) q = true) ∧
        xr_RBAC r = Some (buildInboundRBACFilterForRule rule) ∧ xr_WeightedClusters r = buildWeightedCluster (rwc_WeightedClusters (rule_Route rule))
    | None => ¬ ∃ w, w ∈ ms ∧ route_matches regex (xr_Match (buildRoute (rule_Route rule) w)) q = true
    end) as Haux; [|destruct (first_some _ _); by rewrite <-Hiff].
  clear Hiff. clearbody ms. induction ms as [|w ms IH]; [cbn; intros (w & Hw & _); by apply elem_of_nil in Hw|].
  cbn [fmap list_fmap first_some]. cbn [applyInboundRouteConfig xr_Match].
  destruct (route_matches regex (xr_Match (buildRoute (rule_Route rule) w)) q) eqn:E.
  - split; [|done]. exists w. split; [by left|done].
  - cbn [fmap list_fmap] in IH. destruct (first_some _ _) as [r|].
    + destruct IH as ((w' & Hw' & E') & Hr). split; [|done]. exists w'. split; [by right|done].
    + intros (w' & [->|Hw']%elem_of_cons & E'); [congruence|]. apply IH. eauto.
Qed.

(** Envoy decides on a request as the rules of the policy do in their order: the first
    rule that matches the method, the path and the headers admits its principals, and sends
    to its clusters; later rules do not count, even for principals that only they admit. *)
Lemma inbound_routes_reference (rules : list Rule) (q : HttpRequest) (c : Connection) (clusters : option WeightedClusterAction) :
  Forall (λ rule, methods_ok (rwc_HTTPRouteMatch (rule_Route rule))) rules → free_of "010" (hq_method q) → hq_method q ≠ "" →
  envoy_routes choose allows (buildInboundRoutes rules) q c = Some clusters ↔
  ∃ earlier rule later, rules = earlier ++ rule :: later ∧
    Forall (λ r, ¬ match_request regex (rwc_HTTPRouteMatch (rule_Route r)) q) earlier ∧
    match_request regex (rwc_HTTPRouteMatch (rule_Route rule)) q ∧ rule_admits rule c ∧
    clusters = buildWeightedCluster (rwc_WeightedClusters (rule_Route rule)).
Proof using Hregex RouteEngine0 RbacEngine0.
  intros Hok Hm Hne. unfold envoy_routes. rewrite (engine_first regex). unfold rule_admits.
  induction rules as [|rule rules IH]; [split; [done|intros ([|] & ? & ? & [=] & _)]|].
  apply Forall_cons in Hok as [Hrule Hok]. specialize (IH Hok).
  replace (buildInboundRoutes (rule :: rules)) with (buildInboundRoutes [rule] ++ buildInboundRoutes rules)
    by (unfold buildInboundRoutes; cbn [mbind list_bind]; by rewrite app_nil_r).
  rewrite first_some_app. pose proof (rule_chosen rule q Hrule Hm Hne) as Hchosen. destruct (first_some _ (buildInboundRoutes [rule])) as [r|].
  - destruct Hchosen as (Hmatch & Hrbac & Hclusters). simpl. rewrite Hrbac, Hclusters.
    pose proof (route_rbac_exact allows rule c) as Hallow. split.
    + destruct (allows _ c); [|done]. intros [= <-]. exists [], rule, rules. split_and!; [done|constructor|done|by apply Hallow|done].
    + intros ([|r' earlier] & rule' & later & E & Hnot & Hmatch' & Hadm & ->); simplify_eq/=.
      * by rewrite (proj2 Hallow Hadm).
      * by apply Forall_cons in Hnot as [? _].
  - rewrite IH. split.
    + intros (earlier & rule' & later & -> & Hnot & Hrest). exists (rule :: earlier), rule', later. split; [done|]. split; [by constructor|done].
    + intros ([|r' earlier] & rule' & later & E & Hnot & Hmatch' & Hrest); simplify_eq/=.
      apply Forall_cons in Hnot as [_ Hnot]. eauto 10.
Qed.
End routing.

(** ** Theorems: weighted clusters *)

Lemma clusterWeightLess_total_order : total_order clusterWeightLess.
Proof.
  destruct ltb_total_order as [Hi Ht Htot]. unfold clusterWeightLess. split.
  - intros [n w]. simpl. rewrite decide_True by done. apply bool_decide_false. lia.
  - intros [n w] [n' w'] [n'' w'']. simpl. repeat case_decide; subst; rewrite ?bool_decide_eq_true; try done.
    + lia.
    + intros Hlt Hgt. exfalso. pose proof (Ht _ _ _ Hlt Hgt) as Hx. by rewrite Hi in Hx.
    + apply Ht.
  - intros [n w] [n' w']. simpl. repeat case_decide; subst; rewrite ?bool_decide_eq_false; try done.
    + intros ??. f_equal. lia.
    + intros Ha Hb. by destruct (Htot _ _ Ha Hb).
Qed.

Lemma int64_add a b : int64 (int64 a + b) = int64 (a + b).
Proof.
  unfold int64. replace ((a + 2 ^ 63) `mod` 2 ^ 64 - 2 ^ 63 + b + 2 ^ 63) with ((a + 2 ^ 63) `mod` 2 ^ 64 + b) by lia.
  rewrite Zplus_mod_idemp_l. do 2 f_equal. lia.
Qed.

Lemma foldl_weights l a :
  foldl (λ total c, int64 (total + wc_Weight c)) (int64 a) l = int64 (a + foldr Z.add 0 (wc_Weight <$> l)).
Proof.
  revert a. induction l as [|c l IH]; intros a; csimpl; [by rewrite Z.add_0_r|]. rewrite int64_add, IH. f_equal. lia.
Qed.

Lemma total_weight l : foldl (λ total c, int64 (total + wc_Weight c)) 0 l = int64 (foldr Z.add 0 (wc_Weight <$> l)).
Proof. apply (foldl_weights l 0). Qed.

Lemma foldr_add_perm (l l' : list Z) : l ≡ₚ l' → foldr Z.add 0 l = foldr Z.add 0 l'.
Proof. induction 1; simpl; lia. Qed.

(** The clusters of a route do not depend on the order in which the set of them is
    visited, so that a configuration that has not changed is sent as the same message. *)
Theorem buildWeightedCluster_deterministic (o1 o2 : RangeOrder) (weightedClusters : gset WeightedCluster) :
  buildWeightedCluster (H := o1) weightedClusters = buildWeightedCluster (H := o2) weightedClusters.
Proof.
  assert (@range_set o1 _ _ _ weightedClusters ≡ₚ @range_set o2 _ _ _ weightedClusters) as Hperm
    by by rewrite (@range_set_perm o1), (@range_set_perm o2).
  unfold buildWeightedCluster. rewrite !total_weight.
  rewrite (foldr_add_perm _ _ (fmap_Permutation wc_Weight _ _ Hperm)). case_decide; [done|]. do 2 f_equal.
  apply (total_sorted_unique clusterWeightLess); [apply clusterWeightLess_total_order|..].
  - apply insertion_sort_sorted, total_weak_order, clusterWeightLess_total_order.
  - apply insertion_sort_sorted, total_weak_order, clusterWeightLess_total_order.
  - by rewrite !insertion_sort_perm, Hperm.
Qed.

(** The first outbound route of a virtual host takes every request. *)
Lemma outbound_first_route `{RangeOrder} regex choose `{!RouteEngine regex choose} (route : RouteWeightedClusters)
    (routes : list RouteWeightedClusters) (q : HttpRequest) :
  RegexLaws regex → free_of "010" (hq_path q) → free_of "010" (hq_method q) →
  ∃ r, choose (buildOutboundRoutes (route :: routes)) q = Some r ∧
    xr_WeightedClusters r = buildWeightedCluster (rwc_WeightedClusters route).
Proof.
  intros Hregex Hp Hm. rewrite (engine_first regex). unfold buildOutboundRoutes. cbn [fmap list_fmap first_some].
  assert (∀ rw, rwc_HTTPRouteMatch rw = mkHTTPRouteMatch RegexMatchAll PathMatchRegex (hrm_Methods (rwc_HTTPRouteMatch route)) (Some ∅) →
    route_matches regex (xr_Match (buildRoute rw WildcardHTTPMethod)) q = true) as Hall.
  { intros rw E. unfold route_matches. cbn [buildRoute xr_Match xm_PathSpecifier xm_Headers]. rewrite E. cbn [hrm_PathMatchType hrm_Path hrm_Headers default path_matches].
    rewrite regex_all by done. apply andb_true_iff. split; [done|]. apply (headers_match regex). split; [|by intros ??].
    unfold getRegexForMethod. rewrite decide_True by done. by apply regex_all. }
  rewrite Hall by done. eexists. split; done.
Qed.
