(* ===== verification/EnvoyXds.v ===== *)
(** * pkg/sidecar/providers/envoy: endpoints, secrets and routes of a response

    eds/response.go and eds/cluster_load_assignment.go, sds/response.go and secrets/, and the
    completion of rds/response.go: what the handlers of the discovery service answer.  The
    messages are those of Envoy's API, as far as they are filled in. *)

From S2P Require Import Prelude GoStrings Net Identity Service PolicyApi TrafficPolicy K8s K8sClient KubeProvider Smi PolicyClient Catalog.
From S2P Require Import CatalogEgress CatalogInbound CatalogOutbound CatalogIngress MeshConfig Certificate PipyServer EnvoyRbac.
From S2P Require Import EnvoyProxy EnvoyAds EnvoyRoute.

#[local] Open Scope Z_scope.

(** ** Endpoints *)

Record LbEndpoint := mkLbEndpoint {
  lb_Address : string;
  lb_Port : Z;
}.

Record LocalityLbEndpoints := mkLocalityLbEndpoints {
  loc_Zone : string;
  loc_LbEndpoints : list LbEndpoint;
  loc_Priority : Z;
  loc_LoadBalancingWeight : option Z;
}.

Record ClusterLoadAssignment := mkClusterLoadAssignment {
  cla_ClusterName : string;
  cla_Endpoints : list LocalityLbEndpoints;
}.

Definition localZone : string := "local".
Definition localClusterPriority : Z := 0.
Definition remoteClusterPriority : Z := 1.

Definition lbEndpoint (ep : Endpoint) : LbEndpoint := mkLbEndpoint (IP_String (ep_IP ep)) (uint32 (ep_Port ep)).

(** The locality of an endpoint of another cluster. *)
Definition remoteLbEndpoints (ep : Endpoint) : LocalityLbEndpoints :=
  mkLocalityLbEndpoints (ep_Zone ep) [lbEndpoint ep]
    (if decide (ep_Priority ep ≠ 0) then uint32 (ep_Priority ep) else remoteClusterPriority)
    (Some (uint32 (ep_Weight ep))).

(** The first locality is that of the endpoints without a weight. *)
Definition newClusterLoadAssignment (svc : MeshService) (serviceEndpoints : list Endpoint) : ClusterLoadAssignment :=
  mkClusterLoadAssignment (SidecarClusterName svc)
    (mkLocalityLbEndpoints localZone (lbEndpoint <$> filter (λ ep, ep_Weight ep = 0) serviceEndpoints) localClusterPriority None ::
     (remoteLbEndpoints <$> filter (λ ep, ep_Weight ep ≠ 0) serviceEndpoints)).

(** [<namespace>/<name>|<port>] *)
Definition eds_clusterToMeshSvc (cluster : string) : option MeshService :=
  match FieldsFunc cluster (λ r, bool_decide (r = "/"%char) || bool_decide (r = "|"%char)) with
  | [namespace; name; port] =>
    port ← ParseUint port 16;
    Some (mkMeshService namespace name 0 (uint16 port) "" "")
  | _ => None
  end.

Section eds.
Context `{RangeOrder} (mc : MeshCatalog).

Definition fulfillEDSRequest (proxy : Proxy) (request : DiscoveryRequest) : outcome (list ClusterLoadAssignment) :=
  concatO (λ cluster,
    match eds_clusterToMeshSvc cluster with
    | None => Ret []
    | Some meshSvc =>
      endpoints ← ListAllowedUpstreamEndpointsForService mc (p_Identity proxy) meshSvc;
      Ret [newClusterLoadAssignment meshSvc endpoints]
    end) (dr_ResourceNames request).

Definition getUpstreamEndpointsForProxyIdentity (proxyIdentity : ServiceIdentity) : outcome (gmap MeshService (list Endpoint)) :=
  services ← ListOutboundServicesForIdentity mc proxyIdentity;
  foldO (λ m dstSvc, endpoints ← ListAllowedUpstreamEndpointsForService mc proxyIdentity dstSvc; Ret (<[dstSvc := endpoints]> m)) ∅ services.

Definition generateEDSConfig (proxy : Proxy) : outcome (list ClusterLoadAssignment) :=
  upstreamSvcEndpoints ← getUpstreamEndpointsForProxyIdentity (p_Identity proxy);
  Ret ((λ se : MeshService * list Endpoint, newClusterLoadAssignment se.1 se.2) <$> range_map upstreamSvcEndpoints).

Definition eds_NewResponse (proxy : Proxy) (request : option DiscoveryRequest) : outcome (list ClusterLoadAssignment) :=
  match request with
  | Some request =>
    if decide (dr_ResourceNames request ≠ []) then fulfillEDSRequest proxy request else generateEDSConfig proxy
  | None => generateEDSConfig proxy
  end.
End eds.

(** ** Secrets *)

Definition ServiceCertType : string := "service-cert".
Definition RootCertTypeForMTLSOutbound : string := "root-cert-for-mtls-outbound".
Definition RootCertTypeForMTLSInbound : string := "root-cert-for-mtls-inbound".

Record SDSCert := mkSDSCert {
  sdsc_CertType : string;
  sdsc_Name : string;
}.

Definition SDSCert_String (sdsc : SDSCert) : string := sdsc_CertType sdsc +:+ ":" +:+ sdsc_Name sdsc.

Definition validCertTypes : list string := [ServiceCertType; RootCertTypeForMTLSOutbound; RootCertTypeForMTLSInbound].

Definition UnmarshalSDSCert (str : string) : option SDSCert :=
  match split ":" str with
  | [certType; name] =>
    if decide (certType = "" ∨ name = "") then None
    else if decide (certType ∈ validCertTypes) then Some (mkSDSCert certType name)
    else None
  | _ => None
  end.

Definition sds_GetMeshService (sdsc : SDSCert) : option MeshService :=
  match split "/" (sdsc_Name sdsc) with
  | [namespace; name] =>
    if decide (namespace = "" ∨ name = "") then None else Some (mkMeshService namespace name 0 0 "" "")
  | _ => None
  end.

(** A certificate with its key, or a root with the names that a peer must have. *)
Inductive SecretType :=
| TlsCertificate (chain key : string)
| ValidationContext (trustedCa : string) (matchSubjectAltNames : list string).

Record Secret := mkSecret {
  sec_Name : string;
  sec_Type : SecretType;
}.

Definition getServiceCertSecret (cert : MeshCertificate) (name : string) : Secret :=
  mkSecret name (TlsCertificate (cert_CertChain cert) (cert_PrivateKey cert)).

Definition getSubjectAltNamesFromSvcIdentities (serviceIdentities : list ServiceIdentity) (trustDomain : string) : list string :=
  (λ si, AsPrincipal si trustDomain) <$> serviceIdentities.

Section sds.
Context (mc : MeshCatalog) (trustDomain : string).

Definition getRootCert (cert : MeshCertificate) (sdscert : SDSCert) : option Secret :=
  if decide (sdsc_CertType sdscert = RootCertTypeForMTLSInbound)
  then Some (mkSecret (SDSCert_String sdscert) (ValidationContext (cert_TrustedCAs cert) []))
  else
    meshSvc ← sds_GetMeshService sdscert;
    Some (mkSecret (SDSCert_String sdscert) (ValidationContext (cert_TrustedCAs cert)
      (getSubjectAltNamesFromSvcIdentities (mc_ListServiceIdentitiesForService mc meshSvc) trustDomain))).

Definition getSDSSecret (cert : MeshCertificate) (requestedCertificate : string) : option Secret :=
  sdsCert ← UnmarshalSDSCert requestedCertificate;
  if decide (sdsc_CertType sdsCert = ServiceCertType) then Some (getServiceCertSecret cert requestedCertificate)
  else if decide (sdsc_CertType sdsCert = RootCertTypeForMTLSInbound ∨ sdsc_CertType sdsCert = RootCertTypeForMTLSOutbound)
  then getRootCert cert sdsCert
  else None.

Definition getSDSSecrets (cert : MeshCertificate) (requestedCerts : list string) : list Secret :=
  omap (getSDSSecret cert) requestedCerts.

(** [issued] is what IssueCertificate of the manager returns for the identity. *)
Definition sds_NewResponse {E} (issued : result E MeshCertificate) (request : DiscoveryRequest) : result E (list Secret) :=
  match issued with
  | Err e => Err e
  | Ok cert => Ok (getSDSSecrets cert (dr_ResourceNames request))
  end.
End sds.

Definition GetK8sServiceAccount (sdsc : SDSCert) : option K8sServiceAccount :=
  match split "/" (sdsc_Name sdsc) with
  | [namespace; name] => if decide (namespace = "" ∨ name = "") then None else Some (mkK8sServiceAccount namespace name)
  | _ => None
  end.

Definition GetSecretNameForIdentity (si : ServiceIdentity) : outcome string :=
  sa ← ToK8sServiceAccount si; Ret (K8sServiceAccount_String sa).

(** ** Routes *)

(** The services of the pod of a proxy (registry/services.go); [listServicesForPod] is the
    same code as in the registry for Pipy. *)
Definition envoy_ListProxyServices (Matches : labels → labels → bool) (ctl : Controller) (p : Proxy) :
    outcome (result K8sError (list MeshService)) :=
  r ← ctl_GetPodForProxy ctl (K8s.mkProxy (p_UUID p) (p_Identity p));
  Ret match r with Err e => Err e | Ok pod => Ok (listServicesForPod Matches ctl pod) end.

(** The objects of a new policy. *)
Definition newRule (st : Store) (r : Rule) : Store * loc :=
  let p := fresh (dom (st_rules st)) in (st_set_rule p r st, p).

Fixpoint newRules (st : Store) (rules : list Rule) : Store * list loc :=
  match rules with
  | [] => (st, [])
  | r :: rules =>
    let '(st, p) := newRule st r in
    let '(st, ps) := newRules st rules in (st, p :: ps)
  end.

Fixpoint newPolicies (st : Store) (policies : list InboundTrafficPolicy) : Store * list loc :=
  match policies with
  | [] => (st, [])
  | itp :: policies =>
    let '(st, rules) := newRules st (itp_Rules itp) in
    let p := fresh (dom (st_policies st)) in
    let st := st_set_policy p (mkPolicyObj (itp_Name itp) (itp_Hostnames itp) rules (itp_RateLimit itp)) st in
    let '(st, ps) := newPolicies st policies in (st, p :: ps)
  end.

(** A policy, read through its pointers. *)
Definition readPolicy (st : Store) (p : loc) : option InboundTrafficPolicy :=
  o ← st_policies st !! p;
  rules ← mapM (λ r, st_rules st !! r) (po_Rules o);
  Some (mkInboundTrafficPolicy (po_Name o) (po_Hostnames o) rules (po_RateLimit o)).

Definition deref {A} (o : option A) : outcome A := match o with Some a => Ret a | None => Panic end.

Section rds.
Context `{RangeOrder} (mc : MeshCatalog) (domain : string) (Matches : labels → labels → bool).
Context (hashMatch : TrafficMatch → result string Z) (hashCluster : EgressClusterConfig → result string Z).
Context (featureFlags : FeatureFlags).

(** The ingress policies of the services, merged; a service with an error is skipped. *)
Definition mergeIngress (acc : Store * list loc) (svc : MeshService) : outcome (Store * list loc) :=
  ingress ← GetIngressTrafficPolicy mc svc;
  match ingress.2 with
  | Err _ | Ok None => Ret acc
  | Ok (Some ingressPolicy) =>
    let '(st, latest) := newPolicies acc.1 (igp_HTTPRoutePolicies ingressPolicy) in
    deref (MergeInboundPolicies st acc.2 latest)
  end.

Definition ingressPolicies (proxyServices : list MeshService) : outcome (list InboundTrafficPolicy) :=
  merged ← foldO mergeIngress (mkStore ∅ ∅, []) proxyServices;
  deref (mapM (readPolicy merged.1) merged.2).

(** Route configurations that are requested and missing are sent empty. *)
Definition ensureRDSRequestCompletion (discoveryReq : DiscoveryRequest) (rdsResources : list RouteConfiguration) :
    list RouteConfiguration :=
  let requestMapset := list_to_set (dr_ResourceNames discoveryReq) : gset string in
  let responseMapset := list_to_set (rc_Name <$> rdsResources) : gset string in
  rdsResources ++ (NewRouteConfigurationStub <$> range_set (requestMapset ∖ responseMapset)).

(** The catalog returns an inbound and an outbound policy always. *)
Definition rds_NewResponse (proxy : Proxy) (discoveryReq : option DiscoveryRequest) : outcome (result K8sError (list RouteConfiguration)) :=
  r ← envoy_ListProxyServices Matches (mc_kubeController mc) proxy;
  match r with
  | Err e => Ret (Err e)
  | Ok proxyServices =>
    inboundMeshTrafficPolicy ← GetInboundMeshTrafficPolicy mc domain (p_Identity proxy) proxyServices;
    outboundMeshTrafficPolicy ← GetOutboundMeshTrafficPolicy mc domain hashMatch hashCluster (p_Identity proxy);
    ingressTrafficPolicies ← ingressPolicies proxyServices;
    egressTrafficPolicy ← GetEgressTrafficPolicy mc hashMatch hashCluster (p_Identity proxy);
    let rdsResources :=
      BuildInboundMeshRouteConfiguration (imtp_HTTPRouteConfigsPerPort inboundMeshTrafficPolicy) proxy featureFlags ++
      BuildOutboundMeshRouteConfiguration (omtp_HTTPRouteConfigsPerPort outboundMeshTrafficPolicy) ++
      option_list (BuildIngressConfiguration ingressTrafficPolicies) ++
      match egressTrafficPolicy with
      | Ok (Some policy) => BuildEgressRouteConfiguration (etp_HTTPRouteConfigsPerPort policy)
      | _ => []
      end in
    Ret (Ok match discoveryReq with
            | Some req => ensureRDSRequestCompletion req rdsResources
            | None => rdsResources
            end)
  end.
End rds.

(** ** The handlers of the server *)

Inductive Resource :=
| RouteResource (rc : RouteConfiguration)
| EndpointResource (cla : ClusterLoadAssignment)
| SecretResource (secret : Secret).

(** What cache.GetResourceName documents. *)
Definition resourceName (r : Resource) : string :=
  match r with
  | RouteResource rc => rc_Name rc
  | EndpointResource cla => cla_ClusterName cla
  | SecretResource secret => sec_Name secret
  end.

(** A call as a handler; where it panics there is no response. *)
Definition asHandler {E A} (inject : A → Resource) (call : Proxy → DiscoveryRequest → outcome (result E (list A)))
    (p : Proxy) (req : DiscoveryRequest) : result string (list Resource) :=
  match call p req with
  | Ret (Ok l) => Ok (inject <$> l)
  | Ret (Err _) => Err "error"
  | Panic => Err "panic"
  end.

(** ** Theorems: names *)

(** A name that the endpoints handler answers under that same name. *)
Definition canonical (cluster : string) : Prop :=
  ∃ svc, eds_clusterToMeshSvc cluster = Some svc ∧ SidecarClusterName svc = cluster.

Lemma eds_canonical_dec cluster : {canonical cluster} + {¬ canonical cluster}.
Proof.
  destruct (eds_clusterToMeshSvc cluster) as [svc|] eqn:E; [|right; intros (? & ? & _); congruence].
  destruct (decide (SidecarClusterName svc = cluster)); [left; by exists svc|]. right. intros (? & ? & ?). congruence.
Qed.

(** Whatever name is read, the name that is answered is canonical. *)
Lemma answered_canonical cluster svc : eds_clusterToMeshSvc cluster = Some svc → canonical (SidecarClusterName svc).
Proof.
  intros E. exists svc. split; [|done]. unfold eds_clusterToMeshSvc in *.
  set (p := λ r : ascii, _) in *. pose proof (FieldsFunc_parts p cluster) as Hparts.
  destruct (FieldsFunc cluster p) as [|ns [|n [|port []]]]; try done.
  destruct (ParseUint port 16) as [v|] eqn:Ev; [|done]. simpl in E. injection E as <-. apply ParseUint_bounds in Ev.
  apply Forall_cons in Hparts as [[Hns Hns'] [[Hn Hn'] _]%Forall_cons].
  assert (∀ s, all_chars (λ a, negb (p a)) s = true → free_of "/" s ∧ free_of "|" s) as Hfree.
  { clear. subst p. induction s as [|a s IH]; [done|]. cbn [all_chars]. rewrite andb_true_iff, negb_true_iff, orb_false_iff, !bool_decide_eq_false.
    intros [[??] Hs]. rewrite !free_of_cons. destruct (IH Hs). done. }
  subst p. rewrite SidecarClusterName_fields; simpl; [|done|done|by apply Hfree..].
  assert (uint16 v = v) as -> by (unfold uint16; apply Z.mod_small; lia). rewrite ParseUint_itoa by done. simpl.
  do 2 f_equal. unfold uint16. apply Z.mod_small. lia.
Qed.

(** The clusters of the services of the mesh have canonical names. *)
Lemma mesh_cluster_canonical svc :
  ms_Namespace svc ≠ "" → ms_Name svc ≠ "" → free_of "/" (ms_Namespace svc) → free_of "|" (ms_Namespace svc) →
  free_of "/" (ms_Name svc) → free_of "|" (ms_Name svc) → is_uint16 (ms_TargetPort svc) → canonical (SidecarClusterName svc).
Proof.
  intros. exists (mkMeshService (ms_Namespace svc) (ms_Name svc) 0 (ms_TargetPort svc) "" ""). split; [|done].
  unfold eds_clusterToMeshSvc. rewrite SidecarClusterName_fields, ParseUint_itoa by done. simpl. do 2 f_equal. by apply Z.mod_small.
Qed.

(** ** Theorems: the dialogs about routes and endpoints *)

Lemma completion_names `{RangeOrder} req l n : n ∈ dr_ResourceNames req → n ∈ rc_Name <$> ensureRDSRequestCompletion req l.
Proof.
  intros Hn. unfold ensureRDSRequestCompletion. rewrite fmap_app, elem_of_app. destruct (decide (n ∈ rc_Name <$> l)) as [?|Hno]; [by left|].
  right. apply list_elem_of_fmap. exists (NewRouteConfigurationStub n). split; [done|]. apply list_elem_of_fmap. exists n. split; [done|].
  apply elem_of_range_set. set_solver.
Qed.

Section dialogs.
Context `{RangeOrder, SortOrder} (mc : MeshCatalog) (marshals : Resource → bool) (clock : nat → Z) (sends : nat → bool).
Context (xdsHandlers : gmap TypeURI (Proxy → DiscoveryRequest → result string (list Resource))).
Hypothesis Hmarshals : ∀ r, marshals r = true.
Hypothesis Hsends : ∀ n, sends n = true.

Abbreviation xds_dialog := (dialog resourceName marshals clock sends xdsHandlers).

Lemma elem_of_named {A} (inject : A → Resource) (l : list A) n :
  n ∈ named resourceName marshals (inject <$> l) ↔ ∃ a, a ∈ l ∧ n = resourceName (inject a).
Proof using Hmarshals.
  unfold named. rewrite elem_of_list_to_set, list_elem_of_fmap. setoid_rewrite list_elem_of_filter. setoid_rewrite list_elem_of_fmap.
  split; [intros (r & -> & _ & a & -> & Ha); eauto|]. intros (a & Ha & ->). eauto 10.
Qed.

Section rds_dialog.
Context (domain : string) (Matches : labels → labels → bool).
Context (hashMatch : TrafficMatch → result string Z) (hashCluster : EgressClusterConfig → result string Z).
Context (featureFlags : FeatureFlags).

Abbreviation rds := (rds_NewResponse mc domain Matches hashMatch hashCluster featureFlags).

Lemma rds_names p req l n : rds p (Some req) = Ret (Ok l) → n ∈ dr_ResourceNames req → n ∈ rc_Name <$> l.
Proof.
  unfold rds_NewResponse. intros (r & _ & Hr)%bind_Ret. destruct r as [svcs|]; [|done].
  apply bind_Ret in Hr as (pol & _ & Hr). apply bind_Ret in Hr as (opol & _ & Hr). apply bind_Ret in Hr as (ipol & _ & Hr).
  apply bind_Ret in Hr as (epol & _ & Hr). injection Hr as <-. apply completion_names.
Qed.

(** The dialog about routes always ends: whatever route configurations a proxy asks
    for, also such as the mesh does not have, the request is answered once, with the
    response for the proxy, and the acknowledgement of the response is not answered. *)
Theorem rds_dialog_ends (s : Stream Resource) (req : DiscoveryRequest) (p' : Proxy) (l : list RouteConfiguration) :
  xdsHandlers !! TypeRDS = Some (asHandler RouteResource (λ p req, rds p (Some req))) →
  dr_TypeUrl req = TypeRDS → respondToRequest (st_proxy s) req = (p', true) → rds p' (Some req) = Ret (Ok l) →
  ∃ resp, dresp_Resources resp = RouteResource <$> l ∧ ∀ fuel, st_responses (xds_dialog (S fuel) s req) = st_responses s ++ [resp].
Proof using Hmarshals Hsends.
  intros Hh Et Hr Hl. destruct (dialog_settles resourceName marshals clock sends xdsHandlers TypeRDS (dr_ResourceNames req)
    (asHandler RouteResource (λ p req, rds p (Some req)))) with s req p' (RouteResource <$> l) as (resp & Er & Hd); try done.
  - unfold XDSResponseOrder. set_solver.
  - unfold asHandler. by rewrite Hl.
  - intros n Hn%elem_of_list_to_set. apply elem_of_named. destruct (proj1 (list_elem_of_fmap _ _ _) (rds_names _ _ _ _ Hl Hn)) as (rc & -> & Hrc). eauto.
  - exists resp. split; [|done]. rewrite Er. by apply filter_all.
Qed.
End rds_dialog.

Abbreviation eds := (λ p req, r ← eds_NewResponse mc p (Some req); Ret (@Ok string _ r)).

Lemma eds_Ret (p : Proxy) (req : DiscoveryRequest) :
  dr_ResourceNames req ≠ [] →
  (∀ name svc, name ∈ dr_ResourceNames req → eds_clusterToMeshSvc name = Some svc →
     returns (ListAllowedUpstreamEndpointsForService mc (p_Identity p) svc)) →
  ∃ l, eds_NewResponse mc p (Some req) = Ret l ∧
    ∀ n, n ∈ cla_ClusterName <$> l ↔ ∃ name svc, name ∈ dr_ResourceNames req ∧ eds_clusterToMeshSvc name = Some svc ∧ n = SidecarClusterName svc.
Proof.
  unfold eds_NewResponse. intros Hne Hret. rewrite decide_True by done. unfold fulfillEDSRequest. set (f := λ cluster : string, _).
  assert (∀ name svc, name ∈ dr_ResourceNames req → eds_clusterToMeshSvc name = Some svc →
    ∃ eps, f name = Ret [newClusterLoadAssignment svc eps]) as Hf.
  { intros name svc Hn E. destruct (Hret name svc Hn E) as [eps Heps]. exists eps. unfold f. rewrite E, Heps. done. }
  destruct (concatO_total f (dr_ResourceNames req)) as [l Hl].
  { intros name Hn. destruct (eds_clusterToMeshSvc name) as [svc|] eqn:E; [|exists []; unfold f; by rewrite E].
    destruct (Hf name svc Hn E) as [eps ->]. by eexists. }
  exists l. split; [done|]. intros n. rewrite list_elem_of_fmap. setoid_rewrite (elem_of_concatO _ _ _ _ Hl). split.
  - intros (cla & -> & name & ys & Hn & Ey & Hcla). destruct (eds_clusterToMeshSvc name) as [svc|] eqn:E.
    + destruct (Hf name svc Hn E) as [eps Ef]. rewrite Ef in Ey. injection Ey as <-. apply list_elem_of_singleton in Hcla as ->. by exists name, svc.
    + unfold f in Ey. rewrite E in Ey. injection Ey as <-. by apply elem_of_nil in Hcla.
  - intros (name & svc & Hn & E & ->). destruct (Hf name svc Hn E) as [eps Ef]. exists (newClusterLoadAssignment svc eps). split; [done|].
    exists name, [newClusterLoadAssignment svc eps]. split_and!; [done..|]. by left.
Qed.

(** C25. The dialog about endpoints ends exactly when every name that the proxy asks for is
    the name of a cluster as the mesh writes it.  The handler leaves out what it cannot read,
    and answers under the name that it writes: then each acknowledgement is answered again. *)
Theorem eds_dialog_ends_iff (s : Stream Resource) (req : DiscoveryRequest) :
  xdsHandlers !! TypeEDS = Some (asHandler EndpointResource eds) →
  dr_TypeUrl req = TypeEDS → (respondToRequest (st_proxy s) req).2 = true → dr_ResourceNames req ≠ [] →
  (∀ name svc, name ∈ dr_ResourceNames req → eds_clusterToMeshSvc name = Some svc →
     returns (ListAllowedUpstreamEndpointsForService mc (p_Identity (st_proxy s)) svc)) →
  (∃ n, ∀ fuel, (length (st_responses (xds_dialog fuel s req)) ≤ n)%nat) ↔ Forall canonical (dr_ResourceNames req).
Proof using Hmarshals Hsends.
  intros Hh Et Hr Hne Hret. assert (TypeEDS ∈ XDSResponseOrder) as Hty by (apply (bool_decide_unpack _); by vm_compute).
  assert (∀ p req', p_Identity p = p_Identity (st_proxy s) → dr_ResourceNames req' = dr_ResourceNames req →
    ∃ rs, asHandler EndpointResource eds p req' = Ok rs ∧
      ∀ n, n ∈ named resourceName marshals rs ↔ ∃ name svc, name ∈ dr_ResourceNames req ∧ eds_clusterToMeshSvc name = Some svc ∧ n = SidecarClusterName svc) as Hans.
  { intros p req' Hid Hn. destruct (eds_Ret p req') as (l & El & Hl); [by rewrite Hn|by rewrite Hn, Hid|].
    exists (EndpointResource <$> l). unfold asHandler. rewrite El. simpl. split; [done|]. intros n. rewrite elem_of_named, <-Hn, <-Hl, list_elem_of_fmap.
    split; intros (cla & ? & ?); eauto. }
  split.
  - intros [n Hlen]. apply Forall_forall. intros name Hname. destruct (eds_canonical_dec name) as [?|Hno]; [done|]. exfalso.
    specialize (Hlen (S n)). rewrite (dialog_loops resourceName marshals clock sends xdsHandlers TypeEDS (dr_ResourceNames req)
      (asHandler EndpointResource eds)) with (missing := name) in Hlen; [lia|done..|].
    intros p req' Hid Hn. destruct (Hans p req' Hid Hn) as (rs & Hrs & Hnamed). exists rs. split; [done|]. rewrite Hnamed.
    intros (name' & svc & _ & E & ->). by apply Hno, (answered_canonical name').
  - intros Hcan. pose proof (respondToRequest_identity (st_proxy s) req) as Hid.
    destruct (respondToRequest (st_proxy s) req) as [p' b] eqn:Er. simpl in Hr, Hid. subst b.
    destruct (Hans p' req Hid eq_refl) as (rs & Hrs & Hnamed).
    destruct (dialog_settles resourceName marshals clock sends xdsHandlers TypeEDS (dr_ResourceNames req) (asHandler EndpointResource eds))
      with s req p' rs as (resp & _ & Hd); try done.
    + intros name Hname%elem_of_list_to_set. apply Hnamed. rewrite Forall_forall in Hcan. destruct (Hcan name Hname) as (svc & E & <-).
      by exists (SidecarClusterName svc), svc.
    + exists (S (length (st_responses s))). intros [|fuel]; [cbn [dialog]; lia|]. rewrite Hd, length_app. simpl. lia.
Qed.
End dialogs.

(** ** Theorems: secrets *)

(** The names of secrets are read back. *)
Lemma UnmarshalSDSCert_String str c : UnmarshalSDSCert str = Some c → SDSCert_String c = str.
Proof.
  unfold UnmarshalSDSCert. pose proof (join_split ":" str) as Hj. destruct (split ":" str) as [|ty [|n []]]; try done.
  case_decide; [done|]. case_decide; [|done]. intros [= <-]. rewrite <-Hj. done.
Qed.

Lemma SDSCert_String_Unmarshal c :
  sdsc_CertType c ∈ validCertTypes → sdsc_Name c ≠ "" → free_of ":" (sdsc_Name c) → UnmarshalSDSCert (SDSCert_String c) = Some c.
Proof.
  intros Hty Hne Hf. assert (free_of ":" (sdsc_CertType c) ∧ sdsc_CertType c ≠ "") as [Hft Hnt].
  { revert Hty. unfold validCertTypes. rewrite !elem_of_cons, elem_of_nil. intros [->|[->|[->|[]]]]; done. }
  unfold UnmarshalSDSCert, SDSCert_String. rewrite split_app_lit, (split_free _ (sdsc_Name c)) by done.
  rewrite decide_False by naive_solver. rewrite decide_True by done. by destruct c.
Qed.

(** A peer: whether a root has signed its certificate, and its alternative names. *)
Record Peer := mkPeer {
  peer_signedBy : string → bool;
  peer_SANs : list string;
}.

(** What Envoy documents of validation contexts: names are compared only when there are any. *)
Class ValidationEngine (accepts : SecretType → Peer → bool) : Prop :=
  engine_accepts : ∀ ca sans peer, accepts (ValidationContext ca sans) peer = true ↔
    peer_signedBy peer ca = true ∧ (sans = [] ∨ ∃ san, san ∈ sans ∧ san ∈ peer_SANs peer).

(** A service as it is named in the name of a secret. *)
Definition outboundCert (namespace name : string) : SDSCert := mkSDSCert RootCertTypeForMTLSOutbound (namespace +:+ "/" +:+ name).

Section secrets.
Context (mc : MeshCatalog) (trustDomain : string) (accepts : SecretType → Peer → bool) `{!ValidationEngine accepts}.

Lemma outbound_secret cert namespace name :
  namespace ≠ "" → name ≠ "" → free_of ":" namespace → free_of "/" namespace → free_of ":" name → free_of "/" name →
  getSDSSecret mc trustDomain cert (SDSCert_String (outboundCert namespace name)) =
  Some (mkSecret (SDSCert_String (outboundCert namespace name)) (ValidationContext (cert_TrustedCAs cert)
    (getSubjectAltNamesFromSvcIdentities (mc_ListServiceIdentitiesForService mc (mkMeshService namespace name 0 0 "" "")) trustDomain))).
Proof.
  intros Hns Hn Hc Hs Hc' Hs'. unfold getSDSSecret. rewrite SDSCert_String_Unmarshal; simpl.
  - unfold getRootCert, sds_GetMeshService. simpl. rewrite split_app_lit, (split_free _ name) by done. rewrite decide_False by naive_solver. done.
  - apply (bool_decide_unpack _). by vm_compute.
  - by destruct namespace.
  - by rewrite !free_of_app.
Qed.

Lemma elem_of_secrets cert names secret :
  secret ∈ getSDSSecrets mc trustDomain cert names ↔ ∃ n, n ∈ names ∧ getSDSSecret mc trustDomain cert n = Some secret.
Proof. unfold getSDSSecrets. apply list_elem_of_omap. Qed.

Lemma getSDSSecret_name cert n secret : getSDSSecret mc trustDomain cert n = Some secret → sec_Name secret = n.
Proof.
  unfold getSDSSecret. destruct (UnmarshalSDSCert n) as [c|] eqn:E; [|done]. apply UnmarshalSDSCert_String in E. simpl.
  case_decide; [by intros [= <-]|]. case_decide; [|done]. unfold getRootCert. case_decide; [by intros [= <-]|].
  destruct (sds_GetMeshService c); [|done]. by intros [= <-].
Qed.

(** C27. A proxy that asks how to verify the peers of an upstream service gets the secret it
    asked for, once per time that it asks, and Envoy then accepts exactly the peers with a
    certificate of the mesh in the name of an identity of the service; but any peer with a
    certificate of the mesh, when the service has no identities. *)
Theorem outbound_peers_exact {E} (cert : MeshCertificate) (request : DiscoveryRequest) (namespace name : string) :
  namespace ≠ "" → name ≠ "" → free_of ":" namespace → free_of "/" namespace → free_of ":" name → free_of "/" name →
  SDSCert_String (outboundCert namespace name) ∈ dr_ResourceNames request →
  let identities := mc_ListServiceIdentitiesForService mc (mkMeshService namespace name 0 0 "" "") in
  ∃ secrets secret, sds_NewResponse mc trustDomain (@Ok E _ cert) request = Ok secrets ∧
    secret ∈ secrets ∧ sec_Name secret = SDSCert_String (outboundCert namespace name) ∧
    (∀ secret', secret' ∈ secrets → sec_Name secret' = sec_Name secret → secret' = secret) ∧
    ∀ peer, accepts (sec_Type secret) peer = true ↔
      peer_signedBy peer (cert_TrustedCAs cert) = true ∧
      (identities = [] ∨ ∃ si, si ∈ identities ∧ AsPrincipal si trustDomain ∈ peer_SANs peer).
Proof using ValidationEngine0.
  intros Hns Hn Hc Hs Hc' Hs' Hin ids. pose proof (outbound_secret cert namespace name Hns Hn Hc Hs Hc' Hs') as Hsec.
  eexists _, _. split; [done|]. split; [apply elem_of_secrets; eauto|]. split; [done|]. split.
  - simpl. intros secret' (n & _ & E')%elem_of_secrets En. pose proof (getSDSSecret_name _ _ _ E') as En'.
    rewrite <-En', En, Hsec in E'. by injection E' as <-.
  - intros peer. simpl. rewrite (engine_accepts (accepts := accepts)). unfold getSubjectAltNamesFromSvcIdentities. fold ids.
    setoid_rewrite list_elem_of_fmap. split; intros [Hsig Hsan]; (split; [done|]).
    + destruct Hsan as [E'|(san & (si & -> & Hsi) & Hp)]; [left; by destruct ids|eauto].
    + destruct Hsan as [->|(si & Hsi & Hp)]; [by left|right; eauto 10].
Qed.
End secrets.

(** ** Theorems: endpoints *)

(** The addresses of a load assignment, with their priority. *)
Definition assigned (cla : ClusterLoadAssignment) : list (Z * LbEndpoint) :=
  cla_Endpoints cla ≫= λ loc, (loc_Priority loc,.) <$> loc_LbEndpoints loc.

Definition priorityOf (ep : Endpoint) : Z :=
  if decide (ep_Weight ep = 0) then 0 else if decide (ep_Priority ep = 0) then 1 else ep_Priority ep.

Lemma assigned_endpoints svc eps :
  Forall (λ ep, 0 ≤ ep_Priority ep < 2 ^ 32) eps →
  assigned (newClusterLoadAssignment svc eps) ≡ₚ (λ ep, (priorityOf ep, lbEndpoint ep)) <$> eps.
Proof.
  intros HF. unfold assigned, newClusterLoadAssignment. cbn [cla_Endpoints mbind list_bind loc_Priority loc_LbEndpoints].
  rewrite <-list_fmap_compose. unfold compose.
  induction HF as [|ep eps Hep HF IH]; [done|]. rewrite !filter_cons. unfold priorityOf at 1. cbn [fmap list_fmap].
  destruct (decide (ep_Weight ep = 0)) as [Hw|Hw].
  - rewrite decide_False by tauto. cbn [fmap list_fmap app]. by constructor.
  - rewrite decide_True by done. cbn [fmap list_fmap mbind list_bind]. rewrite <-IH.
    assert ((loc_Priority (remoteLbEndpoints ep),.) <$> loc_LbEndpoints (remoteLbEndpoints ep) =
      [(if decide (ep_Priority ep = 0) then 1 else ep_Priority ep, lbEndpoint ep)]) as ->.
    { cbn. unfold remoteClusterPriority. destruct (decide (ep_Priority ep = 0)) as [E|E]; [by rewrite decide_False by tauto|].
      rewrite decide_True by done. do 2 f_equal. unfold uint32. by apply Z.mod_small. }
    cbn [app]. by rewrite Permutation_middle.
Qed.

(** ** Theorems: from the resources of the cluster to a request *)

Section requests.
Context `{RangeOrder} (mc : MeshCatalog) (domain : string) (Matches : labels → labels → bool).
Context (hashMatch : TrafficMatch → result string Z) (hashCluster : EgressClusterConfig → result string Z).
Context (featureFlags : FeatureFlags) `{!MeshSpecOk (mc_kubeController mc) (mc_meshSpec mc)}.
Context (regex : string → string → bool) (choose : list Route → HttpRequest → option Route).
Context (allows : RBAC → Connection → bool) `{!RouteEngine regex choose, !RbacEngine allows}.
Hypothesis Hregex : RegexLaws regex.

(** The virtual hosts for inbound traffic are those of the inbound policy. *)
Lemma inbound_virtual_host proxy req rcs rc port vh :
  rds_NewResponse mc domain Matches hashMatch hashCluster featureFlags proxy req = Ret (Ok rcs) →
  rc ∈ rcs → rc_Name rc = GetInboundMeshRouteConfigNameForPort port → vh ∈ rc_VirtualHosts rc →
  ∃ svcs pol port' itps itp, GetInboundMeshTrafficPolicy mc domain (p_Identity proxy) svcs = Ret pol ∧
    imtp_HTTPRouteConfigsPerPort pol !! port' = Some itps ∧ itp ∈ itps ∧ vh_Routes vh = buildInboundRoutes (itp_Rules itp).
Proof.
  unfold rds_NewResponse. intros (r & _ & Hr)%bind_Ret. destruct r as [svcs|]; [|done].
  apply bind_Ret in Hr as (pol & Hpol & Hr). apply bind_Ret in Hr as (opol & _ & Hr). apply bind_Ret in Hr as (ipol & _ & Hr).
  apply bind_Ret in Hr as (epol & _ & Hr). set (l := BuildInboundMeshRouteConfiguration _ _ _ ++ _) in Hr.
  injection Hr as <-. intros Hrc Hname Hvh.
  assert (rc ∈ l) as Hl.
  { destruct req as [req|]; [|done]. unfold ensureRDSRequestCompletion in Hrc. apply elem_of_app in Hrc as [?|Hrc]; [done|].
    apply list_elem_of_fmap in Hrc as (n & -> & _). by apply elem_of_nil in Hvh. }
  unfold l in Hl. rewrite !elem_of_app in Hl. destruct Hl as [Hl|[Hl|[Hl|Hl]]].
  - apply list_elem_of_fmap in Hl as ([port' itps] & -> & Hport%elem_of_range_map). simpl in Hvh.
    apply list_elem_of_fmap in Hvh as (itp & -> & Hitp). by exists svcs, pol, port', itps, itp.
  - apply list_elem_of_fmap in Hl as ([port' ?] & -> & _). discriminate Hname.
  - unfold BuildIngressConfiguration in Hl. case_decide; simpl in Hl; [by apply elem_of_nil in Hl|].
    apply list_elem_of_singleton in Hl as ->. discriminate Hname.
  - destruct epol as [[epol|]|]; [|by apply elem_of_nil in Hl..].
    apply list_elem_of_fmap in Hl as ([port' ?] & -> & _). discriminate Hname.
Qed.

Lemma one_cluster uts m svc :
  buildWeightedCluster (rwc_WeightedClusters (NewRouteWeightedCluster m [localCluster svc] uts)) =
  Some (mkWeightedClusterAction [mkClusterWeight (SidecarLocalClusterName svc) 100] 100).
Proof.
  unfold buildWeightedCluster. cbn [NewRouteWeightedCluster rwc_WeightedClusters].
  assert (range_set (list_to_set [localCluster svc] : gset WeightedCluster) = [localCluster svc]) as ->; [|done].
  apply Permutation_singleton_r. rewrite range_set_perm, list_to_set_singleton, elements_singleton. done.
Qed.

(** A rule has a TrafficTarget. *)
Lemma rule_target sa d m :
  (∀ p, p ∈ rule_AllowedPrincipals d → ∃ t src, authorises mc sa t m ∧ src ∈ tt_Sources t ∧
     p = sa_AsPrincipal (trafficTargetIdentityToSvcAccount src) (mc_GetTrustDomain mc)) ∧
  (rule_AllowedPrincipals d = ∅ → ∃ t, authorises mc sa t m ∧ tt_Sources t = []) →
  ∃ t, authorises mc sa t m.
Proof.
  intros [Hp He]. destruct (decide (rule_AllowedPrincipals d = ∅)) as [Hempty|(p & Hin)%set_choose_L].
  - destruct (He Hempty) as (t & Ht & _). eauto.
  - destruct (Hp p Hin) as (t & src & Ht & _). eauto.
Qed.

(** The response has the virtual hosts of the inbound policy. *)
Lemma inbound_configuration proxy req rcs svcs :
  rds_NewResponse mc domain Matches hashMatch hashCluster featureFlags proxy req = Ret (Ok rcs) →
  envoy_ListProxyServices Matches (mc_kubeController mc) proxy = Ret (Ok svcs) →
  ∃ pol, GetInboundMeshTrafficPolicy mc domain (p_Identity proxy) svcs = Ret pol ∧
    ∀ port itps itp, imtp_HTTPRouteConfigsPerPort pol !! port = Some itps → itp ∈ itps →
      ∃ rc vh, rc ∈ rcs ∧ rc_Name rc = GetInboundMeshRouteConfigNameForPort port ∧ vh ∈ rc_VirtualHosts rc ∧
        vh = applyInboundVirtualHostConfig (with_Routes (buildVirtualHostStub inboundVirtualHost (itp_Name itp) (itp_Hostnames itp))
               (buildInboundRoutes (itp_Rules itp))) itp.
Proof.
  unfold rds_NewResponse. intros Hr Hsvcs. rewrite Hsvcs in Hr. cbn [mbind outcome_bind] in Hr.
  apply bind_Ret in Hr as (pol & Hpol & Hr). apply bind_Ret in Hr as (opol & _ & Hr). apply bind_Ret in Hr as (ipol & _ & Hr).
  apply bind_Ret in Hr as (epol & _ & Hr). exists pol. split; [done|]. intros port itps itp Hport Hitp.
  set (l := BuildInboundMeshRouteConfiguration _ _ _ ++ _) in Hr.
  assert (∀ rc, rc ∈ l → rc ∈ rcs) as Hincl.
  { injection Hr as <-. intros rc Hrc. destruct req as [req|]; [|done]. apply elem_of_app. by left. }
  eexists _, _. split; [apply Hincl, elem_of_app; left; apply list_elem_of_fmap; exists (port, itps); split; [reflexivity|by apply elem_of_range_map]|].
  split; [done|]. split; [|done]. simpl. apply list_elem_of_fmap. eauto.
Qed.

(** C6. Zero trust with Envoy, from the resources of the cluster to a request: in SMI mode
    the routes for inbound traffic that a proxy is sent let a request through only if a
    TrafficTarget of a monitored namespace has the workload's service account as
    destination, selects an HTTP route that matches the request, and has the identity of the
    client's certificate among its sources, or has no sources. *)
Theorem envoy_request_authorised (sa : K8sServiceAccount) (proxy : Proxy) (req : option DiscoveryRequest)
    (rcs : list RouteConfiguration) (rc : RouteConfiguration) (port : Z) (vh : VirtualHost) (q : HttpRequest) (c : Connection)
    (clusters : option WeightedClusterAction) :
  cfg_IsPermissiveTrafficPolicyMode (mc_configurator mc) = false →
  sa_dotless sa → sa_Name sa ≠ "" → p_Identity proxy = ToServiceIdentity sa →
  (∀ t m, authorises mc sa t m → methods_ok m) → free_of "010" (hq_method q) → hq_method q ≠ "" →
  rds_NewResponse mc domain Matches hashMatch hashCluster featureFlags proxy req = Ret (Ok rcs) →
  rc ∈ rcs → rc_Name rc = GetInboundMeshRouteConfigNameForPort port → vh ∈ rc_VirtualHosts rc →
  envoy_routes choose allows (vh_Routes vh) q c = Some clusters →
  ∃ t m, authorises mc sa t m ∧ match_request regex m q ∧
    (tt_Sources t = [] ∨ ∃ src, src ∈ tt_Sources t ∧
       conn_principal c = Some (sa_AsPrincipal (trafficTargetIdentityToSvcAccount src) (mc_GetTrustDomain mc))).
Proof using Hregex RouteEngine0 RbacEngine0 MeshSpecOk0.
  intros Hsmi Hsa Hname Hid Hok Hm Hne Hrds Hrc Hport Hvh Hroutes.
  destruct (inbound_virtual_host _ _ _ _ _ _ Hrds Hrc Hport Hvh) as (svcs & pol & port' & itps & itp & Hpol & Hitps & Hitp & Evh).
  rewrite Hid in Hpol. rewrite Evh in Hroutes.
  pose proof (λ d Hd, inbound_rule_authorised mc domain sa svcs pol port' itps itp d Hsmi Hsa Hname Hpol Hitps Hitp Hd) as Hrule.
  apply (inbound_routes_reference regex choose allows Hregex) in Hroutes as (earlier & rule & later & E & _ & Hmatch & Hadm & _); [| |done|done].
  - destruct (Hrule rule) as [Hp He]; [rewrite E; set_solver|]. destruct Hadm as [Hempty|[Hw|(p & Ep & Hin)]].
    + destruct (He Hempty) as (t & Ht & Hs). exists t, (rwc_HTTPRouteMatch (rule_Route rule)). split_and!; [done..|]. by left.
    + destruct (Hp _ Hw) as (t & src & _ & _ & Ew). by destruct (source_principal src (mc_GetTrustDomain mc)).
    + destruct (Hp _ Hin) as (t & src & Ht & Hsrc & ->). exists t, (rwc_HTTPRouteMatch (rule_Route rule)). split_and!; [done..|]. right. eauto.
  - apply Forall_forall. intros rule' Hr'. destruct (rule_target _ _ _ (Hrule rule' Hr')) as (t & Ht). by eapply Hok.
Qed.

(** C7. What is authorised is served: when a TrafficTarget lets the client use a route that
    matches the request, and every route for the workload that matches the request is this
    one, the routes that a proxy is sent for each HTTP service of the workload, on its
    target port, send the request to the service's local cluster with all the weight. *)
Theorem envoy_request_served (sa : K8sServiceAccount) (proxy : Proxy) (req : option DiscoveryRequest)
    (rcs : list RouteConfiguration) (svcs : list MeshService) (svc : MeshService) (t : TrafficTarget) (m : HTTPRouteMatch)
    (src : IdentityBindingSubject) (q : HttpRequest) (c : Connection) :
  cfg_IsPermissiveTrafficPolicyMode (mc_configurator mc) = false →
  sa_dotless sa → sa_Name sa ≠ "" → p_Identity proxy = ToServiceIdentity sa →
  (∀ t m, authorises mc sa t m → methods_ok m) → free_of "010" (hq_method q) → hq_method q ≠ "" →
  rds_NewResponse mc domain Matches hashMatch hashCluster featureFlags proxy req = Ret (Ok rcs) →
  envoy_ListProxyServices Matches (mc_kubeController mc) proxy = Ret (Ok svcs) → svc ∈ svcs → is_tcp svc = false →
  authorises mc sa t m → src ∈ tt_Sources t →
  conn_principal c = Some (sa_AsPrincipal (trafficTargetIdentityToSvcAccount src) (mc_GetTrustDomain mc)) →
  match_request regex m q → (∀ t' m', authorises mc sa t' m' → match_request regex m' q → m' = m) →
  ∃ rc vh, rc ∈ rcs ∧ rc_Name rc = GetInboundMeshRouteConfigNameForPort (ms_TargetPort svc) ∧ vh ∈ rc_VirtualHosts rc ∧
    vh_Name vh = inboundVirtualHost +:+ "|" +:+ FQDN svc ∧ vh_Domains vh = GetHostnamesForService domain svc true ∧
    envoy_routes choose allows (vh_Routes vh) q c =
      Some (Some (mkWeightedClusterAction [mkClusterWeight (SidecarLocalClusterName svc) 100] 100)).
Proof using Hregex RouteEngine0 RbacEngine0 MeshSpecOk0.
  intros Hsmi Hsa Hname Hid Hok Hm Hne Hrds Hsvcs Hsvc Htcp Ht Hsrc Hc Hmatch Honly.
  destruct (inbound_configuration _ _ _ _ Hrds Hsvcs) as (pol & Hpol & Hincl). rewrite Hid in Hpol.
  destruct (inbound_routes_intro mc domain _ _ _ svc Hpol) as (ts & uts & itps & Hts & Hitps & Hitp);
    [by apply elem_of_includeApex; eauto|done|].
  pose proof (λ d, inbound_rule_authorised mc domain sa svcs pol _ itps _ d Hsmi Hsa Hname Hpol Hitps Hitp) as Hrule.
  unfold targetsFor in Hts. rewrite Hsmi, ToK8s_dotless in Hts by done. injection Hts as <-. rewrite Hsmi in Hitp, Hrule.
  set (itp := getInboundTrafficPoliciesForUpstream _ _ _ _ _ _) in Hitp, Hrule.
  destruct (Hincl _ _ _ Hitps Hitp) as (rc & vh & Hrc & Hrcn & Hvh & ->). eexists rc, _. do 3 (split; [done|]). split; [done|]. split; [done|].
  cbn [applyInboundVirtualHostConfig with_Routes vh_Routes]. apply (inbound_routes_reference regex choose allows Hregex); [|done|done|].
  { apply Forall_forall. intros rule' Hr'. destruct (rule_target _ _ _ (Hrule rule' Hr')) as (t' & Ht'). by eapply Hok. }
  destruct (buildInboundHTTPPolicy_authorised mc domain svc
    (spec_ListTrafficTargets (mc_meshSpec mc) [WithTrafficTargetDestination sa]) uts) as [Hnd Hp].
  destruct (proj2 (Hp (NewRouteWeightedCluster m [localCluster svc] uts) (sa_AsPrincipal (trafficTargetIdentityToSvcAccount src) (mc_GetTrustDomain mc))))
    as (d & Hd & Er & Hin).
  { destruct Ht as (Ht & Hns & Hdst & Hin). exists t, m, src. split_and!; try done. by apply (destination_targets mc sa t Hname). }
  change (itp_Rules (buildInboundHTTPPolicyFromTrafficTarget _ _ _ _ _)) with (itp_Rules itp) in Hnd, Hd.
  destruct (list_elem_of_split _ _ Hd) as (earlier & later & E). exists earlier, d, later. split; [done|]. rewrite Er. split_and!.
  - apply Forall_forall. intros e He Hme. assert (e ∈ itp_Rules itp) as He' by (rewrite E; apply elem_of_app; by left).
    destruct (rule_target _ _ _ (Hrule e He')) as (t' & Ht'). pose proof (Honly _ _ Ht' Hme) as Em.
    destruct (buildInbound_rule mc domain svc _ uts e He') as (m' & Em' & _). rewrite Em' in Em. simpl in Em. subst m'.
    rewrite E, fmap_app, fmap_cons, Er, <-Em' in Hnd. apply NoDup_app in Hnd as (_ & Hnd & _).
    apply (Hnd (rule_Route e)); [|by left]. apply list_elem_of_fmap. eauto.
  - done.
  - right. right. eauto.
  - by rewrite one_cluster.
Qed.
End requests.
