(* ===== verification/EnvoyCds.v ===== *)
(** * pkg/sidecar/providers/envoy: TLS contexts and clusters

    xdsutil.go (addresses, TLS contexts, node identifiers), cds/cluster.go, cds/tracing.go and
    cds/response.go.  The messages are those of Envoy's API, as far as they are filled in.
    Whether the Protobuf library can encode a message is a parameter. *)

From S2P Require Import Prelude GoStrings GoTime Net Cidr Identity Service PolicyApi TrafficPolicy K8s K8sClient KubeProvider Smi PolicyClient Catalog.
From S2P Require Import CatalogEgress CatalogInbound CatalogOutbound MeshConfig Certificate PipyServer EnvoyRbac EnvoyProxy EnvoyAds EnvoyRoute EnvoyXds.

#[local] Open Scope Z_scope.

(** ** Settings *)

(** What the discovery service reads of the MeshConfig, other than through the catalog. *)
Record EnvoySettings := mkEnvoySettings {
  es_Sidecar : SidecarSpec;
  es_IsTracingEnabled : bool;
  es_TracingHost : string;
  es_TracingPort : Z;
  es_TracingEndpoint : string;
  es_InboundExternalAuth : ExtAuthConfig;
  es_EnableWASMStats : bool;
}.

Definition settingsOf (store : InformerStore MeshConfigSpec) (osmNamespace meshConfigName : string) : EnvoySettings := {|
  es_Sidecar := mcs_Sidecar (getMeshConfig store osmNamespace meshConfigName);
  es_IsTracingEnabled := IsTracingEnabled store osmNamespace meshConfigName;
  es_TracingHost := GetTracingHost store osmNamespace meshConfigName;
  es_TracingPort := GetTracingPort store osmNamespace meshConfigName;
  es_TracingEndpoint := GetTracingEndpoint store osmNamespace meshConfigName;
  es_InboundExternalAuth := GetInboundExternalAuthConfig store osmNamespace meshConfigName;
  es_EnableWASMStats := ff_EnableWASMStats (mcs_FeatureFlags (getMeshConfig store osmNamespace meshConfigName));
|}.

(** ** TLS *)

Definition TransportProtocolTLS : string := "tls".
Definition OutboundPassthroughCluster : string := "passthrough-outbound".
Definition ALPNInMesh : list string := ["osm"].

(** A TCP socket. *)
Record Address := mkAddress {
  addr_Address : string;
  addr_Port : Z;
}.

Definition GetAddress (address : string) (port : Z) : Address := mkAddress address port.

Inductive ConfigSource := Ads.

Definition GetADSConfigSource : ConfigSource := Ads.

(** The protocol versions of Envoy's API; a name that is not known is the default, 0. *)
Definition TlsProtocol_value (name : string) : Z :=
  if decide (name = "TLSv1_0") then 1
  else if decide (name = "TLSv1_1") then 2
  else if decide (name = "TLSv1_2") then 3
  else if decide (name = "TLSv1_3") then 4
  else 0.

Record TlsParameters := mkTlsParameters {
  tlsp_Min : Z;
  tlsp_Max : Z;
  tlsp_CipherSuites : list string;
  tlsp_EcdhCurves : list string;
}.

Definition GetTLSParams (sidecarSpec : SidecarSpec) : TlsParameters :=
  mkTlsParameters (TlsProtocol_value (sc_TLSMinProtocolVersion sidecarSpec)) (TlsProtocol_value (sc_TLSMaxProtocolVersion sidecarSpec))
    (sc_CipherSuites sidecarSpec) (sc_ECDHCurves sidecarSpec).

Record SdsSecretConfig := mkSdsSecretConfig {
  ssc_Name : string;
  ssc_SdsConfig : ConfigSource;
}.

Record CommonTlsContext := mkCommonTlsContext {
  ctc_TlsParams : TlsParameters;
  ctc_TlsCertificateSdsSecretConfigs : list SdsSecretConfig;
  ctc_ValidationContextSdsSecretConfig : option SdsSecretConfig;
  ctc_AlpnProtocols : list string;
}.

Definition getCommonTLSContext (tlsSDSCert : SDSCert) (peerValidationSDSCert : option SDSCert) (sidecarSpec : SidecarSpec) :
    CommonTlsContext := {|
  ctc_TlsParams := GetTLSParams sidecarSpec;
  ctc_TlsCertificateSdsSecretConfigs := [mkSdsSecretConfig (SDSCert_String tlsSDSCert) GetADSConfigSource];
  ctc_ValidationContextSdsSecretConfig := (λ c, mkSdsSecretConfig (SDSCert_String c) GetADSConfigSource) <$> peerValidationSDSCert;
  ctc_AlpnProtocols := [];
|}.

Record DownstreamTlsContext := mkDownstreamTlsContext {
  dtc_CommonTlsContext : CommonTlsContext;
  dtc_RequireClientCertificate : bool;
}.

Definition GetDownstreamTLSContext (upstreamIdentity : ServiceIdentity) (mTLS : bool) (sidecarSpec : SidecarSpec) :
    outcome DownstreamTlsContext :=
  name ← GetSecretNameForIdentity upstreamIdentity;
  let upstreamSDSCert := mkSDSCert ServiceCertType name in
  let downstreamPeerValidationSDSCert := if mTLS then Some (mkSDSCert RootCertTypeForMTLSInbound name) else None in
  Ret (mkDownstreamTlsContext (getCommonTLSContext upstreamSDSCert downstreamPeerValidationSDSCert sidecarSpec) mTLS).

Record UpstreamTlsContext := mkUpstreamTlsContext {
  utc_CommonTlsContext : CommonTlsContext;
  utc_Sni : string;
}.

Definition with_AlpnProtocols (c : CommonTlsContext) (protocols : list string) : CommonTlsContext :=
  mkCommonTlsContext (ctc_TlsParams c) (ctc_TlsCertificateSdsSecretConfigs c) (ctc_ValidationContextSdsSecretConfig c) protocols.

Definition GetUpstreamTLSContext (downstreamIdentity : ServiceIdentity) (upstreamSvc : MeshService) (sidecarSpec : SidecarSpec) :
    outcome UpstreamTlsContext :=
  name ← GetSecretNameForIdentity downstreamIdentity;
  let downstreamSDSCert := mkSDSCert ServiceCertType name in
  let upstreamPeerValidationSDSCert := mkSDSCert RootCertTypeForMTLSOutbound (MeshService_String upstreamSvc) in
  let commonTLSContext := getCommonTLSContext downstreamSDSCert (Some upstreamPeerValidationSDSCert) sidecarSpec in
  Ret (mkUpstreamTlsContext (with_AlpnProtocols commonTLSContext ALPNInMesh) (ServerName upstreamSvc)).

(** [CidrRange]. *)
Record CidrRange := mkCidrRange {
  cr_AddressPrefix : string;
  cr_PrefixLen : Z;
}.

Definition GetCIDRRangeFromStr (cidr : string) : option CidrRange :=
  '(ip, ipNet) ← ParseCIDR cidr;
  Some (mkCidrRange (IP_String ip) (uint32 (MaskSize (net_Mask ipNet)).1)).

(** ** Node identifiers *)

Definition GetEnvoyServiceNodeID (nodeID workloadKind workloadName : string) : string :=
  join "/" ["$(POD_UID)"; "$(POD_NAMESPACE)"; "$(POD_IP)"; "$(SERVICE_ACCOUNT)"; nodeID; "$(POD_NAME)"; workloadKind; workloadName].

(** [PodMetadata] with the fields that only a node identifier fills in. *)
Record NodeMetadata := mkNodeMetadata {
  nm_UID : string;
  nm_Name : string;
  nm_Namespace : string;
  nm_IP : string;
  nm_ServiceAccount : K8sServiceAccount;
  nm_EnvoyNodeID : string;
  nm_WorkloadKind : string;
  nm_WorkloadName : string;
}.

Definition ParseEnvoyServiceNodeID (serviceNodeID : string) : option NodeMetadata :=
  match split "/" serviceNodeID with
  | c0 :: c1 :: c2 :: c3 :: c4 :: rest =>
    let '(name, kind, workload) := match rest with c5 :: c6 :: c7 :: _ => (c5, c6, c7) | _ => ("", "", "") end in
    Some (mkNodeMetadata c0 name c1 c2 (mkK8sServiceAccount c1 c3) c4 kind workload)
  | _ => None
  end.

(** ** Clusters *)

Inductive HttpProtocolOptions := UseDownstreamProtocolConfig.

Definition getDefaultHTTPProtocolOptions : HttpProtocolOptions := UseDownstreamProtocolConfig.

(** The messages that are encoded. *)
Inductive CdsMessage :=
| MsgUpstreamTlsContext (c : UpstreamTlsContext)
| MsgHttpProtocolOptions (o : HttpProtocolOptions).

Inductive DiscoveryType := EDS | STATIC | STRICT_DNS | LOGICAL_DNS | ORIGINAL_DST.
Inductive LbPolicy := ROUND_ROBIN | CLUSTER_PROVIDED.
Inductive DnsLookupFamily := DNS_AUTO | V4_ONLY.

Record UpstreamSocket := mkUpstreamSocket {
  us_Name : string;
  us_TypedConfig : UpstreamTlsContext;
}.

Record ClusterEndpoint := mkClusterEndpoint {
  ce_Address : Address;
  ce_LoadBalancingWeight : option Z;
}.

Record ClusterLocality := mkClusterLocality {
  cloc_Zone : string;
  cloc_LbEndpoints : list ClusterEndpoint;
}.

Record LoadAssignment := mkLoadAssignment {
  la_ClusterName : string;
  la_Endpoints : list ClusterLocality;
}.

(** The HTTP check of a cluster; durations in nanoseconds. *)
Record HealthCheck := mkHealthCheck {
  hc_Timeout : Z;
  hc_Interval : Z;
  hc_HealthyThreshold : Z;
  hc_UnhealthyThreshold : Z;
  hc_Host : string;
  hc_Path : string;
  hc_RequestHeadersToAdd : list (string * string);
}.

Record Thresholds := mkThresholds {
  th_MaxConnections : Z;
  th_MaxRequests : Z;
  th_MaxPendingRequests : Z;
  th_MaxRetries : Z;
  th_TrackRemaining : bool;
}.

Record Cluster := mkCluster {
  cl_Name : string;
  cl_AltStatName : string;
  cl_TransportSocket : option UpstreamSocket;
  cl_Type : DiscoveryType;
  cl_EdsConfig : option ConfigSource;
  cl_LbPolicy : LbPolicy;
  cl_RespectDnsTtl : bool;
  cl_DnsLookupFamily : DnsLookupFamily;
  cl_LoadAssignment : option LoadAssignment;
  cl_HealthChecks : list HealthCheck;
  cl_CircuitBreakers : list Thresholds;
  cl_ConnectTimeout : option Z;
  cl_MaxRequestsPerConnection : option Z;
  cl_TypedExtensionProtocolOptions : gmap string HttpProtocolOptions;
}.

(** A cluster with the name, the kind and the policy only. *)
Definition clusterStub (name altStatName : string) (type : DiscoveryType) (policy : LbPolicy) (assignment : option LoadAssignment) : Cluster :=
  mkCluster name altStatName None type None policy false DNS_AUTO assignment [] [] None None ∅.

Definition with_HealthChecks (c : Cluster) (checks : list HealthCheck) : Cluster :=
  mkCluster (cl_Name c) (cl_AltStatName c) (cl_TransportSocket c) (cl_Type c) (cl_EdsConfig c) (cl_LbPolicy c) (cl_RespectDnsTtl c)
    (cl_DnsLookupFamily c) (cl_LoadAssignment c) checks (cl_CircuitBreakers c) (cl_ConnectTimeout c) (cl_MaxRequestsPerConnection c)
    (cl_TypedExtensionProtocolOptions c).
Definition with_Settings (c : Cluster) (threshold : Thresholds) (connectTimeout maxRequestsPerConnection : option Z) : Cluster :=
  mkCluster (cl_Name c) (cl_AltStatName c) (cl_TransportSocket c) (cl_Type c) (cl_EdsConfig c) (cl_LbPolicy c) (cl_RespectDnsTtl c)
    (cl_DnsLookupFamily c) (cl_LoadAssignment c) (cl_HealthChecks c) [threshold] connectTimeout maxRequestsPerConnection
    (cl_TypedExtensionProtocolOptions c).
Definition with_ProtocolOptions (c : Cluster) (options : gmap string HttpProtocolOptions) : Cluster :=
  mkCluster (cl_Name c) (cl_AltStatName c) (cl_TransportSocket c) (cl_Type c) (cl_EdsConfig c) (cl_LbPolicy c) (cl_RespectDnsTtl c)
    (cl_DnsLookupFamily c) (cl_LoadAssignment c) (cl_HealthChecks c) (cl_CircuitBreakers c) (cl_ConnectTimeout c)
    (cl_MaxRequestsPerConnection c) options.

Definition EnvoyActiveHealthCheckPath : string := "/healthz/osm".
Definition EnvoyActiveHealthCheckHeaderKey : string := "x-osm-envoy-healthcheck".

Definition enableHealthChecksOnCluster (cluster : Cluster) (upstreamSvc : MeshService) : Cluster :=
  with_HealthChecks cluster [{|
    hc_Timeout := 1 * second;
    hc_Interval := 10 * second;
    hc_HealthyThreshold := 1;
    hc_UnhealthyThreshold := 3;
    hc_Host := ServerName upstreamSvc;
    hc_Path := EnvoyActiveHealthCheckPath;
    hc_RequestHeadersToAdd := [(EnvoyActiveHealthCheckHeaderKey, "1")] |}].

Definition MaxUint32 : Z := 2 ^ 32 - 1.

Definition getDefaultCircuitBreakerThreshold : Thresholds := mkThresholds MaxUint32 MaxUint32 MaxUint32 MaxUint32 true.

(** The thresholds are shared with the cluster: they are changed after they are set. *)
Definition applyUpstreamTrafficSetting (upstreamTrafficSetting : option UpstreamTrafficSetting) (upstreamCluster : Cluster) : Cluster :=
  let threshold := getDefaultCircuitBreakerThreshold in
  match (uts ← upstreamTrafficSetting; utss_ConnectionSettings (uts_Spec uts)) with
  | None => with_Settings upstreamCluster threshold (cl_ConnectTimeout upstreamCluster) (cl_MaxRequestsPerConnection upstreamCluster)
  | Some connectionSettings =>
    let tcp := cs_TCP connectionSettings in
    let http := cs_HTTP connectionSettings in
    with_Settings upstreamCluster {|
        th_MaxConnections := default (th_MaxConnections threshold) (tcp ≫= tcs_MaxConnections);
        th_MaxRequests := default (th_MaxRequests threshold) (http ≫= hcs_MaxRequests);
        th_MaxPendingRequests := default (th_MaxPendingRequests threshold) (http ≫= hcs_MaxPendingRequests);
        th_MaxRetries := default (th_MaxRetries threshold) (http ≫= hcs_MaxRetries);
        th_TrackRemaining := th_TrackRemaining threshold |}
      (match tcp ≫= tcs_ConnectTimeout with Some d => Some d | None => cl_ConnectTimeout upstreamCluster end)
      (match http ≫= hcs_MaxRequestsPerConnection with Some n => Some n | None => cl_MaxRequestsPerConnection upstreamCluster end)
  end.

(** [strings.NewReplacer(".", "_", ":", "_")]. *)
Fixpoint formatAltStatNameForPrometheus (clusterName : string) : string :=
  match clusterName with
  | EmptyString => EmptyString
  | String c s => String (if decide (c = "."%char ∨ c = ":"%char) then "_"%char else c) (formatAltStatNameForPrometheus s)
  end.

Definition SidecarMetricsCluster : string := "sidecar-metrics-cluster".
Definition SidecarTracingCluster : string := "sidecar-tracing-cluster".
Definition SidecarAdminPort : Z := 15000.

Definition getPrometheusCluster : Cluster :=
  clusterStub SidecarMetricsCluster SidecarMetricsCluster STATIC ROUND_ROBIN (Some (mkLoadAssignment SidecarMetricsCluster
    [mkClusterLocality "" [mkClusterEndpoint (GetAddress LocalhostIPAddress SidecarAdminPort) (Some ClusterWeightAcceptAll)]])).

Definition getTracingCluster (settings : EnvoySettings) : Cluster :=
  clusterStub SidecarTracingCluster SidecarTracingCluster LOGICAL_DNS ROUND_ROBIN (Some (mkLoadAssignment SidecarTracingCluster
    [mkClusterLocality "" [mkClusterEndpoint (GetAddress (es_TracingHost settings) (es_TracingPort settings)) None]])).

(** The errors of the configurations of clusters. *)
Inductive ClusterError := errNameUnspecified | errHostUnspecified | errPortUnspecified | errMarshal.

Section clusters.
Context (encodes : CdsMessage → bool).

Definition getTypedHTTPProtocolOptions (httpProtocolOptions : HttpProtocolOptions) : result ClusterError (gmap string HttpProtocolOptions) :=
  if encodes (MsgHttpProtocolOptions httpProtocolOptions)
  then Ok {["envoy.extensions.upstreams.http.v3.HttpProtocolOptions" := httpProtocolOptions]}
  else Err errMarshal.

(** [None]: a nil cluster. *)
Definition getUpstreamServiceCluster (downstreamIdentity : ServiceIdentity) (config : MeshClusterConfig) (sidecarSpec : SidecarSpec) :
    outcome (option Cluster) :=
  let httpProtocolOptions := getDefaultHTTPProtocolOptions in
  upstreamTLSContext ← GetUpstreamTLSContext downstreamIdentity (mcc_Service config) sidecarSpec;
  Ret (if encodes (MsgUpstreamTlsContext upstreamTLSContext) then
    let upstreamCluster :=
      mkCluster (mcc_Name config) "" (Some (mkUpstreamSocket (mcc_Name config) upstreamTLSContext)) EDS (Some GetADSConfigSource) ROUND_ROBIN
        false DNS_AUTO None [] [] None None ∅ in
    let upstreamCluster :=
      if mcc_EnableSidecarActiveHealthChecks config then enableHealthChecksOnCluster upstreamCluster (mcc_Service config) else upstreamCluster in
    let upstreamCluster := applyUpstreamTrafficSetting (mcc_UpstreamTrafficSetting config) upstreamCluster in
    match getTypedHTTPProtocolOptions httpProtocolOptions with
    | Err _ => None
    | Ok options => Some (with_ProtocolOptions upstreamCluster options)
    end
  else None).

Definition getLocalServiceCluster (config : MeshClusterConfig) : option Cluster :=
  match getTypedHTTPProtocolOptions getDefaultHTTPProtocolOptions with
  | Err _ => None
  | Ok options => Some (mkCluster (mcc_Name config) (mcc_Name config) None STRICT_DNS None ROUND_ROBIN true V4_ONLY
      (Some (mkLoadAssignment (mcc_Name config)
        [mkClusterLocality "zone" [mkClusterEndpoint (GetAddress (mcc_Address config) (mcc_Port config)) (Some ClusterWeightAcceptAll)]]))
      [] [] None None options)
  end.

Definition getOriginalDestinationEgressCluster (name : string) (upstreamTrafficSetting : option UpstreamTrafficSetting) :
    result ClusterError Cluster :=
  let upstreamCluster := applyUpstreamTrafficSetting upstreamTrafficSetting (clusterStub name "" ORIGINAL_DST CLUSTER_PROVIDED None) in
  match getTypedHTTPProtocolOptions getDefaultHTTPProtocolOptions with
  | Err e => Err e
  | Ok options => Ok (with_ProtocolOptions upstreamCluster options)
  end.

Definition getDNSResolvableEgressCluster (config : EgressClusterConfig) : result ClusterError Cluster :=
  if decide (ecc_Name config = "") then Err errNameUnspecified
  else if decide (ecc_Host config = "") then Err errHostUnspecified
  else if decide (ecc_Port config = 0) then Err errPortUnspecified
  else
    let upstreamCluster := clusterStub (ecc_Name config) (formatAltStatNameForPrometheus (ecc_Name config)) STRICT_DNS ROUND_ROBIN
      (Some (mkLoadAssignment (ecc_Name config)
        [mkClusterLocality "" [mkClusterEndpoint (GetAddress (ecc_Host config) (uint32 (ecc_Port config))) (Some ClusterWeightAcceptAll)]])) in
    let upstreamCluster := applyUpstreamTrafficSetting (ecc_UpstreamTrafficSetting config) upstreamCluster in
    match getTypedHTTPProtocolOptions getDefaultHTTPProtocolOptions with
    | Err e => Err e
    | Ok options => Ok (with_ProtocolOptions upstreamCluster options)
    end.

Definition egressCluster (config : EgressClusterConfig) : result ClusterError Cluster :=
  if decide (ecc_Host config = "") then getOriginalDestinationEgressCluster (ecc_Name config) (ecc_UpstreamTrafficSetting config)
  else getDNSResolvableEgressCluster config.

(** A configuration that is not valid is logged and skipped. *)
Definition getEgressClusters (clusterConfigs : list EgressClusterConfig) : list Cluster :=
  omap (λ config, match egressCluster config with Ok c => Some c | Err _ => None end) clusterConfigs.

Definition upstreamClustersFromClusterConfigs (downstreamIdentity : ServiceIdentity) (configs : list MeshClusterConfig) (sidecarSpec : SidecarSpec) :
    outcome (list (option Cluster)) :=
  mapO (λ c, getUpstreamServiceCluster downstreamIdentity c sidecarSpec) configs.

Definition localClustersFromClusterConfigs (configs : list MeshClusterConfig) : list (option Cluster) := getLocalServiceCluster <$> configs.

(** The loop of removeDups; it reads the name of every cluster. *)
Fixpoint removeDupsLoop (alreadyAdded : gset string) (clusters : list (option Cluster)) : outcome (list Cluster) :=
  match clusters with
  | [] => Ret []
  | None :: _ => Panic
  | Some cluster :: clusters =>
    if decide (cl_Name cluster ∈ alreadyAdded) then removeDupsLoop alreadyAdded clusters
    else
      rest ← removeDupsLoop ({[cl_Name cluster]} ∪ alreadyAdded) clusters;
      Ret (cluster :: rest)
  end.

Definition removeDups (clusters : list (option Cluster)) : outcome (list Cluster) := removeDupsLoop ∅ clusters.

(** ** The response *)

Context `{RangeOrder} (mc : MeshCatalog) (domain : string) (Matches : labels → labels → bool).
Context (hashMatch : TrafficMatch → result string Z) (hashCluster : EgressClusterConfig → result string Z).
Context (settings : EnvoySettings).

Inductive CdsError := CdsK8sError (e : K8sError) | CdsClusterError (e : ClusterError).

(** The catalog returns an inbound and an outbound policy always. *)
Definition cds_NewResponse (proxy : Proxy) : outcome (result CdsError (list Cluster)) :=
  outboundMeshTrafficPolicy ← GetOutboundMeshTrafficPolicy mc domain hashMatch hashCluster (p_Identity proxy);
  upstreamClusters ← upstreamClustersFromClusterConfigs (p_Identity proxy) (omtp_ClustersConfigs outboundMeshTrafficPolicy) (es_Sidecar settings);
  r ← envoy_ListProxyServices Matches (mc_kubeController mc) proxy;
  match r with
  | Err e => Ret (Err (CdsK8sError e))
  | Ok proxyServices =>
    inboundMeshTrafficPolicy ← GetInboundMeshTrafficPolicy mc domain (p_Identity proxy) proxyServices;
    egressTrafficPolicy ← GetEgressTrafficPolicy mc hashMatch hashCluster (p_Identity proxy);
    let egressClusters := match egressTrafficPolicy with Ok (Some policy) => getEgressClusters (etp_ClustersConfigs policy) | _ => [] end in
    match getOriginalDestinationEgressCluster OutboundPassthroughCluster None with
    | Err e => Ret (Err (CdsClusterError e))
    | Ok outboundPassthroughCluster =>
      pod ← ctl_GetPodForProxy (mc_kubeController mc) (K8s.mkProxy (p_UUID proxy) (p_Identity proxy));
      clusters ← removeDups
        (upstreamClusters ++ localClustersFromClusterConfigs (imtp_ClustersConfigs inboundMeshTrafficPolicy) ++
         (Some <$> egressClusters) ++
         (if cfg_IsEgressEnabled (mc_configurator mc) then [Some outboundPassthroughCluster] else []) ++
         (match pod with Ok pod => if IsMetricsEnabled pod then [Some getPrometheusCluster] else [] | Err _ => [] end) ++
         (if es_IsTracingEnabled settings then [Some (getTracingCluster settings)] else []));
      Ret (Ok clusters)
    end
  end.
End clusters.

(** ** Lemmas *)

(** Names are unique, every cluster is one of the list, and no name is lost. *)
Lemma removeDupsLoop_spec seen l out :
  removeDupsLoop seen l = Ret out →
  (∀ o, o ∈ l → is_Some o) ∧ NoDup (cl_Name <$> out) ∧ (∀ c, c ∈ out → Some c ∈ l) ∧
  ∀ n, n ∈ cl_Name <$> out ↔ (n ∉ seen) ∧ ∃ c, Some c ∈ l ∧ cl_Name c = n.
Proof.
  revert seen out. induction l as [|[c|] l IH]; intros seen out; cbn [removeDupsLoop]; [| |done].
  { intros [= <-]. split_and!; [set_solver|constructor|set_solver|]. intros n. split; [by intros ?%elem_of_nil|].
    intros (_ & c & ?%elem_of_nil & _). done. }
  case_decide as Hseen.
  - intros (Hall & Hnd & Hsub & Hn)%IH. split_and!; [|done| |].
    + intros o [->|?]%elem_of_cons; [done|auto].
    + intros c' ?%Hsub. by right.
    + intros n. rewrite Hn. split; intros [Hns (c' & Hc' & En)]; (split; [done|]); [exists c'; split; [by right|done]|].
      apply elem_of_cons in Hc' as [[= ->]|?]; [congruence|by exists c'].
  - intros (rest & (Hall & Hnd & Hsub & Hn)%IH & [= <-])%bind_Ret. split_and!.
    + intros o [->|?]%elem_of_cons; [done|auto].
    + rewrite fmap_cons. constructor; [|done]. rewrite Hn. set_solver.
    + intros c' [->|Hc']%elem_of_cons; [by left|]. right. auto.
    + intros n. rewrite fmap_cons, elem_of_cons, Hn. split.
      * intros [->|[Hns (c' & Hc' & En)]]; [split; [done|]; exists c; split; [by left|done]|].
        split; [set_solver|]. exists c'. split; [by right|done].
      * intros [Hns (c' & Hc' & En)]. destruct (decide (n = cl_Name c)) as [->|Hne]; [by left|right].
        split; [set_solver|]. apply elem_of_cons in Hc' as [[= ->]|?]; [congruence|by exists c'].
Qed.

Lemma removeDups_spec l out :
  removeDups l = Ret out →
  (∀ o, o ∈ l → is_Some o) ∧ NoDup (cl_Name <$> out) ∧ (∀ c, c ∈ out → Some c ∈ l) ∧ ∀ c, Some c ∈ l → cl_Name c ∈ cl_Name <$> out.
Proof.
  intros (Hall & Hnd & Hsub & Hn)%removeDupsLoop_spec. split_and!; [done..|]. intros c Hc. apply Hn. split; [set_solver|eauto].
Qed.

Lemma apply_keeps uts c :
  cl_Name (applyUpstreamTrafficSetting uts c) = cl_Name c ∧ cl_TransportSocket (applyUpstreamTrafficSetting uts c) = cl_TransportSocket c ∧
  cl_Type (applyUpstreamTrafficSetting uts c) = cl_Type c ∧ cl_HealthChecks (applyUpstreamTrafficSetting uts c) = cl_HealthChecks c.
Proof. unfold applyUpstreamTrafficSetting. by destruct (_ ≫= _). Qed.

Section cds_lemmas.
Context (encodes : CdsMessage → bool).

(** An upstream cluster has the name of its configuration, a TLS context for the service and
    endpoints from the discovery service. *)
Lemma upstream_cluster id config spec c :
  getUpstreamServiceCluster encodes id config spec = Ret (Some c) →
  ∃ ctx, GetUpstreamTLSContext id (mcc_Service config) spec = Ret ctx ∧ cl_Name c = mcc_Name config ∧ cl_Type c = EDS ∧
    cl_TransportSocket c = Some (mkUpstreamSocket (mcc_Name config) ctx) ∧
    cl_HealthChecks c = if mcc_EnableSidecarActiveHealthChecks config
      then [mkHealthCheck (1 * second) (10 * second) 1 3 (ServerName (mcc_Service config)) EnvoyActiveHealthCheckPath
              [(EnvoyActiveHealthCheckHeaderKey, "1")]]
      else [].
Proof.
  unfold getUpstreamServiceCluster. intros (ctx & Hctx & Hc)%bind_Ret. exists ctx. split; [done|].
  destruct (encodes (MsgUpstreamTlsContext ctx)); [|done]. destruct (getTypedHTTPProtocolOptions _ _) as [o|]; [|done].
  injection Hc as <-. cbn [with_ProtocolOptions cl_Name cl_Type cl_TransportSocket cl_HealthChecks].
  edestruct apply_keeps as (-> & -> & -> & ->). by destruct (mcc_EnableSidecarActiveHealthChecks config).
Qed.

Lemma egress_cluster_name config c : egressCluster encodes config = Ok c → cl_Name c = ecc_Name config.
Proof.
  unfold egressCluster, getOriginalDestinationEgressCluster, getDNSResolvableEgressCluster.
  repeat (case_decide; [try done|]); destruct (getTypedHTTPProtocolOptions _ _); try done; intros [= <-];
    cbn [with_ProtocolOptions cl_Name]; by edestruct apply_keeps as (-> & _).
Qed.

Lemma egress_cluster_socket config c : egressCluster encodes config = Ok c → cl_TransportSocket c = None.
Proof.
  unfold egressCluster, getOriginalDestinationEgressCluster, getDNSResolvableEgressCluster.
  repeat (case_decide; [try done|]); destruct (getTypedHTTPProtocolOptions _ _); try done; intros [= <-];
    cbn [with_ProtocolOptions cl_TransportSocket]; by edestruct apply_keeps as (_ & -> & _).
Qed.

(** An egress configuration is dropped only when it lacks a name or a port. *)
Lemma egress_cluster_kept configs config :
  is_Some (result_value (getTypedHTTPProtocolOptions encodes getDefaultHTTPProtocolOptions)) →
  config ∈ configs → ecc_Host config = "" ∨ ecc_Name config ≠ "" ∧ ecc_Port config ≠ 0 →
  ∃ c, c ∈ getEgressClusters encodes configs ∧ cl_Name c = ecc_Name config.
Proof.
  intros [o Ho] Hin Hok. destruct (egressCluster encodes config) as [c|e] eqn:E.
  - exists c. split; [|by apply egress_cluster_name]. apply list_elem_of_omap. exists config. by rewrite E.
  - exfalso. revert E. unfold egressCluster, getOriginalDestinationEgressCluster, getDNSResolvableEgressCluster.
    destruct (getTypedHTTPProtocolOptions encodes getDefaultHTTPProtocolOptions); [|done]. repeat (case_decide; [naive_solver|]); done.
Qed.

Context `{RangeOrder} (mc : MeshCatalog) (domain : string) (Matches : labels → labels → bool).
Context (hashMatch : TrafficMatch → result string Z) (hashCluster : EgressClusterConfig → result string Z).
Context (settings : EnvoySettings).

(** The clusters of a response that returns. *)
Record cds_names (proxy : Proxy) (names : list string) (opol : OutboundMeshTrafficPolicy) (svcs : list MeshService)
    (ipol : InboundMeshTrafficPolicy) (epol : result string (option EgressTrafficPolicy)) : Prop := {
  cn_opol : GetOutboundMeshTrafficPolicy mc domain hashMatch hashCluster (p_Identity proxy) = Ret opol;
  cn_svcs : envoy_ListProxyServices Matches (mc_kubeController mc) proxy = Ret (Ok svcs);
  cn_ipol : GetInboundMeshTrafficPolicy mc domain (p_Identity proxy) svcs = Ret ipol;
  cn_epol : GetEgressTrafficPolicy mc hashMatch hashCluster (p_Identity proxy) = Ret epol;
  cn_NoDup : NoDup names;
  cn_outbound : ∀ c, c ∈ omtp_ClustersConfigs opol → mcc_Name c ∈ names;
  cn_inbound : ∀ c, c ∈ imtp_ClustersConfigs ipol → mcc_Name c ∈ names;
  cn_egress : ∀ p c, epol = Ok (Some p) → c ∈ etp_ClustersConfigs p →
    ecc_Host c = "" ∨ ecc_Name c ≠ "" ∧ ecc_Port c ≠ 0 → ecc_Name c ∈ names;
  cn_passthrough : cfg_IsEgressEnabled (mc_configurator mc) = true → OutboundPassthroughCluster ∈ names;
  cn_metrics : ∀ pod, ctl_GetPodForProxy (mc_kubeController mc) (K8s.mkProxy (p_UUID proxy) (p_Identity proxy)) = Ret (Ok pod) →
    IsMetricsEnabled pod = true → SidecarMetricsCluster ∈ names;
  cn_tracing : es_IsTracingEnabled settings = true → SidecarTracingCluster ∈ names;
}.

Lemma cds_response proxy clusters :
  cds_NewResponse encodes mc domain Matches hashMatch hashCluster settings proxy = Ret (Ok clusters) →
  ∃ opol svcs ipol epol, cds_names proxy (cl_Name <$> clusters) opol svcs ipol epol.
Proof.
  unfold cds_NewResponse. intros (opol & Hopol & Hr)%bind_Ret. apply bind_Ret in Hr as (ups & Hups & Hr).
  apply bind_Ret in Hr as ([svcs|] & Hsvcs & Hr); [|done]. apply bind_Ret in Hr as (ipol & Hipol & Hr).
  apply bind_Ret in Hr as (epol & Hepol & Hr).
  destruct (getOriginalDestinationEgressCluster encodes _ None) as [pass|] eqn:Hpass; [|done].
  apply bind_Ret in Hr as (pod & Hpod & Hr). apply bind_Ret in Hr as (cs & Hcs & [= <-]).
  apply removeDups_spec in Hcs as (Hall & Hnd & _ & Hn). exists opol, svcs, ipol, epol. split; try done.
  - intros c Hc. unfold upstreamClustersFromClusterConfigs in Hups. apply mapO_Forall2 in Hups.
    apply list_elem_of_lookup in Hc as [i Hi]. destruct (Forall2_lookup_l _ _ _ _ _ Hups Hi) as (o & Ho & Hget).
    apply list_elem_of_lookup_2 in Ho. destruct (Hall o) as [c' ->]; [by apply elem_of_app; left|].
    apply upstream_cluster in Hget as (ctx & _ & <- & _). apply Hn, elem_of_app. by left.
  - intros c Hc. assert (getLocalServiceCluster encodes c ∈ localClustersFromClusterConfigs encodes (imtp_ClustersConfigs ipol)) as Hin
      by by apply list_elem_of_fmap_2.
    destruct (Hall (getLocalServiceCluster encodes c)) as [c' Hc']; [set_solver|].
    assert (cl_Name c' = mcc_Name c) as <-.
    { unfold getLocalServiceCluster in Hc'. destruct (getTypedHTTPProtocolOptions _ _); [|done]. by injection Hc' as <-. }
    apply Hn. rewrite Hc' in Hin. set_solver.
  - intros p c -> Hc Hok. destruct (egress_cluster_kept (etp_ClustersConfigs p) c) as (c' & Hc' & <-); [|done|done|].
    { unfold getOriginalDestinationEgressCluster in Hpass. by destruct (getTypedHTTPProtocolOptions _ _). }
    apply Hn. rewrite !elem_of_app. right; right; left. by apply list_elem_of_fmap_2.
  - intros Heg. rewrite Heg in Hn. assert (cl_Name pass = OutboundPassthroughCluster) as <-.
    { unfold getOriginalDestinationEgressCluster in Hpass. destruct (getTypedHTTPProtocolOptions _ _); [|done]. by injection Hpass as <-. }
    apply Hn. rewrite !elem_of_app. right; right; right; left. by left.
  - intros p Hp Hm. rewrite Hpod in Hp. injection Hp as ->. rewrite Hm in Hn. change SidecarMetricsCluster with (cl_Name getPrometheusCluster).
    apply Hn. rewrite !elem_of_app. right; right; right; right; left. by left.
  - intros Ht. rewrite Ht in Hn. change SidecarTracingCluster with (cl_Name (getTracingCluster settings)).
    apply Hn. rewrite !elem_of_app. do 5 right. by left.
Qed.
End cds_lemmas.

#[global] Arguments cn_opol {_ _ _ _ _ _ _ _ _ _ _ _ _} _.
#[global] Arguments cn_svcs {_ _ _ _ _ _ _ _ _ _ _ _ _} _.
#[global] Arguments cn_ipol {_ _ _ _ _ _ _ _ _ _ _ _ _} _.
#[global] Arguments cn_epol {_ _ _ _ _ _ _ _ _ _ _ _ _} _.
#[global] Arguments cn_NoDup {_ _ _ _ _ _ _ _ _ _ _ _ _} _.
#[global] Arguments cn_outbound {_ _ _ _ _ _ _ _ _ _ _ _ _} _.
#[global] Arguments cn_inbound {_ _ _ _ _ _ _ _ _ _ _ _ _} _.
#[global] Arguments cn_egress {_ _ _ _ _ _ _ _ _ _ _ _ _} _.
#[global] Arguments cn_passthrough {_ _ _ _ _ _ _ _ _ _ _ _ _} _.
#[global] Arguments cn_metrics {_ _ _ _ _ _ _ _ _ _ _ _ _} _.
#[global] Arguments cn_tracing {_ _ _ _ _ _ _ _ _ _ _ _ _} _.
