(* ===== verification/EnvoyLds.v ===== *)
(** * pkg/sidecar/providers/envoy/lds: the listeners of a proxy

    listener.go, inmesh.go, egress.go, ingress.go, http_connection.go, auth.go, healthcheck.go,
    tracing.go, wasm.go, rbac.go and response.go, with the access log of xdsutil.go.  The
    messages are those of Envoy's API, as far as they are filled in; whether the Protobuf
    library can encode a message, and the WebAssembly module that the build embeds, are
    parameters. *)

From S2P Require Import Prelude GoStrings GoTime Net Identity Service PolicyApi TrafficPolicy K8s K8sClient KubeProvider Smi PolicyClient Catalog.
From S2P Require Import CatalogEgress CatalogInbound CatalogOutbound CatalogIngress MeshConfig Certificate PipyServer EnvoyRbac EnvoyProxy EnvoyAds.
From S2P Require Import EnvoyRoute EnvoyXds EnvoyCds.

#[local] Open Scope Z_scope.

(** ** Steps that can fail *)

Inductive LdsError :=
| errMarshalling
| errInvalidUnit
| errNoIPRanges
| errNoClusters
| errUnsupportedProtocol
| errLdsK8s (e : K8sError).

Definition tryE {E A B} (m : outcome (result E A)) (k : A → outcome (result E B)) : outcome (result E B) :=
  r ← m;
  match r with Err e => Ret (Err e) | Ok a => k a end.

Notation "x '←?' m ; k" := (tryE m (λ x, k)) (at level 20, m at level 100, k at level 200, right associativity,
  format "x  ←?  m ;  '/' k").

(** ** Filters *)

(** Filter names. *)
Definition HTTPConnectionManagerFilterName : string := "http_connection_manager".
Definition HTTPRouterFilterName : string := "http_router".
Definition HTTPLuaFilterName : string := "http_lua".
Definition HTTPExtAuthzFilterName : string := "http_external_authz".
Definition HTTPHealthCheckFilterName : string := "http_health_check".
Definition HTTPRBACFilterName : string := "envoy.filters.http.rbac".
Definition HTTPLocalRateLimitFilterName : string := "envoy.filters.http.local_ratelimit".
Definition TCPProxyFilterName : string := "tcp_proxy".
Definition L4LocalRateLimitFilterName : string := "l4_local_rate_limit".
Definition L4RBACFilterName : string := "l4_rbac".
Definition OriginalDstFilterName : string := "original_dst".
Definition TLSInspectorFilterName : string := "tls_inspector".
Definition HTTPInspectorFilterName : string := "http_inspector".
Definition AccessLoggerName : string := "envoy.access_loggers.stream".

Record AccessLog := mkAccessLog {
  al_Name : string;
  al_JsonFormat : gmap string string;
}.

Definition getStdoutAccessLog : gmap string string := list_to_map [
  ("start_time", "%START_TIME%");
  ("method", "%REQ(:METHOD)%");
  ("path", "%REQ(X-ENVOY-ORIGINAL-PATH?:PATH)%");
  ("protocol", "%PROTOCOL%");
  ("response_code", "%RESPONSE_CODE%");
  ("response_code_details", "%RESPONSE_CODE_DETAILS%");
  ("time_to_first_byte", "%RESPONSE_DURATION%");
  ("upstream_cluster", "%UPSTREAM_CLUSTER%");
  ("response_flags", "%RESPONSE_FLAGS%");
  ("bytes_received", "%BYTES_RECEIVED%");
  ("bytes_sent", "%BYTES_SENT%");
  ("duration", "%DURATION%");
  ("upstream_service_time", "%RESP(X-ENVOY-UPSTREAM-SERVICE-TIME)%");
  ("x_forwarded_for", "%REQ(X-FORWARDED-FOR)%");
  ("user_agent", "%REQ(USER-AGENT)%");
  ("request_id", "%REQ(X-REQUEST-ID)%");
  ("requested_server_name", "%REQUESTED_SERVER_NAME%");
  ("authority", "%REQ(:AUTHORITY)%");
  ("upstream_host", "%UPSTREAM_HOST%")].

(** The external authorisation service, over gRPC. *)
Record ExtAuthz := mkExtAuthz {
  ea_TargetUri : string;
  ea_StatPrefix : string;
  ea_Timeout : Z;
  ea_MaxRequestBytes : Z;
  ea_AllowPartialMessage : bool;
  ea_FailureModeAllow : bool;
}.

(** A header is compared with a value, or only has to be there. *)
Inductive HealthHeader :=
| HealthExact (name value : string)
| HealthPresent (name : string).

Inductive HttpFilterConfig :=
| HttpRBAC
| HttpLocalRateLimit (statPrefix : string)
| HttpExtAuthz (config : ExtAuthz)
| HttpLua (inlineCode : string)
| HttpWasm (inlineBytes : string)
| HttpHealthCheck (passThroughMode : bool) (headers : list HealthHeader)
| HttpRouter.

(** [None]: a filter whose configuration could not be encoded. *)
Record HttpFilter := mkHttpFilter {
  hf_Name : string;
  hf_Config : option HttpFilterConfig;
}.

(** A Zipkin collector. *)
Record HttpTracing := mkHttpTracing {
  ht_CollectorCluster : string;
  ht_CollectorEndpoint : string;
}.

(** A virtual host with one route, for a path prefix. *)
Record InlineVirtualHost := mkInlineVirtualHost {
  iv_Name : string;
  iv_Domains : list string;
  iv_Prefix : string;
  iv_Cluster : string;
  iv_PrefixRewrite : string;
}.

Inductive RouteSpecifier :=
| Rds (source : ConfigSource) (routeConfigName : string)
| InlineRouteConfig (hosts : list InlineVirtualHost).

Record HttpConnectionManager := mkHttpConnectionManager {
  hcm_StatPrefix : string;
  hcm_HttpFilters : list HttpFilter;
  hcm_RouteSpecifier : RouteSpecifier;
  hcm_AccessLog : list AccessLog;
  hcm_UpgradeConfigs : list string;
  hcm_GenerateRequestId : bool;
  hcm_Tracing : option HttpTracing;
  hcm_LocalReplyHeaders : option (list (string * string));
}.

Inductive ClusterSpecifier :=
| TcpCluster (cluster : string)
| TcpWeightedClusters (clusters : list (string * Z)).

Record TcpProxy := mkTcpProxy {
  tp_StatPrefix : string;
  tp_ClusterSpecifier : ClusterSpecifier;
}.

(** The local rate limit of connections. *)
Record TcpLocalRateLimit := mkTcpLocalRateLimit {
  tl_StatPrefix : string;
  tl_MaxTokens : Z;
  tl_TokensPerFill : Z;
  tl_FillInterval : Z;
}.

Inductive FilterConfig :=
| NetworkRBAC (rules : RBAC)
| NetworkRateLimit (limit : TcpLocalRateLimit)
| ConnectionManager (manager : HttpConnectionManager)
| NetworkTcpProxy (proxy : TcpProxy).

Record Filter := mkFilter {
  f_Name : string;
  f_Config : FilterConfig;
}.

(** ** Filter chains and listeners *)

(** An empty list and an empty string say that the criterion is not used. *)
Record FilterChainMatch := mkFilterChainMatch {
  fcm_DestinationPort : option Z;
  fcm_PrefixRanges : list CidrRange;
  fcm_ServerNames : list string;
  fcm_TransportProtocol : string;
  fcm_ApplicationProtocols : list string;
  fcm_SourcePrefixRanges : list CidrRange;
}.

Record DownstreamSocket := mkDownstreamSocket {
  ds_Name : string;
  ds_TypedConfig : DownstreamTlsContext;
}.

Record FilterChain := mkFilterChain {
  fc_Name : string;
  fc_Filters : list Filter;
  fc_FilterChainMatch : option FilterChainMatch;
  fc_TransportSocket : option DownstreamSocket;
}.

(** Conditions on the destination port: from the first, to the second exclusive. *)
Inductive PortPredicate :=
| DestinationPortRange (start end_ : Z)
| OrMatch (rules : list PortPredicate).

Record ListenerFilter := mkListenerFilter {
  lf_Name : string;
  lf_FilterDisabled : option PortPredicate;
}.

Inductive TrafficDirection := INBOUND | OUTBOUND.

Record Listener := mkListener {
  li_Name : string;
  li_Address : Address;
  li_TrafficDirection : TrafficDirection;
  li_FilterChains : list FilterChain;
  li_DefaultFilterChain : option FilterChain;
  li_ListenerFilters : list ListenerFilter;
  li_ContinueOnListenerFiltersTimeout : bool;
  li_AccessLog : list AccessLog;
}.

(** The messages that are encoded. *)
Inductive LdsMessage :=
| MsgAccessLog (format : gmap string string)
| MsgHttpFilter (config : HttpFilterConfig)
| MsgZipkin (tracing : HttpTracing)
| MsgFilter (config : FilterConfig)
| MsgDownstreamTlsContext (context : DownstreamTlsContext).

(** ** Constants *)

Definition InboundListenerName : string := "inbound-listener".
Definition OutboundListenerName : string := "outbound-listener".
Definition prometheusListenerName : string := "inbound-prometheus-listener".
Definition outboundEgressFilterChainName : string := "outbound-egress-filter-chain".
Definition egressTCPProxyStatPrefix : string := "egress-tcp-proxy".
Definition inboundMeshTCPProxyStatPrefix : string := "inbound-mesh-tcp-proxy".
Definition outboundMeshTCPProxyStatPrefix : string := "outbound-mesh-tcp-proxy".
Definition meshHTTPConnManagerStatPrefix : string := "mesh-http-conn-manager".
Definition prometheusHTTPConnManagerStatPrefix : string := "prometheus-http-conn-manager".
Definition prometheusInboundVirtualHostName : string := "prometheus-inbound-virtual-host".
Definition websocketUpgradeType : string := "websocket".
Definition WildcardIPAddr : string := "0.0.0.0".
Definition SidecarOutboundListenerPort : Z := 15001.
Definition SidecarInboundListenerPort : Z := 15003.
Definition SidecarPrometheusInboundListenerPort : Z := 15010.
Definition PrometheusScrapePath : string := "/stats/prometheus".
Definition httpProtocols : list string := ["http/1.0"; "http/1.1"; "h2c"].

(** ** [strconv.Quote] *)

Definition hexDigit (n : nat) : ascii := default "0"%char (String.get n "0123456789abcdef").

(** One byte of a UTF-8 string all of whose runes can be printed. *)
Definition quoteByte (c : ascii) : string :=
  let n := nat_of_ascii c in
  let esc d := String "\" (String d "") in
  if decide (n = 34%nat ∨ n = 92%nat) then esc c
  else if decide (n = 7%nat) then esc "a"%char else if decide (n = 8%nat) then esc "b"%char else if decide (n = 12%nat) then esc "f"%char
  else if decide (n = 10%nat) then esc "n"%char else if decide (n = 13%nat) then esc "r"%char else if decide (n = 9%nat) then esc "t"%char
  else if decide (n = 11%nat) then esc "v"%char
  else if decide (n < 32 ∨ n = 127)%nat then "\x" +:+ String (hexDigit (n / 16)) (String (hexDigit (n mod 16)) "")
  else String c "".

Fixpoint quoteBody (s : string) : string :=
  match s with EmptyString => "" | String c s => quoteByte c +:+ quoteBody s end.

Definition doubleQuote : string := String (ascii_of_nat 34) "".
Definition newline : string := String (ascii_of_nat 10) "".
Definition Quote (s : string) : string := doubleQuote +:+ quoteBody s +:+ doubleQuote.

(** ** Predicates on ports (listener.go) *)

Definition portRange (port : Z) : PortPredicate := DestinationPortRange (int32 port) (int32 (int64 (port + 1))).

Definition getFilterMatchPredicateForPorts (ports : list Z) : option PortPredicate :=
  match portRange <$> ports with
  | [] => None
  | [rule] => Some rule
  | matchPredicates => Some (OrMatch matchPredicates)
  end.

(** The ports of server-first protocols, once each. *)
Definition getFilterMatchPredicateForTrafficMatches (matches : list TrafficMatch) : option PortPredicate :=
  getFilterMatchPredicateForPorts
    (unique (tm_DestinationPort <$> filter (λ m, tm_DestinationProtocol m = ProtocolTCPServerFirst) matches)).

(** ** Filters that do not depend on the catalog *)

Inductive connectionDirection := dir_inbound | dir_outbound.
#[global] Instance connectionDirection_eq_dec : EqDecision connectionDirection.
Proof. solve_decision. Defined.

Record httpConnManagerOptions := mkHttpConnManagerOptions {
  hco_direction : connectionDirection;
  hco_rdsRoutConfigName : string;
  hco_wasmStatsHeaders : option (gmap string string);
  hco_extAuthConfig : option ExtAuthConfig;
  hco_enableActiveHealthChecks : bool;
  hco_enableTracing : bool;
  hco_tracingAPIEndpoint : string;
}.

Section filters.
Context `{RangeOrder} (encodes : LdsMessage → bool) (statsWASMBytes : string).

Definition marshal {A} (m : LdsMessage) (a : A) : result LdsError A := if encodes m then Ok a else Err errMarshalling.

Definition GetAccessLog : list AccessLog :=
  if encodes (MsgAccessLog getStdoutAccessLog) then [mkAccessLog AccessLoggerName getStdoutAccessLog] else [].

Definition getExtAuthzHTTPFilter (extAuthConfig : ExtAuthConfig) : HttpFilter :=
  let extAuth := HttpExtAuthz (mkExtAuthz (eac_Address extAuthConfig +:+ ":" +:+ itoa (eac_Port extAuthConfig)) (eac_StatPrefix extAuthConfig)
    (eac_AuthzTimeout extAuthConfig) 8192 true (eac_FailureModeAllow extAuthConfig)) in
  mkHttpFilter HTTPExtAuthzFilterName (result_value (marshal (MsgHttpFilter extAuth) extAuth)).

(** A filter of a connection manager with its configuration. *)
Definition httpFilter (name : string) (config : HttpFilterConfig) : result LdsError HttpFilter :=
  marshal (MsgHttpFilter config) (mkHttpFilter name (Some config)).

Definition getHealthCheckFilter : result LdsError HttpFilter :=
  httpFilter HTTPHealthCheckFilterName
    (HttpHealthCheck false [HealthExact ":path" EnvoyActiveHealthCheckPath; HealthPresent EnvoyActiveHealthCheckHeaderKey]).

Definition getHTTPTracingConfig (apiEndpoint : string) : result LdsError HttpTracing :=
  let tracing := mkHttpTracing SidecarTracingCluster apiEndpoint in marshal (MsgZipkin tracing) tracing.

(** The statements are in the order of the iteration over the map. *)
Definition addHeadersCode (headers : gmap string string) : string :=
  "--" +:+ newline +:+ "function envoy_on_request(request_handle)" +:+ newline +:+
  foldr (λ kv rest, "  request_handle:headers():add(" +:+ Quote kv.1 +:+ ", " +:+ Quote kv.2 +:+ ")" +:+ newline +:+ rest) "end"
    (range_map headers).

Definition getAddHeadersFilter (headers : gmap string string) : result LdsError (option HttpFilter) :=
  if decide (headers = ∅) then Ok None
  else match httpFilter HTTPLuaFilterName (HttpLua (addHeadersCode headers)) with Ok f => Ok (Some f) | Err e => Err e end.

Definition getStatsWASMFilter : result LdsError (option HttpFilter) :=
  if decide (statsWASMBytes = "") then Ok None
  else match httpFilter "envoy.filters.http.wasm" (HttpWasm statsWASMBytes) with Ok f => Ok (Some f) | Err e => Err e end.

(** The headers of local replies: [None] when there are none. *)
Definition getWASMStatsConfig (statsHeaders : gmap string string) : result LdsError (list HttpFilter * option (list (string * string))) :=
  match getStatsWASMFilter with
  | Err e => Err e
  | Ok statsFilter =>
    match getAddHeadersFilter statsHeaders with
    | Err e => Err e
    | Ok headerFilter =>
      Ok match statsFilter with
         | None => ([], None)
         | Some statsFilter =>
           let localReplyHeaders := (λ kv, (kv.1, "unknown")) <$> range_map statsHeaders in
           (option_list headerFilter ++ [statsFilter], if decide (localReplyHeaders = []) then None else Some localReplyHeaders)
         end
    end
  end.

Definition http_router : HttpFilter := mkHttpFilter HTTPRouterFilterName (Some HttpRouter).

(** [MustMarshalAny] panics. *)
Definition build (options : httpConnManagerOptions) : outcome (result LdsError HttpConnectionManager) :=
  let statPrefix := meshHTTPConnManagerStatPrefix +:+ "." +:+ hco_rdsRoutConfigName options in
  if negb (encodes (MsgHttpFilter (HttpLocalRateLimit statPrefix))) then Panic
  else
    let httpFilters := [mkHttpFilter HTTPRBACFilterName (Some HttpRBAC);
                        mkHttpFilter HTTPLocalRateLimitFilterName (Some (HttpLocalRateLimit statPrefix))] in
    let httpFilters := httpFilters ++
      match hco_extAuthConfig options with
      | Some extAuthConfig => if decide (hco_direction options = dir_inbound) then [getExtAuthzHTTPFilter extAuthConfig] else []
      | None => []
      end in
    tracing ←? Ret (if hco_enableTracing options
                    then match getHTTPTracingConfig (hco_tracingAPIEndpoint options) with Ok t => Ok (Some t) | Err e => Err e end
                    else Ok None);
    wasm ←? Ret match hco_wasmStatsHeaders options with
                | Some wasmStatsHeaders => getWASMStatsConfig wasmStatsHeaders
                | None => Ok ([], None)
                end;
    health ←? Ret (if hco_enableActiveHealthChecks options
                   then match getHealthCheckFilter with Ok hc => Ok [hc] | Err e => Err e end
                   else Ok []);
    Ret (Ok {|
      hcm_StatPrefix := statPrefix;
      hcm_HttpFilters := httpFilters ++ wasm.1 ++ health ++ [http_router];
      hcm_RouteSpecifier := Rds GetADSConfigSource (hco_rdsRoutConfigName options);
      hcm_AccessLog := GetAccessLog;
      hcm_UpgradeConfigs := [websocketUpgradeType];
      hcm_GenerateRequestId := hco_enableTracing options;
      hcm_Tracing := tracing;
      hcm_LocalReplyHeaders := wasm.2 |}).

Definition getPrometheusConnectionManager : HttpConnectionManager := {|
  hcm_StatPrefix := prometheusHTTPConnManagerStatPrefix;
  hcm_HttpFilters := [http_router];
  hcm_RouteSpecifier := InlineRouteConfig
    [mkInlineVirtualHost prometheusInboundVirtualHostName ["*"] PrometheusScrapePath SidecarMetricsCluster PrometheusScrapePath];
  hcm_AccessLog := GetAccessLog;
  hcm_UpgradeConfigs := [];
  hcm_GenerateRequestId := false;
  hcm_Tracing := None;
  hcm_LocalReplyHeaders := None;
|}.

(** A network filter with its configuration. *)
Definition networkFilter (name : string) (config : FilterConfig) : result LdsError Filter :=
  marshal (MsgFilter config) (mkFilter name config).

Definition buildTCPLocalRateLimitFilter (config : TCPLocalRateLimitSpec) (statPrefix : string) : result LdsError Filter :=
  let withInterval fillInterval := networkFilter L4LocalRateLimitFilterName (NetworkRateLimit
    (mkTcpLocalRateLimit statPrefix (uint32 (tlr_Connections config + tlr_Burst config)) (tlr_Connections config) fillInterval)) in
  if decide (tlr_Unit config = "second") then withInterval second
  else if decide (tlr_Unit config = "minute") then withInterval (60 * second)
  else if decide (tlr_Unit config = "hour") then withInterval (3600 * second)
  else Err errInvalidUnit.

Definition getDefaultPassthroughFilterChain : result LdsError FilterChain :=
  match networkFilter TCPProxyFilterName (NetworkTcpProxy
          (mkTcpProxy (egressTCPProxyStatPrefix +:+ "." +:+ OutboundPassthroughCluster) (TcpCluster OutboundPassthroughCluster))) with
  | Err e => Err e
  | Ok filter => Ok (mkFilterChain outboundEgressFilterChainName [filter] None None)
  end.

Definition newInboundListener : Listener := {|
  li_Name := InboundListenerName;
  li_Address := GetAddress WildcardIPAddr SidecarInboundListenerPort;
  li_TrafficDirection := INBOUND;
  li_FilterChains := [];
  li_DefaultFilterChain := None;
  li_ListenerFilters := [mkListenerFilter TLSInspectorFilterName None; mkListenerFilter OriginalDstFilterName None];
  li_ContinueOnListenerFiltersTimeout := false;
  li_AccessLog := GetAccessLog;
|}.

Definition buildPrometheusListener (connManager : HttpConnectionManager) : result LdsError Listener :=
  match networkFilter HTTPConnectionManagerFilterName (ConnectionManager connManager) with
  | Err e => Err e
  | Ok filter => Ok (mkListener prometheusListenerName (GetAddress WildcardIPAddr SidecarPrometheusInboundListenerPort) INBOUND
      [mkFilterChain "" [filter] None None] None [] false [])
  end.
End filters.

(** ** The builder *)

Record listenerBuilder := mkListenerBuilder {
  lb_serviceIdentity : ServiceIdentity;
  lb_statsHeaders : option (gmap string string);
  lb_trustDomain : string;
}.

(** A chain whose construction fails is logged and skipped. *)
Definition skipErr {A} (m : outcome (result LdsError A)) : outcome (list A) :=
  r ← m;
  Ret match r with Ok a => [a] | Err _ => [] end.

Section listeners.
Context `{RangeOrder} (encodes : LdsMessage → bool) (statsWASMBytes : string).
Context (mc : MeshCatalog) (domain : string) (Matches : labels → labels → bool).
Context (hashMatch : TrafficMatch → result string Z) (hashCluster : EgressClusterConfig → result string Z).
Context (settings : EnvoySettings) (lb : listenerBuilder).

Abbreviation cfg := (mc_configurator mc).

Definition getExtAuthConfig : option ExtAuthConfig :=
  if eac_Enable (es_InboundExternalAuth settings) then Some (es_InboundExternalAuth settings) else None.

Definition getWASMStatsHeaders : option (gmap string string) := if es_EnableWASMStats settings then lb_statsHeaders lb else None.

Definition buildRBACFilter : result LdsError Filter :=
  networkFilter encodes L4RBACFilterName (NetworkRBAC (buildInboundRBACPolicies mc (lb_serviceIdentity lb) (lb_trustDomain lb))).

(** The connection manager of the options as a network filter. *)
Definition connManagerFilter (options : httpConnManagerOptions) : outcome (result LdsError Filter) :=
  connManager ←? build encodes statsWASMBytes options;
  Ret (networkFilter encodes HTTPConnectionManagerFilterName (ConnectionManager connManager)).

(** *** Inbound (inmesh.go) *)

(** The filters in front of the last one, the same for HTTP and TCP. *)
Definition inboundGuards (trafficMatch : TrafficMatch) : result LdsError (list Filter) :=
  match (if cfg_IsPermissiveTrafficPolicyMode cfg then Ok []
         else match buildRBACFilter with Ok f => Ok [f] | Err e => Err e end) with
  | Err e => Err e
  | Ok rbac =>
    match (local ← (rateLimit ← tm_RateLimit trafficMatch; rl_Local rateLimit); lrl_TCP local) with
    | None => Ok rbac
    | Some tcp =>
      match buildTCPLocalRateLimitFilter encodes tcp (tm_Name trafficMatch) with
      | Err e => Err e
      | Ok rateLimitFilter => Ok (rbac ++ [rateLimitFilter])
      end
    end
  end.

Definition inboundOptions (trafficMatch : TrafficMatch) : httpConnManagerOptions := {|
  hco_direction := dir_inbound;
  hco_rdsRoutConfigName := GetInboundMeshRouteConfigNameForPort (tm_DestinationPort trafficMatch);
  hco_wasmStatsHeaders := getWASMStatsHeaders;
  hco_extAuthConfig := getExtAuthConfig;
  hco_enableActiveHealthChecks := cfg_EnableSidecarActiveHealthChecks cfg;
  hco_enableTracing := es_IsTracingEnabled settings;
  hco_tracingAPIEndpoint := es_TracingEndpoint settings;
|}.

Definition getInboundHTTPFilters (trafficMatch : TrafficMatch) : outcome (result LdsError (list Filter)) :=
  filters ←? Ret (inboundGuards trafficMatch);
  httpConnectionManagerFilter ←? connManagerFilter (inboundOptions trafficMatch);
  Ret (Ok (filters ++ [httpConnectionManagerFilter])).

Definition getInboundTCPFilters (trafficMatch : TrafficMatch) : outcome (result LdsError (list Filter)) :=
  filters ←? Ret (inboundGuards trafficMatch);
  tcpProxyFilter ←? Ret (networkFilter encodes TCPProxyFilterName (NetworkTcpProxy
    (mkTcpProxy (inboundMeshTCPProxyStatPrefix +:+ "." +:+ tm_Cluster trafficMatch) (TcpCluster (tm_Cluster trafficMatch)))));
  Ret (Ok (filters ++ [tcpProxyFilter])).

Definition inboundChainMatch (trafficMatch : TrafficMatch) : FilterChainMatch := {|
  fcm_DestinationPort := Some (uint32 (tm_DestinationPort trafficMatch));
  fcm_PrefixRanges := [];
  fcm_ServerNames := tm_ServerNames trafficMatch;
  fcm_TransportProtocol := TransportProtocolTLS;
  fcm_ApplicationProtocols := ALPNInMesh;
  fcm_SourcePrefixRanges := [];
|}.

(** The chain with the filters: the TLS context is made after them. *)
Definition inboundMeshFilterChain (getFilters : TrafficMatch → outcome (result LdsError (list Filter))) (trafficMatch : TrafficMatch) :
    outcome (result LdsError FilterChain) :=
  filters ←? getFilters trafficMatch;
  downstreamTLSContext ← GetDownstreamTLSContext (lb_serviceIdentity lb) true (es_Sidecar settings);
  Ret (marshal encodes (MsgDownstreamTlsContext downstreamTLSContext)
    (mkFilterChain (tm_Name trafficMatch) filters (Some (inboundChainMatch trafficMatch))
       (Some (mkDownstreamSocket (tm_Name trafficMatch) downstreamTLSContext)))).

Definition getInboundMeshHTTPFilterChain : TrafficMatch → outcome (result LdsError FilterChain) := inboundMeshFilterChain getInboundHTTPFilters.
Definition getInboundMeshTCPFilterChain : TrafficMatch → outcome (result LdsError FilterChain) := inboundMeshFilterChain getInboundTCPFilters.

Definition getInboundMeshFilterChains (trafficMatches : list TrafficMatch) : outcome (list FilterChain) :=
  concatO (λ match_,
    let protocol := to_lower (tm_DestinationProtocol match_) in
    if decide (protocol = ProtocolHTTP ∨ protocol = ProtocolGRPC) then skipErr (getInboundMeshHTTPFilterChain match_)
    else if decide (protocol = ProtocolTCP ∨ protocol = ProtocolTCPServerFirst) then skipErr (getInboundMeshTCPFilterChain match_)
    else Ret []) trafficMatches.

(** *** Outbound (inmesh.go) *)

Definition outboundOptions (routeConfigName : string) : httpConnManagerOptions := {|
  hco_direction := dir_outbound;
  hco_rdsRoutConfigName := routeConfigName;
  hco_wasmStatsHeaders := lb_statsHeaders lb;
  hco_extAuthConfig := None;
  hco_enableActiveHealthChecks := false;
  hco_enableTracing := es_IsTracingEnabled settings;
  hco_tracingAPIEndpoint := es_TracingEndpoint settings;
|}.

Definition getOutboundHTTPFilter (routeConfigName : string) : outcome (result LdsError Filter) :=
  connManagerFilter (outboundOptions routeConfigName).

(** An IP range that does not parse is logged and skipped. *)
Definition getOutboundFilterChainMatchForService (trafficMatch : TrafficMatch) : result LdsError FilterChainMatch :=
  if decide (tm_DestinationIPRanges trafficMatch = []) then Err errNoIPRanges
  else Ok {|
    fcm_DestinationPort := Some (uint32 (tm_DestinationPort trafficMatch));
    fcm_PrefixRanges := omap GetCIDRRangeFromStr (tm_DestinationIPRanges trafficMatch);
    fcm_ServerNames := [];
    fcm_TransportProtocol := "";
    fcm_ApplicationProtocols := [];
    fcm_SourcePrefixRanges := [] |}.

Definition getOutboundTCPFilter (trafficMatch : TrafficMatch) : result LdsError Filter :=
  let proxyTo specifier := networkFilter encodes TCPProxyFilterName (NetworkTcpProxy
    (mkTcpProxy (outboundMeshTCPProxyStatPrefix +:+ "_" +:+ tm_Name trafficMatch) specifier)) in
  match tm_WeightedClusters trafficMatch with
  | [] => Err errNoClusters
  | [cluster] => proxyTo (TcpCluster (wc_ClusterName cluster))
  | clusters => proxyTo (TcpWeightedClusters ((λ c, (wc_ClusterName c, uint32 (wc_Weight c))) <$> clusters))
  end.

(** The chain of a filter for a service: the filter is made before the match. *)
Definition outboundFilterChain (filter : outcome (result LdsError Filter)) (trafficMatch : TrafficMatch) : outcome (result LdsError FilterChain) :=
  filter ←? filter;
  filterChainMatch ←? Ret (getOutboundFilterChainMatchForService trafficMatch);
  Ret (Ok (mkFilterChain (tm_Name trafficMatch) [filter] (Some filterChainMatch) None)).

Definition getOutboundHTTPFilterChainForService (trafficMatch : TrafficMatch) : outcome (result LdsError FilterChain) :=
  outboundFilterChain (getOutboundHTTPFilter (GetOutboundMeshRouteConfigNameForPort (tm_DestinationPort trafficMatch))) trafficMatch.

Definition getOutboundTCPFilterChainForService (trafficMatch : TrafficMatch) : outcome (result LdsError FilterChain) :=
  outboundFilterChain (Ret (getOutboundTCPFilter trafficMatch)) trafficMatch.

Definition getOutboundFilterChainPerUpstream : outcome (list FilterChain) :=
  outboundMeshTrafficPolicy ← GetOutboundMeshTrafficPolicy mc domain hashMatch hashCluster (lb_serviceIdentity lb);
  concatO (λ trafficMatch,
    let protocol := to_lower (tm_DestinationProtocol trafficMatch) in
    if decide (protocol = ProtocolHTTP ∨ protocol = ProtocolGRPC) then skipErr (getOutboundHTTPFilterChainForService trafficMatch)
    else if decide (protocol = ProtocolTCP ∨ protocol = ProtocolTCPServerFirst) then skipErr (getOutboundTCPFilterChainForService trafficMatch)
    else Ret []) (omtp_TrafficMatches outboundMeshTrafficPolicy).

(** *** Egress (egress.go) *)

Definition getEgressHTTPFilterChain (match_ : TrafficMatch) : outcome (result LdsError FilterChain) :=
  filter ←? getOutboundHTTPFilter (GetEgressRouteConfigNameForPort (tm_DestinationPort match_));
  Ret (Ok (mkFilterChain (tm_Name match_) [filter]
    (Some (mkFilterChainMatch (Some (uint32 (tm_DestinationPort match_))) [] [] "" httpProtocols [])) None)).

Definition getEgressTCPFilterChain (match_ : TrafficMatch) : outcome (result LdsError FilterChain) :=
  tcpFilter ←? Ret (networkFilter encodes TCPProxyFilterName (NetworkTcpProxy
    (mkTcpProxy (egressTCPProxyStatPrefix +:+ "." +:+ itoa (tm_DestinationPort match_)) (TcpCluster (tm_Cluster match_)))));
  let destinationPrefixes := omap GetCIDRRangeFromStr (tm_DestinationIPRanges match_) in
  Ret (Ok (mkFilterChain (tm_Name match_) [tcpFilter]
    (Some (mkFilterChainMatch (Some (uint32 (tm_DestinationPort match_))) destinationPrefixes (tm_ServerNames match_) "" [] [])) None)).

(** The protocol is compared as it is written. *)
Definition getEgressFilterChainsForMatches (matches : list TrafficMatch) : outcome (list FilterChain) :=
  concatO (λ match_,
    let protocol := tm_DestinationProtocol match_ in
    if decide (protocol = ProtocolHTTP) then skipErr (getEgressHTTPFilterChain match_)
    else if decide (protocol = ProtocolTCP ∨ protocol = ProtocolHTTPS ∨ protocol = ProtocolTCPServerFirst)
    then skipErr (getEgressTCPFilterChain match_)
    else Ret []) matches.

(** *** Ingress (ingress.go) *)

Definition ingressOptions : httpConnManagerOptions := {|
  hco_direction := dir_inbound;
  hco_rdsRoutConfigName := IngressRouteConfigName;
  hco_wasmStatsHeaders := None;
  hco_extAuthConfig := getExtAuthConfig;
  hco_enableActiveHealthChecks := false;
  hco_enableTracing := es_IsTracingEnabled settings;
  hco_tracingAPIEndpoint := es_TracingEndpoint settings;
|}.

Definition getIngressFilterChainFromTrafficMatch (trafficMatch : IngressTrafficMatch) (sidecarSpec : SidecarSpec) :
    outcome (result LdsError FilterChain) :=
  ingressConnManager ←? connManagerFilter ingressOptions;
  let sourcePrefixes := omap GetCIDRRangeFromStr (igm_SourceIPRanges trafficMatch) in
  let port := Some (uint32 (igm_Port trafficMatch)) in
  let protocol := to_lower (igm_Protocol trafficMatch) in
  if decide (protocol = ProtocolHTTP) then
    Ret (Ok (mkFilterChain (igm_Name trafficMatch) [ingressConnManager]
      (Some (mkFilterChainMatch port [] [] "" [] sourcePrefixes)) None))
  else if decide (protocol = ProtocolHTTPS) then
    downstreamTLSContext ← GetDownstreamTLSContext (lb_serviceIdentity lb) (negb (igm_SkipClientCertValidation trafficMatch)) sidecarSpec;
    Ret (marshal encodes (MsgDownstreamTlsContext downstreamTLSContext)
      (mkFilterChain (igm_Name trafficMatch) [ingressConnManager]
        (Some (mkFilterChainMatch port [] (igm_ServerNames trafficMatch) TransportProtocolTLS [] sourcePrefixes))
        (Some (mkDownstreamSocket (igm_Name trafficMatch) downstreamTLSContext))))
  else Ret (Err errUnsupportedProtocol).

Definition getIngressFilterChains (svc : MeshService) : outcome (list FilterChain) :=
  ingressPolicy ← GetIngressTrafficPolicy mc svc;
  match ingressPolicy.2 with
  | Err _ | Ok None => Ret []
  | Ok (Some ingressPolicy) =>
    concatO (λ trafficMatch, skipErr (getIngressFilterChainFromTrafficMatch trafficMatch (es_Sidecar settings)))
      (igp_TrafficMatches ingressPolicy)
  end.

(** *** The listeners (listener.go) *)

(** [Ok None]: a listener without chains is not programmed. *)
Definition newOutboundListener : outcome (result LdsError (option Listener)) :=
  serviceFilterChains ← getOutboundFilterChainPerUpstream;
  defaultFilterChain ←? Ret (if cfg_IsEgressEnabled cfg
    then match getDefaultPassthroughFilterChain encodes with Ok c => Ok (Some c) | Err e => Err e end
    else Ok None);
  let originalDst := mkListenerFilter OriginalDstFilterName None in
  '(egressFilterChains, additionalListenerFilters) ←
    (if cfg_EnableEgressPolicy cfg then
       egressTrafficPolicy ← GetEgressTrafficPolicy mc hashMatch hashCluster (lb_serviceIdentity lb);
       '(egressFilterChains, trafficMatches) ←
         match egressTrafficPolicy with
         | Ok (Some policy) =>
           chains ← getEgressFilterChainsForMatches (etp_TrafficMatches policy);
           Ret (chains, etp_TrafficMatches policy)
         | _ => Ret ([], [])
         end;
       outboundMeshTrafficPolicy ← GetOutboundMeshTrafficPolicy mc domain hashMatch hashCluster (lb_serviceIdentity lb);
       let predicate := getFilterMatchPredicateForTrafficMatches (trafficMatches ++ omtp_TrafficMatches outboundMeshTrafficPolicy) in
       Ret (egressFilterChains, [mkListenerFilter TLSInspectorFilterName predicate; mkListenerFilter HTTPInspectorFilterName predicate])
     else Ret ([], []));
  let listener := {|
    li_Name := OutboundListenerName;
    li_Address := GetAddress WildcardIPAddr SidecarOutboundListenerPort;
    li_TrafficDirection := OUTBOUND;
    li_FilterChains := serviceFilterChains ++ egressFilterChains;
    li_DefaultFilterChain := defaultFilterChain;
    li_ListenerFilters := originalDst :: additionalListenerFilters;
    li_ContinueOnListenerFiltersTimeout := cfg_EnableEgressPolicy cfg;
    li_AccessLog := GetAccessLog encodes |} in
  Ret (Ok match li_FilterChains listener, li_DefaultFilterChain listener with
          | [], None => None
          | _, _ => Some listener
          end).

Definition with_FilterChains (l : Listener) (chains : list FilterChain) : Listener :=
  mkListener (li_Name l) (li_Address l) (li_TrafficDirection l) chains (li_DefaultFilterChain l) (li_ListenerFilters l)
    (li_ContinueOnListenerFiltersTimeout l) (li_AccessLog l).
End listeners.

(** ** The response (response.go) *)

Section response.
Context `{RangeOrder} (encodes : LdsMessage → bool) (statsWASMBytes : string).
Context (mc : MeshCatalog) (domain : string) (Matches : labels → labels → bool).
Context (hashMatch : TrafficMatch → result string Z) (hashCluster : EgressClusterConfig → result string Z).
Context (settings : EnvoySettings).

Definition newListenerBuilder (proxy : Proxy) : listenerBuilder :=
  mkListenerBuilder (p_Identity proxy) (if es_EnableWASMStats settings then Some (StatsHeaders proxy) else None) (mc_GetTrustDomain mc).

Definition lds_NewResponse (proxy : Proxy) : outcome (result LdsError (list Listener)) :=
  let lb := newListenerBuilder proxy in
  outboundListener ← newOutboundListener encodes statsWASMBytes mc domain hashMatch hashCluster settings lb;
  let outboundListeners := match outboundListener with Ok (Some l) => [l] | _ => [] end in
  r ← envoy_ListProxyServices Matches (mc_kubeController mc) proxy;
  match r with
  | Err e => Ret (Err (errLdsK8s e))
  | Ok svcList =>
    inboundMeshTrafficPolicy ← GetInboundMeshTrafficPolicy mc domain (lb_serviceIdentity lb) svcList;
    meshChains ← getInboundMeshFilterChains encodes statsWASMBytes mc settings lb (imtp_TrafficMatches inboundMeshTrafficPolicy);
    ingressChains ← concatO (getIngressFilterChains encodes statsWASMBytes mc settings lb) svcList;
    let inboundListeners :=
      match meshChains ++ ingressChains with
      | [] => []
      | chains => [with_FilterChains (newInboundListener encodes) chains]
      end in
    pod ← ctl_GetPodForProxy (mc_kubeController mc) (K8s.mkProxy (p_UUID proxy) (p_Identity proxy));
    let prometheusListeners :=
      match pod with
      | Ok pod =>
        if IsMetricsEnabled pod
        then match buildPrometheusListener encodes (getPrometheusConnectionManager encodes) with Ok l => [l] | Err _ => [] end
        else []
      | Err _ => []
      end in
    Ret (Ok (outboundListeners ++ inboundListeners ++ prometheusListeners))
  end.
End response.

(** ** Lemmas *)

Lemma tryE_Ok {E A B} (m : outcome (result E A)) (k : A → outcome (result E B)) b :
  tryE m k = Ret (Ok b) → ∃ a, m = Ret (Ok a) ∧ k a = Ret (Ok b).
Proof. unfold tryE. intros ([a|e] & Hm & Hk)%bind_Ret; [by exists a|done]. Qed.

Lemma elem_of_two {A} (x a b : A) : x ∈ [a; b] ↔ x = a ∨ x = b.
Proof. rewrite !elem_of_cons, elem_of_nil. tauto. Qed.

Lemma elem_of_three {A} (x a b c : A) : x ∈ [a; b; c] ↔ x = a ∨ x = b ∨ x = c.
Proof. rewrite !elem_of_cons, elem_of_nil. tauto. Qed.

Lemma elem_of_skipErr {A} (m : outcome (result LdsError A)) l x : skipErr m = Ret l → x ∈ l → m = Ret (Ok x).
Proof.
  unfold skipErr. intros ([a|e] & -> & [= <-])%bind_Ret; [by intros ->%list_elem_of_singleton|by intros ?%elem_of_nil].
Qed.

(** The clusters and the route configurations that a filter names. *)
Definition specifier_clusters (s : ClusterSpecifier) : list string :=
  match s with TcpCluster c => [c] | TcpWeightedClusters cs => cs.*1 end.

Definition filter_clusters (f : Filter) : list string :=
  match f_Config f with
  | NetworkTcpProxy p => specifier_clusters (tp_ClusterSpecifier p)
  | ConnectionManager m =>
    (match hcm_RouteSpecifier m with InlineRouteConfig hosts => iv_Cluster <$> hosts | Rds _ _ => [] end) ++
    option_list (ht_CollectorCluster <$> hcm_Tracing m)
  | _ => []
  end.

Definition filter_routes (f : Filter) : list string :=
  match f_Config f with
  | ConnectionManager m => match hcm_RouteSpecifier m with Rds _ name => [name] | InlineRouteConfig _ => [] end
  | _ => []
  end.

Definition chain_clusters (fc : FilterChain) : list string := fc_Filters fc ≫= filter_clusters.
Definition chain_routes (fc : FilterChain) : list string := fc_Filters fc ≫= filter_routes.
Definition listener_chains (l : Listener) : list FilterChain := li_FilterChains l ++ option_list (li_DefaultFilterChain l).

Lemma marshal_Ok {A} encodes m (a b : A) : marshal encodes m a = Ok b → b = a ∧ encodes m = true.
Proof. unfold marshal. destruct (encodes m); [|done]. by intros [= <-]. Qed.

Lemma networkFilter_Ok encodes name config f : networkFilter encodes name config = Ok f → f = mkFilter name config.
Proof. by intros [? _]%marshal_Ok. Qed.

Section manager.
Context `{RangeOrder} (encodes : LdsMessage → bool) (statsWASMBytes : string).

Lemma wasm_filter_names headers fs r f :
  getWASMStatsConfig encodes statsWASMBytes headers = Ok (fs, r) → f ∈ fs →
  hf_Name f = HTTPLuaFilterName ∨ hf_Name f = "envoy.filters.http.wasm".
Proof.
  unfold getWASMStatsConfig, getStatsWASMFilter, getAddHeadersFilter, httpFilter, marshal.
  repeat match goal with
  | |- context [if ?b then _ else _] => destruct b
  end; intros [= <- _]; cbn [option_list app]; rewrite ?elem_of_cons, ?elem_of_nil; naive_solver.
Qed.

(** The optional filters of a connection manager. *)
Definition extAuthzFilters (options : httpConnManagerOptions) : list HttpFilter :=
  match hco_extAuthConfig options with
  | Some extAuthConfig => if decide (hco_direction options = dir_inbound) then [getExtAuthzHTTPFilter encodes extAuthConfig] else []
  | None => []
  end.

Lemma build_filters options m :
  build encodes statsWASMBytes options = Ret (Ok m) →
  ∃ wasm health, hcm_HttpFilters m = mkHttpFilter HTTPRBACFilterName (Some HttpRBAC) ::
      (mkHttpFilter HTTPLocalRateLimitFilterName (Some (HttpLocalRateLimit (hcm_StatPrefix m))) :: extAuthzFilters options ++ wasm ++ health) ++ [http_router] ∧
    (∀ f, f ∈ wasm → hf_Name f = HTTPLuaFilterName ∨ hf_Name f = "envoy.filters.http.wasm") ∧
    (if hco_enableActiveHealthChecks options then Ok <$> health = [getHealthCheckFilter encodes] else health = []) ∧
    hcm_RouteSpecifier m = Rds Ads (hco_rdsRoutConfigName options) ∧
    hcm_Tracing m = if hco_enableTracing options then Some (mkHttpTracing SidecarTracingCluster (hco_tracingAPIEndpoint options)) else None.
Proof.
  unfold build. destruct (negb _); [done|]. intros (tracing & [= Ht] & Hm)%tryE_Ok. apply tryE_Ok in Hm as ([wf wr] & [= Hw] & Hm).
  apply tryE_Ok in Hm as (health & [= Hh] & [= <-]). cbn [hcm_RouteSpecifier hcm_HttpFilters hcm_Tracing hcm_StatPrefix fst snd].
  exists wf, health. split_and!; [by rewrite <-!app_comm_cons, <-!(assoc_L (++))| | |done|].
  - intros f Hf. destruct (hco_wasmStatsHeaders options) as [hs|]; [by eapply wasm_filter_names|]. injection Hw as <- _. by apply elem_of_nil in Hf.
  - destruct (hco_enableActiveHealthChecks options); [|by injection Hh as <-]. destruct (getHealthCheckFilter encodes); [|done]. by injection Hh as <-.
  - destruct (hco_enableTracing options); [|by injection Ht as <-]. unfold getHTTPTracingConfig, marshal in Ht.
    destruct (encodes _); [|done]. by injection Ht as <-.
Qed.

Lemma extAuthz_names options f : f ∈ extAuthzFilters options → hf_Name f = HTTPExtAuthzFilterName.
Proof.
  unfold extAuthzFilters. destruct (hco_extAuthConfig options); [|by intros ?%elem_of_nil].
  case_decide; [by intros ->%list_elem_of_singleton|by intros ?%elem_of_nil].
Qed.
End manager.

(** What Protobuf documents: a message whose strings are UTF-8 can be encoded, and the strings
    of Kubernetes objects are. *)
Class Encoder (encodes : LdsMessage → bool) : Prop := encoder_ok : ∀ m, encodes m = true.

Lemma build_total `{RangeOrder} encodes `{!Encoder encodes} statsWASMBytes options : ∃ m, build encodes statsWASMBytes options = Ret (Ok m).
Proof.
  unfold build. rewrite encoder_ok. cbn [negb].
  assert (∃ t, (if hco_enableTracing options then match getHTTPTracingConfig encodes (hco_tracingAPIEndpoint options) with Ok t => Ok (Some t) | Err e => Err e end
    else Ok None) = Ok t) as [t ->].
  { destruct (hco_enableTracing options); [|by eexists]. unfold getHTTPTracingConfig, marshal. rewrite encoder_ok. by eexists. }
  assert (∃ w, match hco_wasmStatsHeaders options with Some hs => getWASMStatsConfig encodes statsWASMBytes hs | None => Ok ([], None) end = Ok w) as [w ->].
  { destruct (hco_wasmStatsHeaders options); [|by eexists]. unfold getWASMStatsConfig, getStatsWASMFilter, getAddHeadersFilter, httpFilter, marshal.
    rewrite !encoder_ok. repeat case_decide; by eexists. }
  assert (∃ h, (if hco_enableActiveHealthChecks options then match getHealthCheckFilter encodes with Ok hc => Ok [hc] | Err e => Err e end else Ok []) = Ok h)
    as [h ->].
  { destruct (hco_enableActiveHealthChecks options); [|by eexists]. unfold getHealthCheckFilter, httpFilter, marshal. rewrite encoder_ok. by eexists. }
  cbn [tryE mbind outcome_bind]. by eexists.
Qed.

Section chains.
Context `{RangeOrder} (encodes : LdsMessage → bool) (statsWASMBytes : string).
Context (mc : MeshCatalog) (domain : string) (Matches : labels → labels → bool).
Context (hashMatch : TrafficMatch → result string Z) (hashCluster : EgressClusterConfig → result string Z).
Context (settings : EnvoySettings) (lb : listenerBuilder).

Abbreviation managerFilter := (connManagerFilter encodes statsWASMBytes).
Abbreviation guards := (inboundGuards encodes mc lb).

(** The clusters that a connection manager names. *)
Definition tracing_clusters (enabled : bool) : list string := if enabled then [SidecarTracingCluster] else [].

Lemma managerFilter_names options f :
  managerFilter options = Ret (Ok f) →
  filter_routes f = [hco_rdsRoutConfigName options] ∧ filter_clusters f = tracing_clusters (hco_enableTracing options).
Proof.
  unfold connManagerFilter. intros (m & Hm & [= ->%networkFilter_Ok])%tryE_Ok.
  apply build_filters in Hm as (_ & _ & _ & _ & _ & Hr & Ht). unfold filter_routes, filter_clusters. simpl. rewrite Hr, Ht.
  by destruct (hco_enableTracing options).
Qed.

(** The filters in front: they name nothing, and the first one authorises in SMI mode. *)
Lemma guards_spec m fs :
  guards m = Ok fs →
  fs ≫= filter_routes = [] ∧ fs ≫= filter_clusters = [] ∧
  (cfg_IsPermissiveTrafficPolicyMode (mc_configurator mc) = false →
   ∃ rest, fs = mkFilter L4RBACFilterName (NetworkRBAC (buildInboundRBACPolicies mc (lb_serviceIdentity lb) (lb_trustDomain lb))) :: rest).
Proof.
  unfold inboundGuards, buildTCPLocalRateLimitFilter, buildRBACFilter, networkFilter, marshal.
  repeat match goal with
  | |- context [if ?b then _ else _] => destruct b
  | |- context [match ?o with None => _ | Some _ => _ end] => destruct o
  end; intros [= <-]; simpl; (split_and!; [done..|]); (done || eauto).
Qed.

Definition terminalHTTP (m : TrafficMatch) (f : Filter) : Prop :=
  to_lower (tm_DestinationProtocol m) ∈ [ProtocolHTTP; ProtocolGRPC] ∧ managerFilter (inboundOptions mc settings lb m) = Ret (Ok f).

Definition terminalTCP (m : TrafficMatch) (f : Filter) : Prop :=
  to_lower (tm_DestinationProtocol m) ∈ [ProtocolTCP; ProtocolTCPServerFirst] ∧
  f = mkFilter TCPProxyFilterName (NetworkTcpProxy (mkTcpProxy (inboundMeshTCPProxyStatPrefix +:+ "." +:+ tm_Cluster m) (TcpCluster (tm_Cluster m)))).

(** A chain for traffic of the mesh. *)
Definition inbound_chain (m : TrafficMatch) (fc : FilterChain) : Prop :=
  ∃ fs f ctx, guards m = Ok fs ∧ (terminalHTTP m f ∨ terminalTCP m f) ∧
    GetDownstreamTLSContext (lb_serviceIdentity lb) true (es_Sidecar settings) = Ret ctx ∧
    fc = mkFilterChain (tm_Name m) (fs ++ [f]) (Some (inboundChainMatch m)) (Some (mkDownstreamSocket (tm_Name m) ctx)).

Lemma inboundMeshFilterChain_Ok getFilters m fc :
  inboundMeshFilterChain encodes settings lb getFilters m = Ret (Ok fc) →
  ∃ filters ctx, getFilters m = Ret (Ok filters) ∧ GetDownstreamTLSContext (lb_serviceIdentity lb) true (es_Sidecar settings) = Ret ctx ∧
    fc = mkFilterChain (tm_Name m) filters (Some (inboundChainMatch m)) (Some (mkDownstreamSocket (tm_Name m) ctx)).
Proof.
  unfold inboundMeshFilterChain. intros (filters & Hf & Hfc)%tryE_Ok. apply bind_Ret in Hfc as (ctx & Hctx & [= [-> _]%marshal_Ok]).
  by exists filters, ctx.
Qed.

Lemma inbound_chains_inv matches chains fc :
  getInboundMeshFilterChains encodes statsWASMBytes mc settings lb matches = Ret chains → fc ∈ chains → ∃ m, m ∈ matches ∧ inbound_chain m fc.
Proof.
  unfold getInboundMeshFilterChains. intros Hc Hfc. apply (elem_of_concatO _ _ _ fc Hc) in Hfc as (m & ys & Hm & Hys & Hfc).
  exists m. split; [done|]. case_decide as Hp; [|case_decide as Hp'; [|by injection Hys as <-; apply elem_of_nil in Hfc]];
    apply (elem_of_skipErr _ _ _ Hys), inboundMeshFilterChain_Ok in Hfc as (filters & ctx & Hf & Hctx & ->).
  - unfold getInboundHTTPFilters in Hf. apply tryE_Ok in Hf as (fs & [= Hfs] & Hf). apply tryE_Ok in Hf as (f & Hf & [= <-]).
    exists fs, f, ctx. split_and!; [done| |done|done]. left. split; [by apply elem_of_two|done].
  - unfold getInboundTCPFilters in Hf. apply tryE_Ok in Hf as (fs & [= Hfs] & Hf). apply tryE_Ok in Hf as (f & [= ->%networkFilter_Ok] & [= <-]).
    eexists fs, _, ctx. split_and!; [done| |done|done]. right. split; [by apply elem_of_two|done].
Qed.

(** A rate limit for connections with a unit that is known. *)
Definition limit_ok (m : TrafficMatch) : Prop :=
  ∀ tcp, (local ← (rateLimit ← tm_RateLimit m; rl_Local rateLimit); lrl_TCP local) = Some tcp → tlr_Unit tcp ∈ ["second"; "minute"; "hour"].

Lemma guards_total `{!Encoder encodes} m : limit_ok m → ∃ fs, guards m = Ok fs.
Proof.
  unfold limit_ok, inboundGuards. intros Hl. assert (∃ r, (if cfg_IsPermissiveTrafficPolicyMode (mc_configurator mc) then Ok []
    else match buildRBACFilter encodes mc lb with Ok f => Ok [f] | Err e => Err e end) = Ok r) as [r ->].
  { destruct (cfg_IsPermissiveTrafficPolicyMode _); [by eexists|]. unfold buildRBACFilter, networkFilter, marshal. rewrite encoder_ok. by eexists. }
  destruct (_ ≫= lrl_TCP) as [tcp|]; [|by eexists]. specialize (Hl tcp eq_refl).
  unfold buildTCPLocalRateLimitFilter, networkFilter, marshal. rewrite !encoder_ok.
  apply elem_of_three in Hl as [->|[->| ->]]; simpl; by eexists.
Qed.

Definition meshProtocols : list string := [ProtocolHTTP; ProtocolGRPC; ProtocolTCP; ProtocolTCPServerFirst].

(** The chain of a match whose protocol is supported is built. *)
Definition inboundChainsOf (match_ : TrafficMatch) : outcome (list FilterChain) :=
  getInboundMeshFilterChains encodes statsWASMBytes mc settings lb [match_].

Lemma inbound_chain_built `{!Encoder encodes} m chains :
  inboundChainsOf m = Ret chains → to_lower (tm_DestinationProtocol m) ∈ meshProtocols → limit_ok m →
  ∃ fc, fc ∈ chains ∧ fc_FilterChainMatch fc = Some (inboundChainMatch m).
Proof.
  intros Hc Hp Hl. destruct (guards_total m Hl) as [fs Hfs].
  assert (∀ getFilters filters l, getFilters m = Ret (Ok filters) → skipErr (inboundMeshFilterChain encodes settings lb getFilters m) = Ret l →
    ∃ fc, fc ∈ l ∧ fc_FilterChainMatch fc = Some (inboundChainMatch m)) as Hbuilt.
  { intros getFilters filters l Hf. unfold skipErr, inboundMeshFilterChain. rewrite Hf. cbn [tryE mbind outcome_bind].
    intros (r & (ctx & _ & [= <-])%bind_Ret & [= <-])%bind_Ret. unfold marshal. rewrite encoder_ok. eexists. split; [by left|done]. }
  unfold inboundChainsOf, getInboundMeshFilterChains, concatO in Hc. apply bind_Ret in Hc as (xss & Hx & [= <-]).
  cbn [mapO] in Hx. apply bind_Ret in Hx as (l & Hl' & [= <-]). cbn [mjoin list_join]. rewrite app_nil_r.
  case_decide as Hh; [|case_decide as Ht].
  - destruct (build_total encodes statsWASMBytes (inboundOptions mc settings lb m)) as [mgr Hmgr]. eapply Hbuilt, Hl'.
    unfold getInboundHTTPFilters, connManagerFilter. rewrite Hfs, Hmgr. cbn [tryE mbind outcome_bind]. unfold networkFilter, marshal.
    rewrite encoder_ok. reflexivity.
  - eapply Hbuilt, Hl'. unfold getInboundTCPFilters, networkFilter, marshal. rewrite Hfs, encoder_ok. reflexivity.
  - exfalso. unfold meshProtocols in Hp. rewrite !elem_of_cons, elem_of_nil in Hp. destruct Hp as [?|[?|[?|[?|[]]]]]; auto.
Qed.

(** The names in a chain for traffic of the mesh. *)
Lemma inbound_chain_names m fc :
  inbound_chain m fc →
  (to_lower (tm_DestinationProtocol m) ∈ [ProtocolHTTP; ProtocolGRPC] ∧
     chain_routes fc = [GetInboundMeshRouteConfigNameForPort (tm_DestinationPort m)] ∧
     chain_clusters fc = tracing_clusters (es_IsTracingEnabled settings)) ∨
  (to_lower (tm_DestinationProtocol m) ∈ [ProtocolTCP; ProtocolTCPServerFirst] ∧ chain_routes fc = [] ∧ chain_clusters fc = [tm_Cluster m]).
Proof.
  intros (fs & f & ctx & (Hr & Hcl & _)%guards_spec & Hf & _ & ->). unfold chain_routes, chain_clusters. cbn [fc_Filters].
  rewrite !bind_app, Hr, Hcl. cbn [mbind list_bind app]. rewrite !app_nil_r.
  destruct Hf as [[Hp Hf%managerFilter_names]|[Hp ->]]; [left|by right]. destruct Hf as [-> ->]. done.
Qed.

(** A chain for traffic to a service of the mesh. *)
Lemma outbound_chains_inv chains opol fc :
  getOutboundFilterChainPerUpstream encodes statsWASMBytes mc domain hashMatch hashCluster settings lb = Ret chains → fc ∈ chains →
  GetOutboundMeshTrafficPolicy mc domain hashMatch hashCluster (lb_serviceIdentity lb) = Ret opol →
  ∃ m f fcm, m ∈ omtp_TrafficMatches opol ∧ getOutboundFilterChainMatchForService m = Ok fcm ∧ fc = mkFilterChain (tm_Name m) [f] (Some fcm) None ∧
    (to_lower (tm_DestinationProtocol m) ∈ [ProtocolHTTP; ProtocolGRPC] ∧
       managerFilter (outboundOptions settings lb (GetOutboundMeshRouteConfigNameForPort (tm_DestinationPort m))) = Ret (Ok f) ∨
     to_lower (tm_DestinationProtocol m) ∈ [ProtocolTCP; ProtocolTCPServerFirst] ∧ getOutboundTCPFilter encodes m = Ok f).
Proof.
  unfold getOutboundFilterChainPerUpstream. intros (opol' & Hopol & Hc)%bind_Ret Hfc Hopol'. rewrite Hopol in Hopol'. injection Hopol' as ->.
  apply (elem_of_concatO _ _ _ fc Hc) in Hfc as (m & ys & Hm & Hys & Hfc).
  case_decide as Hp; [|case_decide as Hp'; [|by injection Hys as <-; apply elem_of_nil in Hfc]];
    apply (elem_of_skipErr _ _ _ Hys) in Hfc; unfold getOutboundHTTPFilterChainForService, getOutboundTCPFilterChainForService, outboundFilterChain in Hfc;
    apply tryE_Ok in Hfc as (f & Hf & Hfc); apply tryE_Ok in Hfc as (fcm & [= Hfcm] & [= <-]);
    exists m, f, fcm; (split_and!; [done..|]); [left|right]; (split; [by apply elem_of_two|]); [done|by injection Hf].
Qed.

(** The clusters of a TCP filter are those of the match. *)
Lemma outbound_tcp_names m f :
  getOutboundTCPFilter encodes m = Ok f → filter_routes f = [] ∧ filter_clusters f = wc_ClusterName <$> tm_WeightedClusters m.
Proof.
  unfold getOutboundTCPFilter. destruct (tm_WeightedClusters m) as [|c [|c' cs]]; [done|..]; intros ->%networkFilter_Ok; split; try done.
  cbn [filter_clusters f_Config tp_ClusterSpecifier specifier_clusters]. by rewrite <-list_fmap_compose.
Qed.

Lemma egress_chains_inv matches chains fc :
  getEgressFilterChainsForMatches encodes statsWASMBytes settings lb matches = Ret chains → fc ∈ chains →
  ∃ m, m ∈ matches ∧
    (tm_DestinationProtocol m = ProtocolHTTP ∧ chain_routes fc = [GetEgressRouteConfigNameForPort (tm_DestinationPort m)] ∧
       chain_clusters fc = tracing_clusters (es_IsTracingEnabled settings) ∨
     tm_DestinationProtocol m ∈ [ProtocolTCP; ProtocolHTTPS; ProtocolTCPServerFirst] ∧ chain_routes fc = [] ∧ chain_clusters fc = [tm_Cluster m]).
Proof.
  unfold getEgressFilterChainsForMatches. intros Hc Hfc. apply (elem_of_concatO _ _ _ fc Hc) in Hfc as (m & ys & Hm & Hys & Hfc).
  exists m. split; [done|]. case_decide as Hp; [|case_decide as Hp'; [|by injection Hys as <-; apply elem_of_nil in Hfc]];
    apply (elem_of_skipErr _ _ _ Hys) in Hfc; unfold getEgressHTTPFilterChain, getEgressTCPFilterChain in Hfc;
    apply tryE_Ok in Hfc as (f & Hf & [= <-]).
  - left. split; [done|]. apply managerFilter_names in Hf as [Hr Hcl]. unfold chain_routes, chain_clusters. simpl. split; [by rewrite Hr|by rewrite Hcl, app_nil_r].
  - right. split; [by apply elem_of_three|]. injection Hf as ->%networkFilter_Ok. done.
Qed.

(** The catalog has routes and clusters for a protocol in any case; the listener has a chain
    only for one in lower case. *)
Lemma egress_protocol_as_written m :
  tm_DestinationProtocol m = "HTTP" →
  getEgressFilterChainsForMatches encodes statsWASMBytes settings lb [m] = Ret [] ∧ to_lower (tm_DestinationProtocol m) = ProtocolHTTP.
Proof. intros E. unfold getEgressFilterChainsForMatches, concatO. cbn [mapO]. rewrite E. by vm_compute. Qed.

(** A chain for traffic from outside the mesh: it has no application protocols, so that it is
    not for proxies of the mesh. *)
Lemma ingress_chains_inv svc chains fc :
  getIngressFilterChains encodes statsWASMBytes mc settings lb svc = Ret chains → fc ∈ chains →
  chain_routes fc = [IngressRouteConfigName] ∧ chain_clusters fc = tracing_clusters (es_IsTracingEnabled settings) ∧
  (∃ fcm, fc_FilterChainMatch fc = Some fcm ∧ fcm_ApplicationProtocols fcm = [] ∧ fcm_PrefixRanges fcm = []) ∧
  ∃ ibs pol, GetIngressTrafficPolicy mc svc = Ret (ibs, Ok (Some pol)).
Proof.
  unfold getIngressFilterChains. intros ([ibs r] & Hpol & Hc)%bind_Ret Hfc. cbn [snd] in Hc.
  destruct r as [[pol|]|]; [|injection Hc as <-; by apply elem_of_nil in Hfc..].
  apply (elem_of_concatO _ _ _ fc Hc) in Hfc as (m & ys & Hm & Hys & Hfc).
  apply (elem_of_skipErr _ _ _ Hys) in Hfc. unfold getIngressFilterChainFromTrafficMatch in Hfc.
  apply tryE_Ok in Hfc as (f & [Hr Hcl]%managerFilter_names & Hfc).
  assert (∃ name fcm socket, fc = mkFilterChain name [f] (Some fcm) socket ∧ fcm_ApplicationProtocols fcm = [] ∧ fcm_PrefixRanges fcm = [])
    as (name & fcm & socket & -> & ? & ?).
  { case_decide; [injection Hfc as <-; by eexists _, _, _|]. case_decide; [|done].
    apply bind_Ret in Hfc as (ctx & _ & [= [-> _]%marshal_Ok]). by eexists _, _, _. }
  unfold chain_routes, chain_clusters. simpl. rewrite Hr, Hcl. split_and!; [done|by rewrite app_nil_r|by eexists|by exists ibs, pol].
Qed.
End chains.

(** ** Server-first ports *)

(** What a predicate says of a destination port. *)
Fixpoint port_matches (p : PortPredicate) (port : Z) : bool :=
  match p with
  | DestinationPortRange start end_ => bool_decide (start ≤ port < end_)
  | OrMatch rules => existsb (λ r, port_matches r port) rules
  end.

(** The inspectors are disabled exactly on the ports of server-first protocols. *)
Lemma server_first_exact matches port :
  (∀ m, m ∈ matches → 0 ≤ tm_DestinationPort m < 2 ^ 31 - 1) →
  (∃ p, getFilterMatchPredicateForTrafficMatches matches = Some p ∧ port_matches p port = true) ↔
  ∃ m, m ∈ matches ∧ tm_DestinationProtocol m = ProtocolTCPServerFirst ∧ tm_DestinationPort m = port.
Proof.
  intros Hrange. unfold getFilterMatchPredicateForTrafficMatches, getFilterMatchPredicateForPorts. set (ports := unique _).
  assert (∀ n, n ∈ ports ↔ ∃ m, m ∈ matches ∧ tm_DestinationProtocol m = ProtocolTCPServerFirst ∧ tm_DestinationPort m = n) as Hports.
  { intros n. unfold ports. rewrite elem_of_unique, list_elem_of_fmap. setoid_rewrite list_elem_of_filter. naive_solver. }
  rewrite <-Hports. assert (∀ n, n ∈ ports → port_matches (portRange n) port = true ↔ n = port) as Hone.
  { intros n (m & Hm & _ & <-)%Hports. specialize (Hrange m Hm). unfold portRange. simpl. rewrite bool_decide_eq_true, int64_id by (unfold is_int64; lia).
    unfold int32. rewrite !Z.mod_small by lia. lia. }
  destruct ports as [|n [|n' ns]]; cbn [fmap list_fmap].
  - split; [by intros (p & ? & _)|by intros ?%elem_of_nil].
  - rewrite list_elem_of_singleton. split; [intros (p & [= <-] & Hp)|intros ->; eexists; split; [done|]]; [symmetry|]; apply Hone; (done || by left).
  - split.
    + intros (p & [= <-] & Hp). change (existsb (λ r, port_matches r port) (portRange <$> n :: n' :: ns) = true) in Hp.
      apply existsb_exists in Hp as (r & (k & -> & Hk)%list_elem_of_In%list_elem_of_fmap & Hr). by apply Hone in Hr as <-.
    + intros Hin. eexists. split; [done|]. change (existsb (λ r, port_matches r port) (portRange <$> n :: n' :: ns) = true).
      apply existsb_exists. exists (portRange port). split; [by apply list_elem_of_In, list_elem_of_fmap_2|by apply Hone].
Qed.
