(* ===== verification/EnvoyMesh.v ===== *)
(** * pkg/sidecar/providers/envoy: the resources of a proxy together

    What the listeners of lds/ name is in the clusters of cds/, the routes of rds/ and the
    secrets of sds/; and the connection that the proxy of a client makes with the context of
    cds/ meets the chain of lds/ at the proxy of the service. *)

From S2P Require Import Prelude GoStrings GoTime Net Identity Service PolicyApi TrafficPolicy K8s K8sClient KubeProvider Smi PolicyClient Catalog.
From S2P Require Import CatalogEgress CatalogInbound CatalogOutbound CatalogIngress MeshConfig Certificate PipyServer EnvoyRbac EnvoyProxy EnvoyAds.
From S2P Require Import EnvoyRoute EnvoyXds EnvoyCds EnvoyLds.

#[local] Open Scope Z_scope.

(** ** Lists *)

Lemma concatO_app_Ret {A B} (f : A → outcome (list B)) l k r :
  concatO f (l ++ k) = Ret r → ∃ r1 r2, concatO f l = Ret r1 ∧ concatO f k = Ret r2 ∧ r = r1 ++ r2.
Proof.
  unfold concatO. rewrite mapO_app. intros (xss & (xs & Hxs & (ys & Hys & [= <-])%bind_Ret)%bind_Ret & [= <-])%bind_Ret.
  rewrite Hxs, Hys. eexists _, _. split; [done|]. split; [done|]. by rewrite join_app.
Qed.

(** A key that two turns of a loop produce is repeated. *)
Lemma concatO_repeated {A B K} (f : A → outcome (list B)) (key : B → K) l1 a l2 b l3 r k :
  concatO f (l1 ++ [a] ++ l2 ++ [b] ++ l3) = Ret r →
  (∀ x ys, x = a ∨ x = b → concatO f [x] = Ret ys → ∃ y, y ∈ ys ∧ key y = k) → ¬ NoDup (key <$> r).
Proof.
  intros (r1 & r' & _ & (ra & r'' & Ha & (r2 & r3' & _ & (rb & r3 & Hb & _ & ->)%concatO_app_Ret & ->)%concatO_app_Ret & ->)%concatO_app_Ret & ->)%concatO_app_Ret Hk.
  destruct (Hk a ra) as (y & Hy & <-); [by left|done|]. destruct (Hk b rb) as (z & Hz & Ez); [by right|done|].
  rewrite !fmap_app. intros (_ & _ & Hnd)%NoDup_app. apply NoDup_app in Hnd as (_ & Hnd & _). apply (Hnd (key y)); [by apply list_elem_of_fmap_2|].
  rewrite !elem_of_app, <-Ez. right. left. by apply list_elem_of_fmap_2.
Qed.

Lemma elem_of_twice {A} (l : list A) x y :
  x ∈ l → y ∈ l → x ≠ y → ∃ l1 a l2 b l3, l = l1 ++ [a] ++ l2 ++ [b] ++ l3 ∧ (a = x ∧ b = y ∨ a = y ∧ b = x).
Proof.
  intros (l1 & l2 & ->)%list_elem_of_split Hy Hne. rewrite elem_of_app, elem_of_cons in Hy. destruct Hy as [Hy|[->|Hy]]; [|done|].
  - apply list_elem_of_split in Hy as (k1 & k2 & ->). exists k1, y, k2, x, l2. rewrite <-(assoc_L (++)). auto.
  - apply list_elem_of_split in Hy as (k1 & k2 & ->). exists l1, x, k1, y, k2. auto.
Qed.

(** ** Where a chain comes from *)

Section resources.
Context `{RangeOrder} (encodesC : CdsMessage → bool) (encodesL : LdsMessage → bool) (statsWASMBytes : string).
Context (mc : MeshCatalog) (domain : string) (Matches : labels → labels → bool).
Context (hashMatch : TrafficMatch → result string Z) (hashCluster : EgressClusterConfig → result string Z).
Context (settings : EnvoySettings) (featureFlags : FeatureFlags).

Abbreviation cds := (cds_NewResponse encodesC mc domain Matches hashMatch hashCluster settings).
Abbreviation lds := (lds_NewResponse encodesL statsWASMBytes mc domain Matches hashMatch hashCluster settings).
Abbreviation rds := (rds_NewResponse mc domain Matches hashMatch hashCluster featureFlags).
Abbreviation builder := (newListenerBuilder mc settings).
Abbreviation outboundPolicyOf id := (GetOutboundMeshTrafficPolicy mc domain hashMatch hashCluster id).
Abbreviation egressPolicyOf id := (GetEgressTrafficPolicy mc hashMatch hashCluster id).
Abbreviation servicesOf proxy := (envoy_ListProxyServices Matches (mc_kubeController mc) proxy).
Abbreviation podOf proxy := (ctl_GetPodForProxy (mc_kubeController mc) (K8s.mkProxy (p_UUID proxy) (p_Identity proxy))).

Inductive chain_origin (proxy : Proxy) (fc : FilterChain) : Prop :=
| from_outbound chains :
    getOutboundFilterChainPerUpstream encodesL statsWASMBytes mc domain hashMatch hashCluster settings (builder proxy) = Ret chains →
    fc ∈ chains → chain_origin proxy fc
| from_passthrough :
    cfg_IsEgressEnabled (mc_configurator mc) = true → getDefaultPassthroughFilterChain encodesL = Ok fc → chain_origin proxy fc
| from_egress p chains :
    egressPolicyOf (p_Identity proxy) = Ret (Ok (Some p)) →
    getEgressFilterChainsForMatches encodesL statsWASMBytes settings (builder proxy) (etp_TrafficMatches p) = Ret chains →
    fc ∈ chains → chain_origin proxy fc
| from_inbound svcs ipol chains :
    servicesOf proxy = Ret (Ok svcs) → GetInboundMeshTrafficPolicy mc domain (p_Identity proxy) svcs = Ret ipol →
    getInboundMeshFilterChains encodesL statsWASMBytes mc settings (builder proxy) (imtp_TrafficMatches ipol) = Ret chains →
    fc ∈ chains → chain_origin proxy fc
| from_ingress svcs svc chains :
    servicesOf proxy = Ret (Ok svcs) → svc ∈ svcs →
    getIngressFilterChains encodesL statsWASMBytes mc settings (builder proxy) svc = Ret chains → fc ∈ chains → chain_origin proxy fc
| from_metrics pod :
    podOf proxy = Ret (Ok pod) → IsMetricsEnabled pod = true → chain_clusters fc = [SidecarMetricsCluster] → chain_routes fc = [] →
    chain_origin proxy fc.

Lemma outbound_listener_origin proxy l fc :
  newOutboundListener encodesL statsWASMBytes mc domain hashMatch hashCluster settings (builder proxy) = Ret (Ok (Some l)) →
  fc ∈ listener_chains l → chain_origin proxy fc.
Proof.
  unfold newOutboundListener. intros (chains & Hchains & Hl)%bind_Ret Hfc. apply tryE_Ok in Hl as (dflt & [= Hd] & Hl).
  apply bind_Ret in Hl as ([echains lfs] & He & [= Hl]).
  assert (fc ∈ chains ++ echains ∨ dflt = Some fc) as Hin.
  { cbn [li_FilterChains li_DefaultFilterChain] in Hl. clear -Hl Hfc.
    destruct (chains ++ echains) as [|c cs], dflt as [d|]; try discriminate Hl; injection Hl as <-; unfold listener_chains in Hfc;
      cbn [li_FilterChains li_DefaultFilterChain option_list] in Hfc; rewrite elem_of_app in Hfc;
      (destruct Hfc as [?|Hfc]; [by left|]); [apply list_elem_of_singleton in Hfc as ->; by right..|by apply elem_of_nil in Hfc]. }
  destruct Hin as [[Hfc'|Hfc']%elem_of_app| ->].
  - by eapply from_outbound.
  - destruct (cfg_EnableEgressPolicy (mc_configurator mc)); [|injection He as <- _; by apply elem_of_nil in Hfc'].
    apply bind_Ret in He as (epol & Hepol & He). apply bind_Ret in He as ([ch ms] & Hch & He).
    apply bind_Ret in He as (opol & _ & [= <- _]). destruct epol as [[p|]|]; [|injection Hch as <- _; by apply elem_of_nil in Hfc'..].
    apply bind_Ret in Hch as (ch' & Hch' & [= <- _]). by eapply from_egress.
  - destruct (cfg_IsEgressEnabled (mc_configurator mc)) eqn:Heg; [|done]. destruct (getDefaultPassthroughFilterChain encodesL) as [c|] eqn:Ec; [|done].
    injection Hd as ->. by eapply from_passthrough.
Qed.

Lemma listener_chain_origin proxy listeners l fc :
  lds proxy = Ret (Ok listeners) → l ∈ listeners → fc ∈ listener_chains l → chain_origin proxy fc.
Proof.
  unfold lds_NewResponse. intros (ol & Hol & Hr)%bind_Ret Hl Hfc. apply bind_Ret in Hr as ([svcs|] & Hsvcs & Hr); [|done].
  apply bind_Ret in Hr as (ipol & Hipol & Hr). apply bind_Ret in Hr as (mesh & Hmesh & Hr). apply bind_Ret in Hr as (ingress & Hingress & Hr).
  apply bind_Ret in Hr as (pod & Hpod & [= <-]). rewrite !elem_of_app in Hl. destruct Hl as [Hl|[Hl|Hl]].
  - destruct ol as [[ol|]|]; [|by apply elem_of_nil in Hl..]. apply list_elem_of_singleton in Hl as ->. by eapply outbound_listener_origin.
  - assert (fc ∈ mesh ++ ingress) as [Hin|Hin]%elem_of_app.
    { destruct (mesh ++ ingress) as [|c cs]; [by apply elem_of_nil in Hl|]. apply list_elem_of_singleton in Hl as ->.
      unfold listener_chains in Hfc. simpl in Hfc. by rewrite app_nil_r in Hfc. }
    + by eapply from_inbound.
    + apply (elem_of_concatO _ _ _ fc Hingress) in Hin as (svc & chains & Hsvc & Hc & Hin). by eapply from_ingress.
  - destruct pod as [pod|]; [|by apply elem_of_nil in Hl]. destruct (IsMetricsEnabled pod) eqn:Em; [|by apply elem_of_nil in Hl].
    unfold buildPrometheusListener in Hl. destruct (networkFilter _ _ _) as [f|] eqn:Ef; [|by apply elem_of_nil in Hl].
    apply networkFilter_Ok in Ef as ->. apply list_elem_of_singleton in Hl as ->. unfold listener_chains in Hfc. simpl in Hfc.
    apply list_elem_of_singleton in Hfc as ->. by eapply from_metrics.
Qed.

(** ** The route configurations *)

Lemma merge_nonempty st original latest st' out :
  MergeInboundPolicies st original latest = Some (st', out) → original ≠ [] ∨ latest ≠ [] → out ≠ [].
Proof.
  revert st original. induction latest as [|l latest IH]; intros st original; simpl; [intros [= _ <-]; naive_solver|].
  destruct (merge_policy_st st original l false) as [[st1 found]|] eqn:Em; [|done]. simpl. intros Hm _. apply (IH _ _ Hm). left.
  destruct found; [|by destruct original]. destruct original; [by injection Em|done].
Qed.

(** An ingress policy has routes. *)
Lemma ingress_routes svc ibs pol : GetIngressTrafficPolicy mc svc = Ret (ibs, Ok (Some pol)) → ∃ p, igp_HTTPRoutePolicies pol = [p].
Proof.
  unfold GetIngressTrafficPolicy. destruct (cfg_EnableIngressBackendPolicy _); [|done].
  destruct (pol_GetIngressBackendPolicy _ _) as [ib|]; [|done]. intros (r & _ & [= Hr])%bind_Ret.
  destruct r as [[[|m ms] ps]|[]]; simplify_eq/=. eauto.
Qed.

Lemma ingressPolicies_nonempty svcs svc ibs pol policies :
  svc ∈ svcs → GetIngressTrafficPolicy mc svc = Ret (ibs, Ok (Some pol)) → ingressPolicies mc svcs = Ret policies → policies ≠ [].
Proof.
  intros Hsvc Hpol. unfold ingressPolicies. intros ([st locs] & Hm & Hd)%bind_Ret. simpl in Hd.
  destruct (mapM _ locs) as [ps|] eqn:Eps; [|done]. injection Hd as <-. apply mapM_Some, Forall2_length in Eps.
  assert (locs ≠ []) as Hne; [|by destruct locs, ps]. clear ps Eps. apply list_elem_of_split in Hsvc as (l1 & l2 & ->).
  rewrite foldO_app in Hm. apply bind_Ret in Hm as (acc1 & _ & Hm). simpl in Hm. apply bind_Ret in Hm as (acc2 & Hstep & Hm).
  assert (acc2.2 ≠ []) as Hne.
  { unfold mergeIngress in Hstep. rewrite Hpol in Hstep. cbn [mbind outcome_bind snd] in Hstep.
    destruct (ingress_routes _ _ _ Hpol) as [p Hp]. rewrite Hp in Hstep. cbn [newPolicies] in Hstep.
    destruct (newRules acc1.1 (itp_Rules p)) as [st1 rules]. unfold deref in Hstep.
    destruct (MergeInboundPolicies _ _ _) as [[st2 out]|] eqn:Em; [|done]. injection Hstep as <-. eapply merge_nonempty; [exact Em|by right]. }
  clear Hstep. eapply (foldO_inv _ (λ acc, acc.2 ≠ []) acc2 l2 (st, locs)); [|done|done].
  intros acc x acc' _ Ha. unfold mergeIngress. intros ([ibs' r] & _ & Hr)%bind_Ret. cbn [snd] in Hr. destruct r as [[pol'|]|]; [|by injection Hr as <-..].
  destruct (newPolicies _ _) as [st1 latest]. unfold deref in Hr.
  destruct (MergeInboundPolicies _ _ _) as [[st2 out]|] eqn:Em; [|done]. injection Hr as <-. eapply merge_nonempty; [exact Em|by left].
Qed.

Record rds_names (proxy : Proxy) (names : list string) (svcs : list MeshService) (ipol : InboundMeshTrafficPolicy)
    (opol : OutboundMeshTrafficPolicy) (epol : result string (option EgressTrafficPolicy)) : Prop := {
  rn_inbound : ∀ port, is_Some (imtp_HTTPRouteConfigsPerPort ipol !! port) → GetInboundMeshRouteConfigNameForPort port ∈ names;
  rn_outbound : ∀ port, is_Some (omtp_HTTPRouteConfigsPerPort opol !! port) → GetOutboundMeshRouteConfigNameForPort port ∈ names;
  rn_egress : ∀ p port, epol = Ok (Some p) → is_Some (etp_HTTPRouteConfigsPerPort p !! port) → GetEgressRouteConfigNameForPort port ∈ names;
  rn_ingress : ∀ svc ibs pol, svc ∈ svcs → GetIngressTrafficPolicy mc svc = Ret (ibs, Ok (Some pol)) → IngressRouteConfigName ∈ names;
}.

#[local] Arguments rn_inbound {_ _ _ _ _ _} _.
#[local] Arguments rn_outbound {_ _ _ _ _ _} _.
#[local] Arguments rn_egress {_ _ _ _ _ _} _.
#[local] Arguments rn_ingress {_ _ _ _ _ _} _.

Lemma rds_response proxy req rcs svcs ipol opol epol :
  rds proxy req = Ret (Ok rcs) → servicesOf proxy = Ret (Ok svcs) → GetInboundMeshTrafficPolicy mc domain (p_Identity proxy) svcs = Ret ipol →
  outboundPolicyOf (p_Identity proxy) = Ret opol → egressPolicyOf (p_Identity proxy) = Ret epol →
  rds_names proxy (rc_Name <$> rcs) svcs ipol opol epol.
Proof.
  unfold rds_NewResponse. intros Hr Hsvcs Hipol Hopol Hepol. rewrite Hsvcs in Hr. cbn [mbind outcome_bind] in Hr. rewrite Hipol in Hr.
  cbn [mbind outcome_bind] in Hr. rewrite Hopol in Hr. cbn [mbind outcome_bind] in Hr. apply bind_Ret in Hr as (ing & Hing & Hr).
  rewrite Hepol in Hr. cbn [mbind outcome_bind] in Hr.
  match type of Hr with Ret (Ok match req with Some r => ensureRDSRequestCompletion r ?l | None => _ end) = _ =>
    assert (rc_Name <$> l ⊆ rc_Name <$> rcs) as Hsub;
    [injection Hr as <-; destruct req; [intros n (rc & -> & Hrc)%list_elem_of_fmap; apply list_elem_of_fmap_2, elem_of_app; by left|done]|clear Hr] end.
  rewrite !fmap_app in Hsub. split.
  - intros port [itps Hp]. apply Hsub. rewrite elem_of_app. left. unfold BuildInboundMeshRouteConfiguration. rewrite <-list_fmap_compose. apply list_elem_of_fmap.
    exists (port, itps). split; [done|by apply elem_of_range_map].
  - intros port [ps Hp]. apply Hsub. rewrite !elem_of_app. right; left. unfold BuildOutboundMeshRouteConfiguration. rewrite <-list_fmap_compose. apply list_elem_of_fmap.
    exists (port, ps). split; [done|by apply elem_of_range_map].
  - intros p port -> [cs Hp]. apply Hsub. rewrite !elem_of_app. right; right; right. unfold BuildEgressRouteConfiguration. rewrite <-list_fmap_compose. apply list_elem_of_fmap.
    exists (port, cs). split; [done|by apply elem_of_range_map].
  - intros svc ibs pol Hsvc Hpol. apply Hsub. rewrite !elem_of_app. right; right; left. unfold BuildIngressConfiguration.
    rewrite decide_False by by eapply ingressPolicies_nonempty. by left.
Qed.

(** ** Every reference resolves *)

(** A protocol that is HTTP for the listeners is not TCP for the catalog. *)
Lemma http_not_tcp svc : to_lower (ms_Protocol svc) ∈ [ProtocolHTTP; ProtocolGRPC] → is_tcp svc = false.
Proof.
  intros Hp. unfold is_tcp. apply orb_false_iff. split; apply bool_decide_eq_false; intros E; rewrite E in Hp; vm_compute in Hp;
    apply elem_of_two in Hp as [?|?]; done.
Qed.

(** The outbound policy: the services, their matches, clusters and routes. *)
Lemma outbound_policy_shape id opol :
  outboundPolicyOf id = Ret opol →
  ∃ svcs, ListOutboundServicesForIdentity mc id = Ret svcs ∧ omtp_TrafficMatches opol = svcs ≫= matchesFor mc ∧
    (∀ svc, svc ∈ svcs → ∃ c, c ∈ omtp_ClustersConfigs opol ∧ mcc_Name c = SidecarClusterName svc) ∧
    ∀ svc, svc ∈ svcs → is_tcp svc = false → is_Some (omtp_HTTPRouteConfigsPerPort opol !! ms_Port svc).
Proof.
  unfold GetOutboundMeshTrafficPolicy. intros (sa & _ & Hpol)%bind_Ret. apply bind_Ret in Hpol as (svcs & Hsvcs & Hpol).
  apply bind_Ret in Hpol as (acc & Hfold & [= <-]). apply outbound_fold in Hfold as ((cs & Hcs & HF) & Hm & Hr).
  exists svcs. split_and!; [done|done| |].
  - intros svc Hsvc. apply list_elem_of_lookup in Hsvc as [i Hi]. destruct (Forall2_lookup_l _ _ _ _ _ HF Hi) as (c & Hc & uts & -> & _).
    exists (outboundCluster mc svc uts). split; [|done]. cbn [omtp_ClustersConfigs]. rewrite Hcs. by eapply list_elem_of_lookup_2.
  - intros svc Hsvc Htcp. destruct (Hr (ms_Port svc)) as (ps & E & HF'). cbn [omtp_HTTPRouteConfigsPerPort].
    destruct (oa_routes acc !! ms_Port svc) as [ps'|] eqn:El; [done|]. cbn [oa_routes default] in E. rewrite lookup_empty in E. simpl in E. subst ps. apply Forall2_nil_inv_r in HF'.
    exfalso. apply (elem_of_nil svc). rewrite <-HF'. by apply list_elem_of_filter.
Qed.

(** A cluster is configured, or is one of a backend of a split. *)
Definition split_backend (id : ServiceIdentity) (name : string) : Prop :=
  ∃ svcs svc split b, ListOutboundServicesForIdentity mc id = Ret svcs ∧ svc ∈ svcs ∧
    split ∈ spec_ListTrafficSplits (mc_meshSpec mc) [WithTrafficSplitApexService svc] ∧ b ∈ ts_Backends split ∧ name ∈ backendClusters mc svc b.

(** A chain whose names are among those of the clusters and of the routes. *)
Definition chain_resolves (id : ServiceIdentity) (clusters routes : list string) (fc : FilterChain) : Prop :=
  (∀ n, n ∈ chain_routes fc → n ∈ routes) ∧ ∀ n, n ∈ chain_clusters fc → n ∈ clusters ∨ split_backend id n.

Lemma tracing_resolves (names : list string) (n : string) :
  (es_IsTracingEnabled settings = true → SidecarTracingCluster ∈ names) → n ∈ tracing_clusters (es_IsTracingEnabled settings) → n ∈ names.
Proof.
  unfold tracing_clusters. destruct (es_IsTracingEnabled settings); [|by intros _ ?%elem_of_nil]. intros Hn ->%list_elem_of_singleton. auto.
Qed.

Lemma outbound_chain_resolves proxy chains fc clusters rcs svcs ipol opol epol :
  cds_names mc domain Matches hashMatch hashCluster settings proxy clusters opol svcs ipol epol → rds_names proxy rcs svcs ipol opol epol →
  getOutboundFilterChainPerUpstream encodesL statsWASMBytes mc domain hashMatch hashCluster settings (builder proxy) = Ret chains →
  fc ∈ chains → chain_resolves (p_Identity proxy) clusters rcs fc.
Proof.
  intros Hc Hr Hch Hfc. destruct (outbound_policy_shape _ _ (cn_opol Hc)) as (svcs' & Hsvcs & Hm & Hcl & Hrt).
  edestruct (outbound_chains_inv encodesL) as (m & f & fcm & Hin & _ & -> & Hf); [exact Hch|done|exact (cn_opol Hc)|].
  rewrite Hm in Hin. apply list_elem_of_bind in Hin as (svc & Hin & Hsvc). unfold matchesFor in Hin. apply list_elem_of_fmap in Hin as (rm & -> & Hrm).
  unfold chain_resolves, chain_routes, chain_clusters. cbn [fc_Filters mbind list_bind]. rewrite !app_nil_r.
  destruct Hf as [[Hp Hf]|[Hp Hf]].
  - apply managerFilter_names in Hf as [-> ->]. split; [|intros n Hn; left; eapply tracing_resolves; [apply Hc|done]].
    intros n ->%list_elem_of_singleton. eapply (rn_outbound Hr). by apply Hrt, http_not_tcp.
  - apply outbound_tcp_names in Hf as [-> ->]. split; [by intros n ?%elem_of_nil|]. intros n (wc & -> & Hwc)%list_elem_of_fmap.
    destruct (routeMatchesFor_clusters mc svc rm wc Hrm Hwc) as [[_ ->]|(split & b & ? & ? & ?)]; [left|right].
    + destruct (Hcl svc Hsvc) as (c & Hcc & <-). by apply (cn_outbound Hc).
    + by exists svcs', svc, split, b.
Qed.

Lemma inbound_chain_resolves proxy chains fc clusters rcs svcs ipol opol epol :
  cds_names mc domain Matches hashMatch hashCluster settings proxy clusters opol svcs ipol epol → rds_names proxy rcs svcs ipol opol epol →
  getInboundMeshFilterChains encodesL statsWASMBytes mc settings (builder proxy) (imtp_TrafficMatches ipol) = Ret chains →
  fc ∈ chains → chain_resolves (p_Identity proxy) clusters rcs fc.
Proof.
  intros Hc Hr Hch Hfc. apply (inbound_chains_inv _ _ _ _ _ _ _ _ Hch) in Hfc as (m & Hm & Hfc%inbound_chain_names).
  pose proof (cn_ipol Hc) as Hipol.
  destruct (GetInboundMeshTrafficPolicy_integrity mc domain _ _ _ Hipol) as (Hcl & Hms & _).
  apply Hms in Hm as (svc & uts & Hsvc & _ & ->). assert (svc ∈ getUpstreamServicesIncludeApex mc svcs) as Hapex by (apply elem_of_includeApex; eauto).
  destruct Hfc as [(Hp & Er & Ec)|(_ & Er & Ec)]; unfold chain_resolves; rewrite Er, Ec.
  - split; [|intros n Hn; left; eapply tracing_resolves; [apply Hc|done]]. intros n ->%list_elem_of_singleton. apply Hr.
    destruct (inbound_routes_intro mc domain _ _ _ svc Hipol Hapex) as (? & ? & itps & _ & Hi & _); [by apply http_not_tcp|]. by exists itps.
  - split; [by intros n ?%elem_of_nil|]. intros n ->%list_elem_of_singleton. left.
    apply (cn_inbound Hc (inboundCluster svc)). rewrite Hcl. by apply list_elem_of_fmap_2.
Qed.

Lemma egress_chain_resolves proxy p chains fc clusters rcs svcs ipol opol epol :
  hash_faithful hashMatch hashCluster →
  cds_names mc domain Matches hashMatch hashCluster settings proxy clusters opol svcs ipol epol → rds_names proxy rcs svcs ipol opol epol →
  epol = Ok (Some p) → getEgressFilterChainsForMatches encodesL statsWASMBytes settings (builder proxy) (etp_TrafficMatches p) = Ret chains →
  fc ∈ chains → chain_resolves (p_Identity proxy) clusters rcs fc.
Proof.
  intros Hf Hc Hr -> Hch Hfc. apply (egress_chains_inv _ _ _ _ _ _ _ Hch) in Hfc as (m & Hm & Hfc).
  destruct (GetEgressTrafficPolicy_integrity mc _ _ _ _ Hf (cn_epol Hc)) as [H1 _ _ H4].
  specialize (H4 m Hm). destruct Hfc as [(Hp & Er & Ec)|(Hp & Er & Ec)]; unfold chain_resolves; rewrite Er, Ec.
  - split; [|intros n Hn; left; eapply tracing_resolves; [apply Hc|done]]. intros n ->%list_elem_of_singleton.
    rewrite decide_True in H4 by by rewrite Hp. by eapply (rn_egress Hr).
  - split; [by intros n ?%elem_of_nil|]. intros n ->%list_elem_of_singleton. left.
    rewrite decide_False in H4 by (apply elem_of_three in Hp as [->|[->| ->]]; by vm_compute).
    destruct (H1 m Hm H4) as (c & Hcc & <- & _ & Hh). eapply (cn_egress Hc); [done..|by left].
Qed.

(** C9. Every reference resolves: the listeners, clusters and routes that a proxy is sent in
    one state of the cluster fit together.  No two clusters have one name, and for every
    filter chain of every listener, the route configuration that it takes its routes from is
    in the response for routes, and the clusters that it proxies to, scrapes or sends spans
    to are in the response for clusters; or they are clusters of a backend of a traffic
    split, for which there is a cluster only when the workload may reach the backend. *)
Theorem listeners_resolve (proxy : Proxy) (req : option DiscoveryRequest) (clusters : list Cluster) (listeners : list Listener)
    (rcs : list RouteConfiguration) :
  hash_faithful hashMatch hashCluster →
  cds proxy = Ret (Ok clusters) → lds proxy = Ret (Ok listeners) → rds proxy req = Ret (Ok rcs) →
  NoDup (cl_Name <$> clusters) ∧
  ∀ l fc, l ∈ listeners → fc ∈ listener_chains l →
    (∀ name, name ∈ chain_routes fc → name ∈ rc_Name <$> rcs) ∧
    (∀ name, name ∈ chain_clusters fc → name ∈ cl_Name <$> clusters ∨ split_backend (p_Identity proxy) name).
Proof.
  intros Hf Hcds Hlds Hrds. apply cds_response in Hcds as (opol & svcs & ipol & epol & Hc). split; [apply Hc|]. intros l fc Hl Hfc.
  pose proof (rds_response _ _ _ _ _ _ _ Hrds (cn_svcs Hc) (cn_ipol Hc)
    (cn_opol Hc) (cn_epol Hc)) as Hr.
  destruct (listener_chain_origin _ _ _ _ Hlds Hl Hfc) as [chains Hch Hin|Heg Hp|p chains Hp Hch Hin|svcs' ipol' chains Hs Hi Hch Hin
    |svcs' svc chains Hs Hsvc Hch Hin|pod Hpod Hm Ecl Er].
  - by eapply outbound_chain_resolves.
  - unfold getDefaultPassthroughFilterChain in Hp. destruct (networkFilter _ _ _) eqn:En; [|done]. apply networkFilter_Ok in En as ->.
    injection Hp as <-. split; [by intros n ?%elem_of_nil|]. intros n ->%list_elem_of_singleton. left. by apply Hc.
  - rewrite (cn_epol Hc) in Hp. injection Hp as ->. by eapply egress_chain_resolves.
  - rewrite (cn_svcs Hc) in Hs. injection Hs as <-. rewrite (cn_ipol Hc) in Hi. injection Hi as <-.
    by eapply inbound_chain_resolves.
  - rewrite (cn_svcs Hc) in Hs. injection Hs as <-.
    destruct (ingress_chains_inv _ _ _ _ _ _ _ _ Hch Hin) as (-> & -> & _ & ibs & pol & Hpol). split.
    + intros n ->%list_elem_of_singleton. by eapply (rn_ingress Hr).
    + intros n Hn. left. eapply tracing_resolves; [apply Hc|done].
  - rewrite Ecl, Er. split; [by intros n ?%elem_of_nil|]. intros n ->%list_elem_of_singleton. left. by eapply (cn_metrics Hc).
Qed.

(** ** The inbound listener *)

Lemma inbound_listener proxy listeners svcs ipol :
  lds proxy = Ret (Ok listeners) → servicesOf proxy = Ret (Ok svcs) → GetInboundMeshTrafficPolicy mc domain (p_Identity proxy) svcs = Ret ipol →
  ∃ mesh ingress, getInboundMeshFilterChains encodesL statsWASMBytes mc settings (builder proxy) (imtp_TrafficMatches ipol) = Ret mesh ∧
    concatO (getIngressFilterChains encodesL statsWASMBytes mc settings (builder proxy)) svcs = Ret ingress ∧
    (mesh ++ ingress ≠ [] → ∃ l, l ∈ listeners ∧ li_Name l = InboundListenerName ∧ li_FilterChains l = mesh ++ ingress).
Proof.
  unfold lds_NewResponse. intros (ol & _ & Hr)%bind_Ret Hsvcs Hipol. rewrite Hsvcs in Hr. cbn [mbind outcome_bind] in Hr.
  cbn [newListenerBuilder lb_serviceIdentity] in Hr. rewrite Hipol in Hr. cbn [mbind outcome_bind] in Hr.
  apply bind_Ret in Hr as (mesh & Hmesh & Hr). apply bind_Ret in Hr as (ingress & Hing & Hr). apply bind_Ret in Hr as (pod & _ & [= <-]).
  exists mesh, ingress. split_and!; [done..|]. intros Hne. exists (with_FilterChains (newInboundListener encodesL) (mesh ++ ingress)).
  split; [|done]. rewrite !elem_of_app. right. left. destruct (mesh ++ ingress); [done|]. by left.
Qed.

(** The settings of a service have a rate limit with a unit that is known. *)
Definition service_limit_ok (svc : MeshService) : Prop :=
  ∀ uts, pol_GetUpstreamTrafficSetting (mc_policyController mc) (by_service svc) = Ret uts → limit_ok (inboundMatch svc uts).

(** A service that gets a chain. *)
Definition has_chain (svc : MeshService) : Prop := to_lower (ms_Protocol svc) ∈ meshProtocols ∧ service_limit_ok svc.

Lemma inbound_matches_twice id svcs ipol svc svc' :
  GetInboundMeshTrafficPolicy mc domain id svcs = Ret ipol → svc ∈ svcs → svc' ∈ svcs → svc ≠ svc' →
  ∃ l1 a l2 b l3, imtp_TrafficMatches ipol = l1 ++ [a] ++ l2 ++ [b] ++ l3 ∧
    ∀ m, m = a ∨ m = b → ∃ s uts, (s = svc ∨ s = svc') ∧ pol_GetUpstreamTrafficSetting (mc_policyController mc) (by_service s) = Ret uts ∧ m = inboundMatch s uts.
Proof.
  intros Hpol Hs Hs' Hne. apply GetInbound_closed in Hpol as (ts & utss & _ & Hutss & _ & -> & _).
  destruct (elem_of_zip_setting_2 mc _ _ svc Hutss) as (u & Hz & Hu); [apply elem_of_includeApex; eauto|].
  destruct (elem_of_zip_setting_2 mc _ _ svc' Hutss) as (u' & Hz' & Hu'); [apply elem_of_includeApex; eauto|].
  destruct (elem_of_twice _ _ _ Hz Hz') as (z1 & a & z2 & b & z3 & -> & Hab); [congruence|].
  rewrite !bind_app. eexists _, (inboundMatch a.1 a.2), _, (inboundMatch b.1 b.2), _. split.
  - destruct Hab as [[-> ->]|[-> ->]]; cbn [mbind list_bind fst snd app]; rewrite !bool_decide_true by (by apply elem_of_list_to_set); reflexivity.
  - intros m Hm. destruct Hab as [[-> ->]|[-> ->]], Hm as [->| ->]; simpl; eauto 10.
Qed.

(** C32. A target port twice: a service of the workload with two ports that have the same
    target port gets two filter chains for that port with the same criteria in the inbound
    listener, for which Envoy documents that it refuses the whole listener: then the
    workload takes no traffic of the mesh, on any port. *)
Theorem same_target_port_refused `{!Encoder encodesL} (proxy : Proxy) (listeners : list Listener) (svcs : list MeshService) (svc svc' : MeshService) :
  lds proxy = Ret (Ok listeners) → servicesOf proxy = Ret (Ok svcs) → svc ∈ svcs → svc' ∈ svcs → svc ≠ svc' →
  ServerName svc = ServerName svc' → ms_TargetPort svc = ms_TargetPort svc' → has_chain svc → has_chain svc' →
  ∃ l, l ∈ listeners ∧ li_Name l = InboundListenerName ∧ ¬ NoDup (fc_FilterChainMatch <$> li_FilterChains l).
Proof.
  intros Hlds Hsvcs Hs Hs' Hne Hn Hp [Hpr Hl] [Hpr' Hl'].
  assert (∃ ipol, GetInboundMeshTrafficPolicy mc domain (p_Identity proxy) svcs = Ret ipol) as [ipol Hipol].
  { revert Hlds. unfold lds_NewResponse. intros (ol & _ & Hr)%bind_Ret. rewrite Hsvcs in Hr. cbn [mbind outcome_bind] in Hr.
    apply bind_Ret in Hr as (ipol & Hipol & _). by exists ipol. }
  destruct (inbound_listener _ _ _ _ Hlds Hsvcs Hipol) as (mesh & ingress & Hmesh & _ & Hlist).
  destruct (inbound_matches_twice _ _ _ _ _ Hipol Hs Hs' Hne) as (l1 & a & l2 & b & l3 & Em & Hab). rewrite Em in Hmesh.
  assert (¬ NoDup (fc_FilterChainMatch <$> mesh)) as Hdup.
  { eapply (concatO_repeated _ _ _ _ _ _ _ _ (Some (inboundChainMatch (inboundMatch svc None))) Hmesh). intros m ys Hm Hys.
    destruct (Hab m Hm) as (s & uts & Hsv & Hu & ->). destruct (inbound_chain_built encodesL statsWASMBytes mc settings (builder proxy) (inboundMatch s uts) ys Hys)
      as (fc & Hfc & Efc); [by destruct Hsv as [->| ->]|destruct Hsv as [->| ->]; auto|].
    exists fc. split; [done|]. rewrite Efc. destruct Hsv as [->| ->]; [done|]. unfold inboundChainMatch, inboundMatch. simpl. by rewrite Hn, Hp. }
  destruct Hlist as (l & Hl0 & Hnm & Hch); [by destruct mesh; [destruct Hdup; constructor|]|].
  exists l. split_and!; [done..|]. rewrite Hch, fmap_app. by intros [? _]%NoDup_app.
Qed.

(** ** Two splits of one service *)

Lemma outbound_chain_built `{!Encoder encodesL} lb m ys :
  concatO (λ trafficMatch,
    let protocol := to_lower (tm_DestinationProtocol trafficMatch) in
    if decide (protocol = ProtocolHTTP ∨ protocol = ProtocolGRPC)
    then skipErr (getOutboundHTTPFilterChainForService encodesL statsWASMBytes settings lb trafficMatch)
    else if decide (protocol = ProtocolTCP ∨ protocol = ProtocolTCPServerFirst) then skipErr (getOutboundTCPFilterChainForService encodesL trafficMatch)
    else Ret []) [m] = Ret ys →
  to_lower (tm_DestinationProtocol m) ∈ [ProtocolHTTP; ProtocolGRPC] → tm_DestinationIPRanges m ≠ [] →
  ∃ fc, fc ∈ ys ∧ fc_FilterChainMatch fc = result_value (getOutboundFilterChainMatchForService m).
Proof.
  intros (xss & Hx & [= <-])%bind_Ret Hp%elem_of_two Hr. cbn [mapO] in Hx. apply bind_Ret in Hx as (l & Hl & [= <-]).
  cbn [mjoin list_join]. rewrite app_nil_r. cbn zeta in Hl. rewrite decide_True in Hl by done. revert Hl.
  unfold getOutboundHTTPFilterChainForService, outboundFilterChain, getOutboundHTTPFilter, connManagerFilter, getOutboundFilterChainMatchForService.
  edestruct (build_total encodesL statsWASMBytes) as [mgr ->]. cbn [tryE mbind outcome_bind]. unfold networkFilter, marshal. rewrite encoder_ok.
  rewrite decide_False by done. cbn [tryE mbind outcome_bind skipErr]. intros [= <-]. eexists. split; [by left|done].
Qed.

(** Two splits of one service: when two traffic splits have an HTTP service as their apex,
    a workload that may reach the service gets two filter chains with the same criteria in
    the outbound listener, for which Envoy documents that it refuses the whole listener. *)
Theorem two_splits_refused `{!Encoder encodesL} (proxy : Proxy) (listeners : list Listener) (svcs : list MeshService) (svc : MeshService)
    (split1 split2 : TrafficSplit) (splits : list TrafficSplit) :
  lds proxy = Ret (Ok listeners) → ListOutboundServicesForIdentity mc (p_Identity proxy) = Ret svcs → svc ∈ svcs →
  to_lower (ms_Protocol svc) ∈ [ProtocolHTTP; ProtocolGRPC] → getDNSResolvableServiceEndpoints mc svc ≠ [] →
  spec_ListTrafficSplits (mc_meshSpec mc) [WithTrafficSplitApexService svc] = split1 :: split2 :: splits →
  ∃ l, l ∈ listeners ∧ li_Name l = OutboundListenerName ∧ ¬ NoDup (fc_FilterChainMatch <$> li_FilterChains l).
Proof.
  intros Hlds Hsvcs Hsvc Hp Hne Hsp. unfold lds_NewResponse in Hlds. apply bind_Ret in Hlds as (ol & Hol & Hr).
  assert (∃ l, ol = Ok (Some l) ∧ li_Name l = OutboundListenerName ∧ ¬ NoDup (fc_FilterChainMatch <$> li_FilterChains l)) as (l & -> & Hn & Hdup).
  2:{ exists l. split; [|done]. apply bind_Ret in Hr as ([ps|] & _ & Hr); [|done]. do 4 (apply bind_Ret in Hr as (? & _ & Hr)).
      injection Hr as <-. by left. }
  clear Hr. unfold newOutboundListener in Hol. apply bind_Ret in Hol as (chains & Hch & Hl).
  assert (¬ NoDup (fc_FilterChainMatch <$> chains)) as Hdup.
  { unfold getOutboundFilterChainPerUpstream in Hch. apply bind_Ret in Hch as (opol & Hopol & Hch). cbn [newListenerBuilder lb_serviceIdentity] in Hopol.
    destruct (outbound_policy_shape _ _ Hopol) as (svcs' & Hsvcs' & Em & _). rewrite Hsvcs in Hsvcs'. injection Hsvcs' as <-.
    apply list_elem_of_split in Hsvc as (s1 & s2 & ->). rewrite Em, bind_app in Hch. cbn [mbind list_bind] in Hch.
    unfold matchesFor at 2 in Hch. unfold routeMatchesFor in Hch. rewrite Hsp in Hch. cbn [fst fmap list_fmap] in Hch.
    eapply (concatO_repeated _ _ _ _ [] _ _ _ _ Hch). intros m ys Hm Hys. apply outbound_chain_built in Hys as (fc & Hfc & Efc).
    - exists fc. split; [done|]. rewrite Efc. by destruct Hm as [->| ->].
    - by destruct Hm as [->| ->].
    - destruct Hm as [->| ->]; simpl; unfold destinationIPRanges; intros Hnil; destruct (getDNSResolvableServiceEndpoints mc svc) as [|e es]; try done;
        apply (elem_of_nil (IP_String (ep_IP e) +:+ "/32")); rewrite <-Hnil; apply elem_of_unique; by left. }
  assert (∃ d, (if cfg_IsEgressEnabled (mc_configurator mc)
    then match getDefaultPassthroughFilterChain encodesL with Ok c => Ok (Some c) | Err e => Err e end else Ok None) = Ok d) as [d Hd].
  { destruct (cfg_IsEgressEnabled _); [|by eexists]. unfold getDefaultPassthroughFilterChain, networkFilter, marshal. rewrite encoder_ok. by eexists. }
  rewrite Hd in Hl. cbn [tryE mbind outcome_bind] in Hl. apply bind_Ret in Hl as ([echains lfs] & _ & [= <-]).
  cbn [li_FilterChains li_DefaultFilterChain]. destruct chains as [|c cs]; [destruct Hdup; constructor|].
  eexists. split; [reflexivity|]. split; [done|]. cbn [li_FilterChains].
  rewrite (fmap_app _ (c :: cs)). by intros [? _]%NoDup_app.
Qed.
End resources.

(** ** The choice of a chain *)

(** What Envoy knows of a connection when it chooses a chain. *)
Record ConnInfo := mkConnInfo {
  ci_DestinationPort : Z;
  ci_Sni : string;
  ci_TransportProtocol : string;
  ci_Alpn : list string;
}.

(** A chain that asks for the port, the server name, the transport and an application protocol
    of the connection. *)
Definition asks_for (fc : FilterChain) (ci : ConnInfo) : Prop :=
  ∃ fcm, fc_FilterChainMatch fc = Some fcm ∧ fcm_DestinationPort fcm = Some (ci_DestinationPort ci) ∧ ci_Sni ci ∈ fcm_ServerNames fcm ∧
    fcm_TransportProtocol fcm = ci_TransportProtocol ci ∧ (∃ p, p ∈ fcm_ApplicationProtocols fcm ∧ p ∈ ci_Alpn ci).

(** What Envoy documents of the choice: chains are discarded criterion by criterion, and at
    each one those that match it best are kept, in the order destination port and address,
    server name, transport and application protocol, source; the rules must be distinct.
    So where no chain asks for an address, a chain that asks for all of the others, and not
    for a source, can only lose to such a chain. *)
Class ChainEngine (select : list FilterChain → ConnInfo → option FilterChain) : Prop := {
  engine_in : ∀ chains ci fc, select chains ci = Some fc → fc ∈ chains;
  engine_asks : ∀ chains ci fc fcm,
    NoDup (fc_FilterChainMatch <$> chains) → (∀ c m, c ∈ chains → fc_FilterChainMatch c = Some m → fcm_PrefixRanges m = []) →
    fc ∈ chains → fc_FilterChainMatch fc = Some fcm → fcm_SourcePrefixRanges fcm = [] → asks_for fc ci →
    ∃ fc', select chains ci = Some fc' ∧ asks_for fc' ci;
}.

(** The connection of a proxy that uses a TLS context, to a port. *)
Definition connects (ctx : UpstreamTlsContext) (port : Z) : ConnInfo :=
  mkConnInfo port (utc_Sni ctx) TransportProtocolTLS (ctc_AlpnProtocols (utc_CommonTlsContext ctx)).

Lemma upstream_context id svc spec ctx :
  GetUpstreamTLSContext id svc spec = Ret ctx → utc_Sni ctx = ServerName svc ∧ ctc_AlpnProtocols (utc_CommonTlsContext ctx) = ALPNInMesh ∧
    ctc_TlsParams (utc_CommonTlsContext ctx) = GetTLSParams spec.
Proof. unfold GetUpstreamTLSContext. by intros (name & _ & [= <-])%bind_Ret. Qed.

Section connection.
Context `{RangeOrder} (encodesC : CdsMessage → bool) (encodesL : LdsMessage → bool) `{!Encoder encodesL} (statsWASMBytes : string).
Context (mc : MeshCatalog) (domain : string) (Matches : labels → labels → bool).
Context (hashMatch : TrafficMatch → result string Z) (hashCluster : EgressClusterConfig → result string Z).
Context (settings : EnvoySettings) (select : list FilterChain → ConnInfo → option FilterChain) `{!ChainEngine select}.

Abbreviation cds := (cds_NewResponse encodesC mc domain Matches hashMatch hashCluster settings).
Abbreviation lds := (lds_NewResponse encodesL statsWASMBytes mc domain Matches hashMatch hashCluster settings).
Abbreviation builder := (newListenerBuilder mc settings).
Abbreviation servicesOf proxy := (envoy_ListProxyServices Matches (mc_kubeController mc) proxy).

(** A cluster with a TLS context is one of a service that the workload may reach. *)
Lemma tls_cluster proxy clusters c sock :
  cds proxy = Ret (Ok clusters) → c ∈ clusters → cl_TransportSocket c = Some sock →
  ∃ svcs svc, ListOutboundServicesForIdentity mc (p_Identity proxy) = Ret svcs ∧ svc ∈ svcs ∧ cl_Name c = SidecarClusterName svc ∧
    GetUpstreamTLSContext (p_Identity proxy) svc (es_Sidecar settings) = Ret (us_TypedConfig sock).
Proof.
  unfold cds_NewResponse. intros (opol & Hopol & Hr)%bind_Ret Hc Hsock. apply bind_Ret in Hr as (ups & Hups & Hr).
  apply bind_Ret in Hr as ([svcs|] & Hsvcs & Hr); [|done]. apply bind_Ret in Hr as (ipol & Hipol & Hr).
  apply bind_Ret in Hr as (epol & Hepol & Hr).
  destruct (getOriginalDestinationEgressCluster encodesC _ None) as [pass|] eqn:Hpass; [|done].
  apply bind_Ret in Hr as (pod & Hpod & Hr). apply bind_Ret in Hr as (cs & Hcs & [= <-]).
  apply removeDups_spec in Hcs as (_ & _ & Hsub & _). apply Hsub in Hc. rewrite !elem_of_app in Hc.
  destruct Hc as [Hc|[Hc|[Hc|[Hc|[Hc|Hc]]]]].
  - unfold upstreamClustersFromClusterConfigs in Hups. apply mapO_Forall2 in Hups.
    apply list_elem_of_lookup in Hc as [i Hi]. destruct (Forall2_lookup_r _ _ _ _ _ Hups Hi) as (config & Hconfig & Hget).
    apply upstream_cluster in Hget as (ctx & Hctx & Hname & _ & Hs & _). rewrite Hsock in Hs. injection Hs as ->.
    apply list_elem_of_lookup_2 in Hconfig.
    unfold GetOutboundMeshTrafficPolicy in Hopol. apply bind_Ret in Hopol as (sa & _ & Hpol). apply bind_Ret in Hpol as (osvcs & Hosvcs & Hpol).
    apply bind_Ret in Hpol as (acc & Hfold & [= <-]). apply outbound_fold in Hfold as ((ocs & Hocs & HF) & _). cbn [omtp_ClustersConfigs] in Hconfig.
    rewrite Hocs in Hconfig. apply list_elem_of_lookup in Hconfig as [j Hj]. destruct (Forall2_lookup_r _ _ _ _ _ HF Hj) as (svc & Hsvc & uts & -> & _).
    exists osvcs, svc. split_and!; [done|by eapply list_elem_of_lookup_2|done|done].
  - exfalso. apply list_elem_of_fmap in Hc as (config & Hl & _). unfold getLocalServiceCluster in Hl.
    destruct (getTypedHTTPProtocolOptions _ _); [|done]. injection Hl as ->. done.
  - exfalso. apply list_elem_of_fmap in Hc as (c' & [= <-] & Hc'). destruct epol as [[p|]|]; [|by apply elem_of_nil in Hc'..].
    apply list_elem_of_omap in Hc' as (config & _ & He). destruct (egressCluster encodesC config) eqn:Ee; [|done]. injection He as ->.
    by apply egress_cluster_socket in Ee; rewrite Ee in Hsock.
  - exfalso. destruct (cfg_IsEgressEnabled _); [|by apply elem_of_nil in Hc]. apply list_elem_of_singleton in Hc as [= ->].
    unfold getOriginalDestinationEgressCluster in Hpass. destruct (getTypedHTTPProtocolOptions _ _); [|done]. by injection Hpass as <-.
  - exfalso. destruct pod as [pod|]; [|by apply elem_of_nil in Hc]. destruct (IsMetricsEnabled pod); [|by apply elem_of_nil in Hc].
    by apply list_elem_of_singleton in Hc as [= ->].
  - exfalso. destruct (es_IsTracingEnabled _); [|by apply elem_of_nil in Hc]. by apply list_elem_of_singleton in Hc as [= ->].
Qed.

(** What the chosen chain does with a connection: it asks for a client certificate, applies
    the policies of the workload first in SMI mode, and serves the service on the port. *)
Record serves (server : Proxy) (svc : MeshService) (fc : FilterChain) : Prop := {
  sv_tls : ∃ sock, fc_TransportSocket fc = Some sock ∧ dtc_RequireClientCertificate (ds_TypedConfig sock) = true ∧
    GetDownstreamTLSContext (p_Identity server) true (es_Sidecar settings) = Ret (ds_TypedConfig sock);
  sv_rbac : cfg_IsPermissiveTrafficPolicyMode (mc_configurator mc) = false → ∃ rest,
    fc_Filters fc = mkFilter L4RBACFilterName (NetworkRBAC (buildInboundRBACPolicies mc (p_Identity server) (mc_GetTrustDomain mc))) :: rest;
  sv_target : chain_routes fc = [GetInboundMeshRouteConfigNameForPort (ms_TargetPort svc)] ∨
    chain_routes fc = [] ∧ chain_clusters fc = [SidecarLocalClusterName svc];
}.

(** A service with a supported protocol has a chain. *)
Lemma inbound_chain_of server svcs ipol mesh svc :
  GetInboundMeshTrafficPolicy mc domain (p_Identity server) svcs = Ret ipol →
  getInboundMeshFilterChains encodesL statsWASMBytes mc settings (builder server) (imtp_TrafficMatches ipol) = Ret mesh →
  svc ∈ svcs → has_chain mc svc → ∃ fc, fc ∈ mesh ∧ fc_FilterChainMatch fc = Some (inboundChainMatch (inboundMatch svc None)).
Proof using Encoder0.
  intros Hipol Hmesh Hsvc [Hpr Hlim]. pose proof Hipol as Hz. apply GetInbound_closed in Hz as (_ & utss & _ & Hutss & _).
  destruct (elem_of_zip_setting_2 mc _ _ svc Hutss) as (uts & _ & Huts); [apply elem_of_includeApex; eauto|].
  destruct (GetInboundMeshTrafficPolicy_integrity mc domain _ _ _ Hipol) as (_ & Hms & _).
  assert (inboundMatch svc uts ∈ imtp_TrafficMatches ipol) as (l1 & l2 & E)%list_elem_of_split by (apply Hms; eauto).
  rewrite E in Hmesh. change (inboundMatch svc uts :: l2) with ([inboundMatch svc uts] ++ l2) in Hmesh.
  apply concatO_app_Ret in Hmesh as (r1 & r' & _ & (r2 & r3 & Hr2 & _ & ->)%concatO_app_Ret & ->).
  destruct (inbound_chain_built encodesL statsWASMBytes mc settings (builder server) _ _ Hr2) as (fc & Hfc & Efc); [done|by apply Hlim|].
  exists fc. split; [|done]. rewrite !elem_of_app. auto.
Qed.

Lemma inbound_chain_serves server svcs ipol m fc :
  GetInboundMeshTrafficPolicy mc domain (p_Identity server) svcs = Ret ipol → m ∈ imtp_TrafficMatches ipol →
  inbound_chain encodesL statsWASMBytes mc settings (builder server) m fc →
  ∃ svc, svc ∈ svcs ∧ serves server svc fc ∧ fc_FilterChainMatch fc = Some (inboundChainMatch (inboundMatch svc None)).
Proof.
  intros Hipol Hm Hfc. destruct (GetInboundMeshTrafficPolicy_integrity mc domain _ _ _ Hipol) as (_ & Hms & _).
  apply Hms in Hm as (svc & uts & Hsvc & _ & ->). exists svc. split; [done|]. pose proof (inbound_chain_names _ _ _ _ _ _ _ Hfc) as Hnames.
  destruct Hfc as (fs & f & ctx & Hg & _ & Hctx & ->). split; [|done]. split.
  - eexists. split; [done|]. split; [|done]. revert Hctx. unfold GetDownstreamTLSContext. by intros (n & _ & [= <-])%bind_Ret.
  - intros Hsmi. apply guards_spec in Hg as (_ & _ & Hr). destruct (Hr Hsmi) as [rest ->]. by eexists.
  - destruct Hnames as [(_ & Hr & _)|(_ & Hr & Hc)]; [by left|by right].
Qed.

(** C8. The sidecars of two workloads meet: the TLS context of the cluster of a service, as the
    sidecar of a client is sent it, and the filter chains that the sidecar of a workload with
    the service is sent fit together.  If Envoy accepts the inbound listener, a connection
    that is made with the context to the target port of the service is taken by a chain for
    that service and port: never by one for ingress traffic, nor by one for another service
    of the workload.  The chain asks for a certificate of the mesh and, in SMI mode, applies
    the policies of the workload before anything else. *)
Theorem mesh_connection_served (client server : Proxy) (clusters : list Cluster) (c : Cluster) (sock : UpstreamSocket)
    (listeners : list Listener) (svcs : list MeshService) (svc : MeshService) :
  cds client = Ret (Ok clusters) → c ∈ clusters → cl_TransportSocket c = Some sock → cl_Name c = SidecarClusterName svc →
  (∀ osvcs s, ListOutboundServicesForIdentity mc (p_Identity client) = Ret osvcs → s ∈ osvcs → ms_names_ok s) →
  lds server = Ret (Ok listeners) → servicesOf server = Ret (Ok svcs) → svc ∈ svcs → ms_names_ok svc → has_chain mc svc →
  ∃ l, l ∈ listeners ∧ li_Name l = InboundListenerName ∧
    (NoDup (fc_FilterChainMatch <$> li_FilterChains l) →
     ∃ fc svc', select (li_FilterChains l) (connects (us_TypedConfig sock) (uint32 (ms_TargetPort svc))) = Some fc ∧
       svc' ∈ svcs ∧ ServerName svc' = ServerName svc ∧ uint32 (ms_TargetPort svc') = uint32 (ms_TargetPort svc) ∧ serves server svc' fc).
Proof using ChainEngine0 Encoder0.
  intros Hcds Hc Hsock Hname Hok Hlds Hsvcs Hsvc Hns [Hpr Hlim].
  destruct (tls_cluster _ _ _ _ Hcds Hc Hsock) as (osvcs & osvc & Hosvcs & Hosvc & En & Hctx). rewrite Hname in En.
  apply SidecarClusterName_inj in En as (Ens & Enm & _); [|done|by eapply Hok].
  apply upstream_context in Hctx as (Hsni & Halpn & _).
  assert (utc_Sni (us_TypedConfig sock) = ServerName svc) as Hsni' by (rewrite Hsni; unfold ServerName, FQDN; by rewrite Ens, Enm).
  assert (∃ ipol, GetInboundMeshTrafficPolicy mc domain (p_Identity server) svcs = Ret ipol) as [ipol Hipol].
  { revert Hlds. unfold lds_NewResponse. intros (ol & _ & Hr)%bind_Ret. rewrite Hsvcs in Hr. cbn [mbind outcome_bind] in Hr.
    apply bind_Ret in Hr as (ipol & Hipol & _). by exists ipol. }
  destruct (inbound_listener _ _ _ _ _ _ _ _ _ _ _ _ Hlds Hsvcs Hipol) as (mesh & ingress & Hmesh & Hing & Hlist).
  destruct (inbound_chain_of _ _ _ _ _ Hipol Hmesh Hsvc (conj Hpr Hlim)) as (fc0 & Hfc0 & Em0).
  destruct Hlist as (l & Hl & Hln & Ech); [by destruct mesh; [apply elem_of_nil in Hfc0|]|]. exists l. split_and!; [done..|]. rewrite Ech. intros Hnd.
  set (ci := connects _ _).
  assert (∀ fc, fc ∈ mesh ++ ingress →
    (∃ s, s ∈ svcs ∧ serves server s fc ∧ fc_FilterChainMatch fc = Some (inboundChainMatch (inboundMatch s None))) ∨
    ∃ fcm, fc_FilterChainMatch fc = Some fcm ∧ fcm_ApplicationProtocols fcm = [] ∧ fcm_PrefixRanges fcm = []) as Hkind.
  { intros fc [Hin|Hin]%elem_of_app.
    - left. apply (inbound_chains_inv _ _ _ _ _ _ _ _ Hmesh) in Hin as (m & Hm & Hfc). by eapply inbound_chain_serves.
    - right. apply (elem_of_concatO _ _ _ fc Hing) in Hin as (s & ch & _ & Hch & Hin). by eapply ingress_chains_inv. }
  destruct (engine_asks (mesh ++ ingress) ci fc0 (inboundChainMatch (inboundMatch svc None))) as (fc & Hsel & fcm & Efcm & Ep & Esni & _ & p & Hp & _).
  - done.
  - intros fc fcm Hin E. destruct (Hkind fc Hin) as [(s & _ & _ & E')|(fcm' & E' & _ & Hpre)]; rewrite E in E'; injection E' as ->; done.
  - by apply elem_of_app; left.
  - done.
  - done.
  - exists (inboundChainMatch (inboundMatch svc None)). split_and!; [done|done| |done|].
    + subst ci. simpl. rewrite Hsni'. by left.
    + exists "osm". subst ci. simpl. rewrite Halpn. split; by left.
  - destruct (Hkind fc) as [(s & Hs & Hserves & E)|(fcm' & E & Happ & _)]; [by eapply engine_in| |].
    + rewrite Efcm in E. injection E as ->. simpl in Ep, Esni. apply list_elem_of_singleton in Esni. injection Ep as Ep.
      exists fc, s. split_and!; [done|done| |done|done]. by rewrite <-Hsni'.
    + rewrite Efcm in E. injection E as ->. rewrite Happ in Hp. by apply elem_of_nil in Hp.
Qed.
End connection.

(** ** Secrets *)

(** The names of the secrets of a TLS context. *)
Definition secret_names (c : CommonTlsContext) : list string :=
  (ssc_Name <$> ctc_TlsCertificateSdsSecretConfigs c) ++ option_list (ssc_Name <$> ctc_ValidationContextSdsSecretConfig c).

(** Names of Kubernetes objects: not empty, without the separators. *)
Definition k8s_name (s : string) : Prop := s ≠ "" ∧ free_of ":" s ∧ free_of "/" s.

Section secret_theorems.
Context (mc : MeshCatalog) (trustDomain : string).

Lemma named_secret cert ct ns name :
  ct ∈ [ServiceCertType; RootCertTypeForMTLSInbound] → k8s_name ns → k8s_name name →
  getSDSSecret mc trustDomain cert (SDSCert_String (mkSDSCert ct (ns +:+ "/" +:+ name))) =
  Some (mkSecret (SDSCert_String (mkSDSCert ct (ns +:+ "/" +:+ name)))
    (if decide (ct = ServiceCertType) then TlsCertificate (cert_CertChain cert) (cert_PrivateKey cert) else ValidationContext (cert_TrustedCAs cert) [])).
Proof.
  intros Hct%elem_of_two (Hns & Hnc & _) (_ & Hc & _). unfold getSDSSecret. rewrite SDSCert_String_Unmarshal; simpl.
  - by destruct Hct as [->| ->].
  - destruct Hct as [->| ->]; apply (bool_decide_unpack _); by vm_compute.
  - by destruct ns.
  - by rewrite !free_of_app.
Qed.

(** C31. The secrets of a connection: a proxy that asks for the secrets which its TLS contexts
    name gets each of them under the name it asked for.  Both ends get the certificate of
    the workload; towards a service, the roots of the mesh with the principals of the
    identities of that service; and for inbound traffic, the roots of the mesh, unless
    client certificates are not asked for.  Both ends use the same TLS versions and suites. *)
Theorem tls_secrets_roundtrip (sa : K8sServiceAccount) (svc : MeshService) (mTLS : bool) (spec : SidecarSpec) (cert : MeshCertificate) :
  sa_dotless sa → k8s_name (sa_Namespace sa) → k8s_name (sa_Name sa) → k8s_name (ms_Namespace svc) → k8s_name (ms_Name svc) →
  let answered c := getSDSSecrets mc trustDomain cert (secret_names c) in
  ∃ up down,
    GetUpstreamTLSContext (ToServiceIdentity sa) svc spec = Ret up ∧ GetDownstreamTLSContext (ToServiceIdentity sa) mTLS spec = Ret down ∧
    ctc_TlsParams (utc_CommonTlsContext up) = ctc_TlsParams (dtc_CommonTlsContext down) ∧
    sec_Name <$> answered (utc_CommonTlsContext up) = secret_names (utc_CommonTlsContext up) ∧
    sec_Type <$> answered (utc_CommonTlsContext up) = [TlsCertificate (cert_CertChain cert) (cert_PrivateKey cert);
      ValidationContext (cert_TrustedCAs cert) ((λ si, AsPrincipal si trustDomain) <$>
        mc_ListServiceIdentitiesForService mc (mkMeshService (ms_Namespace svc) (ms_Name svc) 0 0 "" ""))] ∧
    sec_Name <$> answered (dtc_CommonTlsContext down) = secret_names (dtc_CommonTlsContext down) ∧
    sec_Type <$> answered (dtc_CommonTlsContext down) = TlsCertificate (cert_CertChain cert) (cert_PrivateKey cert) ::
      if mTLS then [ValidationContext (cert_TrustedCAs cert) []] else [].
Proof.
  intros Hdot Hns Hn Hsns Hsn answered. unfold GetUpstreamTLSContext, GetDownstreamTLSContext, GetSecretNameForIdentity.
  rewrite ToK8s_dotless by done. cbn [mbind outcome_bind]. eexists _, _. do 2 (split; [reflexivity|]). split; [done|]. subst answered.
  unfold getSDSSecrets, secret_names. cbn -[SDSCert_String getSDSSecret]. unfold K8sServiceAccount_String, MeshService_String, namespaceNameSeparator.
  pose proof (outbound_secret mc trustDomain cert (ms_Namespace svc) (ms_Name svc)) as Hout. unfold outboundCert in Hout.
  destruct Hsns as (? & ? & ?), Hsn as (? & ? & ?). rewrite Hout by done. clear Hout.
  pose proof (λ ct H, named_secret cert ct (sa_Namespace sa) (sa_Name sa) H Hns Hn) as Hsec.
  destruct mTLS; cbn -[SDSCert_String getSDSSecret]; rewrite ?(Hsec ServiceCertType), ?(Hsec RootCertTypeForMTLSInbound) by (apply elem_of_two; auto); done.
Qed.
End secret_theorems.
