(* ===== verification/Demo.v ===== *)
(** * A small mesh

    One monitored namespace with a client, [bookbuyer], and a server, [bookstore],
    whose pods back the services [bookstore] and [shop]; the SMI resources that let
    the client buy, a split of [shop], and one policy resource of every kind.  The
    components are the clients of the other files over stores with these
    resources.  The theorems about the catalog are applied to it. *)

From S2P Require Import Prelude GoStrings Net Identity Service PolicyApi TrafficPolicy K8s.
From S2P Require Import K8sClient KubeProvider Smi PolicyClient Catalog CatalogEgress.
From S2P Require Import CatalogInbound CatalogOutbound CatalogIngress MeshConfig Broker.

Module Mesh.
#[export] Existing Instance stdpp_order.

Definition bookbuyer : K8sServiceAccount := mkK8sServiceAccount "demo" "bookbuyer".
Definition bookstore : K8sServiceAccount := mkK8sServiceAccount "demo" "bookstore".

Definition service (name ip : string) (port : Z) (app : string) : K8sService :=
  mkK8sService "demo" name ("uid-" +:+ name) ∅ {["app" := app]} ip [mkServicePort "http-web" port None].
Definition endpoints (name ip : string) (port : Z) : Endpoints :=
  mkEndpoints "demo" name ∅ [mkEndpointSubset [mkEndpointAddress ip ""] [mkEndpointPort "http-web" port]].
Definition pod (name ip : string) : Pod :=
  mkPod "demo" (name +:+ "-0") ("uid-pod-" +:+ name) {["app" := name; "osm-proxy-uuid" := name]} ∅ name [ip] ip.

Definition informers : Informers := {|
  inf_Namespace := store_of {["demo" := mkNamespace "demo" ∅ ∅]};
  inf_Service := store_of (list_to_map [
    ("demo/bookstore", service "bookstore" "10.96.0.2" 80 "bookstore");
    ("demo/shop", service "shop" "10.96.0.3" 80 "bookstore");
    ("demo/gateway", service "gateway" "10.96.0.4" 80 "gateway")]);
  inf_ServiceAccount := store_of ∅;
  inf_Pod := store_of (list_to_map [
    ("demo/bookbuyer-0", pod "bookbuyer" "10.0.0.1"); ("demo/bookstore-0", pod "bookstore" "10.0.0.2")]);
  inf_Endpoints := store_of (list_to_map [
    ("demo/bookstore", endpoints "bookstore" "10.0.0.2" 8080);
    ("demo/shop", endpoints "shop" "10.0.0.2" 8080);
    ("demo/gateway", endpoints "gateway" "10.0.0.9" 8000)]);
|}.

(** [labels.Selector.Matches] on the selectors of services: all pairs are present. *)
Definition Matches (sel lbls : labels) : bool := bool_decide (sel ⊆ lbls).

Definition controller : Controller := client Matches informers.

Definition subject (sa : K8sServiceAccount) : IdentityBindingSubject :=
  mkIdentityBindingSubject "ServiceAccount" (sa_Name sa) (sa_Namespace sa).

Definition target : TrafficTarget :=
  mkTrafficTarget "demo" "access" (subject bookstore) [subject bookbuyer]
    [mkTrafficTargetRule "HTTPRouteGroup" "routes" ["buy"]].
Definition split : TrafficSplit :=
  mkTrafficSplit "demo" "shop-split" "shop" [mkTrafficSplitBackend "bookstore" 100] [].

Definition spec : MeshSpec := smi_client {|
  smi_TrafficSplit := store_of {["demo/shop-split" := split]};
  smi_HTTPRouteGroup := store_of {["demo/routes" := mkHTTPRouteGroup "demo" "routes"
    (Some [mkHTTPMatch "buy" (Some ["GET"]) "/buy" None])]};
  smi_TCPRoute := store_of {["demo/tcp" := mkTCPRoute "demo" "tcp" [8080]]};
  smi_TrafficTarget := store_of {["demo/access" := target]};
|} controller.

Definition meta (name : string) : ObjectMeta := mkObjectMeta "demo" name.

Definition ingress : IngressBackend := mkIngressBackend (meta "ingress")
  (mkIngressBackendSpec
     [mkBackendSpec "bookstore" (mkPortSpec 8080 "https") (Some (mkTLSSpec false ["shop.example"]));
      mkBackendSpec "other" (mkPortSpec 8080 "http") None]
     [mkIngressSourceSpec "Service" "gateway" "demo"; mkIngressSourceSpec "IPRange" "192.168.0.0/16" "";
      mkIngressSourceSpec "AuthenticatedPrincipal" "gateway.demo.cluster.local" ""] [])
  (mkIngressBackendStatus "" "").
Definition acl : AccessControl := mkAccessControl (meta "acl")
  (mkAccessControlSpec [mkAccessControlBackendSpec "bookstore" (mkPortSpec 8080 "http") None]
     [mkAccessControlSourceSpec "IPRange" "192.168.0.0/16" ""] [])
  (mkAccessControlStatus "" "").
Definition setting : UpstreamTrafficSetting := mkUpstreamTrafficSetting (meta "setting")
  (mkUpstreamTrafficSettingSpec "bookstore.demo.svc.cluster.local" None None [])
  (mkUpstreamTrafficSettingStatus "" "").
Definition retry : Retry := mkRetry (meta "retry")
  (mkRetrySpec (mkRetrySrcDstSpec "ServiceAccount" "bookbuyer" "demo")
     [mkRetrySrcDstSpec "Service" "bookstore" "demo"]
     (mkRetryPolicySpec "5xx" (Some 1) (Some 3) (Some 1))).
Definition egress : Egress := mkEgress (meta "egress")
  (mkEgressSpec [mkEgressSourceSpec "ServiceAccount" "bookbuyer" "demo" None] ["httpbin.org"]
     ["10.2.0.0/16"] [mkPortSpec 80 "http"; mkPortSpec 443 "https"; mkPortSpec 5432 "tcp"] []).

Definition policies : PolicyInformers := {|
  pi_Egress := store_of {["demo/egress" := egress]};
  pi_EgressGateway := store_of ∅;
  pi_IngressBackend := store_of {["demo/ingress" := ingress]};
  pi_Retry := store_of {["demo/retry" := retry]};
  pi_AccessControl := store_of {["demo/acl" := acl]};
  pi_UpstreamTrafficSetting := store_of {["demo/setting" := setting]};
|}.

Definition config (permissive : bool) : Configurator :=
  mkConfigurator permissive false true true true true false.

Definition nocluster : MulticlusterController := {|
  mcl_GetIngressControllerServices := [];
  mcl_GetExportedRule _ := Ok None;
  mcl_GetTargetPortForServicePort _ _ := ∅;
  mcl_GetLbWeightForService _ := mkLbWeight false false false 0 ∅;
|}.

Definition catalog : MeshCatalog := {|
  mc_endpointsProviders := [kube_provider Matches controller];
  mc_serviceProviders := [kube_provider Matches controller];
  mc_meshSpec := spec;
  mc_configurator := config false;
  mc_GetTrustDomain := "cluster.local";
  mc_kubeController := controller;
  mc_policyController := policy_client policies controller;
  mc_multiclusterController := nocluster;
|}.

(** The services as the mesh sees them. *)
Definition bookstore_svc : MeshService := mkMeshService "demo" "bookstore" 80 8080 "http" "".
Definition shop_svc : MeshService := mkMeshService "demo" "shop" 80 8080 "http" "".

(** Hash functions for the two structures, on the fields that tell them apart here. *)
Definition hashMatch (m : TrafficMatch) : result string Z :=
  Ok (Zpos (encode (tm_DestinationPort m, tm_DestinationProtocol m))).
Definition hashCluster (c : EgressClusterConfig) : result string Z :=
  Ok (Zpos (encode (ecc_Name c, ecc_Port c, ecc_Host c))).
End Mesh.

(** ** The theorems on the mesh *)

Import Mesh.

(** The value of a call that returns. *)
Definition value {A} (d : A) (m : outcome A) : A := match m with Ret a => a | Panic => d end.

Definition has_value {A} (m : outcome A) : bool := match m with Ret _ => true | Panic => false end.

Lemma value_Ret {A} (d : A) m : has_value m = true → m = Ret (value d m).
Proof. by destruct m. Qed.

Definition buyer_id : ServiceIdentity := ToServiceIdentity bookbuyer.
Definition store_id : ServiceIdentity := ToServiceIdentity bookstore.

Lemma demo_targets : spec_ListTrafficTargets (mc_meshSpec catalog) [] = [target].
Proof. vm_compute. reflexivity. Qed.

Lemma demo_dotless : sa_dotless bookbuyer ∧ sa_dotless bookstore.
Proof. by vm_compute. Qed.

#[local] Instance demo_spec_ok : MeshSpecOk (mc_kubeController catalog) (mc_meshSpec catalog) :=
  smi_client_ok _ _.

Lemma demo_kinds t s :
  t ∈ spec_ListTrafficTargets (mc_meshSpec catalog) [] → s ∈ tt_Destination t :: tt_Sources t →
  ibsub_Kind s = ServiceAccountKind.
Proof.
  rewrite demo_targets. intros ->%list_elem_of_singleton.
  intros [->|[->|[]%elem_of_nil]%elem_of_cons]%elem_of_cons; done.
Qed.

Lemma demo_subjects : subjects_dotless catalog.
Proof.
  intros t. rewrite demo_targets. intros ->%list_elem_of_singleton. simpl.
  repeat constructor.
Qed.

(** The one route of the one target. *)
Definition buy : HTTPRouteMatch :=
  default WildCardRouteMatch (head (routesFromRules catalog (tt_Rules target) (tt_Namespace target))).

Lemma demo_authorises t m : authorises catalog bookstore t m → t = target ∧ m = buy.
Proof.
  intros (Ht & _ & _ & Hm). rewrite demo_targets in Ht. apply list_elem_of_singleton in Ht as ->. split; [done|].
  assert (routesFromRules catalog (tt_Rules target) (tt_Namespace target) = [buy]) as E by (vm_compute; reflexivity).
  rewrite E in Hm. by apply list_elem_of_singleton in Hm.
Qed.

(** *** Who may talk to whom *)

Lemma inbound_outbound_agree_witness :
  ∃ li lo, ListInboundServiceIdentities catalog store_id = Ret li ∧
    ListOutboundServiceIdentities catalog buyer_id = Ret lo ∧
    (buyer_id ∈ li ↔ store_id ∈ lo) ∧ (buyer_id ∈ li ↔ allowed catalog bookbuyer bookstore).
Proof. exact (inbound_outbound_agree catalog bookbuyer bookstore demo_subjects (proj1 demo_dotless) (proj2 demo_dotless)). Defined.

Definition demo_endpoints : list Endpoint :=
  value [] (ListAllowedUpstreamEndpointsForService catalog buyer_id bookstore_svc).

Lemma demo_endpoints_Ret :
  ListAllowedUpstreamEndpointsForService catalog buyer_id bookstore_svc = Ret demo_endpoints.
Proof. apply value_Ret. vm_compute. reflexivity. Qed.

Lemma ListAllowedUpstreamEndpoints_spec_witness :
  demo_endpoints ≠ [] ∧ ∀ e, e ∈ demo_endpoints →
    e ∈ listEndpointsForService catalog bookstore_svc.
Proof.
  split; [by vm_compute|]. intros e He.
  destruct (ListAllowedUpstreamEndpoints_spec catalog bookbuyer bookstore_svc demo_endpoints
    (proj1 demo_dotless) demo_endpoints_Ret e) as [Hall _]. exact (proj1 (Hall He)).
Defined.

Definition demo_services : list MeshService :=
  value [] (ListOutboundServicesForIdentity catalog buyer_id).

Lemma demo_services_Ret : ListOutboundServicesForIdentity catalog buyer_id = Ret demo_services.
Proof. apply value_Ret. vm_compute. reflexivity. Qed.

Lemma ListOutboundServicesForIdentity_spec_witness :
  NoDup demo_services ∧ ∀ ms, ms ∈ demo_services → ∃ dst services, allowed catalog bookbuyer dst ∧
    getServicesForServiceIdentity catalog (ToServiceIdentity dst) = Ret services ∧ ms ∈ services.
Proof.
  destruct (ListOutboundServicesForIdentity_spec catalog bookbuyer demo_services
    (proj1 demo_dotless) eq_refl demo_kinds demo_services_Ret) as [Hnd Hms].
  split; [exact Hnd|]. intros ms. apply Hms.
Defined.

(** *** Inbound *)

Definition demo_inbound : InboundMeshTrafficPolicy :=
  value (mkInboundMeshTrafficPolicy [] ∅ [])
    (GetInboundMeshTrafficPolicy catalog "cluster.local" store_id [bookstore_svc; shop_svc]).

Definition demo_itps : list InboundTrafficPolicy :=
  default [] (imtp_HTTPRouteConfigsPerPort demo_inbound !! 8080%Z).
Definition demo_itp : InboundTrafficPolicy :=
  default (mkInboundTrafficPolicy "" [] [] None) (head demo_itps).

Lemma head_elem {A} (d : A) l : l ≠ [] → default d (head l) ∈ l.
Proof. destruct l; [done|]. by left. Qed.

Lemma GetInboundMeshTrafficPolicy_authorised_witness :
  NoDup (rule_Route <$> itp_Rules demo_itp) ∧
  ∃ svc uts, svc ∈ getUpstreamServicesIncludeApex catalog [bookstore_svc; shop_svc] ∧
    itp_Name demo_itp = FQDN svc ∧ ∀ route p, permits (itp_Rules demo_itp) route p →
    ∃ t m s, t ∈ spec_ListTrafficTargets (mc_meshSpec catalog) [] ∧ s ∈ tt_Sources t ∧
      route = NewRouteWeightedCluster m [localCluster svc] uts ∧
      p = sa_AsPrincipal (trafficTargetIdentityToSvcAccount s) "cluster.local".
Proof.
  destruct (GetInboundMeshTrafficPolicy_authorised catalog "cluster.local" bookstore
    [bookstore_svc; shop_svc] demo_inbound 8080 demo_itps demo_itp) as
    (Hnd & svc & uts & Hsvc & Hname & Hp).
  - reflexivity.
  - exact (proj2 demo_dotless).
  - discriminate.
  - apply value_Ret. vm_compute. reflexivity.
  - vm_compute. reflexivity.
  - apply head_elem. by vm_compute.
  - split; [exact Hnd|]. exists svc, uts. split; [exact Hsvc|]. split; [exact Hname|].
    intros route p (t & m & s & Ht & _ & _ & _ & Hs & Hr & Hpr)%Hp. exists t, m, s. auto.
Defined.

Lemma GetInboundMeshTrafficPolicy_integrity_witness :
  imtp_TrafficMatches demo_inbound ≠ [] ∧
  imtp_ClustersConfigs demo_inbound =
    inboundCluster <$> getUpstreamServicesIncludeApex catalog [bookstore_svc; shop_svc].
Proof.
  split; [by vm_compute|].
  apply (GetInboundMeshTrafficPolicy_integrity catalog "cluster.local" store_id
    [bookstore_svc; shop_svc] demo_inbound). apply value_Ret. vm_compute. reflexivity.
Defined.

(** *** Outbound *)

Definition demo_outbound : OutboundMeshTrafficPolicy :=
  value (mkOutboundMeshTrafficPolicy [] ∅ [] ∅)
    (GetOutboundMeshTrafficPolicy catalog "cluster.local" hashMatch hashCluster buyer_id).

Lemma GetOutboundMeshTrafficPolicy_spec_witness :
  omtp_ClustersConfigs demo_outbound ≠ [] ∧
  ∃ svcs, ListOutboundServicesForIdentity catalog buyer_id = Ret svcs ∧
    Forall2 (λ svc c, mcc_Name c = SidecarClusterName svc ∧ mcc_Service c = svc) svcs
      (omtp_ClustersConfigs demo_outbound).
Proof.
  split; [by vm_compute|].
  destruct (GetOutboundMeshTrafficPolicy_spec catalog "cluster.local" hashMatch hashCluster buyer_id
    demo_outbound) as (sa & svcs & _ & Hs & Hc & _).
  - apply value_Ret. vm_compute. reflexivity.
  - exists svcs. split; [exact Hs|exact Hc].
Defined.

Definition demo_otps : list OutboundTrafficPolicy :=
  default [] (omtp_HTTPRouteConfigsPerPort demo_outbound !! 80%Z).
Definition demo_otp : OutboundTrafficPolicy :=
  default (mkOutboundTrafficPolicy "" [] []) (head demo_otps).
Definition demo_route : RouteWeightedClusters :=
  default (mkRouteWeightedClusters WildCardRouteMatch ∅ None None) (head (otp_Routes demo_otp)).

Lemma GetOutboundMeshTrafficPolicy_clusters_witness :
  ∃ svcs svc, ListOutboundServicesForIdentity catalog buyer_id = Ret svcs ∧ svc ∈ svcs ∧
    otp_Name demo_otp = FQDN svc.
Proof.
  destruct (GetOutboundMeshTrafficPolicy_clusters catalog "cluster.local" hashMatch hashCluster buyer_id
    demo_outbound 80 demo_otps demo_otp (rwc_HTTPRouteMatch demo_route) (rwc_WeightedClusters demo_route)
    (mkWeightedCluster "demo/bookstore|8080" 100)) as (svcs & svc & Hs & Hin & _ & _ & Hn & _).
  - apply value_Ret. vm_compute. reflexivity.
  - vm_compute. reflexivity.
  - apply head_elem. by vm_compute.
  - exists demo_route. split; [apply head_elem; by vm_compute|auto].
  - apply (bool_decide_unpack _). vm_compute. exact I.
  - exists svcs, svc. auto.
Defined.

Lemma activeUpstreamClusters_fair_witness :
  ∃ shares, activeUpstreamClusters ["a"; "b"; "c"] (mkTrafficSplitBackend "s" 100) [] = [] ++ shares ∧
    sumZ (wc_Weight <$> shares) = 100%Z.
Proof.
  destruct (activeUpstreamClusters_fair ["a"; "b"; "c"] (mkTrafficSplitBackend "s" 100) []) as
    (shares & E & _ & Hsum & _); [discriminate|simpl; lia|]. exists shares. split; [exact E|exact Hsum].
Defined.

(** *** Egress and ingress *)

Lemma demo_hash_faithful : hash_faithful hashMatch hashCluster.
Proof.
  split.
  - intros x y [= E%(inj encode)]. by simplify_eq.
  - intros x y [= E%(inj encode)]. by simplify_eq.
Qed.

Definition demo_egress : EgressTrafficPolicy :=
  match GetEgressTrafficPolicy catalog hashMatch hashCluster buyer_id with
  | Ret (Ok (Some p)) => p
  | _ => mkEgressTrafficPolicy [] ∅ []
  end.

Lemma GetEgressTrafficPolicy_integrity_witness :
  etp_TrafficMatches demo_egress ≠ [] ∧
  egress_ok (etp_TrafficMatches demo_egress) (etp_ClustersConfigs demo_egress)
    (etp_HTTPRouteConfigsPerPort demo_egress).
Proof.
  split; [by vm_compute|].
  apply (GetEgressTrafficPolicy_integrity catalog hashMatch hashCluster buyer_id demo_egress
    demo_hash_faithful). vm_compute. reflexivity.
Defined.

Lemma demo_setting :
  pol_GetUpstreamTrafficSetting (mc_policyController catalog) (by_service bookstore_svc) = Ret (Some setting).
Proof. vm_compute. reflexivity. Qed.

Lemma GetIngressTrafficPolicy_spec_witness :
  ∃ p, GetIngressTrafficPolicy catalog bookstore_svc =
    Ret ([ib_with_status ingress status_committed], Ok (Some p)).
Proof.
  destruct (GetIngressTrafficPolicy_spec catalog bookstore_svc (Some setting) demo_setting ingress
    eq_refl ltac:(vm_compute; reflexivity)) as (p & principals & E & _). exists p. exact E.
Defined.

Lemma GetAccessControlTrafficPolicy_spec_witness :
  ∃ p, GetAccessControlTrafficPolicy catalog bookstore_svc =
    Ret ([ac_with_status acl status_committed], Ok (Some p)).
Proof.
  destruct (GetAccessControlTrafficPolicy_spec catalog bookstore_svc (Some setting) demo_setting acl
    eq_refl ltac:(vm_compute; reflexivity)) as (p & itp & principals & E & _). exists p. exact E.
Defined.

(** *** The clients *)

Definition smi : SmiInformers := {|
  smi_TrafficSplit := store_of {["demo/shop-split" := split]};
  smi_HTTPRouteGroup := store_of ∅;
  smi_TCPRoute := store_of ∅;
  smi_TrafficTarget := store_of {["demo/access" := target]};
|}.

Lemma ListTrafficTargets_destination_witness :
  target ∈ ListTrafficTargets smi controller [WithTrafficTargetDestination bookstore].
Proof.
  apply (ListTrafficTargets_destination smi controller bookstore target); [discriminate|].
  split; [change (target ∈ [target]); by left|]. split_and!; try reflexivity.
  - discriminate.
  - intros r ->%list_elem_of_singleton. by left.
Defined.

Lemma ListTrafficSplits_apex_witness :
  split ∈ ListTrafficSplits smi controller [WithTrafficSplitApexService shop_svc].
Proof.
  apply (ListTrafficSplits_apex smi controller shop_svc split); [discriminate|].
  split; [change (split ∈ [split]); by left|]. split_and!; reflexivity.
Defined.

Lemma GetIngressBackendPolicy_unique_witness :
  GetIngressBackendPolicy policies bookstore_svc = Some ingress.
Proof.
  apply (GetIngressBackendPolicy_unique policies bookstore_svc ingress).
  - intros x y. change (List (pi_IngressBackend policies)) with [ingress].
    intros ->%list_elem_of_singleton ->%list_elem_of_singleton Hne. by destruct Hne.
  - change (List (pi_IngressBackend policies)) with [ingress]. split; [by left|].
    split; [reflexivity|]. eexists. split; [by left|]. split; reflexivity.
Defined.

Lemma demo_hosts u : u ∈ List (pi_UpstreamTrafficSetting policies) → utss_Host (uts_Spec u) ≠ "".
Proof.
  change (List (pi_UpstreamTrafficSetting policies)) with [setting].
  by intros ->%list_elem_of_singleton.
Qed.

Lemma GetUpstreamTrafficSetting_by_service_witness :
  ∃ r, GetUpstreamTrafficSetting policies (by_service bookstore_svc) = Ret r.
Proof.
  destruct (GetUpstreamTrafficSetting_by_service policies bookstore_svc demo_hosts) as (r & E & _).
  exists r. exact E.
Defined.

Lemma GetUpstreamTrafficSetting_by_host_panics_witness :
  GetUpstreamTrafficSetting policies (by_host "shop.demo.svc.cluster.local") = Panic.
Proof.
  apply (GetUpstreamTrafficSetting_by_host_panics policies "shop.demo.svc.cluster.local"); [discriminate|].
  exists setting, []. split; [reflexivity|discriminate].
Defined.

(** *** Traffic policies *)

Definition demo_policy : OutboundTrafficPolicy := NewOutboundTrafficPolicy "p" ["h"].

Lemma AddRoute_spec_witness :
  routes_unique (AddRoute demo_policy WildCardRouteMatch None [mkWeightedCluster "c" 100]).1.
Proof.
  apply (AddRoute_spec demo_policy WildCardRouteMatch None [mkWeightedCluster "c" 100]). constructor.
Defined.

Definition demo_rule (p : string) : Rule :=
  mkRule (NewRouteWeightedCluster WildCardRouteMatch [mkWeightedCluster "c" 100] None) {[p]}.

Lemma demo_rule_NoDup p : NoDup (rule_Route <$> [demo_rule p]).
Proof. apply NoDup_singleton. Qed.

Lemma MergeRules_spec_witness :
  permits (MergeRules [demo_rule "a"] [demo_rule "b"]) (rule_Route (demo_rule "a")) "b".
Proof.
  destruct (MergeRules_spec [demo_rule "a"] [demo_rule "b"] (demo_rule_NoDup "a")) as (_ & _ & Hp).
  apply Hp. right. exists (demo_rule "b"). split; [by left|]. split; [reflexivity|].
  simpl. apply elem_of_singleton. reflexivity.
Defined.

Definition demo_store : Store := {|
  st_policies := {[1%positive := mkPolicyObj "p" ["*"] [1%positive] None;
                   2%positive := mkPolicyObj "q" ["*"] [2%positive] None]};
  st_rules := {[1%positive := demo_rule "a"; 2%positive := demo_rule "b"]};
|}.

Lemma MergeRules_st_refines_witness :
  ∃ st' res, MergeRules_st demo_store [1%positive] [2%positive] = Some (st', res) ∧
    reads st' res (MergeRules [demo_rule "a"] [demo_rule "b"]).
Proof.
  destruct (MergeRules_st_refines demo_store [1%positive] [2%positive] [demo_rule "a"] [demo_rule "b"])
    as (st' & res & E & Hr & _).
  - apply (bool_decide_unpack _). reflexivity.
  - repeat constructor.
  - repeat constructor.
  - exists st', res. split; [exact E|exact Hr].
Defined.

Lemma MergeInboundPolicies_one_host_witness :
  ∃ st' o, MergeInboundPolicies demo_store [1%positive] [2%positive] = Some (st', [1%positive]) ∧
    holds st' "*" (1%positive, o, MergeRules [demo_rule "a"] [demo_rule "b"]).
Proof.
  apply (MergeInboundPolicies_one_host demo_store "*" 1%positive (mkPolicyObj "p" ["*"] [1%positive] None)
    [demo_rule "a"] [(2%positive, mkPolicyObj "q" ["*"] [2%positive] None, [demo_rule "b"])]).
  - apply (bool_decide_unpack _). reflexivity.
  - apply (bool_decide_unpack _). reflexivity.
  - split; [reflexivity|]. split; [reflexivity|]. repeat constructor.
  - constructor; [|constructor]. split; [reflexivity|]. split; [reflexivity|]. repeat constructor.
Defined.

Lemma mergeRoutesWeightedClusters_spec_witness :
  NoDup (rwc_HTTPRouteMatch <$> mergeRoutesWeightedClusters [rule_Route (demo_rule "a")]
           [rule_Route (demo_rule "b")]).
Proof.
  apply (mergeRoutesWeightedClusters_spec [rule_Route (demo_rule "a")] [rule_Route (demo_rule "b")]).
  apply NoDup_singleton.
Defined.

(** ** A run of the broker

    Two endpoints are added, three seconds apart; each update is broadcast after its
    sliding window, and then time goes on. *)
Module Run.
Definition endpointAdded : PubSubMessage := mkPubSubMessage EndpointAdded ObjOther ObjOther.

Definition message (b : Broker) : Broker := default b (processEvent endpointAdded b).
Definition fireSliding (b : Broker) : Broker :=
  with_dispatcher b (with_sliding (b_dispatcher b) (fire (d_slidingTimer (b_dispatcher b)))).
Definition dispatch (b : Broker) : Broker :=
  match onSliding (b_now b) (b_dispatcher b) with Some (d, e) => dispatched b d e | None => b end.

Definition first_update : Broker := message NewBroker.
Definition first_fired : Broker := fireSliding (at_time first_update (2 * second)).
Definition first_broadcast : Broker := dispatch first_fired.
Definition second_update : Broker := message (at_time first_broadcast (3 * second)).
Definition second_fired : Broker := fireSliding (at_time second_update (5 * second)).
Definition second_broadcast : Broker := dispatch second_fired.
Definition final : Broker := at_time second_broadcast (20 * second).

(** One step to a given state. *)
Ltac run_time :=
  apply step_time; [reflexivity|]; intros _; split; (split; [reflexivity|]); intros ? [= <-]; by apply Z.leb_le.
Ltac run_fire := eapply step_fire_sliding; [reflexivity|by apply Z.leb_le].
Ltac run_to b := apply (rtc_l _ _ b); [first [run_time | run_fire | by eapply step_sliding]|].

Lemma first_fired_reachable : reachable true first_fired.
Proof.
  apply (rtc_l _ _ first_update); [by apply (step_message true _ endpointAdded)|].
  run_to (at_time first_update (2 * second)). run_to first_fired. reflexivity.
Qed.

Lemma final_reachable : reachable true final.
Proof.
  unfold reachable. transitivity first_fired; [exact first_fired_reachable|].
  run_to first_broadcast. run_to (at_time first_broadcast (3 * second)).
  apply (rtc_l _ _ second_update); [by apply (step_message true _ endpointAdded)|].
  run_to (at_time second_update (5 * second)). run_to second_fired. run_to second_broadcast. run_to final.
  reflexivity.
Qed.

Lemma dispatcher_never_blocks_witness : is_Some (onSliding (b_now first_fired) (b_dispatcher first_fired)).
Proof. apply (dispatcher_never_blocks true first_fired first_fired_reachable). reflexivity. Defined.

Lemma broadcast_within_max_window_witness :
  ∃ t' e' t'', (t', e') ∈ b_published final ∧ ev_topic e' = "proxy-update" ∧
    (t'', e') ∈ b_updates final ∧ (3 * second ≤ t'' ≤ t')%Z ∧ (t' ≤ 3 * second + proxyUpdateMaxWindow)%Z.
Proof.
  apply (broadcast_within_max_window final (3 * second)
           (mkProxyUpdateEvent endpointAdded "proxy-update") final_reachable).
  - right. left.
  - reflexivity.
Defined.

Lemma broadcasts_spaced_witness : (2 * second + proxyUpdateSlidingWindow ≤ 5 * second)%Z.
Proof.
  apply (broadcasts_spaced true final 0 1 (2 * second, mkProxyUpdateEvent endpointAdded "proxy-update")
           (5 * second, mkProxyUpdateEvent endpointAdded "proxy-update") final_reachable).
  - lia.
  - reflexivity.
  - reflexivity.
Defined.

Lemma time_passes_witness : ∃ b', rtc (step true) first_fired b' ∧ (b_now first_fired < b_now b')%Z.
Proof. apply (time_passes first_fired first_fired_reachable). Defined.
End Run.
