(* ===== verification/DemoPipy.v ===== *)
(** * The small mesh, as its sidecars see it

    The job for the sidecar of [bookstore], and a request of [bookbuyer] that the scripts
    of the sidecar route; the theorems about the configuration are applied to them. *)

From S2P Require Import Prelude GoStrings Net Identity Service PolicyApi TrafficPolicy K8s.
From S2P Require Import K8sClient KubeProvider Smi PolicyClient Catalog CatalogEgress.
From S2P Require Import CatalogInbound CatalogOutbound CatalogIngress MeshConfig Pipy PipyPlugin.
From S2P Require Import PipyServer PipyInbound PipyOutbound PipySidecar PipyJob PipyMesh Demo.

Module Sidecar.
Import Mesh.
#[export] Existing Instance insertion_order.

(** A pattern matches what starts with it, and a range contains its own address. *)
Definition RegExp (pattern : string) : option (string → bool) :=
  Some (λ s, bool_decide (pattern = RegexMatchAll) || String.prefix pattern s).
Definition contains (range address : string) : bool := bool_decide (range = address +:+ "/32").

Definition server : @Server unit := mkServer zero_MeshConfigSpec ∅ [] [] [] (λ uuid,
  if decide (uuid = "bookbuyer") then Some (mkPipyProxy "bookbuyer" "bookbuyer.demo" (Some "10.0.0.1") None)
  else if decide (uuid = "bookstore") then Some (mkPipyProxy "bookstore" "bookstore.demo" (Some "10.0.0.2") None)
  else None).
Definition proxy : PipyProxy := mkPipyProxy "bookstore" "bookstore.demo" (Some "10.0.0.2") None.

Definition run : outcome (option (PipyConf * bool)) :=
  Run catalog "cluster.local" Matches (λ _, None) (λ _ _, None) hashMatch hashCluster Some server proxy.

Definition conf : PipyConf := match run with Ret (Some (c, _)) => c | _ => zero_PipyConf end.
Definition again : bool := match run with Ret (Some (_, b)) => b | _ => false end.

Lemma run_shape (r : outcome (option (PipyConf * bool))) :
  match r with Ret (Some _) => true | _ => false end = true →
  r = Ret (Some (match r with Ret (Some (c, _)) => c | _ => zero_PipyConf end,
                 match r with Ret (Some (_, b)) => b | _ => false end)).
Proof. by destruct r as [[[c b]|]|]. Qed.

Lemma run_Ret : run = Ret (Some (conf, again)).
Proof. apply run_shape. vm_compute. reflexivity. Qed.

(** Every pattern compiles, so that no rule throws. *)
Lemma demo_jsRule {C} (c : C) (m : HTTPMatchRule) : returns (jsRule RegExp c m).
Proof.
  unfold jsRule. assert (returns (matchPath RegExp m)) as [path ->].
  { unfold matchPath, RegExp. repeat case_decide; eexists; reflexivity. }
  assert (returns (headerRules RegExp m)) as [hs ->]; [|by eexists].
  unfold headerRules. induction (map_to_list (hmr_Headers m)) as [|kv l [hs Hl]]; [by eexists|].
  simpl in *. rewrite Hl. by eexists.
Qed.

(** The match for the port of the service, and the request of the client. *)
Definition tm : InboundTrafficMatch := default zero_InboundTrafficMatch (portMatch conf 80).

Definition request : Request :=
  mkRequest "GET" "/buy/it" (list_to_map [("host", "bookstore.demo"); ("serviceidentity", "bookbuyer.demo")]).

Definition routed : outcome (option InboundHTTPRouteRule * bool) := portHandler RegExp contains tm "10.0.0.1" request.
Definition no_route : InboundHTTPRouteRule := newInboundRule (newHTTPMatch WildCardRouteMatch).
Definition route : InboundHTTPRouteRule :=
  match routed with Ret (Some r, _) => r | _ => no_route end.
End Sidecar.
Import Mesh Sidecar.

(** The job for the sidecar of the client, and its match for the HTTP services of port 80. *)
Definition client : PipyProxy := mkPipyProxy "bookbuyer" "bookbuyer.demo" (Some "10.0.0.1") None.
Definition client_run : outcome (option (PipyConf * bool)) :=
  Run catalog "cluster.local" Matches (λ _, None) (λ _ _, None) hashMatch hashCluster Some server client.
Definition client_conf : PipyConf := match client_run with Ret (Some (c, _)) => c | _ => zero_PipyConf end.
Definition client_again : bool := match client_run with Ret (Some (_, b)) => b | _ => false end.
Definition client_otp : Pipy.OutboundTrafficPolicy := default zero_OutboundTrafficPolicy (pc_Outbound client_conf).
Definition client_tm : OutboundTrafficMatch :=
  default zero_OutboundTrafficMatch (potp_namedTrafficMatches client_otp !! "80=http").

Lemma client_run_Ret : client_run = Ret (Some (client_conf, client_again)).
Proof. apply run_shape. vm_compute. reflexivity. Qed.

(** The application names another identity, which its sidecar overwrites. *)
Definition sent : Request :=
  mkRequest "GET" "/buy/it" (list_to_map [("host", "bookstore.demo"); ("serviceidentity", "bookthief.demo")]).
Definition client_routed : outcome (option HTTPRouteRule * Request) := outboundPortHandler RegExp client_tm sent.
Definition client_route : HTTPRouteRule :=
  match client_routed with Ret (Some r, _) => r | _ => ihrr_Rule no_route end.
Definition received : Request := match client_routed with Ret (_, r) => r | _ => sent end.

Lemma client_request_authorised_witness :
  serviceidentity sent = "bookthief.demo" ∧ serviceidentity received = "bookbuyer.demo" ∧
  allowAddress contains conf "10.0.0.1" = true ∧
  ("cert" ≠ "" → peer_ok (mkPeer true "bookbuyer.demo.cluster.local" []) = true) ∧
  ∃ t m, authorises catalog bookstore t m ∧ req_method received ∈ allowedMethods (newHTTPMatch m) ∧
    requestMatches RegExp (newHTTPMatch m) received = Ret true ∧
    (tt_Sources t = [] ∨ ∃ src, src ∈ tt_Sources t ∧
       pxy_Identity client = ToServiceIdentity (trafficTargetIdentityToSvcAccount src)).
Proof.
  split; [vm_compute; reflexivity|]. split; [vm_compute; reflexivity|].
  apply (client_request_authorised catalog catalog "cluster.local" "cluster.local" Matches (λ _ : unit, None)
    (λ _ _, None) (λ _ _, None) hashMatch hashMatch hashCluster hashCluster Some RegExp contains bookstore server server
    proxy client conf client_conf again client_again "80=http" client_otp client_tm sent received received client_route
    "cert" true 80%Z "10.0.0.1" (mkPeer true "bookbuyer.demo.cluster.local" []) route).
  - reflexivity.
  - exact (proj2 demo_dotless).
  - discriminate.
  - reflexivity.
  - exact run_Ret.
  - exact client_run_Ret.
  - vm_compute. reflexivity.
  - vm_compute. reflexivity.
  - vm_compute. reflexivity.
  - reflexivity.
  - vm_compute. reflexivity.
  - vm_compute. discriminate.
Defined.

(** A workload of the mesh that writes the header itself, past its own sidecar: with a
    certificate for [bookthief], which is in no TrafficTarget, it gets the route of
    [bookbuyer]. *)
Example header_identity_trusted :
  (∀ t m, authorises catalog bookstore t m → subject (mkK8sServiceAccount "demo" "bookthief") ∉ tt_Sources t) ∧
  serviceidentity request = "bookbuyer.demo" ∧
  inbound RegExp contains conf "cert" true 80 "10.0.0.1" (mkPeer true "bookthief.demo.cluster.local" []) request =
    Ret (Routed (Some route) false).
Proof.
  split; [|split; vm_compute; reflexivity].
  intros t m [-> ->]%demo_authorises. apply (bool_decide_unpack _). vm_compute. exact I.
Qed.

Lemma request_served_witness :
  ∃ svc0 tm, svc0 ∈ getUpstreamServicesIncludeApex catalog [shop_svc; bookstore_svc] ∧
    SidecarLocalClusterName svc0 = SidecarLocalClusterName bookstore_svc ∧
    portMatch conf (ms_Port svc0) = Some tm ∧ ∀ remoteAddress,
      ¬ map_Exists (λ range _, contains range remoteAddress = true) (itm_SourceIPRanges tm) →
      itm_HTTPHostPort2Service tm !! "bookstore.demo" = Some (FQDN bookstore_svc) →
      ∃ route, portHandler RegExp contains tm remoteAddress request = Ret (Some route, false).
Proof.
  apply (request_served catalog "cluster.local" Matches (λ _ : unit, None) (λ _ _, None) hashMatch hashCluster
    Some bookstore server proxy conf again eq_refl (proj2 demo_dotless) ltac:(discriminate)
    eq_refl run_Ret RegExp contains [shop_svc; bookstore_svc] bookstore_svc target buy (subject bookbuyer) request).
  - vm_compute. reflexivity.
  - right. by left.
  - split; [by split_and!..|]. unfold is_uint16. simpl. lia.
  - by left.
  - split_and!; [rewrite demo_targets; by left|vm_compute; reflexivity..|]. apply head_elem. vm_compute. discriminate.
  - vm_compute. discriminate.
  - by left.
  - vm_compute. reflexivity.
  - apply (bool_decide_unpack _). vm_compute. exact I.
  - vm_compute. reflexivity.
  - intros t m [-> ->]%demo_authorises. split; [discriminate|]. apply demo_jsRule.
Defined.

(** *** The generators *)

Definition demo_itp : Pipy.InboundTrafficPolicy :=
  value zero_InboundTrafficPolicy
    (generatePipyInboundTrafficPolicy catalog false "cluster.local" (mkPluginPolicies ∅ ∅) None demo_inbound).

Lemma generatePipyInbound_exact_witness :
  is_Some (routeRulesAt demo_itp 80 (FQDN bookstore_svc)) ∧
  ∀ port name h r s, routeRulesAt demo_itp port name = Some h → r ∈ ihrs_RouteRules h → admits r s →
    ∃ d, named demo_inbound name d ∧ ruleCore r = catalogCore d.
Proof.
  split; [eexists; vm_compute; reflexivity|]. intros port name h r s Hh Hr Hs.
  destruct (generatePipyInbound_exact catalog false "cluster.local" (mkPluginPolicies ∅ ∅) demo_inbound demo_itp)
    as [Hrules _].
  - apply value_Ret. vm_compute. reflexivity.
  - destruct (Hrules port name h Hh) as [_ Hall]. destruct (Hall r Hr) as [Hadm _].
    destruct (Hadm s Hs) as (d & Hd & Hc & _). exists d. exact (conj Hd Hc).
Defined.

Definition demo_out : PipyConf * bool :=
  value (zero_PipyConf, false) (jobOutbound catalog "cluster.local" hashMatch hashCluster buyer_id zero_PipyConf).
Definition demo_otp' : Pipy.OutboundTrafficPolicy := default zero_OutboundTrafficPolicy (pc_Outbound demo_out.1).

Lemma jobOutbound_served_witness :
  demo_out.2 = true ∧ potp_ClustersConfigs demo_otp' ≠ ∅ ∧
  ∀ key tm c, potp_namedTrafficMatches demo_otp' !! key = Some tm → sendsTo tm c → servedBy demo_otp' c.
Proof.
  split; [vm_compute; reflexivity|]. split; [apply (bool_decide_unpack _); vm_compute; exact I|].
  apply (jobOutbound_served catalog "cluster.local" hashMatch hashCluster buyer_id zero_PipyConf demo_out.1 demo_out.2).
  - reflexivity.
  - rewrite <-surjective_pairing. apply value_Ret. vm_compute. reflexivity.
  - vm_compute. reflexivity.
  - vm_compute. reflexivity.
Defined.

Lemma serviceHandler_reference_witness :
  serviceHandler RegExp [no_route; route] request = routeOf RegExp [no_route; route] request ∧
  serviceHandler RegExp [no_route; route] request = Ret (Some route).
Proof.
  split; [|vm_compute; reflexivity]. apply serviceHandler_reference. intros c _. apply demo_jsRule.
Defined.

Lemma catch_all_stays_first_witness :
  hmr_Path (hrr_Match (ihrr_Rule route)) = "/buy" ∧
  ∃ rules, sort_rules (H0 := insertion_order) inbound_less [no_route; route] = no_route :: rules.
Proof.
  split; [vm_compute; reflexivity|]. apply catch_all_stays_first; [reflexivity|].
  intros r ->%list_elem_of_singleton. exists "buy". vm_compute. reflexivity.
Defined.

Lemma balance_serves_witness :
  ∃ otp' cc', pc_Outbound (balance demo_out.1) = Some otp' ∧
    potp_ClustersConfigs otp' !! "demo/bookstore|8080" = Some cc' ∧
    map_Exists (λ _ e, wze_Weight e ≠ 0%Z) (cc_Endpoints cc').
Proof.
  destruct (balance_serves demo_out.1 demo_otp' "demo/bookstore|8080"
    (default zero_ClusterConfigs (potp_ClustersConfigs demo_otp' !! "demo/bookstore|8080")))
    as (otp' & cc' & Ho & Hc & He & _).
  - vm_compute. reflexivity.
  - vm_compute. reflexivity.
  - apply (bool_decide_unpack _). vm_compute. exact I.
  - apply map_Forall_to_list. vm_compute. repeat constructor.
  - exists otp', cc'. exact (conj Ho (conj Hc He)).
Defined.
