(* ===== verification/DemoEnvoy.v ===== *)
(** * The small mesh with Envoy sidecars

    The sidecar of [bookstore], what it is sent, and a request of [bookbuyer]; engines with
    the behaviour that is assumed of Envoy; the theorems about Envoy are applied to them. *)

From S2P Require Import Prelude GoStrings Net Identity Service PolicyApi TrafficPolicy K8s.
From S2P Require Import K8sClient KubeProvider Smi PolicyClient Catalog CatalogEgress.
From S2P Require Import CatalogInbound CatalogOutbound CatalogIngress MeshConfig Certificate Demo.
From S2P Require Import EnvoyRbac EnvoyProxy EnvoyAds EnvoyRoute EnvoyXds.

#[local] Open Scope Z_scope.

Module Envoy.
Import Mesh.
#[export] Existing Instance insertion_order.

(** ** Engines *)

Definition allows (rbac : RBAC) (c : Connection) : bool :=
  existsb (λ np, existsb (λ p, permission_matches p c) (rp_Permissions np.2) && existsb (λ p, principal_matches p c) (rp_Principals np.2))
    (map_to_list (rbac_Policies rbac)).

#[export] Instance allows_engine : RbacEngine allows.
Proof.
  intros rbac c. unfold allows. rewrite existsb_exists. setoid_rewrite Exists_exists. split.
  - intros ([n p] & Hin%list_elem_of_In%elem_of_map_to_list & Hm). simpl in Hm. apply andb_true_iff in Hm as [Hp Hq].
    apply existsb_exists in Hp as (perm & ?%list_elem_of_In & ?). apply existsb_exists in Hq as (prin & ?%list_elem_of_In & ?). exists n, p. by split_and!; [|exists perm|exists prin].
  - intros (n & p & Hin & (perm & ? & ?) & (prin & ? & ?)). exists (n, p). split; [by apply list_elem_of_In, elem_of_map_to_list|].
    apply andb_true_iff. split; apply existsb_exists; [exists perm|exists prin]; by rewrite <-list_elem_of_In.
Qed.

(** Patterns that stand for all, or for themselves. *)
Definition regex (pattern s : string) : bool := bool_decide (pattern = RegexMatchAll) || bool_decide (s = pattern).

Lemma regex_laws : RegexLaws regex.
Proof.
  split; [done|]. intros w s Hw. unfold regex. rewrite bool_decide_false; [done|]. intros ->. by destruct Hw as [_ [=]].
Qed.

Definition choose (routes : list Route) (q : HttpRequest) : option Route :=
  first_some (λ r, if route_matches regex (xr_Match r) q then Some r else None) routes.

#[export] Instance choose_engine : RouteEngine regex choose.
Proof. by intros routes q. Qed.

Definition accepts (t : SecretType) (peer : Peer) : bool :=
  match t with
  | ValidationContext ca sans => peer_signedBy peer ca && (bool_decide (sans = []) || existsb (λ san, bool_decide (san ∈ peer_SANs peer)) sans)
  | TlsCertificate _ _ => false
  end.

#[export] Instance accepts_engine : ValidationEngine accepts.
Proof.
  intros ca sans peer. simpl. rewrite andb_true_iff, orb_true_iff, existsb_exists, bool_decide_eq_true.
  setoid_rewrite <-list_elem_of_In. by setoid_rewrite bool_decide_eq_true.
Qed.

(** ** The sidecar *)

Definition proxy : Proxy := NewProxy "sidecar" "bookstore" "bookstore.demo" 0.
Definition flags : FeatureFlags := mkFeatureFlags true false false false true false false false false false.

Definition rds (p : Proxy) (req : option DiscoveryRequest) : outcome (result K8sError (list RouteConfiguration)) :=
  rds_NewResponse catalog "cluster.local" Matches hashMatch hashCluster flags p req.

Definition routes (names : list string) : DiscoveryRequest := mkDiscoveryRequest TypeRDS "" "" names None.
Definition rcs : list RouteConfiguration :=
  match rds proxy (Some (routes ["rds-inbound.8080"; "rds-inbound.99"])) with Ret (Ok l) => l | _ => [] end.

Definition rc : RouteConfiguration := default (NewRouteConfigurationStub "") (head (filter (λ rc, rc_Name rc = "rds-inbound.8080") rcs)).
Definition vh : VirtualHost := default (mkVirtualHost "" [] [] None) (head (rc_VirtualHosts rc)).
Definition request : HttpRequest := mkHttpRequest "GET" "/buy" "bookstore.demo" ∅.
Definition buyer : Connection := mkConnection (Some "bookbuyer.demo.cluster.local") 8080.
End Envoy.

Import Mesh Envoy.

Lemma demo_rds : rds proxy (Some (routes ["rds-inbound.8080"; "rds-inbound.99"])) = Ret (Ok rcs).
Proof.
  assert (∀ r : outcome (result K8sError (list RouteConfiguration)), match r with Ret (Ok _) => true | _ => false end = true →
    r = Ret (Ok match r with Ret (Ok l) => l | _ => [] end)) as Hr by by intros [[]|].
  apply Hr. vm_compute. reflexivity.
Qed.

Lemma demo_methods t m : authorises catalog bookstore t m → methods_ok m.
Proof.
  intros [_ ->]%demo_authorises w Hw. right. assert (w ∈ ["GET"]) as ->%list_elem_of_singleton by exact Hw. by vm_compute.
Qed.

Lemma demo_rc : rc ∈ rcs ∧ vh ∈ rc_VirtualHosts rc.
Proof.
  assert (rc ∈ filter (λ rc, rc_Name rc = "rds-inbound.8080") rcs) as [_ ?]%list_elem_of_filter.
  { apply head_elem. vm_compute. discriminate. }
  split; [done|]. apply head_elem. vm_compute. discriminate.
Qed.

Lemma demo_authorised : authorises catalog bookstore target buy.
Proof.
  split_and!; [rewrite demo_targets; by left|vm_compute; reflexivity..|]. apply head_elem. vm_compute. discriminate.
Qed.

Lemma demo_match : match_request regex buy request.
Proof.
  split; [vm_compute; reflexivity|]. split; [right; apply (bool_decide_unpack _); vm_compute; exact I|].
  assert (default ∅ (hrm_Headers buy) = ∅) as -> by (vm_compute; reflexivity). intros k v Hk. discriminate Hk.
Qed.

#[local] Instance demo_envoy_spec_ok : MeshSpecOk (mc_kubeController catalog) (mc_meshSpec catalog) := smi_client_ok _ _.

Lemma envoy_request_authorised_witness :
  ∃ t m, authorises catalog bookstore t m ∧ match_request regex m request ∧
    (tt_Sources t = [] ∨ ∃ src, src ∈ tt_Sources t ∧
       conn_principal buyer = Some (sa_AsPrincipal (trafficTargetIdentityToSvcAccount src) (mc_GetTrustDomain catalog))).
Proof.
  apply (envoy_request_authorised catalog "cluster.local" Matches hashMatch hashCluster flags regex choose allows regex_laws
    bookstore proxy (Some (routes ["rds-inbound.8080"; "rds-inbound.99"])) rcs rc 8080 vh request buyer
    (Some (mkWeightedClusterAction [mkClusterWeight "demo/shop|8080|local" 100] 100))).
  - reflexivity.
  - exact (proj2 demo_dotless).
  - discriminate.
  - reflexivity.
  - exact demo_methods.
  - reflexivity.
  - discriminate.
  - exact demo_rds.
  - exact (proj1 demo_rc).
  - vm_compute. reflexivity.
  - exact (proj2 demo_rc).
  - vm_compute. reflexivity.
Defined.

Lemma envoy_request_served_witness :
  ∃ rc vh, rc ∈ rcs ∧ rc_Name rc = "rds-inbound.8080" ∧ vh ∈ rc_VirtualHosts rc ∧
    vh_Name vh = "inbound_virtual-host|bookstore.demo.svc.cluster.local" ∧ vh_Domains vh = GetHostnamesForService "cluster.local" bookstore_svc true ∧
    envoy_routes choose allows (vh_Routes vh) request buyer =
      Some (Some (mkWeightedClusterAction [mkClusterWeight "demo/bookstore|8080|local" 100] 100)).
Proof.
  apply (envoy_request_served catalog "cluster.local" Matches hashMatch hashCluster flags regex choose allows regex_laws
    bookstore proxy (Some (routes ["rds-inbound.8080"; "rds-inbound.99"])) rcs [shop_svc; bookstore_svc] bookstore_svc target buy
    (subject bookbuyer) request buyer).
  - reflexivity.
  - exact (proj2 demo_dotless).
  - discriminate.
  - reflexivity.
  - exact demo_methods.
  - reflexivity.
  - discriminate.
  - exact demo_rds.
  - vm_compute. reflexivity.
  - right. by left.
  - reflexivity.
  - exact demo_authorised.
  - by left.
  - vm_compute. reflexivity.
  - exact demo_match.
  - intros t' m' [_ E]%demo_authorises _. exact E.
Defined.

Lemma network_rbac_exact_witness : allows (buildInboundRBACPolicies catalog store_id "cluster.local") buyer = true.
Proof.
  apply (network_rbac_exact catalog allows store_id "cluster.local" buyer).
  - reflexivity.
  - rewrite demo_targets. apply NoDup_singleton.
  - exists target, []. split_and!.
    + rewrite demo_targets. by left.
    + reflexivity.
    + vm_compute. reflexivity.
    + right. exists (subject bookbuyer). split; [by left|vm_compute; reflexivity].
    + by left.
Defined.

(** ** The dialogs *)

Definition demo_eds (p : Proxy) (req : DiscoveryRequest) : outcome (result string (list ClusterLoadAssignment)) :=
  r ← eds_NewResponse catalog p (Some req); Ret (Ok r).

Definition handlers : gmap TypeURI (Proxy → DiscoveryRequest → result string (list Resource)) := list_to_map [
  (TypeRDS, asHandler RouteResource (λ p req, rds p (Some req))); (TypeEDS, asHandler EndpointResource demo_eds)].
Definition clock (n : nat) : Z := 1000 + Z.of_nat n.
Definition stream (p : Proxy) : Stream Resource := mkStream p [].

Abbreviation demo_dialog := (dialog resourceName (λ _, true) clock (λ _, true) handlers).

Lemma rds_dialog_ends_witness :
  ∃ resp, dresp_Resources resp = RouteResource <$> rcs ∧ ∀ fuel,
    st_responses (demo_dialog (S fuel) (stream proxy) (routes ["rds-inbound.8080"; "rds-inbound.99"])) = [resp].
Proof.
  apply (rds_dialog_ends catalog (λ _, true) clock (λ _, true) handlers (λ _, eq_refl) (λ _, eq_refl)
    "cluster.local" Matches hashMatch hashCluster flags (stream proxy) (routes ["rds-inbound.8080"; "rds-inbound.99"])
    (respondToRequest proxy (routes ["rds-inbound.8080"; "rds-inbound.99"])).1 rcs).
  - reflexivity.
  - reflexivity.
  - vm_compute. reflexivity.
  - exact demo_rds.
Defined.

Definition bookbuyer_proxy : Proxy := NewProxy "sidecar" "bookbuyer" "bookbuyer.demo" 0.

Lemma eds_dialog_ends_iff_witness :
  ¬ ∃ n, ∀ fuel, (length (st_responses (demo_dialog fuel (stream bookbuyer_proxy)
      (mkDiscoveryRequest TypeEDS "" "" ["demo/bookstore|8080"; "demo/bookstore|08080"] None))) ≤ n)%nat.
Proof.
  intros Hends. apply (eds_dialog_ends_iff catalog (λ _, true) clock (λ _, true) handlers (λ _, eq_refl) (λ _, eq_refl)) in Hends.
  - apply Forall_cons in Hends as [_ [Hno _]%Forall_cons]. destruct Hno as (svc & E & En). vm_compute in E. injection E as <-. vm_compute in En. discriminate En.
  - reflexivity.
  - reflexivity.
  - vm_compute. reflexivity.
  - discriminate.
  - intros name svc Hin E. assert (svc = mkMeshService "demo" "bookstore" 0 8080 "" "") as ->.
    { simpl in Hin. apply elem_of_cons in Hin as [->|Hin]; [vm_compute in E; congruence|].
      apply list_elem_of_singleton in Hin as ->. vm_compute in E. congruence. }
    eexists. vm_compute. reflexivity.
Defined.

(** ** Secrets *)

Definition cert : MeshCertificate := mkMeshCertificate "bookbuyer.demo.cluster.local" ["bookbuyer.demo.cluster.local"] "1" 0 "chain" "key" "ca" "roots" "i" "i" "service".
Definition secret_request : DiscoveryRequest := mkDiscoveryRequest TypeSDS "" "" ["service-cert:demo/bookbuyer"; "root-cert-for-mtls-outbound:demo/bookstore"] None.

Lemma outbound_peers_exact_witness :
  ∃ secrets secret, sds_NewResponse catalog "cluster.local" (@Ok string _ cert) secret_request = Ok secrets ∧ secret ∈ secrets ∧
    sec_Name secret = "root-cert-for-mtls-outbound:demo/bookstore" ∧
    accepts (sec_Type secret) (mkPeer (λ _, true) ["bookstore.demo.cluster.local"]) = true ∧
    accepts (sec_Type secret) (mkPeer (λ _, true) ["bookbuyer.demo.cluster.local"]) = false.
Proof.
  destruct (outbound_peers_exact (E := string) catalog "cluster.local" accepts cert secret_request "demo" "bookstore")
    as (secrets & secret & Hs & Hin & Hn & _ & Hex); [discriminate|discriminate|reflexivity..|right; by left|].
  assert (mc_ListServiceIdentitiesForService catalog (mkMeshService "demo" "bookstore" 0 0 "" "") = ["bookstore.demo"]) as Hids
    by (vm_compute; reflexivity). rewrite Hids in Hex.
  exists secrets, secret. split; [exact Hs|]. split; [exact Hin|]. split; [exact Hn|]. split.
  - apply Hex. split; [reflexivity|]. right. exists "bookstore.demo". split; [by left|]. apply (bool_decide_unpack _). vm_compute. exact I.
  - apply not_true_iff_false. intros [_ [Hnil|(si & ->%list_elem_of_singleton & Hsan)]]%Hex; [discriminate Hnil|].
    apply (bool_decide_pack _) in Hsan. vm_compute in Hsan. exact Hsan.
Defined.
