(* ===== verification/DemoListeners.v ===== *)
(** * The listeners of the small mesh

    The theorems about listeners and clusters, applied to the sidecars of the mesh of
    [Demo]; to a variant in which the service [bookstore] has two ports with one target
    port, and to one in which [shop] has two traffic splits. *)

From S2P Require Import Prelude GoStrings Net Identity Service PolicyApi TrafficPolicy K8s K8sClient KubeProvider Smi PolicyClient Catalog CatalogEgress.
From S2P Require Import CatalogInbound CatalogOutbound CatalogIngress MeshConfig Certificate EnvoyRbac EnvoyProxy EnvoyAds EnvoyRoute EnvoyXds.
From S2P Require Import EnvoyCds EnvoyLds EnvoyMesh Demo DemoEnvoy.

#[local] Open Scope Z_scope.

Module Listeners.
Import Mesh.
Definition settings : EnvoySettings :=
  mkEnvoySettings (mcs_Sidecar zero_MeshConfigSpec) true "jaeger.osm-system.svc.cluster.local" 9411 "/api/v2/spans"
    (mkExtAuthConfig false "" 0 "" 0 false) true.

Definition encodesC (m : CdsMessage) : bool := true.
Definition encodesL (m : LdsMessage) : bool := true.
#[global] Instance encodesL_ok : Encoder encodesL.
Proof. done. Qed.

Definition cds (mc : MeshCatalog) : Proxy → outcome (result CdsError (list Cluster)) :=
  cds_NewResponse encodesC mc "cluster.local" Matches hashMatch hashCluster settings.
Definition lds (mc : MeshCatalog) : Proxy → outcome (result LdsError (list Listener)) :=
  lds_NewResponse encodesL "module" mc "cluster.local" Matches hashMatch hashCluster settings.

Definition answer {E A} (r : outcome (result E (list A))) : list A := match r with Ret (Ok l) => l | _ => [] end.
Definition answers {E A} (r : outcome (result E (list A))) : bool := match r with Ret (Ok _) => true | _ => false end.

(** Envoy's choice, as far as the law says. *)
Definition asks (ci : ConnInfo) (fc : FilterChain) : bool :=
  match fc_FilterChainMatch fc with
  | None => false
  | Some m => bool_decide (fcm_DestinationPort m = Some (ci_DestinationPort ci)) && bool_decide (ci_Sni ci ∈ fcm_ServerNames m) &&
    bool_decide (fcm_TransportProtocol m = ci_TransportProtocol ci) && existsb (λ p, bool_decide (p ∈ ci_Alpn ci)) (fcm_ApplicationProtocols m)
  end.
Definition select (chains : list FilterChain) (ci : ConnInfo) : option FilterChain := List.find (asks ci) chains.

(** Variants of the mesh. *)
Definition with_controller (ctl : Controller) (sp : MeshSpec) : MeshCatalog := {|
  mc_endpointsProviders := [kube_provider Matches ctl];
  mc_serviceProviders := [kube_provider Matches ctl];
  mc_meshSpec := sp;
  mc_configurator := config false;
  mc_GetTrustDomain := "cluster.local";
  mc_kubeController := ctl;
  mc_policyController := policy_client policies ctl;
  mc_multiclusterController := nocluster;
|}.

Definition two_ports : Controller := client Matches {|
  inf_Namespace := inf_Namespace informers;
  inf_Service := store_of {["demo/bookstore" := mkK8sService "demo" "bookstore" "uid-bookstore" ∅ {["app" := "bookstore"]} "10.96.0.2"
    [mkServicePort "http-web" 80 None; mkServicePort "http-alt" 8080 None]]};
  inf_ServiceAccount := inf_ServiceAccount informers;
  inf_Pod := inf_Pod informers;
  inf_Endpoints := store_of {["demo/bookstore" := mkEndpoints "demo" "bookstore" ∅
    [mkEndpointSubset [mkEndpointAddress "10.0.0.2" ""] [mkEndpointPort "http-web" 8080; mkEndpointPort "http-alt" 8080]]]};
|}.
Definition alt_svc : MeshService := mkMeshService "demo" "bookstore" 8080 8080 "http" "".

Definition two_splits : MeshSpec := smi_client {|
  smi_TrafficSplit := store_of (list_to_map [("demo/shop-split", split);
    ("demo/shop-split-2", mkTrafficSplit "demo" "shop-split-2" "shop" [mkTrafficSplitBackend "bookstore" 100] [])]);
  smi_HTTPRouteGroup := store_of {["demo/routes" := mkHTTPRouteGroup "demo" "routes" (Some [mkHTTPMatch "buy" (Some ["GET"]) "/buy" None])]};
  smi_TCPRoute := store_of ∅;
  smi_TrafficTarget := store_of {["demo/access" := target]};
|} controller.
End Listeners.

Import Mesh Envoy Listeners.

Lemma answers_Ok {E A} (r : outcome (result E (list A))) : answers r = true → r = Ret (Ok (answer r)).
Proof. by destruct r as [[]|]. Qed.

Lemma asks_spec ci fc : asks ci fc = true ↔ asks_for fc ci.
Proof.
  unfold asks, asks_for. destruct (fc_FilterChainMatch fc) as [m|]; [|naive_solver].
  rewrite !andb_true_iff, !bool_decide_eq_true, existsb_exists. setoid_rewrite <-list_elem_of_In. setoid_rewrite bool_decide_eq_true. naive_solver.
Qed.

#[global] Instance select_engine : ChainEngine select.
Proof.
  split.
  - intros chains ci fc [? _]%find_some. by apply list_elem_of_In.
  - intros chains ci fc fcm _ _ Hin _ _ Hasks%asks_spec. unfold select. destruct (List.find (asks ci) chains) as [fc'|] eqn:E.
    + exists fc'. split; [done|]. apply asks_spec. by apply find_some in E as [_ ?].
    + rewrite (find_none _ _ E fc) in Hasks; [done|by apply list_elem_of_In].
Qed.

(** ** Witnesses *)

Lemma listeners_resolve_witness :
  NoDup (cl_Name <$> answer (cds catalog bookbuyer_proxy)) ∧
  ∀ l fc, l ∈ answer (lds catalog bookbuyer_proxy) → fc ∈ listener_chains l →
    (∀ name, name ∈ chain_routes fc → name ∈ rc_Name <$> answer (rds bookbuyer_proxy None)) ∧
    (∀ name, name ∈ chain_clusters fc → name ∈ cl_Name <$> answer (cds catalog bookbuyer_proxy) ∨ split_backend catalog (p_Identity bookbuyer_proxy) name).
Proof.
  apply (listeners_resolve encodesC encodesL "module" catalog "cluster.local" Matches hashMatch hashCluster settings flags bookbuyer_proxy None).
  - exact demo_hash_faithful.
  - apply answers_Ok. vm_compute. reflexivity.
  - apply answers_Ok. vm_compute. reflexivity.
  - apply answers_Ok. vm_compute. reflexivity.
Defined.

Lemma no_limit mc svc :
  pol_GetUpstreamTrafficSetting (mc_policyController mc) (by_service svc) = Ret (Some setting) → service_limit_ok mc svc.
Proof. intros Hs uts Hu. rewrite Hs in Hu. injection Hu as <-. intros tcp Htcp. discriminate Htcp. Qed.

Lemma bookstore_has_chain mc port :
  pol_GetUpstreamTrafficSetting (mc_policyController mc) (by_service (mkMeshService "demo" "bookstore" port 8080 "http" "")) = Ret (Some setting) →
  has_chain mc (mkMeshService "demo" "bookstore" port 8080 "http" "").
Proof. intros Hs. split; [by left|by apply no_limit]. Qed.

Abbreviation two_ports_catalog := (with_controller two_ports spec).

Lemma same_target_port_refused_witness :
  ∃ l, l ∈ answer (lds two_ports_catalog proxy) ∧ li_Name l = InboundListenerName ∧ ¬ NoDup (fc_FilterChainMatch <$> li_FilterChains l).
Proof.
  apply (same_target_port_refused encodesL "module" two_ports_catalog "cluster.local" Matches hashMatch hashCluster settings proxy _
    [bookstore_svc; alt_svc] bookstore_svc alt_svc).
  - apply answers_Ok. vm_compute. reflexivity.
  - vm_compute. reflexivity.
  - by left.
  - right. by left.
  - discriminate.
  - reflexivity.
  - reflexivity.
  - apply bookstore_has_chain. vm_compute. reflexivity.
  - apply bookstore_has_chain. vm_compute. reflexivity.
Defined.

Lemma two_splits_refused_witness :
  ∃ l, l ∈ answer (lds (with_controller controller two_splits) bookbuyer_proxy) ∧ li_Name l = OutboundListenerName ∧
    ¬ NoDup (fc_FilterChainMatch <$> li_FilterChains l).
Proof.
  eapply (two_splits_refused encodesL "module" (with_controller controller two_splits) "cluster.local" Matches hashMatch hashCluster settings
    bookbuyer_proxy _ [shop_svc; bookstore_svc] shop_svc).
  - apply answers_Ok. vm_compute. reflexivity.
  - vm_compute. reflexivity.
  - by left.
  - by left.
  - vm_compute. discriminate.
  - vm_compute. reflexivity.
Defined.

Definition bookstore_cluster : Cluster :=
  default getPrometheusCluster (head (filter (λ c, cl_Name c = "demo/bookstore|8080") (answer (cds catalog bookbuyer_proxy)))).
Definition bookstore_socket : UpstreamSocket :=
  default (mkUpstreamSocket "" (mkUpstreamTlsContext (mkCommonTlsContext (mkTlsParameters 0 0 [] []) [] None []) "")) (cl_TransportSocket bookstore_cluster).

Lemma demo_names_ok osvcs s : ListOutboundServicesForIdentity catalog (p_Identity bookbuyer_proxy) = Ret osvcs → s ∈ osvcs → ms_names_ok s.
Proof.
  intros Ho Hs. assert (osvcs = [shop_svc; bookstore_svc]) as ->.
  { assert (ListOutboundServicesForIdentity catalog (p_Identity bookbuyer_proxy) = Ret [shop_svc; bookstore_svc]) as E by (vm_compute; reflexivity).
    rewrite E in Ho. by injection Ho. }
  clear Ho. apply elem_of_two in Hs as [->| ->]; by split.
Qed.

Lemma mesh_connection_served_witness :
  ∃ l, l ∈ answer (lds catalog proxy) ∧ li_Name l = InboundListenerName ∧
    (NoDup (fc_FilterChainMatch <$> li_FilterChains l) →
     ∃ fc svc', select (li_FilterChains l) (connects (us_TypedConfig bookstore_socket) (uint32 8080)) = Some fc ∧
       svc' ∈ [shop_svc; bookstore_svc] ∧ ServerName svc' = "bookstore.demo.svc.cluster.local" ∧ uint32 (ms_TargetPort svc') = uint32 8080 ∧
       serves catalog settings proxy svc' fc).
Proof.
  apply (mesh_connection_served encodesC encodesL "module" catalog "cluster.local" Matches hashMatch hashCluster settings select bookbuyer_proxy proxy
    (answer (cds catalog bookbuyer_proxy)) bookstore_cluster bookstore_socket _ [shop_svc; bookstore_svc] bookstore_svc).
  - apply answers_Ok. vm_compute. reflexivity.
  - assert (bookstore_cluster ∈ filter (λ c, cl_Name c = "demo/bookstore|8080") (answer (cds catalog bookbuyer_proxy))) as [_ ?]%list_elem_of_filter;
      [|done]. apply head_elem. vm_compute. discriminate.
  - vm_compute. reflexivity.
  - vm_compute. reflexivity.
  - exact demo_names_ok.
  - apply answers_Ok. vm_compute. reflexivity.
  - vm_compute. reflexivity.
  - right. by left.
  - done.
  - apply bookstore_has_chain. vm_compute. reflexivity.
Defined.

Lemma tls_secrets_roundtrip_witness :
  ∃ up, GetUpstreamTLSContext "bookbuyer.demo" bookstore_svc (es_Sidecar settings) = Ret up ∧
    sec_Name <$> getSDSSecrets catalog "cluster.local" cert (secret_names (utc_CommonTlsContext up)) =
      ["service-cert:demo/bookbuyer"; "root-cert-for-mtls-outbound:demo/bookstore"].
Proof.
  destruct (tls_secrets_roundtrip catalog "cluster.local" bookbuyer bookstore_svc true (es_Sidecar settings) cert)
    as (up & down & Hup & _ & _ & Hn & _); [done..|].
  exists up. split; [exact Hup|]. rewrite Hn. vm_compute in Hup. injection Hup as <-. reflexivity.
Defined.
