(* ===== verification/DemoMulticluster.v ===== *)
(** * The small mesh, with a service of two other clusters

    The mesh of [Demo] imports [library] from the clusters c1 and c2, under
    different policies.  The theorems about imported services are applied to it,
    and three behaviours of the load balancing are shown. *)

From S2P Require Import Prelude GoStrings Net Identity Service PolicyApi TrafficPolicy K8s K8sClient KubeProvider Smi PolicyClient Catalog CatalogEgress.
From S2P Require Import CatalogInbound CatalogOutbound CatalogIngress Multicluster FsmProvider Demo.

#[local] Open Scope Z_scope.

Module Imports.
Import Mesh.
Definition c1 : ImportEndpoint := mkImportEndpoint (mkImportTarget "c1.example" "10.1.0.1" 8081 "/c1") "r/z/g/c1".
Definition c2 : ImportEndpoint := mkImportEndpoint (mkImportTarget "c2.example" "10.2.0.1" 8082 "/c2") "r/z/g/c2".
Definition http (endpoints : list ImportEndpoint) : ImportPort := mkImportPort "http-web" None 80 endpoints.
Definition library (endpoints : list ImportEndpoint) : ServiceImport :=
  mkServiceImport "demo" "library" "uid-library" [http endpoints] "librarian".

Definition policy (lbType : string) (targets : list LoadBalanceTarget) : GlobalTrafficPolicy :=
  mkGlobalTrafficPolicy "demo" "library" lbType targets.
Definition both : list LoadBalanceTarget :=
  [mkLoadBalanceTarget "r/z/g/c1" (Some 30); mkLoadBalanceTarget "r/z/g/c2" (Some 70)].
Definition only_c1 : list LoadBalanceTarget := [mkLoadBalanceTarget "r/z/g/c1" (Some 30)].

Definition stores (endpoints : list ImportEndpoint) (p : GlobalTrafficPolicy) : MulticlusterInformers := {|
  inf_ServiceExport := store_of ∅;
  inf_ServiceImport := store_of {["demo/library" := library endpoints]};
  inf_GlobalTrafficPolicy := store_of {["demo/library" := p]};
  inf_IngressClass := store_of ∅;
|}.
Definition active : MulticlusterInformers := stores [c1; c2] (policy ActiveActiveLbType both).
Definition failover : MulticlusterInformers := stores [c1; c2] (policy FailOverLbType only_c1).
Definition partial : MulticlusterInformers := stores [c1; c2] (policy ActiveActiveLbType only_c1).

Definition provider (c : MulticlusterInformers) : Provider := fsm_provider Matches (provider_view Matches c).
Definition catalog_with (c : MulticlusterInformers) : MeshCatalog := {|
  mc_endpointsProviders := [kube_provider Matches controller; provider c];
  mc_serviceProviders := [kube_provider Matches controller; provider c];
  mc_meshSpec := spec;
  mc_configurator := config false;
  mc_GetTrustDomain := "cluster.local";
  mc_kubeController := controller;
  mc_policyController := policy_client policies controller;
  mc_multiclusterController := catalog_view c;
|}.

Definition library_at (tp : Z) (cluster : string) : MeshService := mkMeshService "demo" "library" 80 tp "http" cluster.
Definition backend : TrafficSplitBackend := mkTrafficSplitBackend "library" 100.

Lemma stores_list endpoints p : List (inf_ServiceImport (stores endpoints p)) = [library endpoints].
Proof. vm_compute. reflexivity. Qed.

Lemma stores_ok endpoints p : imports_ok (stores endpoints p).
Proof.
  split.
  - apply store_of_ok. by apply map_Forall_singleton.
  - intros si. rewrite stores_list. by intros ->%list_elem_of_singleton.
Qed.

Lemma stores_numbers endpoints p : numbers_ok (stores endpoints p).
Proof.
  intros si. rewrite stores_list. intros ->%list_elem_of_singleton. split; [apply NoDup_singleton|].
  intros port ->%list_elem_of_singleton. simpl. lia.
Qed.

Lemma stores_addresses p : addresses_ok (stores [c1; c2] p).
Proof.
  intros si port e. rewrite stores_list. intros ->%list_elem_of_singleton ->%list_elem_of_singleton.
  intros [->|[->|[]%elem_of_nil]%elem_of_cons]%elem_of_cons; split; (done || (vm_compute; eauto)).
Qed.
End Imports.

Import Mesh Imports.

Lemma imported_endpoints_roundtrip_witness :
  fsm_ListEndpointsForService (provider_view Matches active) (library_at 8082 "r/z/g/c2") =
  omap (endpointOf ActiveActiveLbType) [(c2, 70)].
Proof.
  apply (imported_endpoints_roundtrip Matches active (library_at 8082 "r/z/g/c2")
    (policy ActiveActiveLbType both) (library [c1; c2]) (http [c1; c2])).
  - by split.
  - done.
  - done.
  - done.
  - done.
  - intros e [->|[->|[]%elem_of_nil]%elem_of_cons]%elem_of_cons; done.
  - apply NoDup_singleton.
  - intros e w [= -> ->]%list_elem_of_singleton. done.
Defined.

Lemma imported_services_served_witness :
  ∃ p, balanced active (library_at 8082 "r/z/g/c2") p ∧
    (∃ ep, ep ∈ listEndpointsForService (catalog_with active) (library_at 8082 "r/z/g/c2") ∧
           follows_policy p (library_at 8082 "r/z/g/c2") ep) ∧
    ∀ ep, ep ∈ fsm_ListEndpointsForService (provider_view Matches active) (library_at 8082 "r/z/g/c2") →
          follows_policy p (library_at 8082 "r/z/g/c2") ep.
Proof.
  apply (imported_services_served Matches active (catalog_with active)).
  - apply stores_ok.
  - apply stores_addresses.
  - right. by left.
  - apply (bool_decide_unpack _). vm_compute. exact I.
Defined.

Lemma imported_identities_agree_witness :
  ToServiceIdentity (mkK8sServiceAccount "demo" "librarian") ∈
    fsm_ListServiceIdentitiesForService (provider_view Matches active) (library_at 8082 "r/z/g/c2") ∨
  ToServiceIdentity (mkK8sServiceAccount "demo" AnyServiceAccount) ∈
    fsm_ListServiceIdentitiesForService (provider_view Matches active) (library_at 8082 "r/z/g/c2").
Proof.
  apply (imported_identities_agree Matches active (mkK8sServiceAccount "demo" "librarian")
    [library_at 8081 "r/z/g/c1"; library_at 8082 "r/z/g/c1"; library_at 8081 "r/z/g/c2"; library_at 8082 "r/z/g/c2"]).
  - apply stores_ok.
  - done.
  - vm_compute. reflexivity.
  - apply (bool_decide_unpack _). vm_compute. exact I.
Defined.

Lemma split_backends_served_witness :
  false = bool_decide (FailOverLbType = ActiveActiveLbType) ∧
  ∃ tp ep, "demo/library|8081" = SidecarClusterName (backendAt shop_svc backend tp) ∧
    ep ∈ listEndpointsForService (catalog_with failover) (backendAt shop_svc backend tp) ∧
    follows_policy (policy FailOverLbType only_c1) (backendAt shop_svc backend tp) ep.
Proof.
  apply (split_backends_served Matches failover (catalog_with failover) shop_svc backend
    (policy FailOverLbType only_c1) "demo/library|8081" false).
  - apply stores_ok.
  - apply stores_addresses.
  - apply stores_numbers.
  - done.
  - right. by left.
  - done.
  - done.
  - by left.
  - apply (bool_decide_unpack _). vm_compute. exact I.
Defined.

Lemma c2_backend : backend_address partial shop_svc backend c2.
Proof. exists (library [c1; c2]), (http [c1; c2]). split_and!; [done|by left|done|done|right; by left]. Qed.

Lemma split_ignores_targets_witness :
  ("demo/library|8082", true) ∈ importedBackends (catalog_with partial) shop_svc backend ∧
  fsm_ListEndpointsForService (provider_view Matches partial) (backendAt shop_svc backend 8082) = [].
Proof.
  destruct (split_ignores_targets Matches partial (catalog_with partial) shop_svc backend
    (policy ActiveActiveLbType only_c1) c2) as [Hin Hno].
  - apply stores_ok.
  - apply stores_addresses.
  - apply stores_numbers.
  - done.
  - done.
  - done.
  - done.
  - done.
  - apply (bool_decide_unpack _). vm_compute. exact I.
  - apply c2_backend.
  - split; [exact Hin|]. apply Hno. intros e' (si & sp & [= <-] & ->%list_elem_of_singleton & _ & _ & He').
    revert He'. intros [->|[->|[]%elem_of_nil]%elem_of_cons]%elem_of_cons Hport; [done|].
    apply (bool_decide_unpack _). vm_compute. exact I.
Defined.

(** ** Behaviours of the load balancing *)

(** Two clusters behind one address: both endpoints get the path and the cluster
    of the last. *)
Example shared_address_collapses :
  let gateway cluster path := mkImportEndpoint (mkImportTarget "gw" "10.9.0.1" 80 path) cluster in
  let c := stores [gateway "r/z/g/c1" "/c1"; gateway "r/z/g/c2" "/c2"] (policy ActiveActiveLbType both) in
  (λ ep, (ep_ClusterKey ep, ep_Path ep)) <$>
    fsm_ListEndpointsForService (provider_view Matches c) (library_at 80 "r/z/g/c1") =
  [("r/z/g/c2", "/c2"); ("r/z/g/c2", "/c2")].
Proof. vm_compute. reflexivity. Qed.

(** A cluster with the weight zero gets the weight of a service without weights. *)
Example zero_weight_accepts_all :
  let c := stores [c1; c2] (policy ActiveActiveLbType [mkLoadBalanceTarget "r/z/g/c1" (Some 0)]) in
  wc_Weight <$> mergeUpstreamClusters (catalog_with c) (library_at 8081 "r/z/g/c1") [] = [100].
Proof. vm_compute. reflexivity. Qed.

(** The cluster of a listed service and its target port need not belong together:
    the target port of c2 is also listed with the weight of c1. *)
Example cluster_and_port_mixed :
  library_at 8082 "r/z/g/c1" ∈ fsm_ListServices (provider_view Matches active) ∧
  mergeUpstreamClusters (catalog_with active) (library_at 8082 "r/z/g/c1") [] =
    [mkWeightedCluster "demo/library|8082" 30] ∧
  mergeUpstreamClusters (catalog_with active) (library_at 8082 "r/z/g/c2") [] =
    [mkWeightedCluster "demo/library|8082" 70].
Proof. split_and!; [apply (bool_decide_unpack _); vm_compute; exact I|vm_compute; reflexivity..]. Qed.
